(* ===== verification/_CoqProject ===== *)
-Q . S2P
Prelude.v
Split.v
System.v
Argv.v
Host.v
Detect.v
DetectProofs.v
ConfigDir.v
SlurmJobs.v
Archive.v
Manifest.v
Session.v
Transfer.v
Delivery.v
Wire.v
BackendFiles.v
SlurmLayout.v
SlurmArgs.v
Launch.v
Daemon.v
Handlers.v
FEIface.v
Requests.v
SlurmApp.v
SlurmAppProofs.v
PalsJobs.v
PalsApp.v
PalsProofs.v
SshSession.v
EproxyApp.v
SshApp.v
SshProofs.v
EproxyProofs.v
Paths.v
BeState.v
BeLayout.v
BePals.v
BeLib.v
BeProofs.v
BePmiProofs.v
BeOptions.v
BeDaemon.v
BeOptionProofs.v
BeDaemonProofs.v
BeCheck.v
LocalApp.v
LocalProofs.v
AlpsApp.v
AlpsProofs.v
DaemonProofs.v
AppRegistry.v
Client.v
LaunchProofs.v
DaemonExamples.v
RemoteDaemon.v
Registry.v
Iface.v
IfaceProofs.v
IfaceFuncs.v
IfaceExamples.v
FluxAPI.v
FluxApp.v
FluxProofs.v
Mpir.v
MpirProofs.v
MpirShim.v
ShimProofs.v
LdVal.v
HostNames.v
NamesProofs.v
Preload.v
PreloadProofs.v
FEOps.v
FEOpsProofs.v
DaemonStart.v
StartProofs.v
FileLines.v
Handles.v
