(* ===== verification/Prelude.v ===== *)
(** * Common Tools Interface: verification library

    CTI lets a debugging or profiling tool on a login node launch or attach to a
    parallel job and place its own daemons and files beside the job's processes on
    the compute nodes.  This library models the C++ sources of its frontend and the C
    sources of what runs on the compute nodes.

    ** The program and the files that model it

    A tool calls the C entry points of [cti_fe_iface.cpp].  They turn identifiers into
    objects through handle registries, run C++ code and turn its exceptions into error
    values.  The objects form a tree: the frontend owns applications, an application
    owns sessions, a session owns manifests.  A manifest collects files; when it is
    sent, the session writes them into an archive, which the workload manager of the
    application ships to the compute nodes, and remembers what is there.  Processes are
    started by a separate program, the frontend daemon, which answers requests on a pair
    of sockets and ends what it has started when the tool goes away.  On every node the
    backend daemon unpacks the archive, waits for the instances before it and becomes the
    tool's own daemon, which finds the processes of the application with the backend
    library.

    Shared parts:
    - [Prelude]: outcomes of C++ code ([res]), code with state that may throw ([M]),
      strings and numbers of the standard library, and the automation and lemmas shared
      by all files;
    - [Split] (useful/cti_split.hpp) and [Argv] (useful/cti_argv.hpp,
      cti_argv_defs.hpp): splitting of strings and argument vectors;
    - [Host]: the operating system as the class [Host], with the wrappers of
      useful/cti_wrappers.hpp; [System]: running a program and reading its output
      (useful/cti_execvp.hpp), over a trace of what was done; [Paths] (useful/cti_path.c).

    The transfer layer, the C interface and the frontend itself:
    - [Archive], [Manifest], [Session] (frontend/transfer/): the transfer layer as code
      over a [world] of one session and a heap of manifests, shared by reference;
    - [Transfer]: the invariant of the transfer layer and the life of a manifest;
      [Delivery]: what is recorded as shipped is in a shipped package;
    - [Registry] (cti_fe_iface.hpp), [Iface] (cti_fe_iface.cpp and the owners in
      Frontend.cpp): the C interface; [IfaceProofs], [IfaceFuncs], [IfaceExamples]: its
      properties and concrete runs; [FEOps], [FEOpsProofs]: the operations that belong to one
      workload manager;
    - [Detect], [DetectProofs]: the detection of system and workload manager and the choice
      of the frontend's class; [ConfigDir]: its directories (Frontend.cpp).

    The frontend daemon and its clients:
    - [Wire] (cti_fe_daemon_iface.hpp, .cpp, FdBuf of useful/cti_execvp.hpp): the bytes of
      every message, the loops over partial reads and writes, the stream buffer;
    - [Launch]: the launch parameters, from writeLaunchData to readLaunchData;
    - [Daemon], [Handlers] (daemon/cti_fe_daemon.cpp): the daemon's global state as a
      record, its registry, launches, request handlers, main loop and signal handlers;
    - [FEIface] (cti_fe_daemon_iface.cpp): the requests and response readers of the
      library, run against the daemon at the other end of the sockets;
    - [DaemonStart], [StartProofs] (FE_daemon::initialize, FdPair, the beginning of the
      daemon's main): how a client becomes two processes with sockets between them;
      [Handles]: owners of descriptors (useful/cti_wrappers.hpp);
    - [Mpir], [MpirProofs] (mpir_iface/Inferior.cpp, MPIRInstance.cpp): launchers under the
      control of Dyninst, up to the table of processes, as an instance of what the daemon
      needs; [MpirShim], [ShimProofs] (daemon/mpir_shim.cpp): the program that stands in for
      a launcher that a script starts;
    - [DaemonProofs], [AppRegistry], [Client], [LaunchProofs], [DaemonExamples]: the
      properties of the daemon and of requests from end to end, and concrete runs;
    - [Requests]: the requests as an interface that the workload managers are written
      against, and the search for files on all nodes;
    - [SshSession], [RemoteDaemon] (SSHSession.cpp): sessions with other hosts, and the
      protocol with a daemon there, run against the model of the daemon.

    Workload managers (frontend/frontend_impl/):
    - [SlurmJobs], [SlurmLayout], [SlurmArgs], [SlurmApp], [SlurmAppProofs]: Slurm;
      [EproxyApp], [EproxyProofs]: Slurm through a daemon on another login node;
    - [PalsJobs], [PalsApp], [PalsProofs]: PALS; [Preload], [PreloadProofs]
      (daemon/libctipreloadpals.c): the library that holds the processes of its jobs at a
      barrier;
    - [SshApp], [SshProofs]: generic SSH; [LocalApp], [LocalProofs]: localhost;
    - [AlpsApp], [AlpsProofs]: ALPS;
    - [FluxAPI] (Flux/FluxAPI.hpp and the helpers of Flux/Frontend.cpp): the compressed
      process tables of the Flux workload manager; [FluxApp], [FluxProofs]: its applications
      and daemons (Flux/Frontend.cpp);
    - [BackendFiles]: the files that these make for the backend, byte by byte;
    - [LdVal] (useful/ld_val/ld_val.c): the libraries that a program needs;
      [HostNames], [NamesProofs] (useful/cti_hostname.hpp): the address of the frontend.

    Compute nodes (backend/):
    - [BeState]: the state of the backend library and the parser of PMI's file
      (pmi_attribs_parser.c); [BeLayout]: layout and process files, Slurm, generic SSH, Flux
      and localhost (slurm_be.c, generic_ssh_be.c, flux_be.c, localhost_be.c); [FileLines]:
      the reader of lines of slurm_be.c; [BePals]
      (pals_be.c); [BeLib]: the interface of the library and ALPS (cti_be.c, alps_be.c);
      [BeProofs], [BePmiProofs]: what tool daemons find;
    - [BeOptions]: getopt_long and the stack of settings (useful/cti_stack.c); [BeDaemon]:
      the backend daemon from its options to the exec of the tool (cti_be_daemon.c,
      *_dl.c, useful/cti_log.c); [BeOptionProofs], [BeDaemonProofs]: its properties;
      [BeCheck]: the check for files from the daemons to the frontend, and concrete runs.

    Functions keep the names of the sources.  State is passed explicitly: a function
    that changes an object is code in [M] over the record of that object, with the
    changes made before an exception kept, as in C++.  Undefined behaviour is an outcome
    of its own, [Undef], which no handler catches.

    ** Interfaces

    What the modelled code calls but does not define is a class whose fields are
    parameters of all theorems: [Host] (files, permissions, dependencies of binaries),
    [Tar] (libarchive and the directory trees it archives), [App] (an application of a
    workload manager, as sessions use it), [Kernel] (how much a read or write transfers),
    [ReqSocket] (passing descriptors), [Procs] (processes and signals), [MPIR] (the
    control of launchers, implemented in [Mpir] over [Dyninst], the debugger library),
    [ShimSystem] (the process of the shim), [Wlm] and [WlmOps] (the virtual functions of
    frontends and applications, and those of one workload manager), [SignalCalls] (signal
    masks), [Preloading] (the dynamic linker, pkg-config and libpals in a process of a job),
    [Linkers] (the dynamic linkers and what they print), [Network] (host names), [PTreeNum] and [FluxEnv] (numbers and files of the Flux code),
    [Commands] (what programs print and how they end), [Build] and [WlmDetect] (constants
    of the build, libwlm_detect), [FileSys] and [Install] (directories), [SlurmHost],
    [LocalHost] (this node), [FrontendDaemon] and [InstalledPrograms] (answers to requests,
    programs CTI brings along), [Ssh] (libssh2), [Aprun] (aprun, libalps, pipes), [LibFlux]
    (libflux, the parser of JSON), [Node], [LibPals], [LibAlps] (a compute
    node as the backend library sees it) and [Compute] (a compute node as the backend
    daemon sees it).  Each has a concrete instance on which the theorems are evaluated.
    Answers may depend on the trace of events so far, so nothing is assumed to stay the
    same unless a theorem says so.

    ** What is shown

    - Transfer: the invariant holds in every state clients can reach, calls that fail
      included; files listed by a shipped manifest are in a shipped package; a manifest is
      shipped once; package names are distinct; archiving a tree terminates and writes one
      entry per file.  Where delivery fails (a failed package, one base name in two
      folders) is shown as well.
    - Daemon: the registry stays consistent under every request, and under signals and the
      threads they start between requests, but for what applications with negative numbers
      leave; each request gets exactly one response of its kind, or its handler is undefined;
      the main loop ends; on exit everything is sent its signal, then SIGKILL, and waited for; the environment is restored after a launch; messages, launch parameters and
      process tables are read as they were written, for every pattern of short reads and
      writes; registering and deregistering do from end to end what they promise; a launch
      over SSH gives what the launch of the daemon there gives.
    - C interface: the ownership tree and the registries stay consistent under every
      sequence of calls; a handle that has become invalid stays so; deregistering an
      application invalidates all handles below it, and sending a manifest uses its
      handle up; no exception escapes; error texts stay within buffers; the launch
      environment, the binary list, waiting and the symbol search compute what they
      should, under stated conditions; an operation of a workload manager that is not in use
      is refused.
    - Processes and descriptors: the daemon finds its ends of the sockets under the numbers in
      its arguments; the two processes of the fork never wait for each other forever; a launcher
      under control has not run before its breakpoint is set, gets there, and the table that is
      reported is that in its memory; the shim leaves the launcher stopped; pairs and owners of
      descriptors give back exactly what they took.  That a client can exit because the daemon
      was fast, and that the assignment of an owner leaks, is shown as well.
    - Frontend: the class chosen is one supported for what was detected; the directory of
      the process is private to the user.
    - Workload managers: layouts give every rank of a job once; waiting ends as often as it
      should and no earlier; process tables are read as the programs print them; launch
      arguments keep their form; packages reach the nodes, in a bounded number of attempts;
      a host key that has changed ends a session; a failure through eproxy stops the daemon
      there and is explained; a launch of aprun that fails kills its launcher, but for a wrapper
      that was let go of; the command that runs a daemon under ALPS is a single one and has the
      words it was given; the encoding of number lists of Flux is inverted and its
      placement counts every process once; the jobs of daemons under Flux that were started are
      cancelled with their application.
      Where Flux applications share what should be their own, and where the check for files
      finds none, is shown as well.  The barrier library undoes what the launch did to the
      environment and enters the barrier when libpals can be used and the linker has no
      error to report; the libraries of a program are those its linker prints and the blacklist
      does not cover; the probe of an address ends, and is right unless a stranger connects.
    - Compute nodes: from the files that the frontends make, a tool daemon finds exactly the
      processes of its node with their ranks, under Slurm, PALS, Flux and generic SSH; the wait
      for PMI's file is bounded and the file read back; the backend daemon reads the options
      that the session writes, starts the tool only after earlier instances, with the
      environment it needs; the check for files finds what is on all nodes; a removed
      directory is removed with all below it.
    - Data: argument vectors implement lists; parameters and split strings are recovered,
      with the exact condition for two fields.

    ** Fuel and bounds

    Identifiers, lengths and counters have the width of the sources ([int], 32-bit
    message fields, [int64_t] handles); overflow of a signed counter is [Undef].
    Recursion that is not structural carries fuel, and each use is shown to have enough:
    [readLoop] and [writeLoop] are given the number of bytes still to transfer, as each
    round moves at least one; [main_loop] the length of the input, as each round takes at
    least a byte or stops; [read_chars] the length of the stream; [shim_path] the length
    of the path; [addPath] more than the depth of the tree; [wait_loop] one less than the
    number of five-second steps of the timeout; [send_block] and [send_blocks] the length of
    the block and the number of blocks; [find_processes] the number of processes below the
    root; [open_attribs] one more than the limit of naps; [wait_for] one more than the naps
    after which the file is there; [process_env_args] the number of elements of the stack;
    [wait_forever_for_application_state] as many rounds as come before the state does;
    [await_shell] one more than the events before the start of the shell; [await_sync] and
    [open_flux] one more than the number of interruptions; [continueRun] and
    [runToMPIRBreakpoint] the waits and the stops before the breakpoint; [read_chars_at] one
    more than the length of the text; [read_libs] the number of reads and [walk] one more than
    the bytes read; [network_names] the length of the text; [file_read_line] and [read_lines]
    one more than the length of the file.
    Running out is an outcome ([Undef] or none), never a result.

    ** What is not modelled

    - checksums (frontend/checksum/libchecksum.cpp), diagnostics, messages to debug logs, the
      audit library that a dynamic linker loads (ld_val/audit.c), and tests: input and output
      of single programs, without state of their own;
    - of files that are modelled: the child of [Execvp] and the child that runs a dynamic
      linker, descriptors handed to launches beyond their numbers, functions that free
      results, temporary names and passwd entries, the set-up of the probe's socket, moving
      and destroying SSH sessions, files that are written in part, children that go on after
      exec has failed, and allocations that fail for want of memory;
    - signals that arrive while the daemon handles a request, and the threads that its signal
      handler starts while another thread uses the same maps: they act between requests here;
      errors of reads that [fgets] hides;
    - tasks that the code runs at once on many hosts are run in order; the lock that makes
      calls of the C interface sequential is why calls are sequences of steps here. *)

From Stdlib Require Export ZArith Lia Ascii String.
From stdpp Require Export base gmap strings list option fin_maps sorting.
From Stdlib Require Import DecimalString DecimalZ DecimalPos DecimalFacts.

#[export] Set Default Goal Selector "!".

(** ** Outcomes of C++ code

    [Ok] is a normal return, [Throw] an exception derived from
    [std::exception] with its [what()] text, and [Undef] stands for undefined
    behaviour or a failed assertion, which no handler catches. *)
Inductive res (A : Type) : Type :=
| Ok (a : A)
| Throw (what : string)
| Undef (why : string).
Arguments Ok {A} a.
Arguments Throw {A} what.
Arguments Undef {A} why.

(** Stateful code that may throw.  As in C++, an exception does not undo the
    changes made before it: the state is returned in every case. *)
Definition M (S A : Type) : Type := S → res A * S.

#[export] Instance M_ret (S : Type) : MRet (M S) := λ A a s, (Ok a, s).

#[export] Instance M_bind (S : Type) : MBind (M S) := λ A B k m s,
  match m s with
  | (Ok a, s') => k a s'
  | (Throw e, s') => (Throw e, s')
  | (Undef e, s') => (Undef e, s')
  end.

#[export] Instance res_ret : MRet res := λ A a, Ok a.

#[export] Instance res_bind : MBind res := λ A B k m,
  match m with
  | Ok a => k a
  | Throw e => Throw e
  | Undef e => Undef e
  end.

Definition throw {S A : Type} (e : string) : M S A := λ s, (Throw e, s).

Definition undef {S A : Type} (e : string) : M S A := λ s, (Undef e, s).

Definition get {S : Type} : M S S := λ s, (Ok s, s).

Definition gets {S A : Type} (f : S → A) : M S A := λ s, (Ok (f s), s).

Definition modify {S : Type} (f : S → S) : M S () := λ s, (Ok tt, f s).

Definition lift {S A : Type} (r : res A) : M S A := λ s, (r, s).

(** [try { m } catch (std::exception const& ex) { h(ex.what()) }] *)
Definition try_catch {S A : Type} (m : M S A) (h : string → M S A) : M S A := λ s,
  match m s with
  | (Throw e, s') => h e s'
  | r => r
  end.

(** Code with a destructor that runs on every way out, exceptions included. *)
Definition finally {S A : Type} (m : M S A) (f : M S ()) : M S A := λ s,
  let '(r, s1) := m s in
  match r with
  | Undef e => (Undef e, s1)
  | _ => (r, (f s1).2)
  end.

(** A range-based [for] whose body may throw. *)
Fixpoint for_each {S A : Type} (l : list A) (f : A → M S ()) : M S () :=
  match l with
  | [] => mret tt
  | a :: l' => f a ;; for_each l' f
  end.

(** Zooming on a part of the state: run code on the component selected by a
    getter and written back by a setter. *)
Definition zoom {S T A : Type} (getter : S → T) (setter : T → S → S) (m : M T A) : M S A :=
  λ s, let '(r, t) := m (getter s) in (r, setter t s).

(** ** Strings *)

Declare Scope cti_scope.
Delimit Scope cti_scope with cti.
Open Scope string_scope.
Open Scope list_scope.
Open Scope Z_scope.

#[global] Arguments String.append : simpl nomatch.

Definition is_empty (s : string) : bool :=
  match s with "" => true | _ => false end.

(** [std::string::find(c)] for one character: split at the first occurrence. *)
Fixpoint split_at (c : ascii) (s : string) : option (string * string) :=
  match s with
  | "" => None
  | String x s' =>
      if decide (x = c) then Some ("", s')
      else match split_at c s' with
           | Some (a, b) => Some (String x a, b)
           | None => None
           end
  end.

Fixpoint string_forall (p : ascii → bool) (s : string) : bool :=
  match s with
  | "" => true
  | String c s' => p c && string_forall p s'
  end.

Definition no_char (c : ascii) (s : string) : bool :=
  string_forall (λ x, bool_decide (x ≠ c)) s.

(** The C string of a [std::string]: [c_str()] read up to the first NUL. *)
Definition c_str (s : string) : string :=
  match split_at "000"%char s with Some (a, _) => a | None => s end.

Definition nul_free (s : string) : bool := no_char "000"%char s.

(** [s.rfind(p, 0) == 0]: [p] is a prefix of [s]. *)
Fixpoint starts_with (p s : string) : bool :=
  match p, s with
  | "", _ => true
  | String a p', String b s' => bool_decide (a = b) && starts_with p' s'
  | _, _ => false
  end.

(** [find_first_not_of] and [find_last_not_of] for a set of characters given as
    a predicate; [None] is [npos]. *)
Fixpoint find_first_not_of (p : ascii → bool) (s : string) : option nat :=
  match s with
  | "" => None
  | String c s' => if p c then S <$> find_first_not_of p s' else Some O
  end.

Fixpoint find_last_not_of (p : ascii → bool) (s : string) : option nat :=
  match s with
  | "" => None
  | String c s' =>
      match find_last_not_of p s' with
      | Some i => Some (S i)
      | None => if p c then None else Some O
      end
  end.

(** [s.substr(pos, n)] and [s.substr(pos)] for [pos <= s.size()]. *)
Definition substr (pos n : nat) (s : string) : string := String.substring pos n s.

(** That many characters 0. *)
Fixpoint zeros (n : nat) : string :=
  match n with O => "" | S n' => String "0" (zeros n') end.

Fixpoint drop_str (pos : nat) (s : string) : string :=
  match pos, s with
  | S n, String _ s' => drop_str n s'
  | _, _ => s
  end.

(** The character classes of the "C" locale. *)
Definition is_space (c : ascii) : bool :=
  let n := Ascii.nat_of_ascii c in
  (n =? 32)%nat || ((9 <=? n)%nat && (n <=? 13)%nat).

Definition is_digit (c : ascii) : bool :=
  let n := Ascii.nat_of_ascii c in (48 <=? n)%nat && (n <=? 57)%nat.

Definition is_alnum (c : ascii) : bool :=
  let n := Ascii.nat_of_ascii c in
  is_digit c || ((65 <=? n)%nat && (n <=? 90)%nat) || ((97 <=? n)%nat && (n <=? 122)%nat).

Definition digit_val (c : ascii) : Z := Z.of_nat (Ascii.nat_of_ascii c) - 48.

(** [std::to_string] of an integer. *)
Definition to_string (z : Z) : string := NilZero.string_of_int (Z.to_int z).

(** Longest prefix of digits, its value, the number of digits read and the rest. *)
Fixpoint read_digits (acc : Z) (n : nat) (s : string) : Z * nat * string :=
  match s with
  | String c s' =>
      if is_digit c then read_digits (acc * 10 + digit_val c) (S n) s'
      else (acc, n, s)
  | "" => (acc, n, "")
  end.

Fixpoint skip_space (s : string) : string :=
  match s with
  | String c s' => if is_space c then skip_space s' else s
  | "" => ""
  end.

Definition int_min : Z := - 2 ^ 31.
Definition int_max : Z := 2 ^ 31 - 1.
Definition in_int (z : Z) : bool := (int_min <=? z) && (z <=? int_max).

(** Optional white space, optional sign, decimal digits: the value and the
    characters left unread; [None] when there is no digit. *)
Definition read_int (s : string) : option (Z * string) :=
  let s1 := skip_space s in
  let '(neg, s2) :=
    match s1 with
    | String c s' =>
        if decide (c = "-"%char) then (true, s')
        else if decide (c = "+"%char) then (false, s') else (false, s1)
    | "" => (false, "")
    end in
  match read_digits 0 0 s2 with
  | (_, O, _) => None
  | (v, S _, rest) => Some (if (neg : bool) then - v else v, rest)
  end.

(** [std::stoi(s, &end, 10)]: [std::invalid_argument] without a digit,
    [std::out_of_range] outside of [int]. *)
Definition stoi (s : string) : res (Z * string) :=
  match read_int s with
  | Some (z, rest) => if in_int z then Ok (z, rest) else Throw "stoi"
  | None => Throw "stoi"
  end.

(** [std::stoul]: the value modulo [2^64] of an optionally signed number whose
    magnitude fits. *)
Definition stoul (s : string) : res Z :=
  match read_int s with
  | Some (z, _) => if Z.abs z <? 2 ^ 64 then Ok (z mod 2 ^ 64) else Throw "stoul"
  | None => Throw "stoul"
  end.

(** Iteration over [std::set<std::string>] and the keys of
    [std::map<std::string, T>] is in lexicographic order of the bytes. *)
Definition string_le (a b : string) : Prop := Is_true (String.leb a b).

#[export] Instance string_le_dec : RelDecision string_le := λ a b, decide (Is_true (String.leb a b)).

Definition sorted_elements (X : gset string) : list string :=
  merge_sort string_le (elements X).

Definition sorted_keys {A : Type} (m : gmap string A) : list string :=
  sorted_elements (dom m).

(** ** Reasoning about [M] *)

(** [preserves I m]: [m] keeps the invariant [I], whether it returns or throws. *)
Definition preserves {S A : Type} (I : S → Prop) (m : M S A) : Prop :=
  ∀ s, I s → I (m s).2.

(** Lemmas *)

Create HintDb cti.

Section MonadLemmas.
Context {S A B : Type}.
Implicit Types (I : S → Prop) (m : M S A) (k : A → M S B) (s : S).

Lemma bind_Ok m k s b s' :
  (m ≫= k) s = (Ok b, s') → ∃ a s1, m s = (Ok a, s1) ∧ k a s1 = (Ok b, s').
Proof.
  unfold mbind, M_bind. destruct (m s) as [[a|e|e] s1]; [|congruence..].
  intros H. by exists a, s1.
Qed.

Lemma Ok_inj (a a' : A) s s' : (Ok a, s) = (Ok a', s') → a = a' ∧ s = s'.
Proof. by intros [= -> ->]. Qed.

Lemma bind_run_Ok m k s a s1 : m s = (Ok a, s1) → (m ≫= k) s = k a s1.
Proof. unfold mbind, M_bind. by intros ->. Qed.

Lemma bind_run_Throw m k s e s1 : m s = (Throw e, s1) → (m ≫= k) s = (Throw e, s1).
Proof. unfold mbind, M_bind. by intros ->. Qed.

Lemma bind_run_Undef m k s e s1 : m s = (Undef e, s1) → (m ≫= k) s = (Undef e, s1).
Proof. unfold mbind, M_bind. by intros ->. Qed.

Lemma try_catch_run_Ok m h s a s1 : m s = (Ok a, s1) → try_catch m h s = (Ok a, s1).
Proof. unfold try_catch. by intros ->. Qed.

Lemma try_catch_run_Throw m h s e s1 :
  m s = (Throw e, s1) → try_catch m h s = h e s1.
Proof. unfold try_catch. by intros ->. Qed.

Lemma preserves_ret I (a : A) : preserves I (mret a : M S A).
Proof. by intros s. Qed.

Lemma preserves_throw I e : preserves I (throw e : M S A).
Proof. by intros s. Qed.

Lemma preserves_undef I e : preserves I (undef e : M S A).
Proof. by intros s. Qed.

Lemma preserves_lift I (r : res A) : preserves I (lift r).
Proof. by intros s. Qed.

Lemma preserves_gets I (f : S → A) : preserves I (gets f).
Proof. by intros s. Qed.

Lemma preserves_bind I m k :
  preserves I m → (∀ a, preserves I (k a)) → preserves I (m ≫= k).
Proof.
  intros Hm Hk s Hs. specialize (Hm s Hs). unfold mbind, M_bind.
  destruct (m s) as [[a|e|e] s1]; [|done..]. by apply Hk.
Qed.

Lemma preserves_try_catch I m h :
  preserves I m → (∀ e, preserves I (h e)) → preserves I (try_catch m h).
Proof.
  intros Hm Hh s Hs. specialize (Hm s Hs). unfold try_catch.
  destruct (m s) as [[a|e|e] s1]; [done| |done]. by apply Hh.
Qed.

Lemma preserves_for_each I (l : list A) (f : A → M S ()) :
  (∀ a, a ∈ l → preserves I (f a)) → preserves I (for_each l f).
Proof.
  induction l as [|a l IH]; intros Hf s Hs; [done|]. cbn.
  specialize (Hf a (list_elem_of_here _ _) s Hs) as Ha. unfold mbind, M_bind.
  destruct (f a s) as [[[]|e|e] s1]; [|done..].
  apply IH; [|done]. intros b Hb. apply Hf. by apply list_elem_of_further.
Qed.
End MonadLemmas.

Lemma preserves_get_only {S : Type} (I : S → Prop) : preserves I (get : M S S).
Proof. by intros s. Qed.
#[export] Hint Resolve preserves_get_only : cti.

Lemma preserves_modify {S : Type} (I : S → Prop) (f : S → S) :
  (∀ s, I s → I (f s)) → preserves I (modify f).
Proof. intros Hf s Hs. by apply Hf. Qed.

Lemma preserves_get {S A : Type} (I : S → Prop) (k : S → M S A) :
  (∀ s, I s → I (k s s).2) → preserves I (get ≫= k).
Proof. intros Hk s Hs. by apply Hk. Qed.

Create Rewrite HintDb cti_rw.
(** Invariants under code that only inspects the state. *)
Lemma preserves_conj {S A : Type} (I J : S → Prop) (m : M S A) :
  preserves I m → preserves J m → preserves (λ s, I s ∧ J s) m.
Proof. intros HI HJ s [Hi Hj]. split; [by apply HI|by apply HJ]. Qed.

Lemma preserves_iff {S A : Type} (I J : S → Prop) (m : M S A) :
  (∀ s, I s ↔ J s) → preserves I m → preserves J m.
Proof. intros HIJ HI s Hs. apply HIJ, HI, HIJ, Hs. Qed.

Lemma preserves_Ok {S A : Type} (I : S → Prop) (m : M S A) (s s' : S) (r : res A) :
  preserves I m → m s = (r, s') → I s → I s'.
Proof. intros Hp E Hs. specialize (Hp s Hs). by rewrite E in Hp. Qed.

#[export] Hint Resolve preserves_ret preserves_throw preserves_undef preserves_lift
  preserves_gets : cti.

(** Split a run that returned normally into the runs of its parts. *)
Ltac minv :=
  repeat match goal with
  | H : (_ ≫= _) _ = (Ok _, _) |- _ =>
      let a := fresh "a" in let s1 := fresh "s" in
      apply bind_Ok in H as (a & s1 & ? & ?)
  | H : (Ok _, _) = (Ok _, _) |- _ => apply Ok_inj in H as [? ?]; subst
  | H : mret _ _ = (Ok _, _) |- _ => cbv [mret M_ret] in H
  | H : get _ = (Ok _, _) |- _ => cbv [get] in H
  | H : gets _ _ = (Ok _, _) |- _ => cbv [gets] in H
  | H : modify _ _ = (Ok _, _) |- _ => cbv [modify] in H
  | H : lift _ _ = (Ok _, _) |- _ => cbv [lift] in H
  | H : throw _ _ = (Ok _, _) |- _ => discriminate H
  | H : undef _ _ = (Ok _, _) |- _ => discriminate H
  end; try done.

(** Preservation proofs follow the structure of the code: sequences, handlers and
    loops by the lemmas above, conditionals by case analysis, and the leaves by the
    hints of the components.  [preserve_stop] is extended by components whose state
    reads need the state in the continuation. *)
Ltac preserve_stop := fail.

Ltac preserve :=
  repeat first
    [ progress cbv beta zeta
    | match goal with
      | |- preserves _ (match ?x with _ => _ end) => destruct x
      | |- preserves _ (for_each _ _) => apply preserves_for_each; intros ? ?
      | |- preserves _ (try_catch _ _) => apply preserves_try_catch; [|intros ?]
      end
    | solve [eauto 4 with cti]
    | tryif preserve_stop then fail else
      match goal with
      | |- preserves _ (_ ≫= _) => apply preserves_bind; [|intros ?]
      end ].

(** Case analysis on the matches of the goal, with their equations. *)
Ltac case_matches :=
  repeat (case_match; simplify_eq/=; try done).

(** ** Lemmas on strings *)

Lemma string_app_nil_r (s : string) : s +:+ "" = s.
Proof. induction s as [|c s IH]; [done|]. cbn. by f_equal. Qed.

Lemma string_app_assoc (a b c : string) : (a +:+ b) +:+ c = a +:+ (b +:+ c).
Proof. induction a as [|x a IH]; [done|]. cbn. by f_equal. Qed.

Lemma string_app_inj_l (a b c : string) : a +:+ b = a +:+ c → b = c.
Proof. induction a as [|x a IH]; [done|]. cbn. by intros [= ?%IH]. Qed.

Lemma string_length_app (a b : string) :
  String.length (a +:+ b) = (String.length a + String.length b)%nat.
Proof. induction a as [|c a IH]; [done|]. cbn. by rewrite IH. Qed.

Lemma length_list_ascii (s : string) : length (list_ascii_of_string s) = String.length s.
Proof. induction s as [|c s IH]; [done|]. cbn. by rewrite IH. Qed.

Lemma string_app_inj_r (a b c : string) : a +:+ c = b +:+ c → a = b.
Proof.
  revert b. induction a as [|x a IH]; intros [|y b]; cbn; [done|..].
  - intros E. apply (f_equal String.length) in E. cbn in E. rewrite string_length_app in E. lia.
  - intros E. apply (f_equal String.length) in E. cbn in E. rewrite string_length_app in E. lia.
  - intros [= -> ?%IH]. by subst.
Qed.

Lemma is_empty_spec (s : string) : is_empty s = true ↔ s = "".
Proof. by destruct s. Qed.

Lemma split_at_app (c : ascii) (a b : string) :
  no_char c a = true → split_at c (a +:+ String c b) = Some (a, b).
Proof.
  induction a as [|x a IH]; cbn.
  - intros _. by rewrite decide_True.
  - intros [Hx%bool_decide_eq_true Ha]%andb_true_iff.
    rewrite decide_False by done. by rewrite IH by done.
Qed.

Lemma split_at_None (c : ascii) (s : string) :
  split_at c s = None ↔ no_char c s = true.
Proof.
  induction s as [|x s IH]; cbn; [done|]. destruct (decide (x = c)) as [->|Hx].
  - rewrite bool_decide_false by tauto. by split.
  - rewrite bool_decide_true by done. cbn. rewrite <-IH.
    by destruct (split_at c s) as [[]|].
Qed.

Lemma split_at_Some (c : ascii) (s a b : string) :
  split_at c s = Some (a, b) → s = a +:+ String c b ∧ no_char c a = true.
Proof.
  revert a b. induction s as [|x s IH]; intros a b; cbn; [done|].
  destruct (decide (x = c)) as [->|Hx]; [by intros [= <- <-]|].
  destruct (split_at c s) as [[a' b']|]; [|done]. intros [= <- <-].
  destruct (IH a' b' eq_refl) as [-> ?]. cbn. by rewrite bool_decide_true.
Qed.

Lemma starts_with_app (p s : string) : starts_with p (p +:+ s) = true.
Proof. induction p as [|c p IH]; [done|]. cbn. by rewrite bool_decide_true. Qed.

Lemma starts_with_spec (p s : string) :
  starts_with p s = true ↔ ∃ r, s = p +:+ r.
Proof.
  split; [|intros [r ->]; apply starts_with_app].
  revert s. induction p as [|c p IH]; intros s; [by exists s|].
  destruct s as [|x s]; cbn; [done|].
  intros [->%bool_decide_eq_true [r ->]%IH]%andb_true_iff. by exists r.
Qed.

(** *** Decimal numbers: [stoi] reads back what [to_string] writes *)

Lemma read_digits_pos (d : Decimal.uint) (acc : positive) (n : nat) :
  read_digits (Zpos acc) n (NilEmpty.string_of_uint d)
  = (Zpos (Pos.of_uint_acc d acc), (n + Decimal.nb_digits d)%nat, "").
Proof.
  revert acc n. induction d as [|d IH|d IH|d IH|d IH|d IH|d IH|d IH|d IH|d IH|d IH];
    intros acc n; [cbn; by rewrite Nat.add_0_r|..];
    cbn [NilEmpty.string_of_uint read_digits Pos.of_uint_acc Decimal.nb_digits];
    rewrite <-plus_n_Sm;
    match goal with
    | |- (if is_digit ?c then read_digits (_ * 10 + digit_val ?c) _ _ else _)
         = (Z.pos (Pos.of_uint_acc _ ?p), _, _) =>
        change (is_digit c) with true; cbv iota;
        let v := eval vm_compute in (digit_val c) in change (digit_val c) with v;
        replace (Z.pos acc * 10 + v) with (Z.pos p) by lia; apply IH
    end.
Qed.

Lemma read_digits_zero (d : Decimal.uint) (n : nat) :
  read_digits 0 n (NilEmpty.string_of_uint d)
  = (Z.of_N (Pos.of_uint d), (n + Decimal.nb_digits d)%nat, "").
Proof.
  revert n. induction d as [|d IH|d _|d _|d _|d _|d _|d _|d _|d _|d _]; intros n;
    cbn; rewrite <-?plus_n_Sm, ?Nat.add_0_r;
    first [done | apply IH | apply read_digits_pos].
Qed.

Lemma nb_digits_nonil (d : Decimal.uint) : d ≠ Decimal.Nil → (0 < Decimal.nb_digits d)%nat.
Proof. destruct d; cbn; [done|lia..]. Qed.

Lemma string_of_uint_head (d : Decimal.uint) :
  d ≠ Decimal.Nil → ∃ c s, NilEmpty.string_of_uint d = String c s ∧ is_digit c = true.
Proof. destruct d; [done|intros _; eexists _, _; split; [done|done]..]. Qed.

Lemma string_of_uint_nilzero (d : Decimal.uint) :
  d ≠ Decimal.Nil → NilZero.string_of_uint d = NilEmpty.string_of_uint d.
Proof. by destruct d. Qed.

Lemma skip_space_digit (c : ascii) (s : string) :
  is_digit c = true → skip_space (String c s) = String c s.
Proof.
  unfold is_digit. cbn [skip_space]. unfold is_space. intros [H1%Nat.leb_le _]%andb_true_iff.
  destruct (Nat.eqb_spec (Ascii.nat_of_ascii c) 32); [lia|].
  destruct (Nat.leb_spec (Ascii.nat_of_ascii c) 13); [lia|]. by rewrite andb_false_r.
Qed.

Lemma digit_not_sign (c : ascii) : is_digit c = true → c ≠ "-"%char ∧ c ≠ "+"%char.
Proof. by split; intros ->. Qed.

Lemma read_int_to_string (z : Z) : read_int (to_string z) = Some (z, "").
Proof.
  unfold to_string. destruct z as [|p|p]; [done|..]; cbn -[read_int];
    pose proof (Unsigned.to_uint_nonnil p) as Hnil;
    rewrite (string_of_uint_nilzero _ Hnil); unfold read_int.
  - destruct (string_of_uint_head _ Hnil) as (c & s & Hs & Hc). rewrite Hs.
    rewrite skip_space_digit by done. destruct (digit_not_sign c Hc).
    rewrite !decide_False by done. rewrite <-Hs, read_digits_zero.
    pose proof (nb_digits_nonil _ Hnil).
    destruct (0 + Decimal.nb_digits (Pos.to_uint p))%nat eqn:E; [lia|].
    by rewrite Unsigned.of_to.
  - cbn [skip_space]. change (is_space "-") with false. cbv iota.
    rewrite decide_True by done. rewrite read_digits_zero.
    pose proof (nb_digits_nonil _ Hnil).
    destruct (0 + Decimal.nb_digits (Pos.to_uint p))%nat eqn:E; [lia|].
    by rewrite Unsigned.of_to.
Qed.

Lemma stoi_to_string (z : Z) : in_int z = true → stoi (to_string z) = Ok (z, "").
Proof. unfold stoi. rewrite read_int_to_string. by intros ->. Qed.

Lemma stoul_to_string (z : Z) : 0 ≤ z < 2 ^ 64 → stoul (to_string z) = Ok z.
Proof.
  intros Hz. unfold stoul. rewrite read_int_to_string, Z.abs_eq by lia.
  destruct (Z.ltb_spec z (2 ^ 64)); [|lia]. by rewrite Z.mod_small.
Qed.

(** A number that ends at a character that is no digit. *)
Lemma read_digits_stop (s t : string) (c : ascii) (acc v : Z) (n k : nat) :
  is_digit c = false → read_digits acc n s = (v, k, "") →
  read_digits acc n (s +:+ String c t) = (v, k, String c t).
Proof.
  intros Hc. revert acc n. induction s as [|x s IH]; intros acc n; cbn.
  - rewrite Hc. by intros [= -> ->].
  - destruct (is_digit x); [apply IH|done].
Qed.

Lemma skip_space_app (s t : string) : skip_space s ≠ "" → skip_space (s +:+ t) = skip_space s +:+ t.
Proof. induction s as [|x s IH]; [done|]. cbn. by destruct (is_space x). Qed.

Lemma read_int_stop (s t : string) (c : ascii) (z : Z) :
  is_digit c = false → read_int s = Some (z, "") → read_int (s +:+ String c t) = Some (z, String c t).
Proof.
  intros Hc Hs. unfold read_int in *.
  destruct (skip_space s) as [|x u] eqn:E; [done|]. rewrite skip_space_app, E by by rewrite E.
  cbn [String.append]. assert (∀ (neg : bool) w,
    match read_digits 0 0 w with
    | (_, O, _) => None
    | (v, S _, rest) => Some (if neg then - v else v, rest)
    end = Some (z, "") →
    match read_digits 0 0 (w +:+ String c t) with
    | (_, O, _) => None
    | (v, S _, rest) => Some (if neg then - v else v, rest)
    end = Some (z, String c t)) as H.
  { intros neg w. destruct (read_digits 0 0 w) as [[v [|k]] rest] eqn:Er; [done|].
    intros [= <- ->]. by rewrite (read_digits_stop _ _ _ _ _ _ _ Hc Er). }
  repeat case_decide; [by apply (H true)|by apply (H false)|]. apply (H false (String x u)), Hs.
Qed.

Lemma stoul_stop (z : Z) (c : ascii) (t : string) :
  is_digit c = false → 0 ≤ z < 2 ^ 64 → stoul (to_string z +:+ String c t) = Ok z.
Proof.
  intros Hc Hz. rewrite <-(stoul_to_string z Hz). unfold stoul.
  by rewrite (read_int_stop _ _ _ _ Hc (read_int_to_string z)), read_int_to_string.
Qed.

Lemma stoi_stop (z : Z) (c : ascii) (t : string) :
  is_digit c = false → in_int z = true → stoi (to_string z +:+ String c t) = Ok (z, String c t).
Proof.
  intros Hc Hz. unfold stoi. by rewrite (read_int_stop _ _ _ _ Hc (read_int_to_string z)), Hz.
Qed.

Lemma to_string_inj (z z' : Z) : to_string z = to_string z' → z = z'.
Proof.
  intros H. pose proof (read_int_to_string z) as H1. rewrite H in H1.
  rewrite read_int_to_string in H1. by simplify_eq.
Qed.

Lemma to_string_nonempty (z : Z) : to_string z ≠ "".
Proof. intros H. pose proof (read_int_to_string z) as H1. by rewrite H in H1. Qed.

Lemma string_of_uint_digits (d : Decimal.uint) :
  string_forall is_digit (NilEmpty.string_of_uint d) = true.
Proof. by induction d. Qed.

(** What [to_string] writes consists of digits and a possible minus sign. *)
Lemma to_string_chars (z : Z) :
  string_forall (λ c, is_digit c || bool_decide (c = "-"%char)) (to_string z) = true.
Proof.
  assert (∀ s, string_forall is_digit s = true →
    string_forall (λ c, is_digit c || bool_decide (c = "-"%char)) s = true) as Hd.
  { induction s as [|c s IH]; cbn; [done|].
    intros [-> ?%IH]%andb_true_iff. done. }
  unfold to_string. destruct z as [|p|p]; [done|..]; cbn;
    rewrite string_of_uint_nilzero by apply Unsigned.to_uint_nonnil;
    apply Hd, string_of_uint_digits.
Qed.

Lemma string_forall_impl (p q : ascii → bool) (s : string) :
  (∀ c, p c = true → q c = true) → string_forall p s = true → string_forall q s = true.
Proof.
  intros Hpq. induction s as [|c s IH]; cbn; [done|].
  intros [?%Hpq ?%IH]%andb_true_iff. by apply andb_true_iff.
Qed.

Lemma string_forall_app (p : ascii → bool) (a b : string) :
  string_forall p (a +:+ b) = string_forall p a && string_forall p b.
Proof. induction a as [|c a IH]; [done|]. cbn. by rewrite IH, andb_assoc. Qed.

Lemma to_string_no_char (c : ascii) (z : Z) :
  is_digit c = false → c ≠ "-"%char → no_char c (to_string z) = true.
Proof.
  intros Hc Hm. eapply string_forall_impl; [|apply to_string_chars].
  intros x Hx. apply bool_decide_eq_true. intros ->. cbn in Hx.
  rewrite Hc in Hx. by apply bool_decide_eq_true in Hx.
Qed.

(** *** Positions in strings *)

Lemma find_first_not_of_None (p : ascii → bool) (s : string) :
  find_first_not_of p s = None ↔ string_forall p s = true.
Proof.
  induction s as [|c s IH]; cbn; [done|]. destruct (p c); cbn; [|done].
  rewrite <-IH. by destruct (find_first_not_of p s).
Qed.

Lemma find_first_not_of_Some (p : ascii → bool) (s : string) (i : nat) :
  find_first_not_of p s = Some i →
  ∃ a c b, s = a +:+ String c b ∧ String.length a = i ∧
           string_forall p a = true ∧ p c = false.
Proof.
  revert i. induction s as [|c s IH]; intros i; cbn; [done|].
  destruct (p c) eqn:Hc.
  - destruct (find_first_not_of p s) as [j|]; [|done]. intros [= <-].
    destruct (IH j eq_refl) as (a & x & b & -> & <- & Ha & Hx).
    exists (String c a), x, b. cbn. by rewrite Hc.
  - intros [= <-]. by exists "", c, s.
Qed.

Lemma find_first_not_of_app (p : ascii → bool) (a b : string) (c : ascii) :
  string_forall p a = true → p c = false →
  find_first_not_of p (a +:+ String c b) = Some (String.length a).
Proof.
  intros Ha Hc. induction a as [|x a IH]; cbn in *; [by rewrite Hc|].
  apply andb_true_iff in Ha as [-> Ha]. by rewrite IH.
Qed.

Lemma find_last_not_of_None (p : ascii → bool) (s : string) :
  find_last_not_of p s = None ↔ string_forall p s = true.
Proof.
  induction s as [|c s IH]; cbn; [done|].
  rewrite andb_true_iff, <-IH. destruct (find_last_not_of p s); [by split; intros; destruct_and?|].
  destruct (p c); [done|]. by split; intros; destruct_and?.
Qed.

Lemma find_last_not_of_Some (p : ascii → bool) (s : string) (i : nat) :
  find_last_not_of p s = Some i →
  ∃ a c b, s = a +:+ String c b ∧ String.length a = i ∧
           string_forall p b = true ∧ p c = false.
Proof.
  revert i. induction s as [|c s IH]; intros i; cbn; [done|].
  destruct (find_last_not_of p s) as [j|] eqn:E.
  - intros [= <-]. destruct (IH j eq_refl) as (a & x & b & -> & <- & Hb & Hx).
    by exists (String c a), x, b.
  - destruct (p c) eqn:Hc; [done|]. intros [= <-].
    exists "", c, s. apply find_last_not_of_None in E. done.
Qed.

Lemma find_last_not_of_app (p : ascii → bool) (a b : string) (c : ascii) :
  p c = false → string_forall p b = true →
  find_last_not_of p (a +:+ String c b) = Some (String.length a).
Proof.
  intros Hc Hb%find_last_not_of_None.
  induction a as [|x a IH]; cbn; [by rewrite Hb, Hc|]. by rewrite IH.
Qed.

Lemma substr_full (b c : string) : substr O (String.length b) (b +:+ c) = b.
Proof.
  unfold substr. induction b as [|x b IH]; cbn; [by destruct c|]. by rewrite IH.
Qed.

Lemma substr_app (a b c : string) :
  substr (String.length a) (String.length b) (a +:+ (b +:+ c)) = b.
Proof.
  unfold substr. induction a as [|x a IH]; cbn; [apply substr_full|]. apply IH.
Qed.

Lemma drop_str_app (a b : string) : drop_str (String.length a) (a +:+ b) = b.
Proof. induction a as [|x a IH]; [by destruct b|]. apply IH. Qed.

Lemma nul_free_app (a b : string) : nul_free (a +:+ b) = nul_free a && nul_free b.
Proof. apply string_forall_app. Qed.

Lemma c_str_nul_free (s : string) : nul_free (c_str s) = true.
Proof.
  unfold c_str, nul_free. destruct (split_at "000" s) as [[a b]|] eqn:E.
  - by apply split_at_Some in E as [_ ?].
  - by apply split_at_None.
Qed.

Lemma c_str_id (s : string) : nul_free s = true → c_str s = s.
Proof. unfold c_str, nul_free. by intros ->%split_at_None. Qed.
#[export] Hint Resolve c_str_nul_free : cti.
#[export] Hint Rewrite c_str_id using done : cti_rw.

(** *** Ordered iteration *)

Lemma elem_of_sorted_elements (X : gset string) (x : string) :
  x ∈ sorted_elements X ↔ x ∈ X.
Proof.
  unfold sorted_elements. rewrite (merge_sort_Permutation string_le). apply elem_of_elements.
Qed.

Lemma NoDup_sorted_elements (X : gset string) : NoDup (sorted_elements X).
Proof.
  unfold sorted_elements. rewrite (merge_sort_Permutation string_le). apply NoDup_elements.
Qed.

Lemma elem_of_sorted_keys {A : Type} (m : gmap string A) (k : string) :
  k ∈ sorted_keys m ↔ is_Some (m !! k).
Proof. unfold sorted_keys. by rewrite elem_of_sorted_elements, elem_of_dom. Qed.

(** The order of the keys is a total order. *)
Lemma string_compare_trans (a b c : string) :
  String.compare a b ≠ Gt → String.compare b c ≠ Gt → String.compare a c ≠ Gt.
Proof.
  revert b c. induction a as [|x a IH]; intros [|y b] [|z c]; cbn; try done.
  unfold Ascii.compare.
  destruct (N.compare_spec (N_of_ascii x) (N_of_ascii y)) as [Exy|Exy|Exy],
    (N.compare_spec (N_of_ascii y) (N_of_ascii z)) as [Eyz|Eyz|Eyz]; try done;
    destruct (N.compare_spec (N_of_ascii x) (N_of_ascii z)) as [Exz|Exz|Exz]; try done;
    try lia. apply IH.
Qed.

Lemma string_le_compare (a b : string) : string_le a b ↔ String.compare a b ≠ Gt.
Proof. unfold string_le, String.leb. by destruct (String.compare a b). Qed.

#[export] Instance string_le_trans : Transitive string_le.
Proof. intros a b c. rewrite !string_le_compare. apply string_compare_trans. Qed.

#[export] Instance string_le_total : Total string_le.
Proof.
  intros a b. unfold string_le. destruct (leb_total a b) as [E|E]; rewrite E; [by left|by right].
Qed.

#[export] Instance string_le_antisymm : AntiSymm (=) string_le.
Proof. intros a b Ha%Is_true_eq_true Hb%Is_true_eq_true. by apply leb_antisym. Qed.

#[export] Instance string_le_refl : Reflexive string_le.
Proof. intros a. by destruct (string_le_total a a). Qed.

Lemma StronglySorted_sorted_elements (X : gset string) :
  StronglySorted string_le (sorted_elements X).
Proof. apply StronglySorted_merge_sort; apply _. Qed.
