(* ===== verification/Split.v ===== *)
(** * Splitting strings (src/src/useful/cti_split.hpp)

    [split_string n line d] is [cti::split::string<N>(line, delim)]: up to [n]
    fields read with [std::getline], the word that follows them appended to the
    last field.  [removeLeadingWhitespace] trims a string. *)

From S2P Require Import Prelude.

(** The state of the [std::stringstream]: [Some s] when it is good with [s] left
    to read, [None] once a read reached its end. *)
Definition stream : Type := option string.

(** [std::getline(stream, target, d)]: the characters stored, or [None] when
    nothing could be extracted and the target is left empty. *)
Definition getline (d : ascii) (st : stream) : option string * stream :=
  match st with
  | None => (None, None)
  | Some s =>
      match split_at d s with
      | Some (a, b) => (Some a, Some b)
      | None => (if is_empty s then None else Some s, None)
      end
  end.

(** [for_each(tup, getline)] over a tuple of [n] default-initialised strings. *)
Fixpoint getlines (n : nat) (d : ascii) (st : stream) : list string * stream :=
  match n with
  | O => ([], st)
  | S n' =>
      let '(f, st1) := getline d st in
      let '(fs, st2) := getlines n' d st1 in
      (default "" f :: fs, st2)
  end.

(** The characters up to the next white space. *)
Fixpoint take_word (s : string) : string :=
  match s with
  | "" => ""
  | String c s' => if is_space c then "" else String c (take_word s')
  end.

(** [stream >> rest] into an empty string. *)
Definition read_word (st : stream) : string :=
  match st with
  | None => ""
  | Some s => take_word (skip_space s)
  end.

Fixpoint append_last (fs : list string) (x : string) : list string :=
  match fs with
  | [] => []
  | [f] => [f +:+ x]
  | f :: fs' => f :: append_last fs' x
  end.

Definition split_string (n : nat) (line : string) (d : ascii) : list string :=
  let '(fs, st) := getlines n d (Some line) in
  let rest := read_word st in
  if is_empty rest then fs else append_last fs (String d rest).

(** [string<2>] destructured into a pair. *)
Definition split2 (line : string) (d : ascii) : string * string :=
  match split_string 2 line d with
  | [a; b] => (a, b)
  | _ => ("", "")
  end.

(** [string<3>] destructured into a triple. *)
Definition split3 (line : string) (d : ascii) : string * string * string :=
  match split_string 3 line d with
  | [a; b; c] => (a, b, c)
  | _ => ("", "", "")
  end.

(** The default [whitespace] argument [" \t"]. *)
Definition blank (c : ascii) : bool :=
  bool_decide (c = " "%char) || bool_decide (c = "009"%char).

Definition removeLeadingWhitespace (str : string) : string :=
  match find_first_not_of blank str with
  | None => ""
  | Some startPos =>
      match find_last_not_of blank str with
      | None => ""
      | Some endPos => substr startPos (endPos - startPos + 1) str
      end
  end.

(** Joining fields with a delimiter, the inverse the splitter is meant for. *)
Fixpoint join (d : ascii) (fs : list string) : string :=
  match fs with
  | [] => ""
  | [f] => f
  | f :: fs' => f +:+ String d (join d fs')
  end.

(** The text after the first delimiter that [string<2>] keeps unchanged: no
    second delimiter, or one followed by a non-empty text without white space. *)
Definition second_field_kept (d : ascii) (b : string) : bool :=
  match split_at d b with
  | None => true
  | Some (_, b2) => negb (is_empty b2) && string_forall (λ c, negb (is_space c)) b2
  end.

(** ** Lemmas *)

Lemma length_getlines (n : nat) (d : ascii) (st : stream) :
  length (getlines n d st).1 = n.
Proof.
  revert st. induction n as [|n IH]; intros st; [done|]. cbn.
  destruct (getline d st) as [f st1]. specialize (IH st1).
  destruct (getlines n d st1) as [fs st2]. cbn in *. by rewrite IH.
Qed.

Lemma length_append_last (fs : list string) (x : string) :
  length (append_last fs x) = length fs.
Proof.
  induction fs as [|f [|g fs] IH]; [done|done|]. cbn in *. by rewrite IH.
Qed.

Lemma length_split_string (n : nat) (line : string) (d : ascii) :
  length (split_string n line d) = n.
Proof.
  unfold split_string. pose proof (length_getlines n d (Some line)) as H.
  destruct (getlines n d (Some line)) as [fs st]. cbn in H.
  case_match; [done|]. by rewrite length_append_last.
Qed.

Lemma getline_app (d : ascii) (a b : string) :
  no_char d a = true → getline d (Some (a +:+ String d b)) = (Some a, Some b).
Proof. intros Ha. unfold getline. by rewrite split_at_app. Qed.

Lemma getline_last (d : ascii) (a : string) :
  no_char d a = true →
  getline d (Some a) = (if is_empty a then None else Some a, None).
Proof. intros Ha%split_at_None. unfold getline. by rewrite Ha. Qed.

Lemma getlines_S (n : nat) (d : ascii) (st : stream) :
  getlines (S n) d st =
    let '(f, st1) := getline d st in
    let '(fs, st2) := getlines n d st1 in
    (default "" f :: fs, st2).
Proof. done. Qed.

Lemma join_cons (d : ascii) (f g : string) (fs : list string) :
  join d (f :: g :: fs) = f +:+ String d (join d (g :: fs)).
Proof. done. Qed.

Lemma getlines_join (d : ascii) (fs : list string) :
  fs ≠ [] → Forall (λ f, no_char d f = true) fs →
  getlines (length fs) d (Some (join d fs)) = (fs, None).
Proof.
  intros Hne Hfs. induction Hfs as [|f fs Hf Hfs IH]; [done|].
  cbn [length]. rewrite getlines_S. destruct fs as [|g fs].
  - cbn [join]. rewrite getline_last by done. by destruct f.
  - rewrite join_cons, getline_app by done. by rewrite IH.
Qed.

(** Fields followed by more text. *)
Lemma getlines_tail (d : ascii) (fs : list string) (t : string) :
  fs ≠ [] → Forall (λ f, no_char d f = true) fs →
  getlines (length fs) d (Some (join d fs +:+ String d t)) = (fs, Some t).
Proof.
  intros Hne Hfs. induction Hfs as [|f fs Hf Hfs IH]; [done|].
  cbn [length]. rewrite getlines_S. destruct fs as [|g fs].
  - cbn [join]. by rewrite getline_app.
  - rewrite join_cons, string_app_assoc. cbn [String.append]. rewrite getline_app by done.
    by rewrite IH.
Qed.

Lemma split_string_tail (d : ascii) (fs : list string) (t : string) :
  fs ≠ [] → Forall (λ f, no_char d f = true) fs →
  split_string (length fs) (join d fs +:+ String d t) d =
  let w := take_word (skip_space t) in if is_empty w then fs else append_last fs (String d w).
Proof. intros Hne Hfs. unfold split_string. by rewrite getlines_tail. Qed.

Lemma take_word_no_space (s : string) :
  string_forall (λ c, negb (is_space c)) s = true → take_word s = s.
Proof.
  induction s as [|c s IH]; cbn; [done|].
  intros [->%negb_true_iff ?%IH]%andb_true_iff. by f_equal.
Qed.

Lemma skip_space_no_space (s : string) :
  string_forall (λ c, negb (is_space c)) s = true → skip_space s = s.
Proof.
  destruct s as [|c s]; cbn; [done|].
  by intros [->%negb_true_iff _]%andb_true_iff.
Qed.

Lemma take_word_all (s : string) :
  string_forall (λ c, negb (is_space c)) (take_word s) = true.
Proof. induction s as [|c s IH]; cbn; [done|]. by destruct (is_space c) eqn:E; cbn; rewrite ?E. Qed.

Lemma split2_run (d : ascii) (a b : string) :
  no_char d a = true →
  split2 (a +:+ String d b) d =
    match split_at d b with
    | None => (a, b)
    | Some (b1, b2) =>
        let w := take_word (skip_space b2) in
        (a, if is_empty w then b1 else b1 +:+ String d w)
    end.
Proof.
  intros Ha. unfold split2, split_string. cbn [getlines].
  rewrite getline_app by done. unfold getline.
  destruct (split_at d b) as [[b1 b2]|] eqn:E; cbn.
  - by destruct (is_empty (take_word (skip_space b2))).
  - by destruct b.
Qed.

(** [string<N>] recovers any [N] fields joined by the delimiter, as long as no
    field contains it, whatever white space the fields hold. *)
Theorem split_string_join (d : ascii) (fs : list string) :
  fs ≠ [] → Forall (λ f, no_char d f = true) fs →
  split_string (length fs) (join d fs) d = fs.
Proof. intros ??. unfold split_string. by rewrite getlines_join. Qed.

Lemma split_string_join_witness :
  split_string 3 (join "|" ["a b"; ""; " c "]) "|" = ["a b"; ""; " c "].
Proof.
  apply (split_string_join "|" ["a b"; ""; " c "]); [done|].
  repeat constructor.
Defined.

Lemma app_cons_neq_self (a : string) (c : ascii) (b : string) : a ≠ a +:+ String c b.
Proof. intros H. rewrite <-(string_app_nil_r a) in H at 1. by apply string_app_inj_l in H. Qed.

Lemma split2_kept_iff (d : ascii) (a b : string) :
  no_char d a = true →
  (split2 (a +:+ String d b) d = (a, b) ↔ second_field_kept d b = true).
Proof.
  intros Ha. rewrite split2_run by done. unfold second_field_kept.
  destruct (split_at d b) as [[b1 b2]|] eqn:E; [|done].
  apply split_at_Some in E as [-> _]. cbv zeta. split.
  - intros H. injection H as H. destruct (is_empty (take_word (skip_space b2))) eqn:Ew.
    { by apply app_cons_neq_self in H. }
    apply string_app_inj_l in H. injection H as H.
    pose proof (take_word_all (skip_space b2)) as Hw. rewrite H in Ew, Hw.
    by rewrite Ew, Hw.
  - intros [Hne Hs]%andb_true_iff.
    rewrite skip_space_no_space, take_word_no_space by done.
    by destruct b2.
Qed.

Lemma split2_kept (d : ascii) (a b : string) :
  no_char d a = true → second_field_kept d b = true → split2 (a +:+ String d b) d = (a, b).
Proof. intros Ha Hb. by apply split2_kept_iff. Qed.

(** [string<2>] splits "name<d>value" into exactly name and value precisely
    when the value holds no further delimiter, or the text after its first
    delimiter is non-empty and free of white space; otherwise characters of the
    value are lost. *)
Theorem split2_exact (d : ascii) (a b : string) :
  no_char d a = true →
  (split2 (a +:+ String d b) d = (a, b) ↔ second_field_kept d b = true).
Proof. apply split2_kept_iff. Qed.

Lemma split2_exact_witness :
  split2 ("VAR" +:+ String "=" "a=b") "=" = ("VAR", "a=b") ∧
  split2 ("VAR" +:+ String "=" "Zm9v=") "=" ≠ ("VAR", "Zm9v=").
Proof.
  split.
  - apply (split2_exact "=" "VAR" "a=b"); reflexivity.
  - intros H. apply (split2_exact "=" "VAR" "Zm9v=") in H; [discriminate H|reflexivity].
Defined.

Lemma removeLeadingWhitespace_blank (s : string) :
  string_forall blank s = true → removeLeadingWhitespace s = "".
Proof.
  unfold removeLeadingWhitespace. by intros ->%find_first_not_of_None.
Qed.

Lemma removeLeadingWhitespace_run (pre post m : string) (c x : ascii) :
  string_forall blank pre = true → string_forall blank post = true →
  blank c = false → blank x = false →
  removeLeadingWhitespace (pre +:+ (String c (m +:+ String x post)))
  = String c (m +:+ String x "").
Proof.
  intros Hpre Hpost Hc Hx. unfold removeLeadingWhitespace.
  rewrite (find_first_not_of_app blank pre) by done.
  replace (pre +:+ String c (m +:+ String x post))
    with ((pre +:+ String c m) +:+ String x post) at 1
    by (rewrite string_app_assoc; done).
  rewrite find_last_not_of_app by done.
  rewrite string_length_app. cbn [String.length].
  replace (pre +:+ String c (m +:+ String x post))
    with (pre +:+ (String c (m +:+ String x "") +:+ post))
    by (cbn; by rewrite string_app_assoc).
  replace (String.length pre + S (String.length m) - String.length pre + 1)%nat
    with (String.length (String c (m +:+ String x "")))
    by (cbn; rewrite string_length_app; cbn; lia).
  apply substr_app.
Qed.

Lemma removeLeadingWhitespace_single (pre post : string) (c : ascii) :
  string_forall blank pre = true → string_forall blank post = true → blank c = false →
  removeLeadingWhitespace (pre +:+ String c post) = String c "".
Proof.
  intros Hpre Hpost Hc. unfold removeLeadingWhitespace.
  rewrite (find_first_not_of_app blank pre) by done.
  rewrite find_last_not_of_app by done.
  replace (String.length pre - String.length pre + 1)%nat
    with (String.length (String c "")) by (cbn; lia).
  apply (substr_app pre (String c "") post).
Qed.

(** Text between blanks that starts and ends with none is kept. *)
Lemma removeLeadingWhitespace_core (pre core m : string) (c x : ascii) :
  string_forall blank pre = true → core = String c (m +:+ String x "") →
  blank c = false → blank x = false → removeLeadingWhitespace (pre +:+ core) = core.
Proof. intros Hpre -> Hc Hx. by apply (removeLeadingWhitespace_run pre "" m c x). Qed.

(** A text is all blanks, or it is blanks around a core whose first and last
    characters are not blank. *)
Lemma blank_decomposition (s : string) :
  string_forall blank s = true ∨
  (∃ pre c post, s = pre +:+ String c post ∧ string_forall blank pre = true ∧
     string_forall blank post = true ∧ blank c = false) ∨
  (∃ pre c m x post, s = pre +:+ String c (m +:+ String x post) ∧
     string_forall blank pre = true ∧ string_forall blank post = true ∧
     blank c = false ∧ blank x = false).
Proof.
  destruct (find_first_not_of blank s) as [i|] eqn:E;
    [|left; by apply find_first_not_of_None].
  apply find_first_not_of_Some in E as (pre & c & b & -> & _ & Hpre & Hc). right.
  destruct (find_last_not_of blank b) as [j|] eqn:E.
  - apply find_last_not_of_Some in E as (m & x & post & -> & _ & Hpost & Hx).
    right. by exists pre, c, m, x, post.
  - apply find_last_not_of_None in E. left. by exists pre, c, b.
Qed.

(** [removeLeadingWhitespace] returns the text between the first and the last
    character that is not a blank: it removes the blanks at the start and, despite
    its name, at the end too, and nothing else. *)
Theorem removeLeadingWhitespace_spec (s : string) :
  ∃ pre post,
    s = pre +:+ (removeLeadingWhitespace s +:+ post) ∧
    string_forall blank pre = true ∧ string_forall blank post = true ∧
    (removeLeadingWhitespace s ≠ "" →
     find_first_not_of blank (removeLeadingWhitespace s) = Some O ∧
     find_last_not_of blank (removeLeadingWhitespace s)
     = Some (String.length (removeLeadingWhitespace s) - 1)%nat).
Proof.
  destruct (blank_decomposition s)
    as [Hs|[(pre & c & post & -> & Hpre & Hpost & Hc)
           |(pre & c & m & x & post & -> & Hpre & Hpost & Hc & Hx)]].
  - exists s, "". rewrite removeLeadingWhitespace_blank by done.
    rewrite !string_app_nil_r. by split_and!.
  - exists pre, post. rewrite removeLeadingWhitespace_single by done.
    split_and!; [done..|intros _]. cbn. by rewrite Hc.
  - exists pre, post. rewrite removeLeadingWhitespace_run by done.
    split_and!; [by cbn; rewrite string_app_assoc|done..|intros _].
    split; [cbn; by rewrite Hc|].
    change (String c (m +:+ String x "")) with (String c m +:+ String x "").
    rewrite find_last_not_of_app by done. cbn. rewrite string_length_app. cbn. f_equal. lia.
Qed.

(** The rest is shorter than the text. *)
Lemma split2_shorter (s : string) (d : ascii) :
  s ≠ "" → (String.length (split2 s d).2 < String.length s)%nat.
Proof.
  intros Hs. destruct (split_at d s) as [[a b]|] eqn:E.
  - apply split_at_Some in E as [-> Ha]. rewrite split2_run by done.
    rewrite string_length_app. cbn [String.length].
    assert (∀ t, (String.length (take_word (skip_space t)) ≤ String.length t)%nat) as Ht.
    { intros t. transitivity (String.length (skip_space t)).
      - generalize (skip_space t) as u. induction u as [|c u IH]; [done|].
        cbn. destruct (is_space c); cbn; lia.
      - induction t as [|c t IH]; [done|]. cbn. destruct (is_space c); cbn; lia. }
    destruct (split_at d b) as [[b1 b2]|] eqn:Eb; cbn [snd]; [|lia].
    apply split_at_Some in Eb as [-> _]. specialize (Ht b2).
    destruct (is_empty _); rewrite ?string_length_app; cbn; lia.
  - assert (split2 s d = (s, "")) as ->.
    { unfold split2, split_string. cbn [getlines]. unfold getline. rewrite E. by destruct s. }
    destruct s; [done|]. cbn. lia.
Qed.
