(* ===== verification/System.v ===== *)
(** * Running programs and reading the environment (Execvp of
    src/src/useful/cti_execvp.hpp, text helpers of src/src/useful/cti_wrappers.hpp)

    Much of the frontend asks other programs about the system: it starts one, reads
    the lines it prints and looks at how it ended.  What programs answer is the class
    [Commands]; the answer may depend on everything done before.  The state is the
    environment of the process and the trace of what was done. *)

From S2P Require Import Prelude Split.

(** What is done to the system, in order: programs, sleeping and files; then what the
    frontend daemon is asked for: running a utility, launching under MPIR control,
    releasing and waiting for what was launched, registering, forgetting and
    asking for an application; commands on other nodes; calls of the SSH library and the bytes it is
    given for a file on a host; children of this process, signals, names of files; calls of other
    libraries and of the system. *)
Inductive sys_event : Type :=
| SRun (argv : list string)
| SSleep (seconds : Z)
| SMkdir (path : string)
| SRemove (path : string)
| SCopy (source destination : string)
| SWrite (path : string) (contents : list ascii)
| SUtil (argv env : list string)
| SLaunch (path : string) (argv env : list string)
| SLaunchShim (shim directory launcher script : string) (argv env : list string)
| SAttach (path : string) (pid : Z)
| SReleaseMPIR (id : Z)
| SWaitMPIR (id : Z)
| SReadString (id : Z) (variable : string)
| SRegister
| SDeregister (id : Z)
| SCheck (id : Z)
| SRemote (hostname : string) (argv env : list string) (synchronous : bool)
| SSsh (call : string) (args : list string)
| SSend (hostname path : string) (contents : list ascii)
| SFork (argv env : list string)
| SSignal (pid signum : Z)
| SReap (pid : Z)
| SRename (source destination : string)
| SLink (target path : string)
| SCall (function : string) (args : list string).

#[export] Instance sys_event_eq_dec : EqDecision sys_event.
Proof. solve_decision. Defined.

Record sys : Type := MkSys {
  sys_env : gmap string string;
  sys_trace : list sys_event
}.

(** How a child ended, as [waitpid] reports it, or how [waitpid] failed. *)
Inductive wait_result : Type :=
| WExited (code : Z)
| WSignaled (sig : Z)
| WNoChild
| WFailed (what : string).

(** Programs: what one prints on the descriptors that are read, [fork] failing for a
    reason, and how it ends.  A program that cannot be executed ends with 255. *)
Class Commands : Type := {
  c_output : list sys_event → list string → option string;
  c_wait : list sys_event → list string → wait_result
}.

(** ** Lines of text *)

(** [std::getline] until it fails: a last line without a newline counts when it is
    not empty. *)
Fixpoint text_lines (s : string) : list string :=
  match s with
  | "" => []
  | String c s' =>
      if decide (c = "010"%char) then "" :: text_lines s'
      else match text_lines s' with
           | [] => [String c ""]
           | l :: ls => String c l :: ls
           end
  end.

(** What [FdBuf] gives its stream: a byte 255 is taken for the end. *)
Definition fd_text (s : string) : string :=
  match split_at "255"%char s with Some (a, _) => a | None => s end.

(** A newline *)
Definition nl : string := String "010" "".

(** [cti::joinStr] *)
Fixpoint joinStr (l : list string) (delim : string) : string :=
  match l with
  | [] => ""
  | [a] => a
  | a :: l' => a +:+ delim +:+ joinStr l' delim
  end.

(** [cti::stoi] *)
Definition cti_stoi (str name : string) : res Z :=
  match stoi str with
  | Ok (z, _) => Ok z
  | _ => Throw ("Failed to parse " +:+ name +:+ " (was '" +:+ str +:+ "')")
  end.

(** The cast to [uint32_t]. *)
Definition uint32 (z : Z) : Z := z mod 2 ^ 32.

(** The cast to [uint64_t] or [size_t]. *)
Definition uint64 (z : Z) : Z := z mod 2 ^ 64.

(** The cast to [int]. *)
Definition int32 (z : Z) : Z := (z + 2 ^ 31) mod 2 ^ 32 - 2 ^ 31.

(** [s.find(p) != npos] *)
Fixpoint contains (p s : string) : bool :=
  starts_with p s || match s with "" => false | String _ s' => contains p s' end.

(** [s.back()] of a string that is not empty. *)
Fixpoint last_char (s : string) : option ascii :=
  match s with
  | "" => None
  | String c "" => Some c
  | String _ s' => last_char s'
  end.

(** [pop_back()] *)
Fixpoint pop_back (s : string) : string :=
  match s with
  | "" | String _ "" => ""
  | String c s' => String c (pop_back s')
  end.

(** [s.substr(0, n) == p] for a text [p] of [n] characters. *)
Definition prefix_is (p s : string) : bool := bool_decide (substr 0 (String.length p) s = p).

(** [path / name] *)
Definition path_join (path name : string) : string :=
  match last_char path with
  | None => name
  | Some c => if bool_decide (c = "/"%char) then path +:+ name else path +:+ "/" +:+ name
  end.

(** [s.find(p)]: the text before and after the first occurrence. *)
Fixpoint find_sub (p s : string) : option (string * string) :=
  if starts_with p s then Some ("", drop_str (String.length p) s)
  else match s with
       | "" => None
       | String c s' => prod_map (String c) id <$> find_sub p s'
       end.

(** [stoi_or_zero] *)
Definition stoi_or_zero (str : string) : Z := match stoi str with Ok (z, _) => z | _ => 0 end.

Definition backslash : ascii := "092"%char.

(** [std::quoted(s, ',')]: the text between commas, with commas and backslashes escaped. *)
Fixpoint escape_commas (s : string) : string :=
  match s with
  | "" => ""
  | String c s' =>
      if bool_decide (c = ","%char) || bool_decide (c = backslash)
      then String backslash (String c (escape_commas s'))
      else String c (escape_commas s')
  end.

Definition std_quoted (s : string) : string := "," +:+ escape_commas s +:+ ",".

(** ** Operations *)

(** [WEXITSTATUS] looks at the exit code alone, which is 0 for a child that a signal
    has ended. *)
Definition WEXITSTATUS (w : wait_result) : Z :=
  match w with WExited code => code | _ => 0 end.

Definition getenv (name : string) : M sys (option string) := gets (λ s, sys_env s !! name).

(** [setenv(name, value, overwrite)] *)
Definition sys_setenv (name value : string) (overwrite : bool) : M sys () :=
  modify (λ s, if overwrite || bool_decide (sys_env s !! name = None)
               then MkSys (<[name := value]> (sys_env s)) (sys_trace s) else s).

Definition sys_unsetenv (name : string) : M sys () :=
  modify (λ s, MkSys (delete name (sys_env s)) (sys_trace s)).

Definition sys_emit (e : sys_event) : M sys () :=
  modify (λ s, MkSys (sys_env s) (sys_trace s ++ [e])).

Definition sleep (seconds : Z) : M sys () := sys_emit (SSleep seconds).

Section Run.
Context `{Commands}.

(** The constructor of [Execvp] with the lines its stream gives. *)
Definition Execvp (argv : list string) : M sys (list string) :=
  s ← get;
  match c_output (sys_trace s) argv with
  | None => throw ("fork() for " +:+ default "" (head argv) +:+ " failed!")
  | Some out => sys_emit (SRun argv);; mret (text_lines (fd_text out))
  end.

(** The same with all of its text. *)
Definition Execvp_text (argv : list string) : M sys string :=
  s ← get;
  match c_output (sys_trace s) argv with
  | None => throw ("fork() for " +:+ default "" (head argv) +:+ " failed!")
  | Some out => sys_emit (SRun argv);; mret (fd_text out)
  end.

(** [getExitStatus()], once the program has run. *)
Definition getExitStatus (argv : list string) : M sys Z :=
  s ← get;
  match c_wait (sys_trace s) argv with
  | WNoChild => throw "waitpid() failed"
  | WFailed what => throw ("waitpid() failed: " +:+ what)
  | w => mret (WEXITSTATUS w)
  end.

(** [runExitStatus()]: without a child to wait for the loop never ends. *)
Definition runExitStatus (argv : list string) : M sys Z :=
  s ← get;
  match c_output (sys_trace s) argv with
  | None => throw ("fork() for " +:+ default "" (head argv) +:+ " failed!")
  | Some _ =>
      sys_emit (SRun argv);;
      s ← get;
      match c_wait (sys_trace s) argv with
      | WNoChild => undef "waitpid() is called forever"
      | WFailed what => throw ("waitpid() failed: " +:+ what)
      | w => mret (WEXITSTATUS w)
      end
  end.

(** A program whose lines and exit status are both used. *)
Definition run_lines (argv : list string) : M sys (list string * Z) :=
  lines ← Execvp argv; status ← getExitStatus argv; mret (lines, status).
End Run.

(** [catch (...)]: every exception gives the same result. *)
Definition catch_all {A : Type} (m : M sys A) (a : A) : M sys A := try_catch m (λ _, mret a).

(** Tasks that run at once and are waited for one after the other: all of them are run, and the
    first exception is passed on.  They are run here in the order they are waited for. *)
Fixpoint join_all {A : Type} (l : list A) (task : A → M sys ()) : M sys () :=
  match l with
  | [] => mret tt
  | a :: l' =>
      first ← try_catch (task a;; mret None) (λ what, mret (Some what));
      match first with
      | Some what => catch_all (join_all l' task) tt;; throw what
      | None => join_all l' task
      end
  end.

(** ** Lemmas *)

(** Code without undefined behaviour. *)
Definition defined {A : Type} (m : M sys A) : Prop := ∀ s why s', m s ≠ (Undef why, s').

Lemma defined_ret {A : Type} (a : A) : defined (mret a).
Proof. done. Qed.

Lemma defined_throw {A : Type} (what : string) : defined (throw what : M sys A).
Proof. done. Qed.

Lemma defined_modify (f : sys → sys) : defined (modify f).
Proof. done. Qed.

Lemma defined_get : defined get.
Proof. done. Qed.

Lemma defined_gets {A : Type} (f : sys → A) : defined (gets f).
Proof. done. Qed.

Lemma defined_bind {A B : Type} (m : M sys A) (k : A → M sys B) :
  defined m → (∀ a, defined (k a)) → defined (m ≫= k).
Proof.
  intros Hm Hk s why s'. unfold mbind, M_bind. specialize (Hm s).
  destruct (m s) as [[a|e|e] s1]; [apply Hk|done|]. intros [= -> ->]. by eapply Hm.
Qed.

Lemma defined_try_catch {A : Type} (m : M sys A) (h : string → M sys A) :
  defined m → (∀ e, defined (h e)) → defined (try_catch m h).
Proof.
  intros Hm Hh s why s'. unfold try_catch. specialize (Hm s).
  destruct (m s) as [[a|e|e] s1]; [done|apply Hh|]. intros [= -> ->]. by eapply Hm.
Qed.

Lemma defined_catch_all {A : Type} (m : M sys A) (a : A) : defined m → defined (catch_all m a).
Proof. intros Hm. by apply defined_try_catch. Qed.

Create HintDb sys.
#[export] Hint Resolve defined_ret defined_throw defined_modify defined_get defined_gets : sys.

(** Structural steps; what is left are programs to run. *)
Ltac step_defined :=
  repeat match goal with
  | |- defined (_ ≫= _) => apply defined_bind; [|intros ?]
  | |- defined (try_catch _ _) => apply defined_try_catch; [|intros ?]
  | |- defined (catch_all _ _) => apply defined_catch_all
  | |- context [let '(_, _) := ?p in _] => destruct p
  | |- defined (match ?x with _ => _ end) => destruct x
  | |- defined _ => solve [auto with sys]
  end.

Section Defined.
Context `{Commands}.

(** No child is reaped by someone else. *)
Definition children_kept : Prop := ∀ trace argv, c_wait trace argv ≠ WNoChild.

Lemma defined_Execvp (argv : list string) : defined (Execvp argv).
Proof. unfold Execvp, sys_emit. step_defined. Qed.

Lemma defined_getExitStatus (argv : list string) : defined (getExitStatus argv).
Proof. unfold getExitStatus. step_defined. Qed.

Lemma defined_run_lines (argv : list string) : defined (run_lines argv).
Proof.
  unfold run_lines. apply defined_bind; [apply defined_Execvp|intros ?].
  apply defined_bind; [apply defined_getExitStatus|auto with sys].
Qed.

Lemma defined_runExitStatus (argv : list string) : children_kept → defined (runExitStatus argv).
Proof.
  intros Hc s why s'. unfold runExitStatus, mbind, M_bind, get.
  destruct (c_output _ _); [|done]. cbn. specialize (Hc (sys_trace s ++ [SRun argv]) argv).
  by destruct (c_wait _ argv).
Qed.
End Defined.
#[export] Hint Resolve defined_Execvp defined_getExitStatus defined_run_lines
  defined_runExitStatus : sys.

Lemma text_lines_nil_iff (s : string) : text_lines s = [] ↔ s = "".
Proof.
  destruct s as [|c s]; [done|]. cbn. case_decide; [done|].
  split; [|done]. by destruct (text_lines s).
Qed.

(** Lines written one by one are read back. *)
Fixpoint unlines (ls : list string) : string :=
  match ls with [] => "" | l :: ls' => l +:+ String "010" (unlines ls') end.

Lemma text_lines_app (l rest : string) :
  no_char "010" l = true → text_lines (l +:+ String "010" rest) = l :: text_lines rest.
Proof.
  induction l as [|c l IH]; [done|]. cbn. intros [Hc%bool_decide_eq_true Hl]%andb_true_iff.
  rewrite decide_False by done. by rewrite IH.
Qed.

Lemma text_lines_unlines (ls : list string) :
  Forall (λ l, no_char "010" l = true) ls → text_lines (unlines ls) = ls.
Proof.
  induction 1 as [|l ls Hl _ IH]; [done|]. cbn. by rewrite text_lines_app, IH.
Qed.

Lemma fd_text_id (s : string) : no_char "255" s = true → fd_text s = s.
Proof. unfold fd_text. by intros ->%split_at_None. Qed.

Lemma cti_stoi_to_string (z : Z) (name : string) :
  in_int z = true → cti_stoi (to_string z) name = Ok z.
Proof. intros Hz. unfold cti_stoi. by rewrite stoi_to_string. Qed.

Lemma uint32_small (z : Z) : 0 ≤ z < 2 ^ 32 → uint32 z = z.
Proof. apply Z.mod_small. Qed.

Lemma last_char_snoc (s : string) (c : ascii) : last_char (s +:+ String c "") = Some c.
Proof. induction s as [|x s IH]; [done|]. cbn. rewrite IH. by destruct s. Qed.

Lemma pop_back_snoc (s : string) (c : ascii) : pop_back (s +:+ String c "") = s.
Proof. induction s as [|x s IH]; [done|]. cbn. rewrite IH. by destruct s. Qed.

Lemma prefix_is_spec (p s : string) : prefix_is p s = true ↔ ∃ r, s = p +:+ r.
Proof.
  unfold prefix_is. rewrite bool_decide_eq_true. split; [|intros [r ->]; apply substr_full].
  unfold substr. revert s. induction p as [|c p IH]; intros s; [by exists s|].
  destruct s as [|d s]; [done|]. cbn. intros [= -> E]. destruct (IH s E) as [r ->]. by exists r.
Qed.

(** ** The environment: running programs leaves it alone. *)

(** A condition on the environment. *)
Definition env_is (P : gmap string string → Prop) (s : sys) : Prop := P (sys_env s).

Section KeepsEnv.
Context `{Commands} (P : gmap string string → Prop).

Lemma keeps_sys_emit (e : sys_event) : preserves (env_is P) (sys_emit e).
Proof. by apply preserves_modify. Qed.
#[local] Hint Resolve keeps_sys_emit : cti.

Lemma keeps_Execvp (argv : list string) : preserves (env_is P) (Execvp argv).
Proof. unfold Execvp. preserve. Qed.

Lemma keeps_getExitStatus (argv : list string) : preserves (env_is P) (getExitStatus argv).
Proof. unfold getExitStatus. preserve. Qed.
#[local] Hint Resolve keeps_Execvp keeps_getExitStatus : cti.

Lemma keeps_runExitStatus (argv : list string) : preserves (env_is P) (runExitStatus argv).
Proof. unfold runExitStatus. preserve. Qed.

Lemma keeps_run_lines (argv : list string) : preserves (env_is P) (run_lines argv).
Proof. unfold run_lines. preserve. Qed.

Lemma keeps_getenv (name : string) : preserves (env_is P) (getenv name).
Proof. unfold getenv. auto with cti. Qed.

Lemma keeps_catch_all {A : Type} (m : M sys A) (a : A) :
  preserves (env_is P) m → preserves (env_is P) (catch_all m a).
Proof. intros Hm. unfold catch_all. apply preserves_try_catch; auto with cti. Qed.
End KeepsEnv.
#[export] Hint Resolve keeps_sys_emit keeps_Execvp keeps_getExitStatus keeps_runExitStatus
  keeps_run_lines keeps_getenv keeps_catch_all : cti.

(** Structural steps of a proof that a condition on the environment is kept. *)
Ltac keep_env :=
  repeat first [progress preserve | progress cbv beta zeta
               | match goal with |- preserves (env_is _) (catch_all _ _) => apply keeps_catch_all end].

(** Programs that print a fixed text and end with a fixed code, others cannot be run:
    for evaluating the definitions on examples. *)
Definition scripted (answers : list (list string * (string * Z))) : Commands := {|
  c_output _ argv :=
    Some (default "" (fst ∘ snd <$> List.find (λ p, bool_decide (p.1 = argv)) answers));
  c_wait _ argv :=
    WExited (default 255 (snd ∘ snd <$> List.find (λ p, bool_decide (p.1 = argv)) answers))
|}.

Lemma scripted_kept (answers : list (list string * (string * Z))) : @children_kept (scripted answers).
Proof. done. Qed.

(** ** Costs: what a run adds to the trace, measured *)

Definition cost (f : sys_event → Z) (trace : list sys_event) : Z :=
  foldr (λ e z, f e + z) 0 trace.

Lemma cost_app (f : sys_event → Z) (t1 t2 : list sys_event) : cost f (t1 ++ t2) = cost f t1 + cost f t2.
Proof. induction t1 as [|e t1 IH]; cbn; [done|]. unfold cost in *. rewrite IH. lia. Qed.

Lemma cost_snoc (f : sys_event → Z) (t : list sys_event) (e : sys_event) :
  cost f (t ++ [e]) = cost f t + f e.
Proof. rewrite cost_app. unfold cost at 2. cbn. lia. Qed.
#[global] Arguments cost : simpl never.

(** The seconds slept, the programs run. *)
Definition seconds (e : sys_event) : Z := match e with SSleep n => n | _ => 0 end.
Definition runs (e : sys_event) : Z := match e with SRun _ => 1 | _ => 0 end.

(** A run costs at most [k]. *)
Definition takes {A : Type} (f : sys_event → Z) (k : Z) (m : M sys A) : Prop :=
  ∀ s, cost f (sys_trace (m s).2) ≤ cost f (sys_trace s) + k.

Section Takes.
Context (f : sys_event → Z).

Lemma takes_weaken {A : Type} (k k' : Z) (m : M sys A) : takes f k m → k ≤ k' → takes f k' m.
Proof. intros Hm Hk s. specialize (Hm s). lia. Qed.

Lemma takes_ret {A : Type} (a : A) : takes f 0 (mret a).
Proof. intros s. cbn. lia. Qed.

Lemma takes_throw {A : Type} (what : string) : takes f 0 (throw what : M sys A).
Proof. intros s. cbn. lia. Qed.

Lemma takes_undef {A : Type} (why : string) : takes f 0 (undef why : M sys A).
Proof. intros s. cbn. lia. Qed.

Lemma takes_lift {A : Type} (r : res A) : takes f 0 (lift r).
Proof. intros s. cbn. lia. Qed.

Lemma takes_get : takes f 0 get.
Proof. intros s. cbn. lia. Qed.

Lemma takes_getenv (name : string) : takes f 0 (getenv name).
Proof. intros s. cbn. lia. Qed.

Lemma takes_emit (e : sys_event) : takes f (f e) (sys_emit e).
Proof. intros s. cbn. rewrite cost_snoc. lia. Qed.

Lemma takes_bind {A B : Type} (k1 k2 : Z) (m : M sys A) (g : A → M sys B) :
  takes f k1 m → (∀ a, takes f k2 (g a)) → 0 ≤ k2 → takes f (k1 + k2) (m ≫= g).
Proof.
  intros Hm Hg Hk s. specialize (Hm s). unfold mbind, M_bind.
  destruct (m s) as [[a|e|e] s1]; cbn in *; [|lia..]. specialize (Hg a s1). lia.
Qed.

Lemma takes_try_catch {A : Type} (k : Z) (m : M sys A) (h : string → M sys A) :
  takes f k m → (∀ e, takes f 0 (h e)) → takes f k (try_catch m h).
Proof.
  intros Hm Hh s. specialize (Hm s). unfold try_catch.
  destruct (m s) as [[a|e|e] s1]; cbn in *; [lia| |lia]. specialize (Hh e s1). lia.
Qed.

Lemma takes_catch_all {A : Type} (k : Z) (m : M sys A) (a : A) :
  takes f k m → takes f k (catch_all m a).
Proof. intros Hm. apply takes_try_catch; [done|intros e; apply takes_ret]. Qed.

Context `{Commands}.

Lemma takes_Execvp (argv : list string) : 0 ≤ f (SRun argv) → takes f (f (SRun argv)) (Execvp argv).
Proof.
  intros Hf. apply takes_weaken with (0 + (f (SRun argv) + 0)); [|lia].
  apply takes_bind; [apply takes_get|intros s|lia].
  destruct (c_output _ _); [|eapply takes_weaken; [apply takes_throw|lia]].
  apply takes_bind; [apply takes_emit|intros _; apply takes_ret|lia].
Qed.

Lemma takes_getExitStatus (argv : list string) : takes f 0 (getExitStatus argv).
Proof.
  intros s. unfold getExitStatus, mbind, M_bind, get.
  destruct (c_wait (sys_trace s) argv); cbn; lia.
Qed.

Lemma takes_runExitStatus (argv : list string) :
  0 ≤ f (SRun argv) → takes f (f (SRun argv)) (runExitStatus argv).
Proof.
  intros Hf s. unfold runExitStatus, mbind, M_bind, get.
  destruct (c_output (sys_trace s) argv); cbn; [|lia].
  destruct (c_wait _ argv); cbn; rewrite cost_snoc; lia.
Qed.
End Takes.

Lemma contains_char (c : ascii) (s : string) : contains (String c "") s = negb (no_char c s).
Proof.
  induction s as [|x s IH]; [done|]. cbn. rewrite IH, negb_andb. f_equal.
  destruct (decide (c = x)) as [->|Hn].
  - rewrite (bool_decide_false (x ≠ x)) by (intros Hx; by apply Hx). by rewrite bool_decide_true.
  - rewrite (bool_decide_true (x ≠ c)) by done. by rewrite bool_decide_false.
Qed.
