(* ===== verification/Argv.v ===== *)
(** * Argument vectors (src/src/useful/cti_argv.hpp, src/src/cti_argv_defs.hpp)

    [ManagedArgv] is a vector of [char*] that ends with a null pointer.  The
    operations are translated over the vector itself; [represents] relates a
    vector to the list of arguments it holds, and the theorems show that every
    operation is the corresponding operation on that list. *)

From S2P Require Import Prelude.

(** [std::vector<char*>]: [None] is [nullptr]. *)
Abbreviation argv := (list (option string)).

(** [ManagedArgv()] *)
Definition argv_new : argv := [None].

(** [ManagedArgv(std::initializer_list)] *)
Definition argv_of_list (l : list string) : argv :=
  map (λ s, Some (c_str s)) l ++ [None].

(** [argv.insert(argv.end() - 1, p)]: undefined on an empty vector. *)
Definition insert_before_end (p : option string) (v : argv) : res argv :=
  match v with
  | [] => Undef "end() - 1 of an empty vector"
  | _ => Ok (take (length v - 1) v ++ p :: drop (length v - 1) v)
  end.

(** [add(std::string const&)] *)
Definition argv_add (s : string) (v : argv) : res argv :=
  insert_before_end (Some (c_str s)) v.

(** [add] of a C string *)
Definition argv_add_cstr (p : option string) (v : argv) : res argv :=
  match p with
  | None => Throw "attempted to add nullptr pointer to managed argument array"
  | Some s => insert_before_end (Some s) v
  end.

(** [for (auto arg = args; *arg != nullptr; arg++)]: reading past the end of an
    array without a null terminator is undefined. *)
Fixpoint argv_add_until_null (args : list (option string)) (v : argv) : res argv :=
  match args with
  | [] => Undef "argument array without terminator"
  | None :: _ => Ok v
  | Some a :: args' => v' ← insert_before_end (Some a) v; argv_add_until_null args' v'
  end.

(** [add] of an array of C strings *)
Definition argv_add_array (args : option (list (option string))) (v : argv) : res argv :=
  match args with
  | None => Throw "attempted to add null argument array"
  | Some l => argv_add_until_null l v
  end.

(** [add] of another [ManagedArgv]: [size() - 1] wraps around on an empty vector, and
    the loop then reads past its end. *)
Fixpoint argv_add_each (ps : list (option string)) (v : argv) : res argv :=
  match ps with
  | [] => Ok v
  | p :: ps' => v' ← argv_add_cstr p v; argv_add_each ps' v'
  end.

Definition argv_add_argv (other v : argv) : res argv :=
  match other with
  | [] => Undef "size() - 1 of an empty vector"
  | _ => argv_add_each (take (length other - 1) other) v
  end.

Definition argv_add_front (s : string) (v : argv) : argv := Some (c_str s) :: v.

(** [replace(index, str)]; [size() - 1] wraps around on an empty vector. *)
Definition argv_replace (index : nat) (s : string) (v : argv) : res argv :=
  match v with
  | [] => Undef "size() - 1 of an empty vector"
  | _ =>
      if (length v - 1 <=? index)%nat
      then Throw "attempted to replace managed argument out of bounds"
      else Ok (<[index := Some (c_str s)]> v)
  end.

(** [clone()] *)
Definition argv_clone (v : argv) : res argv := argv_add_array (Some v) argv_new.

(** [operator<<] of a [char*]: undefined on a null pointer. *)
Definition stream_cstr (p : option string) : res string :=
  match p with
  | Some s => Ok s
  | None => Undef "operator<< of a null pointer"
  end.

Definition dquote : ascii := "034"%char.

Fixpoint quote_args (ps : list (option string)) : res string :=
  match ps with
  | [] => Ok ""
  | p :: ps' =>
      s ← stream_cstr p;
      r ← quote_args ps';
      Ok (" " +:+ String dquote (s +:+ String dquote "") +:+ r)
  end.

(** [string()] *)
Definition argv_string (v : argv) : res string :=
  match v with
  | [] => Undef "size() - 1 of an empty vector"
  | p :: _ =>
      s ← stream_cstr p;
      r ← quote_args (drop 1 (take (length v - 1) v));
      Ok (s +:+ r)
  end.

(** [get() + 1] handed to a callee that reads up to the null terminator. *)
Fixpoint until_null (v : argv) : list string :=
  match v with
  | Some s :: v' => s :: until_null v'
  | _ => []
  end.

(** [enforceValidEnvStrings(env)] *)
Fixpoint enforceValidEnvStrings (env : list string) : res () :=
  match env with
  | [] => Ok tt
  | var :: env' =>
      match split_at "="%char var with
      | Some (String _ _, _) => enforceValidEnvStrings env'
      | _ => Throw ("Bad environment variable string: " +:+ var)
      end
  end.

(** [struct option] of getopt: long name, whether an argument is required, and
    the value returned for it. *)
Record gnu_option := GnuOption {
  opt_name : option string;
  opt_has_arg : bool;
  opt_val : Z
}.

Definition char_of_val (z : Z) : ascii := Ascii.ascii_of_N (Z.to_N (z mod 256)).

(** [OutgoingArgv::add(Option)] *)
Definition outgoing_add_option (o : gnu_option) (v : argv) : res argv :=
  match opt_name o with
  | None => argv_add ("-" +:+ String (char_of_val (opt_val o)) "") v
  | Some n => argv_add ("--" +:+ n) v
  end.

(** [OutgoingArgv::add(Parameter, value)] *)
Definition outgoing_add_param (o : gnu_option) (value : string) (v : argv) : res argv :=
  match opt_name o with
  | None =>
      v' ← argv_add ("-" +:+ String (char_of_val (opt_val o)) "") v;
      argv_add value v'
  | Some n => argv_add ("--" +:+ n +:+ "=" +:+ value) v
  end.

(** [OutgoingArgv(binary)] *)
Definition outgoing_new (binary : string) : res argv := argv_add binary argv_new.

Definition is_alpha (c : ascii) : bool :=
  let n := Ascii.nat_of_ascii c in
  ((65 <=? n) && (n <=? 90) || (97 <=? n) && (n <=? 122))%nat.

Definition val_is_alpha (z : Z) : bool :=
  (0 <=? z) && (z <? 256) && is_alpha (char_of_val z).

(** [IncomingArgv]'s constructor: the short option string given to getopt. *)
Fixpoint flag_spec (opts : list gnu_option) : string :=
  match opts with
  | [] => ""
  | o :: opts' =>
      if opt_val o =? 0 then ""
      else if val_is_alpha (opt_val o)
      then String (char_of_val (opt_val o))
             ((if opt_has_arg o then ":" else "") +:+ flag_spec opts')
      else flag_spec opts'
  end.

Definition incoming_flag_spec (opts : list gnu_option) : string := "+" +:+ flag_spec opts.

(** The option tables of cti_argv_defs.hpp used by the transfer code. *)
Module DaemonArgv.
Definition Clean := GnuOption (Some "clean") false 99.
Definition Help := GnuOption (Some "help") false 104.
Definition Debug := GnuOption (Some "debug") false 1.
Definition ApID := GnuOption (Some "apid") true 97.
Definition Binary := GnuOption (Some "binary") true 98.
Definition Directory := GnuOption (Some "directory") true 100.
Definition EnvVariable := GnuOption (Some "env") true 101.
Definition InstSeqNum := GnuOption (Some "inst") true 105.
Definition ManifestName := GnuOption (Some "manifest") true 109.
Definition ToolPath := GnuOption (Some "path") true 112.
Definition PMIAttribsPath := GnuOption (Some "apath") true 116.
Definition LdLibraryPath := GnuOption (Some "ldlibpath") true 108.
Definition WLMEnum := GnuOption (Some "wlm") true 119.
Definition long_options : list gnu_option :=
  [Clean; Help; Debug; ApID; Binary; Directory; EnvVariable; InstSeqNum;
   ManifestName; ToolPath; PMIAttribsPath; LdLibraryPath; WLMEnum;
   GnuOption None false 0].
End DaemonArgv.

Module CTIFEDaemonArgv.
Definition Help := GnuOption (Some "help") false 104.
Definition ReadFD := GnuOption (Some "read") true 114.
Definition WriteFD := GnuOption (Some "write") true 119.
Definition long_options : list gnu_option :=
  [Help; ReadFD; WriteFD; GnuOption None false 0].
End CTIFEDaemonArgv.

(** ** Specification *)

(** [v] holds the arguments [l], followed by the terminator. *)
Definition represents (v : argv) (l : list string) : Prop :=
  v = map Some l ++ [None].

(** The text [--name=value] of a parameter, or [-x] and [value]. *)
Definition param_args (o : gnu_option) (value : string) : list string :=
  match opt_name o with
  | None => ["-" +:+ String (char_of_val (opt_val o)) ""; value]
  | Some n => ["--" +:+ n +:+ "=" +:+ value]
  end.

Definition valid_env (var : string) : bool :=
  match split_at "="%char var with Some (a, _) => negb (is_empty a) | None => false end.

(** ** Lemmas *)

Lemma represents_new : represents argv_new [].
Proof. done. Qed.

Lemma represents_of_list (l : list string) :
  represents (argv_of_list l) (map c_str l).
Proof. unfold represents, argv_of_list. by rewrite map_map. Qed.

Lemma represents_length (v : argv) (l : list string) :
  represents v l → length v = S (length l).
Proof. intros ->. rewrite length_app, length_map. cbn. lia. Qed.

Lemma represents_cons (v : argv) (l : list string) :
  represents v l → ∃ p v', v = p :: v'.
Proof. intros ->. destruct l; cbn; eauto. Qed.

Lemma represents_inj (v : argv) (l l' : list string) :
  represents v l → represents v l' → l = l'.
Proof.
  unfold represents. intros -> [H _]%app_inj_tail.
  revert l' H. induction l as [|a l IH]; intros [|b l']; cbn; try done.
  intros [= -> ?%IH]. by subst.
Qed.

Lemma represents_split (v : argv) (l : list string) :
  represents v l → take (length v - 1) v = map Some l ∧ drop (length v - 1) v = [None].
Proof.
  intros H. rewrite (represents_length _ _ H), H. cbn. rewrite Nat.sub_0_r.
  rewrite <-(length_map Some l), take_app_length, drop_app_length. done.
Qed.

Lemma insert_before_end_spec (v : argv) (l : list string) (s : string) :
  represents v l →
  ∃ v', insert_before_end (Some s) v = Ok v' ∧ represents v' (l ++ [s]).
Proof.
  intros H. destruct (represents_split _ _ H) as [Ht Hd].
  assert (insert_before_end (Some s) v
    = Ok (take (length v - 1) v ++ Some s :: drop (length v - 1) v)) as ->.
  { destruct (represents_cons _ _ H) as (p & w & ->). done. }
  rewrite Ht, Hd. eexists. split; [done|]. unfold represents. by rewrite map_app, <-app_assoc.
Qed.

Lemma argv_add_until_null_spec (l args : list string) (rest v : list (option string)) :
  represents v l →
  ∃ v', argv_add_until_null (map Some args ++ None :: rest) v = Ok v' ∧
        represents v' (l ++ args).
Proof.
  revert l v. induction args as [|a args IH]; intros l v H; cbn.
  - exists v. by rewrite app_nil_r.
  - destruct (insert_before_end_spec v l a H) as (v1 & E & H1). rewrite E. cbn.
    destruct (IH (l ++ [a]) v1 H1) as (v2 & E2 & H2). exists v2. split; [done|].
    by rewrite <-app_assoc in H2.
Qed.

Lemma argv_add_each_spec (args l : list string) (v : argv) :
  represents v l →
  ∃ v', argv_add_each (map Some args) v = Ok v' ∧ represents v' (l ++ args).
Proof.
  revert l v. induction args as [|a args IH]; intros l v H; cbn.
  - exists v. by rewrite app_nil_r.
  - destruct (insert_before_end_spec v l a H) as (v1 & E & H1). rewrite E. cbn.
    destruct (IH (l ++ [a]) v1 H1) as (v2 & E2 & H2). exists v2. split; [done|].
    by rewrite <-app_assoc in H2.
Qed.

Lemma until_null_represents (v : argv) (l : list string) :
  represents v l → until_null v = l.
Proof. intros ->. induction l as [|a l IH]; cbn; [done|]. by rewrite IH. Qed.

Lemma quote_args_spec (l : list string) :
  quote_args (map Some l)
  = Ok (foldr (λ s r, " " +:+ String dquote (s +:+ String dquote "") +:+ r) "" l).
Proof. induction l as [|a l IH]; cbn; [done|]. by rewrite IH. Qed.

Lemma argv_add_spec (v : argv) (l : list string) (s : string) :
  represents v l → ∃ v', argv_add s v = Ok v' ∧ represents v' (l ++ [c_str s]).
Proof. apply insert_before_end_spec. Qed.

Lemma outgoing_add_param_spec (o : gnu_option) (value : string) (v : argv) (l : list string) :
  represents v l →
  ∃ v', outgoing_add_param o value v = Ok v' ∧
        represents v' (l ++ map c_str (param_args o value)).
Proof.
  intros H. unfold outgoing_add_param, param_args. destruct (opt_name o) as [n|].
  - by apply argv_add_spec.
  - destruct (argv_add_spec v l ("-" +:+ String (char_of_val (opt_val o)) "") H)
      as (v1 & -> & H1). cbn.
    destruct (argv_add_spec v1 _ value H1) as (v2 & -> & H2). exists v2.
    split; [done|]. by rewrite <-app_assoc in H2.
Qed.

(** Every operation of [ManagedArgv] on a well-formed vector is the matching
    operation on the list of arguments, and leaves the vector well formed: [add]
    appends, [add] of an array appends all of it, [add_front] prepends, [clone]
    copies.  Texts are cut at their first NUL by [strdup]. *)
Theorem argv_refines_list (v other : argv) (l l2 : list string) (s : string) :
  represents v l → represents other l2 →
  (∃ v', argv_add s v = Ok v' ∧ represents v' (l ++ [c_str s])) ∧
  (∃ v', argv_add_array (Some other) v = Ok v' ∧ represents v' (l ++ l2)) ∧
  (∃ v', argv_add_argv other v = Ok v' ∧ represents v' (l ++ l2)) ∧
  (∃ v', argv_clone v = Ok v' ∧ represents v' l) ∧
  represents (argv_add_front s v) (c_str s :: l).
Proof.
  intros H H2. split_and!.
  - by apply argv_add_spec.
  - unfold argv_add_array. rewrite H2. by apply (argv_add_until_null_spec l l2 []).
  - unfold argv_add_argv. destruct (represents_cons _ _ H2) as (p & w & E).
    destruct (represents_split _ _ H2) as [Ht _]. rewrite Ht.
    destruct (argv_add_each_spec l2 l v H) as (v' & E' & ?).
    exists v'. by rewrite E' , E.
  - unfold argv_clone, argv_add_array. rewrite H.
    by apply (argv_add_until_null_spec [] l []).
  - unfold argv_add_front. by rewrite H.
Qed.

Lemma argv_refines_list_witness :
  ∃ v', argv_add "x" (argv_of_list ["a"]) = Ok v' ∧ represents v' ["a"; "x"].
Proof.
  exact (proj1 (argv_refines_list (argv_of_list ["a"]) argv_new ["a"] [] "x"
    eq_refl eq_refl)).
Defined.

(** [replace] changes exactly the argument at the index, throws when the index
    does not name an argument, and never touches the terminator. *)
Theorem argv_replace_spec (v : argv) (l : list string) (i : nat) (s : string) :
  represents v l →
  ((i < length l)%nat →
    ∃ v', argv_replace i s v = Ok v' ∧ represents v' (<[i := c_str s]> l)) ∧
  ((length l <= i)%nat →
    argv_replace i s v = Throw "attempted to replace managed argument out of bounds").
Proof.
  intros H. pose proof (represents_length _ _ H) as Hl.
  assert (argv_replace i s v =
    if (length l <=? i)%nat
    then Throw "attempted to replace managed argument out of bounds"
    else Ok (<[i := Some (c_str s)]> v)) as ->.
  { destruct (represents_cons _ _ H) as (p & w & ->). unfold argv_replace.
    rewrite Hl. cbn [Nat.sub]. by rewrite Nat.sub_0_r. }
  split; intros Hi.
  - rewrite (proj2 (Nat.leb_gt _ _)) by lia. eexists. split; [done|].
    unfold represents. rewrite H, insert_app_l by (by rewrite length_map).
    by rewrite list_fmap_insert.
  - by rewrite (proj2 (Nat.leb_le _ _)) by lia.
Qed.

Lemma argv_replace_spec_witness :
  (∃ v', argv_replace 1 "z" (argv_of_list ["a"; "b"]) = Ok v' ∧ represents v' ["a"; "z"]) ∧
  argv_replace 2 "z" (argv_of_list ["a"; "b"])
  = Throw "attempted to replace managed argument out of bounds".
Proof.
  split.
  - apply (argv_replace_spec (argv_of_list ["a"; "b"]) ["a"; "b"] 1 "z" eq_refl). cbn. lia.
  - apply (argv_replace_spec (argv_of_list ["a"; "b"]) ["a"; "b"] 2 "z" eq_refl). cbn. lia.
Defined.

(** [enforceValidEnvStrings] accepts an environment exactly when every entry
    has the form NAME=VALUE with a non-empty name. *)
Theorem enforceValidEnvStrings_spec (env : list string) :
  enforceValidEnvStrings env = Ok tt ↔
  Forall (λ var, ∃ name value, var = name +:+ String "=" value ∧ name ≠ "" ∧
                               no_char "=" name = true) env.
Proof.
  induction env as [|var env IH]; cbn.
  { split; [constructor|done]. }
  rewrite Forall_cons. destruct (split_at "=" var) as [[a b]|] eqn:E.
  - apply split_at_Some in E as [-> Ha]. destruct a as [|c a].
    + split; [done|]. intros [(n & w & H & Hne & Hn) _]. cbn in H.
      destruct n as [|x n]; [done|]. injection H as <- H. by cbn in Hn.
    + rewrite IH. split; [intros ?; split; [|done]|by intros []].
      by exists (String c a), b.
  - split; [done|]. intros [(n & w & -> & _ & Hn) _].
    by rewrite split_at_app in E.
Qed.

(** A parameter passed by [OutgoingArgv] travels as one argument
    [--name=value] from which name and value are recovered by cutting at the
    first equals sign, whatever the value holds. *)
Theorem outgoing_param_roundtrip (o : gnu_option) (n value : string) (v : argv) (l : list string) :
  opt_name o = Some n → no_char "=" n = true → nul_free n = true → nul_free value = true →
  represents v l →
  ∃ v' arg, outgoing_add_param o value v = Ok v' ∧ represents v' (l ++ [arg]) ∧
            split_at "=" arg = Some ("--" +:+ n, value).
Proof.
  intros Ho Hn Hn0 Hv0 H.
  destruct (outgoing_add_param_spec o value v l H) as (v' & E & H').
  unfold param_args in H'. rewrite Ho in H'.
  exists v', ("--" +:+ n +:+ "=" +:+ value). split; [done|]. cbn [map] in H'.
  rewrite c_str_id in H'.
  - split; [done|]. change ("=" +:+ value) with (String "=" value).
    rewrite <-string_app_assoc. apply split_at_app. done.
  - unfold nul_free, no_char in *. rewrite !string_forall_app. by rewrite Hn0, Hv0.
Qed.

Lemma outgoing_param_roundtrip_witness :
  ∃ v' arg, outgoing_add_param DaemonArgv.EnvVariable "A=b=c" argv_new = Ok v' ∧
            represents v' ([] ++ [arg]) ∧ split_at "=" arg = Some ("--env", "A=b=c").
Proof. by apply (outgoing_param_roundtrip DaemonArgv.EnvVariable "env"). Defined.

Example daemon_flag_spec :
  incoming_flag_spec DaemonArgv.long_options = "+cha:b:d:e:i:m:p:t:l:w:".
Proof. reflexivity. Qed.
