(* ===== verification/Host.v ===== *)
(** * The host system and its wrappers (src/src/useful/cti_wrappers.hpp)

    [Host] collects what the frontend asks of the operating system and of the
    path and dependency searches: parameters of the development.  The file system
    is taken as fixed while a manifest is prepared and shipped.  The definitions
    are the wrappers that turn null results into exceptions. *)

From Stdlib Require Export Strings.Byte.
From S2P Require Import Prelude.

Inductive file_type : Type := TReg | TDir | TSock | TOther.

#[export] Instance file_type_eq_dec : EqDecision file_type.
Proof. solve_decision. Defined.

Class Host : Type := {
  (** [stat(path, &st)]: [None] on failure, otherwise the type in [st_mode]. *)
  os_stat : string → option file_type;
  (** [access(path, perms) == 0] *)
  os_access : string → Z → bool;
  (** [realpath(path, nullptr)] *)
  os_realpath : string → option string;
  (** libc [basename] *)
  os_basename : string → option string;
  (** [_cti_pathFind(name, nullptr)] and [_cti_libFind(name)] *)
  os_pathFind : string → option string;
  os_libFind : string → option string;
  (** [_cti_ld_val(file, audit)]: the libraries a binary depends on *)
  os_ld_val : string → string → option (list string);
  os_getenv : string → option string;
  (** [opendir], then the entries [readdir] gives, each with whether [errno] is
      set after the call *)
  os_readdir : string → option (list (string * bool));
  (** [open], then the blocks successive [read] calls give up to end of file,
      [None] for a failing call *)
  os_read : string → option (list (option (list byte)))
}.

(** The text of a file up to the first read that fails. *)
Fixpoint blocks_text (blocks : list (option (list byte))) : string :=
  match blocks with
  | Some bytes :: blocks' => string_of_list_byte bytes +:+ blocks_text blocks'
  | _ => ""
  end.

Section Wrappers.
Context `{Host}.

Definition F_OK : Z := 0.
Definition X_OK : Z := 1.
Definition W_OK : Z := 2.
Definition R_OK : Z := 4.

Definition dirHasPerms (dirPath : option string) (perms : Z) : bool :=
  match dirPath with
  | None => false
  | Some p => bool_decide (os_stat p = Some TDir) && os_access p perms
  end.

Definition fileHasPerms (filePath : option string) (perms : Z) : bool :=
  match filePath with
  | None => false
  | Some p =>
      match os_stat p with
      | Some t => bool_decide (t ≠ TDir) && os_access p perms
      | None => false
      end
  end.

Definition socketHasPerms (socketPath : option string) (perms : Z) : bool :=
  match socketPath with
  | None => false
  | Some p => bool_decide (os_stat p = Some TSock) && os_access p perms
  end.

Definition pathExists (filePath : string) : bool :=
  match os_stat filePath with Some _ => true | None => false end.

Definition isSameFile (filePath candidatePath : string) : bool :=
  bool_decide (filePath = candidatePath).

(** [cti::cstr::realpath] *)
Definition cstr_realpath (filePath : string) : res string :=
  match os_realpath filePath with
  | Some p => Ok p
  | None => Throw "realpath failed."
  end.

(** [cti::cstr::basename] *)
Definition cstr_basename (path : string) : res string :=
  if is_empty path then Ok ""
  else match os_basename path with
       | Some b => Ok b
       | None => Throw ("basename failed on " +:+ path)
       end.

Definition findPath (fileName : string) : res string :=
  match os_pathFind fileName with
  | Some p => Ok p
  | None => Throw (fileName +:+ ": Could not locate in PATH.")
  end.

Definition findLib (fileName : string) : res string :=
  match os_libFind fileName with
  | Some p => Ok p
  | None => Throw (fileName +:+ ": Could not locate in LD_LIBRARY_PATH or system location.")
  end.

(** [cti::ld_val::getFileDependencies] *)
Definition getFileDependencies (filePath ldAuditPath : string) : option (list string) :=
  os_ld_val filePath ldAuditPath.

Definition accessiblePath (path : string) : res string :=
  if os_access path (Z.lor R_OK X_OK) then Ok path
  else Throw ("path inacessible: " +:+ path).

(** [getenvOrDefault] *)
Definition getenvOrDefault (env_var default_value : string) : string :=
  default default_value (os_getenv env_var).
End Wrappers.

(** ** Paths *)

(** The directory part of a path: [std::filesystem::path::parent_path]. *)
Fixpoint last_slash (s : string) : option nat :=
  match s with
  | "" => None
  | String c s' =>
      match last_slash s' with
      | Some i => Some (S i)
      | None => if decide (c = "/"%char) then Some O else None
      end
  end.

Fixpoint strip_slashes (s : string) : string :=
  match s with
  | "" => ""
  | String c s' =>
      match strip_slashes s' with
      | "" => if decide (c = "/"%char) then "" else String c ""
      | r => String c r
      end
  end.

Definition parent_path (p : string) : string :=
  match last_slash p with
  | None => ""
  | Some i =>
      let d := strip_slashes (substr 0 i p) in
      if is_empty d then "/" else d
  end.

(** A small concrete host, for evaluating the definitions on examples. *)
Definition demo_files : list (string * list byte) :=
  [("/d/f", [x61; x62]); ("/d/.h", [x63]); ("/usr/bin/tool", [x74]);
   ("/opt/lib/libx.so", [x78]); ("/old/lib/libx.so", [x79]); ("/etc/tool", [x65])].

Definition demo_lookup {A : Type} (l : list (string * A)) (p : string) : option A :=
  snd <$> List.find (λ q, bool_decide (q.1 = p)) l.

#[export] Instance demo_host : Host := {|
  os_stat p := if decide (p = "/d") then Some TDir
               else (λ _, TReg) <$> demo_lookup demo_files p;
  os_access _ _ := true;
  os_realpath p := Some p;
  os_basename p := demo_lookup
    [("/d", "d"); ("/d/f", "f"); ("/usr/bin/tool", "tool"); ("/etc/tool", "tool");
     ("/opt/lib/libx.so", "libx.so"); ("/old/lib/libx.so", "libx.so")] p;
  os_pathFind p := if decide (p = "tool") then Some "/usr/bin/tool" else Some p;
  os_libFind p := if decide (p = "libx.so") then Some "/opt/lib/libx.so" else Some p;
  os_ld_val f _ := if decide (f = "/usr/bin/tool") then Some ["libx.so"] else None;
  os_getenv _ := None;
  os_readdir p := if decide (p = "/d") then Some [("f", false); (".h", false)] else None;
  os_read p := (λ d, [Some d]) <$> demo_lookup demo_files p
|}.
