(* ===== verification/Detect.v ===== *)
(** * Detection of the system and of the workload manager
    (src/src/frontend/Frontend.cpp, FluxFrontend::findLibFluxPath of Flux/Frontend.cpp)

    [Frontend::inst()] reads a setting from the environment, runs programs to find
    out about the system where there is none, checks that the workload manager is
    usable and makes the frontend for it.  The model goes up to the choice of the
    class; constructing its object is the matter of the frontends. *)

From S2P Require Import Prelude Split Host System.

(** ** Data *)

Inductive System : Type := SystemUnknown | Linux | HPCM | Shasta | XC | CS | Eproxy.

Inductive WLM : Type := WLMUnknown | PALS | Slurm | ALPS | SSH | Flux | Localhost.

#[export] Instance System_eq_dec : EqDecision System.
Proof. solve_decision. Defined.

#[export] Instance WLM_eq_dec : EqDecision WLM.
Proof. solve_decision. Defined.

(** The classes [make_Frontend] makes. *)
Inductive frontend_class : Type :=
| SLURMFrontend | HPCMSLURMFrontend | EproxySLURMFrontend | ALPSFrontend | PALSFrontend
| GenericSSHFrontend | FluxFrontend | LocalhostFrontend.

(** What the build was configured with. *)
Class Build : Type := { HAVE_ALPS : bool; HAVE_PALS : bool; HAVE_FLUX : bool }.

(** libwlm_detect: whether it and its functions can be loaded, and their results. *)
Class WlmDetect : Type := {
  wlm_detect_lib : bool;
  wlm_detect_get_active : option string;
  wlm_detect_get_default : option string
}.

Definition System_to_string (system : System) : string :=
  match system with
  | SystemUnknown => "" | Linux => "Generic Linux" | HPCM => "HPCM" | Shasta => "Cray Shasta"
  | XC => "Cray XC" | CS => "Cray CS" | Eproxy => "Eproxy"
  end.

Definition WLM_to_string (wlm : WLM) : string :=
  match wlm with
  | WLMUnknown => "Unknown WLM" | PALS => "PALS" | Slurm => "Slurm" | ALPS => "ALPS"
  | SSH => "SSH" | Flux => "Flux" | Localhost => "Localhost"
  end.

Definition format_System_WLM (system : System) (wlm : WLM) : string :=
  if decide (system ≠ SystemUnknown)
  then System_to_string system +:+ " / " +:+ WLM_to_string wlm
  else WLM_to_string wlm.

(** The names of environment variables. *)
Definition CTI_LAUNCHER_NAME : string := "CTI_LAUNCHER_NAME".
Definition CTI_WLM_IMPL : string := "CTI_WLM_IMPL".
Definition CTI_SKIP_LAUNCHER_CHECK : string := "CTI_SKIP_LAUNCHER_CHECK".
Definition CTI_LAUNCHER_SCRIPT : string := "CTI_LAUNCHER_SCRIPT".
Definition SLURM_OVERRIDE_MC : string := "CTI_SLURM_OVERRIDE_MC".
Definition SLURM_OVERRIDE_EPROXY : string := "CTI_SLURM_OVERRIDE_EPROXY".
Definition LIBFLUX_PATH : string := "LIBFLUX_PATH".

(** The launcher, when it is not named. *)
Definition launcher_or (default_name launcherName : string) : string :=
  if is_empty launcherName then default_name else launcherName.

Section Detect.
Context `{Host} `{Commands} `{Build} `{WlmDetect}.

(** ** The system *)

(** The first line decides; how the program ended is never looked at. *)
Definition detect_HPCM : M sys bool :=
  catch_all
    (lines ← Execvp ["cminfo"; "--name"];
     mret match lines with
          | cmName :: _ => bool_decide (cmName = "admin") || prefix_is "service" cmName
          | [] => false
          end) false.

Definition CLUSTER_FILE_TEST : string := "/etc/redhat-release".

Definition detect_CS : bool := bool_decide (is_Some (os_stat CLUSTER_FILE_TEST)).

Definition detect_Eproxy : M sys bool :=
  catch_all
    (status ← runExitStatus ["eproxy"; "--check"];
     if negb (status =? 0) then mret false
     else
       keyfile ← getenv "EPROXY_KEYFILE";
       mret (fileHasPerms (Some (default "/opt/cray/elogin/eproxy/etc/eproxy.ini" keyfile)) R_OK))
    false.

Definition system_settings : list (string * System) :=
  [("linux", Linux); ("hpcm", HPCM); ("shasta", Shasta); ("xc", XC); ("cs", CS);
   ("eproxy", Eproxy)].

(** The meaning of a name in a table of settings. *)
Definition lookup_setting {A : Type} (table : list (string * A)) (name : string) : option A :=
  snd <$> List.find (λ p, bool_decide (p.1 = name)) table.

Definition detect_System (systemSetting : string) : M sys System :=
  if negb (is_empty systemSetting)
  then match lookup_setting system_settings systemSetting with
       | Some system => mret system
       | None => throw ("invalid system setting for CTI_WLM_IMPL: '" +:+ systemSetting +:+ "'")
       end
  else
    eproxy ← detect_Eproxy;
    if (eproxy : bool) then mret Eproxy
    else
      hpcm ← detect_HPCM;
      if (hpcm : bool) then mret HPCM
      else if detect_CS then mret CS else mret SystemUnknown.

(** ** The workload manager *)

Definition pbs_query : list string :=
  ["rpm"; "-q"; "pbspro-server"; "pbspro-client"; "pbspro-execution"; "openpbs-server";
   "openpbs-client"; "openpbs-execution"].

Definition detect_PALS : M sys bool :=
  catch_all (failed_packages ← runExitStatus pbs_query; mret (negb (failed_packages =? 6))) false.

Definition detect_Slurm (launcherName : string) : M sys bool :=
  let argv := [launcher_or "srun" launcherName; "--version"] in
  catch_all
    (lines ← Execvp argv;
     match lines with
     | versionLine :: _ =>
         if negb (prefix_is "slurm " versionLine) then mret false
         else status ← getExitStatus argv; mret (status =? 0)
     | [] => mret false
     end) false.

(** A line that is not ALPS's is passed over: then the exit status decides. *)
Definition detect_XC_ALPS (launcherName : string) : M sys bool :=
  let argv := [launcher_or "aprun" launcherName; "--version"] in
  catch_all
    (lines ← Execvp argv;
     let is_alps :=
       match lines with
       | versionLine :: _ =>
           let '(aprun, alps, version) := split3 versionLine " " in
           bool_decide (aprun = "aprun") && bool_decide (alps = "(ALPS)")
       | [] => false
       end in
     if (is_alps : bool) then mret true
     else status ← getExitStatus argv; mret (status =? 0)) false.

Definition detect_Flux (launcherName : string) : M sys bool :=
  catch_all
    (status ← runExitStatus [launcher_or "flux" launcherName; "--version"]; mret (status =? 0)) false.

Definition wlm_settings : list (string * WLM) :=
  [("ssh", SSH); ("generic", SSH); ("alps", ALPS); ("slurm", Slurm); ("pals", PALS);
   ("flux", Flux); ("localhost", Localhost)].

(** What libwlm_detect says, where it is installed and knows. *)
Definition wlm_detect : option WLM :=
  if wlm_detect_lib
  then
    wlmName ← match wlm_detect_get_active with
              | Some name => Some name
              | None => wlm_detect_get_default
              end;
    if decide (wlmName = "ALPS") then Some ALPS
    else if decide (wlmName = "SLURM") then Some Slurm else None
  else None.

Definition detect_WLM (system : System) (wlmSetting launcherName : string) : M sys WLM :=
  if negb (is_empty wlmSetting)
  then match lookup_setting wlm_settings wlmSetting with
       | Some wlm => mret wlm
       | None => throw ("invalid WLM setting for CTI_WLM_IMPL: '" +:+ wlmSetting +:+ "'")
       end
  else
    match wlm_detect with
    | Some wlm => mret wlm
    | None =>
        slurm ← detect_Slurm launcherName;
        if (slurm : bool) then mret Slurm
        else if decide (system = XC)
        then alps ← detect_XC_ALPS launcherName; mret (if (alps : bool) then ALPS else WLMUnknown)
        else
          pals ← detect_PALS;
          if (pals : bool) then mret PALS
          else flux ← detect_Flux launcherName; mret (if (flux : bool) then Flux else SSH)
    end.
End Detect.

(** ** Checking that the workload manager is usable *)

Inductive MPIRSymbolStatus : Type :=
| StatusOk | LauncherNotFound | NotBinaryFile | NoMPIRBreakpoint | NoMPIRSymbols.

#[export] Instance MPIRSymbolStatus_eq_dec : EqDecision MPIRSymbolStatus.
Proof. solve_decision. Defined.

Definition format_MPIRSymbolError (status : MPIRSymbolStatus) (launcherName launcherPath : string)
    (system : System) (wlm : WLM) : string :=
  let tried := "(tried " +:+ format_System_WLM system wlm +:+ ")" in
  match status with
  | StatusOk => ""
  | LauncherNotFound =>
      launcherName +:+ " was not found in PATH " +:+ tried +:+ ". If your system is " +:+
      "not configured with this workload manager, try setting the environment " +:+
      "variable CTI_WLM_IMPL to one of 'slurm', 'pals', 'flux', or 'alps'. For more " +:+
      "information, run `man cti` and review CTI_WLM_IMPL."
  | NotBinaryFile =>
      launcherName +:+ " was found at " +:+ launcherPath +:+ ", but it is not a binary file. " +:+
      "Tool launch requires direct access to the " +:+ launcherName +:+ " binary. Ensure that the " +:+
      launcherName +:+ " binary not wrapped by a script " +:+ tried
  | NoMPIRBreakpoint =>
      launcherName +:+ " was found at " +:+ launcherPath +:+
      ", but it does not appear to support MPIR launch (function MPIR_Breakpoint was not found). " +:+
      "Tool launch is coordinated through setting a breakpoint at this function. " +:+
      "Please contact your system administrator with a bug report " +:+ tried
  | NoMPIRSymbols =>
      launcherName +:+ " was found at " +:+ launcherPath +:+
      ", but it does not contain debug symbols. Tool launch is coordinated through reading " +:+
      "information at these symbols. Please contact your system administrator with a bug report " +:+
      tried
  end.

(** [s.rfind(c, pos)] *)
Definition rfind (c : ascii) (s : string) (pos : nat) : option nat :=
  find_last_not_of (λ x, bool_decide (x ≠ c)) (substr 0 (S pos) s).

(** The utility a line of the eproxy check reports as correct. *)
Definition eproxy_utility (line : string) : option string :=
  let len := String.length line in
  if (11 <? len)%nat && bool_decide (drop_str (len - 11) line = "is correct.")
  then
    let utility_start :=
      match rfind " " line (if (len =? 12)%nat then len else len - 13) with
      | Some i => S i
      | None => O
      end in
    fst <$> split_at " " (drop_str utility_start line)
  else None.

Definition slurm_utilities : gset string := {["srun"; "squeue"; "scancel"; "sbcast"]}.

(** The utilities not seen in the output of the check. *)
Fixpoint eproxy_missing (lines : list string) (utilityNames : gset string) : gset string :=
  match lines with
  | [] => utilityNames
  | line :: lines' =>
      eproxy_missing lines'
        (match eproxy_utility line with
         | Some utility => utilityNames ∖ {[utility]}
         | None => utilityNames
         end)
  end.

(** The clusters that [sacctmgr] lists with nodes. *)
Definition active_clusters (lines : list string) : nat :=
  length (filter (λ line, is_empty (split2 line "|").2 = false) lines).

Section Verify.
Context `{Host} `{Commands} `{Build} `{WlmDetect}.

(** A shell test on the launcher, and the result when it fails. *)
Definition shell_test (script : string) : M sys bool :=
  status ← runExitStatus ["sh"; "-c"; script]; mret (status =? 0).

Definition verify_MPIR_symbols (launcherName : string) : M sys (MPIRSymbolStatus * string) :=
  match findPath launcherName with
  | Ok launcherPath =>
      skip ← getenv CTI_SKIP_LAUNCHER_CHECK;
      if match skip with Some (String c _) => bool_decide (c = "1"%char) | _ => false end
      then mret (StatusOk, launcherPath)
      else
        binary ← shell_test ("file --mime -L " +:+ launcherPath +:+
          " | grep -E 'application/x-(executable|pie-executable|sharedlib|object|elf)'");
        if negb (binary : bool) then mret (NotBinaryFile, launcherPath)
        else
          breakpoint ← shell_test ("nm -a " +:+ launcherPath +:+ " | grep MPIR_Breakpoint$");
          if negb (breakpoint : bool) then mret (NoMPIRBreakpoint, launcherPath)
          else
            symbols ← shell_test ("nm -a " +:+ launcherPath +:+ " | grep MPIR_being_debugged$");
            mret (if (symbols : bool) then StatusOk else NoMPIRSymbols, launcherPath)
  | _ => mret (LauncherNotFound, "")
  end.

(** The check of workload managers that need direct access to the launcher. *)
Definition verify_launcher (system : System) (wlm : WLM) (launcherName : string) : M sys () :=
  '(status, launcherPath) ← verify_MPIR_symbols launcherName;
  if decide (status = StatusOk) then mret tt
  else throw (format_MPIRSymbolError status launcherName launcherPath system wlm).

Definition verify_PALS_configured (system : System) (wlm : WLM) (launcherName : string) : M sys () :=
  verify_launcher system wlm (launcher_or "mpiexec" launcherName);;
  let argv := ["palstat"; "--version"] in
  try_catch
    (lines ← Execvp argv;
     match lines with
     | versionLine :: _ =>
         status ← getExitStatus argv;
         if negb (status =? 0) then throw "`palstat --version` failed"
         else if prefix_is "palstat " versionLine then mret tt
         else throw ("`palstat --version` returned " +:+ versionLine)
     | [] => throw "`palstat --version` failed"
     end)
    (λ what, throw ("The system was detected as " +:+ format_System_WLM system wlm +:+
       ", but checking the PALS utilities failed. You may need to run `module load cray-pals`" +:+
       " (" +:+ c_str what +:+ ")")).

Definition verify_XC_ALPS_configured (system : System) (wlm : WLM) (launcherName : string) : M sys () :=
  verify_launcher system wlm (launcher_or "aprun" launcherName).

Definition verify_SSH_configured (system : System) (wlm : WLM) (launcherName : string) : M sys () :=
  verify_launcher system wlm (launcher_or "mpiexec" launcherName).

Definition detect_Slurm_shared_multicluster : M sys bool :=
  let argv := ["sacctmgr"; "-P"; "-n"; "show"; "cluster"; "format=Cluster,ClusterNodes"] in
  catch_all
    ('(lines, status) ← run_lines argv;
     if negb (status =? 0) then mret false
     else if (active_clusters lines <=? 1)%nat then mret false
     else named ← shell_test "scontrol show config | grep ClusterName"; mret (negb named)) false.

Definition detect_Slurm_allocation : M sys bool :=
  slurm_job_name ← getenv "SLURM_JOB_NAME";
  mret (bool_decide (slurm_job_name = Some "interactive")).

Definition verify_Slurm_configured (system : System) (wlm : WLM) (launcherName : string) : M sys () :=
  let launcherName := launcher_or "srun" launcherName in
  '(status, launcherPath) ← verify_MPIR_symbols launcherName;
  (if decide (status = NotBinaryFile) then sys_setenv CTI_LAUNCHER_SCRIPT (c_str launcherPath) false
   else if decide (status = StatusOk) then mret tt
   else throw (format_MPIRSymbolError status launcherName launcherPath system wlm));;
  override ← getenv SLURM_OVERRIDE_MC;
  match override with
  | Some _ => mret tt
  | None =>
      shared ← detect_Slurm_shared_multicluster;
      if negb (shared : bool) then mret tt
      else
        allocation ← detect_Slurm_allocation;
        if (allocation : bool) then mret tt
        else throw ("CTI uses several Slurm utilities to set up job launches, some of which " +:+
          "do not support specifying the target cluster within a multi-cluster system." +:+ nl +:+
          "To continue with launch, please start this tool inside a Slurm allocation " +:+
          "or on a node within the same cluster as your target job." +:+ nl +:+
          "To bypass this check, set the environment variable " +:+ SLURM_OVERRIDE_MC)
  end.

Definition verify_Eproxy_Slurm_configured : M sys () :=
  override ← getenv SLURM_OVERRIDE_EPROXY;
  match override with
  | Some _ => mret tt
  | None =>
      let argv := ["eproxy"; "--check"] in
      try_catch
        ('(lines, status) ← run_lines argv;
         let utilityNames := eproxy_missing lines slurm_utilities in
         if decide (utilityNames = ∅) then mret tt
         else throw ("Eproxy reported Slurm utilities not configured (" +:+
                     joinStr (sorted_elements utilityNames) ", " +:+ ")"))
        (λ what, throw ("Eproxy detected as not configured: " +:+ c_str what +:+
           ". To disable this check, set " +:+ SLURM_OVERRIDE_EPROXY))
  end.

(** The library in a line of [ldd]. *)
Definition ldd_library (libraryPathMap : string) : option string :=
  match split_string 4 libraryPathMap " " with
  | [library; _; path; _] =>
      if starts_with "libflux-core.so.2" (removeLeadingWhitespace library) then Some path else None
  | _ => None
  end.

Definition findLibFluxPath (launcherName : string) : M sys string :=
  libflux_path ← getenv LIBFLUX_PATH;
  match libflux_path with
  | Some path => mret path
  | None =>
      match os_pathFind launcherName with
      | None => throw ("Could not find Flux launcher '" +:+ launcherName +:+ "' in PATH. " +:+
                       "Ensure the Flux launcher is accessible and executable")
      | Some launcher_path =>
          lines ← Execvp ["ldd"; launcher_path];
          match omap ldd_library lines with
          | path :: _ => mret path
          | [] => throw ("Could not find the path to libflux-core.so.2 in the launcher's " +:+
                         "dependencies. Try setting LIBFLUX_PATH to the path to the Flux runtime library")
          end
      end
  end.

Definition verify_Flux_socket (system : System) (wlm : WLM) : M sys () :=
  let tried := " (tried " +:+ format_System_WLM system wlm +:+ ")" in
  flux_uri ← getenv "FLUX_URI";
  match flux_uri with
  | Some uri =>
      match find_sub "://" uri with
      | None => throw ("Could not parse Flux API socket information. FLUX_URI contained '" +:+ uri +:+
                       "', expected format 'protocol://socket_path'" +:+ tried)
      | Some (protocol, fluxSocketPath) =>
          if bool_decide (protocol = "local") &&
             negb (socketHasPerms (Some fluxSocketPath) (Z.lor R_OK W_OK))
          then throw ("The Flux API socket at " +:+ fluxSocketPath +:+ " is inaccessible, or lacks " +:+
                      "permissions for reading and writing by the current user" +:+ tried)
          else mret tt
      end
  | None =>
      status ← runExitStatus ["flux"; "jobs"];
      if status =? 0 then mret tt
      else throw ("Failed to run `flux jobs`. Ensure Flux is properly configured and accessible " +:+
                  "on your system" +:+ nl +:+ tried)
  end.

Definition verify_Flux_configured (system : System) (wlm : WLM) (launcherName : string) : M sys () :=
  if HAVE_FLUX
  then
    verify_Flux_socket system wlm;;
    libFluxPath ← findLibFluxPath (launcher_or "flux" launcherName);
    if fileHasPerms (Some libFluxPath) R_OK then mret tt
    else throw ("Could not access libflux at '" +:+ libFluxPath +:+ "'. Ensure that the path " +:+
                "is accessible, or try setting the environment variable LIBFLUX_PATH to the libflux " +:+
                "library path (tried " +:+ format_System_WLM system wlm +:+ ")")
  else mret tt.

Definition verify_System_WLM_configured (system : System) (wlm : WLM) (launcherName : string)
    : M sys () :=
  let tried := " (tried " +:+ format_System_WLM system wlm +:+ ")" in
  if bool_decide (system = Eproxy) && bool_decide (wlm ≠ Slurm)
  then throw ("System was detected as Eproxy, but WLM was not detected as Slurm." +:+
              "CTI only supports Eproxy mode on Slurm systems. Please run this tool directly on a login " +:+
              "or compute node" +:+ tried)
  else
    match wlm with
    | PALS => verify_PALS_configured system wlm launcherName
    | Slurm =>
        if decide (system = Eproxy) then verify_Eproxy_Slurm_configured
        else verify_Slurm_configured system wlm launcherName
    | ALPS =>
        if bool_decide (system = SystemUnknown) || bool_decide (system = XC)
        then verify_XC_ALPS_configured system wlm launcherName
        else throw ("WLM was set to ALPS, but system was not detected as a Cray XC system" +:+ tried)
    | SSH => verify_SSH_configured system wlm launcherName
    | Flux => verify_Flux_configured system wlm launcherName
    | Localhost => mret tt
    | WLMUnknown =>
        throw ("Could not detect either a PALS, Slurm, ALPS, Flux, or generic MPIR-compliant WLM. " +:+
               "Manually set CTI_WLM_IMPL env var" +:+ tried)
    end.

(** ** The choice of the frontend *)

Definition make_Frontend (system : System) (wlm : WLM) : res frontend_class :=
  let missing name := Throw (name +:+ " support was not configured for this build of CTI (tried " +:+
                             format_System_WLM system wlm +:+ ")") in
  match wlm with
  | Slurm =>
      Ok (if decide (system = HPCM) then HPCMSLURMFrontend
          else if decide (system = Eproxy) then EproxySLURMFrontend else SLURMFrontend)
  | ALPS => if HAVE_ALPS then Ok ALPSFrontend else missing "ALPS"
  | PALS => if HAVE_PALS then Ok PALSFrontend else missing "PALS"
  | SSH => Ok GenericSSHFrontend
  | Flux => if HAVE_FLUX then Ok FluxFrontend else missing "Flux"
  | Localhost => Ok LocalhostFrontend
  | WLMUnknown => Undef "assert(false)"
  end.

(** The setting as a pair of system and workload manager; a single name is the
    latter. *)
Definition parse_setting (setting : option string) : string * string :=
  match setting with
  | None => ("", "")
  | Some text =>
      let '(firstSetting, secondSetting) := split2 text "/" in
      if is_empty secondSetting then ("", firstSetting) else (firstSetting, secondSetting)
  end.

Definition detect : M sys (System * WLM) :=
  name ← getenv CTI_LAUNCHER_NAME;
  setting ← getenv CTI_WLM_IMPL;
  let '(systemSetting, wlmSetting) := parse_setting setting in
  system ← detect_System systemSetting;
  wlm ← detect_WLM system wlmSetting (default "" name);
  mret (system, wlm).

(** [Frontend::inst()] when there is no instance yet. *)
Definition select_frontend : M sys frontend_class :=
  '(system, wlm) ← detect;
  name ← getenv CTI_LAUNCHER_NAME;
  verify_System_WLM_configured system wlm (default "" name);;
  lift (make_Frontend system wlm).
End Verify.
