(* ===== verification/DetectProofs.v ===== *)
(** * The choice of the frontend: what is supported, what decides, what is changed

    Theorems on Detect.v.  Programs are assumed only not to have their exit status
    collected by someone else ([children_kept]). *)

From S2P Require Import Prelude Split Host System Detect.

Section Proofs.
Context `{Host} `{Commands} `{Build} `{WlmDetect}.

(** ** Nothing undefined *)

Lemma defined_getenv (name : string) : defined (getenv name).
Proof. apply defined_gets. Qed.
#[local] Hint Resolve defined_getenv : sys.

Lemma defined_sys_setenv (name value : string) (overwrite : bool) :
  defined (sys_setenv name value overwrite).
Proof. apply defined_modify. Qed.
#[local] Hint Resolve defined_sys_setenv : sys.

Section Kept.
Hypothesis kept : children_kept.

Lemma defined_runs (argv : list string) : defined (runExitStatus argv).
Proof. by apply defined_runExitStatus. Qed.
#[local] Hint Resolve defined_runs : sys.

Lemma defined_detect_System (setting : string) : defined (detect_System setting).
Proof. unfold detect_System, detect_Eproxy, detect_HPCM. step_defined. Qed.

Lemma defined_detect_WLM (system : System) (setting name : string) :
  defined (detect_WLM system setting name).
Proof.
  unfold detect_WLM, detect_Slurm, detect_XC_ALPS, detect_PALS, detect_Flux.
  cbv zeta. step_defined.
Qed.
#[local] Hint Resolve defined_detect_System defined_detect_WLM : sys.

Lemma defined_detect : defined detect.
Proof. unfold detect. step_defined. Qed.

Lemma defined_shell_test (script : string) : defined (shell_test script).
Proof. unfold shell_test. step_defined. Qed.
#[local] Hint Resolve defined_shell_test : sys.

Lemma defined_verify_MPIR_symbols (name : string) : defined (verify_MPIR_symbols name).
Proof. unfold verify_MPIR_symbols. step_defined. Qed.
#[local] Hint Resolve defined_verify_MPIR_symbols : sys.

Lemma defined_verify_launcher (system : System) (wlm : WLM) (name : string) :
  defined (verify_launcher system wlm name).
Proof. unfold verify_launcher. step_defined. Qed.
#[local] Hint Resolve defined_verify_launcher : sys.

Lemma defined_verify (system : System) (wlm : WLM) (name : string) :
  defined (verify_System_WLM_configured system wlm name).
Proof.
  unfold verify_System_WLM_configured, verify_PALS_configured, verify_Slurm_configured,
    verify_Eproxy_Slurm_configured, verify_XC_ALPS_configured, verify_SSH_configured,
    verify_Flux_configured, verify_Flux_socket, findLibFluxPath, detect_Slurm_allocation,
    detect_Slurm_shared_multicluster.
  cbv zeta. step_defined.
Qed.
End Kept.

(** ** The environment *)

Section Env.
Context (P : gmap string string → Prop).

Lemma keeps_detect : preserves (env_is P) detect.
Proof.
  unfold detect, detect_System, detect_Eproxy, detect_HPCM, detect_WLM, detect_Slurm,
    detect_XC_ALPS, detect_PALS, detect_Flux.
  keep_env.
Qed.

Lemma keeps_verify_MPIR_symbols (name : string) : preserves (env_is P) (verify_MPIR_symbols name).
Proof. unfold verify_MPIR_symbols, shell_test. keep_env. Qed.
#[local] Hint Resolve keeps_verify_MPIR_symbols : cti.

Lemma keeps_verify_launcher (system : System) (wlm : WLM) (name : string) :
  preserves (env_is P) (verify_launcher system wlm name).
Proof. unfold verify_launcher. keep_env. Qed.
#[local] Hint Resolve keeps_verify_launcher : cti.

Lemma keeps_verify_rest (system : System) (wlm : WLM) (name : string) :
  (wlm = Slurm → system = Eproxy) →
  preserves (env_is P) (verify_System_WLM_configured system wlm name).
Proof.
  intros Hsys. unfold verify_System_WLM_configured, verify_PALS_configured,
    verify_Eproxy_Slurm_configured, verify_XC_ALPS_configured, verify_SSH_configured,
    verify_Flux_configured, verify_Flux_socket, findLibFluxPath.
  destruct wlm; try rewrite (decide_True _ _ (Hsys eq_refl)); keep_env.
Qed.

Lemma keeps_multicluster : preserves (env_is P) detect_Slurm_shared_multicluster.
Proof. unfold detect_Slurm_shared_multicluster, shell_test. keep_env. Qed.
End Env.
#[local] Hint Resolve keeps_multicluster keeps_verify_MPIR_symbols : cti.

(** The environment [e] with at most the launcher script added. *)
Definition script_added (e e' : gmap string string) : Prop :=
  e' = e ∨ e !! CTI_LAUNCHER_SCRIPT = None ∧ ∃ path, e' = <[CTI_LAUNCHER_SCRIPT := path]> e.

Lemma keeps_verify_Slurm (e : gmap string string) (system : System) (wlm : WLM) (name : string) :
  preserves (env_is (script_added e)) (verify_Slurm_configured system wlm name).
Proof.
  assert (∀ path, preserves (env_is (script_added e)) (sys_setenv CTI_LAUNCHER_SCRIPT path false))
    as Hset.
  { intros path. apply preserves_modify. intros s Hs. cbn.
    destruct (bool_decide _) eqn:He; [apply bool_decide_eq_true in He|done].
    unfold env_is, script_added in *. cbn. destruct Hs as [Hs|(Hn & p & Hs)]; rewrite Hs in He |- *; [eauto|].
    by rewrite lookup_insert_eq in He. }
  unfold verify_Slurm_configured, detect_Slurm_allocation. keep_env; apply Hset.
Qed.

Lemma keeps_verify (e : gmap string string) (system : System) (wlm : WLM) (name : string) :
  preserves (env_is (script_added e)) (verify_System_WLM_configured system wlm name).
Proof.
  destruct (decide (wlm = Slurm ∧ system ≠ Eproxy)) as [[-> Hs]|Hs].
  - unfold verify_System_WLM_configured. cbv zeta. destruct (_ && _); [auto with cti|].
    rewrite decide_False by done. apply keeps_verify_Slurm.
  - apply keeps_verify_rest. intros ->. destruct (decide (system = Eproxy)); tauto.
Qed.

(** ** Detection *)

(** Code that always returns. *)
Definition returns {A : Type} (m : M sys A) : Prop := ∀ s, ∃ a s', m s = (Ok a, s').

Lemma returns_ret {A : Type} (a : A) : returns (mret a).
Proof. intros s. by exists a, s. Qed.

Lemma returns_bind {A B : Type} (m : M sys A) (k : A → M sys B) :
  returns m → (∀ a, returns (k a)) → returns (m ≫= k).
Proof.
  intros Hm Hk s. destruct (Hm s) as (a & s1 & E). destruct (Hk a s1) as (b & s2 & E').
  exists b, s2. by rewrite (bind_run_Ok _ _ _ _ _ E).
Qed.

Lemma returns_catch_all {A : Type} (m : M sys A) (a : A) : defined m → returns (catch_all m a).
Proof.
  intros Hm s. specialize (Hm s). unfold catch_all, try_catch.
  destruct (m s) as [[b|e|e] s']; [eauto..|]. by destruct (Hm e s').
Qed.

Ltac step_returns :=
  repeat match goal with
  | |- returns (_ ≫= _) => apply returns_bind; [|intros ?]
  | |- returns (catch_all _ _) => apply returns_catch_all
  | |- returns (match ?x with _ => _ end) => destruct x
  | |- returns (mret _) => apply returns_ret
  end.

Section Heuristics.
Hypothesis kept : children_kept.
#[local] Hint Resolve defined_runs : sys.

Lemma returns_detect_System : returns (detect_System "").
Proof.
  unfold detect_System, detect_Eproxy, detect_HPCM. cbn [is_empty negb].
  step_returns; step_defined.
Qed.

Lemma returns_detect_WLM (system : System) (name : string) : returns (detect_WLM system "" name).
Proof.
  unfold detect_WLM, detect_Slurm, detect_XC_ALPS, detect_PALS, detect_Flux.
  cbn [is_empty negb]. cbv zeta. step_returns; step_defined.
Qed.
End Heuristics.

(** The systems and workload managers that are found without a setting. *)
Lemma detect_System_found (s s' : sys) (system : System) :
  detect_System "" s = (Ok system, s') → system ∈ [Eproxy; HPCM; CS; SystemUnknown].
Proof.
  unfold detect_System. cbn [is_empty negb]. intros E. minv. destruct a; minv; [set_solver|].
  destruct a; minv; [set_solver|]. destruct detect_CS; minv; set_solver.
Qed.

Lemma detect_WLM_found (system : System) (name : string) (s s' : sys) (wlm : WLM) :
  system ≠ XC → detect_WLM system "" name s = (Ok wlm, s') →
  wlm ∈ [Slurm; PALS; Flux; SSH] ∨ wlm_detect = Some wlm.
Proof.
  intros Hx. unfold detect_WLM. cbn [is_empty negb].
  destruct wlm_detect as [w|]; [intros [= <- <-]; by right|]. intros E. left.
  minv. destruct a; minv; [set_solver|]. rewrite decide_False in * by done.
  minv. destruct a; minv; [set_solver|]. destruct a; minv; set_solver.
Qed.

Lemma detect_run (s : sys) :
  detect s =
  (let '(systemSetting, wlmSetting) := parse_setting (sys_env s !! CTI_WLM_IMPL) in
   system ← detect_System systemSetting;
   wlm ← detect_WLM system wlmSetting (default "" (sys_env s !! CTI_LAUNCHER_NAME));
   mret (system, wlm)) s.
Proof. unfold detect, getenv, gets, mbind, M_bind. by destruct (parse_setting _). Qed.

(** Without a setting, detection always comes to a result and changes nothing in the
    environment.  The system found is never XC, so the test for ALPS is never run: ALPS
    is found by libwlm_detect or not at all, and some workload manager is always
    found. *)
Theorem detect_without_setting (s : sys) :
  children_kept → sys_env s !! CTI_WLM_IMPL = None →
  ∃ system wlm s', detect s = (Ok (system, wlm), s') ∧ sys_env s' = sys_env s ∧
    system ∈ [Eproxy; HPCM; CS; SystemUnknown] ∧
    (wlm ∈ [Slurm; PALS; Flux; SSH] ∨ wlm_detect = Some wlm).
Proof.
  intros kept Hs. set (name := default "" (sys_env s !! CTI_LAUNCHER_NAME)).
  destruct (returns_detect_System kept s) as (system & s1 & E1).
  destruct (returns_detect_WLM kept system name s1) as (wlm & s2 & E2).
  assert (detect s = (Ok (system, wlm), s2)) as E.
  { rewrite detect_run, Hs. cbn [parse_setting]. rewrite (bind_run_Ok _ _ _ _ _ E1).
    by rewrite (bind_run_Ok _ _ _ _ _ E2). }
  apply detect_System_found in E1 as Hsys.
  exists system, wlm, s2. split_and!; [done| |done|].
  - by apply (preserves_Ok _ _ _ _ _ (keeps_detect (λ e, e = sys_env s)) E).
  - eapply detect_WLM_found; [|done]. intros ->. set_solver.
Qed.

(** What [detect] makes of a setting, once it is split. *)
Definition setting_result (systemSetting wlmSetting : string) : res (System * WLM) :=
  match lookup_setting system_settings systemSetting with
  | None => Throw ("invalid system setting for CTI_WLM_IMPL: '" +:+ systemSetting +:+ "'")
  | Some system =>
      match lookup_setting wlm_settings wlmSetting with
      | None => Throw ("invalid WLM setting for CTI_WLM_IMPL: '" +:+ wlmSetting +:+ "'")
      | Some wlm => Ok (system, wlm)
      end
  end.

(** A setting "system/wlm" decides both without running a program or asking
    libwlm_detect; names that are not in the tables are refused. *)
Theorem setting_decides (s : sys) (system wlm : string) :
  sys_env s !! CTI_WLM_IMPL = Some (system +:+ String "/" wlm) →
  system ≠ "" → wlm ≠ "" → no_char "/" system = true → no_char "/" wlm = true →
  detect s = (setting_result system wlm, s).
Proof.
  intros Hs Hsys Hwlm Hd Hk. rewrite detect_run, Hs.
  unfold parse_setting. rewrite split2_kept.
  2: done.
  2: { unfold second_field_kept. by rewrite (proj2 (split_at_None _ _) Hk). }
  destruct wlm as [|c wlm]; [done|]. cbn [is_empty].
  unfold detect_System, detect_WLM, setting_result. destruct system as [|d system]; [done|].
  cbn [is_empty negb]. destruct (lookup_setting system_settings _) as [sys'|]; [|done].
  unfold mbind, M_bind, mret, M_ret. cbn beta iota.
  by destruct (lookup_setting wlm_settings (String c wlm)).
Qed.

(** ** What is supported *)

(** The systems, workload managers and classes that go together in a build. *)
Inductive supported : System → WLM → frontend_class → Prop :=
| supported_Slurm system : system ≠ HPCM → system ≠ Eproxy → supported system Slurm SLURMFrontend
| supported_HPCM : supported HPCM Slurm HPCMSLURMFrontend
| supported_Eproxy : supported Eproxy Slurm EproxySLURMFrontend
| supported_ALPS system :
    HAVE_ALPS = true → system ∈ [SystemUnknown; XC] → supported system ALPS ALPSFrontend
| supported_PALS system : HAVE_PALS = true → system ≠ Eproxy → supported system PALS PALSFrontend
| supported_SSH system : system ≠ Eproxy → supported system SSH GenericSSHFrontend
| supported_Flux system : HAVE_FLUX = true → system ≠ Eproxy → supported system Flux FluxFrontend
| supported_Localhost system : system ≠ Eproxy → supported system Localhost LocalhostFrontend.

Lemma verified_supported (system : System) (wlm : WLM) (name : string) (s s' : sys) :
  verify_System_WLM_configured system wlm name s = (Ok tt, s') →
  match make_Frontend system wlm with
  | Ok c => supported system wlm c
  | Throw _ => True
  | Undef _ => False
  end.
Proof.
  unfold verify_System_WLM_configured, make_Frontend. cbv zeta.
  destruct (bool_decide (system = Eproxy) && bool_decide (wlm ≠ Slurm)) eqn:He; [done|].
  assert (wlm ≠ Slurm → system ≠ Eproxy) as Hne.
  { intros Hw ->. rewrite !bool_decide_true in He by done. done. }
  destruct wlm; intros Hv; [done|..].
  - destruct HAVE_PALS eqn:?; [|done]. constructor; auto.
  - repeat case_decide; subst; (discriminate || by constructor).
  - destruct (bool_decide (system = SystemUnknown) || bool_decide (system = XC)) eqn:Hx; [|done].
    destruct HAVE_ALPS eqn:?; [|done]. constructor; [done|]. apply orb_true_iff in Hx.
    rewrite !bool_decide_eq_true in Hx. set_solver.
  - constructor; auto.
  - destruct HAVE_FLUX eqn:?; [|done]. constructor; auto.
  - constructor; auto.
Qed.

(** C39 The choice of a frontend never meets the combination of system and workload
    manager that is asserted not to occur: it throws, or the class made is one that is
    supported for what was detected. *)
Theorem select_frontend_supported (s : sys) :
  children_kept →
  match (select_frontend s).1 with
  | Ok c => ∃ system wlm s1, detect s = (Ok (system, wlm), s1) ∧ supported system wlm c
  | Throw _ => True
  | Undef _ => False
  end.
Proof.
  intros kept. unfold select_frontend. unfold mbind at 1, M_bind.
  pose proof (defined_detect kept s) as Hd.
  destruct (detect s) as [[[system wlm]|e|e] s1]; [|done|by destruct (Hd e s1)].
  cbn [getenv gets]. unfold mbind, M_bind, getenv, gets, lift.
  set (name := default "" _).
  pose proof (defined_verify kept system wlm name s1) as Hv.
  destruct (verify_System_WLM_configured system wlm name s1) as [[[]|e|e] s2] eqn:E;
    [|done|by destruct (Hv e s2)].
  apply verified_supported in E. cbn. destruct (make_Frontend system wlm); [|done..].
  by exists system, wlm, s1.
Qed.

(** Choosing a frontend, whether it succeeds or not, leaves the environment as it
    was, except that it may name a launcher script where the user has named none. *)
Theorem select_frontend_environment (s : sys) :
  script_added (sys_env s) (sys_env (select_frontend s).2).
Proof.
  assert (preserves (env_is (script_added (sys_env s))) select_frontend) as K.
  { unfold select_frontend. apply preserves_bind; [apply keeps_detect|intros [system wlm]].
    apply preserves_bind; [auto with cti|intros name].
    apply preserves_bind; [apply keeps_verify|auto with cti]. }
  apply K. by left.
Qed.

(** ** The check of the Slurm utilities on eproxy systems *)

(** A line "<text> <utility> is correct." *)
Lemma eproxy_utility_line (pre u : string) :
  u ≠ "" → no_char " " u = true →
  eproxy_utility (pre +:+ String " " (u +:+ " is correct.")) = Some u.
Proof.
  intros Hu Hs. unfold eproxy_utility. set (line := pre +:+ _).
  assert (String.length line = String.length pre + String.length u + 13)%nat as Hlen.
  { unfold line. rewrite string_length_app. cbn. rewrite string_length_app. cbn. lia. }
  assert (1 ≤ String.length u)%nat as Hu1 by (destruct u; [done|cbn; lia]).
  rewrite (proj2 (Nat.ltb_lt _ _)) by lia.
  replace (drop_str (String.length line - 11) line) with "is correct.".
  2: { replace line with ((pre +:+ String " " (u +:+ " ")) +:+ "is correct.").
       2: { unfold line. rewrite string_app_assoc. cbn. by rewrite string_app_assoc. }
       rewrite string_length_app. cbn [String.length]. rewrite Nat.add_sub. by rewrite drop_str_app. }
  rewrite bool_decide_true by done. cbn [andb].
  rewrite (proj2 (Nat.eqb_neq _ _)) by lia.
  assert (rfind " " line (String.length line - 13) = Some (String.length pre)) as ->.
  { unfold rfind. replace (S (String.length line - 13))%nat
      with (String.length (pre +:+ String " " u)) by (rewrite string_length_app; cbn; lia).
    replace line with ((pre +:+ String " " u) +:+ " is correct.").
    2: { unfold line. by rewrite string_app_assoc. }
    rewrite substr_full. apply find_last_not_of_app; [by apply bool_decide_false; intros []|done]. }
  replace (drop_str (S (String.length pre)) line) with (u +:+ String " " "is correct.").
  2: { replace line with ((pre +:+ " ") +:+ (u +:+ " is correct.")).
       2: { unfold line. by rewrite string_app_assoc. }
       replace (S (String.length pre)) with (String.length (pre +:+ " "))
         by (rewrite string_length_app; cbn; lia).
       by rewrite drop_str_app. }
  by rewrite split_at_app.
Qed.

Lemma eproxy_missing_difference (lines : list string) (utilities : gset string) :
  eproxy_missing lines utilities = utilities ∖ list_to_set (omap eproxy_utility lines).
Proof.
  revert utilities. induction lines as [|line lines IH]; intros utilities; [cbn; set_solver|].
  cbn. rewrite IH. destruct (eproxy_utility line); cbn; set_solver.
Qed.

(** The Slurm check of an eproxy system, unless it is switched off, passes exactly
    when the output of `eproxy --check` reports each of srun, squeue, scancel and sbcast
    as correct, however that program ends; otherwise it names the others in order. *)
Theorem verify_Eproxy_decides (s : sys) (out : string) (code : Z) :
  let argv := ["eproxy"; "--check"] in
  let reported : gset string := list_to_set (omap eproxy_utility (text_lines (fd_text out))) in
  sys_env s !! SLURM_OVERRIDE_EPROXY = None →
  c_output (sys_trace s) argv = Some out →
  c_wait (sys_trace s ++ [SRun argv]) argv = WExited code →
  (verify_Eproxy_Slurm_configured s).1 =
    if decide (slurm_utilities ⊆ reported) then Ok tt
    else Throw ("Eproxy detected as not configured: " +:+
                c_str ("Eproxy reported Slurm utilities not configured (" +:+
                       joinStr (sorted_elements (slurm_utilities ∖ reported)) ", " +:+ ")") +:+
                ". To disable this check, set " +:+ SLURM_OVERRIDE_EPROXY).
Proof.
  intros argv reported Hs Ho Hw. unfold verify_Eproxy_Slurm_configured. fold argv.
  rewrite (bind_run_Ok _ _ _ None s) by (unfold getenv, gets; by rewrite Hs). cbv zeta.
  set (s1 := MkSys (sys_env s) (sys_trace s ++ [SRun argv])).
  set (ls := text_lines (fd_text out)) in *.
  assert (run_lines argv s = (Ok (ls, code), s1)) as Hr.
  { unfold run_lines, Execvp. unfold mbind, M_bind, get. rewrite Ho. cbn.
    unfold getExitStatus, mbind, M_bind, get. cbn. by rewrite Hw. }
  unfold try_catch. rewrite (bind_run_Ok _ _ _ _ _ Hr). cbn beta iota.
  rewrite eproxy_missing_difference. fold reported.
  destruct (decide (slurm_utilities ⊆ reported)) as [Hsub|Hsub].
  - rewrite decide_True; [done|]. set_solver.
  - rewrite decide_False; [done|]. intros He. apply Hsub. intros x Hx.
    destruct (decide (x ∈ reported)) as [|Hn]; [done|].
    assert (x ∈ slurm_utilities ∖ reported) as Hd by by apply elem_of_difference.
    rewrite He in Hd. by apply not_elem_of_empty in Hd.
Qed.
End Proofs.

(** ** Examples *)

(** A node with Slurm on a system of an unknown kind, and an eproxy node. *)
Definition demo_build : Build := {| HAVE_ALPS := false; HAVE_PALS := true; HAVE_FLUX := true |}.

Definition no_wlm_detect : WlmDetect := {|
  wlm_detect_lib := false; wlm_detect_get_active := None; wlm_detect_get_default := None
|}.

Definition slurm_node : Commands := scripted [(["srun"; "--version"], ("slurm 23.02" +:+ nl, 0))].

Definition eproxy_text : string :=
  unlines ["Checking links"; "Link for srun is correct."; "Link for squeue is correct.";
           "Link for scancel is correct."; "Link for sbcast is missing."].

Definition eproxy_node : Commands := scripted [(["eproxy"; "--check"], (eproxy_text, 0))].

Definition empty_sys : sys := MkSys ∅ [].

Definition with_setting (setting : string) : sys := MkSys {[CTI_WLM_IMPL := setting]} [].

Lemma detect_without_setting_witness :
  let C := slurm_node in let B := demo_build in let W := no_wlm_detect in
  ∃ system wlm s', detect empty_sys = (Ok (system, wlm), s') ∧ sys_env s' = ∅ ∧
    system ∈ [Eproxy; HPCM; CS; SystemUnknown] ∧
    (wlm ∈ [Slurm; PALS; Flux; SSH] ∨ wlm_detect = Some wlm).
Proof.
  intros C B W. apply (detect_without_setting empty_sys); [apply scripted_kept|reflexivity].
Defined.

Lemma setting_decides_witness :
  let C := slurm_node in let B := demo_build in let W := no_wlm_detect in
  detect (with_setting "cs/ssh") = (Ok (CS, SSH), with_setting "cs/ssh") ∧
  detect (with_setting "cs/mpiexec") =
    (Throw "invalid WLM setting for CTI_WLM_IMPL: 'mpiexec'", with_setting "cs/mpiexec").
Proof.
  intros C B W. split.
  - apply (setting_decides (with_setting "cs/ssh") "cs" "ssh"); done.
  - apply (setting_decides (with_setting "cs/mpiexec") "cs" "mpiexec"); done.
Defined.

Lemma select_frontend_supported_witness :
  let C := slurm_node in let B := demo_build in let W := no_wlm_detect in
  (select_frontend (with_setting "localhost")).1 = Ok LocalhostFrontend ∧
  match (select_frontend (with_setting "localhost")).1 with
  | Ok c => ∃ system wlm s1,
      detect (with_setting "localhost") = (Ok (system, wlm), s1) ∧ supported system wlm c
  | Throw _ => True
  | Undef _ => False
  end.
Proof.
  intros C B W. split; [by vm_compute|].
  apply (select_frontend_supported (with_setting "localhost")). apply scripted_kept.
Defined.

Lemma verify_Eproxy_decides_witness :
  let C := eproxy_node in
  (verify_Eproxy_Slurm_configured empty_sys).1 =
  Throw ("Eproxy detected as not configured: Eproxy reported Slurm utilities not configured " +:+
         "(sbcast). To disable this check, set CTI_SLURM_OVERRIDE_EPROXY").
Proof.
  intros C. rewrite (verify_Eproxy_decides empty_sys eproxy_text 0); [|reflexivity..].
  by vm_compute.
Defined.
