(* ===== verification/ConfigDir.v ===== *)
(** * Directories of the frontend (src/src/frontend/Frontend.cpp)

    The directory for temporary files and the checks on it, the installation, the
    directory on the compute nodes, what the constructor reads from the environment
    and what the destructor removes. *)

From S2P Require Import Prelude Host System.

(** What [stat] gives: the type, the permission bits and the owner. *)
Record file_status : Type := MkStatus { st_type : file_type; st_perms : Z; st_uid : Z }.

#[export] Instance file_status_eq_dec : EqDecision file_status.
Proof. solve_decision. Defined.

Inductive mkdir_result : Type := MkdirOk | MkdirExists | MkdirFailed (what : string).

(** An entry of a directory: its path and name, whether it is a directory, the seconds
    since it was last written. *)
Record dir_entry : Type := MkEntry {
  de_path : string; de_filename : string; de_is_directory : bool; de_age : Z
}.

(** The file system and the process, after what was done before. *)
Class FileSys : Type := {
  fs_stat : list sys_event → string → option file_status;
  fs_access : list sys_event → string → Z → bool;
  fs_mkdir : list sys_event → string → mkdir_result;
  fs_canonical : list sys_event → string → res string;
  fs_strerror : string;
  (** the entries of a directory, or the exception of the iteration *)
  fs_entries : list sys_event → string → res (list dir_entry);
  (** [kill(pid, 0) == 0] *)
  fs_alive : Z → bool;
  ps_pid : Z;
  ps_original_pid : Z;
  pw_name : option string;
  pw_uid : Z
}.

(** What is configured when the library is built, and its checksum. *)
Class Install : Type := {
  default_dir_locs : list string;
  CTI_BE_DAEMON_BINARY : string;
  CTI_FE_DAEMON_BINARY : string;
  has_same_hash : string → bool
}.

Definition CTI_CFG_DIR : string := "CTI_CFG_DIR".
Definition CTI_INSTALL_DIR : string := "CTI_INSTALL_DIR".
Definition CTI_LOG_DIR : string := "CTI_LOG_DIR".
Definition CTI_BACKEND_TMPDIR : string := "CTI_BACKEND_TMPDIR".

Definition S_IRWXU : Z := 448.

(** [S_ISUID | S_ISGID | S_IRWXU | S_IRWXG | S_IRWXO] *)
Definition checked_bits : Z := 3583.

Definition RWX : Z := Z.lor R_OK (Z.lor W_OK X_OK).

Section Dirs.
Context `{FileSys}.

Definition fs_dirHasPerms (trace : list sys_event) (path : string) (perms : Z) : bool :=
  match fs_stat trace path with
  | Some st => bool_decide (st_type st = TDir) && fs_access trace path perms
  | None => false
  end.

Definition createCfgDir (path : string) : M sys () :=
  s ← get;
  match fs_mkdir (sys_trace s) path with
  | MkdirOk => sys_emit (SMkdir path)
  | MkdirExists => mret tt
  | MkdirFailed what => throw ("mkdir(" +:+ path +:+ ") " +:+ what)
  end.

Definition verifyAndExpandCfgDir (path : string) (uid : Z) : M sys string :=
  s ← get;
  if negb (fs_dirHasPerms (sys_trace s) path RWX)
  then throw ("Bad directory: " +:+ path +:+ ": bad permissions (needs rwx)")
  else
    match fs_stat (sys_trace s) path with
    | None => throw ("stat(" +:+ path +:+ ") " +:+ fs_strerror)
    | Some st =>
        if negb (Z.ldiff (Z.land (st_perms st) checked_bits) S_IRWXU =? 0)
        then throw ("Bad permissions (Only 0700 allowed) for " +:+ path)
        else
          real_path ← lift (fs_canonical (sys_trace s) path);
          if negb (st_uid st =? uid)
          then throw ("Directory already exists: " +:+ path)
          else mret real_path
    end.

(** The first suitable directory of $TMPDIR, /tmp and $HOME. *)
Definition find_top_path (env : gmap string string) (trace : list sys_event) : string :=
  match env !! CTI_CFG_DIR with
  | Some cfg_dir_env => cfg_dir_env
  | None =>
      default "" (List.find (λ dir, negb (is_empty dir) && fs_dirHasPerms trace dir RWX)
        [default "" (env !! "TMPDIR"); "/tmp"; default "" (env !! "HOME")])
  end.

Definition setupCfgDir : M sys string :=
  s ← get;
  let top_path := find_top_path (sys_env s) (sys_trace s) in
  if is_empty top_path
  then throw ("Cannot find suitable config directory. Try setting the env variable " +:+ CTI_CFG_DIR)
  else
    match pw_name with
    | None => throw "Unable to determine username"
    | Some name =>
        let base_path := top_path +:+ "/cti-" +:+ name in
        createCfgDir base_path;;
        base_path ← verifyAndExpandCfgDir base_path pw_uid;
        let cfg_dir := base_path +:+ "/" +:+ to_string ps_pid in
        createCfgDir cfg_dir;;
        verifyAndExpandCfgDir cfg_dir pw_uid
    end.

(** ** The installation *)

Context `{Install} `{Host}.

Definition findBaseDir : M sys string :=
  base_dir_env ← getenv CTI_INSTALL_DIR;
  match (if dirHasPerms base_dir_env (Z.lor R_OK X_OK) then base_dir_env
         else List.find (λ path, dirHasPerms (Some path) (Z.lor R_OK X_OK)) default_dir_locs) with
  | None => throw ("failed to find a CTI installation. Ensure " +:+ CTI_INSTALL_DIR +:+ " is set properly.")
  | Some baseDir =>
      let path := baseDir +:+ "/libexec/" +:+ CTI_BE_DAEMON_BINARY in
      if has_same_hash path then mret baseDir else throw ("hash mismatch: " +:+ path)
  end.

(** The directory on the compute nodes; a file system without execution is only warned of. *)
Definition findToolPath (apId : string) : M sys string :=
  backend_tmpdir ← getenv CTI_BACKEND_TMPDIR;
  tmpdir ← getenv "TMPDIR";
  mret (match backend_tmpdir with
        | Some dir => dir
        | None => default "/tmp" tmpdir
        end).

(** ** Construction *)

(** What the constructor sets. *)
Record frontend_data : Type := MkFrontend {
  m_ld_preload : string; m_log_dir : string; m_debug : bool;
  m_cfg_dir : string; m_base_dir : string;
  m_ld_audit_path : string; m_fe_daemon_path : string; m_be_daemon_path : string
}.

Definition Frontend_new : M sys frontend_data :=
  log_dir ← getenv CTI_LOG_DIR;
  (if match log_dir with Some dir => negb (dirHasPerms (Some dir) RWX) | None => false end
   then throw ("Bad directory specified by environment variable " +:+ CTI_LOG_DIR) else mret tt);;
  debug ← getenv "CTI_DEBUG";
  preload ← getenv "LD_PRELOAD";
  (if bool_decide (is_Some preload) then sys_unsetenv "LD_PRELOAD" else mret tt);;
  cfg_dir ← setupCfgDir;
  base_dir ← findBaseDir;
  ld_audit ← lift (accessiblePath (base_dir +:+ "/lib/" +:+ "libctiaudit.so"));
  fe_daemon ← lift (accessiblePath (base_dir +:+ "/libexec/" +:+ CTI_FE_DAEMON_BINARY));
  be_daemon ← lift (accessiblePath (base_dir +:+ "/libexec/" +:+ CTI_BE_DAEMON_BINARY));
  mret (MkFrontend (default "" preload) (default "" log_dir) (bool_decide (is_Some debug))
          cfg_dir base_dir ld_audit fe_daemon be_daemon).

(** ** Cleaning up *)

(** The number [strtol] reads when the whole name is one that [pid_t] can hold; numbers
    that do not fit a [long] are limited, and too large as well. *)
Definition pid_name (filename : string) : option Z :=
  match read_int filename with
  | Some (pid, "") => if (0 <? pid) && (pid <=? int_max) then Some pid else None
  | _ => None
  end.

(** A failing [kill] returns -1, which is not EPERM: only a process that answers keeps
    its directory. *)
Definition stale (entry : dir_entry) : bool :=
  de_is_directory entry && (300 <=? de_age entry) &&
  match pid_name (de_filename entry) with Some pid => negb (fs_alive pid) | None => false end.

Definition remove_all (path : string) : M sys () := sys_emit (SRemove path).

(** The destructor, in the process that made the frontend. *)
Definition Frontend_delete (cfg_dir : string) : M sys () :=
  if negb (ps_pid =? ps_original_pid) then mret tt
  else
    remove_all cfg_dir;;
    s ← get;
    catch_all
      (entries ← lift (fs_entries (sys_trace s) (parent_path cfg_dir));
       for_each (filter (λ entry, stale entry = true) entries) (λ entry, remove_all (de_path entry))) tt.

(** ** Theorems *)

(** A directory of the user that nobody else can enter. *)
Definition private (trace : list sys_event) (path : string) : Prop :=
  fs_access trace path RWX = true ∧
  ∃ st, fs_stat trace path = Some st ∧ st_type st = TDir ∧ st_uid st = pw_uid ∧
    ∀ i, 0 ≤ i < 12 → i ≠ 9 → Z.testbit (st_perms st) i = true → 6 ≤ i ≤ 8.

Lemma owner_bits (perms : Z) :
  Z.ldiff (Z.land perms checked_bits) S_IRWXU = 0 →
  ∀ i, 0 ≤ i < 12 → i ≠ 9 → Z.testbit perms i = true → 6 ≤ i ≤ 8.
Proof.
  intros E i Hi H9 Hb. apply (f_equal (λ z, Z.testbit z i)) in E.
  rewrite Z.ldiff_spec, Z.land_spec, Hb, Z.bits_0 in E.
  assert (i = 0 ∨ i = 1 ∨ i = 2 ∨ i = 3 ∨ i = 4 ∨ i = 5 ∨ 6 ≤ i ≤ 8 ∨ i = 10 ∨ i = 11) as Hc by lia.
  by destruct Hc as [->|[->|[->|[->|[->|[->|[?|[->| ->]]]]]]]].
Qed.

Lemma verify_private (path dir : string) (s s' : sys) :
  verifyAndExpandCfgDir path pw_uid s = (Ok dir, s') →
  s' = s ∧ private (sys_trace s) path ∧ fs_canonical (sys_trace s) path = Ok dir.
Proof.
  unfold verifyAndExpandCfgDir. unfold mbind at 1, M_bind at 1, get. cbn beta iota.
  destruct (fs_dirHasPerms (sys_trace s) path RWX) eqn:Hp; cbn [negb]; [|done].
  unfold fs_dirHasPerms in Hp. destruct (fs_stat (sys_trace s) path) as [st|] eqn:Hst; [|done].
  apply andb_true_iff in Hp as [Ht%bool_decide_eq_true Ha].
  destruct (Z.eqb_spec (Z.ldiff (Z.land (st_perms st) checked_bits) S_IRWXU) 0) as [Hb|];
    cbn [negb]; [|done].
  unfold mbind, M_bind, lift. destruct (fs_canonical (sys_trace s) path) as [real|e|e] eqn:Hc; [|done..].
  destruct (Z.eqb_spec (st_uid st) pw_uid) as [Hu|]; cbn [negb]; [|done]. intros [= -> <-].
  split; [done|]. split; [|done]. split; [done|]. exists st. split_and!; [done..|].
  by apply owner_bits.
Qed.

Lemma create_keeps (path : string) (s s' : sys) :
  createCfgDir path s = (Ok tt, s') → sys_env s' = sys_env s.
Proof.
  unfold createCfgDir. intros E. minv. destruct (fs_mkdir _ _); minv; [|done..].
  unfold sys_emit in *. by minv.
Qed.

(** A configuration directory that is set up belongs to the user, can be used by the user
    and gives no permission to anybody else, and so does the directory it is in: whatever
    was at these paths before, or was made there, is refused otherwise. *)
Theorem cfg_dir_private (s s' : sys) (dir : string) :
  setupCfgDir s = (Ok dir, s') →
  ∃ top name base s1, pw_name = Some name ∧
    private (sys_trace s1) (top +:+ "/cti-" +:+ name) ∧
    fs_canonical (sys_trace s1) (top +:+ "/cti-" +:+ name) = Ok base ∧
    private (sys_trace s') (base +:+ "/" +:+ to_string ps_pid) ∧
    fs_canonical (sys_trace s') (base +:+ "/" +:+ to_string ps_pid) = Ok dir.
Proof.
  unfold setupCfgDir. intros E. minv. set (top := find_top_path _ _) in *.
  destruct (is_empty top); [done|]. destruct pw_name as [name|]; [|done]. minv.
  repeat match goal with
  | H : verifyAndExpandCfgDir _ _ _ = (Ok _, _) |- _ => apply verify_private in H as (? & ? & ?); subst
  end.
  eexists top, name, _, _. by split_and!.
Qed.

(** When the frontend goes, its directory is removed and beside it exactly the directories
    at least five minutes old whose whole name is a positive number of a process that does
    not answer; a process forked from it removes nothing. *)
Theorem cleanup_removes (cfg_dir : string) (entries : list dir_entry) (s : sys) :
  fs_entries (sys_trace s ++ [SRemove cfg_dir]) (parent_path cfg_dir) = Ok entries →
  Frontend_delete cfg_dir s =
  (Ok tt, if ps_pid =? ps_original_pid
          then MkSys (sys_env s)
                 (sys_trace s ++ SRemove cfg_dir ::
                  map (λ entry, SRemove (de_path entry)) (filter (λ entry, stale entry = true) entries))
          else s) ∧
  ∀ entry, stale entry = true ↔
    de_is_directory entry = true ∧ 300 ≤ de_age entry ∧
    ∃ pid, read_int (de_filename entry) = Some (pid, "") ∧ 0 < pid ≤ int_max ∧ fs_alive pid = false.
Proof.
  intros He. split.
  - unfold Frontend_delete. destruct (ps_pid =? ps_original_pid); [|done]. cbn [negb].
    set (s1 := MkSys (sys_env s) (sys_trace s ++ [SRemove cfg_dir])).
    rewrite (bind_run_Ok (remove_all cfg_dir) _ s tt s1 eq_refl).
    rewrite (bind_run_Ok get _ s1 s1 s1 eq_refl). unfold catch_all. apply try_catch_run_Ok.
    unfold lift. rewrite (bind_run_Ok _ _ s1 entries s1) by by rewrite <-He.
    assert (∀ l t, for_each l (λ entry, remove_all (de_path entry)) (MkSys (sys_env s) t) =
      (Ok tt, MkSys (sys_env s) (t ++ map (λ entry, SRemove (de_path entry)) l))) as Hl.
    { induction l as [|e l IH]; intros t; [by rewrite app_nil_r|].
      cbn [for_each map]. unfold mbind, M_bind at 1, remove_all, sys_emit, modify.
      cbn [sys_env sys_trace]. rewrite IH. by rewrite <-app_assoc. }
    unfold s1. rewrite Hl. by rewrite <-app_assoc.
  - intros entry. unfold stale, pid_name. rewrite !andb_true_iff, Z.leb_le.
    destruct (read_int (de_filename entry)) as [[pid rest]|]; [|naive_solver].
    destruct rest; [|naive_solver].
    destruct (Z.ltb_spec 0 pid), (Z.leb_spec pid int_max); cbn [andb];
      [rewrite negb_true_iff; naive_solver|naive_solver lia..].
Qed.

Lemma keeps_createCfgDir (P : gmap string string → Prop) (path : string) :
  preserves (env_is P) (createCfgDir path).
Proof. unfold createCfgDir. preserve. Qed.

Lemma keeps_verifyAndExpandCfgDir (P : gmap string string → Prop) (path : string) (uid : Z) :
  preserves (env_is P) (verifyAndExpandCfgDir path uid).
Proof. unfold verifyAndExpandCfgDir. preserve. Qed.
#[local] Hint Resolve keeps_createCfgDir keeps_verifyAndExpandCfgDir : cti.

Lemma keeps_setupCfgDir (P : gmap string string → Prop) : preserves (env_is P) setupCfgDir.
Proof. unfold setupCfgDir. preserve. Qed.

Lemma keeps_findBaseDir (P : gmap string string → Prop) : preserves (env_is P) findBaseDir.
Proof. unfold findBaseDir. preserve. Qed.

(** A frontend that is constructed has taken the libraries to preload out of the
    environment of the process and kept them for the applications, and changed nothing
    else in the environment. *)
Theorem new_unloads_preload (s s' : sys) (d : frontend_data) :
  Frontend_new s = (Ok d, s') →
  m_ld_preload d = default "" (sys_env s !! "LD_PRELOAD") ∧
  sys_env s' = delete "LD_PRELOAD" (sys_env s).
Proof.
  unfold Frontend_new. intros E.
  apply bind_Ok in E as (log_dir & s1 & E1 & E). injection E1 as _ <-.
  apply bind_Ok in E as (u1 & s2 & E2 & E).
  assert (s2 = s) as -> by by destruct (match log_dir with Some _ => _ | None => false end); injection E2.
  apply bind_Ok in E as (debug & s3 & E3 & E). injection E3 as _ <-.
  apply bind_Ok in E as (preload & s4 & E4 & E). injection E4 as <- <-.
  apply bind_Ok in E as (u5 & s5 & E5 & E).
  assert (sys_env s5 = delete "LD_PRELOAD" (sys_env s)) as H5.
  { destruct (sys_env s !! "LD_PRELOAD") eqn:Hl; injection E5 as _ <-; [done|].
    by rewrite delete_id. }
  set (P := λ e : gmap string string, e = delete "LD_PRELOAD" (sys_env s)).
  apply bind_Ok in E as (cfg & s6 & E6 & E).
  apply (preserves_Ok _ _ _ _ _ (keeps_setupCfgDir P)) in E6; [|done].
  apply bind_Ok in E as (base & s7 & E7 & E).
  apply (preserves_Ok _ _ _ _ _ (keeps_findBaseDir P)) in E7; [|done].
  minv. simplify_eq. split; [done|exact E7].
Qed.
End Dirs.

(** ** Examples *)

(** A process 42 of a user with /tmp, and 7 that left its directory there. *)
Definition demo_fs : FileSys := {|
  fs_stat _ path :=
    if bool_decide (path = "/tmp") then Some (MkStatus TDir 1023 0) else Some (MkStatus TDir 448 1000);
  fs_access _ _ _ := true;
  fs_mkdir _ path := if bool_decide (path = "/tmp/cti-user") then MkdirExists else MkdirOk;
  fs_canonical _ path := Ok path;
  fs_strerror := "error";
  fs_entries _ _ := Ok [MkEntry "/tmp/cti-user/7" "7" true 4000; MkEntry "/tmp/cti-user/8" "8" true 20;
                        MkEntry "/tmp/cti-user/x" "x" true 4000];
  fs_alive pid := bool_decide (pid = 42);
  ps_pid := 42; ps_original_pid := 42; pw_name := Some "user"; pw_uid := 1000
|}.

Definition demo_install : Install := {|
  default_dir_locs := ["/d"]; CTI_BE_DAEMON_BINARY := "cti_be_daemon";
  CTI_FE_DAEMON_BINARY := "cti_fe_daemon"; has_same_hash _ := true
|}.

Lemma cfg_dir_private_witness :
  let F := demo_fs in
  setupCfgDir (MkSys ∅ []) = (Ok "/tmp/cti-user/42", MkSys ∅ [SMkdir "/tmp/cti-user/42"]) ∧
  ∃ top name base s1, pw_name = Some name ∧
    private (sys_trace s1) (top +:+ "/cti-" +:+ name) ∧
    fs_canonical (sys_trace s1) (top +:+ "/cti-" +:+ name) = Ok base ∧
    private [SMkdir "/tmp/cti-user/42"] (base +:+ "/" +:+ to_string ps_pid) ∧
    fs_canonical [SMkdir "/tmp/cti-user/42"] (base +:+ "/" +:+ to_string ps_pid) = Ok "/tmp/cti-user/42".
Proof.
  intros F.
  assert (setupCfgDir (MkSys ∅ []) = (Ok "/tmp/cti-user/42", MkSys ∅ [SMkdir "/tmp/cti-user/42"])) as E
    by by vm_compute.
  split; [exact E|]. apply (cfg_dir_private _ _ _ E).
Defined.

Lemma cleanup_removes_witness :
  let F := demo_fs in
  Frontend_delete "/tmp/cti-user/42" (MkSys ∅ []) =
  (Ok tt, MkSys ∅ [SRemove "/tmp/cti-user/42"; SRemove "/tmp/cti-user/7"]).
Proof.
  intros F.
  destruct (cleanup_removes "/tmp/cti-user/42" [MkEntry "/tmp/cti-user/7" "7" true 4000;
    MkEntry "/tmp/cti-user/8" "8" true 20; MkEntry "/tmp/cti-user/x" "x" true 4000] (MkSys ∅ []))
    as [-> _]; [reflexivity|].
  by vm_compute.
Defined.

Lemma new_unloads_preload_witness :
  let F := demo_fs in let I := demo_install in
  let s := MkSys {["LD_PRELOAD" := "libx.so"]} [] in
  let s' := MkSys ∅ [SMkdir "/tmp/cti-user/42"] in
  let d := MkFrontend "libx.so" "" false "/tmp/cti-user/42" "/d" "/d/lib/libctiaudit.so"
             "/d/libexec/cti_fe_daemon" "/d/libexec/cti_be_daemon" in
  Frontend_new s = (Ok d, s') ∧
  m_ld_preload d = default "" (sys_env s !! "LD_PRELOAD") ∧ sys_env s' = delete "LD_PRELOAD" (sys_env s).
Proof.
  intros F I s s' d. assert (Frontend_new s = (Ok d, s')) as E by by vm_compute.
  split; [exact E|]. apply (new_unloads_preload s s' d E).
Defined.
