(* ===== verification/SlurmJobs.v ===== *)
(** * Slurm: job identifiers and the state of jobs
    (src/src/frontend/frontend_impl/SLURM/Frontend.cpp and Frontend.hpp)

    What sacct, squeue and scontrol are asked and what their answers are taken to
    mean: the identifiers of the components of a heterogeneous job, whether a job is
    registered or running, the waiting loops, the check of architectures. *)

From S2P Require Import Prelude Split Host System.

(** ** Identifiers *)

(** SLURMFrontend::HetJobId *)
Record HetJobId : Type := MkHetJobId {
  job_id : Z;
  step_id : Z;
  het_offset : option Z;
  in_salloc : bool;
  is_batch_step : bool;
  is_extern_step : bool
}.

Definition get_sbcast_scancel_id (j : HetJobId) : string :=
  to_string (job_id j) +:+ "." +:+ to_string (step_id j).

(** Unsigned numbers of 32 bits are added. *)
Definition get_sattach_id (j : HetJobId) : string :=
  match het_offset j with
  | Some offset =>
      if in_salloc j
      then to_string (job_id j) +:+ "." +:+ to_string (step_id j) +:+ "+" +:+ to_string offset
      else to_string (uint32 (job_id j + offset)) +:+ "." +:+ to_string (step_id j)
  | None => get_sbcast_scancel_id j
  end.

Definition get_srun_id (j : HetJobId) : string :=
  match het_offset j with
  | Some offset => to_string (job_id j) +:+ "+" +:+ to_string offset +:+ "." +:+ to_string (step_id j)
  | None => get_sbcast_scancel_id j
  end.

Definition strs (j : HetJobId) : string * string := (to_string (job_id j), to_string (step_id j)).

(** The names of environment variables. *)
Definition SLURM_DISABLE_SACCT : string := "CTI_SLURM_DISABLE_SACCT".
Definition SLURM_CHECK_ARCH : string := "CTI_SLURM_CHECK_ARCH".

(** The parts of an identifier: job, step and offset as texts, and whether the
    format is the one used inside salloc. *)
Definition split_hetjobid (first second : string) : string * string * string * bool :=
  if contains "+" first
  then let '(jobId, hetOffset) := split2 first "+" in (jobId, second, hetOffset, false)
  else if contains "+" second
  then let '(stepId, hetOffset) := split2 second "+" in (first, stepId, hetOffset, true)
  else (first, second, "", false).

(** The step is read as a number before it is compared with the names of steps that
    have none. *)
Definition parse_sacct_hetjobid (sacctJobId : string) : res HetJobId :=
  let '(first, second) := split2 sacctJobId "." in
  if is_empty second then Throw ("Failed to parse sacct output: `" +:+ sacctJobId +:+ "`")
  else
    let '(jobId, stepId, hetOffset, salloc) := split_hetjobid first second in
    let parsed :=
      j ← stoul jobId;
      s ← stoul stepId;
      let is_batch := bool_decide (stepId = "batch") in
      let is_extern := negb is_batch && bool_decide (stepId = "extern") in
      if is_empty hetOffset
      then mret (MkHetJobId (uint32 j) (uint32 s) None false is_batch is_extern)
      else
        o ← stoul hetOffset;
        mret (MkHetJobId (uint32 j) (uint32 s) (Some (uint32 o)) salloc is_batch is_extern) in
    match parsed with
    | Throw _ =>
        Throw ("Failed to parse job ID " +:+ sacctJobId +:+ " from sacct. Ensure that " +:+
               "the job is valid and `sacct -o jobid -n -j " +:+ jobId +:+ "." +:+ stepId +:+
               "` produces an ID list. " +:+
               "If `salloc` is not working, set environment " +:+ SLURM_DISABLE_SACCT +:+
               "=1 (this will also disable MPMD support)")
    | r => r
    end.

(** ** The formats of sacct *)

(** A double quote *)
Definition dq : ascii := "034"%char.

Definition in_quotes (s : string) : string := String dq (s +:+ String dq "").

(** The value of a line of the JSON output: the key id and a text, both in
    quotes, with a comma or without. *)
Definition json_value (sacctLine : string) : option string :=
  let '(key, value) := split2 (removeLeadingWhitespace sacctLine) ":" in
  let value := removeLeadingWhitespace value in
  let value := if bool_decide (last_char value = Some ","%char) then pop_back value else value in
  if bool_decide (key = in_quotes "id") && (2 <=? String.length value)%nat &&
     starts_with (String dq "") value && bool_decide (last_char value = Some dq)
  then Some (substr 1 (String.length value - 2) value) else None.

(** The value of a line of the YAML output: [!!str id: !!str hetjobid] *)
Definition yaml_value (sacctLine : string) : option string :=
  match split_string 4 (removeLeadingWhitespace sacctLine) " " with
  | [str1; key; str2; value] =>
      if bool_decide (str1 = "!!str") && bool_decide (key = "id:") && bool_decide (str2 = "!!str")
      then Some value else None
  | _ => None
  end.

(** Every line with a point is looked at; one that does not parse ends the reading. *)
Fixpoint sacct_ids (value : string → option string) (lines : list string) : res (list HetJobId) :=
  match lines with
  | [] => Ok []
  | line :: lines' =>
      match (if contains "." line then value line else None) with
      | None => sacct_ids value lines'
      | Some v => j ← parse_sacct_hetjobid v; js ← sacct_ids value lines'; mret (j :: js)
      end
  end.

Section Jobs.
Context `{Commands}.

(** One way of asking sacct: any failure gives no identifiers. *)
Definition run_sacct (argv : list string) (value : string → option string) : M sys (list HetJobId) :=
  catch_all
    (lines ← Execvp argv;
     ids ← lift (sacct_ids value lines);
     status ← getExitStatus argv;
     mret (if status =? 0 then ids else [])) [].

Definition sacct_argv (jobStepId : string) : list string :=
  ["sacct"; "-o"; "jobid"; "-n"; "-j"; jobStepId].

Definition run_sacct_json (jobStepId : string) : M sys (list HetJobId) :=
  run_sacct (sacct_argv jobStepId ++ ["--json"]) json_value.

Definition run_sacct_yaml (jobStepId : string) : M sys (list HetJobId) :=
  run_sacct (sacct_argv jobStepId ++ ["--yaml"]) yaml_value.

Definition run_sacct_plaintext (jobStepId : string) : M sys (list HetJobId) :=
  run_sacct (sacct_argv jobStepId) Some.

(** ** squeue *)

Definition job_registered (jobId : string) : M sys bool :=
  status ← runExitStatus ["squeue"; "--job"; jobId]; mret (status =? 0).

Inductive JobStepStatus : Type := Running | NotRunning | StepError.

#[export] Instance JobStepStatus_eq_dec : EqDecision JobStepStatus.
Proof. solve_decision. Defined.

(** [view.rfind(s) == 0] without a position: the last occurrence is at the start. *)
Definition last_found_at_start (s view : string) : bool :=
  starts_with s view && negb (match view with "" => false | String _ v => contains s v end).

(** The line names the step, or a step without a number. *)
Definition step_line (jobId stepId squeueLine : string) : bool :=
  let needle := "RUNNING|" +:+ jobId +:+ "." in
  starts_with needle squeueLine &&
  (let potentialStepId := drop_str (String.length needle) squeueLine in
   last_found_at_start stepId potentialStepId ||
   negb (string_forall (λ c, is_digit c || bool_decide (c = " "%char)) potentialStepId)).

Definition job_step_running (jobId stepId : string) : M sys JobStepStatus :=
  let argv := ["squeue"; "--steps"; "--Format=StepState:7|,StepID"; "--jobs=" +:+ jobId;
               "--noheader"] in
  '(lines, exitStatus) ← run_lines argv;
  if negb (exitStatus =? 0) then mret StepError
  else
    registered ← (if bool_decide (lines = []) then job_registered jobId else mret true);
    mret (if negb registered then StepError
          else if existsb (step_line jobId stepId) lines then Running else NotRunning).

Definition job_step_zero_started (jobId : string) : M sys bool :=
  status ← job_step_running jobId "0";
  if decide (status = StepError)
  then throw ("checking status of job " +:+ jobId +:+ ".0 failed" +:+ nl)
  else mret (bool_decide (status = Running)).

(** ** Waiting *)

(** Asks until the answer is yes; [fuel] bounds the number of questions, of which
    the code has no bound. *)
Fixpoint wait_forever_for_application_state (fuel : nat) (func : string → M sys bool)
    (jobId : string) : M sys () :=
  match fuel with
  | O => undef "still waiting"
  | S fuel' =>
      done ← func jobId;
      if (done : bool) then mret tt
      else sleep 1;; wait_forever_for_application_state fuel' func jobId
  end.

(** The attempts left and the seconds to wait; an exception counts as no. *)
Fixpoint wait_attempts (attempts : nat) (wait_seconds : Z) (func : string → M sys bool)
    (jobId : string) : M sys () :=
  match attempts with
  | O =>
      throw ("Timed out waiting for Slurm application to launch. " +:+
             "Application may still be waiting for job resources (check using `squeue -j " +:+
             jobId +:+ "`). Once launched, job can be attached using its job ID")
  | S attempts' =>
      done ← catch_all (func jobId) false;
      if (done : bool) then mret tt
      else sleep wait_seconds;; wait_attempts attempts' (wait_seconds * 2) func jobId
  end.

Definition wait_briefly_for_application_state (func : string → M sys bool) (jobId : string) : M sys () :=
  wait_attempts 3 1 func jobId.

Definition wait_briefly_for_application_registered (jobId : string) : M sys () :=
  wait_briefly_for_application_state job_registered jobId.

Definition wait_forever_for_application_started (fuel : nat) (jobId : string) : M sys () :=
  wait_forever_for_application_state fuel job_step_zero_started jobId.

(** ** All identifiers of a job *)

Definition max_retry : nat := 24.

(** The rounds left; a round without identifiers waits while the job is registered. *)
Fixpoint sacct_rounds (rounds : nat) (jobStepId : string) : M sys (list HetJobId) :=
  match rounds with
  | O => mret []
  | S rounds' =>
      json ← run_sacct_json jobStepId;
      yaml ← (if bool_decide (json = []) then run_sacct_yaml jobStepId else mret json);
      result ← (if bool_decide (yaml = []) then run_sacct_plaintext jobStepId else mret yaml);
      if bool_decide (result = [])
      then
        registered ← job_registered jobStepId;
        if (registered : bool) then sleep 5;; sacct_rounds rounds' jobStepId else mret []
      else
        let steps := filter (λ j, is_batch_step j || is_extern_step j = false) result in
        if bool_decide (steps = []) then sleep 5;; sacct_rounds rounds' jobStepId
        else mret steps
  end.

Definition get_all_job_ids (job_id step_id : Z) : M sys (list HetJobId) :=
  disable_sacct ← getenv SLURM_DISABLE_SACCT;
  if match disable_sacct with Some v => negb (starts_with "0" v) | None => false end
  then mret [MkHetJobId job_id step_id (Some 0) false false false]
  else
    let jobStepId := to_string job_id +:+ "." +:+ to_string step_id in
    result ← sacct_rounds max_retry jobStepId;
    if bool_decide (result = [])
    then throw ("No job IDs found for " +:+ jobStepId +:+ ". Ensure that the job is valid and " +:+
                "`sacct -o jobid -n -j " +:+ jobStepId +:+ "` produces an ID list. If `salloc` is " +:+
                "not working, set environment " +:+ SLURM_DISABLE_SACCT +:+
                "=1 (this will also disable MPMD support)")
    else mret result.
End Jobs.

(** ** Nodes of a job *)

(** What depends on the machine: its name, and the order in which an unordered
    container of what was inserted is iterated. *)
Class SlurmHost : Type := {
  sh_gethostname : res string;
  sh_hash_order : list string → list string
}.

(** Insertion into an unordered set. *)
Definition insert_new (x : string) (l : list string) : list string :=
  if bool_decide (x ∈ l) then l else l ++ [x].

(** The nodes in a value of the JSON output. *)
Definition trim_nodespec (value : string) : string :=
  if (3 <? String.length value)%nat
  then
    let value := if last_found_at_start (String " " (String dq "")) value then drop_str 2 value else value in
    let value := if bool_decide (last_char value = Some ","%char) then pop_back value else value in
    if bool_decide (last_char value = Some dq) then pop_back value else value
  else value.

(** The value of a line with the key. *)
Definition json_field (key line : string) : option string :=
  let '(k, value) := split2 (removeLeadingWhitespace line) ":" in
  if bool_decide (k = in_quotes key) then Some value else None.

Section Nodes.
Context `{Commands} `{SlurmHost}.

Definition ignore_status (argv : list string) : M sys () := getExitStatus argv;; mret tt.

Fixpoint squeue_nodes (jobIds : list HetJobId) (nodeSpecs : list string) : M sys (list string) :=
  match jobIds with
  | [] => mret nodeSpecs
  | jobId :: jobIds' =>
      let argv := ["squeue"; "--json"; "--job"; get_sbcast_scancel_id jobId] in
      lines ← Execvp argv;
      ignore_status argv;;
      squeue_nodes jobIds'
        (fold_left (λ l v, insert_new (trim_nodespec v) l) (omap (json_field "nodes") lines) nodeSpecs)
  end.

(** The architectures of the nodes, in the order they were seen.  An exception keeps
    the ones seen before it. *)
Definition node_architectures (jobIds : list HetJobId) : M sys (list string) :=
  catch_all
    (hostname ← lift sh_gethostname;
     nodeSpecs ← squeue_nodes jobIds [hostname];
     let argv := ["scontrol"; "show"; "node"; "--json";
                  String.concat "" (map (λ n, n +:+ ",") (sh_hash_order nodeSpecs))] in
     lines ← Execvp argv;
     let archs := fold_left (λ l v, insert_new v l) (omap (json_field "architecture") lines) [] in
     catch_all (ignore_status argv) tt;;
     mret archs) [].

Definition verify_matching_architectures (jobIds : list HetJobId) : M sys () :=
  archs ← node_architectures jobIds;
  if (1 <? length archs)%nat
  then throw ("Launched job had nodes with different architectures: " +:+ nl +:+
              String.concat "" (map (λ a, a +:+ " ") (sh_hash_order archs)) +:+ nl +:+
              "Tool launch does not support targeting nodes with different " +:+
              "architectures. This check can be disabled by setting the environment variable " +:+
              SLURM_CHECK_ARCH +:+ "=0")
  else mret tt.

(** The last line with the key counts. *)
Definition scontrol_get_config (key : string) : M sys string :=
  let argv := ["scontrol"; "show"; "config"] in
  lines ← Execvp argv;
  ignore_status argv;;
  mret (fold_left
    (λ result line,
       let '(lineKey, value) := split2 line "=" in
       if bool_decide (removeLeadingWhitespace lineKey = key)
       then removeLeadingWhitespace value else result) lines "").

(** Job steps on each node, in the order of the nodes. *)
Fixpoint find_jobs_on (nodes : list string) : M sys (list (string * Z)) :=
  match nodes with
  | [] => mret []
  | node :: nodes' =>
      let argv := ["squeue"; "-s"; "-h"; "--nodelist"; node] in
      lines ← Execvp argv;
      ignore_status argv;;
      rest ← find_jobs_on nodes';
      mret ((node, Z.of_nat (length lines)) :: rest)
  end.

Definition find_jobs_on_nodes (nodes : gset string) : M sys (list (string * Z)) :=
  find_jobs_on (sorted_elements nodes).
End Nodes.

(** ** Reading with a timeout *)

(** What one [select] with a [read] after it gives. *)
Inductive select_answer : Type :=
| SelTimeout | SelFailed | ReadBytes (data : string) | ReadInterrupted | ReadFailed | ReadEnd.

(** Bytes up to a NUL of each chunk are kept; the end of the file does not end the
    loop.  None: more answers are needed. *)
Fixpoint read_timeout (answers : list select_answer) (result : string) : option string :=
  match answers with
  | [] => None
  | (SelTimeout | SelFailed | ReadFailed) :: _ => Some result
  | ReadBytes data :: answers' => read_timeout answers' (result +:+ c_str data)
  | (ReadInterrupted | ReadEnd) :: answers' => read_timeout answers' result
  end.

(** ** Theorems: identifiers *)

Definition is_uint32 (z : Z) : Prop := 0 ≤ z < 2 ^ 32.

(** Identifiers sacct prints: numbers of 32 bits, an offset inside salloc, no name in
    place of the step. *)
Definition printable (j : HetJobId) : Prop :=
  is_uint32 (job_id j) ∧ is_uint32 (step_id j) ∧
  match het_offset j with Some o => is_uint32 o | None => in_salloc j = false end ∧
  is_batch_step j = false ∧ is_extern_step j = false.

(** The formats of sacct outside and inside of salloc. *)
Definition sacct_format (j : HetJobId) : string :=
  if in_salloc j then get_sattach_id j else get_srun_id j.

Lemma stoul_uint32 (z : Z) : is_uint32 z → stoul (to_string z) = Ok z.
Proof. intros []. apply stoul_to_string. lia. Qed.

Lemma to_string_no_point (z : Z) : no_char "." (to_string z) = true.
Proof. by apply to_string_no_char. Qed.

Lemma to_string_no_plus (z : Z) : no_char "+" (to_string z) = true.
Proof. by apply to_string_no_char. Qed.

Lemma no_char_app (c : ascii) (a b : string) : no_char c (a +:+ b) = no_char c a && no_char c b.
Proof. apply string_forall_app. Qed.

Lemma split2_plain (d : ascii) (a b : string) :
  no_char d a = true → no_char d b = true → split2 (a +:+ String d b) d = (a, b).
Proof.
  intros Ha Hb. apply split2_kept; [done|]. unfold second_field_kept.
  by rewrite (proj2 (split_at_None d b) Hb).
Qed.

Lemma to_string_not_empty (z : Z) : is_empty (to_string z) = false.
Proof. destruct (is_empty (to_string z)) eqn:E; [|done]. by apply is_empty_spec, to_string_nonempty in E. Qed.

Lemma no_digit_to_string (name : string) (z : Z) :
  is_uint32 z → stoul name = Throw "stoul" → to_string z ≠ name.
Proof. intros Hz Hn <-. by rewrite stoul_uint32 in Hn. Qed.

(** Parsing the parts once they are separated. *)
Lemma parse_parts (text : string) (j s : Z) (o : option Z) (salloc : bool) (first second : string) :
  is_uint32 j → is_uint32 s → match o with Some z => is_uint32 z | None => salloc = false end →
  split2 text "." = (first, second) → is_empty second = false →
  split_hetjobid first second =
    (to_string j, to_string s, match o with Some z => to_string z | None => "" end, salloc) →
  parse_sacct_hetjobid text = Ok (MkHetJobId j s o salloc false false).
Proof.
  intros Hj Hs Ho E He Hp. unfold parse_sacct_hetjobid. rewrite E, He, Hp. cbv zeta.
  rewrite !stoul_uint32 by done. cbn [mbind res_bind].
  rewrite (bool_decide_false (to_string s = "batch")) by by apply no_digit_to_string.
  rewrite (bool_decide_false (to_string s = "extern")) by by apply no_digit_to_string.
  destruct o as [z|].
  - rewrite to_string_not_empty, stoul_uint32 by done. cbn [mbind res_bind].
    by rewrite !uint32_small.
  - subst. cbn [is_empty]. by rewrite !uint32_small.
Qed.

(** An identifier that sacct prints for a component of a job, in the format it uses
    outside of salloc (which is the one srun takes) or inside (the one sattach takes), is
    read back as that identifier. *)
Theorem hetjobid_roundtrip (j : HetJobId) :
  printable j → parse_sacct_hetjobid (sacct_format j) = Ok j.
Proof.
  destruct j as [j s o salloc b e]. unfold printable, sacct_format. cbn.
  intros (Hj & Hs & Ho & -> & ->).
  assert (∀ a b : string, a +:+ "." +:+ b = a +:+ String "." b) as Hdot by done.
  assert (contains "+" (to_string j) = false) as Hp1 by by rewrite contains_char, to_string_no_plus.
  assert (contains "+" (to_string s) = false) as Hp2 by by rewrite contains_char, to_string_no_plus.
  destruct o as [z|].
  - destruct salloc; unfold get_sattach_id, get_srun_id; cbn.
    + eapply (parse_parts _ j s (Some z) true); [done..| | |].
      * apply split2_plain; [apply to_string_no_point|].
        rewrite no_char_app, to_string_no_point. cbn. apply to_string_no_point.
      * by destruct (to_string s) eqn:E; [apply to_string_nonempty in E|].
      * unfold split_hetjobid. rewrite Hp1, contains_char, no_char_app. cbn.
        rewrite andb_false_r. cbn. rewrite split2_plain by apply to_string_no_plus. done.
    + eapply (parse_parts _ j s (Some z) false); [done..| | |].
      * replace (to_string j +:+ String "+" (to_string z +:+ String "." (to_string s)))
          with ((to_string j +:+ String "+" (to_string z)) +:+ String "." (to_string s))
          by by rewrite string_app_assoc.
        apply split2_plain; [|apply to_string_no_point].
        rewrite no_char_app, to_string_no_point. cbn. apply to_string_no_point.
      * apply to_string_not_empty.
      * unfold split_hetjobid. rewrite contains_char, no_char_app. cbn.
        rewrite andb_false_r. cbn. rewrite split2_plain by apply to_string_no_plus. done.
  - subst salloc. unfold get_srun_id, get_sbcast_scancel_id. cbn.
    eapply (parse_parts _ j s None false); [done..| | |].
    + apply split2_plain; apply to_string_no_point.
    + apply to_string_not_empty.
    + unfold split_hetjobid. by rewrite Hp1, Hp2.
Qed.

Lemma hetjobid_roundtrip_witness :
  let j := MkHetJobId 1234 5 (Some 2) true false false in
  sacct_format j = "1234.5+2" ∧ parse_sacct_hetjobid (sacct_format j) = Ok j.
Proof.
  intros j. split; [by vm_compute|]. apply (hetjobid_roundtrip j). repeat split; done.
Defined.

(** ** Theorems: wrapper steps *)

(** The names of the steps Slurm starts around a job. *)
Definition wrapper_name (stepId : string) : bool :=
  bool_decide (stepId = "batch") || bool_decide (stepId = "extern").

Lemma wrapper_name_spec (stepId : string) :
  wrapper_name stepId = true ↔ stepId = "batch" ∨ stepId = "extern".
Proof. unfold wrapper_name. by rewrite orb_true_iff, !bool_decide_eq_true. Qed.

(** A parsed identifier is never marked as a wrapper step. *)
Lemma parsed_not_wrapper (text : string) (j : HetJobId) :
  parse_sacct_hetjobid text = Ok j → is_batch_step j = false ∧ is_extern_step j = false.
Proof.
  unfold parse_sacct_hetjobid. destruct (split2 text ".") as [first second].
  destruct (is_empty second); [done|].
  destruct (split_hetjobid first second) as [[[jobId stepId] hetOffset] salloc]. cbv zeta.
  destruct (stoul jobId) as [a|e|e]; cbn; [|done|done].
  destruct (stoul stepId) as [b|e|e] eqn:Es; cbn; [|done|done].
  assert (stepId ≠ "batch" ∧ stepId ≠ "extern") as [Hb He].
  { split; intros ->; by vm_compute in Es. }
  rewrite !(bool_decide_false (stepId = _)) by done. cbn.
  destruct (is_empty hetOffset); [by intros [= <-]|].
  destruct (stoul hetOffset); cbn; [by intros [= <-]|done|done].
Qed.

Lemma sacct_ids_not_wrapper (value : string → option string) (lines : list string)
    (ids : list HetJobId) :
  sacct_ids value lines = Ok ids → Forall (λ j, is_batch_step j || is_extern_step j = false) ids.
Proof.
  revert ids. induction lines as [|line lines IH]; intros ids; cbn; [intros [= <-]; constructor|].
  destruct (if contains "." line then value line else None) as [v|]; [|apply IH].
  destruct (parse_sacct_hetjobid v) as [j|e|e] eqn:Ep; cbn; [|done..].
  destruct (sacct_ids value lines) as [js|e|e]; cbn; [|done..]. intros [= <-].
  apply parsed_not_wrapper in Ep as [Eb Ee]. constructor; [by rewrite Eb, Ee|by apply IH].
Qed.

(** Reading stops at a line that names a wrapper step. *)
Lemma sacct_ids_wrapper (value : string → option string) (lines : list string)
    (line jobId stepId : string) :
  line ∈ lines → contains "." line = true → value line = Some (jobId +:+ String "." stepId) →
  no_char "." jobId = true → no_char "+" jobId = true → wrapper_name stepId = true →
  ∀ ids, sacct_ids value lines ≠ Ok ids.
Proof.
  intros Hl Hc Hv Hd Hp Hw. induction lines as [|x lines IH]; [by apply not_elem_of_nil in Hl|].
  intros ids. cbn. apply elem_of_cons in Hl as [<-|Hl].
  - rewrite Hc, Hv.
    assert (∀ j, parse_sacct_hetjobid (jobId +:+ String "." stepId) ≠ Ok j) as Hn.
    { intros j. apply wrapper_name_spec in Hw. unfold parse_sacct_hetjobid.
      rewrite split2_plain by (done || by destruct Hw as [->| ->]).
      replace (is_empty stepId) with false by by destruct Hw as [->| ->].
      unfold split_hetjobid. rewrite !contains_char, Hp. cbn [negb].
      replace (no_char "+" stepId) with true by by destruct Hw as [->| ->]. cbn [negb]. cbv zeta.
      destruct (stoul jobId); cbn; [|done..]. by destruct Hw as [->| ->]. }
    destruct (parse_sacct_hetjobid _) as [j|e|e]; [by destruct (Hn j)|done|done].
  - destruct (if contains "." x then value x else None) as [v|]; [|by apply IH].
    destruct (parse_sacct_hetjobid v); cbn; [|done..].
    destruct (sacct_ids value lines) eqn:E; cbn; [|done..]. by destruct (IH Hl a0).
Qed.

Section Wrapper.
Context `{Commands}.

(** The result of asking sacct once. *)
Lemma run_sacct_result (argv : list string) (value : string → option string) (s : sys) :
  (run_sacct argv value s).1 =
  match c_output (sys_trace s) argv with
  | None => Ok []
  | Some out =>
      match sacct_ids value (text_lines (fd_text out)) with
      | Ok ids =>
          match c_wait (sys_trace s ++ [SRun argv]) argv with
          | WNoChild | WFailed _ => Ok []
          | w => Ok (if WEXITSTATUS w =? 0 then ids else [])
          end
      | Throw _ => Ok []
      | Undef why => Undef why
      end
  end.
Proof.
  unfold run_sacct, catch_all, try_catch, Execvp, getExitStatus.
  unfold mbind, M_bind, get, lift, mret, M_ret, throw. cbn.
  destruct (c_output _ _) as [out|]; [|done]. cbn.
  destruct (sacct_ids _ _); cbn; [|done..]. by destruct (c_wait _ _).
Qed.

Lemma parse_defined (v why : string) : parse_sacct_hetjobid v ≠ Undef why.
Proof.
  unfold parse_sacct_hetjobid. destruct (split2 v "."). destruct (is_empty _); [done|].
  destruct (split_hetjobid _ _) as [[[a b] c] d]. cbv zeta. unfold stoul.
  repeat (case_match; simplify_eq/=; try done).
Qed.

Lemma sacct_ids_defined (value : string → option string) (lines : list string) (why : string) :
  sacct_ids value lines ≠ Undef why.
Proof.
  induction lines as [|x lines IH]; [done|]. cbn.
  destruct (if contains "." x then value x else None) as [v|]; [|done].
  pose proof (parse_defined v) as Hp. destruct (parse_sacct_hetjobid v); cbn; [|done|].
  - by destruct (sacct_ids value lines).
  - by destruct (Hp why0).
Qed.

(** When the output of sacct has a line for a wrapper step, "batch" or "extern", no
    identifier at all is taken from that output: its name is converted to a number before
    it is recognised, so the components of the job listed beside it are lost. *)
Theorem wrapper_step_hides_job (argv : list string) (value : string → option string) (s : sys)
    (out line jobId stepId : string) :
  c_output (sys_trace s) argv = Some out → line ∈ text_lines (fd_text out) →
  contains "." line = true → value line = Some (jobId +:+ String "." stepId) →
  no_char "." jobId = true → no_char "+" jobId = true → wrapper_name stepId = true →
  (run_sacct argv value s).1 = Ok [].
Proof.
  intros Ho Hl Hc Hv Hd Hp Hw. rewrite run_sacct_result, Ho.
  pose proof (sacct_ids_wrapper value _ line jobId stepId Hl Hc Hv Hd Hp Hw) as Hn.
  pose proof (sacct_ids_defined value (text_lines (fd_text out))) as Hdf.
  destruct (sacct_ids value _) as [ids|e|e]; [by destruct (Hn ids)|done|by destruct (Hdf e)].
Qed.
End Wrapper.

Lemma wrapper_step_hides_job_witness :
  let C := scripted [(sacct_argv "7.0", (unlines ["7.batch"; "7.0"], 0))] in
  sacct_ids Some ["7.0"] = Ok [MkHetJobId 7 0 None false false false] ∧
  (run_sacct_plaintext "7.0" (MkSys ∅ [])).1 = Ok [].
Proof.
  intros C. split; [by vm_compute|].
  apply (wrapper_step_hides_job _ _ _ (unlines ["7.batch"; "7.0"]) "7.batch" "7" "batch");
    [reflexivity| |reflexivity..].
  vm_compute. constructor.
Defined.

(** ** Theorems: waiting and asking again *)

Section Waiting.
Context `{Commands}.

Lemma sacct_takes (argv : list string) (value : string → option string) :
  takes seconds 0 (run_sacct argv value).
Proof.
  apply takes_catch_all. apply takes_weaken with (0 + (0 + (0 + 0))); [|done].
  apply takes_bind; [by apply takes_Execvp|intros lines|done].
  apply takes_bind; [apply takes_lift|intros ids|done].
  apply takes_bind; [apply takes_getExitStatus|intros status; apply takes_ret|done].
Qed.

Lemma registered_takes (jobId : string) : takes seconds 0 (job_registered jobId).
Proof.
  apply (takes_bind _ 0 0); [by apply takes_runExitStatus|intros; apply takes_ret|done].
Qed.

Lemma sacct_rounds_takes (rounds : nat) (jobStepId : string) :
  takes seconds (5 * Z.of_nat rounds) (sacct_rounds rounds jobStepId).
Proof.
  induction rounds as [|rounds IH]; [apply takes_ret|]. cbn [sacct_rounds].
  assert (takes seconds (5 + 5 * Z.of_nat rounds) (sleep 5;; sacct_rounds rounds jobStepId)) as Hs.
  { apply takes_bind; [apply (takes_emit seconds (SSleep 5))|by intros _|lia]. }
  assert (∀ l : list HetJobId, takes seconds (5 + 5 * Z.of_nat rounds) (mret l)) as Hr.
  { intros l. eapply takes_weaken; [apply takes_ret|lia]. }
  apply takes_weaken with (0 + (0 + (0 + (5 + 5 * Z.of_nat rounds)))); [|lia].
  apply takes_bind; [apply sacct_takes|intros json|lia].
  apply takes_bind; [destruct (bool_decide _); [apply sacct_takes|apply takes_ret]|intros yaml|lia].
  apply takes_bind; [destruct (bool_decide _); [apply sacct_takes|apply takes_ret]|intros result|lia].
  destruct (bool_decide (result = [])).
  - apply takes_weaken with (0 + (5 + 5 * Z.of_nat rounds)); [|lia].
    apply takes_bind; [apply registered_takes|intros []|lia]; auto.
  - cbv zeta. destruct (bool_decide _); auto.
Qed.

Lemma sacct_rounds_steps (rounds : nat) (jobStepId : string) (s s' : sys) (ids : list HetJobId) :
  sacct_rounds rounds jobStepId s = (Ok ids, s') →
  Forall (λ j, is_batch_step j || is_extern_step j = false) ids.
Proof.
  revert s. induction rounds as [|rounds IH]; intros s; cbn [sacct_rounds]; intros E; minv.
  destruct (bool_decide (a1 = [])); minv.
  - destruct a2; minv; by eapply IH.
  - destruct (bool_decide (filter _ _ = [])); minv; [by eapply IH|].
    apply Forall_forall. intros j Hj. apply list_elem_of_filter in Hj. tauto.
Qed.

Lemma sacct_defined (argv : list string) (value : string → option string) :
  defined (run_sacct argv value).
Proof.
  unfold run_sacct. step_defined. intros s why s' E. injection E as E _.
  by eapply sacct_ids_defined.
Qed.

Lemma sacct_rounds_defined (rounds : nat) (jobStepId : string) :
  children_kept → defined (sacct_rounds rounds jobStepId).
Proof.
  intros kept. induction rounds as [|rounds IH]; cbn [sacct_rounds]; [done|].
  unfold run_sacct_json, run_sacct_yaml, run_sacct_plaintext, job_registered, sleep, sys_emit.
  pose proof sacct_defined. pose proof (λ argv, defined_runExitStatus argv kept).
  step_defined; auto with sys.
Qed.

(** Looking up the identifiers of a job comes to an end within two minutes of waiting
    for the steps Slurm starts first; what it gives then is a list that is not empty and
    names no such step, or an exception. *)
Theorem job_ids_bounded (job step : Z) (s : sys) :
  children_kept →
  let '(r, s') := get_all_job_ids job step s in
  cost seconds (sys_trace s') ≤ cost seconds (sys_trace s) + 120 ∧
  match r with
  | Ok ids => ids ≠ [] ∧ Forall (λ j, is_batch_step j || is_extern_step j = false) ids
  | Throw _ => True
  | Undef _ => False
  end.
Proof.
  intros kept. unfold get_all_job_ids. unfold mbind at 1, M_bind at 1, getenv, gets.
  destruct (match sys_env s !! SLURM_DISABLE_SACCT with Some v => _ | None => false end).
  { cbn. split; [lia|]. split; [done|by repeat constructor]. }
  cbv zeta. set (id := to_string job +:+ _).
  pose proof (sacct_rounds_takes max_retry id s) as Ht.
  pose proof (sacct_rounds_defined max_retry id kept s) as Hd.
  pose proof (sacct_rounds_steps max_retry id s) as Hs.
  unfold mbind, M_bind. destruct (sacct_rounds max_retry id s) as [[ids|e|e] s'].
  - cbn [snd] in Ht. change (5 * Z.of_nat max_retry) with 120 in Ht.
    case_bool_decide; cbn [fst snd]; (split; [done|]); [done|]. split; [done|by eapply Hs].
  - cbn [snd] in Ht. change (5 * Z.of_nat max_retry) with 120 in Ht. cbn [fst snd]. by split.
  - by destruct (Hd e s').
Qed.

(** A short wait sleeps seven seconds at most and asks three times at most. *)
Lemma wait_attempts_takes (f : sys_event → Z) (attempts : nat) (k wait_seconds : Z)
    (func : string → M sys bool) (jobId : string) :
  (∀ n, 0 ≤ n → 0 ≤ f (SSleep n)) → 0 ≤ k → 0 ≤ wait_seconds → takes f k (func jobId) →
  takes f (foldr (λ i z, k + f (SSleep (wait_seconds * 2 ^ Z.of_nat i)) + z) 0 (seq 0 attempts))
    (wait_attempts attempts wait_seconds func jobId).
Proof.
  intros Hf Hk Hw Hfunc. revert wait_seconds Hw.
  induction attempts as [|attempts IH]; intros w Hw; [apply takes_throw|]. cbn [wait_attempts seq foldr].
  rewrite <-fmap_S_seq. rewrite foldr_fmap. set (rest := foldr _ 0 _).
  assert (rest = foldr (λ i z, k + f (SSleep (w * 2 * 2 ^ Z.of_nat i)) + z) 0 (seq 0 attempts)) as Hrest.
  { unfold rest. apply foldr_ext; [|done|done]. intros i z.
    rewrite Nat2Z.inj_succ, Z.pow_succ_r by lia. by rewrite Z.mul_assoc. }
  assert (0 ≤ rest) as Hr.
  { rewrite Hrest. generalize (seq 0 attempts) as l. induction l as [|i l IHl]; cbn; [done|].
    specialize (Hf (w * 2 * 2 ^ Z.of_nat i)). assert (0 ≤ w * 2 * 2 ^ Z.of_nat i) by nia. lia. }
  specialize (Hf w Hw) as Hfw. rewrite Z.pow_0_r, Z.mul_1_r.
  apply takes_weaken with (k + (f (SSleep w) + rest)); [|lia].
  apply takes_bind; [by apply takes_catch_all| |lia]. intros [].
  { eapply takes_weaken; [apply takes_ret|lia]. }
  apply takes_bind; [apply takes_emit|intros _|done]. rewrite Hrest. apply IH. lia.
Qed.

Lemma wait_briefly_takes (jobId : string) :
  takes seconds 7 (wait_briefly_for_application_registered jobId) ∧
  takes runs 3 (wait_briefly_for_application_registered jobId).
Proof.
  split.
  - apply (wait_attempts_takes seconds 3 0 1); [done..|apply registered_takes].
  - apply (wait_attempts_takes runs 3 1 1); [done..|]. apply (takes_bind _ 1 0);
      [by apply takes_runExitStatus|intros; apply takes_ret|done].
Qed.

(** The state comes about: after some number of answers "no", one second apart, the answer
    is "yes" or an exception. *)
Inductive comes_about (func : string → M sys bool) (jobId : string) : sys → res () → sys → Prop :=
| comes_now s s' : func jobId s = (Ok true, s') → comes_about func jobId s (Ok tt) s'
| comes_exception s what s' :
    func jobId s = (Throw what, s') → comes_about func jobId s (Throw what) s'
| comes_later s s1 r s' :
    func jobId s = (Ok false, s1) →
    comes_about func jobId (MkSys (sys_env s1) (sys_trace s1 ++ [SSleep 1])) r s' →
    comes_about func jobId s r s'.

Lemma wait_forever_sound (func : string → M sys bool) (jobId : string) (fuel : nat) (s s' : sys) (r : res ()) :
  (∀ why, r ≠ Undef why) →
  wait_forever_for_application_state fuel func jobId s = (r, s') → comes_about func jobId s r s'.
Proof.
  intros Hr. revert s. induction fuel as [|fuel IH]; intros s; cbn.
  { intros [= <- <-]. by destruct (Hr "still waiting"). }
  unfold mbind at 1, M_bind at 1. destruct (func jobId s) as [[[]|e|e] s1] eqn:E.
  - intros [= <- <-]. by apply comes_now.
  - intros Hw. eapply comes_later; [done|]. by apply IH.
  - intros [= <- <-]. by apply comes_exception.
  - intros [= <- <-]. by destruct (Hr e).
Qed.

(** Waiting without a limit comes back if and only if the state comes about, with the
    answer it came about with, and enough steps give that same answer: an exception while
    asking ends the wait, and time alone does not. *)
Theorem wait_forever_live (func : string → M sys bool) (jobId : string) (s s' : sys) (r : res ()) :
  (∀ why, r ≠ Undef why) →
  (∃ n, ∀ fuel, (n ≤ fuel)%nat →
     wait_forever_for_application_state fuel func jobId s = (r, s')) ↔ comes_about func jobId s r s'.
Proof.
  intros Hr. split.
  - intros [n Hn]. apply (wait_forever_sound _ _ n); auto.
  - clear Hr. intros Hc. induction Hc as [s s' E|s what s' E|s s1 r s' E _ [n IH]].
    + exists 1%nat. intros [|fuel] Hf; [lia|]. cbn. by rewrite (bind_run_Ok _ _ _ _ _ E).
    + exists 1%nat. intros [|fuel] Hf; [lia|]. cbn. by rewrite (bind_run_Throw _ _ _ _ _ E).
    + exists (S n). intros [|fuel] Hf; [lia|]. cbn. rewrite (bind_run_Ok _ _ _ _ _ E).
      apply IH. lia.
Qed.
End Waiting.

(** A job that has started once someone has slept twice. *)
Definition started_after_two : string → M sys bool := λ _,
  gets (λ s, bool_decide (cost seconds (sys_trace s) = 2)).

Lemma wait_forever_live_witness :
  let s' := MkSys ∅ [SSleep 1; SSleep 1] in
  comes_about started_after_two "7" (MkSys ∅ []) (Ok tt) s' ∧
  ∃ n, ∀ fuel, (n ≤ fuel)%nat →
    wait_forever_for_application_state fuel started_after_two "7" (MkSys ∅ []) = (Ok tt, s').
Proof.
  intros s'.
  assert (comes_about started_after_two "7" (MkSys ∅ []) (Ok tt) s') as Hc.
  { eapply comes_later; [reflexivity|]. eapply comes_later; [reflexivity|]. by apply comes_now. }
  split; [exact Hc|]. apply (wait_forever_live started_after_two "7" (MkSys ∅ []) s' (Ok tt)).
  - intros why Hw. discriminate Hw.
  - exact Hc.
Defined.

Lemma job_ids_bounded_witness :
  let C := scripted [(sacct_argv "7.0" ++ ["--json"],
                      ("  " +:+ in_quotes "id" +:+ ": " +:+ in_quotes "7+1.0" +:+ ",", 0))] in
  (get_all_job_ids 7 0 (MkSys ∅ [])).1 = Ok [MkHetJobId 7 0 (Some 1) false false false] ∧
  let '(r, s') := get_all_job_ids 7 0 (MkSys ∅ []) in
  cost seconds (sys_trace s') ≤ cost seconds (sys_trace (MkSys ∅ [])) + 120 ∧
  match r with
  | Ok ids => ids ≠ [] ∧ Forall (λ j, is_batch_step j || is_extern_step j = false) ids
  | Throw _ => True
  | Undef _ => False
  end.
Proof.
  intros C. split; [by vm_compute|]. apply (job_ids_bounded 7 0 (MkSys ∅ [])). apply scripted_kept.
Defined.

(** Step 1 is taken to be running while only step 12 is. *)
Example step_prefix_running : step_line "5" "1" "RUNNING|5.12   " = true.
Proof. reflexivity. Qed.
