(* ===== verification/Archive.v ===== *)
(** * Archives (src/src/frontend/transfer/Archive.cpp, Archive.hpp)

    The tar file under construction, as the list of entries written so far.
    libarchive is not part of the repository: the results of its calls come from
    a script held in the state, and a call beyond the script succeeds. *)

From S2P Require Import Prelude Host.

Inductive entry : Type :=
| EDir (path : string)
| EFile (path : string) (data : list byte)
| ELink (path dest : string).

Definition entry_path (e : entry) : string :=
  match e with EDir p => p | EFile p _ => p | ELink p _ => p end.

(** Return codes of [archive_write_header]. *)
Inductive archive_rc : Type :=
  ARCHIVE_OK | ARCHIVE_RETRY | ARCHIVE_WARN | ARCHIVE_FAILED | ARCHIVE_FATAL.

Record archive := MkArchive {
  a_path : string;
  (** [m_archPtr], [m_entryScratchpad] and [m_readBuf] are live *)
  a_open : bool;
  a_entries : list entry;
  (** the initialised prefix of [m_readBuf] *)
  a_buf : list byte;
  (** results of the coming [archive_write_header] calls *)
  a_header_rcs : list archive_rc;
  (** results of the coming [archive_write_data] calls *)
  a_data_rcs : list Z;
  (** result of [archive_write_close] *)
  a_close_fatal : bool
}.

Definition CTI_BLOCK_SIZE : nat := Z.to_nat 65536.

Definition set_entries (es : list entry) (a : archive) : archive :=
  MkArchive (a_path a) (a_open a) es (a_buf a) (a_header_rcs a) (a_data_rcs a)
    (a_close_fatal a).

Definition set_header_rcs (rcs : list archive_rc) (a : archive) : archive :=
  MkArchive (a_path a) (a_open a) (a_entries a) (a_buf a) rcs (a_data_rcs a)
    (a_close_fatal a).

Definition set_data_rcs (rcs : list Z) (a : archive) : archive :=
  MkArchive (a_path a) (a_open a) (a_entries a) (a_buf a) (a_header_rcs a) rcs
    (a_close_fatal a).

Definition set_buf (b : list byte) (a : archive) : archive :=
  MkArchive (a_path a) (a_open a) (a_entries a) b (a_header_rcs a) (a_data_rcs a)
    (a_close_fatal a).

Definition close_archive (a : archive) : archive :=
  MkArchive (a_path a) false (a_entries a) [] (a_header_rcs a) (a_data_rcs a)
    (a_close_fatal a).

(** [read(fd, buf, n)] overwrites the start of the buffer. *)
Definition overwrite (block buf : list byte) : list byte :=
  block ++ drop (length block) buf.

(** The data of the entry being written grows. *)
Definition append_data (data : list byte) (e : entry) : entry :=
  match e with EFile p d => EFile p (d ++ data) | _ => e end.

Fixpoint on_last {A : Type} (f : A → A) (l : list A) : list A :=
  match l with
  | [] => []
  | [a] => [f a]
  | a :: l' => a :: on_last f l'
  end.

(** [freshEntry()] *)
Definition freshEntry : M archive () :=
  a ← get;
  if a_open a then mret tt
  else throw (a_path a +:+ " tried to add a path after finalizing").

(** [archiveWriteRetry]: the loop runs down the scripted results. *)
Fixpoint write_retry (rcs : list archive_rc) : archive_rc * list archive_rc :=
  match rcs with
  | [] => (ARCHIVE_OK, [])
  | ARCHIVE_RETRY :: rcs' => write_retry rcs'
  | rc :: rcs' => (rc, rcs')
  end.

Definition archiveWriteRetry (e : entry) : M archive () :=
  a ← get;
  let '(rc, rcs) := write_retry (a_header_rcs a) in
  modify (set_header_rcs rcs);;
  match rc with
  | ARCHIVE_FATAL => throw "archive_error_string"
  | ARCHIVE_FAILED => mret tt
  | _ => modify (set_entries (a_entries a ++ [e]))
  end.

(** [addDirEntry] *)
Definition addDirEntry (entryPath : string) : M archive () :=
  freshEntry;; archiveWriteRetry (EDir entryPath).

(** [addLink] *)
Definition addLink (entryPath dest : string) : M archive () :=
  freshEntry;; archiveWriteRetry (ELink entryPath dest).

(** One call [archive_write_data(arch, buf + writeLen, readLen)] that accepts [n]
    bytes: it reads [n] bytes of the buffer from offset [writeLen]. *)
Definition write_data (writeLen n : nat) : M archive () :=
  a ← get;
  if decide (writeLen + n ≤ length (a_buf a))%nat
  then modify (set_entries (on_last
         (append_data (take n (drop writeLen (a_buf a)))) (a_entries a)))
  else undef "read past the initialised part of the buffer".

(** The inner loop of [addFile]: the whole [readLen] is passed on every call, also
    when part of the block was written by an earlier one. *)
Fixpoint write_block (rcs : list Z) (writeLen readLen : nat) : M archive () :=
  if decide (readLen ≤ writeLen)%nat then modify (set_data_rcs rcs)
  else
    match rcs with
    | [] => modify (set_data_rcs []);; write_data writeLen readLen
    | rc :: rcs' =>
        if decide (rc < 0)
        then modify (set_data_rcs rcs');; throw "failed archive_write_data"
        else write_data writeLen (Z.to_nat rc);;
             write_block rcs' (writeLen + Z.to_nat rc)%nat readLen
    end.

Section Archive.
Context `{Host}.

(** [addFile]: a file that cannot be opened is left empty without an error. *)
Definition addFile (entryPath filePath : string) : M archive () :=
  match os_read filePath with
  | None => mret tt
  | Some blocks =>
      for_each blocks (λ b,
        match b with
        | None => throw (filePath +:+ " failed read call")
        | Some block =>
            modify (λ a, set_buf (overwrite block (a_buf a)) a);;
            a ← get;
            write_block (a_data_rcs a) 0 (length block)
        end)
  end.

(** [strncmp(name, ".", 1) == 0]: every name that starts with a dot. *)
Definition skip_name (name : string) : bool := starts_with "." name.

(** [addPath] and [addDir], mutually recursive; the fuel bounds the nesting. *)
Fixpoint addPath (fuel : nat) (entryPath path : string) : M archive () :=
  match fuel with
  | O => undef "nesting deeper than the fuel"
  | S fuel' =>
      match os_stat path with
      | None => throw (path +:+ " failed stat call")
      | Some TReg =>
          freshEntry;; archiveWriteRetry (EFile entryPath []);; addFile entryPath path
      | Some TDir =>
          freshEntry;; archiveWriteRetry (EDir entryPath);;
          match os_readdir path with
          | None => throw (path +:+ " failed opendir call")
          | Some names =>
              for_each names (λ nb,
                let '(name, err) := nb in
                if (err : bool) then throw (path +:+ " had readdir failure: ")
                else if skip_name name then mret tt
                else addPath fuel' (entryPath +:+ "/" +:+ name) (path +:+ "/" +:+ name))
          end
      | Some _ => throw (path +:+ " has invalid file type.")
      end
  end.

(** [finalize()]: [exists_at i] tells whether the [i]-th check finds the archive
    on disk. *)
Definition MAX_RETRY : nat := 3.

Fixpoint wait_on_disk (exists_at : nat → bool) (retry left : nat) : bool :=
  match left with
  | O => false
  | S left' => exists_at retry || wait_on_disk exists_at (S retry) left'
  end.

Definition finalize (exists_at : nat → bool) : M archive string :=
  a ← get;
  if a_close_fatal a
  then throw ("failed to finalize archive at " +:+ a_path a)
  else
    modify close_archive;;
    if wait_on_disk exists_at 0 MAX_RETRY then mret (a_path a)
    else throw ("archive finalized, but not available on disk at " +:+ a_path a).
End Archive.

(** What libarchive and the disk will answer for the archive at a path, and a
    bound on the nesting of the directories that are archived. *)
Class Tar : Type := {
  tar_header_rcs : string → list archive_rc;
  tar_data_rcs : string → list Z;
  tar_close_fatal : string → bool;
  tar_on_disk : string → nat → bool;
  tar_nesting : nat
}.

(** [Archive(archivePath)] once libarchive accepted format and file. *)
Definition open_archive `{Tar} (archivePath : string) : archive :=
  MkArchive archivePath true [] [] (tar_header_rcs archivePath)
    (tar_data_rcs archivePath) (tar_close_fatal archivePath).

(** The same with a library that never fails. *)
Definition new_archive (archivePath : string) : archive :=
  MkArchive archivePath true [] [] [] [] false.

(** ** Specification: the archive of a file tree *)

#[local] Set Warnings "-register-all".
Inductive node : Type :=
| NFile (blocks : list (list byte))
| NDir (children : list (string * node)).

Definition child_path (p name : string) : string := p +:+ "/" +:+ name.

(** The entries of a tree in traversal order; names starting with a dot are left out. *)
Fixpoint tree_entries (entryPath : string) (n : node) : list entry :=
  match n with
  | NFile blocks => [EFile entryPath (concat blocks)]
  | NDir cs =>
      EDir entryPath ::
      flat_map (λ '(name, c),
        if skip_name name then [] else tree_entries (child_path entryPath name) c) cs
  end.

Fixpoint depth (n : node) : nat :=
  match n with
  | NFile _ => 0
  | NDir cs => S (foldr (λ '(_, c) d, Nat.max (depth c) d) 0%nat cs)
  end.

(** The host's file system holds the tree [n] at [path]. *)
Fixpoint describes `{Host} (path : string) (n : node) : Prop :=
  match n with
  | NFile blocks => os_stat path = Some TReg ∧ os_read path = Some (map Some blocks)
  | NDir cs =>
      os_stat path = Some TDir ∧
      os_readdir path = Some (map (λ '(name, _), (name, false)) cs) ∧
      (fix all (l : list (string * node)) : Prop :=
         match l with
         | [] => True
         | (name, c) :: l' => describes (child_path path name) c ∧ all l'
         end) cs
  end.

(** An open archive for which libarchive reports no failure. *)
Definition quiet (a : archive) : Prop :=
  a_open a = true ∧ a_header_rcs a = [] ∧ a_data_rcs a = [].

(** ** Lemmas *)

Section NodeInd.
Context (P : node → Prop).
Hypothesis Pfile : ∀ blocks, P (NFile blocks).
Hypothesis Pdir : ∀ cs, Forall (λ nc, P nc.2) cs → P (NDir cs).

Fixpoint node_tree_ind (n : node) : P n :=
  match n with
  | NFile blocks => Pfile blocks
  | NDir cs =>
      Pdir cs
        ((fix all (l : list (string * node)) : Forall (λ nc, P nc.2) l :=
            match l with
            | [] => Forall_nil_2 _
            | nc :: l' => Forall_cons_2 _ nc l' (node_tree_ind nc.2) (all l')
            end) cs)
  end.
End NodeInd.

Lemma on_last_snoc {A : Type} (f : A → A) (l : list A) (x : A) :
  on_last f (l ++ [x]) = l ++ [f x].
Proof. induction l as [|a [|b l] IH]; [done|done|]. cbn in *. by rewrite IH. Qed.

Lemma quiet_header (a : archive) (e : entry) :
  quiet a → archiveWriteRetry e a = (Ok tt, set_entries (a_entries a ++ [e]) a).
Proof. intros (Ho & Hh & Hd). destruct a. cbn in *. by subst. Qed.

Lemma quiet_set_entries (a : archive) (es : list entry) : quiet a → quiet (set_entries es a).
Proof. done. Qed.

Lemma quiet_fresh (a : archive) : quiet a → freshEntry a = (Ok tt, a).
Proof. intros (Ho & _). unfold freshEntry, mbind, M_bind, get. by rewrite Ho. Qed.

Lemma quiet_fresh_header (a : archive) (e : entry) :
  quiet a →
  (freshEntry;; archiveWriteRetry e) a = (Ok tt, set_entries (a_entries a ++ [e]) a).
Proof.
  intros Ha. rewrite (bind_run_Ok _ _ _ _ _ (quiet_fresh a Ha)). by apply quiet_header.
Qed.

Lemma take_overwrite (block buf : list byte) :
  take (length block) (overwrite block buf) = block.
Proof. unfold overwrite. by rewrite take_app_length. Qed.

Lemma length_overwrite (block buf : list byte) :
  (length block ≤ length (overwrite block buf))%nat.
Proof. unfold overwrite. rewrite length_app. lia. Qed.

(** Writing one block with a library that accepts it whole. *)
Lemma write_block_whole (a : archive) (block d : list byte) (p : string) (es : list entry) :
  quiet a → a_entries a = es ++ [EFile p d] →
  ∃ a', write_block [] 0 (length block) (set_buf (overwrite block (a_buf a)) a)
        = (Ok tt, a') ∧ quiet a' ∧ a_entries a' = es ++ [EFile p (d ++ block)].
Proof.
  intros Ha He. unfold write_block. case_decide as Hl.
  - assert (block = []) as -> by (destruct block; [done|cbn in Hl; lia]).
    eexists. split; [done|]. destruct Ha as (? & ? & _).
    split; [done|]. cbn. by rewrite He, app_nil_r.
  - unfold write_data, mbind, M_bind, get, modify. cbn [a_buf set_buf set_data_rcs].
    rewrite decide_True by (cbn; apply length_overwrite).
    eexists. split; [done|]. split.
    { destruct Ha as (? & ? & ?). done. }
    cbn [a_entries set_entries set_data_rcs set_buf]. rewrite He, on_last_snoc.
    cbn [append_data]. by rewrite drop_0, take_overwrite.
Qed.

Section Proofs.
Context `{Host}.

Lemma addFile_spec (ep path p : string) (blocks : list (list byte)) (a : archive)
    (es : list entry) :
  os_read path = Some (map Some blocks) → quiet a → a_entries a = es ++ [EFile p []] →
  ∃ a', addFile ep path a = (Ok tt, a') ∧ quiet a' ∧
        a_entries a' = es ++ [EFile p (concat blocks)].
Proof.
  intros Hr Ha He. unfold addFile. rewrite Hr. clear Hr.
  change (concat blocks) with ([] ++ concat blocks).
  revert a Ha He. generalize (@nil byte) as d.
  induction blocks as [|b bs IH]; intros d a Ha He.
  - exists a. cbn. by rewrite app_nil_r.
  - cbn [map for_each]. pose proof (proj2 (proj2 Ha)) as Hdr.
    destruct (write_block_whole a b d p es Ha He) as (a1 & Hw & Hq & He1).
    assert (∀ k, ((modify (λ a, set_buf (overwrite b (a_buf a)) a);;
        a0 ← get; write_block (a_data_rcs a0) 0 (length b)) ≫= k) a
      = (write_block (a_data_rcs a) 0 (length b) ≫= k) (set_buf (overwrite b (a_buf a)) a))
      as -> by done.
    rewrite Hdr, (bind_run_Ok _ _ _ _ _ Hw).
    destruct (IH (d ++ b) a1 Hq He1) as (a2 & -> & Hq2 & He2).
    exists a2. split_and!; [done..|]. by rewrite He2, <-app_assoc.
Qed.

Lemma addPath_children (fuel : nat) (ep path : string) (cs : list (string * node)) (a : archive) :
  Forall (λ nc, ∀ ep p a, describes p nc.2 → (depth nc.2 < fuel)%nat → quiet a →
    ∃ a', addPath fuel ep p a = (Ok tt, a') ∧ quiet a' ∧
          a_entries a' = a_entries a ++ tree_entries ep nc.2) cs →
  Forall (λ nc, describes (child_path path nc.1) nc.2 ∧ (depth nc.2 < fuel)%nat) cs →
  quiet a →
  ∃ a', for_each (map (λ '(name, _), (name, false)) cs) (λ nb : string * bool,
          let '(name, err) := nb in
          if err then throw (path +:+ " had readdir failure: ")
          else if skip_name name then mret tt
          else addPath fuel (ep +:+ "/" +:+ name) (path +:+ "/" +:+ name)) a = (Ok tt, a') ∧
        quiet a' ∧
        a_entries a' = a_entries a ++ flat_map (λ '(name, c),
          if skip_name name then [] else tree_entries (child_path ep name) c) cs.
Proof.
  intros HI. revert a. induction HI as [|[name c] cs HIc HI IH]; intros a Hd Ha.
  { exists a. cbn. by rewrite app_nil_r. }
  apply Forall_cons in Hd as [[Hdc Hfc] Hd]. cbn in Hdc, Hfc. cbn [map for_each flat_map].
  destruct (skip_name name) eqn:Hs.
  - rewrite (bind_run_Ok _ _ _ tt a) by done.
    destruct (IH a Hd Ha) as (a' & E & Hq & He). exists a'.
    split_and!; [exact E|done|exact He].
  - destruct (HIc (child_path ep name) _ a Hdc Hfc Ha) as (a1 & E & Hq & He).
    rewrite (bind_run_Ok _ _ _ tt a1) by exact E.
    destruct (IH a1 Hd Hq) as (a' & E' & Hq' & He'). exists a'.
    split_and!; [exact E'|done|]. by rewrite He', He, <-app_assoc.
Qed.

Lemma describes_children (path : string) (cs : list (string * node)) :
  describes path (NDir cs) →
  os_stat path = Some TDir ∧
  os_readdir path = Some (map (λ '(name, _), (name, false)) cs) ∧
  Forall (λ nc, describes (child_path path nc.1) nc.2) cs.
Proof.
  intros (? & ? & Hall). split_and!; [done..|].
  induction cs as [|[name c] cs IH] in Hall |- *; [constructor|].
  destruct Hall as [Hc Hall]. constructor; [done|]. by apply IH.
Qed.

Lemma depth_children (cs : list (string * node)) (fuel : nat) :
  (depth (NDir cs) < S fuel)%nat → Forall (λ nc, (depth nc.2 < fuel)%nat) cs.
Proof.
  cbn. intros Hd. assert (foldr (λ '(_, c) d, Nat.max (depth c) d) 0 cs < fuel)%nat as Hm by lia.
  clear Hd. induction cs as [|[name c] cs IH]; [constructor|]. cbn in Hm.
  constructor; [cbn; lia|]. apply IH. lia.
Qed.

Lemma addPath_tree (n : node) :
  ∀ (fuel : nat) (ep path : string) (a : archive),
  describes path n → (depth n < fuel)%nat → quiet a →
  ∃ a', addPath fuel ep path a = (Ok tt, a') ∧ quiet a' ∧
        a_entries a' = a_entries a ++ tree_entries ep n.
Proof.
  induction n as [blocks|cs IH] using node_tree_ind; intros fuel ep path a Hd Hf Ha;
    (destruct fuel as [|fuel]; [lia|]); cbn [addPath].
  - destruct Hd as [-> Hr].
    erewrite bind_run_Ok by (apply quiet_fresh; done).
    erewrite bind_run_Ok by (apply quiet_header; done).
    destruct (addFile_spec ep path ep blocks
        (set_entries (a_entries a ++ [EFile ep []]) a) _ Hr (quiet_set_entries a _ Ha) eq_refl)
      as (a' & E & Hq & He). exists a'. split_and!; [exact E|done|exact He].
  - destruct (describes_children _ _ Hd) as (-> & -> & Hc).
    erewrite bind_run_Ok by (apply quiet_fresh; done).
    erewrite bind_run_Ok by (apply quiet_header; done).
    destruct (addPath_children fuel ep path cs (set_entries (a_entries a ++ [EDir ep]) a))
      as (a' & E & Hq & He).
    + eapply Forall_impl; [exact IH|]. intros nc Hnc ep' p' a0 ???. by apply Hnc.
    + apply Forall_and. split; [done|]. by apply depth_children.
    + done.
    + exists a'. split; [exact E|]. split; [done|]. rewrite He. cbn. by rewrite <-app_assoc.
Qed.

(** C40 [addPath] archives a file tree exactly: given a tree of the file system and
    a library without failures it terminates (with fuel above the depth of the
    tree) and appends, in traversal order, one entry per directory and file, each
    file with its whole contents, and nothing for names that start with a dot. *)
Theorem addPath_archives_tree (n : node) (fuel : nat) (ep path : string) (a : archive) :
  describes path n → (depth n < fuel)%nat → quiet a →
  ∃ a', addPath fuel ep path a = (Ok tt, a') ∧
        a_entries a' = a_entries a ++ tree_entries ep n.
Proof.
  intros ???. destruct (addPath_tree n fuel ep path a) as (a' & ? & _ & ?); [done..|].
  by exists a'.
Qed.

(** After [finalize] has returned, every attempt to add an entry throws and
    leaves the entries as they are. *)
Theorem finalized_archive_rejects (exists_at : nat → bool) (a a' : archive) (p : string) :
  finalize exists_at a = (Ok p, a') →
  p = a_path a ∧ a_entries a' = a_entries a ∧
  (∀ entryPath, addDirEntry entryPath a'
    = (Throw (a_path a +:+ " tried to add a path after finalizing"), a')) ∧
  (∀ entryPath dest, addLink entryPath dest a'
    = (Throw (a_path a +:+ " tried to add a path after finalizing"), a')) ∧
  (∀ fuel entryPath path e a'', addPath (S fuel) entryPath path a' = (e, a'') →
    a_entries a'' = a_entries a ∧ ∃ what, e = Throw what).
Proof.
  unfold finalize, mbind, M_bind, get, modify.
  destruct (a_close_fatal a); [done|]. destruct (wait_on_disk exists_at 0 MAX_RETRY); [|done].
  intros [= <- <-]. split_and!; [done..|].
  intros fuel ep path e a''. cbn [addPath].
  destruct (os_stat path) as [[]|]; intros [= <- <-]; eauto.
Qed.
End Proofs.

Lemma write_data_run (a : archive) (off n : nat) :
  (off + n ≤ length (a_buf a))%nat →
  write_data off n a = (Ok tt, set_entries (on_last
    (append_data (take n (drop off (a_buf a)))) (a_entries a)) a).
Proof. intros Hl. unfold write_data, mbind, M_bind, get. by rewrite decide_True. Qed.

Lemma write_data_short (a : archive) (off n : nat) :
  (length (a_buf a) < off + n)%nat →
  write_data off n a = (Undef "read past the initialised part of the buffer", a).
Proof. intros Hl. unfold write_data, mbind, M_bind, get. rewrite decide_False by lia. done. Qed.

(** A short write corrupts the copy: when libarchive accepts only part of the
    first block of a file, the next call passes the full block length from the
    offset and so reads past the bytes that were read from the file. *)
Theorem short_write_overreads (a : archive) (block : list byte) (n : Z) :
  a_buf a = block → 0 < n < Z.of_nat (length block) →
  ∃ a', write_block [n] 0 (length block) a
        = (Undef "read past the initialised part of the buffer", a').
Proof.
  intros Hb [Hn Hlt]. cbn [write_block].
  rewrite decide_False by lia. rewrite decide_False by lia.
  rewrite (bind_run_Ok _ _ _ _ _ (write_data_run a 0 (Z.to_nat n) ltac:(subst; lia))).
  rewrite decide_False by lia. eexists.
  rewrite (bind_run_Ok (modify (set_data_rcs [])) _ _ tt _ eq_refl).
  apply write_data_short. cbn. subst. lia.
Qed.

Lemma short_write_overreads_witness :
  ∃ a', write_block [1] 0 2 (set_buf [x61; x62] (new_archive "t"))
        = (Undef "read past the initialised part of the buffer", a').
Proof.
  exact (short_write_overreads (set_buf [x61; x62] (new_archive "t")) [x61; x62] 1
           eq_refl (conj eq_refl eq_refl)).
Defined.

Lemma addPath_archives_tree_witness :
  ∃ a', addPath (H := demo_host) 2 "s/d" "/d" (new_archive "t") = (Ok tt, a') ∧
        a_entries a' = [EDir "s/d"; EFile "s/d/f" [x61; x62]].
Proof.
  apply (addPath_archives_tree (H := demo_host)
    (NDir [("f", NFile [[x61; x62]]); (".h", NFile [[x63]])]) 2 "s/d" "/d" (new_archive "t")).
  - by repeat split.
  - cbn. lia.
  - by repeat split.
Defined.

Lemma finalized_archive_rejects_witness :
  "t" = a_path (new_archive "t") ∧
  a_entries (close_archive (new_archive "t")) = [].
Proof.
  destruct (finalized_archive_rejects (H := demo_host) (λ _, true) (new_archive "t")
    (close_archive (new_archive "t")) "t" eq_refl) as (H1 & H2 & _).
  split; [exact H1|exact H2].
Defined.

#[export] Instance demo_tar : Tar := {|
  tar_header_rcs _ := []; tar_data_rcs _ := []; tar_close_fatal _ := false;
  tar_on_disk _ _ := true; tar_nesting := 3 |}.
