(* ===== verification/Manifest.v ===== *)
(** * Manifests (src/src/frontend/transfer/Manifest.cpp, Manifest.hpp)

    A manifest lists the files to ship next; the session it belongs to records the
    files already on the compute nodes.  Both are objects shared by reference:
    the world holds the session and a heap of manifests, and every operation is
    code in [M world].  The application and frontend that own the session are the
    class [App], the interface their workload managers implement. *)

From S2P Require Import Prelude Host Argv Archive.

Inductive DepsPolicy : Type := Ignore | Stage.

#[export] Instance DepsPolicy_eq_dec : EqDecision DepsPolicy.
Proof. solve_decision. Defined.

Record manifest := MkManifest {
  m_instance : Z;
  m_folders : gmap string (gset string);
  m_sourcePaths : gmap string string;
  m_ldLibraryOverrideFolder : string;
  m_isValid : bool
}.

(** The address of a manifest. *)
Abbreviation mptr := nat.

Record session := MkSession {
  s_manifests : gset mptr;
  s_add_requirements : bool;
  s_manifestCnt : Z;
  s_seqNum : Z;
  s_folders : gmap string (gset string);
  s_sourcePaths : gmap string string;
  s_stageName : string;
  s_stagePath : string;
  s_wlmType : string;
  s_ldLibraryPath : string
}.

(** What the application did for the session, in order. *)
Inductive event : Type :=
| EvShip (tarPath : string) (entries : list entry)
| EvDaemon (args : list string) (synchronous : bool).

Record world := MkWorld {
  w_session : session;
  w_session_alive : bool;
  w_app_alive : bool;
  w_heap : gmap mptr manifest;
  w_next : mptr;
  w_events : list event
}.

(** The owning application and its frontend.  Shipping, starting a daemon and
    checking for files may depend on everything done so far, and may throw. *)
Class App : Type := {
  app_getJobId : string;
  app_getToolPath : string;
  app_getAttribsPath : string;
  app_getExtraBinaries : list string;
  app_getExtraLibraries : list string;
  app_getExtraLibDirs : list string;
  app_getExtraFiles : list string;
  app_checkFilesExist : list event → gset string → res (gset string);
  app_shipPackage : list event → string → res ();
  app_startDaemon : list event → list string → bool → res ();
  fe_getCfgDir : string;
  fe_getLdAuditPath : string;
  fe_debug : bool;
  fe_getDefaultEnvVars : list string;
  fe_getWLMType : Z;
  (** the name of the backend daemon, fixed when the library is configured *)
  cfg_be_daemon_binary : string
}.

(** ** State access *)

Definition set_session (s : session) (w : world) : world :=
  MkWorld s (w_session_alive w) (w_app_alive w) (w_heap w) (w_next w) (w_events w).

Definition set_heap (h : gmap mptr manifest) (w : world) : world :=
  MkWorld (w_session w) (w_session_alive w) (w_app_alive w) h (w_next w) (w_events w).

Definition set_next (n : mptr) (w : world) : world :=
  MkWorld (w_session w) (w_session_alive w) (w_app_alive w) (w_heap w) n (w_events w).

Definition push_event (e : event) (w : world) : world :=
  MkWorld (w_session w) (w_session_alive w) (w_app_alive w) (w_heap w) (w_next w)
    (w_events w ++ [e]).

Definition get_manifest (p : mptr) : M world manifest :=
  w ← get;
  match w_heap w !! p with
  | Some m => mret m
  | None => undef "dangling manifest"
  end.

Definition put_manifest (p : mptr) (m : manifest) : M world () :=
  modify (λ w, set_heap (<[p := m]> (w_heap w)) w).

Definition set_folders (f : gmap string (gset string)) (m : manifest) : manifest :=
  MkManifest (m_instance m) f (m_sourcePaths m) (m_ldLibraryOverrideFolder m) (m_isValid m).

Definition set_sources (f : gmap string string) (m : manifest) : manifest :=
  MkManifest (m_instance m) (m_folders m) f (m_ldLibraryOverrideFolder m) (m_isValid m).

Definition set_override (f : string) (m : manifest) : manifest :=
  MkManifest (m_instance m) (m_folders m) (m_sourcePaths m) f (m_isValid m).

(** [finalize()]: the manifest can no longer be modified. *)
Definition manifest_finalize (m : manifest) : manifest :=
  MkManifest (m_instance m) (m_folders m) (m_sourcePaths m)
    (m_ldLibraryOverrideFolder m) false.

(** [m_folders[folder].emplace(name)] *)
Definition folder_insert (folder name : string) (f : gmap string (gset string))
    : gmap string (gset string) :=
  <[folder := {[name]} ∪ default ∅ (f !! folder)]> f.

(** ** Operations *)

(** [empty()] *)
Definition manifest_empty (m : manifest) : bool := bool_decide (m_sourcePaths m = ∅).

Definition enforceValid (p : mptr) : M world () :=
  m ← get_manifest p;
  if m_isValid m then mret tt
  else throw "Attempted to modify previously shipped manifest!".

Definition getOwningSession : M world session :=
  w ← get;
  if w_session_alive w then mret (w_session w)
  else throw "Owning Session is no longer valid.".

(** [Session::getOwningApp()] *)
Definition getOwningApp : M world () :=
  w ← get;
  if w_app_alive w then mret tt else throw "Owning app is no longer valid.".

(** [Session::getSourcePath] *)
Definition archive_path (folderName realName : string) : string :=
  folderName +:+ "/" +:+ realName.

Definition getSourcePath (s : session) (folderName realName : string) : string :=
  default "" (s_sourcePaths s !! archive_path folderName realName).

(** The two assignments to the manifest registry. *)
Definition register_file (folder realName canonicalPath : string) (m : manifest) : manifest :=
  set_sources (<[realName := canonicalPath]> (m_sourcePaths m))
    (set_folders (folder_insert folder realName (m_folders m)) m).

Section Manifest.
Context `{Host} `{App}.

Definition checkAndAdd (p : mptr) (folder filePath realName : string) : M world () :=
  sess ← getOwningSession;
  canonicalPath ← lift (cstr_realpath filePath);
  let shippedSourcePath := getSourcePath sess folder realName in
  if negb (is_empty shippedSourcePath) && negb (isSameFile shippedSourcePath canonicalPath)
  then throw ("conflict: shipping " +:+ canonicalPath +:+ " to " +:+ folder +:+ "/" +:+
         realName +:+ " would conflict with file already shipped from " +:+ shippedSourcePath)
  else
    m ← get_manifest p;
    put_manifest p (register_file folder realName canonicalPath m).

(** Naming the library override folder after the manifest, the first time. *)
Definition ensure_override (p : mptr) : M world () :=
  m ← get_manifest p;
  if is_empty (m_ldLibraryOverrideFolder m)
  then put_manifest p (set_override ("lib." +:+ to_string (m_instance m)) m)
  else mret tt.

(** [addLibrary], with the treatment of its own dependencies as an argument; an
    implicitly added library ([Ignore]) adds none. *)
Definition addLibrary_gen (addDeps : string → string → M world ())
    (p : mptr) (rawName : string) (depsPolicy : DepsPolicy) : M world () :=
  enforceValid p;;
  filePath ← lift (findLib rawName);
  realName ← lift (cstr_basename filePath);
  getOwningSession;;
  try_catch (checkAndAdd p "lib" filePath realName) (λ ex,
    if decide (depsPolicy = Stage) then throw ex
    else
      ensure_override p;;
      m ← get_manifest p;
      checkAndAdd p (m_ldLibraryOverrideFolder m) filePath realName);;
  if decide (depsPolicy = Stage)
  then getOwningApp;; addDeps filePath fe_getLdAuditPath
  else mret tt.

Definition addLibDeps (p : mptr) (filePath auditPath : string) : M world () :=
  match getFileDependencies filePath auditPath with
  | None => mret tt
  | Some libs => for_each libs (λ l, addLibrary_gen (λ _ _, mret tt) p l Ignore)
  end.

Definition addLibrary (p : mptr) (rawName : string) (depsPolicy : DepsPolicy) : M world () :=
  addLibrary_gen (addLibDeps p) p rawName depsPolicy.

Definition addBinary (p : mptr) (rawName : string) (depsPolicy : DepsPolicy) : M world () :=
  enforceValid p;;
  filePath ← lift (findPath rawName);
  realName ← lift (cstr_basename filePath);
  if negb (fileHasPerms (Some filePath) (Z.lor R_OK X_OK))
  then throw "Specified binary does not have execute permissions."
  else
    checkAndAdd p "bin" filePath realName;;
    if decide (depsPolicy = Stage)
    then getOwningSession;; getOwningApp;; addLibDeps p filePath fe_getLdAuditPath
    else mret tt.

Definition addLibDir (p : mptr) (rawPath : string) : M world () :=
  enforceValid p;;
  realPath ← lift (cstr_realpath rawPath);
  realName ← lift (cstr_basename realPath);
  checkAndAdd p "lib" realPath realName.

Definition addFile (p : mptr) (rawName : string) : M world () :=
  enforceValid p;;
  filePath ← lift (findPath rawName);
  realName ← lift (cstr_basename filePath);
  checkAndAdd p "" filePath realName.
End Manifest.
