(* ===== verification/Session.v ===== *)
(** * Sessions (src/src/frontend/transfer/Session.cpp, Session.hpp)

    A session ships manifests to the compute nodes, starts tool daemons from them
    and remembers which file went where. *)

From S2P Require Import Prelude Host Argv Archive Manifest.

(** ** State access *)

Definition upd_session (f : session → session) : M world () :=
  modify (λ w, set_session (f (w_session w)) w).

Definition get_session : M world session := gets w_session.

Definition set_manifests (X : gset mptr) (s : session) : session :=
  MkSession X (s_add_requirements s) (s_manifestCnt s) (s_seqNum s) (s_folders s)
    (s_sourcePaths s) (s_stageName s) (s_stagePath s) (s_wlmType s) (s_ldLibraryPath s).

Definition set_add_requirements (b : bool) (s : session) : session :=
  MkSession (s_manifests s) b (s_manifestCnt s) (s_seqNum s) (s_folders s)
    (s_sourcePaths s) (s_stageName s) (s_stagePath s) (s_wlmType s) (s_ldLibraryPath s).

Definition set_manifestCnt (n : Z) (s : session) : session :=
  MkSession (s_manifests s) (s_add_requirements s) n (s_seqNum s) (s_folders s)
    (s_sourcePaths s) (s_stageName s) (s_stagePath s) (s_wlmType s) (s_ldLibraryPath s).

Definition set_seqNum (n : Z) (s : session) : session :=
  MkSession (s_manifests s) (s_add_requirements s) (s_manifestCnt s) n (s_folders s)
    (s_sourcePaths s) (s_stageName s) (s_stagePath s) (s_wlmType s) (s_ldLibraryPath s).

Definition set_s_folders (f : gmap string (gset string)) (s : session) : session :=
  MkSession (s_manifests s) (s_add_requirements s) (s_manifestCnt s) (s_seqNum s) f
    (s_sourcePaths s) (s_stageName s) (s_stagePath s) (s_wlmType s) (s_ldLibraryPath s).

Definition set_s_sources (f : gmap string string) (s : session) : session :=
  MkSession (s_manifests s) (s_add_requirements s) (s_manifestCnt s) (s_seqNum s)
    (s_folders s) f (s_stageName s) (s_stagePath s) (s_wlmType s) (s_ldLibraryPath s).

Definition set_ldLibraryPath (p : string) (s : session) : session :=
  MkSession (s_manifests s) (s_add_requirements s) (s_manifestCnt s) (s_seqNum s)
    (s_folders s) (s_sourcePaths s) (s_stageName s) (s_stagePath s) (s_wlmType s) p.

(** ** Construction *)

(** [FE_prng::genChar] for a value [r] of [random_r]. *)
Definition valid_chars : string :=
  "0123456789ABCDEFGHIJKLMNOPQRSTUVWXYZabcdefghijklmnopqrstuvwxyz".

Definition genChar (r : Z) : ascii :=
  default "0"%char (String.get (Z.to_nat (r mod 62)) valid_chars).

Definition STAGE_DIR_PREFIX : string := "cti_daemon".

(** [generateStagePath]: the prefix and six generated characters. *)
Fixpoint gen_chars (n : nat) (random : nat → Z) : string :=
  match n with
  | O => ""
  | S n' => String (genChar (random O)) (gen_chars n' (λ i, random (S i)))
  end.

Definition generateStagePath (random : nat → Z) : string :=
  STAGE_DIR_PREFIX +:+ gen_chars 6 random.

(** [Session(owningApp)] *)
Definition new_session `{App} (random : nat → Z) : session :=
  let stageName := generateStagePath random in
  let stagePath := app_getToolPath +:+ "/" +:+ stageName in
  MkSession ∅ true 0 0 ∅ ∅ stageName stagePath (to_string fe_getWLMType)
    (stagePath +:+ "/lib").

Definition new_world `{App} (random : nat → Z) : world :=
  MkWorld (new_session random) true true ∅ 0 [].

(** The increment of an [int]: undefined at its largest value. *)
Definition int_succ {S : Type} (n : Z) : M S Z :=
  if decide (n = int_max) then undef "signed overflow" else mret (n + 1).

(** [nextManifestCount()] *)
Definition nextManifestCount : M world () :=
  s ← get_session;
  n ← int_succ (s_manifestCnt s);
  upd_session (set_manifestCnt n).

(** [++m_seqNum] *)
Definition next_seqNum : M world () :=
  s ← get_session;
  n ← int_succ (s_seqNum s);
  upd_session (set_seqNum n).

(** [createManifest()] and the constructor of [Manifest]. *)
Definition createManifest : M world mptr :=
  nextManifestCount;;
  w ← get;
  let p := w_next w in
  let m := MkManifest (s_manifestCnt (w_session w)) ∅ ∅ "" true in
  modify (set_next (S p));;
  put_manifest p m;;
  if decide (p ∈ s_manifests (w_session w))
  then throw "Failed to create new Manifest object."
  else
    upd_session (λ s, set_manifests ({[p]} ∪ s_manifests s) s);;
    mret p.

(** [verifyOwnership] *)
Definition verifyOwnership (p : mptr) : M world () :=
  s ← get_session;
  if decide (p ∈ s_manifests s) then mret tt
  else throw "manifest not owned by session".

(** [removeManifest] *)
Definition removeManifest (p : mptr) : M world () :=
  verifyOwnership p;;
  m ← get_manifest p;
  put_manifest p (manifest_finalize m);;
  upd_session (λ s, set_manifests (s_manifests s ∖ {[p]}) s).

(** [newPaths.at(fileName)] *)
Definition path_at (paths : gmap string string) (fileName : string) : res string :=
  match paths !! fileName with
  | Some p => Ok p
  | None => Throw "map::at"
  end.

Section Session.
Context `{Host} `{App} `{Tar}.

(** The body of the inner loop of [mergeTransfered]; the result says whether the
    file is to be removed from the manifest. *)
Definition merge_file (newPaths : gmap string string) (folderName fileName : string)
    : M world (list (string * string)) :=
  upd_session (λ s, set_s_folders (folder_insert folderName fileName (s_folders s)) s);;
  s ← get_session;
  let fileArchivePath := archive_path folderName fileName in
  match s_sourcePaths s !! fileArchivePath with
  | Some shipped =>
      fileSourcePath ← lift (path_at newPaths fileName);
      if isSameFile shipped fileSourcePath then mret [(folderName, fileName)]
      else throw ("tried to merge transfered file " +:+ fileArchivePath +:+
                  " but it was already in the session!")
  | None =>
      newPath ← lift (path_at newPaths fileName);
      realFilePath ← lift (cstr_realpath newPath);
      upd_session (λ s, set_s_sources (<[fileArchivePath := realFilePath]> (s_sourcePaths s)) s);;
      mret []
  end.

(** The folder / file pairs in the order of the nested loops over [FoldersMap]. *)
Definition folder_files (folders : gmap string (gset string)) : list (string * string) :=
  flat_map (λ f, map (λ n, (f, n)) (sorted_elements (default ∅ (folders !! f))))
    (sorted_keys folders).

Fixpoint merge_files (newPaths : gmap string string) (l : list (string * string))
    : M world (list (string * string)) :=
  match l with
  | [] => mret []
  | (folderName, fileName) :: l' =>
      r1 ← merge_file newPaths folderName fileName;
      r2 ← merge_files newPaths l';
      mret (r1 ++ r2)
  end.

Definition mergeTransfered (newFolders : gmap string (gset string))
    (newPaths : gmap string string) : M world (list (string * string)) :=
  merge_files newPaths (folder_files newFolders).

(** Dropping the files that need not be shipped from the manifest's registries. *)
Definition remove_pair (fp : string * string) (m : manifest) : manifest :=
  let '(folder, file) := fp in
  set_sources (delete file (m_sourcePaths m))
    (set_folders (<[folder := default ∅ (m_folders m !! folder) ∖ {[file]}]> (m_folders m)) m).

Definition remove_pairs (l : list (string * string)) (m : manifest) : manifest :=
  foldl (λ m fp, remove_pair fp m) m l.

(** The search for files already present on all nodes. *)
Definition find_duplicates (sources : gmap string string) : M world (gset string) :=
  if bool_decide (os_getenv "CTI_DEDUPLICATE_FILES" = Some "0") then mret ∅
  else
    try_catch
      (w ← get;
       lift (app_checkFilesExist (w_events w) (list_to_set (map snd (map_to_list sources)))))
      (λ _, mret ∅).

(** The loop that fills the archive. *)
Definition add_to_archive (stageName : string) (sources : gmap string string)
    (duplicates : gset string) (fp : string * string) : M archive () :=
  let '(folder, file) := fp in
  match sources !! file with
  | None => mret tt
  | Some sourcePath =>
      let destPath := stageName +:+ "/" +:+ folder +:+ "/" +:+ file in
      if decide (sourcePath ∈ duplicates) then addLink destPath sourcePath
      else addPath tar_nesting destPath sourcePath
  end.

Definition fill_archive (stageName : string) (folders : gmap string (gset string))
    (sources : gmap string string) (duplicates : gset string) : M archive () :=
  addDirEntry stageName;;
  addDirEntry (stageName +:+ "/bin");;
  addDirEntry (stageName +:+ "/lib");;
  addDirEntry (stageName +:+ "/tmp");;
  for_each (folder_files folders) (add_to_archive stageName sources duplicates).

(** [app->shipPackage(archive.finalize())]; the package that was shipped is recorded. *)
Definition ship_archive (tarPath : string) (run : M archive string) : M world () :=
  let '(r, a) := run (open_archive tarPath) in
  finalPath ← lift r;
  w ← get;
  lift (app_shipPackage (w_events w) finalPath);;
  modify (push_event (EvShip finalPath (a_entries a))).

(** Shipping the application's base files with the first manifest. *)
Definition add_requirements (p : mptr) : M world () :=
  s ← get_session;
  if s_add_requirements s then
    for_each app_getExtraBinaries (λ path, addBinary p path Stage);;
    for_each app_getExtraLibraries (λ path, addLibrary p path Stage);;
    for_each app_getExtraLibDirs (addLibDir p);;
    for_each app_getExtraFiles (addFile p);;
    upd_session (set_add_requirements false)
  else mret tt.

(** The merge of the manifest into the session, and the removal of duplicates. *)
Definition merge_manifest (p : mptr) : M world manifest :=
  m ← get_manifest p;
  toRemove ← mergeTransfered (m_folders m) (m_sourcePaths m);
  put_manifest p (remove_pairs toRemove m);;
  let m' := remove_pairs toRemove m in
  (if is_empty (m_ldLibraryOverrideFolder m') then mret tt
   else upd_session (λ s, set_ldLibraryPath
          (s_stagePath s +:+ "/" +:+ m_ldLibraryOverrideFolder m' +:+ ":" +:+ s_ldLibraryPath s) s));;
  mret m'.

(** [shipManifest] *)
Definition archive_name (stageName : string) (inst : Z) : string :=
  stageName +:+ to_string inst +:+ ".tar".

Definition shipManifest (p : mptr) : M world string :=
  getOwningApp;;
  add_requirements p;;
  removeManifest p;;
  m0 ← get_manifest p;
  s ← get_session;
  let archiveName := archive_name (s_stageName s) (m_instance m0) in
  m ← merge_manifest p;
  duplicates ← find_duplicates (m_sourcePaths m);
  let tarPath := fe_getCfgDir +:+ "/" +:+ archiveName in
  ship_archive tarPath
    (fill_archive (s_stageName s) (m_folders m) (m_sourcePaths m) duplicates;;
     finalize (tar_on_disk tarPath));;
  mret archiveName.

(** ** Starting daemons *)

Definition CTI_BE_DAEMON_BINARY : string := cfg_be_daemon_binary.

Definition add_params (l : list (gnu_option * string)) (v : argv) : res argv :=
  foldl (λ v ov, v' ← v; outgoing_add_param ov.1 ov.2 v') (Ok v) l.

Definition add_debug (v : argv) : res argv :=
  if fe_debug then outgoing_add_option DaemonArgv.Debug v else Ok v.

Definition env_params (vars : list string) : list (gnu_option * string) :=
  map (λ v, (DaemonArgv.EnvVariable, v)) vars.

(** [app->startDaemon(argv.get() + 1, synchronous)] *)
Definition startDaemon (v : argv) (synchronous : bool) : M world () :=
  w ← get;
  let args := until_null (drop 1 v) in
  lift (app_startDaemon (w_events w) args synchronous);;
  modify (push_event (EvDaemon args synchronous)).

(** [sendManifest] *)
Definition send_params (s : session) (archiveName : string) : list (gnu_option * string) :=
  [(DaemonArgv.ApID, app_getJobId); (DaemonArgv.ToolPath, app_getToolPath);
   (DaemonArgv.WLMEnum, s_wlmType s); (DaemonArgv.ManifestName, archiveName);
   (DaemonArgv.Directory, s_stageName s);
   (DaemonArgv.InstSeqNum, to_string (s_seqNum s))].

Definition sendManifest (p : mptr) : M world () :=
  verifyOwnership p;;
  m ← get_manifest p;
  if manifest_empty m then removeManifest p
  else
    getOwningApp;;
    archiveName ← shipManifest p;
    s ← get_session;
    v ← lift (v0 ← outgoing_new CTI_BE_DAEMON_BINARY;
              v1 ← add_params (send_params s archiveName) v0;
              v2 ← add_debug v1;
              add_params (env_params fe_getDefaultEnvVars) v2);
    startDaemon v true;;
    next_seqNum.

(** [execManifest]; the arguments after [--] belong to the tool daemon. *)
Definition opt_param (o : gnu_option) (value : string) : list (gnu_option * string) :=
  if is_empty value then [] else [(o, value)].

Definition exec_params (s : session) (archiveName binaryName : string)
    : list (gnu_option * string) :=
  [(DaemonArgv.ApID, app_getJobId); (DaemonArgv.ToolPath, app_getToolPath)] ++
  opt_param DaemonArgv.PMIAttribsPath app_getAttribsPath ++
  opt_param DaemonArgv.LdLibraryPath (s_ldLibraryPath s) ++
  [(DaemonArgv.WLMEnum, s_wlmType s)] ++
  opt_param DaemonArgv.ManifestName archiveName ++
  [(DaemonArgv.Binary, binaryName); (DaemonArgv.Directory, s_stageName s);
   (DaemonArgv.InstSeqNum, to_string (s_seqNum s))].

Definition exec_argv (s : session) (archiveName binaryName : string)
    (daemonArgs envVars : option (list string)) : res argv :=
  v0 ← outgoing_new CTI_BE_DAEMON_BINARY;
  v1 ← add_params (exec_params s archiveName binaryName) v0;
  v2 ← add_debug v1;
  v3 ← add_params (env_params fe_getDefaultEnvVars) v2;
  v4 ← match envVars with
       | None => Ok v3
       | Some env => enforceValidEnvStrings env;; add_params (env_params env) v3
       end;
  match daemonArgs with
  | None => Ok v4
  | Some args => v5 ← argv_add_cstr (Some "--") v4; argv_add_each (map Some args) v5
  end.

Definition execManifest (p : mptr) (daemon : string)
    (daemonArgs envVars : option (list string)) : M world () :=
  verifyOwnership p;;
  addBinary p daemon Stage;;
  getOwningApp;;
  m ← get_manifest p;
  archiveName ← (if manifest_empty m then removeManifest p;; mret "" else shipManifest p);
  daemonPath ← lift (findPath daemon);
  binaryName ← lift (cstr_basename daemonPath);
  s ← get_session;
  v ← lift (exec_argv s archiveName binaryName daemonArgs envVars);
  startDaemon v false;;
  next_seqNum.

(** [Session::finalize()]: the cleanup daemon, when a manifest was shipped. *)
Definition cleanup_params (s : session) : list (gnu_option * string) :=
  [(DaemonArgv.ApID, app_getJobId); (DaemonArgv.ToolPath, app_getToolPath)] ++
  opt_param DaemonArgv.PMIAttribsPath app_getAttribsPath ++
  [(DaemonArgv.WLMEnum, s_wlmType s); (DaemonArgv.Directory, s_stageName s);
   (DaemonArgv.InstSeqNum, to_string (s_seqNum s))].

Definition session_finalize : M world () :=
  s ← get_session;
  if s_seqNum s =? 0 then mret tt
  else
    getOwningApp;;
    v ← lift (v0 ← outgoing_new CTI_BE_DAEMON_BINARY;
              v1 ← add_params (cleanup_params s) v0;
              v2 ← outgoing_add_option DaemonArgv.Clean v1;
              v3 ← add_debug v2;
              add_params (env_params fe_getDefaultEnvVars) v3);
    startDaemon v true.

(** [getSessionLockFiles()] *)
Definition lock_file (toolPath stageName : string) (i : Z) : string :=
  toolPath +:+ "/.lock_" +:+ stageName +:+ "_" +:+ to_string i.

Definition getSessionLockFiles : M world (list string) :=
  getOwningApp;;
  s ← get_session;
  mret (map (lock_file app_getToolPath (s_stageName s)) (seqZ 0 (s_seqNum s))).
End Session.

(** A small application for evaluating the definitions on examples. *)
#[export] Instance demo_app : App := {|
  app_getJobId := "1234.0"; app_getToolPath := "/tmp"; app_getAttribsPath := "";
  app_getExtraBinaries := []; app_getExtraLibraries := []; app_getExtraLibDirs := [];
  app_getExtraFiles := [];
  app_checkFilesExist _ _ := Ok ∅;
  app_shipPackage _ _ := Ok tt;
  app_startDaemon _ _ _ := Ok tt;
  fe_getCfgDir := "/cfg"; fe_getLdAuditPath := "/audit"; fe_debug := false;
  fe_getDefaultEnvVars := ["CTI_DEBUG=0"]; fe_getWLMType := 2;
  cfg_be_daemon_binary := "cti_be_daemon" |}.
