(* ===== verification/Transfer.v ===== *)
(** * The invariant of the transfer layer

    The invariant of sessions and manifests, preserved by every operation a client
    can call, what the state keeps from one call to the next, and the life of a
    manifest. *)

From S2P Require Import Prelude Host Argv Archive Manifest Session.

(** ** Well-formedness *)

(** Every name in a folder has a source path. *)
Definition coherent (m : manifest) : Prop :=
  ∀ folder files name, m_folders m !! folder = Some files → name ∈ files →
    is_Some (m_sourcePaths m !! name).

(** Folder names hold no slash, so that "folder/name" determines both parts. *)
Definition manifest_wf (m : manifest) : Prop :=
  (∀ folder files, m_folders m !! folder = Some files → no_char "/" folder = true) ∧
  no_char "/" (m_ldLibraryOverrideFolder m) = true.

(** The manifest at [p] can no longer be modified. *)
Definition finalized (p : mptr) (w : world) : Prop :=
  ∃ m, w_heap w !! p = Some m ∧ m_isValid m = false.

(** The invariant of the worlds a client can reach.  [F] is a set of manifests
    known to be finalized: they stay so; [N] manifests are known to have been made. *)
Record winv_of (F : gset mptr) (N : nat) (w : world) : Prop := Winv {
  inv_fin : ∀ p, p ∈ F → finalized p w;
  inv_cnt : 0 ≤ s_manifestCnt (w_session w) ≤ int_max;
  inv_seq : 0 ≤ s_seqNum (w_session w) ≤ int_max;
  inv_owned : ∀ p, p ∈ s_manifests (w_session w) ↔
    ∃ m, w_heap w !! p = Some m ∧ m_isValid m = true;
  inv_next : ∀ p m, w_heap w !! p = Some m → (p < w_next w)%nat;
  inv_inst : ∀ p m, w_heap w !! p = Some m →
    1 ≤ m_instance m ≤ s_manifestCnt (w_session w);
  inv_inst_inj : ∀ p q m m', w_heap w !! p = Some m → w_heap w !! q = Some m' →
    m_instance m = m_instance m' → p = q;
  inv_wf : ∀ p m, w_heap w !! p = Some m → manifest_wf m;
  inv_coh : ∀ p m, w_heap w !! p = Some m → m_isValid m = true → coherent m;
  inv_dom : ∀ p, (p < w_next w)%nat → is_Some (w_heap w !! p);
  inv_grow : (N ≤ w_next w)%nat
}.

Arguments inv_fin {F N} w.
Arguments inv_cnt {F N} w.
Arguments inv_seq {F N} w.
Arguments inv_owned {F N} w.
Arguments inv_next {F N} w.
Arguments inv_inst {F N} w.
Arguments inv_inst_inj {F N} w.
Arguments inv_wf {F N} w.
Arguments inv_coh {F N} w.
Arguments inv_dom {F N} w.
Arguments inv_grow {F N} w.

(** The calls a client of the library can make on a session and its manifests. *)
Section Calls.
Context `{Host} `{App} `{Tar}.

Inductive call : Type :=
| CreateManifest
| AddBinary (p : mptr) (name : string)
| AddLibrary (p : mptr) (name : string)
| AddLibDir (p : mptr) (path : string)
| AddFile (p : mptr) (name : string)
| SendManifest (p : mptr)
| ExecManifest (p : mptr) (daemon : string) (args env : option (list string))
| Finalize.

Definition discard {A : Type} (m : M world A) : M world () := m;; mret tt.

Definition run_call (c : call) : M world () :=
  match c with
  | CreateManifest => discard createManifest
  | AddBinary p n => addBinary p n Stage
  | AddLibrary p n => addLibrary p n Stage
  | AddLibDir p n => addLibDir p n
  | AddFile p n => addFile p n
  | SendManifest p => sendManifest p
  | ExecManifest p d a e => execManifest p d a e
  | Finalize => session_finalize
  end.

(** One call, whether it returns or throws. *)
Inductive step : world → world → Prop :=
| step_call c w : step w (run_call c w).2.
End Calls.

(** ** Preservation *)

Section Preservation.
Context (F : gset mptr) (N : nat).
#[local] Abbreviation winv := (winv_of F N).

Lemma winv_frame (w w' : world) :
  s_manifests (w_session w') = s_manifests (w_session w) →
  s_manifestCnt (w_session w') = s_manifestCnt (w_session w) →
  s_seqNum (w_session w') = s_seqNum (w_session w) →
  w_heap w' = w_heap w → w_next w' = w_next w → winv w → winv w'.
Proof.
  intros E1 E2 E3 E4 E5 [H0 H1 H2 H3 H4 H5 H6 H7 H8 H9 H10].
  split; unfold finalized; rewrite ?E1, ?E2, ?E3, ?E4, ?E5; assumption.
Qed.

Lemma winv_put (w : world) (p : mptr) (m m' : manifest) :
  w_heap w !! p = Some m → m_instance m' = m_instance m → m_isValid m' = m_isValid m →
  manifest_wf m' → (m_isValid m' = true → coherent m') →
  winv w → winv (set_heap (<[p := m']> (w_heap w)) w).
Proof.
  intros Hm Ei Ev Hwf Hco [Hfin Hcnt Hseq Hown Hnext Hinst Hinj Hw Hc Hdom Hg].
  split; cbn; intros; [|done|done|..].
  - destruct (Hfin p0) as (m0 & Hm0 & Hv0); [done|]. unfold finalized. cbn.
    destruct (decide (p = p0)) as [<-|Hne]; simplify_map_eq; [|by eauto].
    exists m'. split; [done|]. congruence.
  - rewrite Hown. destruct (decide (p = p0)) as [<-|Hne].
    + rewrite lookup_insert_eq, Hm. naive_solver congruence.
    + by rewrite lookup_insert_ne.
  - destruct (decide (p = p0)) as [<-|Hne]; [by eauto|]. rewrite lookup_insert_ne in H; eauto.
  - destruct (decide (p = p0)) as [<-|Hne]; simplify_map_eq; [|by eauto].
    rewrite Ei. eauto.
  - destruct (decide (p = p0)) as [<-|], (decide (p = q)) as [<-|];
      simplify_map_eq; rewrite ?Ei in *; eauto; symmetry; eauto.
  - destruct (decide (p = p0)) as [<-|Hne]; simplify_map_eq; eauto.
  - destruct (decide (p = p0)) as [<-|Hne]; simplify_map_eq; eauto.
  - destruct (decide (p = p0)) as [<-|Hne]; simplify_map_eq; eauto.
  - done.
Qed.

Lemma winv_event (w : world) (e : event) : winv w → winv (push_event e w).
Proof. by apply winv_frame. Qed.

Lemma preserves_upd_session (f : session → session) :
  (∀ s, s_manifests (f s) = s_manifests s) → (∀ s, s_manifestCnt (f s) = s_manifestCnt s) →
  (∀ s, s_seqNum (f s) = s_seqNum s) →
  preserves winv (upd_session f).
Proof. intros H1 H2 H3 w. apply winv_frame; cbn; done. Qed.

Lemma preserves_get_manifest {A : Type} (p : mptr) (k : manifest → M world A) :
  (∀ m w, winv w → w_heap w !! p = Some m → winv (k m w).2) →
  preserves winv (m ← get_manifest p; k m).
Proof.
  intros Hk w Hw. unfold get_manifest, mbind, M_bind, get.
  destruct (w_heap w !! p) as [m|] eqn:E; cbn; [by apply Hk|done].
Qed.

Lemma preserves_just_get_manifest (I : world → Prop) (p : mptr) :
  preserves I (get_manifest p).
Proof. intros w Hw. unfold get_manifest, mbind, M_bind, get. by destruct (w_heap w !! p). Qed.

Lemma preserves_enforceValid (I : world → Prop) (p : mptr) : preserves I (enforceValid p).
Proof.
  unfold enforceValid. apply preserves_bind; [apply preserves_just_get_manifest|].
  intros m. destruct (m_isValid m); auto with cti.
Qed.

Lemma preserves_getOwningSession (I : world → Prop) : preserves I getOwningSession.
Proof. intros w Hw. unfold getOwningSession, mbind, M_bind, get. by destruct (w_session_alive w). Qed.

Lemma preserves_getOwningApp (I : world → Prop) : preserves I getOwningApp.
Proof. intros w Hw. unfold getOwningApp, mbind, M_bind, get. by destruct (w_app_alive w). Qed.

Lemma preserves_verifyOwnership (I : world → Prop) (p : mptr) : preserves I (verifyOwnership p).
Proof. intros w Hw. unfold verifyOwnership, mbind, M_bind, get_session, gets. by case_decide. Qed.

Lemma preserves_get_session (I : world → Prop) : preserves I get_session.
Proof. by intros w. Qed.
#[local] Hint Resolve preserves_just_get_manifest preserves_enforceValid
  preserves_getOwningSession preserves_getOwningApp preserves_verifyOwnership
  preserves_get_session : cti.

Ltac preserve_stop ::=
  match goal with |- preserves _ (get_manifest _ ≫= _) => idtac end.

Lemma coherent_register (m : manifest) (folder name path : string) :
  coherent m → coherent (register_file folder name path m).
Proof.
  intros Hc f files n. unfold register_file, folder_insert. cbn.
  destruct (decide (name = n)) as [->|Hn]; [by rewrite lookup_insert_eq|].
  rewrite (lookup_insert_ne (m_sourcePaths m)) by done.
  destruct (decide (folder = f)) as [->|Hf].
  - rewrite lookup_insert_eq. intros [= <-] [Hin|Hin]%elem_of_union; [set_solver|].
    destruct (m_folders m !! f) as [X|] eqn:E; cbn in Hin; [by eapply Hc|set_solver].
  - rewrite lookup_insert_ne by done. apply Hc.
Qed.

Lemma wf_register (m : manifest) (folder name path : string) :
  no_char "/" folder = true → manifest_wf m → manifest_wf (register_file folder name path m).
Proof.
  intros Hs [Hf Ho]. split; [|done]. intros f files. unfold register_file, folder_insert. cbn.
  destruct (decide (folder = f)) as [->|Hne]; [done|].
  rewrite lookup_insert_ne by done. apply Hf.
Qed.

Context `{Host} `{App} `{Tar}.

Lemma preserves_checkAndAdd (p : mptr) (folder path name : string) :
  no_char "/" folder = true → preserves winv (checkAndAdd p folder path name).
Proof.
  intros Hs. unfold checkAndAdd. preserve.
  apply preserves_get_manifest. intros m w Hw Hm. unfold put_manifest, modify.
  apply (winv_put w p m); try done.
  - apply wf_register; [done|]. by apply (inv_wf w Hw p).
  - intros Hv. apply coherent_register. by apply (inv_coh w Hw p).
Qed.

Lemma preserves_ensure_override (p : mptr) : preserves winv (ensure_override p).
Proof.
  apply preserves_get_manifest. intros m w Hw Hm.
  destruct (is_empty (m_ldLibraryOverrideFolder m)); [|done].
  apply (winv_put w p m); try done.
  - split; [exact (proj1 (inv_wf w Hw p m Hm))|]. by apply to_string_no_char.
  - intros Hv. exact (inv_coh w Hw p m Hm Hv).
Qed.

Lemma preserves_addLibrary_gen (deps : string → string → M world ()) (p : mptr)
    (name : string) (policy : DepsPolicy) :
  (∀ a b, preserves winv (deps a b)) → preserves winv (addLibrary_gen deps p name policy).
Proof.
  intros Hdeps. unfold addLibrary_gen.
  apply preserves_bind; [auto with cti|intros _].
  apply preserves_bind; [auto with cti|intros filePath].
  apply preserves_bind; [auto with cti|intros realName].
  apply preserves_bind; [auto with cti|intros _].
  apply preserves_bind; [|intros _; case_decide; preserve].
  apply preserves_try_catch; [by apply preserves_checkAndAdd|intros ex].
  case_decide; [auto with cti|].
  apply preserves_bind; [apply preserves_ensure_override|intros _].
  apply preserves_get_manifest. intros m w Hw Hm.
  apply preserves_checkAndAdd; [|done]. exact (proj2 (inv_wf w Hw p m Hm)).
Qed.

Lemma preserves_addLibDeps (p : mptr) (file audit : string) :
  preserves winv (addLibDeps p file audit).
Proof.
  unfold addLibDeps. destruct (getFileDependencies file audit); [|auto with cti].
  apply preserves_for_each. intros ??. apply preserves_addLibrary_gen. auto with cti.
Qed.
#[local] Hint Resolve preserves_addLibDeps : cti.

Lemma preserves_addLibrary (p : mptr) (name : string) (policy : DepsPolicy) :
  preserves winv (addLibrary p name policy).
Proof. apply preserves_addLibrary_gen. auto with cti. Qed.

Lemma preserves_addBinary (p : mptr) (name : string) (policy : DepsPolicy) :
  preserves winv (addBinary p name policy).
Proof.
  unfold addBinary. preserve; try (by apply preserves_checkAndAdd).
Qed.

Lemma preserves_addLibDir (p : mptr) (path : string) : preserves winv (addLibDir p path).
Proof. unfold addLibDir. preserve. by apply preserves_checkAndAdd. Qed.

Lemma preserves_addFile (p : mptr) (name : string) : preserves winv (addFile p name).
Proof. unfold addFile. preserve. by apply preserves_checkAndAdd. Qed.

Lemma winv_alloc (w : world) :
  winv w → s_manifestCnt (w_session w) ≠ int_max →
  winv (set_session (set_manifests ({[w_next w]} ∪ s_manifests (w_session w))
          (set_manifestCnt (s_manifestCnt (w_session w) + 1) (w_session w)))
       (set_heap (<[w_next w := MkManifest (s_manifestCnt (w_session w) + 1) ∅ ∅ "" true]>
          (w_heap w)) (set_next (S (w_next w)) w))).
Proof.
  intros Hw Hmax. assert (w_heap w !! w_next w = None) as Hnone.
  { destruct (w_heap w !! w_next w) as [m|] eqn:E; [|done].
    pose proof (inv_next w Hw _ _ E). lia. }
  destruct Hw as [Hfin Hcnt Hseq Hown Hnext Hinst Hinj Hwf Hco Hdom Hg].
  split; cbn; [|lia|done|..|lia];
    [intros p Hp|intros p|intros p m|intros p m|intros p q m m'|intros p m|intros p m|intros p];
    [|destruct (decide (w_next w = p)) as [<-|Hp]..].
  - destruct (Hfin p Hp) as (m & Hm & Hv). exists m. split; [|done]. cbn.
    rewrite lookup_insert_ne; [done|]. intros <-. congruence.
  - rewrite lookup_insert_eq, elem_of_union, elem_of_singleton. naive_solver.
  - rewrite lookup_insert_ne, elem_of_union, elem_of_singleton by done. rewrite <-Hown. naive_solver.
  - lia.
  - rewrite lookup_insert_ne by done. intros ?%Hnext. lia.
  - rewrite lookup_insert_eq. intros [= <-]. cbn.
    lia.
  - rewrite lookup_insert_ne by done. intros ?%Hinst. lia.
  - rewrite lookup_insert_eq. intros [= <-]. destruct (decide (w_next w = q)) as [|Hq]; [done|].
    rewrite lookup_insert_ne by done. cbn. intros ?%Hinst ?. lia.
  - rewrite (lookup_insert_ne _ _ p) by done. destruct (decide (w_next w = q)) as [<-|Hq].
    + rewrite lookup_insert_eq. intros ?%Hinst [= <-]. cbn. lia.
    + rewrite lookup_insert_ne by done. apply Hinj.
  - rewrite lookup_insert_eq. intros [= <-]. split; cbn; [|done]. intros ??. by rewrite lookup_empty.
  - rewrite lookup_insert_ne by done. apply Hwf.
  - rewrite lookup_insert_eq. intros [= <-] _ ???. cbn. by rewrite lookup_empty.
  - rewrite lookup_insert_ne by done. apply Hco.
  - rewrite lookup_insert_eq. by eexists.
  - rewrite lookup_insert_ne by done. intros ?. apply Hdom. lia.
Qed.

Lemma createManifest_run (w : world) :
  s_manifestCnt (w_session w) ≠ int_max → w_next w ∉ s_manifests (w_session w) →
  createManifest w =
    (Ok (w_next w),
     set_session (set_manifests ({[w_next w]} ∪ s_manifests (w_session w))
          (set_manifestCnt (s_manifestCnt (w_session w) + 1) (w_session w)))
       (set_heap (<[w_next w := MkManifest (s_manifestCnt (w_session w) + 1) ∅ ∅ "" true]>
          (w_heap w)) (set_next (S (w_next w)) w))).
Proof.
  intros Hm Hn. unfold createManifest.
  rewrite (bind_run_Ok nextManifestCount _ _ tt
    (set_session (set_manifestCnt (s_manifestCnt (w_session w) + 1) (w_session w)) w)).
  - unfold mbind, M_bind. cbn. by rewrite decide_False.
  - unfold nextManifestCount, int_succ, mbind, M_bind, get_session, gets.
    by rewrite decide_False.
Qed.

Lemma createManifest_overflow (w : world) :
  s_manifestCnt (w_session w) = int_max → createManifest w = (Undef "signed overflow", w).
Proof.
  intros Hm. apply bind_run_Undef.
  unfold nextManifestCount, int_succ, mbind, M_bind, get_session, gets. by rewrite decide_True.
Qed.

Lemma winv_next_fresh (w : world) : winv w → w_next w ∉ s_manifests (w_session w).
Proof.
  intros Hw (m & Hm & _)%(inv_owned w Hw). pose proof (inv_next w Hw _ _ Hm). lia.
Qed.

Lemma preserves_createManifest : preserves winv createManifest.
Proof.
  intros w Hw. destruct (decide (s_manifestCnt (w_session w) = int_max)) as [Hm|Hm].
  - by rewrite createManifest_overflow.
  - rewrite createManifest_run by (done || by apply winv_next_fresh). by apply winv_alloc.
Qed.

Lemma winv_remove (w : world) (p : mptr) (m : manifest) :
  winv w → w_heap w !! p = Some m →
  winv (set_session (set_manifests (s_manifests (w_session w) ∖ {[p]}) (w_session w))
          (set_heap (<[p := manifest_finalize m]> (w_heap w)) w)).
Proof.
  intros [Hfin Hcnt Hseq Hown Hnext Hinst Hinj Hwf Hco Hdom Hg] Hm.
  split; cbn; [|done|done|..|done]; intros q; [|destruct (decide (p = q)) as [<-|Hq]..].
  - intros (m0 & Hm0 & Hv)%Hfin. unfold finalized. cbn. destruct (decide (p = q)) as [<-|Hq].
    + exists (manifest_finalize m). by rewrite lookup_insert_eq.
    + exists m0. by rewrite lookup_insert_ne.
  - rewrite lookup_insert_eq. set_solver.
  - rewrite lookup_insert_ne by done. rewrite <-Hown. set_solver.
  - intros ? _. by eapply Hnext.
  - rewrite lookup_insert_ne by done. apply Hnext.
  - rewrite lookup_insert_eq. intros ? [= <-]. exact (Hinst p m Hm).
  - rewrite lookup_insert_ne by done. apply Hinst.
  - intros q m1 m2. rewrite lookup_insert_eq. intros [= <-]. cbn.
    destruct (decide (p = q)) as [|Hq]; [done|]. rewrite lookup_insert_ne by done.
    intros. by eapply Hinj.
  - intros r m1 m2. rewrite (lookup_insert_ne _ _ q) by done.
    destruct (decide (p = r)) as [<-|Hr].
    + rewrite lookup_insert_eq. intros ? [= <-]. cbn. intros. by eapply Hinj.
    + rewrite lookup_insert_ne by done. apply Hinj.
  - rewrite lookup_insert_eq. intros ? [= <-]. by apply (Hwf p m).
  - rewrite lookup_insert_ne by done. apply Hwf.
  - rewrite lookup_insert_eq. by intros ? [= <-].
  - rewrite lookup_insert_ne by done. apply Hco.
  - rewrite lookup_insert_eq. by eexists.
  - rewrite lookup_insert_ne by done. apply Hdom.
Qed.

Lemma get_manifest_run (w : world) (p : mptr) (m : manifest) :
  w_heap w !! p = Some m → get_manifest p w = (Ok m, w).
Proof. intros Hm. unfold get_manifest, mbind, M_bind, get. by rewrite Hm. Qed.

Lemma verifyOwnership_run (w : world) (p : mptr) :
  p ∈ s_manifests (w_session w) → verifyOwnership p w = (Ok tt, w).
Proof.
  intros Hp. unfold verifyOwnership, mbind, M_bind, get_session, gets. by rewrite decide_True.
Qed.

Lemma verifyOwnership_throw (w : world) (p : mptr) :
  p ∉ s_manifests (w_session w) →
  verifyOwnership p w = (Throw "manifest not owned by session", w).
Proof.
  intros Hp. unfold verifyOwnership, mbind, M_bind, get_session, gets. by rewrite decide_False.
Qed.

(** The world after [removeManifest p]. *)
Definition removed (p : mptr) (m : manifest) (w : world) : world :=
  set_session (set_manifests (s_manifests (w_session w) ∖ {[p]}) (w_session w))
    (set_heap (<[p := manifest_finalize m]> (w_heap w)) w).

Lemma removeManifest_owned (w : world) (p : mptr) (m : manifest) :
  p ∈ s_manifests (w_session w) → w_heap w !! p = Some m →
  removeManifest p w = (Ok tt, removed p m w).
Proof.
  intros Hp Hm. unfold removeManifest.
  rewrite (bind_run_Ok _ _ _ tt w) by by apply verifyOwnership_run.
  by rewrite (bind_run_Ok _ _ _ m w) by by apply get_manifest_run.
Qed.

Lemma removeManifest_run (w w' : world) (p : mptr) (r : res ()) :
  removeManifest p w = (r, w') → winv w →
  (r = Ok tt ∧ p ∈ s_manifests (w_session w) ∧
   (∃ m, w_heap w !! p = Some m ∧ w' = removed p m w)) ∨
  (r = Throw "manifest not owned by session" ∧ (p ∉ s_manifests (w_session w)) ∧ w' = w).
Proof.
  intros E Hw. destruct (decide (p ∈ s_manifests (w_session w))) as [Hp|Hp].
  - apply (inv_owned w Hw) in Hp as Hm. destruct Hm as (m & Hm & _).
    rewrite (removeManifest_owned w p m) in E by done. simplify_eq. left. eauto.
  - unfold removeManifest in E.
    rewrite (bind_run_Throw _ _ _ _ w (verifyOwnership_throw w p Hp)) in E.
    simplify_eq. by right.
Qed.

Lemma preserves_removeManifest (p : mptr) : preserves winv (removeManifest p).
Proof.
  intros w Hw. destruct (removeManifest p w) as [r w'] eqn:E.
  destruct (removeManifest_run w w' p r E Hw) as [(_ & _ & m & Hm & ->)|(_ & _ & ->)].
  - by apply winv_remove.
  - done.
Qed.
#[local] Hint Resolve preserves_addLibrary preserves_addBinary preserves_addLibDir
  preserves_addFile preserves_createManifest preserves_removeManifest : cti.

(** Code that changes only the session's bookkeeping, never a manifest, the set of
    manifests or their counter. *)
Definition session_only (w0 w : world) : Prop :=
  w_heap w = w_heap w0 ∧ w_next w = w_next w0 ∧
  s_manifests (w_session w) = s_manifests (w_session w0) ∧
  s_manifestCnt (w_session w) = s_manifestCnt (w_session w0) ∧
  s_seqNum (w_session w) = s_seqNum (w_session w0).

Lemma winv_session_only (w0 w : world) : session_only w0 w → winv w0 → winv w.
Proof. intros (?&?&?&?&?). by apply winv_frame. Qed.

Lemma session_only_upd (w0 : world) (f : session → session) :
  (∀ s, s_manifests (f s) = s_manifests s) → (∀ s, s_manifestCnt (f s) = s_manifestCnt s) →
  (∀ s, s_seqNum (f s) = s_seqNum s) →
  preserves (session_only w0) (upd_session f).
Proof. intros Hf Hg Hk w (?&?&?&?&?). unfold session_only. cbn. by rewrite Hf, Hg, Hk. Qed.

Lemma session_only_push (w0 : world) (e : event) :
  preserves (session_only w0) (modify (push_event e)).
Proof. by intros w (?&?&?&?&?). Qed.

Lemma session_only_merge_file (w0 : world) (paths : gmap string string) (d f : string) :
  preserves (session_only w0) (merge_file paths d f).
Proof.
  unfold merge_file. preserve; by apply session_only_upd.
Qed.

Lemma session_only_mergeTransfered (w0 : world) folders paths :
  preserves (session_only w0) (mergeTransfered folders paths).
Proof.
  unfold mergeTransfered. induction (folder_files folders) as [|[d f] l IH]; cbn.
  { auto with cti. }
  apply preserves_bind; [apply session_only_merge_file|intros r1].
  apply preserves_bind; [done|]. auto with cti.
Qed.

Lemma session_only_find_duplicates (w0 : world) sources :
  preserves (session_only w0) (find_duplicates sources).
Proof.
  unfold find_duplicates. case_match; [auto with cti|].
  apply preserves_try_catch; [|auto with cti]. apply preserves_bind; auto with cti.
Qed.

Lemma session_only_ship (w0 : world) (tarPath : string) (run : M archive string) :
  preserves (session_only w0) (ship_archive tarPath run).
Proof.
  unfold ship_archive. destruct (run (open_archive tarPath)) as [r a].
  preserve; apply session_only_push.
Qed.

Lemma session_only_startDaemon (w0 : world) (v : argv) (b : bool) :
  preserves (session_only w0) (startDaemon v b).
Proof. unfold startDaemon. preserve; apply session_only_push. Qed.

Lemma preserves_session_only {A : Type} (m : M world A) :
  (∀ w0, preserves (session_only w0) m) → preserves winv m.
Proof. intros Hm w Hw. eapply winv_session_only; [|exact Hw]. by apply Hm. Qed.

Lemma preserves_finalized_session_only {A : Type} (p : mptr) (m : M world A) :
  (∀ w0, preserves (session_only w0) m) → preserves (λ w, winv w ∧ finalized p w) m.
Proof.
  intros Hm w [Hw (x & Hx & Hv)]. assert (session_only w (m w).2) as Hs by by apply Hm.
  split; [by eapply winv_session_only|]. destruct Hs as (E & _). exists x. by rewrite E.
Qed.

Lemma wf_remove_pairs (l : list (string * string)) (m : manifest) :
  manifest_wf m → (∀ d f, (d, f) ∈ l → no_char "/" d = true) →
  manifest_wf (remove_pairs l m).
Proof.
  unfold remove_pairs. revert m. induction l as [|[d f] l IH]; intros m [Hf Ho] Hl; [done|].
  cbn. apply IH; [|intros d' f' ?; eapply Hl; by right].
  split; [|done]. intros g files. cbn. destruct (decide (d = g)) as [<-|Hne].
  - intros _. eapply Hl. by left.
  - rewrite lookup_insert_ne by done. apply Hf.
Qed.

Lemma remove_pairs_frame (l : list (string * string)) (m : manifest) :
  m_instance (remove_pairs l m) = m_instance m ∧
  m_isValid (remove_pairs l m) = m_isValid m ∧
  m_ldLibraryOverrideFolder (remove_pairs l m) = m_ldLibraryOverrideFolder m.
Proof.
  unfold remove_pairs. revert m. induction l as [|[d f] l IH]; intros m; [done|].
  cbn [foldl]. by destruct (IH (remove_pair (d, f) m)) as (-> & -> & ->).
Qed.

Lemma elem_of_folder_files (folders : gmap string (gset string)) (d f : string) :
  (d, f) ∈ folder_files folders ↔ ∃ files, folders !! d = Some files ∧ f ∈ files.
Proof.
  unfold folder_files. rewrite list_elem_of_In, in_flat_map.
  split.
  - intros (d' & Hd & Hin). rewrite <-list_elem_of_In, elem_of_sorted_keys in Hd.
    apply in_map_iff in Hin as (f' & [= -> ->] & Hf).
    rewrite <-list_elem_of_In, elem_of_sorted_elements in Hf.
    destruct Hd as [files Hd]. exists files. by rewrite Hd in Hf.
  - intros (files & Hd & Hf). exists d. split.
    + rewrite <-list_elem_of_In, elem_of_sorted_keys. by exists files.
    + apply in_map_iff. exists f. split; [done|].
      rewrite <-list_elem_of_In, elem_of_sorted_elements, Hd. done.
Qed.

Lemma merge_file_removes (paths : gmap string string) (d f : string) (w w' : world) l :
  merge_file paths d f w = (Ok l, w') → l = [] ∨ l = [(d, f)].
Proof.
  unfold merge_file. intros E. minv. case_match; minv; [case_match; minv; by right|by left].
Qed.

Lemma merge_files_removes (paths : gmap string string) (l r : list (string * string))
    (w w' : world) :
  merge_files paths l w = (Ok r, w') → ∀ x, x ∈ r → x ∈ l.
Proof.
  revert r w. induction l as [|[d f] l IH]; intros r w E x; cbn in E; minv.
  intros [Hx|Hx]%elem_of_app; [|right; by eapply IH].
  eapply merge_file_removes in H2 as [->| ->].
  - by apply not_elem_of_nil in Hx.
  - apply list_elem_of_singleton in Hx as ->. by left.
Qed.

Lemma winv_put_finalized (w : world) (p : mptr) (m m' : manifest) :
  winv w → w_heap w !! p = Some m → m_isValid m = false → m_instance m' = m_instance m →
  m_isValid m' = false → manifest_wf m' →
  let w' := set_heap (<[p := m']> (w_heap w)) w in winv w' ∧ finalized p w'.
Proof.
  intros Hw Hm Hv Hi Hv' Hwf. split.
  - eapply winv_put; try done; [congruence|]. intros ?. congruence.
  - exists m'. split; [|done]. cbn. by rewrite lookup_insert_eq.
Qed.

Lemma preserves_merge_manifest (p : mptr) :
  preserves (λ w, winv w ∧ finalized p w) (merge_manifest p).
Proof.
  intros w [Hw (m & Hm & Hv)]. unfold merge_manifest.
  rewrite (bind_run_Ok _ _ _ m w) by by apply get_manifest_run.
  pose proof (session_only_mergeTransfered w (m_folders m) (m_sourcePaths m) w
    ltac:(by repeat split)) as Hs.
  destruct (mergeTransfered (m_folders m) (m_sourcePaths m) w) as [r w1] eqn:E. cbn in Hs.
  assert (winv w1) as Hw1 by by eapply winv_session_only.
  assert (w_heap w1 !! p = Some m) as Hm1 by by rewrite (proj1 Hs).
  destruct r as [l|e|e];
    [|by rewrite (bind_run_Throw _ _ _ _ _ E); split; [|exists m]
     |by rewrite (bind_run_Undef _ _ _ _ _ E); split; [|exists m]].
  rewrite (bind_run_Ok _ _ _ _ _ E).
  destruct (remove_pairs_frame l m) as (Ei & Ev & _).
  assert (manifest_wf (remove_pairs l m)) as Hwf.
  { apply wf_remove_pairs; [by eapply inv_wf|]. intros d f Hd.
    eapply merge_files_removes, elem_of_folder_files in Hd as (files & Hd & _); [|exact E].
    by eapply (proj1 (inv_wf w Hw p m Hm)). }
  rewrite (bind_run_Ok _ _ _ tt (set_heap (<[p := remove_pairs l m]> (w_heap w1)) w1)) by done.
  eapply (preserves_finalized_session_only p); [|eapply winv_put_finalized; eauto; congruence].
  intros w0. preserve; by apply session_only_upd.
Qed.

Lemma preserves_ship_tail (p : mptr) (sess : session) (archiveName tarPath : string) :
  preserves (λ w, winv w ∧ finalized p w)
    (m ← merge_manifest p;
     duplicates ← find_duplicates (m_sourcePaths m);
     ship_archive tarPath
       (fill_archive (s_stageName sess) (m_folders m) (m_sourcePaths m) duplicates;;
        finalize (tar_on_disk tarPath));;
     mret archiveName).
Proof.
  apply preserves_bind; [apply preserves_merge_manifest|intros m].
  apply preserves_finalized_session_only. intros w0.
  apply preserves_bind; [apply session_only_find_duplicates|intros dup].
  apply preserves_bind; [apply session_only_ship|intros _]. auto with cti.
Qed.

Lemma preserves_add_requirements (p : mptr) : preserves winv (add_requirements p).
Proof.
  unfold add_requirements. preserve; by apply preserves_upd_session.
Qed.
#[local] Hint Resolve preserves_add_requirements : cti.

Lemma removed_finalized (p : mptr) (m : manifest) (w : world) : finalized p (removed p m w).
Proof. exists (manifest_finalize m). split; [|done]. cbn. by rewrite lookup_insert_eq. Qed.

Lemma preserves_shipManifest (p : mptr) : preserves winv (shipManifest p).
Proof.
  unfold shipManifest.
  apply preserves_bind; [auto with cti|intros _].
  apply preserves_bind; [auto with cti|intros _]. intros w Hw.
  destruct (removeManifest p w) as [r w1] eqn:E.
  destruct (removeManifest_run w w1 p r E Hw) as [(-> & _ & m & Hm & ->)|(-> & _ & ->)].
  - rewrite (bind_run_Ok _ _ _ _ _ E).
    rewrite (bind_run_Ok _ _ _ (manifest_finalize m) (removed p m w))
      by (apply get_manifest_run; cbn; by rewrite lookup_insert_eq).
    rewrite (bind_run_Ok _ _ _ (w_session (removed p m w)) (removed p m w)) by done.
    apply (preserves_ship_tail p). split; [by apply winv_remove|apply removed_finalized].
  - by rewrite (bind_run_Throw _ _ _ _ _ E).
Qed.
#[local] Hint Resolve preserves_shipManifest : cti.

Lemma preserves_startDaemon (v : argv) (b : bool) : preserves winv (startDaemon v b).
Proof. apply preserves_session_only. intros w0. apply session_only_startDaemon. Qed.
#[local] Hint Resolve preserves_startDaemon : cti.

Lemma preserves_next_seqNum : preserves winv next_seqNum.
Proof.
  intros w Hw. unfold next_seqNum, int_succ, mbind, M_bind, get_session, gets.
  case_decide as Hm; [done|]. pose proof (inv_seq w Hw).
  destruct Hw as [? ? ? ? ? ? ? ? ? ? ?]. split; try done. cbn. lia.
Qed.
#[local] Hint Resolve preserves_next_seqNum : cti.

Lemma preserves_sendManifest (p : mptr) : preserves winv (sendManifest p).
Proof. unfold sendManifest. preserve. apply preserves_bind; [|intros ?]; preserve. Qed.

Lemma preserves_execManifest (p : mptr) (d : string) (args env : option (list string)) :
  preserves winv (execManifest p d args env).
Proof. unfold execManifest. preserve. apply preserves_bind; [|intros ?]; preserve. Qed.

Lemma preserves_session_finalize : preserves winv session_finalize.
Proof. unfold session_finalize. preserve. Qed.
#[local] Hint Resolve preserves_sendManifest preserves_execManifest
  preserves_session_finalize : cti.

Lemma preserves_run_call (c : call) : preserves winv (run_call c).
Proof. destruct c; cbn; unfold discard; preserve. Qed.

Lemma winv_new_world (random : nat → Z) : winv_of ∅ 0 (new_world random).
Proof.
  split; cbn; [by intros ? ?%elem_of_empty|done|done|..|lia]; intros; rewrite ?lookup_empty in *; try done; [|lia].
  split; [by intros ?%elem_of_empty|]. intros (m & Hm & _). discriminate Hm.
Qed.
End Preservation.

Section Theorems.
Context `{Host} `{App} `{Tar}.

Lemma winv_rtc (F : gset mptr) (N : nat) (w w' : world) :
  rtc step w w' → winv_of F N w → winv_of F N w'.
Proof.
  induction 1 as [|w w1 w' [c w0] _ IH]; [done|]. intros Hw. apply IH.
  by apply preserves_run_call.
Qed.

Lemma winv_reachable (random : nat → Z) (w : world) :
  rtc step (new_world random) w → winv_of ∅ 0 w.
Proof. intros Hr. by eapply winv_rtc, winv_new_world. Qed.

(** A manifest known to be finalized joins the set of the invariant. *)
Lemma winv_grow (F : gset mptr) (N : nat) (w : world) (p : mptr) :
  winv_of F N w → finalized p w → winv_of ({[p]} ∪ F) N w.
Proof.
  intros Hw Hp. split; [|apply Hw..].
  intros q [->%elem_of_singleton|Hq]%elem_of_union; [done|by apply (inv_fin w Hw)].
Qed.

Lemma finalized_not_owned (F : gset mptr) (N : nat) (w : world) (p : mptr) :
  winv_of F N w → finalized p w → p ∉ s_manifests (w_session w).
Proof. intros Hw (m & Hm & Hv) (m' & Hm' & Hv')%(inv_owned w Hw). congruence. Qed.

(** What a world keeps through any operation: manifests are made anew, and one that
    is not owned any more never is again. *)
Record world_le (w w' : world) : Prop := WorldLe {
  wle_next : (w_next w ≤ w_next w')%nat;
  wle_dead : ∀ m, (m < w_next w)%nat → m ∉ s_manifests (w_session w) →
    m ∉ s_manifests (w_session w')
}.

#[export] Instance world_le_preorder : PreOrder world_le.
Proof.
  split; [by split|]. intros w1 w2 w3 [Hn Hd] [Hn' Hd'].
  split; [lia|]. intros m Hm Hx. apply Hd'; [lia|]. by apply Hd.
Qed.

Lemma world_le_preserves {A : Type} (op : M world A) (w : world) :
  (∀ F N, preserves (winv_of F N) op) → winv_of ∅ 0 w →
  winv_of ∅ 0 (op w).2 ∧ world_le w (op w).2.
Proof.
  intros Hop Hw. split; [by apply Hop|]. split.
  - apply (inv_grow (F := ∅) (N := w_next w)), Hop.
    split; [apply Hw..|done].
  - intros m Hm Hd. destruct (inv_dom w Hw m Hm) as [x Hx].
    assert (finalized m w) as Hf.
    { exists x. split; [done|]. destruct (m_isValid x) eqn:E; [|done].
      exfalso. apply Hd, (inv_owned w Hw). by exists x. }
    eapply finalized_not_owned; [apply Hop, (winv_grow _ _ _ m Hw Hf)|].
    apply (inv_fin (F := {[m]} ∪ ∅) (N := 0%nat)); [apply Hop; by apply winv_grow|set_solver].
Qed.

Lemma enforceValid_finalized (w : world) (p : mptr) :
  finalized p w →
  enforceValid p w = (Throw "Attempted to modify previously shipped manifest!", w).
Proof.
  intros (m & Hm & Hv). unfold enforceValid.
  rewrite (bind_run_Ok _ _ _ m w) by by apply get_manifest_run. by rewrite Hv.
Qed.

(** A manifest that was sent, or was found empty, is finalized. *)
Lemma shipManifest_finalizes (F : gset mptr) (N : nat) (w w' : world) (p : mptr) (name : string) :
  winv_of F N w → shipManifest p w = (Ok name, w') → finalized p w'.
Proof.
  intros Hw E. unfold shipManifest in E.
  apply bind_Ok in E as (u1 & w1 & E1 & E). apply bind_Ok in E as (u2 & w2 & E2 & E).
  apply bind_Ok in E as (u3 & w3 & E3 & E). apply bind_Ok in E as (m0 & w4 & E4 & E).
  apply bind_Ok in E as (sess & w5 & E5 & E).
  assert (winv_of F N w1) as Hw1
    by (eapply preserves_Ok; [apply preserves_getOwningApp|exact E1|done]).
  assert (winv_of F N w2) as Hw2
    by (eapply preserves_Ok; [apply preserves_add_requirements|exact E2|done]).
  destruct (removeManifest_run F N w2 w3 p _ E3 Hw2) as [(_ & _ & m & Hm & ->)|(? & _)]; [|done].
  rewrite (get_manifest_run _ p (manifest_finalize m)) in E4
    by (cbn; by rewrite lookup_insert_eq). injection E4 as <- <-.
  injection E5 as <- <-. cbv zeta in E.
  refine (proj2 (preserves_Ok _ _ _ _ _ (preserves_ship_tail F N p _ _ _) E _)).
  split; [by apply winv_remove|apply removed_finalized].
Qed.

Lemma startDaemon_frame (v : argv) (b : bool) (w w' : world) :
  startDaemon v b w = (Ok tt, w') → w_heap w' = w_heap w.
Proof.
  intros E. pose proof (session_only_startDaemon w v b w ltac:(by repeat split)) as Hs.
  rewrite E in Hs. exact (proj1 Hs).
Qed.

Lemma next_seqNum_frame (w w' : world) : next_seqNum w = (Ok tt, w') → w_heap w' = w_heap w.
Proof.
  unfold next_seqNum, int_succ, mbind, M_bind, get_session, gets. case_decide; [done|].
  by intros [= <-].
Qed.

Lemma sendManifest_finalizes (F : gset mptr) (N : nat) (w w' : world) (p : mptr) :
  winv_of F N w → sendManifest p w = (Ok tt, w') → finalized p w'.
Proof.
  intros Hw E. unfold sendManifest in E.
  apply bind_Ok in E as (u1 & w1 & E1 & E).
  assert (winv_of F N w1) as Hw1
    by (eapply preserves_Ok; [apply preserves_verifyOwnership|exact E1|done]).
  apply bind_Ok in E as (m & w2 & E2 & E).
  assert (winv_of F N w2) as Hw2
    by (eapply preserves_Ok; [apply preserves_just_get_manifest|exact E2|done]).
  destruct (manifest_empty m).
  - destruct (removeManifest_run F N w2 w' p _ E Hw2) as [(_ & _ & m' & Hm & ->)|(? & _)]; [|done].
    apply removed_finalized.
  - apply bind_Ok in E as (u3 & w3 & E3 & E). apply bind_Ok in E as (name & w4 & E4 & E).
    apply bind_Ok in E as (sess & w5 & E5 & E). apply bind_Ok in E as (v & w6 & E6 & E).
    apply bind_Ok in E as ([] & w7 & E7 & E).
    assert (winv_of F N w3) as Hw3
      by (eapply preserves_Ok; [apply preserves_getOwningApp|exact E3|done]).
    destruct (shipManifest_finalizes F N w3 w4 p name Hw3 E4) as (mf & Hmf & Hv).
    injection E5 as <- <-. injection E6 as _ <-. apply startDaemon_frame in E7.
    apply next_seqNum_frame in E. exists mf. split; [|done]. by rewrite E, E7.
Qed.

(** C2 Invariant of the transfer layer.  Whatever calls a client makes on a
    session, and whichever of them throw, the session owns exactly the manifests
    that are still valid, manifests carry distinct instance numbers between 1 and
    the session's counter, which like the counter of daemons stays within an [int]
    (the call that would take it further is undefined), folder names hold no slash,
    and every file name listed by a valid manifest has a source path. *)
Theorem reachable_invariant (random : nat → Z) (w : world) :
  rtc step (new_world random) w → winv_of ∅ 0 w.
Proof. apply winv_reachable. Qed.

(** In every reachable world two different manifests are shipped under
    different archive names: a package never overwrites another of its session. *)
Theorem archive_names_distinct (random : nat → Z) (w : world) (p q : mptr) (m m' : manifest) :
  rtc step (new_world random) w →
  w_heap w !! p = Some m → w_heap w !! q = Some m' → p ≠ q →
  archive_name (s_stageName (w_session w)) (m_instance m) ≠
  archive_name (s_stageName (w_session w)) (m_instance m').
Proof.
  intros Hr Hp Hq Hne E. apply winv_reachable in Hr. apply Hne.
  eapply (inv_inst_inj w Hr); [done..|]. unfold archive_name in E.
  apply string_app_inj_l, string_app_inj_r in E. by apply to_string_inj.
Qed.

(** C10 A manifest is shipped at most once.  After [sendManifest] has returned for
    a manifest, whatever calls follow: sending or executing it again throws, every
    addition to it throws, and none of these changes anything. *)
Theorem shipped_once (random : nat → Z) (w w1 w' : world) (p : mptr) :
  rtc step (new_world random) w → sendManifest p w = (Ok tt, w1) → rtc step w1 w' →
  sendManifest p w' = (Throw "manifest not owned by session", w') ∧
  (∀ daemon args env, execManifest p daemon args env w'
     = (Throw "manifest not owned by session", w')) ∧
  (∀ c, c ∈ [AddBinary p; AddLibrary p; AddLibDir p; AddFile p] → ∀ name,
     run_call (c name) w' = (Throw "Attempted to modify previously shipped manifest!", w')).
Proof.
  intros Hr E Hr'. apply winv_reachable in Hr.
  pose proof (sendManifest_finalizes _ _ _ _ _ Hr E) as Hf.
  pose proof (preserves_Ok _ _ _ _ _ (preserves_sendManifest ∅ 0 p) E Hr) as Hw1.
  pose proof (winv_rtc _ _ _ _ Hr' (winv_grow _ _ _ _ Hw1 Hf)) as Hw'.
  assert (finalized p w') as Hf' by (apply (inv_fin w' Hw'); set_solver).
  pose proof (finalized_not_owned _ _ _ _ Hw' Hf') as Hn.
  pose proof (verifyOwnership_throw _ _ Hn) as Ht.
  pose proof (enforceValid_finalized _ _ Hf') as Hv.
  split_and!.
  - unfold sendManifest. by rewrite (bind_run_Throw _ _ _ _ _ Ht).
  - intros. unfold execManifest. by rewrite (bind_run_Throw _ _ _ _ _ Ht).
  - intros c Hc name. repeat (apply elem_of_cons in Hc as [->|Hc]); [..|by apply elem_of_nil in Hc];
      cbn; [unfold addBinary|unfold addLibrary, addLibrary_gen|unfold addLibDir|unfold addFile];
      by rewrite (bind_run_Throw _ _ _ _ _ Hv).
Qed.
End Theorems.

(** ** Witnesses *)

Lemma rtc_calls `{Host} `{App} `{Tar} (l : list call) (w : world) :
  rtc step w (foldl (λ w c, (run_call c w).2) w l).
Proof.
  revert w. induction l as [|c l IH]; intros w; [done|]. cbn.
  eapply rtc_l; [apply step_call|apply IH].
Qed.

Lemma run_Ok {S A : Type} (m : M S A) (s : S) (a : A) :
  (m s).1 = Ok a → m s = (Ok a, (m s).2).
Proof. intros <-. by destruct (m s). Qed.

(** Two manifests; the first gets a binary with its library, then a missing file. *)
Definition demo_calls : list call :=
  [CreateManifest; CreateManifest; AddBinary 0 "tool"; AddFile 1 "/nowhere"].

Definition demo_world : world := foldl (λ w c, (run_call c w).2) (new_world (λ _, 0)) demo_calls.

Lemma reachable_invariant_witness :
  rtc step (new_world (λ _, 0)) demo_world ∧ winv_of ∅ 0 demo_world.
Proof.
  split; [apply rtc_calls|].
  exact (reachable_invariant (λ _, 0) demo_world (rtc_calls _ _)).
Defined.

Lemma archive_names_distinct_witness :
  archive_name (s_stageName (w_session demo_world)) 1 ≠
  archive_name (s_stageName (w_session demo_world)) 2.
Proof.
  set (m := default (MkManifest 0 ∅ ∅ "" true) (w_heap demo_world !! 0%nat)).
  set (m' := default (MkManifest 0 ∅ ∅ "" true) (w_heap demo_world !! 1%nat)).
  exact (archive_names_distinct (λ _, 0) demo_world 0 1 m m' (rtc_calls _ _)
    ltac:(vm_compute; reflexivity) ltac:(vm_compute; reflexivity) ltac:(done)).
Defined.

Definition demo_sent : world := (sendManifest 0 demo_world).2.

Definition demo_after : world :=
  foldl (λ w c, (run_call c w).2) demo_sent [CreateManifest; SendManifest 1].

Lemma demo_sent_run : sendManifest 0 demo_world = (Ok tt, demo_sent).
Proof.
  refine (run_Ok (sendManifest 0) demo_world tt _). vm_compute. reflexivity.
Qed.

Lemma shipped_once_witness :
  length (w_events demo_sent) = 2%nat ∧
  sendManifest 0 demo_after = (Throw "manifest not owned by session", demo_after).
Proof.
  split; [vm_compute; reflexivity|].
  exact (proj1 (shipped_once (λ _, 0) demo_world demo_sent demo_after 0 (rtc_calls _ _)
    demo_sent_run (rtc_calls _ _))).
Defined.
