(* ===== verification/Delivery.v ===== *)
(** * Delivery of shipped files

    What a session records as present on the compute nodes is in a package that
    was shipped, under the conditions that make this true, and the ways in which
    it fails without them. *)

From S2P Require Import Prelude Host Argv Archive Manifest Session Transfer.

(** ** Specification *)

(** Some shipped package holds an entry for [path] of the staging directory. *)
Definition delivered (w : world) (path : string) : Prop :=
  ∃ tarPath entries, EvShip tarPath entries ∈ w_events w ∧
    s_stageName (w_session w) +:+ "/" +:+ path ∈ map entry_path entries.

(** Every file the session records as shipped was delivered. *)
Definition recorded_delivered (w : world) : Prop :=
  ∀ path src, s_sourcePaths (w_session w) !! path = Some src → delivered w path.

(** No file name occurs in two folders of the manifest. *)
Definition names_disjoint (m : manifest) : Prop :=
  ∀ d d' X X' f, m_folders m !! d = Some X → m_folders m !! d' = Some X' →
    f ∈ X → f ∈ X' → d = d'.

(** libarchive never answers ARCHIVE_FAILED to a header. *)
Definition headers_written `{Tar} : Prop :=
  ∀ tarPath, ARCHIVE_FAILED ∉ tar_header_rcs tarPath.

(** ** Entries of an archive are never lost *)

Definition holds (q : string) (a : archive) : Prop := q ∈ map entry_path (a_entries a).

Definition no_failed (a : archive) : Prop := ARCHIVE_FAILED ∉ a_header_rcs a.

Lemma map_on_last (f : entry → entry) (l : list entry) :
  (∀ e, entry_path (f e) = entry_path e) → map entry_path (on_last f l) = map entry_path l.
Proof.
  intros Hf. induction l as [|a [|b l] IH]; [done|cbn; by rewrite Hf|].
  cbn in *. by rewrite IH.
Qed.

Lemma append_data_path (d : list byte) (e : entry) : entry_path (append_data d e) = entry_path e.
Proof. by destruct e. Qed.

Lemma write_retry_suffix (rcs : list archive_rc) (rc : archive_rc) :
  rc ∈ (write_retry rcs).2 → rc ∈ rcs.
Proof. induction rcs as [|[] rcs IH]; cbn; intros ?; [done|..]; right; auto. Qed.

Lemma write_retry_failed (rcs : list archive_rc) :
  (write_retry rcs).1 = ARCHIVE_FAILED → ARCHIVE_FAILED ∈ rcs.
Proof. induction rcs as [|[] rcs IH]; cbn; intros ?; try done; [right; auto|by left]. Qed.

Section Preserved.
Context (I : archive → Prop).
(** [I] only depends on the names of the entries and the scripted answers, and
    survives new entries and answers consumed. *)
Hypothesis I_grow : ∀ a a', I a →
  (∀ q, holds q a → holds q a') →
  (∀ rc, rc ∈ a_header_rcs a' → rc ∈ a_header_rcs a) → I a'.

Lemma keep_freshEntry : preserves I freshEntry.
Proof. intros a Ha. unfold freshEntry, mbind, M_bind, get. by destruct (a_open a). Qed.

Lemma keep_header (e : entry) : preserves I (archiveWriteRetry e).
Proof.
  intros a Ha. unfold archiveWriteRetry, mbind, M_bind, get, modify.
  pose proof (write_retry_suffix (a_header_rcs a)) as Hs.
  destruct (write_retry (a_header_rcs a)) as [rc rcs]. cbn in Hs.
  destruct rc; cbn; (eapply I_grow; [exact Ha| |]);
    try (intros; cbn in *; by eauto);
    (intros q Hq; unfold holds in *; cbn; rewrite ?map_app, ?elem_of_app; by auto).
Qed.

Lemma keep_write_data (off n : nat) : preserves I (write_data off n).
Proof.
  intros a Ha. unfold write_data, mbind, M_bind, get, modify. case_decide; [|done].
  eapply I_grow; [exact Ha| |done]. intros q. unfold holds. cbn.
  rewrite map_on_last; [done|]. intros e. apply append_data_path.
Qed.

Lemma keep_modify (f : archive → archive) :
  (∀ a, a_entries (f a) = a_entries a ∧ a_header_rcs (f a) = a_header_rcs a) →
  preserves I (modify f).
Proof.
  intros Hf a Ha. destruct (Hf a) as [He Hh].
  eapply I_grow; [exact Ha| |by rewrite <-Hh]. intros q. unfold holds. cbn. by rewrite He.
Qed.

Lemma keep_write_block (rcs : list Z) (off n : nat) : preserves I (write_block rcs off n).
Proof.
  revert off. induction rcs as [|rc rcs IH]; intros off; cbn; case_decide;
    [by apply keep_modify| |by apply keep_modify|].
  - apply preserves_bind; [by apply keep_modify|intros _; apply keep_write_data].
  - case_decide.
    + apply preserves_bind; [by apply keep_modify|intros _; apply preserves_throw].
    + apply preserves_bind; [apply keep_write_data|intros _; apply IH].
Qed.

Section WithHost.
Context `{Host}.

Lemma keep_addFile (ep path : string) : preserves I (Archive.addFile ep path).
Proof.
  unfold Archive.addFile. destruct (os_read path) as [blocks|]; [|auto with cti].
  apply preserves_for_each. intros [b|] _; [|auto with cti].
  apply preserves_bind; [by apply keep_modify|intros _].
  intros a Ha. by apply keep_write_block.
Qed.

Lemma keep_addDirEntry (ep : string) : preserves I (addDirEntry ep).
Proof. apply preserves_bind; [apply keep_freshEntry|intros _; apply keep_header]. Qed.

Lemma keep_addLink (ep dest : string) : preserves I (addLink ep dest).
Proof. apply preserves_bind; [apply keep_freshEntry|intros _; apply keep_header]. Qed.
#[local] Hint Resolve keep_freshEntry keep_header keep_addFile : cti.

Lemma keep_addPath (fuel : nat) : ∀ ep path, preserves I (addPath fuel ep path).
Proof.
  induction fuel as [|fuel IH]; intros ep path; cbn [addPath]; [auto with cti|].
  destruct (os_stat path) as [[]|]; preserve.
Qed.
End WithHost.
End Preserved.

Lemma for_each_elem {S A : Type} (I : S → Prop) (l : list A) (f : A → M S ()) (x : A) (s s' : S) :
  (∀ a, a ∈ l → preserves I (f a)) → I s → for_each l f s = (Ok tt, s') → x ∈ l →
  ∃ s1 s2, I s1 ∧ f x s1 = (Ok tt, s2) ∧
    (∀ J : S → Prop, (∀ a, a ∈ l → preserves J (f a)) → J s2 → J s').
Proof.
  intros Hf Hs E Hx. revert s Hs E. induction l as [|a l IH]; intros s Hs E;
    [by apply elem_of_nil in Hx|].
  cbn in E. apply bind_Ok in E as ([] & s1 & E1 & E2).
  assert (I s1) as Hs1 by (eapply preserves_Ok; [apply Hf; by left|exact E1|done]).
  apply elem_of_cons in Hx as [->|Hx].
  - exists s, s1. split_and!; [done..|]. intros J HJ Hj.
    eapply (preserves_Ok J (for_each l f)); [|exact E2|done].
    apply preserves_for_each. intros b Hb. apply HJ. by right.
  - destruct (IH ltac:(intros b Hb; apply Hf; by right) Hx s1 Hs1 E2) as (s2 & s3 & ? & ? & HJ).
    exists s2, s3. split_and!; [done..|]. intros J Hj. apply HJ. intros b Hb. apply Hj. by right.
Qed.

Lemma no_failed_grow (a a' : archive) :
  no_failed a → (∀ q, holds q a → holds q a') →
  (∀ rc, rc ∈ a_header_rcs a' → rc ∈ a_header_rcs a) → no_failed a'.
Proof. intros Ha _ Hr Hin. by apply Ha, Hr. Qed.

Lemma holds_grow (q : string) (a a' : archive) :
  holds q a → (∀ q, holds q a → holds q a') →
  (∀ rc, rc ∈ a_header_rcs a' → rc ∈ a_header_rcs a) → holds q a'.
Proof. auto. Qed.

Lemma header_holds (e : entry) (a a' : archive) :
  no_failed a → archiveWriteRetry e a = (Ok tt, a') → holds (entry_path e) a'.
Proof.
  intros Ha. unfold archiveWriteRetry, mbind, M_bind, get, modify.
  pose proof (write_retry_failed (a_header_rcs a)) as Hf.
  destruct (write_retry (a_header_rcs a)) as [rc rcs]. cbn in Hf.
  destruct rc; try discriminate;
    try (intros [= <-]; unfold holds; cbn; rewrite map_app, elem_of_app; right; by left).
  by destruct Ha; apply Hf.
Qed.

Lemma fresh_header_holds (e : entry) (a a' : archive) :
  no_failed a → (freshEntry;; archiveWriteRetry e) a = (Ok tt, a') → holds (entry_path e) a'.
Proof.
  intros Ha E. apply bind_Ok in E as ([] & a1 & E1 & E2).
  eapply header_holds; [|exact E2].
  eapply preserves_Ok; [apply (keep_freshEntry _ )|exact E1|exact Ha].
Qed.

Section Fill.
Context `{Host} `{Tar}.

Lemma addPath_holds (fuel : nat) (ep path : string) (a a' : archive) :
  no_failed a → addPath fuel ep path a = (Ok tt, a') → holds ep a'.
Proof.
  intros Ha E. destruct fuel as [|fuel]; [done|]. cbn [addPath] in E.
  destruct (os_stat path) as [[]|]; try discriminate E;
    apply bind_Ok in E as ([] & a1 & E1 & E); apply bind_Ok in E as ([] & a2 & E2 & E);
    (assert (no_failed a1) as Ha1
       by (eapply preserves_Ok; [apply keep_freshEntry|exact E1|exact Ha]));
    pose proof (header_holds _ _ _ Ha1 E2) as Hh; cbn in Hh.
  - eapply preserves_Ok; [apply (keep_addFile _ (holds_grow ep))|exact E|done].
  - eapply (preserves_Ok (holds ep)); [|exact E|done].
    destruct (os_readdir path); [|auto with cti]. apply preserves_for_each. intros [n b] _.
    destruct b; [auto with cti|]. destruct (skip_name n); [auto with cti|].
    apply keep_addPath, holds_grow.
Qed.

Lemma keep_add_to_archive (I : archive → Prop) stage sources dup fp :
  (∀ a a', I a → (∀ q, holds q a → holds q a') →
     (∀ rc, rc ∈ a_header_rcs a' → rc ∈ a_header_rcs a) → I a') →
  preserves I (add_to_archive stage sources dup fp).
Proof.
  intros HI. unfold add_to_archive. destruct fp as [d f]. destruct (sources !! f); [|auto with cti].
  case_decide; [by apply keep_addLink|by apply keep_addPath].
Qed.

Lemma add_to_archive_holds stage sources dup d f src (a a' : archive) :
  no_failed a → sources !! f = Some src →
  add_to_archive stage sources dup (d, f) a = (Ok tt, a') →
  holds (stage +:+ "/" +:+ archive_path d f) a'.
Proof.
  intros Ha Hsrc. cbn. rewrite Hsrc. unfold archive_path. case_decide.
  - intros E. by eapply (fresh_header_holds (ELink _ _)) in E.
  - by apply addPath_holds.
Qed.

(** A filled archive has an entry for each file of the folders that has a source. *)
Lemma fill_archive_holds stage folders sources dup d X f src (a a' : archive) :
  no_failed a → folders !! d = Some X → f ∈ X → sources !! f = Some src →
  fill_archive stage folders sources dup a = (Ok tt, a') →
  holds (stage +:+ "/" +:+ archive_path d f) a'.
Proof.
  intros Ha Hd Hf Hsrc E. unfold fill_archive in E.
  repeat (apply bind_Ok in E as ([] & ? & E1 & E);
    eapply (preserves_Ok no_failed) in E1; [|apply (keep_addDirEntry _ no_failed_grow)|done];
    clear Ha; rename E1 into Ha).
  assert ((d, f) ∈ folder_files folders) as Hin by (apply elem_of_folder_files; by exists X).
  destruct (for_each_elem no_failed _ _ (d, f) _ _
    (λ fp _, keep_add_to_archive no_failed stage sources dup fp no_failed_grow) Ha E Hin)
    as (a1 & a2 & Ha1 & E1 & HJ).
  apply HJ; [intros; apply (keep_add_to_archive _ _ _ _ _ (holds_grow _))|].
  by eapply add_to_archive_holds.
Qed.

Lemma finalize_entries (exists_at : nat → bool) (a a' : archive) (p : string) :
  finalize exists_at a = (Ok p, a') → a_entries a' = a_entries a.
Proof.
  unfold finalize, mbind, M_bind, get, modify. destruct (a_close_fatal a); [done|].
  destruct (wait_on_disk _ _ _); [|done]. by intros [= <- <-].
Qed.
End Fill.

(** ** What the merge records *)

(** The part of the world that shipping depends on. *)
Definition ship_frame (w0 w : world) : Prop :=
  w_events w = w_events w0 ∧ s_sourcePaths (w_session w) = s_sourcePaths (w_session w0) ∧
  s_stageName (w_session w) = s_stageName (w_session w0).

Lemma delivered_frame (w w' : world) (path : string) :
  s_stageName (w_session w') = s_stageName (w_session w) →
  (∀ e, e ∈ w_events w → e ∈ w_events w') → delivered w path → delivered w' path.
Proof.
  intros Hs He (t & es & Hin & Hp). exists t, es. rewrite Hs. split; [by apply He|done].
Qed.

Lemma recorded_delivered_frame (w w' : world) :
  ship_frame w w' → recorded_delivered w → recorded_delivered w'.
Proof.
  intros (He & Hs & Hn) Hw path src Hp. rewrite Hs in Hp.
  eapply (delivered_frame w); [done|by rewrite He|by eapply Hw].
Qed.

Section Frames.
Context (w0 : world).

Lemma frame_put (p : mptr) (m : manifest) : preserves (ship_frame w0) (put_manifest p m).
Proof. by intros w. Qed.

Lemma frame_upd (f : session → session) :
  (∀ s, s_sourcePaths (f s) = s_sourcePaths s ∧ s_stageName (f s) = s_stageName s) →
  preserves (ship_frame w0) (upd_session f).
Proof.
  intros Hf w (H1 & H2 & H3). destruct (Hf (w_session w)) as [E1 E2].
  split_and!; cbn; congruence.
Qed.

Context `{Host} `{App} `{Tar}.
#[local] Hint Resolve preserves_just_get_manifest preserves_enforceValid
  preserves_getOwningSession preserves_getOwningApp preserves_verifyOwnership
  preserves_get_session frame_put : cti.

Lemma frame_checkAndAdd (p : mptr) (d path n : string) :
  preserves (ship_frame w0) (checkAndAdd p d path n).
Proof. unfold checkAndAdd. preserve. Qed.
#[local] Hint Resolve frame_checkAndAdd : cti.

Lemma frame_ensure_override (p : mptr) : preserves (ship_frame w0) (ensure_override p).
Proof. unfold ensure_override. preserve. Qed.
#[local] Hint Resolve frame_ensure_override : cti.

Lemma frame_addLibrary_gen deps (p : mptr) (n : string) (policy : DepsPolicy) :
  (∀ a b, preserves (ship_frame w0) (deps a b)) →
  preserves (ship_frame w0) (addLibrary_gen deps p n policy).
Proof.
  intros Hd. unfold addLibrary_gen. preserve.
Qed.

Lemma frame_addLibDeps (p : mptr) (a b : string) : preserves (ship_frame w0) (addLibDeps p a b).
Proof.
  unfold addLibDeps. destruct (getFileDependencies a b); [|auto with cti].
  apply preserves_for_each. intros ??. apply frame_addLibrary_gen. auto with cti.
Qed.
#[local] Hint Resolve frame_addLibDeps : cti.

Lemma frame_addBinary (p : mptr) (n : string) (d : DepsPolicy) :
  preserves (ship_frame w0) (addBinary p n d).
Proof. unfold addBinary. preserve. Qed.

Lemma frame_addLibrary (p : mptr) (n : string) (d : DepsPolicy) :
  preserves (ship_frame w0) (addLibrary p n d).
Proof. apply frame_addLibrary_gen. auto with cti. Qed.

Lemma frame_addLibDir (p : mptr) (n : string) : preserves (ship_frame w0) (addLibDir p n).
Proof. unfold addLibDir. preserve. Qed.

Lemma frame_addFile (p : mptr) (n : string) : preserves (ship_frame w0) (addFile p n).
Proof. unfold addFile. preserve. Qed.
#[local] Hint Resolve frame_addBinary frame_addLibrary frame_addLibDir frame_addFile : cti.

Lemma frame_add_requirements (p : mptr) : preserves (ship_frame w0) (add_requirements p).
Proof. unfold add_requirements. preserve; by apply frame_upd. Qed.

Lemma frame_removeManifest (p : mptr) : preserves (ship_frame w0) (removeManifest p).
Proof.
  unfold removeManifest. preserve; by apply frame_upd.
Qed.
End Frames.

Section Merge.
Context `{Host} `{App} `{Tar}.

Lemma merge_file_run (paths : gmap string string) (d f : string) (w w' : world) r :
  merge_file paths d f w = (Ok r, w') →
  is_Some (paths !! f) ∧ w_events w' = w_events w ∧ w_heap w' = w_heap w ∧
  s_stageName (w_session w') = s_stageName (w_session w) ∧
  ((r = [(d, f)] ∧ s_sourcePaths (w_session w') = s_sourcePaths (w_session w)) ∨
   (r = [] ∧ ∃ src, s_sourcePaths (w_session w') =
      <[archive_path d f := src]> (s_sourcePaths (w_session w)))).
Proof.
  unfold merge_file, path_at. intros E.
  apply bind_Ok in E as (u & w1 & E1 & E). apply bind_Ok in E as (sess & w2 & E2 & E).
  injection E1 as _ <-. injection E2 as <- <-. cbn in E.
  destruct (s_sourcePaths (w_session w) !! archive_path d f) as [shipped|];
    apply bind_Ok in E as (src & w3 & E3 & E); injection E3 as E3 <-;
    (destruct (paths !! f) as [q|] eqn:Hq; [|discriminate E3]); (split; [by eexists|]).
  { destruct (isSameFile shipped src); [|discriminate E]. injection E as <- <-.
    split_and!; [done..|by left]. }
  apply bind_Ok in E as (rl & w4 & E4 & E). apply bind_Ok in E as (u' & w5 & E5 & E).
  injection E4 as _ <-. injection E5 as _ <-. injection E as <- <-.
  split_and!; [done..|right; by eauto].
Qed.

Lemma merge_files_records (paths : gmap string string) (l r : list (string * string))
    (w w' : world) :
  merge_files paths l w = (Ok r, w') → NoDup l →
  w_events w' = w_events w ∧ w_heap w' = w_heap w ∧
  s_stageName (w_session w') = s_stageName (w_session w) ∧
  ∀ path src, s_sourcePaths (w_session w') !! path = Some src →
    s_sourcePaths (w_session w) !! path = Some src ∨
    ∃ d f, (d, f) ∈ l ∧ ((d, f) ∉ r) ∧ path = archive_path d f ∧ is_Some (paths !! f).
Proof.
  revert r w. induction l as [|[d f] l IH]; intros r w E Hnd; cbn in E.
  { injection E as <- <-. eauto. }
  apply bind_Ok in E as (r1 & w1 & E1 & E). apply bind_Ok in E as (r2 & w2 & E2 & E).
  injection E as <- <-. apply NoDup_cons in Hnd as [Hn Hnd].
  pose proof (merge_files_removes _ _ _ _ _ E2) as Hrem.
  destruct (merge_file_run _ _ _ _ _ _ E1) as (Hq & He1 & Hh1 & Hs1 & Hr1).
  destruct (IH _ _ E2 Hnd) as (He2 & Hh2 & Hs2 & Hrec).
  split_and!; [congruence..|]. intros path src [Hp|(d' & f' & Hin & Hout & -> & Hq')]%Hrec.
  - destruct Hr1 as [[-> E]|[-> [src' E]]]; rewrite E in Hp; [by left|].
    destruct (decide (path = archive_path d f)) as [->|Hne].
    + right. exists d, f. split_and!; [by left| |done..]. intros Hin. by apply Hn, Hrem.
    + left. by rewrite lookup_insert_ne in Hp.
  - right. exists d', f'. split_and!; [by right| |done..].
    intros [Hin1|Hin2]%elem_of_app; [|done].
    destruct Hr1 as [[-> _]|[-> _]]; [|by apply elem_of_nil in Hin1].
    apply list_elem_of_singleton in Hin1. congruence.
Qed.

Lemma NoDup_folder_files (folders : gmap string (gset string)) : NoDup (folder_files folders).
Proof.
  unfold folder_files. assert (NoDup (sorted_keys folders)) as Hk
    by apply NoDup_sorted_elements.
  induction Hk as [|d ks Hd Hk IH]; [constructor|]. cbn. apply NoDup_app. split_and!; [|..|done].
  - apply NoDup_fmap_2; [by intros ?? [= ->]|apply NoDup_sorted_elements].
  - intros [d' f'] Hin1 Hin2.
    apply list_elem_of_In, in_map_iff in Hin1 as (f1 & [= <- <-] & _).
    apply list_elem_of_In, in_flat_map in Hin2 as (d2 & Hd2 & Hin2).
    apply in_map_iff in Hin2 as (f2 & [= -> ->] & _). by apply list_elem_of_In in Hd2.
Qed.

(** A pair that is not removed keeps its place, and its source when no other pair
    of the same name is removed. *)
Lemma remove_pairs_keeps (r : list (string * string)) (m : manifest) (d f src : string) X :
  m_folders m !! d = Some X → f ∈ X → m_sourcePaths m !! f = Some src →
  (∀ d', (d', f) ∉ r) →
  (∃ X', m_folders (remove_pairs r m) !! d = Some X' ∧ f ∈ X') ∧
  m_sourcePaths (remove_pairs r m) !! f = Some src.
Proof.
  unfold remove_pairs. revert m X.
  induction r as [|[d1 f1] r IH]; intros m X Hd Hf Hs Hr; [cbn; by eauto|]. cbn [foldl].
  assert (f1 ≠ f) as Hne by (intros ->; apply (Hr d1); by left).
  set (X1 := if decide (d1 = d) then X ∖ {[f1]} else X).
  apply (IH _ X1); cbn; [|unfold X1; case_decide; set_solver| |].
  - unfold X1. case_decide as E; [subst d1; by rewrite lookup_insert_eq, Hd|].
    by rewrite lookup_insert_ne.
  - by rewrite lookup_delete_ne.
  - intros d' Hin. apply (Hr d'). by right.
Qed.

(** The merge records every file of the manifest, and forgets none. *)
Lemma merge_file_grows (paths : gmap string string) (d f : string) (w w' : world) r :
  merge_file paths d f w = (Ok r, w') →
  is_Some (s_sourcePaths (w_session w') !! archive_path d f) ∧
  ∀ q, is_Some (s_sourcePaths (w_session w) !! q) → is_Some (s_sourcePaths (w_session w') !! q).
Proof.
  unfold merge_file, path_at. intros E.
  apply bind_Ok in E as (u & w1 & E1 & E). apply bind_Ok in E as (sess & w2 & E2 & E).
  injection E1 as _ <-. injection E2 as <- <-. cbn in E.
  destruct (s_sourcePaths (w_session w) !! archive_path d f) as [shipped|] eqn:Hs;
    apply bind_Ok in E as (src & w3 & E3 & E); injection E3 as E3 <-.
  { destruct (isSameFile shipped src); [|discriminate E]. injection E as <- <-. cbn.
    split; [by eexists|done]. }
  apply bind_Ok in E as (rl & w4 & E4 & E). apply bind_Ok in E as (u' & w5 & E5 & E).
  injection E4 as _ <-. injection E5 as _ <-. injection E as <- <-. cbn.
  split; [by rewrite lookup_insert_eq; eexists|]. intros q Hq.
  destruct (decide (archive_path d f = q)) as [<-|Hne];
    [by rewrite lookup_insert_eq; eexists|by rewrite lookup_insert_ne].
Qed.

Lemma merge_files_grows (paths : gmap string string) (l r : list (string * string))
    (w w' : world) :
  merge_files paths l w = (Ok r, w') →
  (∀ d f, (d, f) ∈ l → is_Some (s_sourcePaths (w_session w') !! archive_path d f)) ∧
  ∀ q, is_Some (s_sourcePaths (w_session w) !! q) → is_Some (s_sourcePaths (w_session w') !! q).
Proof.
  revert r w. induction l as [|[d f] l IH]; intros r w E; cbn in E.
  { injection E as <- <-. split; [by intros ?? ?%elem_of_nil|done]. }
  apply bind_Ok in E as (r1 & w1 & E1 & E). apply bind_Ok in E as (r2 & w2 & E2 & E).
  injection E as <- <-. apply merge_file_grows in E1 as [Hd Hg1]. apply IH in E2 as [Hl Hg2].
  split; [|by auto]. intros d' f' [[= -> ->]|Hin]%elem_of_cons; auto.
Qed.

Lemma removeManifest_Ok (p : mptr) (w w' : world) :
  removeManifest p w = (Ok tt, w') → ∃ m, w_heap w !! p = Some m ∧ w' = removed p m w.
Proof.
  intros E. unfold removeManifest in E.
  apply bind_Ok in E as (u & w1 & E1 & E). apply bind_Ok in E as (m & w2 & E2 & E).
  unfold verifyOwnership, mbind, M_bind, get_session, gets in E1.
  destruct (decide (p ∈ s_manifests (w_session w))); [|discriminate E1]. injection E1 as _ <-.
  unfold get_manifest, mbind, M_bind, get in E2.
  destruct (w_heap w !! p) as [m'|] eqn:Hm; [|discriminate E2]. injection E2 as <- <-.
  injection E as <-. by exists m'.
Qed.

Lemma ship_archive_Ok (tarPath : string) (run : M archive string) (w w' : world) :
  ship_archive tarPath run w = (Ok tt, w') →
  ∃ finalPath a, run (open_archive tarPath) = (Ok finalPath, a) ∧
    w' = push_event (EvShip finalPath (a_entries a)) w.
Proof.
  unfold ship_archive. destruct (run (open_archive tarPath)) as [r a]. intros E.
  apply bind_Ok in E as (fp & w1 & E1 & E). injection E1 as -> <-.
  apply bind_Ok in E as (w2 & w3 & E2 & E). injection E2 as <- <-.
  apply bind_Ok in E as (u & w4 & E3 & E). injection E3 as _ <-. injection E as <-. eauto.
Qed.

Lemma find_duplicates_frame (sources : gmap string string) (w w' : world) dup :
  find_duplicates sources w = (Ok dup, w') → w' = w.
Proof.
  unfold find_duplicates, try_catch, mbind, M_bind, get, lift. case_bool_decide.
  { by intros [= _ <-]. }
  destruct (app_checkFilesExist _ _); by intros [= _ <-].
Qed.
End Merge.

Section Ship.
Context `{Host} `{App} `{Tar}.

Lemma merge_manifest_Ok (p : mptr) (w w' : world) (m m' : manifest) :
  w_heap w !! p = Some m → merge_manifest p w = (Ok m', w') →
  ∃ r w1, merge_files (m_sourcePaths m) (folder_files (m_folders m)) w = (Ok r, w1) ∧
    m' = remove_pairs r m ∧ ship_frame w1 w'.
Proof.
  intros Hm E. unfold merge_manifest in E.
  rewrite (bind_run_Ok _ _ _ m w) in E by by apply get_manifest_run.
  apply bind_Ok in E as (r & w1 & E1 & E). apply bind_Ok in E as (u & w2 & E2 & E).
  apply bind_Ok in E as (u' & w3 & E3 & E). injection E as <- <-.
  exists r, w1. split_and!; [done..|]. injection E2 as _ <-.
  destruct (is_empty _); injection E3 as _ <-; done.
Qed.

Lemma ship_tail_delivers (p : mptr) (m : manifest) (sess : session) (name tarPath : string)
    (w w' : world) :
  headers_written → names_disjoint m → recorded_delivered w → w_heap w !! p = Some m →
  s_stageName sess = s_stageName (w_session w) →
  (m ← merge_manifest p;
   duplicates ← find_duplicates (m_sourcePaths m);
   ship_archive tarPath
     (fill_archive (s_stageName sess) (m_folders m) (m_sourcePaths m) duplicates;;
      finalize (tar_on_disk tarPath));;
   mret name) w = (Ok name, w') →
  recorded_delivered w' ∧
  ∀ d X f, m_folders m !! d = Some X → f ∈ X →
    is_Some (s_sourcePaths (w_session w') !! archive_path d f).
Proof.
  intros Hh Hnd Hrec Hm Hstage E.
  apply bind_Ok in E as (m' & w1 & E1 & E). apply bind_Ok in E as (dup & w2 & E2 & E).
  apply find_duplicates_frame in E2 as ->. apply bind_Ok in E as ([] & w3 & E3 & E).
  injection E as <-.
  destruct (merge_manifest_Ok _ _ _ _ _ Hm E1) as (r & wm & Emerge & -> & Hf).
  destruct (ship_archive_Ok _ _ _ _ E3) as (fp & a & Ea & ->).
  apply bind_Ok in Ea as ([] & a1 & Ea1 & Ea2). apply finalize_entries in Ea2.
  destruct (merge_files_records _ _ _ _ _ Emerge (NoDup_folder_files _))
    as (He & _ & Hs & Hold).
  destruct Hf as (Hf1 & Hf2 & Hf3). split.
  - intros path src Hp. cbn in Hp. rewrite Hf2 in Hp.
    apply Hold in Hp as [Hp|(d & f & Hin & Hout & -> & [q Hq])].
    + eapply (delivered_frame w); [cbn; congruence| |by eapply Hrec].
      intros e Hin. cbn. rewrite Hf1, He. apply elem_of_app. by left.
    + apply elem_of_folder_files in Hin as (X & Hd & Hfx).
      assert (∀ d', (d', f) ∉ r) as Hnone.
      { intros d' Hd'. pose proof (merge_files_removes _ _ _ _ _ Emerge _ Hd') as Hin'.
        apply elem_of_folder_files in Hin' as (X' & HX' & Hf').
        by rewrite (Hnd d' d X' X f HX' Hd Hf' Hfx) in Hd'. }
      destruct (remove_pairs_keeps r m d f q X Hd Hfx Hq Hnone) as [(X' & HX' & Hf') Hq'].
      exists fp, (a_entries a). split; [cbn; apply elem_of_app; right; by left|].
      cbn. rewrite Hf3, Hs, <-Hstage, Ea2.
      eapply (fill_archive_holds _ _ _ _ d X' f q (open_archive tarPath)); [apply Hh|done..].
  - intros d X f Hd Hfx. cbn. rewrite Hf2.
    apply (proj1 (merge_files_grows _ _ _ _ _ Emerge)). apply elem_of_folder_files. by exists X.
Qed.

(** C1 Delivery.  Let every file the session records as shipped be in a shipped
    package, let no file name occur in two folders of the manifest (with the
    application's base files), and let libarchive write every header.  When
    [shipManifest] returns, this is again so, and every file of the manifest is in
    a shipped package under the session's staging directory. *)
Theorem shipManifest_delivers (p : mptr) (w w1 w' : world) (m : manifest) (name : string) :
  headers_written → recorded_delivered w →
  add_requirements p w = (Ok tt, w1) → w_heap w1 !! p = Some m → names_disjoint m →
  shipManifest p w = (Ok name, w') →
  recorded_delivered w' ∧
  (∀ d X f, m_folders m !! d = Some X → f ∈ X → delivered w' (archive_path d f)).
Proof.
  intros Hh Hrec Ereq Hm Hnd E. unfold shipManifest in E.
  apply bind_Ok in E as (u & w0 & E0 & E).
  assert (w0 = w) as ->.
  { unfold getOwningApp, mbind, M_bind, get in E0.
    destruct (w_app_alive w); [by injection E0 as _ <-|discriminate E0]. }
  rewrite (bind_run_Ok _ _ _ _ _ Ereq) in E.
  pose proof (preserves_Ok _ _ _ _ _ (frame_add_requirements w p) Ereq ltac:(done)) as Hf.
  apply (recorded_delivered_frame _ _ Hf) in Hrec.
  apply bind_Ok in E as ([] & w2 & E2 & E).
  apply removeManifest_Ok in E2 as (m1 & Hm1 & ->). replace m1 with m in * by congruence.
  assert (w_heap (removed p m w1) !! p = Some (manifest_finalize m)) as Hm2
    by (cbn; by rewrite lookup_insert_eq).
  rewrite (bind_run_Ok _ _ _ _ _ (get_manifest_run _ _ _ Hm2)) in E.
  rewrite (bind_run_Ok _ _ _ (w_session (removed p m w1)) (removed p m w1)) in E by done.
  assert (name = archive_name (s_stageName (w_session (removed p m w1)))
    (m_instance (manifest_finalize m))) as Hname.
  { apply bind_Ok in E as (? & ? & _ & E). apply bind_Ok in E as (? & ? & _ & E).
    apply bind_Ok in E as (? & ? & _ & E). by injection E as <-. }
  rewrite <-Hname in E. cbv zeta in E.
  apply (ship_tail_delivers p (manifest_finalize m)) in E; [|done..].
  destruct E as [Hrec' Hall]. split; [done|]. intros d X f Hd Hf'.
  destruct (Hall d X f Hd Hf') as [src Hsrc]. by eapply Hrec'.
Qed.
End Ship.

(** ** Evaluating delivery *)

Definition ev_holds (q : string) (e : event) : bool :=
  match e with
  | EvShip _ entries => existsb (λ e, bool_decide (entry_path e = q)) entries
  | EvDaemon _ _ => false
  end.

Definition deliveredb (w : world) (path : string) : bool :=
  existsb (ev_holds (s_stageName (w_session w) +:+ "/" +:+ path)) (w_events w).

Lemma delivered_deliveredb (w : world) (path : string) :
  delivered w path → deliveredb w path = true.
Proof.
  intros (t & es & Hin & Hp). apply existsb_exists. exists (EvShip t es).
  split; [by apply list_elem_of_In|]. apply existsb_exists.
  apply list_elem_of_In, in_map_iff in Hp as (e & He & Hin').
  exists e. split; [done|]. by apply bool_decide_eq_true.
Qed.

Lemma names_disjoint_NoDup (m : manifest) :
  NoDup (map snd (folder_files (m_folders m))) → names_disjoint m.
Proof.
  intros Hnd d d' X X' f Hd Hd' Hf Hf'.
  assert ((d, f) ∈ folder_files (m_folders m)) as H1 by (apply elem_of_folder_files; eauto).
  assert ((d', f) ∈ folder_files (m_folders m)) as H2 by (apply elem_of_folder_files; eauto).
  induction (folder_files (m_folders m)) as [|[e g] l IH]; [by apply elem_of_nil in H1|].
  cbn in Hnd. apply NoDup_cons in Hnd as [Hn Hnd].
  apply elem_of_cons in H1 as [E1|H1], H2 as [E2|H2]; [congruence|..|by apply IH].
  - destruct Hn. injection E1 as <- <-. apply list_elem_of_In, in_map_iff. exists (d', f).
    split; [done|by apply list_elem_of_In].
  - destruct Hn. injection E2 as <- <-. apply list_elem_of_In, in_map_iff. exists (d, f).
    split; [done|by apply list_elem_of_In].
Qed.

Definition run_calls `{Host} `{App} `{Tar} (l : list call) (w : world) : world :=
  foldl (λ w c, (run_call c w).2) w l.

Definition no_manifest : manifest := MkManifest 0 ∅ ∅ "" true.

(** A manifest with a binary and its library, about to be shipped. *)
Definition demo_ready : world := run_calls [CreateManifest; AddBinary 0 "tool"] (new_world (λ _, 0)).

Definition demo_manifest : manifest := default no_manifest (w_heap demo_ready !! 0%nat).

Definition demo_required : world := (add_requirements 0 demo_ready).2.

Definition demo_shipped : world := (shipManifest 0 demo_ready).2.

Lemma demo_required_run : add_requirements 0 demo_ready = (Ok tt, demo_required).
Proof. refine (run_Ok (add_requirements 0) demo_ready tt _). vm_compute. reflexivity. Qed.

Lemma demo_shipped_run : shipManifest 0 demo_ready = (Ok "cti_daemon0000001.tar", demo_shipped).
Proof.
  refine (run_Ok (shipManifest 0) demo_ready "cti_daemon0000001.tar" _). vm_compute. reflexivity.
Qed.

Lemma shipManifest_delivers_witness :
  s_sourcePaths (w_session demo_shipped) !! "bin/tool" = Some "/usr/bin/tool" ∧
  recorded_delivered demo_shipped.
Proof.
  split; [vm_compute; reflexivity|].
  refine (proj1 (shipManifest_delivers 0 demo_ready demo_required demo_shipped demo_manifest
    "cti_daemon0000001.tar" _ _ demo_required_run _ _ demo_shipped_run)).
  - intros t Hin. by apply elem_of_nil in Hin.
  - intros path src Hp. vm_compute in Hp. discriminate Hp.
  - vm_compute. reflexivity.
  - apply names_disjoint_NoDup, (bool_decide_unpack _). vm_compute. exact I.
Defined.

(** ** Where delivery fails *)

(** The calls of the three scenarios below, and the worlds they lead to. *)
Definition shared_name_calls : list call :=
  [CreateManifest; AddBinary 0 "tool"; SendManifest 0;
   CreateManifest; AddBinary 1 "tool"; AddFile 1 "/usr/bin/tool"].

Definition shared_name_before : world := run_calls shared_name_calls (new_world (λ _, 0)).

(** A file name in two folders of one manifest: with "bin/tool" shipped before,
    a manifest that lists the tool again as a binary and as a plain file is sent
    without an error and the session records the plain file as shipped from its
    source, but no package holds it: removing the duplicate binary also drops the
    source of the other file of that name. *)
Theorem shared_name_not_delivered :
  (sendManifest 1 shared_name_before).1 = Ok tt ∧
  let w := (sendManifest 1 shared_name_before).2 in
  s_sourcePaths (w_session w) !! "/tool" = Some "/usr/bin/tool" ∧ ¬ delivered w "/tool".
Proof.
  split; [vm_compute; reflexivity|]. cbv zeta. split; [vm_compute; reflexivity|].
  intros Hd%delivered_deliveredb. vm_compute in Hd. discriminate Hd.
Qed.

Definition overwritten_before : world :=
  run_calls [CreateManifest; AddBinary 0 "tool"; AddFile 0 "/etc/tool"] (new_world (λ _, 0)).

(** The contents shipped for a path of the staging directory. *)
Definition shipped_data (w : world) (path : string) : list (list byte) :=
  flat_map (λ ev, match ev with
    | EvShip _ entries => flat_map (λ e, match e with
        | EFile p d => if decide (p = s_stageName (w_session w) +:+ "/" +:+ path) then [d] else []
        | _ => [] end) entries
    | EvDaemon _ _ => [] end) (w_events w).

(** One source per base name: adding the binary "tool" (found at /usr/bin/tool)
    and then another file of the same base name, /etc/tool, to another folder of the
    manifest replaces the source of the binary.  Both calls succeed, the shipment
    succeeds, and the package's "bin/tool" has the contents of /etc/tool. *)
Theorem same_name_overwrites :
  os_read "/usr/bin/tool" = Some [Some [x74]] ∧ os_read "/etc/tool" = Some [Some [x65]] ∧
  (sendManifest 0 overwritten_before).1 = Ok tt ∧
  shipped_data (sendManifest 0 overwritten_before).2 "bin/tool" = [[x65]].
Proof. split_and!; vm_compute; reflexivity. Qed.

(** An application for which shipping the first package fails. *)
#[local] Instance failing_app : App := {|
  app_getJobId := "1234.0"; app_getToolPath := "/tmp"; app_getAttribsPath := "";
  app_getExtraBinaries := []; app_getExtraLibraries := []; app_getExtraLibDirs := [];
  app_getExtraFiles := [];
  app_checkFilesExist _ _ := Ok ∅;
  app_shipPackage _ tarPath :=
    if decide (tarPath = "/cfg/cti_daemon0000001.tar") then Throw "failed to ship" else Ok tt;
  app_startDaemon _ _ _ := Ok tt;
  fe_getCfgDir := "/cfg"; fe_getLdAuditPath := "/audit"; fe_debug := false;
  fe_getDefaultEnvVars := []; fe_getWLMType := 2; cfg_be_daemon_binary := "cti_be_daemon" |}.

Definition failed_ship_before : world :=
  run_calls [CreateManifest; AddBinary 0 "tool"] (new_world (λ _, 0)).

Definition failed_ship_retry : world :=
  run_calls [SendManifest 0; CreateManifest; AddBinary 1 "tool"; AddFile 1 "/d/f"]
    failed_ship_before.

(** A failed shipment is recorded as a success: the merge into the session comes
    before the package is shipped and is not undone when shipping throws.  A later
    manifest with the same file is then sent without it, and without an error. *)
Theorem failed_ship_lost :
  (sendManifest 0 failed_ship_before).1 = Throw "failed to ship" ∧
  (sendManifest 1 failed_ship_retry).1 = Ok tt ∧
  let w := (sendManifest 1 failed_ship_retry).2 in
  s_sourcePaths (w_session w) !! "bin/tool" = Some "/usr/bin/tool" ∧ ¬ delivered w "bin/tool".
Proof.
  split; [vm_compute; reflexivity|]. split; [vm_compute; reflexivity|]. cbv zeta.
  split; [vm_compute; reflexivity|].
  intros Hd%delivered_deliveredb. vm_compute in Hd. discriminate Hd.
Qed.
