(* ===== verification/Wire.v ===== *)
(** * The wire format of the frontend daemon
    (src/src/frontend/daemon/cti_fe_daemon_iface.hpp, .cpp; FdBuf of
    src/src/useful/cti_execvp.hpp)

    The frontend library and its daemon exchange C++ objects byte by byte over
    Unix domain sockets.  Objects are laid out as on an LP64 little-endian machine;
    padding bytes have an arbitrary value.  How many bytes one [read] or [write]
    moves is up to the kernel: any number from one up to what was asked for. *)

From S2P Require Import Prelude.

Abbreviation bytes := (list ascii).

(** Where an open file descriptor leads: a descriptor of the sending process, or
    /dev/null opened for reading or for writing. *)
Inductive file : Type :=
| FdNum (n : Z)
| DevNullR
| DevNullW.

(** What is in flight in a socket: bytes, one of which may carry descriptors. *)
Inductive item : Type :=
| Byte (c : ascii)
| Rights (c : ascii) (i o e : file).

Definition item_byte (it : item) : ascii :=
  match it with Byte c => c | Rights c _ _ _ => c end.

(** The kernel's choices. *)
Class Kernel : Type := {
  (** bytes moved by a call, given the bytes available and the bytes asked for *)
  k_chunk : nat → nat → nat;
  (** the value of padding bytes *)
  k_padding : ascii
}.

(** ** Integers *)

Definition ascii_of_byte (z : Z) : ascii := Ascii.ascii_of_N (Z.to_N (z mod 256)).
Definition byte_of_ascii (c : ascii) : Z := Z.of_N (Ascii.N_of_ascii c).

(** The [n] low bytes of [z], least significant first. *)
Fixpoint enc_le (n : nat) (z : Z) : bytes :=
  match n with
  | O => []
  | S n' => ascii_of_byte z :: enc_le n' (z / 256)
  end.

Fixpoint dec_le (l : bytes) : Z :=
  match l with
  | [] => 0
  | c :: l' => byte_of_ascii c + 256 * dec_le l'
  end.

(** Two's complement reading of [8 * n] bits. *)
Definition to_signed (n : nat) (u : Z) : Z :=
  if u <? 2 ^ (8 * Z.of_nat n - 1) then u else u - 2 ^ (8 * Z.of_nat n).

Definition in_signed (n : nat) (z : Z) : bool :=
  (- 2 ^ (8 * Z.of_nat n - 1) <=? z) && (z <? 2 ^ (8 * Z.of_nat n - 1)).

Definition in_unsigned (n : nat) (z : Z) : bool := (0 <=? z) && (z <? 2 ^ (8 * Z.of_nat n)).

(** ** Trivially copyable types *)

(** The object representation of a type, and the values that survive it. *)
Record wire (T : Type) : Type := Wire {
  w_size : nat;
  w_enc : T → bytes;
  w_dec : bytes → T;
  w_valid : T → bool
}.
Arguments w_size {T} w.
Arguments w_enc {T} w t.
Arguments w_dec {T} w l.
Arguments w_valid {T} w t.

(** The law of an object representation. *)
Class WireOK {T : Type} (w : wire T) : Prop := {
  wire_length : ∀ t, length (w_enc w t) = w_size w;
  wire_roundtrip : ∀ t, w_valid w t = true → w_dec w (w_enc w t) = t
}.

Definition signed_wire (n : nat) : wire Z :=
  Wire Z n (enc_le n) (λ l, to_signed n (dec_le l)) (in_signed n).

Definition unsigned_wire (n : nat) : wire Z := Wire Z n (enc_le n) dec_le (in_unsigned n).

(** [int], [pid_t] and [DaemonAppId]; [long] and the enumerations based on it;
    [uint32_t]; [size_t]; [char]. *)
Definition int_wire : wire Z := signed_wire 4.
Definition long_wire : wire Z := signed_wire 8.
Definition uint32_wire : wire Z := unsigned_wire 4.
Definition size_wire : wire Z := unsigned_wire 8.
Definition char_wire : wire ascii :=
  Wire ascii 1 (λ c, [c]) (λ l, default "000"%char (head l)) (λ _, true).

(** ** Requests and responses *)

Inductive ReqType : Type :=
| ForkExecvpApp | ForkExecvpUtil
| LaunchMPIR | LaunchMPIRShim | AttachMPIR | ReadStringMPIR
| ReleaseMPIR | WaitMPIR | TerminateMPIR
| RegisterApp | RegisterUtil | RegisterUtilWithSigkill
| DeregisterApp | ReleaseApp | CheckApp
| Shutdown.

Definition req_value (r : ReqType) : Z :=
  match r with
  | ForkExecvpApp => 0 | ForkExecvpUtil => 1
  | LaunchMPIR => 2 | LaunchMPIRShim => 3 | AttachMPIR => 4 | ReadStringMPIR => 5
  | ReleaseMPIR => 6 | WaitMPIR => 7 | TerminateMPIR => 8
  | RegisterApp => 9 | RegisterUtil => 10 | RegisterUtilWithSigkill => 11
  | DeregisterApp => 12 | ReleaseApp => 13 | CheckApp => 14
  | Shutdown => 15
  end.

Definition all_reqs : list ReqType :=
  [ForkExecvpApp; ForkExecvpUtil; LaunchMPIR; LaunchMPIRShim; AttachMPIR; ReadStringMPIR;
   ReleaseMPIR; WaitMPIR; TerminateMPIR; RegisterApp; RegisterUtil; RegisterUtilWithSigkill;
   DeregisterApp; ReleaseApp; CheckApp; Shutdown].

#[export] Instance ReqType_eq_dec : EqDecision ReqType.
Proof. solve_decision. Defined.

(** The enumerator with a value; the [default] case of the daemon's switch is [None]. *)
Definition req_of_value (z : Z) : option ReqType :=
  List.find (λ r, req_value r =? z) all_reqs.

(** [RunMode] *)
Definition Asynchronous : Z := 0.
Definition Synchronous : Z := 1.

(** [RespType] *)
Definition RESP_OK : Z := 0.
Definition RESP_ID : Z := 1.
Definition RESP_String : Z := 2.
Definition RESP_MPIR : Z := 3.

Record OKResp : Type := MkOKResp { ok_type : Z; ok_success : bool }.
Record IDResp : Type := MkIDResp { id_type : Z; id_id : Z }.
Record StringResp : Type := MkStringResp { str_type : Z; str_success : bool }.
Record MPIRResp : Type := MkMPIRResp {
  mr_type : Z; mr_mpir_id : Z; mr_launcher_pid : Z; mr_job_id : Z; mr_step_id : Z;
  mr_num_pids : Z; mr_error_msg_len : Z
}.

Section Layout.
Context `{Kernel}.

Definition padding (n : nat) : bytes := replicate n k_padding.

Definition enc_bool (b : bool) : bytes := [if b then "001"%char else "000"%char].
Definition dec_bool (l : bytes) : bool := negb (dec_le (take 1 l) =? 0).

(** A [long] at offset 0 and a [bool] at offset 8, padded to 16 bytes. *)
Definition okresp_wire : wire OKResp := {|
  w_size := 16;
  w_enc r := enc_le 8 (ok_type r) ++ enc_bool (ok_success r) ++ padding 7;
  w_dec l := MkOKResp (to_signed 8 (dec_le (take 8 l))) (dec_bool (drop 8 l));
  w_valid r := in_signed 8 (ok_type r) |}.

(** A [long] at offset 0 and an [int] at offset 8, padded to 16 bytes. *)
Definition idresp_wire : wire IDResp := {|
  w_size := 16;
  w_enc r := enc_le 8 (id_type r) ++ enc_le 4 (id_id r) ++ padding 4;
  w_dec l := MkIDResp (to_signed 8 (dec_le (take 8 l)))
               (to_signed 4 (dec_le (take 4 (drop 8 l))));
  w_valid r := in_signed 8 (id_type r) && in_signed 4 (id_id r) |}.

Definition stringresp_wire : wire StringResp := {|
  w_size := 16;
  w_enc r := enc_le 8 (str_type r) ++ enc_bool (str_success r) ++ padding 7;
  w_dec l := MkStringResp (to_signed 8 (dec_le (take 8 l))) (dec_bool (drop 8 l));
  w_valid r := in_signed 8 (str_type r) |}.

(** Five 4-byte fields after the type, padding, and a [size_t] at offset 32. *)
Definition mpirresp_wire : wire MPIRResp := {|
  w_size := 40;
  w_enc r := enc_le 8 (mr_type r) ++ enc_le 4 (mr_mpir_id r) ++ enc_le 4 (mr_launcher_pid r) ++
    enc_le 4 (mr_job_id r) ++ enc_le 4 (mr_step_id r) ++ enc_le 4 (mr_num_pids r) ++
    padding 4 ++ enc_le 8 (mr_error_msg_len r);
  w_dec l := MkMPIRResp
    (to_signed 8 (dec_le (take 8 l)))
    (to_signed 4 (dec_le (take 4 (drop 8 l)))) (to_signed 4 (dec_le (take 4 (drop 12 l))))
    (dec_le (take 4 (drop 16 l))) (dec_le (take 4 (drop 20 l)))
    (to_signed 4 (dec_le (take 4 (drop 24 l)))) (dec_le (take 8 (drop 32 l)));
  w_valid r := in_signed 8 (mr_type r) && in_signed 4 (mr_mpir_id r) &&
    in_signed 4 (mr_launcher_pid r) && in_unsigned 4 (mr_job_id r) &&
    in_unsigned 4 (mr_step_id r) && in_signed 4 (mr_num_pids r) &&
    in_unsigned 8 (mr_error_msg_len r) |}.

(** ** Reading *)

(** The number of bytes one call moves. *)
Definition chunk (available asked : nat) : nat :=
  Nat.max 1 (Nat.min (k_chunk available asked) (Nat.min available asked)).

(** One [read] of a blocking descriptor, retried on EINTR: the empty list at end of
    file.  Descriptors passed along with bytes that are only read are dropped. *)
Definition sys_read (capacity : nat) : M (list item) bytes := λ s,
  match s with
  | [] => (Ok [], [])
  | _ => let n := chunk (length s) capacity in (Ok (map item_byte (take n s)), drop n s)
  end.

(** [readLoop]: read until the buffer is full or the reader gives nothing.  The
    bytes still missing are an upper bound on the number of calls. *)
Fixpoint readLoop {S : Type} (fuel : nat) (reader : nat → M S bytes) (capacity : nat)
    : M S bytes :=
  match capacity, fuel with
  | O, _ => mret []
  | _, O => undef "more calls than bytes"
  | _, Datatypes.S fuel' =>
      bs ← reader capacity;
      match bs with
      | [] => mret []
      | _ => rest ← readLoop fuel' reader (capacity - length bs); mret (bs ++ rest)
      end
  end.

(** The reader of [fdReadLoop]: end of file is an error. *)
Definition fd_reader (capacity : nat) : M (list item) bytes :=
  bs ← sys_read capacity;
  match bs with
  | [] => throw "read failed: zero bytes read"
  | _ => mret bs
  end.

Definition fdReadLoop {T : Type} (w : wire T) : M (list item) T :=
  bs ← readLoop (w_size w) fd_reader (w_size w);
  mret (w_dec w bs).

(** ** Writing *)

(** One [write] of a part of the buffer; the number of bytes accepted. *)
Definition sys_write (buf : bytes) : M (list item) nat := λ s,
  let n := chunk (length buf) (length buf) in (Ok n, s ++ map Byte (take n buf)).

(** [writeLoop] over [sys_write] *)
Fixpoint writeLoop (fuel : nat) (buf : bytes) : M (list item) () :=
  match buf, fuel with
  | [], _ => mret tt
  | _, O => undef "more calls than bytes"
  | _, Datatypes.S fuel' =>
      n ← sys_write buf;
      match n with
      | O => mret tt
      | _ => writeLoop fuel' (drop n buf)
      end
  end.

Definition fdWriteBytes (buf : bytes) : M (list item) () := writeLoop (length buf) buf.

Definition fdWriteLoop {T : Type} (w : wire T) (t : T) : M (list item) () :=
  fdWriteBytes (w_enc w t).

(** [fdWriteLoop(fd, s, strlen(s) + 1)] *)
Definition cstr_bytes (s : string) : bytes := list_ascii_of_string (c_str s) ++ ["000"%char].

Definition fdWriteString (s : string) : M (list item) () := fdWriteBytes (cstr_bytes s).
End Layout.

(** ** Strings read through [FdBuf]

    [std::getline(stream, s, '\0')] asks the buffer for one character at a time.
    [underflow] returns the byte as a [char] converted to [int], so the byte 255
    reads as [EOF]: it is consumed, the line ends there, and the stream accepts no
    further reads.  The state is the socket and the stream's end-of-file bit. *)
Record istream : Type := MkIstream { is_items : list item; is_eof : bool }.

Definition byte_FF : ascii := "255"%char.

(** The characters up to the delimiter, whether one was found, and what is left. *)
Fixpoint take_line (l : list item) : string * bool * list item :=
  match l with
  | [] => ("", false, [])
  | it :: l' =>
      let c := item_byte it in
      if decide (c = "000"%char) then ("", true, l')
      else if decide (c = byte_FF) then ("", false, l')
      else let '(s, found, rest) := take_line l' in (String c s, found, rest)
  end.

(** [None] when the stream is in a failed state afterwards. *)
Definition getline_nul (st : istream) : option string * istream :=
  if is_eof st then (None, st)
  else
    let '(s, found, rest) := take_line (is_items st) in
    if found then (Some s, MkIstream rest false)
    else (if is_empty s then None else Some s, MkIstream rest true).

(** [receiveString] and its copies. *)
Definition receive_string (what : string) : M istream string := λ st,
  match getline_nul st with
  | (Some s, st') => (Ok s, st')
  | (None, st') => (Throw what, st')
  end.

(** Code that reads through a fresh [FdBuf] over a copy of the descriptor. *)
Definition with_istream {A : Type} (m : M istream A) : M (list item) A := λ l,
  let '(r, st) := m (MkIstream l false) in (r, is_items st).

(** ** Lemmas *)

Lemma byte_of_ascii_of_byte (z : Z) : byte_of_ascii (ascii_of_byte z) = z mod 256.
Proof.
  unfold byte_of_ascii, ascii_of_byte. pose proof (Z.mod_pos_bound z 256 ltac:(lia)).
  rewrite Ascii.N_ascii_embedding; [lia|]. lia.
Qed.

Lemma length_enc_le (n : nat) (z : Z) : length (enc_le n z) = n.
Proof. revert z. induction n as [|n IH]; intros z; cbn; [done|]. by rewrite IH. Qed.

Lemma pow_256 (n : nat) : 2 ^ (8 * Z.of_nat n) = 256 ^ Z.of_nat n.
Proof. by rewrite (Z.pow_mul_r 2 8) by lia. Qed.

Lemma dec_le_enc_le (n : nat) (z : Z) : dec_le (enc_le n z) = z mod 256 ^ Z.of_nat n.
Proof.
  revert z. induction n as [|n IH]; intros z; cbn [enc_le dec_le].
  { cbn. by rewrite Z.mod_1_r. }
  rewrite byte_of_ascii_of_byte, IH, Nat2Z.inj_succ, Z.pow_succ_r by lia.
  rewrite Z.rem_mul_r by lia. lia.
Qed.

Lemma to_signed_roundtrip (n : nat) (z : Z) :
  (0 < n)%nat → in_signed n z = true → to_signed n (dec_le (enc_le n z)) = z.
Proof.
  intros Hn [H1%Z.leb_le H2%Z.ltb_lt]%andb_true_iff. rewrite dec_le_enc_le, <-pow_256.
  unfold to_signed. assert (2 ^ (8 * Z.of_nat n) = 2 * 2 ^ (8 * Z.of_nat n - 1)) as E.
  { rewrite <-Z.pow_succ_r by lia. f_equal. lia. }
  assert (0 < 2 ^ (8 * Z.of_nat n - 1)) by (apply Z.pow_pos_nonneg; lia).
  rewrite E. set (h := 2 ^ (8 * Z.of_nat n - 1)) in *.
  destruct (Z_lt_le_dec z 0) as [Hz|Hz].
  - replace (z mod (2 * h)) with (z + 2 * h)
      by (rewrite <-(Z.mod_small (z + 2 * h) (2 * h)) by lia;
          rewrite <-(Z_mod_plus_full z 1 (2 * h)); f_equal; lia).
    destruct (Z.ltb_spec (z + 2 * h) h); lia.
  - rewrite Z.mod_small by lia. destruct (Z.ltb_spec z h); lia.
Qed.

Lemma unsigned_roundtrip (n : nat) (z : Z) :
  in_unsigned n z = true → dec_le (enc_le n z) = z.
Proof.
  intros [H1%Z.leb_le H2%Z.ltb_lt]%andb_true_iff. rewrite dec_le_enc_le, <-pow_256.
  by apply Z.mod_small.
Qed.

#[export] Instance signed_wire_ok (n : nat) : WireOK (signed_wire (S n)).
Proof.
  split; [apply length_enc_le|]. intros t Ht. by apply to_signed_roundtrip; [lia|].
Qed.

#[export] Instance unsigned_wire_ok (n : nat) : WireOK (unsigned_wire n).
Proof. split; [apply length_enc_le|apply unsigned_roundtrip]. Qed.

#[export] Instance char_wire_ok : WireOK char_wire.
Proof. by split. Qed.

Lemma req_of_value_req (r : ReqType) : req_of_value (req_value r) = Some r.
Proof. by destruct r. Qed.

Lemma req_of_value_Some (z : Z) (r : ReqType) : req_of_value z = Some r → z = req_value r.
Proof. unfold req_of_value. intros [_ H%Z.eqb_eq]%List.find_some. done. Qed.

Lemma take_enc (n : nat) (z : Z) (l : bytes) : take n (enc_le n z ++ l) = enc_le n z.
Proof. apply take_app_length'. by rewrite length_enc_le. Qed.

Lemma drop_enc (n k : nat) (z : Z) (l : bytes) :
  (n ≤ k)%nat → drop k (enc_le n z ++ l) = drop (k - n) l.
Proof. intros Hk. rewrite drop_app_ge; by rewrite length_enc_le. Qed.

Lemma take_enc_exact (n : nat) (z : Z) : take n (enc_le n z) = enc_le n z.
Proof. apply take_ge. by rewrite length_enc_le. Qed.

Section LayoutLemmas.
Context `{Kernel}.

#[export] Instance okresp_wire_ok : WireOK okresp_wire.
Proof.
  split; intros [t b]; cbn [okresp_wire w_size w_enc w_dec w_valid ok_type ok_success].
  - by rewrite length_app, length_enc_le.
  - intros Ht. rewrite take_enc, drop_enc by done.
    rewrite to_signed_roundtrip by (done || lia). by destruct b.
Qed.

#[export] Instance stringresp_wire_ok : WireOK stringresp_wire.
Proof.
  split; intros [t b]; cbn [stringresp_wire w_size w_enc w_dec w_valid str_type str_success].
  - by rewrite length_app, length_enc_le.
  - intros Ht. rewrite take_enc, drop_enc by done.
    rewrite to_signed_roundtrip by (done || lia). by destruct b.
Qed.

#[export] Instance idresp_wire_ok : WireOK idresp_wire.
Proof.
  split; intros [t i]; cbn [idresp_wire w_size w_enc w_dec w_valid id_type id_id].
  - by rewrite !length_app, !length_enc_le.
  - intros [Ht Hi]%andb_true_iff. rewrite take_enc, drop_enc, Nat.sub_diag, drop_0, take_enc by done.
    by rewrite !to_signed_roundtrip by (done || lia).
Qed.

#[export] Instance mpirresp_wire_ok : WireOK mpirresp_wire.
Proof.
  split; intros [t m p j s n e]; cbn [mpirresp_wire w_size w_enc w_dec w_valid mr_type mr_mpir_id
    mr_launcher_pid mr_job_id mr_step_id mr_num_pids mr_error_msg_len].
  - by rewrite !length_app, !length_enc_le.
  - rewrite !andb_true_iff. intros [[[[[[Ht Hm] Hp] Hj] Hs] Hn] He]. f_equal.
    + exact (to_signed_roundtrip 8 t ltac:(lia) Ht).
    + exact (to_signed_roundtrip 4 m ltac:(lia) Hm).
    + exact (to_signed_roundtrip 4 p ltac:(lia) Hp).
    + exact (unsigned_roundtrip 4 j Hj).
    + exact (unsigned_roundtrip 4 s Hs).
    + exact (to_signed_roundtrip 4 n ltac:(lia) Hn).
    + exact (unsigned_roundtrip 8 e He).
Qed.

(** *** Any sequence of short reads gives the whole object *)

Lemma chunk_bounds (available asked : nat) :
  (0 < available)%nat → (0 < asked)%nat →
  (1 ≤ chunk available asked ≤ available ∧ chunk available asked ≤ asked)%nat.
Proof. unfold chunk. lia. Qed.

Lemma item_byte_Byte (l : bytes) : map item_byte (map Byte l) = l.
Proof. induction l as [|c l IH]; [done|]. cbn. by rewrite IH. Qed.

Lemma sys_read_run (l : list item) (capacity : nat) :
  l ≠ [] → (0 < capacity)%nat →
  ∃ n, (1 ≤ n ≤ length l)%nat ∧ (n ≤ capacity)%nat ∧
    sys_read capacity l = (Ok (map item_byte (take n l)), drop n l).
Proof.
  intros Hl Hc. exists (chunk (length l) capacity).
  destruct (chunk_bounds (length l) capacity); [destruct l; [done|cbn; lia]|done|].
  split_and!; [lia..|]. by destruct l.
Qed.

(** Enough bytes: the loop gives exactly the bytes asked for. *)
Lemma readLoop_full (fuel n : nat) (l : list item) :
  (n ≤ fuel)%nat → (n ≤ length l)%nat →
  readLoop fuel fd_reader n l = (Ok (map item_byte (take n l)), drop n l).
Proof.
  revert n l. induction fuel as [|fuel IH]; intros n l Hf Hl.
  { replace n with O by lia. by rewrite take_0, drop_0. }
  destruct n as [|n]; [by rewrite take_0, drop_0|]. cbn [readLoop].
  destruct (sys_read_run l (S n)) as (k & Hk1 & Hk2 & E); [intros ->; cbn in Hl; lia|lia|].
  assert (fd_reader (S n) l = (Ok (map item_byte (take k l)), drop k l)) as E'.
  { unfold fd_reader. rewrite (bind_run_Ok _ _ _ _ _ E).
    destruct l as [|x l]; [cbn in Hl; lia|]. by destruct k; [lia|]. }
  rewrite (bind_run_Ok _ _ _ _ _ E').
  assert (length (map item_byte (take k l)) = k) as Hlen
    by (rewrite length_map, length_take; lia).
  destruct (map item_byte (take k l)) as [|b bs] eqn:Eb; [cbn in Hlen; lia|].
  rewrite Hlen, <-Eb. rewrite (bind_run_Ok _ _ _ _ _ (IH (S n - k)%nat (drop k l)
    ltac:(lia) ltac:(rewrite length_drop; lia))).
  cbv [mret M_ret]. f_equal; [f_equal|].
  - rewrite <-map_app, take_take_drop. by replace (k + (S n - k))%nat with (S n) by lia.
  - rewrite drop_drop. f_equal. lia.
Qed.

(** Too few bytes: everything is consumed and the loop throws. *)
Lemma readLoop_short (fuel n : nat) (l : list item) :
  (n ≤ fuel)%nat → (length l < n)%nat →
  readLoop fuel fd_reader n l = (Throw "read failed: zero bytes read", []).
Proof.
  revert n l. induction fuel as [|fuel IH]; intros n l Hf Hl; [lia|].
  destruct n as [|n]; [lia|]. cbn [readLoop]. destruct l as [|x l]; [done|].
  destruct (sys_read_run (x :: l) (S n)) as (k & Hk1 & Hk2 & E); [done|lia|].
  assert (fd_reader (S n) (x :: l) = (Ok (map item_byte (take k (x :: l))), drop k (x :: l))) as E'.
  { unfold fd_reader. rewrite (bind_run_Ok _ _ _ _ _ E). by destruct k; [lia|]. }
  rewrite (bind_run_Ok _ _ _ _ _ E').
  assert (length (map item_byte (take k (x :: l))) = k) as Hlen
    by (rewrite length_map, length_take; lia).
  destruct (map item_byte (take k (x :: l))) as [|b bs] eqn:Eb; [cbn in Hlen; lia|].
  rewrite Hlen. by rewrite (bind_run_Throw _ _ _ _ _ (IH (S n - k)%nat (drop k (x :: l))
    ltac:(lia) ltac:(rewrite length_drop; lia))).
Qed.

Lemma fdReadLoop_enc {T : Type} (w : wire T) `{!WireOK w} (t : T) (rest : list item) :
  w_valid w t = true → fdReadLoop w (map Byte (w_enc w t) ++ rest) = (Ok t, rest).
Proof.
  intros Ht. unfold fdReadLoop.
  assert (length (map Byte (w_enc w t)) = w_size w) as Hl by by rewrite length_map, wire_length.
  rewrite (bind_run_Ok _ _ _ _ _ (readLoop_full (w_size w) (w_size w)
    (map Byte (w_enc w t) ++ rest) (le_n _) ltac:(rewrite length_app; lia))).
  rewrite take_app_length', drop_app_length' by done.
  rewrite item_byte_Byte. cbv [mret M_ret]. by rewrite wire_roundtrip.
Qed.

Lemma fdReadLoop_short {T : Type} (w : wire T) (l : list item) :
  (length l < w_size w)%nat → fdReadLoop w l = (Throw "read failed: zero bytes read", []).
Proof.
  intros Hl. unfold fdReadLoop.
  by rewrite (bind_run_Throw _ _ _ _ _ (readLoop_short (w_size w) (w_size w) l (le_n _) Hl)).
Qed.

Lemma writeLoop_run (fuel : nat) (buf : bytes) (out : list item) :
  (length buf ≤ fuel)%nat → writeLoop fuel buf out = (Ok tt, out ++ map Byte buf).
Proof.
  revert buf out. induction fuel as [|fuel IH]; intros buf out Hf.
  { destruct buf; [by rewrite app_nil_r|cbn in Hf; lia]. }
  destruct buf as [|b buf]; [cbn; by rewrite app_nil_r|]. cbn [writeLoop].
  destruct (chunk_bounds (length (b :: buf)) (length (b :: buf))) as [[H1 H2] _];
    [cbn; lia..|]. cbv zeta delta [sys_write mbind M_bind] beta.
  set (k := chunk _ _) in *. destruct k as [|k]; [lia|].
  rewrite IH by (rewrite length_drop; lia).
  by rewrite <-app_assoc, <-map_app, take_drop.
Qed.

Lemma fdWriteBytes_run (buf : bytes) (out : list item) :
  fdWriteBytes buf out = (Ok tt, out ++ map Byte buf).
Proof. by apply writeLoop_run. Qed.

Lemma fdWriteLoop_run {T : Type} (w : wire T) (t : T) (out : list item) :
  fdWriteLoop w t out = (Ok tt, out ++ map Byte (w_enc w t)).
Proof. apply fdWriteBytes_run. Qed.
End LayoutLemmas.

(** *** Strings *)

(** A string that survives [std::getline] over [FdBuf]. *)
Definition line_safe (s : string) : bool := nul_free s && no_char byte_FF s.

Lemma take_line_cstr (a : string) (rest : list item) :
  line_safe a = true →
  take_line (map Byte (list_ascii_of_string a ++ ["000"%char]) ++ rest) = (a, true, rest).
Proof.
  unfold line_safe, nul_free, no_char. induction a as [|c a IH]; [done|].
  cbn [string_forall]. intros [[Hc Ha]%andb_true_iff [Hf Hb]%andb_true_iff]%andb_true_iff.
  cbn. apply bool_decide_eq_true in Hc, Hf. rewrite !decide_False by done.
  rewrite IH by by apply andb_true_iff. done.
Qed.

Lemma c_str_line_safe (s : string) : line_safe s = true → c_str s = s.
Proof. intros [Hs _]%andb_true_iff. by apply c_str_id. Qed.

Lemma getline_cstr (s : string) (rest : list item) :
  line_safe s = true →
  getline_nul (MkIstream (map Byte (cstr_bytes s) ++ rest) false) = (Some s, MkIstream rest false).
Proof.
  intros Hs. unfold getline_nul, cstr_bytes. cbn [is_eof is_items].
  by rewrite c_str_line_safe, take_line_cstr by done.
Qed.

Lemma receive_cstr (what s : string) (rest : list item) :
  line_safe s = true →
  receive_string what (MkIstream (map Byte (cstr_bytes s) ++ rest) false)
  = (Ok s, MkIstream rest false).
Proof. intros Hs. unfold receive_string. by rewrite getline_cstr. Qed.

Lemma take_line_FF (a b : string) (rest : list item) :
  line_safe a = true →
  take_line (map Byte (list_ascii_of_string (a +:+ String byte_FF b)) ++ rest)
  = (a, false, map Byte (list_ascii_of_string b) ++ rest).
Proof.
  unfold line_safe, nul_free, no_char. induction a as [|c a IH]; [done|].
  cbn [string_forall]. intros [[Hc Ha]%andb_true_iff [Hf Hb]%andb_true_iff]%andb_true_iff.
  cbn. apply bool_decide_eq_true in Hc, Hf. rewrite !decide_False by done.
  rewrite IH by by apply andb_true_iff. done.
Qed.

(** ** Properties *)

Section Theorems.
Context `{Kernel}.

(** C16 Objects survive the sockets whatever the kernel does: for every way of
    splitting the transfer into short writes and short reads, and every value of
    the padding, writing an object appends its representation and reading it back
    gives the object and leaves what follows; when the peer closes early, reading
    throws. *)
Theorem object_transfer {T : Type} (w : wire T) (t : T) (out rest : list item) :
  WireOK w → w_valid w t = true →
  ∃ sent, length sent = w_size w ∧
    fdWriteLoop w t out = (Ok tt, out ++ sent) ∧
    fdReadLoop w (sent ++ rest) = (Ok t, rest) ∧
    ∀ n, (n < w_size w)%nat →
      fdReadLoop w (take n sent) = (Throw "read failed: zero bytes read", []).
Proof.
  intros Hw Ht. exists (map Byte (w_enc w t)).
  assert (length (map Byte (w_enc w t)) = w_size w) as Hl by by rewrite length_map, wire_length.
  split_and!; [done|apply fdWriteLoop_run|by apply fdReadLoop_enc|].
  intros n Hn. apply fdReadLoop_short. rewrite length_take. lia.
Qed.

(** A string with a byte 255 is cut there: [FdBuf::underflow] returns the byte
    as a negative [char], which [std::getline] takes for the end of the stream.
    The part before it is accepted as the whole string (or, when empty, reading
    fails), no further string can be read through the stream, and the rest of the
    string stays in the socket, in front of whatever the peer sends next. *)
Theorem byte_255_ends_string (a b : string) (rest : list item) :
  line_safe a = true → nul_free b = true →
  getline_nul (MkIstream (map Byte (cstr_bytes (a +:+ String byte_FF b)) ++ rest) false)
  = (if is_empty a then None else Some a,
     MkIstream (map Byte (cstr_bytes b) ++ rest) true) ∧
  ∀ l, getline_nul (MkIstream l true) = (None, MkIstream l true).
Proof.
  intros Ha Hb. split; [|done]. unfold getline_nul, cstr_bytes. cbn [is_eof is_items].
  assert (nul_free a = true) as Ha' by by apply andb_true_iff in Ha as [? _].
  rewrite (c_str_id b), (c_str_id (a +:+ String byte_FF b)) by
    (done || (rewrite nul_free_app, Ha'; cbn; by rewrite <-Hb)).
  rewrite !map_app, <-!app_assoc, take_line_FF by done. done.
Qed.
End Theorems.

#[export] Instance demo_kernel : Kernel := {| k_chunk _ _ := 3%nat; k_padding := "x"%char |}.

Lemma object_transfer_witness :
  ∃ sent, length sent = 16%nat ∧
    fdWriteLoop idresp_wire (MkIDResp RESP_ID (-7)) [] = (Ok tt, sent) ∧
    fdReadLoop idresp_wire sent = (Ok (MkIDResp RESP_ID (-7)), []).
Proof.
  destruct (object_transfer idresp_wire (MkIDResp RESP_ID (-7)) [] [] _ eq_refl)
    as (sent & H1 & H2 & H3 & _).
  exists sent. rewrite app_nil_r in H3. done.
Defined.

Lemma byte_255_ends_string_witness :
  getline_nul (MkIstream (map Byte (cstr_bytes ("a" +:+ String byte_FF "bc")) ++ []) false)
  = (Some "a", MkIstream (map Byte (cstr_bytes "bc") ++ []) true).
Proof. exact (proj1 (byte_255_ends_string "a" "bc" [] eq_refl eq_refl)). Defined.
