(* ===== verification/BackendFiles.v ===== *)
(** * Files for the compute nodes (slurmLayoutFile_t and slurmPidFile_t of
    src/src/cti_defs.h)

    The layout of a job and its process ids, as the frontends stage them for the
    backend: a header with a count and entries of a fixed size.  [decode_layout] and
    [decode_pids] are what the C code of the backend makes of the bytes. *)

From S2P Require Import Prelude Wire.

Definition HOST_NAME_MAX : nat := 64.

(** A name in a zeroed array of [HOST_NAME_MAX] characters. *)
Definition padded_name (hostname : string) : bytes :=
  list_ascii_of_string hostname ++ replicate (HOST_NAME_MAX - String.length hostname) "000"%char.

(** [make_layoutFileEntry] *)
Definition layout_entry (hostname : string) (firstPE numPEs : Z) : res bytes :=
  let hostname_len := S (String.length hostname) in
  if (HOST_NAME_MAX <? hostname_len)%nat
  then Throw "hostname too large for layout buffer"
  else Ok (padded_name hostname ++ enc_le 4 numPEs ++ enc_le 4 firstPE).

(** The entries of hosts, each with its number of processes and the first of them. *)
Fixpoint layout_file_entries (l : list (string * Z * Z)) : res bytes :=
  match l with
  | [] => Ok []
  | (hostname, numPEs, firstPE) :: l' =>
      e ← layout_entry hostname firstPE numPEs; rest ← layout_file_entries l'; mret (e ++ rest)
  end.

Definition layout_file (l : list (string * Z * Z)) : res bytes :=
  es ← layout_file_entries l; mret (enc_le 4 (Z.of_nat (length l)) ++ es).

Definition pid_file (pids : list Z) : bytes :=
  enc_le 4 (Z.of_nat (length pids)) ++ flat_map (enc_le 4) pids.

(** ** Reading them *)

Definition dec_int (l : bytes) : Z := to_signed 4 (dec_le (take 4 l)).

(** The host name ends at its first NUL. *)
Definition decode_name (l : bytes) : string := c_str (string_of_list_ascii (take HOST_NAME_MAX l)).

Definition decode_entry (l : bytes) : string * Z * Z :=
  (decode_name l, dec_int (drop HOST_NAME_MAX l),
   dec_int (drop (HOST_NAME_MAX + 4) l)).

Fixpoint decode_entries (n : nat) (l : bytes) : list (string * Z * Z) :=
  match n with
  | O => []
  | S n' => decode_entry l :: decode_entries n' (drop (HOST_NAME_MAX + 8) l)
  end.

Definition decode_layout (l : bytes) : list (string * Z * Z) :=
  decode_entries (Z.to_nat (dec_int l)) (drop 4 l).

Fixpoint decode_ints (n : nat) (l : bytes) : list Z :=
  match n with O => [] | S n' => dec_int l :: decode_ints n' (drop 4 l) end.

Definition decode_pids (l : bytes) : list Z := decode_ints (Z.to_nat (dec_int l)) (drop 4 l).

(** Pairs of a process and a rank, in the layout of PALS. *)
Fixpoint decode_pairs (n : nat) (l : bytes) : list (Z * Z) :=
  match n with O => [] | S n' => (dec_int l, dec_int (drop 4 l)) :: decode_pairs n' (drop 8 l) end.

(** ** What is written is read *)

Lemma dec_int_enc (z : Z) (rest : bytes) : in_int z = true → dec_int (enc_le 4 z ++ rest) = z.
Proof.
  intros Hz. unfold dec_int. rewrite take_app_length' by by rewrite length_enc_le.
  apply to_signed_roundtrip; [lia|]. unfold in_int, int_min, int_max in Hz. unfold in_signed.
  apply andb_true_iff in Hz as [H1%Z.leb_le H2%Z.leb_le].
  apply andb_true_iff. rewrite Z.leb_le, Z.ltb_lt. lia.
Qed.

Lemma drop_encoded (n : nat) (z : Z) (rest : bytes) : drop n (enc_le n z ++ rest) = rest.
Proof. by rewrite drop_app_length' by by rewrite length_enc_le. Qed.

(** Entries that fit: names of at most 63 characters and counts of type int. *)
Definition entry_fits (e : string * Z * Z) : Prop :=
  let '(hostname, numPEs, firstPE) := e in
  (String.length hostname < HOST_NAME_MAX)%nat ∧ nul_free hostname = true ∧
  in_int numPEs = true ∧ in_int firstPE = true.

Lemma string_of_list_app (a b : list ascii) :
  string_of_list_ascii (a ++ b) = string_of_list_ascii a +:+ string_of_list_ascii b.
Proof. induction a as [|x a IH]; [done|]. cbn. by rewrite IH. Qed.

Lemma c_str_padded (s : string) (n : nat) :
  nul_free s = true → c_str (s +:+ string_of_list_ascii (replicate (S n) "000"%char)) = s.
Proof. intros Hs. unfold c_str. cbn. by rewrite split_at_app. Qed.

Definition name_fits (hostname : string) : Prop :=
  (String.length hostname < HOST_NAME_MAX)%nat ∧ nul_free hostname = true.

Lemma length_padded_name (hostname : string) :
  name_fits hostname → length (padded_name hostname) = HOST_NAME_MAX.
Proof. intros [Hl _]. unfold padded_name. rewrite length_app, length_list_ascii, length_replicate. lia. Qed.

Lemma decode_padded_name (hostname : string) (rest : bytes) :
  name_fits hostname → decode_name (padded_name hostname ++ rest) = hostname.
Proof.
  intros Hn. pose proof (length_padded_name _ Hn) as Hlen. destruct Hn as [Hl Hn].
  unfold decode_name. rewrite take_app_length' by done. unfold padded_name.
  rewrite string_of_list_app, string_of_list_ascii_of_string.
  destruct (HOST_NAME_MAX - String.length hostname)%nat as [|n] eqn:E; [lia|].
  by apply c_str_padded.
Qed.

(** What follows a name. *)
Lemma drop_padded_name (hostname : string) (k : nat) (rest : bytes) :
  name_fits hostname → drop (HOST_NAME_MAX + k) (padded_name hostname ++ rest) = drop k rest.
Proof. intros Hn. by rewrite <-(length_padded_name _ Hn), drop_app_add. Qed.

Lemma entry_roundtrip (hostname : string) (numPEs firstPE : Z) (rest : bytes) :
  entry_fits (hostname, numPEs, firstPE) →
  ∃ b, layout_entry hostname firstPE numPEs = Ok b ∧ length b = (HOST_NAME_MAX + 8)%nat ∧
       decode_entry (b ++ rest) = (hostname, numPEs, firstPE).
Proof.
  intros (Hl & Hn & H1 & H2). assert (name_fits hostname) as Hname by done. unfold layout_entry.
  rewrite (proj2 (Nat.ltb_ge _ _)) by lia. eexists. split; [done|]. split.
  { by rewrite !length_app, !length_enc_le, length_padded_name. }
  unfold decode_entry. rewrite <-!app_assoc, decode_padded_name by done.
  rewrite <-(Nat.add_0_r HOST_NAME_MAX) at 1. rewrite !drop_padded_name by done.
  by rewrite drop_0, drop_encoded, !dec_int_enc.
Qed.

Lemma layout_file_roundtrip (l : list (string * Z * Z)) :
  Forall entry_fits l → in_int (Z.of_nat (length l)) = true →
  ∃ b, layout_file l = Ok b ∧ decode_layout b = l.
Proof.
  intros Hl Hn.
  assert (∃ b, layout_file_entries l = Ok b ∧ decode_entries (length l) b = l) as (b & E & Hd).
  { clear Hn. induction Hl as [|[[h n] f] l Hf _ (b & E & Hd)]; [by exists []|].
    destruct (entry_roundtrip h n f b Hf) as (e & He & Hlen & Hdec).
    exists (e ++ b). cbn [layout_file_entries length decode_entries]. rewrite He. cbn. rewrite E. cbn.
    split; [done|]. rewrite Hdec. f_equal. by rewrite drop_app_length' by done. }
  unfold layout_file. rewrite E. eexists. split; [done|]. unfold decode_layout.
  rewrite dec_int_enc by done. rewrite drop_encoded. by rewrite Nat2Z.id.
Qed.

Lemma pid_file_roundtrip (pids : list Z) :
  Forall (λ p, in_int p = true) pids → in_int (Z.of_nat (length pids)) = true →
  decode_pids (pid_file pids) = pids.
Proof.
  intros Hp Hn. unfold decode_pids, pid_file. rewrite dec_int_enc, drop_encoded, Nat2Z.id by done.
  clear Hn. induction Hp as [|p pids Hp _ IH]; [done|]. cbn [flat_map length decode_ints].
  by rewrite dec_int_enc, drop_encoded, IH.
Qed.
