(* ===== verification/SlurmLayout.v ===== *)
(** * Slurm: the layout of a job
    (src/src/frontend/frontend_impl/SLURM/Frontend.cpp and Frontend.hpp)

    The output of sattach for each component of a job, the hosts and ranks read from
    it, the files made of them for the backend, and the questions an application
    answers from them. *)

From S2P Require Import Prelude Split Host System SlurmJobs Wire BackendFiles.

(** SLURMFrontend::NodeLayout and StepLayout *)
Record NodeLayout : Type := MkNode { hostname : string; numPEs : Z; firstPE : Z }.
Record StepLayout : Type := MkStep { step_numPEs : Z; nodes : list NodeLayout }.

(** [hostname.substr(1, hostname.length() - 3)]: the length may wrap around. *)
Definition strip_host (field : string) : res string :=
  match String.length field with
  | O => Throw "basic_string::substr"
  | 1%nat | 2%nat => Ok (drop_str 1 field)
  | len => Ok (substr 1 (len - 3) field)
  end.

Definition layout_help (jobId : string) : string := "Try running `sattach --layout " +:+ jobId +:+ "`".

(** One line: the number of processes, the first rank and the host. *)
Definition parse_node (line : string) (running_rank_total pe_offset : Z) : res NodeLayout :=
  match split_string 6 (removeLeadingWhitespace line) " " with
  | [_; nodeNum; host; rawNumPEs; _; rawPE0] =>
      pe_0 ← stoul rawPE0;
      let pe_0 := if (0 <? running_rank_total) && (pe_0 =? 0) then uint64 (pe_0 + running_rank_total)
                  else pe_0 in
      num_pes ← stoul rawNumPEs;
      name ← strip_host host;
      mret (MkNode name num_pes (uint64 (pe_0 + pe_offset)))
  | _ => Undef "split"
  end.

(** The lines of the nodes, of which [num_nodes] were announced. *)
Fixpoint parse_nodes (jobId : string) (num_nodes : Z) (lines : list string)
    (i running_rank_total pe_offset : Z) : res (list NodeLayout) :=
  match lines with
  | [] => Ok []
  | line :: lines' =>
      if num_nodes <=? i
      then Throw ("Target job has " +:+ to_string num_nodes +:+ " nodes, but received " +:+
                  "extra layout information from SATTACH. " +:+ layout_help jobId)
      else
        node ← parse_node line running_rank_total pe_offset;
        rest ← parse_nodes jobId num_nodes lines' (i + 1)
                 (int32 (running_rank_total + numPEs node)) pe_offset;
        mret (node :: rest)
  end.

Definition parse_layout (jobId : string) (pe_offset : Z) (lines : list string) : res StepLayout :=
  match lines with
  | [] => Throw ("End of layout output from SATTACH (expected header). " +:+ layout_help jobId)
  | header :: lines =>
      if bool_decide (header ≠ "Job step layout:")
      then if starts_with "sattach: error:" header then Throw header
           else Throw ("Unexpected layout output from SATTACH: '" +:+ header +:+ "'. " +:+ layout_help jobId)
      else
        match lines with
        | [] => Throw ("End of layout output from SATTACH (expected summary). " +:+ layout_help jobId)
        | summary :: lines =>
            let '(rawNumPEs, _, rawNumNodes) := split3 (removeLeadingWhitespace summary) " " in
            total ← stoul rawNumPEs;
            num_nodes ← cti_stoi rawNumNodes "number of nodes from sattach";
            if num_nodes <? 0 then Throw "vector::reserve"
            else
              nodes ← parse_nodes jobId num_nodes (tail lines) 0 0 pe_offset;
              mret (MkStep total nodes)
        end
  end.

Section Layout.
Context `{Commands} `{SlurmHost}.

Definition sattach_argv (jobId : string) : list string := ["sattach"; "--layout"; "-Q"; jobId].

Definition getStepLayout (jobId : string) (pe_offset : Z) : M sys StepLayout :=
  lines ← Execvp (sattach_argv jobId);
  layout ← lift (parse_layout jobId pe_offset lines);
  sattachCode ← getExitStatus (sattach_argv jobId);
  if 0 <? sattachCode
  then throw ("SATTACH failed. " +:+ layout_help jobId)
  else mret layout.

(** The layouts found, the number that failed and the last message. *)
Fixpoint fetch_layouts (jobIds : list HetJobId) (next_pe_start : Z) (result : gmap string StepLayout)
    (failed : nat) (message : string) : M sys (gmap string StepLayout * nat * string) :=
  match jobIds with
  | [] => mret (result, failed, message)
  | hetJobId :: jobIds' =>
      r ← try_catch (layout ← getStepLayout (get_sattach_id hetJobId) next_pe_start; mret (inl layout))
            (λ what, mret (inr what));
      match r with
      | inl layout =>
          fetch_layouts jobIds' (uint64 (next_pe_start + step_numPEs layout))
            (<[get_srun_id hetJobId := layout]> result) failed message
      | inr what => fetch_layouts jobIds' next_pe_start result (S failed) (c_str what)
      end
  end.

Definition fetchStepLayout (jobIds : list HetJobId) : M sys (gmap string StepLayout) :=
  check ← getenv SLURM_CHECK_ARCH;
  (if match check with Some v => negb (starts_with "0" v) | None => true end
   then verify_matching_architectures jobIds else mret tt);;
  '(result, failed, message) ← fetch_layouts jobIds 0 ∅ 0%nat "";
  if (0 <? failed)%nat
  then if (failed =? length jobIds)%nat then throw message
       else throw (to_string (Z.of_nat failed) +:+ " of " +:+ to_string (Z.of_nat (length jobIds)) +:+
                   " MPMD job steps failed to launch. Ensure your MPMD job can be launched " +:+
                   "successfully outside of this tool (" +:+ message +:+ ")")
  else mret result.
End Layout.

(** ** What is made of the layouts *)

(** Iteration over the map. *)
Definition id_layouts (layouts : gmap string StepLayout) : list (string * StepLayout) :=
  omap (λ id, (id,.) <$> layouts !! id) (sorted_keys layouts).

Definition all_nodes (layouts : gmap string StepLayout) : list NodeLayout :=
  flat_map (λ p : string * StepLayout, nodes p.2) (id_layouts layouts).

(** [std::accumulate] with an [int]. *)
Definition accumulate (f : StepLayout → Z) (layouts : gmap string StepLayout) : Z :=
  fold_left (λ sum p, int32 (sum + f p.2)) (id_layouts layouts) 0.

Definition getNumPEs (layouts : gmap string StepLayout) : Z := uint64 (accumulate step_numPEs layouts).

Definition getNumHosts (layouts : gmap string StepLayout) : Z :=
  uint64 (accumulate (λ l, Z.of_nat (length (nodes l))) layouts).

Definition getHostnameList (layouts : gmap string StepLayout) : list string :=
  map hostname (all_nodes layouts).

Definition getHostsPlacement (layouts : gmap string StepLayout) : list (string * Z) :=
  map (λ n, (hostname n, numPEs n)) (all_nodes layouts).

(** The bytes of the layout file and of the file of process ids. *)
Definition createNodeLayoutFile (layouts : gmap string StepLayout) : res bytes :=
  es ← layout_file_entries (map (λ n, (hostname n, numPEs n, firstPE n)) (all_nodes layouts));
  mret (enc_le 4 (accumulate (λ l, Z.of_nat (length (nodes l))) layouts) ++ es).

Definition createPIDListFile (pids : list Z) : bytes := pid_file pids.

(** ** Theorems: what sattach prints is what is read *)

(** A host with the ranks on it. *)
Definition placed : Type := string * list Z.

Definition placed_PEs (p : placed) : Z := Z.of_nat (length p.2).

Definition first_rank (p : placed) : Z := default 0 (head p.2).

(** "  Node {nodeNum} ({hostname}), {numPEs} task(s): PE_0 {PE_i }..." *)
Definition node_line (k : Z) (p : placed) : string :=
  "  " +:+ (join " " ["Node"; to_string k; "(" +:+ p.1 +:+ "),"; to_string (placed_PEs p); "task(s):";
                    to_string (first_rank p)] +:+
  match tail p.2 with [] => "" | rs => String " " (join " " (map to_string rs)) end).

Fixpoint node_lines (k : Z) (l : list placed) : list string :=
  match l with [] => [] | p :: l' => node_line k p :: node_lines (k + 1) l' end.

Definition total_PEs (l : list placed) : Z := foldr (λ p z, placed_PEs p + z) 0 l.

(** "Job step layout:", "  {numPEs} tasks, {num_nodes} nodes ({hostname}...)", a line
    that is skipped, and the nodes. *)
Definition layout_lines (l : list placed) : list string :=
  "Job step layout:" ::
  ("  " +:+ (to_string (total_PEs l) +:+ " tasks, " +:+ to_string (Z.of_nat (length l)) +:+ " nodes (" +:+
             join " " (map fst l) +:+ ")")) ::
  "" :: node_lines 0 l.

(** Hosts and ranks that can be printed. *)
Definition host_char (c : ascii) : bool :=
  negb (bool_decide (c ∈ [" "%char; "010"%char; "255"%char])).

Definition placed_ok (p : placed) : Prop :=
  string_forall host_char p.1 = true ∧ p.2 ≠ [] ∧ Forall is_uint32 p.2 ∧ placed_PEs p < 2 ^ 31.

(** The layout meant: ranks that start again from 0 continue after the nodes before. *)
Fixpoint laid_out (offset running : Z) (l : list placed) : list NodeLayout :=
  match l with
  | [] => []
  | p :: l' =>
      let first := if (0 <? running) && (first_rank p =? 0) then running else first_rank p in
      MkNode p.1 (placed_PEs p) (first + offset) :: laid_out offset (running + placed_PEs p) l'
  end.

Lemma host_chars (d : ascii) (h : string) :
  d ∈ [" "%char; "010"%char; "255"%char] → string_forall host_char h = true → no_char d h = true.
Proof.
  intros Hd. apply string_forall_impl. unfold host_char. intros c Hc%negb_true_iff.
  apply bool_decide_eq_false in Hc. apply bool_decide_eq_true. by intros ->.
Qed.

Lemma strip_host_parens (h : string) : strip_host ("(" +:+ h +:+ "),") = Ok h.
Proof.
  unfold strip_host.
  assert (String.length ("(" +:+ h +:+ "),") = String.length h + 3)%nat as E
    by (cbn; rewrite string_length_app; cbn; lia).
  rewrite E. replace (String.length h + 3)%nat with (S (S (S (String.length h)))) by lia.
  cbv iota. replace (S (S (S (String.length h))) - 3)%nat with (String.length h) by lia.
  f_equal. apply (substr_app "(" h "),").
Qed.

Lemma last_char_app (a b : string) : b ≠ "" → last_char (a +:+ b) = last_char b.
Proof.
  intros Hb. induction a as [|x a IH]; [done|]. cbn. rewrite IH.
  destruct (a +:+ b) eqn:E; [|done]. by destruct a, b.
Qed.

Lemma last_char_cons (c x : ascii) (s : string) : last_char s = Some x → last_char (String c s) = Some x.
Proof. by destruct s. Qed.

Lemma last_char_split (s : string) (x : ascii) : last_char s = Some x → ∃ m, s = m +:+ String x "".
Proof.
  induction s as [|c s IH]; [done|]. destruct s as [|d s]; [intros [= ->]; by exists ""|].
  intros E. destruct (IH E) as [m Hm]. exists (String c m). cbn. by rewrite <-Hm.
Qed.

Lemma string_forall_last (q : ascii → bool) (s : string) :
  s ≠ "" → string_forall q s = true → ∃ x, last_char s = Some x ∧ q x = true.
Proof.
  intros Hne. induction s as [|c s IH]; [done|]. cbn. intros [Hc Hs]%andb_true_iff.
  destruct s as [|d s]; [by exists c|]. by apply IH.
Qed.

Lemma to_string_last (z : Z) : ∃ x, last_char (to_string z) = Some x ∧ blank x = false.
Proof.
  destruct (string_forall_last (λ c, negb (blank c)) (to_string z)) as (x & Hx & Hb).
  - apply to_string_nonempty.
  - eapply string_forall_impl; [|apply to_string_chars]. intros c Hc. apply negb_true_iff.
    unfold blank. destruct (bool_decide (c = " "%char)) eqn:E1.
    { apply bool_decide_eq_true in E1. by subst. }
    destruct (bool_decide (c = "009"%char)) eqn:E2; [|done].
    apply bool_decide_eq_true in E2. by subst.
  - exists x. by apply negb_true_iff in Hb.
Qed.

Lemma join_snoc (d : ascii) (fs : list string) (f : string) :
  ∃ pre, join d (fs ++ [f]) = pre +:+ f.
Proof.
  induction fs as [|g fs [pre IH]]; [by exists ""|].
  exists (g +:+ String d pre). cbn [app]. destruct (fs ++ [f]) eqn:E; [by destruct fs|].
  rewrite join_cons, IH, string_app_assoc. done.
Qed.

Lemma join_numbers_last (z : Z) (rs : list Z) :
  ∃ x, last_char (join " " (map to_string (z :: rs))) = Some x ∧ blank x = false.
Proof.
  revert z. induction rs as [|r rs IH]; intros z; [apply to_string_last|].
  destruct (IH r) as (x & Hx & Hb). exists x. split; [|done]. cbn [map]. rewrite join_cons.
  rewrite last_char_app by done. by apply last_char_cons.
Qed.

Lemma node_line_core (k : Z) (p : placed) :
  p.2 ≠ [] → removeLeadingWhitespace (node_line k p) = drop_str 2 (node_line k p).
Proof.
  intros Hne. unfold node_line. set (core := join _ _ +:+ _). change (drop_str 2 _) with core.
  assert (∃ x, last_char core = Some x ∧ blank x = false) as (x & Hx & Hb).
  { unfold core. destruct (tail p.2) as [|r rs].
    - rewrite string_app_nil_r.
      destruct (join_snoc " " ["Node"; to_string k; "(" +:+ p.1 +:+ "),"; to_string (placed_PEs p);
                          "task(s):"] (to_string (first_rank p))) as [pre Hpre].
      cbn [app] in Hpre. rewrite Hpre, last_char_app by apply to_string_nonempty.
      apply to_string_last.
    - destruct (join_numbers_last r rs) as (x & Hx & Hb). exists x. split; [|done].
      rewrite last_char_app by done. by apply last_char_cons. }
  apply last_char_split in Hx as [m Hm]. destruct m as [|c m].
  { exfalso. unfold core in Hm. cbn in Hm. congruence. }
  assert (c = "N"%char) as -> by (unfold core in Hm; cbn in Hm; congruence).
  by apply (removeLeadingWhitespace_core "  " core m "N" x).
Qed.

Lemma parse_node_line (k running offset : Z) (p : placed) :
  placed_ok p → 0 ≤ running → 0 ≤ offset → running + offset < 2 ^ 64 - 2 ^ 32 →
  parse_node (node_line k p) running offset =
  Ok (MkNode p.1 (placed_PEs p)
        ((if (0 <? running) && (first_rank p =? 0) then running else first_rank p) + offset)).
Proof.
  destruct p as [h ranks]. intros (Hh%(host_chars " ") & Hne & Hr & Hl) Hrun Hoff Hsum; [|set_solver].
  cbn [fst snd] in *. unfold parse_node. rewrite node_line_core by done. unfold node_line. cbn [fst snd].
  set (fields := ["Node"; to_string k; "(" +:+ h +:+ "),"; to_string (placed_PEs (h, ranks)); "task(s):";
                  to_string (first_rank (h, ranks))]).
  assert (Forall (λ f, no_char " " f = true) fields) as Hfields.
  { assert (∀ z, no_char " " (to_string z) = true) as Hz by (intros z; by apply to_string_no_char).
    repeat constructor; try apply Hz. by rewrite (no_char_app " " "("), no_char_app, Hh. }
  change (drop_str 2 _) with
    (join " " fields +:+ match tail ranks with [] => "" | rs => String " " (join " " (map to_string rs)) end).
  assert (is_uint32 (first_rank (h, ranks))) as Hf.
  { destruct ranks; [done|]. by inversion Hr. }
  assert (0 ≤ placed_PEs (h, ranks) < 2 ^ 32) as Hn by (unfold placed_PEs in *; cbn [snd] in *; lia).
  assert (∃ last, split_string 6 (join " " fields +:+
      match tail ranks with [] => "" | rs => String " " (join " " (map to_string rs)) end) " " =
      ["Node"; to_string k; "(" +:+ h +:+ "),"; to_string (placed_PEs (h, ranks)); "task(s):"; last] ∧
      stoul last = Ok (first_rank (h, ranks))) as (last & -> & Hlast).
  { unfold is_uint32 in Hf. change 6%nat with (length fields). destruct (tail ranks) as [|r rs].
    - rewrite string_app_nil_r, (split_string_join " " fields) by done.
      eexists. split; [done|]. apply stoul_to_string. lia.
    - rewrite (split_string_tail " " fields) by done. cbv zeta. destruct (is_empty _).
      + eexists. split; [done|]. apply stoul_to_string. lia.
      + eexists. split; [done|]. apply stoul_stop; [done|lia]. }
  unfold is_uint32 in Hf. rewrite Hlast. cbn [mbind res_bind].
  rewrite stoul_to_string by lia. cbn [mbind res_bind].
  rewrite strip_host_parens. cbn [mbind res_bind mret res_ret]. f_equal. f_equal.
  unfold uint64. destruct ((0 <? running) && (first_rank (h, ranks) =? 0)) eqn:E.
  - apply andb_true_iff in E as [_ ->%Z.eqb_eq]. rewrite !Z.mod_small; [lia|..]; rewrite ?Z.mod_small; lia.
  - rewrite Z.mod_small; [done|]. lia.
Qed.

Lemma int32_small (z : Z) : 0 ≤ z < 2 ^ 31 → int32 z = z.
Proof. intros Hz. unfold int32. rewrite Z.mod_small; lia. Qed.

Lemma total_PEs_nonneg (l : list placed) : 0 ≤ total_PEs l.
Proof. induction l as [|p l IH]; cbn; [done|]. unfold total_PEs, placed_PEs in *. lia. Qed.

Lemma parse_node_lines (jobId : string) (n k running offset : Z) (l : list placed) :
  Forall placed_ok l → k + Z.of_nat (length l) ≤ n → 0 ≤ running → running + total_PEs l < 2 ^ 31 →
  0 ≤ offset < 2 ^ 63 →
  parse_nodes jobId n (node_lines k l) k running offset = Ok (laid_out offset running l).
Proof.
  intros Hl. revert k running. induction Hl as [|p l Hp _ IH]; intros k running Hk Hr Hs Ho; [done|].
  cbn [node_lines parse_nodes laid_out]. cbn [length] in Hk.
  pose proof (total_PEs_nonneg l). unfold total_PEs in Hs. cbn [foldr] in Hs. fold (total_PEs l) in Hs.
  assert (0 ≤ placed_PEs p) by (unfold placed_PEs; lia).
  destruct (Z.leb_spec n k); [lia|]. rewrite parse_node_line by (done || lia).
  cbn [mbind res_bind numPEs]. rewrite int32_small by lia. rewrite IH by lia. done.
Qed.

(** The first line of a layout with its blanks removed. *)
Lemma summary_parsed (n m : Z) (hosts : string) :
  split3 (removeLeadingWhitespace
    ("  " +:+ (to_string n +:+ " tasks, " +:+ to_string m +:+ " nodes (" +:+ hosts +:+ ")"))) " " =
  (to_string n, "tasks,", to_string m +:+ " nodes").
Proof.
  set (core := to_string n +:+ _).
  assert (removeLeadingWhitespace ("  " +:+ core) = core) as ->.
  { destruct (to_string n) as [|c t] eqn:E; [by apply to_string_nonempty in E|].
    apply (removeLeadingWhitespace_core "  " core
             (t +:+ " tasks, " +:+ to_string m +:+ " nodes (" +:+ hosts) c ")"); [done| | |done].
    - unfold core. cbn. by repeat (rewrite !string_app_assoc; cbn).
    - pose proof (to_string_chars n) as Hc. rewrite E in Hc. cbn in Hc.
      apply andb_true_iff in Hc as [Hc _]. unfold blank.
      destruct (bool_decide (c = " "%char)) eqn:E1; [apply bool_decide_eq_true in E1; by subst|].
      destruct (bool_decide (c = "009"%char)) eqn:E2; [apply bool_decide_eq_true in E2; by subst|done]. }
  set (fields := [to_string n; "tasks,"; to_string m]).
  replace core with (join " " fields +:+ String " " ("nodes (" +:+ hosts +:+ ")")).
  2: { unfold core, fields. cbn. by rewrite !string_app_assoc. }
  unfold split3. change 3%nat with (length fields).
  assert (∀ z, no_char " " (to_string z) = true) as Hz by (intros z; by apply to_string_no_char).
  assert (Forall (λ f, no_char " " f = true) fields) as Hf by (repeat constructor; apply Hz).
  by rewrite split_string_tail.
Qed.

Lemma layout_parsed (jobId : string) (offset : Z) (l : list placed) :
  Forall placed_ok l → total_PEs l < 2 ^ 31 → Z.of_nat (length l) < 2 ^ 31 → 0 ≤ offset < 2 ^ 63 →
  parse_layout jobId offset (layout_lines l) = Ok (MkStep (total_PEs l) (laid_out offset 0 l)).
Proof.
  intros Hl Ht Hn Ho. unfold parse_layout, layout_lines. rewrite bool_decide_false by tauto.
  rewrite summary_parsed. pose proof (total_PEs_nonneg l).
  rewrite stoul_to_string by lia. cbn [mbind res_bind]. unfold cti_stoi.
  rewrite (stoi_stop _ " " "nodes") by (done || (unfold in_int, int_min, int_max; lia)).
  cbn [mbind res_bind]. destruct (Z.ltb_spec (Z.of_nat (length l)) 0); [lia|]. cbn [tail].
  by rewrite parse_node_lines by (done || lia).
Qed.

Lemma no_char_cons (c x : ascii) (s : string) :
  no_char c (String x s) = bool_decide (x ≠ c) && no_char c s.
Proof. done. Qed.

(** The text of a layout passes through a descriptor and comes apart into its lines. *)
Lemma no_char_join (c d : ascii) (fs : list string) :
  c ≠ d → Forall (λ f, no_char c f = true) fs → no_char c (join d fs) = true.
Proof.
  intros Hcd. induction 1 as [|f fs Hf _ IH]; [done|]. destruct fs as [|g fs]; [done|].
  rewrite join_cons, no_char_app, Hf, no_char_cons, IH, andb_true_r.
  by apply bool_decide_eq_true.
Qed.

(** The characters that end a line, or the stream. *)
Definition ends_text (c : ascii) : Prop := c = "010"%char ∨ c = "255"%char.

Lemma no_char_number (c : ascii) (z : Z) : ends_text c → no_char c (to_string z) = true.
Proof. intros [->| ->]; by apply to_string_no_char. Qed.

Lemma no_char_numbers (c : ascii) (zs : list Z) :
  ends_text c → no_char c (join " " (map to_string zs)) = true.
Proof.
  intros Hc. apply no_char_join; [by destruct Hc as [->| ->]|].
  apply Forall_fmap, Forall_true. intros z. by apply no_char_number.
Qed.

Lemma no_char_host (c : ascii) (p : placed) : ends_text c → placed_ok p → no_char c p.1 = true.
Proof. intros Hc (Hh & _). apply host_chars; [|done]. destruct Hc as [->| ->]; set_solver. Qed.

Lemma node_line_clean (c : ascii) (k : Z) (p : placed) :
  ends_text c → placed_ok p → no_char c (node_line k p) = true.
Proof.
  intros Hc Hp. unfold node_line. rewrite (no_char_app c "  "), no_char_app, no_char_join.
  - destruct (tail p.2) as [|r rs]; [by destruct Hc as [->| ->]|].
    rewrite (no_char_cons c " " (join _ _)), no_char_numbers by done. by destruct Hc as [->| ->].
  - by destruct Hc as [->| ->].
  - repeat constructor; try (by apply no_char_number); try (by destruct Hc as [->| ->]).
    rewrite (no_char_app c "("), no_char_app, no_char_host by done. by destruct Hc as [->| ->].
Qed.

Lemma layout_lines_clean (c : ascii) (l : list placed) :
  ends_text c → Forall placed_ok l → Forall (λ f, no_char c f = true) (layout_lines l).
Proof.
  intros Hc Hl. unfold layout_lines. constructor; [by destruct Hc as [->| ->]|]. constructor.
  { rewrite (no_char_app c "  "), !no_char_app, !no_char_number by done.
    rewrite no_char_join.
    - by destruct Hc as [->| ->].
    - by destruct Hc as [->| ->].
    - apply Forall_fmap. eapply Forall_impl; [done|]. intros p Hp. by apply no_char_host. }
  constructor; [done|]. generalize 0 as k. induction Hl as [|p l Hp _ IH]; intros k; [constructor|].
  cbn [node_lines]. constructor; [by apply node_line_clean|apply IH].
Qed.

Lemma no_char_unlines (c : ascii) (ls : list string) :
  c ≠ "010"%char → Forall (λ f, no_char c f = true) ls → no_char c (unlines ls) = true.
Proof.
  intros Hc. induction 1 as [|l ls Hl _ IH]; [done|]. cbn [unlines].
  rewrite no_char_app, Hl, no_char_cons, IH, andb_true_r. by apply bool_decide_eq_true.
Qed.

Lemma layout_text_read (l : list placed) :
  Forall placed_ok l → text_lines (fd_text (unlines (layout_lines l))) = layout_lines l.
Proof.
  intros Hl. rewrite fd_text_id.
  - apply text_lines_unlines, layout_lines_clean; [by left|done].
  - apply no_char_unlines; [done|]. apply layout_lines_clean; [by right|done].
Qed.

Section Fetch.
Context `{Commands} `{SlurmHost}.

(** sattach prints a layout and ends well, whenever it is asked. *)
Definition sattach_answers (id : string) (l : list placed) : Prop :=
  ∀ trace, c_output trace (sattach_argv id) = Some (unlines (layout_lines l)) ∧
           c_wait trace (sattach_argv id) = WExited 0.

Definition layout_fits (l : list placed) : Prop :=
  Forall placed_ok l ∧ total_PEs l < 2 ^ 31 ∧ Z.of_nat (length l) < 2 ^ 31.

(** The layout that sattach prints for a component of a job is read back: every host
    with its number of processes and its first rank, counted on from the components before,
    and ranks that begin again at 0 inside a component counted on from the hosts before. *)
Theorem step_layout_read (id : string) (offset : Z) (l : list placed) (s : sys) :
  sattach_answers id l → layout_fits l → 0 ≤ offset < 2 ^ 63 →
  getStepLayout id offset s =
  (Ok (MkStep (total_PEs l) (laid_out offset 0 l)),
   MkSys (sys_env s) (sys_trace s ++ [SRun (sattach_argv id)])).
Proof.
  intros Ha (Hl & Ht & Hn) Ho. unfold getStepLayout.
  set (s1 := MkSys (sys_env s) (sys_trace s ++ [SRun (sattach_argv id)])).
  assert (Execvp (sattach_argv id) s = (Ok (layout_lines l), s1)) as E1.
  { unfold Execvp, mbind, M_bind, get. destruct (Ha (sys_trace s)) as [-> _].
    unfold sys_emit, modify, mret, M_ret. by rewrite layout_text_read. }
  rewrite (bind_run_Ok _ _ _ _ _ E1). unfold lift. rewrite layout_parsed by done.
  assert (getExitStatus (sattach_argv id) s1 = (Ok 0, s1)) as E2.
  { unfold getExitStatus, mbind, M_bind, get. by destruct (Ha (sys_trace s1)) as [_ ->]. }
  unfold mbind at 1, M_bind at 1. by rewrite (bind_run_Ok _ _ _ _ _ E2).
Qed.

(** *** All components *)

(** The hosts of a component take blocks of ranks, numbered through or each from 0. *)
Fixpoint in_blocks (running : Z) (l : list placed) : Prop :=
  match l with
  | [] => True
  | p :: l' => (first_rank p = running ∨ first_rank p = 0) ∧ in_blocks (running + placed_PEs p) l'
  end.

(** The ranks from [start] up to [stop] are those of the nodes, in order. *)
Fixpoint tiles (start : Z) (ns : list NodeLayout) (stop : Z) : Prop :=
  match ns with
  | [] => start = stop
  | n :: ns' => firstPE n = start ∧ tiles (start + numPEs n) ns' stop
  end.

Lemma tiles_app (a b c : Z) (ns ms : list NodeLayout) :
  tiles a ns b → tiles b ms c → tiles a (ns ++ ms) c.
Proof.
  revert a. induction ns as [|n ns IH]; intros a; cbn; [by intros ->|].
  intros [? Hn] Hm. split; [done|by apply IH].
Qed.

Lemma laid_out_tiles (offset running : Z) (l : list placed) :
  0 ≤ running → in_blocks running l →
  tiles (running + offset) (laid_out offset running l) (running + offset + total_PEs l).
Proof.
  revert running. induction l as [|p l IH]; intros running Hr; [cbn; lia|].
  intros [Hp Hl]. cbn [laid_out tiles firstPE numPEs]. split.
  - destruct (Z.ltb_spec 0 running), (Z.eqb_spec (first_rank p) 0); cbn; lia.
  - assert (0 ≤ placed_PEs p) by (unfold placed_PEs; lia).
    specialize (IH (running + placed_PEs p) ltac:(lia) Hl).
    replace (running + offset + placed_PEs p) with (running + placed_PEs p + offset) by lia.
    replace (running + offset + total_PEs (p :: l))
      with (running + placed_PEs p + offset + total_PEs l); [done|].
    unfold total_PEs. cbn [foldr]. lia.
Qed.

Definition component : Type := HetJobId * list placed.

Definition component_id (c : component) : string := get_srun_id c.1.

(** The layouts that are collected, the ranks counted on from [start]. *)
Fixpoint add_layouts (start : Z) (comps : list component) (m : gmap string StepLayout)
    : gmap string StepLayout :=
  match comps with
  | [] => m
  | (j, l) :: comps' =>
      add_layouts (start + total_PEs l) comps'
        (<[get_srun_id j := MkStep (total_PEs l) (laid_out start 0 l)]> m)
  end.

Definition all_PEs (comps : list component) : Z := foldr (λ c z, total_PEs c.2 + z) 0 comps.

Lemma all_PEs_nonneg (comps : list component) : 0 ≤ all_PEs comps.
Proof.
  induction comps as [|c comps IH]; [done|]. pose proof (total_PEs_nonneg c.2).
  unfold all_PEs in *. cbn [foldr]. lia.
Qed.

Lemma add_layouts_other (start : Z) (comps : list component) (m : gmap string StepLayout) (id : string) :
  id ∉ map component_id comps → add_layouts start comps m !! id = m !! id.
Proof.
  revert start m. induction comps as [|[j l] comps IH]; intros start m Hid; [done|].
  cbn in *. apply not_elem_of_cons in Hid as [Hne Hid]. rewrite IH by done.
  by rewrite lookup_insert_ne.
Qed.

(** The nodes of the components, in the order of the components. *)
Definition nodes_of (layouts : gmap string StepLayout) (c : component) : list NodeLayout :=
  match layouts !! component_id c with Some layout => nodes layout | None => [] end.

Lemma add_layouts_tiles (start : Z) (comps : list component) (m : gmap string StepLayout) :
  NoDup (map component_id comps) → Forall (λ c : component, in_blocks 0 c.2) comps →
  tiles start (flat_map (nodes_of (add_layouts start comps m)) comps) (start + all_PEs comps).
Proof.
  revert start m. induction comps as [|[j l] comps IH]; intros start m; [cbn; lia|].
  cbn [map]. intros [Hn Hd]%NoDup_cons [Hb Hbs]%Forall_cons.
  cbn [flat_map add_layouts]. set (m' := <[_ := _]> m).
  apply (tiles_app _ (start + total_PEs l)).
  - unfold nodes_of. rewrite add_layouts_other by done. unfold m'.
    change (component_id (j, l)) with (get_srun_id j). rewrite lookup_insert_eq. cbn [nodes].
    pose proof (laid_out_tiles start 0 l ltac:(lia) Hb) as Ht. by rewrite Z.add_0_l in Ht.
  - change (all_PEs _) with (total_PEs l + all_PEs comps). rewrite Z.add_assoc. by apply IH.
Qed.

Lemma laid_out_hosts (offset running : Z) (l : list placed) :
  map (λ n, (hostname n, numPEs n)) (laid_out offset running l) = map (λ p, (p.1, placed_PEs p)) l.
Proof. revert running. induction l as [|p l IH]; intros running; cbn; [done|]. by rewrite IH. Qed.

Lemma add_layouts_hosts (start : Z) (comps : list component) (m : gmap string StepLayout) :
  NoDup (map component_id comps) →
  map (λ n, (hostname n, numPEs n)) (flat_map (nodes_of (add_layouts start comps m)) comps) =
  map (λ p, (p.1, placed_PEs p)) (flat_map snd comps).
Proof.
  revert start m. induction comps as [|[j l] comps IH]; intros start m; [done|].
  cbn [map]. intros [Hn Hd]%NoDup_cons. cbn [flat_map add_layouts snd].
  rewrite !map_app, IH by done. f_equal. unfold nodes_of. rewrite add_layouts_other by done.
  change (component_id (j, l)) with (get_srun_id j). rewrite lookup_insert_eq. apply laid_out_hosts.
Qed.

Lemma fetch_layouts_run (comps : list component) (start : Z) (m : gmap string StepLayout) (s : sys) :
  Forall (λ c : component, sattach_answers (get_sattach_id c.1) c.2 ∧ layout_fits c.2) comps →
  0 ≤ start → start + all_PEs comps < 2 ^ 63 →
  ∃ s', fetch_layouts (map fst comps) start m 0 "" s = (Ok (add_layouts start comps m, 0%nat, ""), s').
Proof.
  intros Hc. revert start m s. induction Hc as [|[j l] comps [Ha Hf] _ IH]; intros start m s H1 H2.
  { by exists s. }
  pose proof (total_PEs_nonneg l) as Hl. pose proof (all_PEs_nonneg comps) as Hcs.
  unfold all_PEs in H2. cbn [foldr snd] in H2. fold (all_PEs comps) in H2. cbn [fst snd] in Ha, Hf.
  cbn [map fst fetch_layouts add_layouts].
  pose proof (step_layout_read (get_sattach_id j) start l s Ha Hf ltac:(lia)) as E.
  set (layout := MkStep _ _) in E. set (s1 := MkSys _ _) in E.
  assert ((try_catch (layout ← getStepLayout (get_sattach_id j) start; mret (inl layout))
            (λ what : string, mret (inr what)) : M sys (StepLayout + string)) s
          = (Ok (inl layout), s1)) as E'.
  { apply try_catch_run_Ok. by rewrite (bind_run_Ok _ _ _ _ _ E). }
  rewrite (bind_run_Ok _ _ _ _ _ E'). change (step_numPEs layout) with (total_PEs l).
  unfold uint64. rewrite Z.mod_small by lia. apply IH; lia.
Qed.

(** The check of architectures is turned off, or finds at most one. *)
Definition architectures_match (comps : list component) (s : sys) : Prop :=
  (∃ v, sys_env s !! SLURM_CHECK_ARCH = Some v ∧ starts_with "0" v = true) ∨
  (∃ archs s1, node_architectures (map fst comps) s = (Ok archs, s1) ∧ (length archs ≤ 1)%nat).

Lemma architectures_checked (comps : list component) (s : sys) :
  architectures_match comps s →
  ∃ s1, (check ← getenv SLURM_CHECK_ARCH;
         if match check with Some v => negb (starts_with "0" v) | None => true end
         then verify_matching_architectures (map fst comps) else mret tt) s = (Ok tt, s1).
Proof.
  intros Hm. rewrite (bind_run_Ok _ _ _ (sys_env s !! SLURM_CHECK_ARCH) s) by done.
  destruct (match sys_env s !! SLURM_CHECK_ARCH with Some v => _ | None => true end) eqn:Ec; [|by exists s].
  destruct Hm as [(v & Ev & Hv)|(archs & s1 & E & Hl)]; [by rewrite Ev, Hv in Ec|].
  exists s1. unfold verify_matching_architectures. rewrite (bind_run_Ok _ _ _ _ _ E).
  by destruct (Nat.ltb_spec 1 (length archs)); [lia|].
Qed.

(** C26 The components of a job come out with all their hosts in the order of the components and,
    within one, in that of sattach, each with its number of processes, and with ranks from 0 up to
    the number of all processes without gap or overlap.  This is when the architectures of the nodes
    match or are not checked, the components have names of their own, sattach answers for each with a
    layout within its widths, and the hosts of a component take blocks of ranks, numbered through or
    each host's from 0. *)
Theorem job_layout_tiles (comps : list component) (s : sys) :
  architectures_match comps s → NoDup (map component_id comps) →
  Forall (λ c : component, sattach_answers (get_sattach_id c.1) c.2 ∧ layout_fits c.2) comps →
  Forall (λ c : component, in_blocks 0 c.2) comps → all_PEs comps < 2 ^ 63 →
  ∃ layouts s', fetchStepLayout (map fst comps) s = (Ok layouts, s') ∧
    let hosts := flat_map (nodes_of layouts) comps in
    map (λ n, (hostname n, numPEs n)) hosts = map (λ p, (p.1, placed_PEs p)) (flat_map snd comps) ∧
    tiles 0 hosts (all_PEs comps).
Proof.
  intros Hs Hd Hc Hb Hn. exists (add_layouts 0 comps ∅).
  destruct (architectures_checked _ _ Hs) as [s1 E1].
  destruct (fetch_layouts_run comps 0 ∅ s1 Hc ltac:(lia) ltac:(lia)) as [s' E].
  exists s'. split; [|split].
  - unfold fetchStepLayout. unfold mbind, M_bind in E1 |- *. cbn in E1 |- *. rewrite E1.
    unfold mbind, M_bind in E. by rewrite E.
  - by apply add_layouts_hosts.
  - by apply (add_layouts_tiles 0 comps ∅).
Qed.
End Fetch.

(** ** The file for the backend *)

Definition node_entry (n : NodeLayout) : string * Z * Z := (hostname n, numPEs n, firstPE n).

(** The sum of an [int] that does not overflow. *)
Lemma accumulate_exact (f : StepLayout → Z) (l : list (string * StepLayout)) (sum : Z) :
  Forall (λ p, 0 ≤ f p.2) l → 0 ≤ sum → sum + foldr (λ p z, f p.2 + z) 0 l < 2 ^ 31 →
  fold_left (λ sum p, int32 (sum + f p.2)) l sum = sum + foldr (λ p z, f p.2 + z) 0 l.
Proof.
  intros Hl. revert sum. induction Hl as [|p l Hp Hl IH]; intros sum Hs Hb; [cbn; lia|].
  cbn [fold_left foldr] in *.
  assert (0 ≤ foldr (λ p z, f p.2 + z) 0 l) by (clear -Hl; induction Hl; cbn; lia).
  rewrite int32_small by lia. rewrite IH by lia. lia.
Qed.

Lemma getNumHosts_nodes (layouts : gmap string StepLayout) :
  Z.of_nat (length (all_nodes layouts)) < 2 ^ 31 →
  accumulate (λ l, Z.of_nat (length (nodes l))) layouts = Z.of_nat (length (all_nodes layouts)).
Proof.
  unfold all_nodes, accumulate. generalize (id_layouts layouts) as l. intros l Hl.
  assert (foldr (λ (p : string * StepLayout) z, Z.of_nat (length (nodes p.2)) + z) 0 l =
          Z.of_nat (length (flat_map (λ p : string * StepLayout, nodes p.2) l))) as E.
  { clear Hl. induction l as [|p l IH]; [done|]. cbn. rewrite IH, length_app. lia. }
  rewrite (accumulate_exact (λ l, Z.of_nat (length (nodes l)))); [by rewrite E| |done|by rewrite E].
  apply Forall_true. intros p. lia.
Qed.

(** What the backend reads from the layout file is every node of every component with
    its host name, its number of processes and its first rank, when host names have at most
    63 characters and the numbers fit the type int. *)
Theorem layout_file_read_back (layouts : gmap string StepLayout) :
  Forall (λ n, entry_fits (node_entry n)) (all_nodes layouts) →
  Z.of_nat (length (all_nodes layouts)) < 2 ^ 31 →
  ∃ b, createNodeLayoutFile layouts = Ok b ∧ decode_layout b = map node_entry (all_nodes layouts).
Proof.
  intros Hf Hl. destruct (layout_file_roundtrip (map node_entry (all_nodes layouts))) as (b & E & Hb).
  - by apply Forall_fmap.
  - unfold in_int, int_min, int_max. rewrite length_map. lia.
  - exists b. split; [|done]. unfold createNodeLayoutFile. rewrite getNumHosts_nodes by done.
    unfold layout_file in E. rewrite length_map in E. exact E.
Qed.

(** ** Examples *)

Definition demo_slurm_host : SlurmHost := {| sh_gethostname := Ok "login"; sh_hash_order l := l |}.

(** Two components: ranks numbered through, and starting from 0 on each host. *)
Definition demo_components : list component :=
  [(MkHetJobId 7 0 (Some 0) false false false, [("nid1", [0; 1]); ("nid2", [2; 3])]);
   (MkHetJobId 7 0 (Some 1) false false false, [("nid3", [0]); ("nid4", [0])])].

Definition demo_sattach : Commands :=
  scripted (map (λ c : component, (sattach_argv (get_sattach_id c.1), (unlines (layout_lines c.2), 0)))
              demo_components).

Lemma demo_placed (h : string) (ranks : list Z) :
  string_forall host_char h = true → ranks ≠ [] → Forall is_uint32 ranks → Z.of_nat (length ranks) < 100 →
  placed_ok (h, ranks).
Proof. intros Hh Hn Hr Hl. repeat split; [done..|]. unfold placed_PEs. cbn [snd]. lia. Qed.

Lemma demo_fits : Forall (λ c : component, layout_fits c.2) demo_components.
Proof.
  repeat apply Forall_cons_2; try apply Forall_nil_2; (split; [|done]); cbn [snd];
    repeat apply Forall_cons_2; try apply Forall_nil_2; apply demo_placed; try done;
    repeat constructor; done.
Qed.

Lemma demo_answers :
  let C := demo_sattach in
  Forall (λ c : component, sattach_answers (get_sattach_id c.1) c.2) demo_components.
Proof. intros C. repeat constructor. Qed.

Lemma step_layout_read_witness :
  let C := demo_sattach in
  getStepLayout "8.0" 4 (MkSys ∅ []) =
  (Ok (MkStep 2 [MkNode "nid3" 1 4; MkNode "nid4" 1 5]), MkSys ∅ [SRun (sattach_argv "8.0")]).
Proof.
  intros C. pose proof demo_answers as Ha. pose proof demo_fits as Hf.
  apply Forall_cons in Ha as [_ Ha]. apply Forall_cons in Ha as [Ha _].
  apply Forall_cons in Hf as [_ Hf]. apply Forall_cons in Hf as [Hf _].
  apply (step_layout_read "8.0" 4 _ (MkSys ∅ []) Ha Hf). lia.
Defined.

Lemma job_layout_tiles_witness :
  let C := demo_sattach in let S := demo_slurm_host in
  ∃ layouts s', fetchStepLayout (map fst demo_components) (MkSys {[SLURM_CHECK_ARCH := "0"]} []) =
    (Ok layouts, s') ∧ tiles 0 (flat_map (nodes_of layouts) demo_components) 6.
Proof.
  intros C S.
  destruct (job_layout_tiles demo_components (MkSys {[SLURM_CHECK_ARCH := "0"]} []))
    as (layouts & s' & E & _ & Ht).
  - left. exists "0". split; reflexivity.
  - apply (bool_decide_unpack _). vm_compute. exact I.
  - apply Forall_and. split; [exact demo_answers|exact demo_fits].
  - cbn. repeat constructor; first [left; reflexivity|right; reflexivity].
  - reflexivity.
  - exists layouts, s'. split; [exact E|exact Ht].
Defined.

Definition demo_layouts : gmap string StepLayout :=
  {["7+0.0" := MkStep 4 [MkNode "nid1" 2 0; MkNode "nid2" 2 2]]} ∪
  {["7+1.0" := MkStep 1 [MkNode "nid3" 1 4]]}.

Lemma layout_file_read_back_witness :
  ∃ b, createNodeLayoutFile demo_layouts = Ok b ∧
    decode_layout b = [("nid1", 2, 0); ("nid2", 2, 2); ("nid3", 1, 4)].
Proof.
  apply (layout_file_read_back demo_layouts).
  - apply (bool_decide_unpack _). vm_compute. exact I.
  - vm_compute. reflexivity.
Defined.
