(* ===== verification/SlurmArgs.v ===== *)
(** * Slurm: arguments and environments
    (src/src/frontend/frontend_impl/SLURM/Frontend.cpp)

    How the frontend is set up from the version of Slurm and the environment, the
    arguments of srun for applications and tool daemons, of sbatch, and the variables
    that are passed on from eproxy systems.  Argument vectors are lists of texts. *)

From S2P Require Import Prelude Split Argv Host System Detect SlurmJobs SlurmLayout.

(** ** Quoted arguments *)

(** [add_quoted_args]: the arguments added; the loop over the characters with its
    state. *)
Fixpoint quoted_args (s : string) (inQuote : bool) (pending : string) (args : list string)
    : option (list string) :=
  match s with
  | "" => if inQuote then None else Some (if is_empty pending then args else args ++ [pending])
  | String c s' =>
      if is_space c && negb inQuote && negb (is_empty pending)
      then quoted_args s' inQuote "" (args ++ [pending])
      else if bool_decide (c = backslash) && negb (is_empty s')
      then
        match s' with
        | String d s'' =>
            quoted_args s'' inQuote
              (pending +:+ if bool_decide (d = dq) then String dq "" else String c (String d "")) args
        | "" => None
        end
      else if bool_decide (c = dq) then quoted_args s' (negb inQuote) pending args
      else if inQuote || negb (is_space c) then quoted_args s' inQuote (pending +:+ String c "") args
      else quoted_args s' inQuote pending args
  end.

Definition add_quoted_args (args : list string) (quotedArgs : string) : res (list string) :=
  match quoted_args quotedArgs false "" args with
  | Some args' => Ok args'
  | None => Throw ("Unclosed quote in " +:+ quotedArgs)
  end.

(** ** Version *)

(** "slurm major.minor.patch" *)
Definition parse_version (line : string) : res (Z * Z * Z) :=
  let slurmVersion := match split_at " " line with Some (_, rest) => rest | None => line end in
  let '(major, minor, patch) := split3 slurmVersion "." in
  if stoi_or_zero major =? 0
  then Throw ("Failed to parse SRUN version '" +:+ slurmVersion +:+ "'. Try running `srun --version`")
  else Ok (stoi_or_zero major, stoi_or_zero minor, stoi_or_zero patch).

(** ** Resources of tool daemons *)

Definition SLURM_DAEMON_GRES : string := "CTI_SLURM_DAEMON_GRES".

(** The setting an argument gives, [next] being the argument after it. *)
Definition gres_argument (arg : string) (next : option string) : string :=
  match drop_str 6 arg with
  | "" => default "" next
  | String c setting => if bool_decide (c = "="%char) then setting else ""
  end.

(** The first part of a setting that is for GPUs; [fuel] is the length of the setting,
    which becomes shorter in each round. *)
Fixpoint find_gpu (fuel : nat) (gresSetting : string) : option string :=
  if is_empty gresSetting then None
  else
    match fuel with
    | O => None
    | S fuel' =>
        let '(head, tail) := split2 gresSetting "," in
        if starts_with "gpu:" head then Some head else find_gpu fuel' tail
    end.

Fixpoint gres_of_arguments (launcher_argv : list string) : string :=
  match launcher_argv with
  | [] => "none"
  | arg :: rest =>
      let setting := if starts_with "--gres" arg then gres_argument arg (head rest) else "" in
      match find_gpu (String.length setting) setting with
      | Some gpu => gpu
      | None => gres_of_arguments rest
      end
  end.

Definition get_gres_setting (launcher_argv : list string) : M sys string :=
  slurm_gres ← getenv SLURM_DAEMON_GRES;
  mret (match slurm_gres with Some v => v | None => gres_of_arguments launcher_argv end).

(** ** The frontend *)

(** SLURMFrontend *)
Record SlurmFE : Type := MkSlurmFE {
  srunAppArgs : list string;
  srunDaemonArgs : list string;
  checkScancelOutput : bool;
  checkTaskPrologStatus : bool
}.

Definition SLURM_NEVER_PARSE_SCANCEL : string := "CTI_SLURM_NEVER_PARSE_SCANCEL".
Definition SRUN_OVERRIDE_ARGS : string := "CTI_SRUN_OVERRIDE".
Definition SRUN_APPEND_ARGS : string := "CTI_SRUN_APPEND".

Definition default_daemon_args : list string :=
  ["--mem-per-cpu=0"; "--ntasks-per-node=1"; "--disable-status"; "--quiet"; "--mpi=none"; "--error=none"].

Definition version_daemon_args (version : Z * Z * Z) : list string :=
  let '(major, minor, patch) := version in
  (if major <=? 18 then ["--mem_bind=no"; "--cpu_bind=no"; "--share"]
   else if 19 <=? major then ["--mem-bind=no"; "--cpu-bind=no"; "--oversubscribe"] else []) ++
  (if ((major =? 20) && (11 <=? minor)) || (20 <? major) then ["--overlap"] else []).

Definition checks_prolog (version : Z * Z * Z) : bool :=
  let '(major, minor, patch) := version in
  (major <? 25) || ((major =? 25) && (minor <? 5)) || ((major =? 25) && (minor =? 5) && (patch <? 2)).

(** [addArgsFromRaw]: the text cut at every space. *)
Fixpoint raw_args (argStr : string) : list string :=
  match argStr with
  | "" => [""]
  | String c s' =>
      if bool_decide (c = " "%char) then "" :: raw_args s'
      else match raw_args s' with
           | w :: ws => String c w :: ws
           | [] => [String c ""]
           end
  end.

(** The argument lists for a version and the two settings. *)
Definition srun_args (version : Z * Z * Z) (override append : option string)
    : list string * list string :=
  let '(app, daemon) :=
    match override with
    | Some raw => (raw_args raw, raw_args raw)
    | None => ([], default_daemon_args ++ version_daemon_args version)
    end in
  match append with
  | Some raw => (app ++ raw_args raw, daemon ++ raw_args raw)
  | None => (app, daemon)
  end.

Section Frontend.
Context `{Commands}.

Definition getSlurmVersion : M sys (Z * Z * Z) :=
  lines ← Execvp ["srun"; "--version"];
  match lines with
  | [] => throw "Failed to get SRUN version number output. Try running `srun --version`"
  | line :: _ => lift (parse_version line)
  end.

(** The constructor. *)
Definition SLURMFrontend_new : M sys SlurmFE :=
  version ← getSlurmVersion;
  never_parse ← getenv SLURM_NEVER_PARSE_SCANCEL;
  override ← getenv SRUN_OVERRIDE_ARGS;
  append ← getenv SRUN_APPEND_ARGS;
  let '(app, daemon) := srun_args version override append in
  mret (MkSlurmFE app daemon (bool_decide (never_parse = None)) (checks_prolog version)).
End Frontend.

(** ** Arguments of srun *)

Definition CTI_LAUNCHER_WRAPPER : string := "CTI_LAUNCHER_WRAPPER".
Definition SLURM_DAEMON_ARGS : string := "CTI_SLURM_DAEMON_ARGS".

(** The wrapper with its arguments, then the launcher script or the launcher. *)
Definition launcher_prefix (env : gmap string string) (launcher : string) : res (list string) :=
  wrapper ← match env !! CTI_LAUNCHER_WRAPPER with
            | Some text => add_quoted_args [] text
            | None => Ok []
            end;
  mret (wrapper ++ [default launcher (env !! CTI_LAUNCHER_SCRIPT)]).

(** The arguments of one component. *)
Definition component_args (env : gmap string string) (fe : SlurmFE) (gresSetting leaderId : string)
    (launcher_args : list string) (layout : StepLayout) : res (list string) :=
  extra ← match env !! SLURM_DAEMON_ARGS with
          | Some text => add_quoted_args [] text
          | None => Ok []
          end;
  mret (["--jobid=" +:+ leaderId; "--nodes=" +:+ to_string (Z.of_nat (length (nodes layout)))] ++
        (if is_empty gresSetting then [] else ["--gres=" +:+ gresSetting]) ++
        srunDaemonArgs fe ++ extra ++
        ["--nodelist=" +:+ joinStr (map hostname (nodes layout)) ","] ++ launcher_args).

(** The components, each after a colon but the first, whose identifier all carry. *)
Fixpoint components_args (env : gmap string string) (fe : SlurmFE) (gresSetting leaderId : string)
    (launcher_args : list string) (layouts : list (string * StepLayout)) : res (list string) :=
  match layouts with
  | [] => Ok []
  | (_, layout) :: layouts' =>
      args ← component_args env fe gresSetting leaderId launcher_args layout;
      rest ← components_args env fe gresSetting leaderId launcher_args layouts';
      mret (":" :: args ++ rest)
  end.

Definition generateDaemonLauncherArgv (env : gmap string string) (fe : SlurmFE) (launcherName : string)
    (gresSetting : string) (layouts : gmap string StepLayout) (launcher_args : list string)
    : res (list string) :=
  prefix ← launcher_prefix env launcherName;
  let ids := id_layouts layouts in
  args ← components_args env fe gresSetting (default "" (fst <$> head ids)) launcher_args ids;
  mret (prefix ++ tail args).

(** [launchApp] up to the launch: descriptors that are not given are the standard ones. *)
Definition launchApp_argv (env : gmap string string) (fe : SlurmFE) (launcherPath : string) (pid : Z)
    (inputFile : option string) (stdoutFd stderrFd : Z) (launcher_args : list string)
    : res (list string) :=
  prefix ← launcher_prefix env launcherPath;
  let fd_path fd := "/proc/" +:+ to_string pid +:+ "/fd/" +:+ to_string fd in
  mret (prefix ++
        ["--input=" +:+ default "/dev/null" inputFile;
         "--output=" +:+ fd_path (if stdoutFd <? 0 then 1 else stdoutFd);
         "--error=" +:+ fd_path (if stderrFd <? 0 then 2 else stderrFd)] ++
        srunAppArgs fe ++ launcher_args).

(** ** Environments *)

Definition srunEnvBlacklist : list string :=
  ["SLURM_CHECKPOINT"; "SLURM_CONN_TYPE"; "SLURM_CPUS_PER_TASK";
   "SLURM_DEPENDENCY"; "SLURM_DIST_PLANESIZE"; "SLURM_DISTRIBUTION";
   "SLURM_EPILOG"; "SLURM_GEOMETRY"; "SLURM_NETWORK";
   "SLURM_NPROCS"; "SLURM_NTASKS"; "SLURM_NTASKS_PER_CORE";
   "SLURM_NTASKS_PER_NODE"; "SLURM_NTASKS_PER_SOCKET"; "SLURM_PARTITION";
   "SLURM_PROLOG"; "SLURM_REMOTE_CWD"; "SLURM_REQ_SWITCH";
   "SLURM_RESV_PORTS"; "SLURM_TASK_EPILOG"; "SLURM_TASK_PROLOG";
   "SLURM_WORKING_DIR"; "SLURM_BCAST"; "SLURM_SEND_LIBS"].

Definition blacklist_env : list string := map (λ envVar, "CTIBLACKLIST_" +:+ envVar +:+ "=") srunEnvBlacklist.

(** EproxyEnvSpec *)
Record EproxyEnvSpec : Type := MkEnvSpec {
  m_includeVars : gset string; m_includePrefixes : gset string;
  m_excludeVars : gset string; m_excludePrefixes : gset string;
  m_includeAll : bool
}.

Definition empty_spec : EproxyEnvSpec := MkEnvSpec ∅ ∅ ∅ ∅ false.

(** One line of the file. *)
Definition read_line (line : string) (spec : EproxyEnvSpec) : EproxyEnvSpec :=
  let '(MkEnvSpec iv ip ev ep all) := spec in
  let wildcard := bool_decide (last_char line = Some "*"%char) in
  match line with
  | "" => spec
  | String c rest =>
      if bool_decide (c = "#"%char) then spec
      else if bool_decide (line = "*") then MkEnvSpec iv ip ev ep true
      else if bool_decide (c = "!"%char)
      then if wildcard then MkEnvSpec iv ip ev (ep ∪ {[pop_back rest]}) all
           else MkEnvSpec iv ip (ev ∪ {[rest]}) ep all
      else if wildcard then MkEnvSpec iv (ip ∪ {[pop_back line]}) ev ep all
           else MkEnvSpec (iv ∪ {[line]}) ip ev ep all
  end.

Definition readFrom (text : string) (spec : EproxyEnvSpec) : EproxyEnvSpec :=
  fold_left (λ spec line, read_line line spec) (text_lines text) spec.

Definition matchesAnyPrefix (prefixes : gset string) (str : string) : bool :=
  existsb (λ prefix, starts_with prefix str) (elements prefixes).

Definition included (spec : EproxyEnvSpec) (var : string) : bool :=
  if bool_decide (var ∈ m_excludeVars spec) || matchesAnyPrefix (m_excludePrefixes spec) var
  then false
  else m_includeAll spec || bool_decide (var ∈ m_includeVars spec) ||
       matchesAnyPrefix (m_includePrefixes spec) var.

(** The environment of a remote launch. *)
Definition eproxy_env (spec : EproxyEnvSpec) (environ env_list : list string) : list string :=
  filter (λ entry, included spec (split2 entry "=").1 = true) environ ++ env_list.

(** ** Batch scripts *)

Section Batch.
Context `{Commands}.

Definition sbatch_argv (baseDir stopBinary scriptPath : string) (sbatch_args env_list : list string)
    : list string :=
  ["sbatch"] ++ sbatch_args ++
  ["--parsable"; "--export";
   "ALL,CTI_INSTALL_DIR=" +:+ baseDir +:+ "," +:+ "SLURM_TASK_PROLOG=" +:+ baseDir +:+ "/libexec/" +:+
   stopBinary +:+ "," +:+ String.concat "" (map (λ e, std_quoted e +:+ ",") env_list);
   scriptPath].

(** The job and the step, which is 0. *)
Definition submitBatchScript (fuel : nat) (baseDir stopBinary scriptPath : string)
    (sbatch_args env_list : list string) : M sys (Z * Z) :=
  prolog ← getenv "SLURM_TASK_PROLOG";
  match prolog with
  | Some v =>
      throw ("CTI uses a task prolog to hold the launched job at startup. Slurm user task " +:+
             "prologs are not supported with sbatch submission (SLURM_TASK_PROLOG was set to " +:+
             v +:+ " in the launch environment)")
  | None =>
      let argv := sbatch_argv baseDir stopBinary scriptPath sbatch_args env_list in
      lines ← Execvp argv;
      status ← getExitStatus argv;
      match lines with
      | line :: _ =>
          if negb (status =? 0)
          then text ← lift (argv_string (argv_of_list argv));
               throw ("failed to submit Slurm job using command" +:+ nl +:+ text)
          else
            let '(jobId, clusterName) := split2 line ";" in
            if is_empty jobId
            then throw ("Failed to extract job ID from sbatch output: " +:+ line)
            else
              match stoul jobId with
              | Ok job =>
                  wait_briefly_for_application_registered jobId;;
                  wait_forever_for_application_started fuel jobId;;
                  mret (uint32 job, 0)
              | _ => throw ("Failed to parse job ID from sbatch output: " +:+ jobId)
              end
      | [] =>
          text ← lift (argv_string (argv_of_list argv));
          throw ("failed to submit Slurm job using command" +:+ nl +:+ text)
      end
  end.
End Batch.

(** ** Theorems: quoted arguments *)

(** An argument in quotes, with its own quotes escaped. *)
Fixpoint escape_quotes (s : string) : string :=
  match s with
  | "" => ""
  | String c s' =>
      if bool_decide (c = dq) then String backslash (String dq (escape_quotes s'))
      else String c (escape_quotes s')
  end.

Definition quote_arg (arg : string) : string := String dq (escape_quotes arg +:+ String dq "").

Lemma quoted_escaped (a rest p : string) (args : list string) :
  no_char backslash a = true →
  quoted_args (escape_quotes a +:+ rest) true p args = quoted_args rest true (p +:+ a) args.
Proof.
  revert p. induction a as [|c a IH]; intros p; [by rewrite string_app_nil_r|].
  rewrite no_char_cons. intros [Hc%bool_decide_eq_true Ha]%andb_true_iff.
  cbn [escape_quotes]. destruct (decide (c = dq)) as [->|Hq].
  - rewrite bool_decide_true by done. cbn [String.append quoted_args].
    change (is_space backslash && negb true && negb (is_empty p)) with (false && negb (is_empty p)).
    cbn. rewrite IH by done. by rewrite string_app_assoc.
  - rewrite bool_decide_false by done. cbn [String.append quoted_args].
    rewrite andb_false_r. cbn [andb]. rewrite (bool_decide_false (c = backslash)) by done.
    cbn [andb]. rewrite (bool_decide_false (c = dq)) by done. cbn [orb].
    rewrite IH by done. by rewrite string_app_assoc.
Qed.

Lemma quoted_open (r : string) (args : list string) :
  quoted_args (String dq r) false "" args = quoted_args r true "" args.
Proof. done. Qed.

Lemma quoted_close (r p : string) (args : list string) :
  quoted_args (String dq r) true p args = quoted_args r false p args.
Proof. done. Qed.

Lemma quoted_space (r p : string) (args : list string) :
  p ≠ "" → quoted_args (" " +:+ r) false p args = quoted_args r false "" (args ++ [p]).
Proof. by destruct p. Qed.

Lemma quoted_arg_run (a rest : string) (args : list string) :
  no_char backslash a = true →
  quoted_args (quote_arg a +:+ rest) false "" args = quoted_args rest false a args.
Proof.
  intros Ha. unfold quote_arg. cbn [String.append].
  rewrite quoted_open, string_app_assoc, quoted_escaped by done. apply quoted_close.
Qed.

Lemma quoted_args_run (l args : list string) :
  Forall (λ a, a ≠ "" ∧ no_char backslash a = true) l →
  quoted_args (joinStr (map quote_arg l) " ") false "" args = Some (args ++ l).
Proof.
  intros Hl. revert args. induction Hl as [|a l [Hne Ha] Hl IH]; intros args.
  { by rewrite app_nil_r. }
  destruct l as [|b l].
  - cbn [map joinStr]. rewrite <-(string_app_nil_r (quote_arg a)), quoted_arg_run by done.
    cbn. by destruct a.
  - cbn [map]. change (joinStr (quote_arg a :: quote_arg b :: map quote_arg l) " ")
      with (quote_arg a +:+ " " +:+ joinStr (map quote_arg (b :: l)) " ").
    rewrite quoted_arg_run, quoted_space by done. rewrite IH. by rewrite <-app_assoc.
Qed.

(** Arguments that are not empty and hold no backslash come out of a launcher wrapper
    setting as they went in, whatever spaces and quotes they hold, when each is put in
    quotes, its own quotes are escaped and they are separated by spaces. *)
Theorem quoted_arguments_roundtrip (l args : list string) :
  Forall (λ a, a ≠ "" ∧ no_char backslash a = true) l →
  add_quoted_args args (joinStr (map quote_arg l) " ") = Ok (args ++ l).
Proof. intros Hl. unfold add_quoted_args. by rewrite quoted_args_run. Qed.

Lemma quoted_arguments_roundtrip_witness :
  let quotes := in_quotes "quotes" +:+ " and spaces" in
  add_quoted_args [] ("logger " +:+ quote_arg quotes) = Ok ["logger"; quotes] ∧
  add_quoted_args [] (joinStr (map quote_arg ["logger"; quotes]) " ") = Ok ["logger"; quotes].
Proof.
  intros quotes. split; [by vm_compute|].
  apply (quoted_arguments_roundtrip ["logger"; quotes] []). repeat constructor; done.
Defined.

(** An empty argument in quotes is lost. *)
Example quoted_empty_lost : add_quoted_args [] (quote_arg "" +:+ " x") = Ok ["x"].
Proof. reflexivity. Qed.

(** ** Theorems: the environment of eproxy systems *)

(** A pattern is a name, or with an asterisk at its end the beginning of names. *)
Definition pattern_matches (pattern var : string) : Prop :=
  if bool_decide (last_char pattern = Some "*"%char)
  then starts_with (pop_back pattern) var = true else var = pattern.

(** A line that excludes starts with an exclamation mark; one that includes does not,
    and is not a comment. *)
Definition line_excludes (line var : string) : Prop :=
  ∃ pattern, line = String "!" pattern ∧ pattern_matches pattern var.

Definition line_includes (line var : string) : Prop :=
  line ≠ "" ∧ starts_with "!" line = false ∧ starts_with "#" line = false ∧ pattern_matches line var.

Lemma matchesAnyPrefix_spec (prefixes : gset string) (str : string) :
  matchesAnyPrefix prefixes str = true ↔ ∃ p, p ∈ prefixes ∧ starts_with p str = true.
Proof.
  unfold matchesAnyPrefix. rewrite existsb_exists. split; intros (p & Hp & Hs); exists p.
  - split; [|done]. by apply elem_of_elements, list_elem_of_In.
  - split; [|done]. by apply list_elem_of_In, elem_of_elements.
Qed.

(** What a specification excludes and includes. *)
Definition spec_excludes (spec : EproxyEnvSpec) (var : string) : Prop :=
  var ∈ m_excludeVars spec ∨ ∃ p, p ∈ m_excludePrefixes spec ∧ starts_with p var = true.

Definition spec_includes (spec : EproxyEnvSpec) (var : string) : Prop :=
  m_includeAll spec = true ∨ var ∈ m_includeVars spec ∨
  ∃ p, p ∈ m_includePrefixes spec ∧ starts_with p var = true.

Lemma included_spec (spec : EproxyEnvSpec) (var : string) :
  included spec var = true ↔ ¬ spec_excludes spec var ∧ spec_includes spec var.
Proof.
  unfold included, spec_excludes, spec_includes.
  rewrite <-(matchesAnyPrefix_spec (m_excludePrefixes spec)).
  rewrite <-(matchesAnyPrefix_spec (m_includePrefixes spec)).
  destruct (bool_decide_reflect (var ∈ m_excludeVars spec)),
    (bool_decide_reflect (var ∈ m_includeVars spec)),
    (matchesAnyPrefix (m_excludePrefixes spec) var), (m_includeAll spec),
    (matchesAnyPrefix (m_includePrefixes spec) var); cbn; naive_solver.
Qed.

(** Patterns of one character more than a prefix. *)
Lemma pattern_cases (pattern var : string) :
  pattern_matches pattern var ↔
  (last_char pattern = Some "*"%char ∧ starts_with (pop_back pattern) var = true) ∨
  (last_char pattern ≠ Some "*"%char ∧ var = pattern).
Proof. unfold pattern_matches. case_bool_decide; naive_solver. Qed.

Lemma exists_added (X : gset string) (x : string) (Q : string → Prop) :
  (∃ p, p ∈ X ∪ {[x]} ∧ Q p) ↔ (∃ p, p ∈ X ∧ Q p) ∨ Q x.
Proof. set_solver. Qed.

Lemma read_line_spec (line : string) (spec : EproxyEnvSpec) (var : string) :
  (spec_excludes (read_line line spec) var ↔ spec_excludes spec var ∨ line_excludes line var) ∧
  (spec_includes (read_line line spec) var ↔ spec_includes spec var ∨ line_includes line var).
Proof.
  destruct spec as [iv ip ev ep all]. unfold line_excludes, line_includes.
  destruct line as [|c rest].
  { unfold read_line. split; [|naive_solver]. split; [by left|]. by intros [?|(? & ? & ?)]. }
  unfold read_line. destruct (bool_decide_reflect (c = "#"%char)) as [->|Hc].
  { split; [|naive_solver]. split; [by left|]. intros [?|(p & E & ?)]; [done|discriminate E]. }
  assert (starts_with "#" (String c rest) = false) as H1 by (cbn; by rewrite bool_decide_false).
  destruct (bool_decide_reflect (String c rest = "*")) as [E|Hs].
  { injection E as -> ->. unfold spec_excludes, spec_includes. cbn. split; [naive_solver|].
    unfold pattern_matches. cbn. naive_solver. }
  destruct (bool_decide_reflect (c = "!"%char)) as [->|He].
  - assert (last_char (String "!" rest) = Some "*"%char ↔ last_char rest = Some "*"%char) as Hlast.
    { destruct rest; [|done]. cbn. naive_solver. }
    assert (∀ p, String "!" rest = String "!" p ↔ p = rest) as Heq by naive_solver.
    assert ((∃ p, String "!" rest = String "!" p ∧ pattern_matches p var) ↔ pattern_matches rest var)
      as Hex by naive_solver.
    rewrite Hex, pattern_cases. unfold spec_excludes, spec_includes.
    assert (∀ P : Prop, P ↔ P ∨ (String "!" rest ≠ "" ∧ starts_with "!" (String "!" rest) = false ∧
      starts_with "#" (String "!" rest) = false ∧ pattern_matches (String "!" rest) var)) as Hno.
    { intros P. split; [by left|]. by intros [?|(_ & E & _)]. }
    destruct (bool_decide_reflect (last_char (String "!" rest) = Some "*"%char)) as [Hw|Hw];
      rewrite Hlast in Hw; cbn [m_includeVars m_includePrefixes m_excludeVars m_excludePrefixes
        m_includeAll]; (split; [|apply Hno]).
    + rewrite exists_added. tauto.
    + rewrite elem_of_union, elem_of_singleton. tauto.
  - assert (starts_with "!" (String c rest) = false) as H2 by (cbn; by rewrite bool_decide_false).
    assert (∀ P : Prop, P ↔ P ∨ ∃ p, String c rest = String "!" p ∧ pattern_matches p var) as Hno.
    { intros P. split; [by left|]. intros [?|(p & E & _)]; [done|congruence]. }
    rewrite pattern_cases. unfold spec_excludes, spec_includes.
    destruct (bool_decide_reflect (last_char (String c rest) = Some "*"%char)) as [Hw|Hw];
      cbn [m_includeVars m_includePrefixes m_excludeVars m_excludePrefixes m_includeAll];
      (split; [apply Hno|]).
    + rewrite exists_added. split; [|tauto]. intros [?|[?|[?|?]]]; [tauto..|].
      right. split_and!; [done..|by left].
    + rewrite elem_of_union, elem_of_singleton. split; [|tauto]. intros [?|[[?|?]|?]]; [tauto..| |tauto].
      right. split_and!; [done..|by right].
Qed.

Lemma read_lines_spec (lines : list string) (spec : EproxyEnvSpec) (var : string) :
  let spec' := fold_left (λ spec line, read_line line spec) lines spec in
  (spec_excludes spec' var ↔ spec_excludes spec var ∨ ∃ line, line ∈ lines ∧ line_excludes line var) ∧
  (spec_includes spec' var ↔ spec_includes spec var ∨ ∃ line, line ∈ lines ∧ line_includes line var).
Proof.
  revert spec. induction lines as [|line lines IH]; intros spec; cbn.
  { split; (split; [by left|]; intros [?|(? & ?%not_elem_of_nil & _)]; done). }
  destruct (IH (read_line line spec)) as [-> ->].
  destruct (read_line_spec line spec var) as [-> ->].
  assert (∀ Q : string → Prop, (∃ l, l ∈ line :: lines ∧ Q l) ↔ Q line ∨ ∃ l, l ∈ lines ∧ Q l) as Hex.
  { intros Q. setoid_rewrite elem_of_cons. naive_solver. }
  rewrite !Hex. tauto.
Qed.

(** A variable is passed on to the login node exactly when some line of the eproxy
    environment file includes it and none excludes it: the order of the lines does not
    matter, an excluding line wins over every including one, an asterisk at the end makes a
    line match all names that begin with it, and the line with only an asterisk all names. *)
Theorem eproxy_environment_equiv (text var : string) :
  included (readFrom text empty_spec) var = true ↔
  (¬ ∃ line, line ∈ text_lines text ∧ line_excludes line var) ∧
  ∃ line, line ∈ text_lines text ∧ line_includes line var.
Proof.
  rewrite included_spec. unfold readFrom.
  destruct (read_lines_spec (text_lines text) empty_spec var) as [-> ->].
  assert (¬ spec_excludes empty_spec var) as H1.
  { intros [?%not_elem_of_empty|(? & ?%not_elem_of_empty & _)]; done. }
  assert (¬ spec_includes empty_spec var) as H2.
  { intros [?|[?%not_elem_of_empty|(? & ?%not_elem_of_empty & _)]]; done. }
  tauto.
Qed.

(** ** Theorems: versions *)

(** Versions in their order. *)
Definition version_le (a b : Z * Z * Z) : Prop :=
  let '(a1, a2, a3) := a in let '(b1, b2, b3) := b in
  a1 < b1 ∨ a1 = b1 ∧ (a2 < b2 ∨ a2 = b2 ∧ a3 ≤ b3).

(** For the versions of Slurm that can be parsed, with parts that are not negative, a tool
    daemon is started with --overlap exactly from version 20.11 on, with the old spelling of
    the binding options or the new one but never both, and the state of the task prolog is
    looked at exactly before version 25.5.2. *)
Theorem version_arguments (version : Z * Z * Z) :
  0 ≤ version.1.2 → 0 ≤ version.2 →
  ("--overlap" ∈ version_daemon_args version ↔ version_le (20, 11, 0) version) ∧
  ("--mem_bind=no" ∈ version_daemon_args version ↔ ¬ version_le (19, 0, 0) version) ∧
  ("--mem-bind=no" ∈ version_daemon_args version ↔ version_le (19, 0, 0) version) ∧
  (checks_prolog version = true ↔ ¬ version_le (25, 5, 2) version).
Proof.
  destruct version as [[major minor] patch]. cbn [fst snd]. intros Hm Hp.
  unfold version_daemon_args, checks_prolog, version_le.
  assert (major = 20 ∧ 11 ≤ minor ∨ 20 < major ↔
    (major =? 20) && (11 <=? minor) || (20 <? major) = true) as Ho.
  { rewrite orb_true_iff, andb_true_iff, Z.eqb_eq, Z.leb_le, Z.ltb_lt. tauto. }
  split_and!.
  - transitivity (major = 20 ∧ 11 ≤ minor ∨ 20 < major); [|lia]. rewrite Ho.
    destruct (_ || _); [split; [done|]; intros _; apply elem_of_app; right; by left|].
    split; [|done]. rewrite app_nil_r. destruct (major <=? 18), (19 <=? major); set_solver.
  - transitivity (major ≤ 18); [|lia]. destruct (Z.leb_spec major 18).
    + split; [done|]. intros _. by left.
    + split; [|lia]. rewrite (proj2 (Z.leb_le 19 major)) by lia. destruct (_ || _); set_solver.
  - transitivity (19 ≤ major); [|lia]. destruct (Z.leb_spec major 18).
    + split; [|lia]. destruct (_ || _); set_solver.
    + split; [lia|]. intros _. rewrite (proj2 (Z.leb_le 19 major)) by lia. by left.
  - rewrite !orb_true_iff, !andb_true_iff, !Z.ltb_lt, !Z.eqb_eq. lia.
Qed.

Lemma version_arguments_witness :
  parse_version "slurm 20.11.8" = Ok (20, 11, 8) ∧
  ("--overlap" ∈ version_daemon_args (20, 11, 8) ↔ version_le (20, 11, 0) (20, 11, 8)) ∧
  ("--mem_bind=no" ∈ version_daemon_args (20, 11, 8) ↔ ¬ version_le (19, 0, 0) (20, 11, 8)) ∧
  ("--mem-bind=no" ∈ version_daemon_args (20, 11, 8) ↔ version_le (19, 0, 0) (20, 11, 8)) ∧
  (checks_prolog (20, 11, 8) = true ↔ ¬ version_le (25, 5, 2) (20, 11, 8)).
Proof. split; [by vm_compute|]. by apply (version_arguments (20, 11, 8)). Defined.

(** The examples of the tests for the inherited setting. *)
Example gres_gpu : gres_of_arguments ["--gres=craynetwork:0,gpu:8"; "a.out"] = "gpu:8".
Proof. reflexivity. Qed.

Example gres_none : gres_of_arguments ["--gres"; "craynetwork:0"; "a.out"] = "none".
Proof. reflexivity. Qed.

(** The length of the setting is fuel enough: each round drops a part and its comma. *)
Lemma find_gpu_fuel (f f' : nat) (s : string) :
  (String.length s ≤ f)%nat → (String.length s ≤ f')%nat → find_gpu f s = find_gpu f' s.
Proof.
  revert f' s. induction f as [|f IH]; intros f' s Hf Hf'.
  { destruct s; [|cbn in Hf; lia]. by destruct f'. }
  destruct s as [|c s]; [by destruct f'|]. destruct f' as [|f']; [cbn in Hf'; lia|].
  cbn [find_gpu is_empty]. pose proof (split2_shorter (String c s) ",") as Hs.
  destruct (split2 (String c s) ",") as [h t]. cbn [snd String.length] in *.
  specialize (Hs ltac:(done)). destruct (starts_with _ _); [done|]. apply IH; lia.
Qed.
