(* ===== verification/Launch.v ===== *)
(** * Launch requests (writeLaunchData of cti_fe_daemon_iface.cpp, readLaunchData of
    cti_fe_daemon.cpp)

    The parameters of an application, utility or MPIR launch: three file descriptors
    passed with a one-byte message, then strings and counts, each ended by a NUL. *)

From S2P Require Import Prelude Split Wire.

(** A descriptor of the daemon: its number and where it leads. *)
Record fd : Type := MkFd { fd_num : Z; fd_file : file }.

Record LaunchData : Type := MkLaunchData {
  stdin_fd : fd; stdout_fd : fd; stderr_fd : fd;
  filepath : string;
  argvList : list string;
  envList : list string;
  envBlacklist : list string
}.

(** The descriptors the daemon's requests arrive on. *)
Class ReqSocket : Type := {
  (** the request descriptor is a socket, not a pipe *)
  rs_is_socket : bool;
  (** numbers of the three descriptors the daemon gets for a message *)
  rs_numbers : list item → Z * Z * Z;
  (** the client's view: [getsockname] fails, or whether the family is AF_UNIX *)
  rs_domain : option bool
}.

(** Special descriptors of a request. *)
Definition StdFd : Z := -1.
Definition CloseFd : Z := -2.

Definition source_fd (n std : Z) (null : file) : file :=
  if n =? StdFd then FdNum std else if n =? CloseFd then null else FdNum n.

Section Write.
Context `{Kernel} `{ReqSocket}.

Definition write_strings (l : list string) : M (list item) () := for_each l fdWriteString.

(** [writeLaunchData]; [None] is a null [env]. *)
Definition writeLaunchData (path : string) (argv : list string)
    (stdin_n stdout_n stderr_n : Z) (env : option (list string)) : M (list item) () :=
  match rs_domain with
  | None => throw "getsockname failed"
  | Some false => throw "daemon request file descriptor must be a domain socket"
  | Some true =>
      modify (λ l, l ++ [Rights " " (source_fd stdin_n 0 DevNullR)
        (source_fd stdout_n 1 DevNullW) (source_fd stderr_n 2 DevNullW)]);;
      fdWriteString path;;
      fdWriteString (to_string (Z.of_nat (length argv)));;
      write_strings argv;;
      let vars := default [] env in
      fdWriteString (to_string (Z.of_nat (length vars)));;
      write_strings vars
  end.
End Write.

Section Read.
Context `{ReqSocket}.

(** Receiving the descriptors.  A request channel that is no socket gives
    /dev/null; a byte without descriptors, or the end of the stream, leaves the
    buffer for them uninitialised. *)
Definition receive_fds : M (list item) (fd * fd * fd) := λ l,
  let '(ni, no, ne) := rs_numbers l in
  if negb rs_is_socket
  then (Ok (MkFd ni DevNullR, MkFd no DevNullW, MkFd ne DevNullW), l)
  else
    match l with
    | Rights _ i o e :: l' => (Ok (MkFd ni i, MkFd no o, MkFd ne e), l')
    | Byte _ :: l' => (Undef "no descriptors in the message", l')
    | [] => (Undef "no descriptors in the message", [])
    end.

Definition receiveString : M istream string := receive_string "failed to read string".

Fixpoint receive_strings (n : nat) : M istream (list string) :=
  match n with
  | O => mret []
  | S n' => s ← receiveString; l ← receive_strings n'; mret (s :: l)
  end.

(** A count in decimal, the whole string. *)
Definition receive_count (what : string) : M istream Z :=
  s ← receiveString;
  '(z, rest) ← lift (stoi s);
  if is_empty rest then mret z else throw ("failed to parse " +:+ what +:+ ": " +:+ s).

Definition BLACKLIST_PREFIX : string := "CTIBLACKLIST_".

(** [val.back() == '='] and [val.pop_back()] *)
Fixpoint pop_equals (s : string) : string :=
  match s with
  | "" => ""
  | String c "" => if decide (c = "="%char) then "" else s
  | String c s' => String c (pop_equals s')
  end.

Definition blacklist_name (var : string) : string := pop_equals (split2 var "_").2.

(** Sorting the received variables into those to set and those to unset. *)
Fixpoint sort_env (vars : list string) : list string * list string :=
  match vars with
  | [] => ([], [])
  | var :: vars' =>
      let '(env, black) := sort_env vars' in
      if starts_with BLACKLIST_PREFIX var then (env, blacklist_name var :: black)
      else (var :: env, black)
  end.

(** [readLaunchData] *)
Definition readLaunchData : M (list item) LaunchData :=
  '(i, o, e) ← receive_fds;
  with_istream
    (path ← receiveString;
     argc ← receive_count "argc";
     argv ← receive_strings (Z.to_nat argc);
     envc ← receive_count "envc";
     vars ← receive_strings (Z.to_nat envc);
     let '(env, black) := sort_env vars in
     mret (MkLaunchData i o e path argv env black)).
End Read.

(** ** Lemmas *)

Section Lemmas.
Context `{Kernel}.

Definition strings_items (l : list string) : list item :=
  map Byte (concat (map cstr_bytes l)).

Lemma strings_items_cons (s : string) (l : list string) :
  strings_items (s :: l) = map Byte (cstr_bytes s) ++ strings_items l.
Proof. unfold strings_items. cbn. by rewrite map_app. Qed.

Lemma fdWriteString_run (s : string) (out : list item) :
  fdWriteString s out = (Ok tt, out ++ map Byte (cstr_bytes s)).
Proof. apply fdWriteBytes_run. Qed.

Lemma write_strings_run (l : list string) (out : list item) :
  write_strings l out = (Ok tt, out ++ strings_items l).
Proof.
  unfold write_strings. revert out. induction l as [|s l IH]; intros out.
  { cbn. by rewrite app_nil_r. }
  cbn [for_each]. rewrite (bind_run_Ok _ _ _ _ _ (fdWriteString_run s out)).
  by rewrite IH, strings_items_cons, app_assoc.
Qed.

Lemma receiveString_run (s : string) (rest : list item) :
  line_safe s = true →
  receiveString (MkIstream (map Byte (cstr_bytes s) ++ rest) false)
  = (Ok s, MkIstream rest false).
Proof. apply receive_cstr. Qed.

Lemma receive_strings_run (l : list string) (rest : list item) :
  forallb line_safe l = true →
  receive_strings (length l) (MkIstream (strings_items l ++ rest) false)
  = (Ok l, MkIstream rest false).
Proof.
  induction l as [|s l IH]; cbn [forallb]; [done|]. intros [Hs Hl]%andb_true_iff.
  rewrite strings_items_cons, <-app_assoc. cbn [receive_strings length].
  rewrite (bind_run_Ok _ _ _ _ _ (receiveString_run s _ Hs)).
  by rewrite (bind_run_Ok _ _ _ _ _ (IH Hl)).
Qed.

Lemma line_safe_to_string (z : Z) : line_safe (to_string z) = true.
Proof. apply andb_true_iff. by split; apply to_string_no_char. Qed.

Lemma receive_count_run (what : string) (z : Z) (rest : list item) :
  in_int z = true →
  receive_count what (MkIstream (map Byte (cstr_bytes (to_string z)) ++ rest) false)
  = (Ok z, MkIstream rest false).
Proof.
  intros Hz. unfold receive_count.
  rewrite (bind_run_Ok _ _ _ _ _ (receiveString_run _ _ (line_safe_to_string z))).
  by rewrite (bind_run_Ok _ _ _ (z, "") _) by by rewrite stoi_to_string.
Qed.

Lemma sort_env_filter (vars : list string) :
  sort_env vars = (List.filter (λ v, negb (starts_with BLACKLIST_PREFIX v)) vars,
                   map blacklist_name (List.filter (starts_with BLACKLIST_PREFIX) vars)).
Proof.
  induction vars as [|v vars IH]; cbn [sort_env]; [done|]. rewrite IH. cbn [List.filter].
  by destruct (starts_with BLACKLIST_PREFIX v).
Qed.

Lemma in_int_length {A : Type} (l : list A) :
  Z.of_nat (length l) <= int_max → in_int (Z.of_nat (length l)) = true.
Proof. intros. unfold in_int, int_min. apply andb_true_iff. split; apply Z.leb_le; lia. Qed.

Lemma pop_equals_app (s : string) : pop_equals (s +:+ "=") = s.
Proof.
  induction s as [|c s IH]; [done|]. cbn. destruct (s +:+ "=") as [|x r] eqn:E.
  - by destruct s.
  - by rewrite IH.
Qed.
End Lemmas.

(** ** Properties *)

Section Theorems.
Context `{Kernel} `{ReqSocket}.

(** The strings of a request, after its descriptors. *)
Definition launch_text (path : string) (argv vars : list string) : list item :=
  map Byte (cstr_bytes path) ++
  map Byte (cstr_bytes (to_string (Z.of_nat (length argv)))) ++ strings_items argv ++
  map Byte (cstr_bytes (to_string (Z.of_nat (length vars)))) ++ strings_items vars.

Definition launch_strings_ok (path : string) (argv vars : list string) : Prop :=
  line_safe path = true ∧ forallb line_safe argv = true ∧ forallb line_safe vars = true ∧
  Z.of_nat (length argv) <= int_max ∧ Z.of_nat (length vars) <= int_max.

Lemma write_launch_text (path : string) (argv vars : list string) (out : list item) :
  (fdWriteString path;; fdWriteString (to_string (Z.of_nat (length argv)));; write_strings argv;;
   fdWriteString (to_string (Z.of_nat (length vars)));; write_strings vars) out
  = (Ok tt, out ++ launch_text path argv vars).
Proof.
  rewrite (bind_run_Ok _ _ _ _ _ (fdWriteString_run _ _)).
  rewrite (bind_run_Ok _ _ _ _ _ (fdWriteString_run _ _)).
  rewrite (bind_run_Ok _ _ _ _ _ (write_strings_run _ _)).
  rewrite (bind_run_Ok _ _ _ _ _ (fdWriteString_run _ _)).
  rewrite write_strings_run. unfold launch_text. by rewrite <-!app_assoc.
Qed.

Lemma readLaunchData_text (l rest : list item) (i o e : fd) (path : string) (argv vars : list string) :
  receive_fds l = (Ok (i, o, e), launch_text path argv vars ++ rest) →
  launch_strings_ok path argv vars →
  readLaunchData l = (Ok (MkLaunchData i o e path argv (sort_env vars).1 (sort_env vars).2), rest).
Proof.
  intros Hfds (Hp & Ha & He & Hna & Hne). unfold readLaunchData.
  rewrite (bind_run_Ok _ _ _ _ _ Hfds). cbv beta iota. unfold with_istream, launch_text. rewrite <-!app_assoc.
  rewrite (bind_run_Ok _ _ _ _ _ (receiveString_run path _ Hp)).
  rewrite (bind_run_Ok _ _ _ _ _ (receive_count_run _ _ _ (in_int_length argv Hna))).
  rewrite Nat2Z.id, (bind_run_Ok _ _ _ _ _ (receive_strings_run argv _ Ha)).
  rewrite (bind_run_Ok _ _ _ _ _ (receive_count_run _ _ _ (in_int_length vars Hne))).
  rewrite Nat2Z.id, (bind_run_Ok _ _ _ _ _ (receive_strings_run vars _ He)).
  by rewrite sort_env_filter.
Qed.

Lemma blacklist_name_marked (name : string) :
  second_field_kept "_" (name +:+ "=") = true → blacklist_name (BLACKLIST_PREFIX +:+ name +:+ "=") = name.
Proof.
  intros Hk. unfold blacklist_name.
  assert (split2 (BLACKLIST_PREFIX +:+ name +:+ "=") "_" = ("CTIBLACKLIST", name +:+ "=")) as ->.
  { apply (split2_kept "_" "CTIBLACKLIST" (name +:+ "=")); done. }
  apply pop_equals_app.
Qed.

(** Marking a variable for removal works for every name whose text after the
    first underscore [cti::split] keeps: the name that is read back is the name that
    was marked. *)
Theorem blacklist_roundtrip (name : string) :
  second_field_kept "_" (name +:+ "=") = true →
  starts_with BLACKLIST_PREFIX (BLACKLIST_PREFIX +:+ name +:+ "=") = true ∧
  blacklist_name (BLACKLIST_PREFIX +:+ name +:+ "=") = name.
Proof. intros Hk. split; [by apply starts_with_app|by apply blacklist_name_marked]. Qed.

(** What a client asks of the environment of a launch: to set a variable, or to
    remove one, and the text by which it does. *)
Inductive env_entry : Type :=
| SetVar (var : string)
| UnsetVar (name : string).

Definition entry_text (x : env_entry) : string :=
  match x with SetVar var => var | UnsetVar name => "CTIBLACKLIST_" +:+ name +:+ "=" end.

Definition entry_ok (x : env_entry) : Prop :=
  match x with
  | SetVar var => starts_with "CTIBLACKLIST_" var = false
  | UnsetVar name => string_forall (λ c, negb (is_space c)) name = true
  end.

Definition set_vars (l : list env_entry) : list string :=
  flat_map (λ x, match x with SetVar var => [var] | UnsetVar _ => [] end) l.

Definition unset_vars (l : list env_entry) : list string :=
  flat_map (λ x, match x with SetVar _ => [] | UnsetVar name => [name] end) l.

(** Where a descriptor of a request leads: to the client's own stream for -1, to
    /dev/null for -2, or else to the client's descriptor of that number. *)
Definition leads_to (n std : Z) (null f : file) : Prop :=
  (n = -1 → f = FdNum std) ∧ (n = -2 → f = null) ∧ (n ≠ -1 → n ≠ -2 → f = FdNum n).

Lemma source_fd_leads (n std : Z) (null : file) : leads_to n std null (source_fd n std null).
Proof.
  unfold leads_to, source_fd, StdFd, CloseFd.
  destruct (Z.eqb_spec n (-1)), (Z.eqb_spec n (-2)); split_and!; intros; lia || done.
Qed.

Lemma app_single_inj (a b : string) (c d : ascii) :
  a +:+ String c "" = b +:+ String d "" → c = d.
Proof.
  revert b. induction a as [|x a IH]; intros [|y b]; cbn.
  - by intros [= ?].
  - intros [= _ E]. by destruct b.
  - intros [= _ E]. by destruct a.
  - intros [= _ E]. by apply (IH b).
Qed.

Lemma no_space_kept (name : string) :
  string_forall (λ c, negb (is_space c)) name = true → second_field_kept "_" (name +:+ "=") = true.
Proof.
  intros Hn. unfold second_field_kept.
  destruct (split_at "_" (name +:+ "=")) as [[b1 b2]|] eqn:E; [|done].
  pose proof (string_forall_app (λ c, negb (is_space c)) name "=") as Ha.
  rewrite Hn in Ha. apply split_at_Some in E as [E _]. rewrite E, string_forall_app in Ha.
  apply andb_true_iff in Ha as [_ Hb]. cbn [string_forall] in Hb.
  apply andb_true_iff in Hb as [_ Hb]. apply andb_true_iff. split; [|exact Hb].
  destruct b2 as [|c b2]; [|done]. by apply app_single_inj in E.
Qed.

Lemma sort_env_entries (l : list env_entry) :
  Forall entry_ok l → sort_env (map entry_text l) = (set_vars l, unset_vars l).
Proof.
  induction 1 as [|[var|name] l Hx _ IH]; [done|..]; cbn [map sort_env]; rewrite IH.
  - cbn [entry_text]. unfold BLACKLIST_PREFIX. cbn [entry_ok] in Hx. by rewrite Hx.
  - cbn [entry_text]. change "CTIBLACKLIST_" with BLACKLIST_PREFIX. rewrite starts_with_app.
    by rewrite (blacklist_name_marked name) by by apply no_space_kept.
Qed.

(** C6 Launch requests arrive as they were sent.  Over a Unix domain socket,
    for strings without the bytes 0 and 255 and at most [INT_MAX] of them, what
    [writeLaunchData] sends is read by [readLaunchData] as the same path and
    arguments, the variables to set, none of which begins as a mark does, in their order, and
    the names of those to remove, which have no white space, in theirs; the descriptors lead
    where the client's do (its own standard streams for -1, /dev/null for -2), and the
    rest of the stream is untouched. *)
Theorem launch_data_roundtrip (path : string) (argv : list string) (i o e : Z)
    (env : option (list env_entry)) (out rest : list item) :
  rs_domain = Some true → rs_is_socket = true →
  let vars := default [] env in
  line_safe path = true → forallb line_safe argv = true →
  Forall entry_ok vars → forallb line_safe (map entry_text vars) = true →
  Z.of_nat (length argv) <= int_max → Z.of_nat (length vars) <= int_max →
  ∃ sent ld, writeLaunchData path argv i o e (map entry_text <$> env) out = (Ok tt, out ++ sent) ∧
    readLaunchData (sent ++ rest) = (Ok ld, rest) ∧
    filepath ld = path ∧ argvList ld = argv ∧
    envList ld = set_vars vars ∧ envBlacklist ld = unset_vars vars ∧
    leads_to i 0 DevNullR (fd_file (stdin_fd ld)) ∧
    leads_to o 1 DevNullW (fd_file (stdout_fd ld)) ∧
    leads_to e 2 DevNullW (fd_file (stderr_fd ld)).
Proof.
  intros Hd Hs vars Hp Ha Hok He Hna Hne.
  assert (default [] (map entry_text <$> env) = map entry_text vars) as Ev by by destruct env.
  set (msg := Rights " " (source_fd i 0 DevNullR) (source_fd o 1 DevNullW)
    (source_fd e 2 DevNullW)).
  set (texts := map entry_text vars) in *.
  destruct (rs_numbers (msg :: launch_text path argv texts ++ rest)) as [[ni no] ne] eqn:En.
  exists (msg :: launch_text path argv texts). eexists. split; [|split].
  - unfold writeLaunchData. rewrite Hd.
    rewrite (bind_run_Ok _ _ _ tt (out ++ [msg])) by done. cbv zeta. rewrite Ev.
    rewrite write_launch_text. by rewrite <-app_assoc.
  - cbn [app]. apply (readLaunchData_text _ _ (MkFd ni (source_fd i 0 DevNullR))
      (MkFd no (source_fd o 1 DevNullW)) (MkFd ne (source_fd e 2 DevNullW)) path argv texts).
    + unfold receive_fds. by rewrite En, Hs.
    + split_and!; [done..|]. unfold texts. by rewrite length_map.
  - unfold texts. rewrite sort_env_entries by done.
    split_and!; [done..| | |]; apply source_fd_leads.
Qed.
End Theorems.

#[export] Instance demo_socket : ReqSocket := {|
  rs_is_socket := true; rs_numbers _ := (5, 6, 7); rs_domain := Some true |}.

Lemma launch_data_roundtrip_witness :
  ∃ sent ld, writeLaunchData "/bin/srun" ["srun"; "-n"; ""] StdFd 9 CloseFd
      (Some ["A=b"; "CTIBLACKLIST_SLURM_JOB_ID="; "C=d"]) [] = (Ok tt, sent) ∧
    readLaunchData (sent ++ []) = (Ok ld, []) ∧
    argvList ld = ["srun"; "-n"; ""] ∧ envList ld = ["A=b"; "C=d"] ∧
    envBlacklist ld = ["SLURM_JOB_ID"] ∧ leads_to StdFd 0 DevNullR (fd_file (stdin_fd ld)).
Proof.
  destruct (launch_data_roundtrip "/bin/srun" ["srun"; "-n"; ""] StdFd 9 CloseFd
    (Some [SetVar "A=b"; UnsetVar "SLURM_JOB_ID"; SetVar "C=d"]) [] []) as
    (sent & ld & H1 & H2 & _ & H4 & H5 & H6 & H7 & _);
    [reflexivity|reflexivity|reflexivity|reflexivity|by repeat constructor|reflexivity|
     vm_compute; discriminate|vm_compute; discriminate|].
  exists sent, ld. split; [exact H1|]. split; [exact H2|]. split; [exact H4|]. split; [exact H5|].
  split; [exact H6|exact H7].
Defined.

Lemma blacklist_roundtrip_witness :
  starts_with BLACKLIST_PREFIX (BLACKLIST_PREFIX +:+ "SLURM_JOB_ID" +:+ "=") = true ∧
  blacklist_name (BLACKLIST_PREFIX +:+ "SLURM_JOB_ID" +:+ "=") = "SLURM_JOB_ID".
Proof. exact (blacklist_roundtrip "SLURM_JOB_ID" eq_refl). Defined.
