(* ===== verification/Daemon.v ===== *)
(** * The frontend daemon: state and registry (src/src/frontend/daemon/cti_fe_daemon.cpp)

    The daemon owns the processes started for applications and their utilities, so
    that they are ended when the frontend exits.  Its global variables are one
    record; what it does to other processes is a trace of events, on which the
    answers of the operating system may depend.  A thread that the signal handler has started
    is kept in the state until it runs. *)

From S2P Require Import Prelude Wire Launch.

(** Names of signals. *)
Definition SIGKILL : Z := 9.
Definition SIGTERM : Z := 15.
Definition SIGCONT : Z := 18.

Record MPIRProctableElem : Type := MkElem { el_pid : Z; el_hostname : string; el_executable : string }.

Inductive devent : Type :=
| EvFork (pid : Z) (path : string) (argv : list string) (env : gmap string string)
    (i o e : file)
| EvKill (pid sig : Z)
| EvReap (pid : Z)
| EvCloseFd (n : Z)
| EvMkdir (path : string) | EvRmdir (path : string)
| EvLink (target path : string) | EvUnlink (path : string)
| EvMPIRStart (pid : Z)
| EvMPIRRelease (pid : Z)
| EvMPIRTerminate (pid : Z).

(** The operating system, asked after a trace of events. *)
Class Procs : Type := {
  (** [fork] in the parent *)
  p_fork : list devent → Z;
  (** whether [kill] succeeds *)
  p_kill : list devent → Z → Z → bool;
  (** whether /proc/<pid>/status names a zombie *)
  p_zombie : list devent → Z → bool;
  (** [cti::waitpid]: [None] on failure, the exit code or the death by a signal *)
  p_wait : list devent → Z → option (option Z);
  p_mkdir : string → bool;
  p_symlink : string → bool;
  (** [pipe]: the two new descriptors *)
  p_pipe : list devent → Z * Z;
  (** the process id read from the shim's pipe, if the shim writes one *)
  p_shim_pid : list devent → option Z;
  (** a random UUID *)
  p_uuid : list devent → string
}.

(** The process under MPIR control (src/src/frontend/mpir_iface/MPIRInstance.hpp), as
    the daemon uses it: constructors that may throw and its member functions. *)
Class MPIR : Type := {
  mpir_inst : Type;
  mi_launch : gmap string string → string → list string → list (Z * Z) → res mpir_inst;
  mi_attach : string → Z → res mpir_inst;
  mi_runToMPIRBreakpoint : mpir_inst → res mpir_inst;
  mi_getLauncherPid : mpir_inst → Z;
  mi_readStringAt : mpir_inst → string → res string;
  mi_getProctable : mpir_inst → res (list MPIRProctableElem)
}.

(** A [ProcSet]: processes and the signal that ends them. *)
Abbreviation ProcSet := (gmap Z Z).

Section Daemon.
Context `{Kernel} `{Procs} `{MPIR}.

(** The global variables of the daemon.  A closed [reqFd] makes every read fail, a
    closed [respFd] every write. *)
Record daemon : Type := MkDaemon {
  d_in : list item;
  d_in_open : bool;
  d_out : list item;
  d_out_open : bool;
  d_id : Z;
  d_pidIdMap : gmap Z Z;
  d_idPidMap : gmap Z Z;
  d_cleanup : ProcSet;
  d_utilMap : gmap Z ProcSet;
  d_mpirMap : gmap Z mpir_inst;
  d_launching : option mpir_inst;
  d_env : gmap string string;
  d_running : bool;
  d_threads : list Z;
  d_events : list devent
}.

Definition set_in (l : list item) (d : daemon) : daemon :=
  MkDaemon l (d_in_open d) (d_out d) (d_out_open d) (d_id d) (d_pidIdMap d) (d_idPidMap d)
    (d_cleanup d) (d_utilMap d) (d_mpirMap d) (d_launching d) (d_env d) (d_running d)
    (d_threads d) (d_events d).

Definition set_in_open (b : bool) (d : daemon) : daemon :=
  MkDaemon (d_in d) b (d_out d) (d_out_open d) (d_id d) (d_pidIdMap d) (d_idPidMap d)
    (d_cleanup d) (d_utilMap d) (d_mpirMap d) (d_launching d) (d_env d) (d_running d)
    (d_threads d) (d_events d).

Definition set_out (l : list item) (d : daemon) : daemon :=
  MkDaemon (d_in d) (d_in_open d) l (d_out_open d) (d_id d) (d_pidIdMap d) (d_idPidMap d)
    (d_cleanup d) (d_utilMap d) (d_mpirMap d) (d_launching d) (d_env d) (d_running d)
    (d_threads d) (d_events d).

Definition set_out_open (b : bool) (d : daemon) : daemon :=
  MkDaemon (d_in d) (d_in_open d) (d_out d) b (d_id d) (d_pidIdMap d) (d_idPidMap d)
    (d_cleanup d) (d_utilMap d) (d_mpirMap d) (d_launching d) (d_env d) (d_running d)
    (d_threads d) (d_events d).

(** The registry: the counter and the maps between processes and applications. *)
Definition set_registry (n : Z) (p i : gmap Z Z) (d : daemon) : daemon :=
  MkDaemon (d_in d) (d_in_open d) (d_out d) (d_out_open d) n p i
    (d_cleanup d) (d_utilMap d) (d_mpirMap d) (d_launching d) (d_env d) (d_running d)
    (d_threads d) (d_events d).

Definition set_cleanup (s : ProcSet) (d : daemon) : daemon :=
  MkDaemon (d_in d) (d_in_open d) (d_out d) (d_out_open d) (d_id d) (d_pidIdMap d) (d_idPidMap d)
    s (d_utilMap d) (d_mpirMap d) (d_launching d) (d_env d) (d_running d)
    (d_threads d) (d_events d).

Definition set_utilMap (u : gmap Z ProcSet) (d : daemon) : daemon :=
  MkDaemon (d_in d) (d_in_open d) (d_out d) (d_out_open d) (d_id d) (d_pidIdMap d) (d_idPidMap d)
    (d_cleanup d) u (d_mpirMap d) (d_launching d) (d_env d) (d_running d)
    (d_threads d) (d_events d).

Definition set_mpirMap (m : gmap Z mpir_inst) (d : daemon) : daemon :=
  MkDaemon (d_in d) (d_in_open d) (d_out d) (d_out_open d) (d_id d) (d_pidIdMap d) (d_idPidMap d)
    (d_cleanup d) (d_utilMap d) m (d_launching d) (d_env d) (d_running d)
    (d_threads d) (d_events d).

Definition set_launching (i : option mpir_inst) (d : daemon) : daemon :=
  MkDaemon (d_in d) (d_in_open d) (d_out d) (d_out_open d) (d_id d) (d_pidIdMap d) (d_idPidMap d)
    (d_cleanup d) (d_utilMap d) (d_mpirMap d) i (d_env d) (d_running d)
    (d_threads d) (d_events d).

Definition set_env (e : gmap string string) (d : daemon) : daemon :=
  MkDaemon (d_in d) (d_in_open d) (d_out d) (d_out_open d) (d_id d) (d_pidIdMap d) (d_idPidMap d)
    (d_cleanup d) (d_utilMap d) (d_mpirMap d) (d_launching d) e (d_running d)
    (d_threads d) (d_events d).

Definition set_running (b : bool) (d : daemon) : daemon :=
  MkDaemon (d_in d) (d_in_open d) (d_out d) (d_out_open d) (d_id d) (d_pidIdMap d) (d_idPidMap d)
    (d_cleanup d) (d_utilMap d) (d_mpirMap d) (d_launching d) (d_env d) b
    (d_threads d) (d_events d).

Definition set_threads (l : list Z) (d : daemon) : daemon :=
  MkDaemon (d_in d) (d_in_open d) (d_out d) (d_out_open d) (d_id d) (d_pidIdMap d) (d_idPidMap d)
    (d_cleanup d) (d_utilMap d) (d_mpirMap d) (d_launching d) (d_env d) (d_running d)
    l (d_events d).

Definition push_ev (e : devent) (d : daemon) : daemon :=
  MkDaemon (d_in d) (d_in_open d) (d_out d) (d_out_open d) (d_id d) (d_pidIdMap d) (d_idPidMap d)
    (d_cleanup d) (d_utilMap d) (d_mpirMap d) (d_launching d) (d_env d) (d_running d)
    (d_threads d) (d_events d ++ [e]).

Definition new_daemon (input : list item) (env : gmap string string) : daemon :=
  MkDaemon input true [] true 0 ∅ ∅ ∅ ∅ ∅ None env true [] [].

Definition emit (e : devent) : M daemon () := modify (push_ev e).

(** Reading requests and writing responses. *)
Definition read_req {A : Type} (m : M (list item) A) : M daemon A := λ d,
  if d_in_open d then zoom d_in set_in m d
  else (Throw "read failed: Bad file descriptor", d).

Definition write_resp (m : M (list item) ()) : M daemon () := λ d,
  if d_out_open d then zoom d_out set_out m d
  else (Throw "write failed: Bad file descriptor", d).

(** ** Ending processes *)

(** [tryTerm] *)
Definition tryTerm (pid sig : Z) : M daemon () :=
  d ← get;
  if p_kill (d_events d) pid sig
  then emit (EvKill pid sig);; emit (EvKill pid SIGKILL);; emit (EvReap pid)
  else mret tt.

(** [ProcSet::clear] on a copy of the set; the destructor does the same. *)
Definition procset_clear (s : ProcSet) : M daemon () :=
  for_each (map_to_list s) (λ '(pid, sig), tryTerm pid sig).

Definition util_procs (id : Z) (d : daemon) : ProcSet := default ∅ (d_utilMap d !! id).

(** [utilMap.erase(id)]: the set of the application is destroyed. *)
Definition utilMap_erase (id : Z) : M daemon () :=
  d ← get;
  modify (set_utilMap (delete id (d_utilMap d)));;
  procset_clear (util_procs id d).

(** ** Registration *)

(** [newId]: a signed counter. *)
Definition newId : M daemon Z :=
  d ← get;
  if decide (d_id d = int_max) then undef "signed overflow"
  else
    modify (λ d, set_registry (d_id d + 1) (d_pidIdMap d) (d_idPidMap d) d);;
    mret (d_id d + 1).

Definition registerAppPID (app_pid : Z) : M daemon Z :=
  if decide (app_pid = 0)
  then
    appId ← newId;
    modify (λ d, set_registry (d_id d) (d_pidIdMap d) (<[appId := 0]> (d_idPidMap d)) d);;
    mret appId
  else
    d ← get;
    match d_pidIdMap d !! app_pid with
    | None =>
        appId ← newId;
        modify (λ d, set_registry (d_id d) (<[app_pid := appId]> (d_pidIdMap d))
                       (<[appId := app_pid]> (d_idPidMap d)) d);;
        mret appId
    | Some _ => throw ("duplicate app pid: " +:+ to_string app_pid)
    end.

Definition registerUtilPID (app_id util_pid terminate_signum : Z) : M daemon () :=
  d ← get;
  match d_idPidMap d !! app_id with
  | None => throw ("invalid app id: " +:+ to_string app_id)
  | Some _ =>
      if decide (0 < util_pid)
      then modify (set_utilMap (<[app_id := <[util_pid := terminate_signum]>
                                  (util_procs app_id d)]> (d_utilMap d)))
      else throw ("invalid util pid: " +:+ to_string util_pid)
  end.

(** Removing an application from the registry. *)
Definition forget_app (app_id app_pid : Z) : M daemon () :=
  modify (λ d, set_registry (d_id d)
    (if decide (0 < app_pid) then delete app_pid (d_pidIdMap d) else d_pidIdMap d)
    (delete app_id (d_idPidMap d)) d).

(** The threads that end the utilities and the application run side by side; here
    one after the other. *)
Definition deregisterAppID (app_id : Z) : M daemon () :=
  d ← get;
  match d_idPidMap d !! app_id with
  | None => throw ("invalid app id: " +:+ to_string app_id)
  | Some app_pid =>
      forget_app app_id app_pid;;
      utilMap_erase app_id;;
      (if decide (is_Some (d_cleanup d !! app_pid))
       then modify (λ d, set_cleanup (delete app_pid (d_cleanup d)) d);; tryTerm app_pid SIGTERM
       else mret tt)
  end.

Definition releaseAppID (app_id : Z) : M daemon () :=
  d ← get;
  match d_idPidMap d !! app_id with
  | None => throw ("invalid app id: " +:+ to_string app_id)
  | Some app_pid =>
      forget_app app_id app_pid;;
      modify (λ d, set_cleanup (delete app_pid (d_cleanup d)) d);;
      utilMap_erase app_id
  end.

Definition checkAppID (app_id : Z) : M daemon bool :=
  d ← get;
  match d_idPidMap d !! app_id with
  | None => throw ("invalid app id: " +:+ to_string app_id)
  | Some app_pid =>
      if decide (app_pid = 0) then mret true
      else if p_kill (d_events d) app_pid 0
           then mret (negb (p_zombie (d_events d) app_pid))
           else mret false
  end.

(** ** Signals *)

(** [sigchld_handler].  The utilities of an application that ended are erased by a
    thread of their own: [d_threads] are the applications whose thread has not run. *)
Definition sigchld_handler (exitedPid : Z) : M daemon () :=
  d ← get;
  if negb (d_running d) then mret tt
  else
    (if decide (is_Some (d_cleanup d !! exitedPid))
     then emit (EvReap exitedPid);;
          modify (λ d, set_cleanup (delete exitedPid (d_cleanup d)) d)
     else mret tt);;
    match d_pidIdMap d !! exitedPid with
    | None => mret tt
    | Some exitedId =>
        if decide (is_Some (d_utilMap d !! exitedId))
        then modify (λ d, set_threads (d_threads d ++ [exitedId]) d) else mret tt
    end.

(** The thread at place [n] of those that have not run, and its work. *)
Definition run_thread (n : nat) : M daemon () :=
  d ← get;
  match d_threads d !! n with
  | Some exitedId =>
      modify (set_threads (delete n (d_threads d)));;
      utilMap_erase exitedId
  | None => mret tt
  end.

(** [terminate_main_loop] *)
Definition terminate_main_loop : M daemon () :=
  modify (set_in_open false);;
  d ← get;
  match d_launching d with
  | Some inst => emit (EvMPIRTerminate (mi_getLauncherPid inst))
  | None => mret tt
  end.

(** [cti_fe_daemon_handler] *)
Inductive signal : Type :=
| SigChld (exited : bool) (pid : Z)
| SigTerm | SigHup
| SigOther.

Definition cti_fe_daemon_handler (s : signal) : M daemon () :=
  match s with
  | SigChld exited pid =>
      if exited && (1 <? pid) then sigchld_handler pid else mret tt
  | SigTerm | SigHup => terminate_main_loop
  | SigOther => mret tt
  end.
End Daemon.
