(* ===== verification/Handlers.v ===== *)
(** * The frontend daemon: launches, request handlers and main loop
    (src/src/frontend/daemon/cti_fe_daemon.cpp) *)

From S2P Require Import Prelude Split Argv Host Wire Launch Daemon.

(** [setenv(name, value, 1)] and [unsetenv(name)]: an empty name, or one with an
    equals sign, is refused. *)
Definition valid_name (name : string) : bool := negb (is_empty name) && no_char "=" name.

Definition setenv (name value : string) (e : gmap string string) : gmap string string :=
  if valid_name (c_str name) then <[c_str name := c_str value]> e else e.

Definition unsetenv (name : string) (e : gmap string string) : gmap string string :=
  if valid_name (c_str name) then delete (c_str name) e else e.

Definition getenv (name : string) (e : gmap string string) : option string := e !! c_str name.

(** [envMap.emplace]: the first value of a name is kept.  The map's order plays no
    role: the names are distinct. *)
Fixpoint parse_env (vars : list string) : res (list (string * string)) :=
  match vars with
  | [] => Ok []
  | var :: vars' =>
      match split_at "=" var with
      | None => Throw ("failed to parse env var: " +:+ var)
      | Some (name, value) =>
          rest ← parse_env vars';
          mret ((name, value) :: List.filter (λ nv, negb (bool_decide (nv.1 = name))) rest)
      end
  end.

(** The environment of the child. *)
Definition child_env (envMap : list (string * string)) (black : list string)
    (e : gmap string string) : gmap string string :=
  foldl (λ e name, unsetenv name e)
    (foldl (λ e nv, if is_empty nv.2 then unsetenv nv.1 e else setenv nv.1 nv.2 e) e envMap)
    black.

(** The loop that copies PATH up to and including the launcher's directory and puts
    the shim directory after it; [None] when the directory is not in PATH.  One
    character of fuel per byte is enough: each round drops at least the delimiter
    or ends. *)
Fixpoint shim_path (fuel : nat) (launcherDir shimDir restPath shimmed : string) : option string :=
  match fuel with
  | O => None
  | S fuel' =>
      if is_empty restPath then None
      else
        let '(directory, rest) := default (restPath, "") (split_at ":" restPath) in
        let shimmed' := shimmed +:+ directory +:+ ":" in
        if decide (directory = launcherDir)
        then Some (shimmed' +:+ shimDir +:+ ":" +:+ rest)
        else shim_path fuel' launcherDir shimDir rest shimmed'
  end.

Definition shimmed_PATH (launcherDir shimDir originalPath : string) : string :=
  match shim_path (S (String.length originalPath)) launcherDir shimDir originalPath "" with
  | Some p => "PATH=" +:+ p
  | None => "PATH=" +:+ shimDir +:+ (if is_empty originalPath then "" else ":" +:+ originalPath)
  end.

Record ShimData : Type := MkShim {
  shimBinaryPath : string; temporaryShimBinDir : string; shimmedLauncherPath : string
}.

Record MPIRResult : Type := MkMPIRResult {
  res_mpir_id : Z; res_launcher_pid : Z; res_job_id : Z; res_step_id : Z;
  res_proctable : list MPIRProctableElem
}.

Section Handlers.
Context `{Kernel} `{ReqSocket} `{Procs} `{MPIR} `{Host}.

(** ** Launching processes *)

(** [forkExec] in the parent; the event holds what the child executes. *)
Definition forkExec (ld : LaunchData) : M daemon Z :=
  argv ← lift (argv_add_each (map Some (argvList ld)) argv_new);
  binaryPath ← lift (findPath (filepath ld));
  envMap ← lift (parse_env (envList ld));
  d ← get;
  let pid := p_fork (d_events d) in
  if decide (pid < 0) then throw "fork error"
  else
    emit (EvFork pid binaryPath (until_null argv) (child_env envMap (envBlacklist ld) (d_env d))
      (fd_file (stdin_fd ld)) (fd_file (stdout_fd ld)) (fd_file (stderr_fd ld)));;
    mret pid.

(** The job and step number of [extractMPIRResult]; any failure is ignored. *)
Definition to_uint32 (z : Z) : Z := z mod 2 ^ 32.

Definition read_number (inst : mpir_inst) (symbol : string) : option Z :=
  match (s ← mi_readStringAt inst symbol; stoi s) with
  | Ok (z, _) => Some (to_uint32 z)
  | _ => None
  end.

Definition job_and_step (inst : mpir_inst) : Z * Z :=
  match read_number inst "totalview_jobid" with
  | None => (0, 0)
  | Some job => (job, default 0 (read_number inst "totalview_stepid"))
  end.

Definition extractMPIRResult (inst : mpir_inst) : M daemon MPIRResult :=
  let launcherPid := mi_getLauncherPid inst in
  mpirId ← registerAppPID launcherPid;
  let '(jobId, stepId) := job_and_step inst in
  proctable ← lift (mi_getProctable inst);
  modify (λ d, set_mpirMap (<[mpirId := inst]> (d_mpirMap d)) d);;
  mret (MkMPIRResult mpirId launcherPid jobId stepId proctable).

(** The same for an instance in a local variable, which is destroyed when the
    extraction throws. *)
Definition extract_local (inst : mpir_inst) : M daemon MPIRResult :=
  try_catch (extractMPIRResult inst)
    (λ ex, emit (EvMPIRRelease (mi_getLauncherPid inst));; throw ex).

Definition cleanup_insert (pid sig : Z) : M daemon () :=
  modify (λ d, set_cleanup (<[pid := sig]> (d_cleanup d)) d).

(** [env_var_restore]: what to put back for a variable. *)
Definition restore_var (r : string * option string) (e : gmap string string)
    : gmap string string :=
  if is_empty r.1 then e
  else match r.2 with
       | Some v => setenv r.1 v e
       | None => unsetenv r.1 e
       end.

(** Setting the variables of a launch, remembering what was there. *)
Fixpoint overwrite_env (vars : list string) (e : gmap string string)
    : list (string * option string) * gmap string string :=
  match vars with
  | [] => ([], e)
  | envVarVal :: vars' =>
      let '(var, val) := split2 envVarVal "=" in
      let '(saved, e') := overwrite_env vars' (setenv var val e) in
      ((var, getenv var e) :: saved, e')
  end.

Fixpoint unset_env (black : list string) (e : gmap string string)
    : list (string * option string) * gmap string string :=
  match black with
  | [] => ([], e)
  | var :: black' =>
      let '(saved, e') := unset_env black' (unsetenv var e) in
      (match getenv var e with Some v => (var, Some v) :: saved | None => saved end, e')
  end.

Definition launch_env (ld : LaunchData) (e : gmap string string)
    : list (string * option string) * gmap string string :=
  let '(saved1, e1) := overwrite_env (envList ld) e in
  let '(saved2, e2) := unset_env (envBlacklist ld) e1 in
  (saved1 ++ saved2, e2).

(** The elements of the vector are destroyed from the first to the last. *)
Definition restore_env (saved : list (string * option string)) (e : gmap string string)
    : gmap string string :=
  foldl (λ e r, restore_var r e) e saved.

(** Assigning the global destroys an instance left there by a failed launch. *)
Definition set_launchingInstance (inst : mpir_inst) : M daemon () :=
  d ← get;
  match d_launching d with
  | Some old => emit (EvMPIRRelease (mi_getLauncherPid old))
  | None => mret tt
  end;;
  modify (set_launching (Some inst)).

Fixpoint spaced (l : list string) : string :=
  match l with [] => "" | a :: l' => " " +:+ a +:+ spaced l' end.

Definition launchMPIR (ld : LaunchData) : M daemon MPIRResult :=
  let remapFds := [(fd_num (stdin_fd ld), 0); (fd_num (stdout_fd ld), 1);
                   (fd_num (stderr_fd ld), 2)] in
  d0 ← get;
  let '(saved, e) := launch_env ld (d_env d0) in
  modify (set_env e);;
  finally
    (launcherPath ← lift (findPath (filepath ld));
     inst ← try_catch (lift (mi_launch e launcherPath (argvList ld) remapFds))
       (λ ex, throw ("Failed to start launcher with the provided arguments: " +:+
                     spaced (argvList ld) +:+ " (" +:+ ex +:+ ")"));
     emit (EvMPIRStart (mi_getLauncherPid inst));;
     set_launchingInstance inst;;
     inst' ← lift (mi_runToMPIRBreakpoint inst);
     modify (set_launching (Some inst'));;
     result ← extractMPIRResult inst';
     modify (set_launching None);;
     cleanup_insert (res_launcher_pid result) SIGTERM;;
     mret result)
    (modify (λ d, set_env (restore_env saved (d_env d)) d)).

Definition attachMPIR (launcherPath : string) (launcherPid : Z) : M daemon MPIRResult :=
  inst ← try_catch (lift (mi_attach launcherPath launcherPid))
    (λ ex, throw ("Failed to attach to the launcher at '" +:+ launcherPath +:+ "' under PID " +:+
                  to_string launcherPid +:+ " (" +:+ ex +:+ ")"));
  extract_local inst.

(** [mpirMap.erase]: destroying an instance lets the process run on. *)
Definition mpirMap_erase (id : Z) (inst : mpir_inst) : M daemon () :=
  modify (λ d, set_mpirMap (delete id (d_mpirMap d)) d);;
  emit (EvMPIRRelease (mi_getLauncherPid inst)).

Definition releaseMPIR (mpir_id : Z) : M daemon () :=
  d ← get;
  match d_mpirMap d !! mpir_id with
  | Some inst => mpirMap_erase mpir_id inst
  | None => throw ("release mpir id not found: " +:+ to_string mpir_id)
  end.

(** The iterator is used after the element it points to was erased. *)
Definition waitMPIR (mpir_id : Z) : M daemon bool :=
  d ← get;
  match d_mpirMap d !! mpir_id with
  | Some inst =>
      mpirMap_erase mpir_id inst;;
      undef "iterator used after its element was erased"
  | None => throw ("release mpir id not found: " +:+ to_string mpir_id)
  end.

Definition readStringMPIR (mpir_id : Z) (variable : string) : M daemon string :=
  d ← get;
  match d_mpirMap d !! mpir_id with
  | Some inst => lift (mi_readStringAt inst variable)
  | None => throw ("read string mpir id not found: " +:+ to_string mpir_id)
  end.

Definition terminateMPIR (mpir_id : Z) : M daemon () :=
  d ← get;
  match d_mpirMap d !! mpir_id with
  | Some inst =>
      emit (EvMPIRTerminate (mi_getLauncherPid inst));;
      mpirMap_erase mpir_id inst
  | None => throw ("terminate mpir id not found: " +:+ to_string mpir_id)
  end.

(** A directory and a link that are removed on the way out. *)
Definition with_dir {A : Type} (path : string) (m : M daemon A) : M daemon A :=
  if p_mkdir path
  then emit (EvMkdir path);; finally m (emit (EvRmdir path))
  else throw ("mkdir " +:+ path +:+ " failed: ").

Definition with_link {A : Type} (target path : string) (m : M daemon A) : M daemon A :=
  if p_symlink path
  then emit (EvLink target path);; finally m (emit (EvUnlink path))
  else throw ("link " +:+ target +:+ " -> " +:+ path +:+ " failed: ").

(** The request as it is handed to the shim. *)
Definition shim_launch (sd : ShimData) (ld : LaunchData) (launcherPath shimDir originalPath token
    : string) (pipe : Z * Z) : LaunchData :=
  MkLaunchData (stdin_fd ld) (stdout_fd ld) (stderr_fd ld) (filepath ld)
    (argvList ld ++ [token])
    (envList ld ++
     [shimmed_PATH (parent_path launcherPath) shimDir originalPath;
      "CTI_MPIR_SHIM_INPUT_FD=" +:+ to_string (fst pipe);
      "CTI_MPIR_SHIM_OUTPUT_FD=" +:+ to_string (snd pipe);
      "CTI_MPIR_LAUNCHER_PATH=" +:+ shimmedLauncherPath sd;
      "CTI_MPIR_ORIGINAL_PATH=" +:+ originalPath;
      "CTI_MPIR_STDIN_FD=" +:+ to_string (fd_num (stdin_fd ld));
      "CTI_MPIR_STDOUT_FD=" +:+ to_string (fd_num (stdout_fd ld));
      "CTI_MPIR_STDERR_FD=" +:+ to_string (fd_num (stderr_fd ld));
      "CTI_MPIR_SHIM_TOKEN=" +:+ token])
    (envBlacklist ld).

Definition launchMPIRShim (sd : ShimData) (ld : LaunchData) : M daemon MPIRResult :=
  d0 ← get;
  let pipe := p_pipe (d_events d0) in
  let token := p_uuid (d_events d0) in
  launcherName ← lift (cstr_basename (shimmedLauncherPath sd));
  let shimDir := temporaryShimBinDir sd +:+ token in
  with_dir shimDir
    (with_link (shimBinaryPath sd) (shimDir +:+ "/" +:+ launcherName)
       (launcherPath ← lift (findPath (filepath ld));
        let originalPath := default "" (getenv "PATH" (d_env d0)) in
        forkExec (shim_launch sd ld launcherPath shimDir originalPath token pipe);;
        emit (EvCloseFd (snd pipe));;
        d1 ← get;
        launcherPid ← match p_shim_pid (d_events d1) with
                      | Some pid => mret pid
                      | None => throw "MPIR shim failed to start."
                      end;
        inst ← try_catch (lift (mi_attach (shimmedLauncherPath sd) launcherPid))
          (λ ex, throw ("Failed attach to launcher under MPIR shim (" +:+ ex +:+ ")"));
        result ← extract_local inst;
        cleanup_insert (res_launcher_pid result) SIGTERM;;
        d2 ← get;
        (if p_kill (d_events d2) launcherPid SIGCONT
         then emit (EvKill launcherPid SIGCONT) else mret tt);;
        mret result)).

(** ** Responses *)

Definition tryWriteOKResp (func : M daemon bool) : M daemon () :=
  try_catch
    (success ← func; write_resp (fdWriteLoop okresp_wire (MkOKResp RESP_OK success)))
    (λ _, write_resp (fdWriteLoop okresp_wire (MkOKResp RESP_OK false))).

Definition tryWriteIDResp (func : M daemon Z) : M daemon () :=
  try_catch
    (id ← func; write_resp (fdWriteLoop idresp_wire (MkIDResp RESP_ID id)))
    (λ _, write_resp (fdWriteLoop idresp_wire (MkIDResp RESP_ID 0))).

Definition tryWriteStringResp (func : M daemon string) : M daemon () :=
  try_catch
    (stringData ← func;
     write_resp (fdWriteLoop stringresp_wire (MkStringResp RESP_String true));;
     write_resp (fdWriteBytes (list_ascii_of_string stringData ++ ["000"%char])))
    (λ _, write_resp (fdWriteLoop stringresp_wire (MkStringResp RESP_String false))).

(** [static_cast<int>] of a size *)
Definition to_int (n : Z) : Z := to_signed 4 (n mod 2 ^ 32).

Definition write_elem (el : MPIRProctableElem) : M daemon () :=
  write_resp (fdWriteLoop int_wire (el_pid el));;
  write_resp (fdWriteBytes (list_ascii_of_string (el_hostname el) ++ ["000"%char]));;
  write_resp (fdWriteBytes (list_ascii_of_string (el_executable el) ++ ["000"%char])).

Definition tryWriteMPIRResp (func : M daemon MPIRResult) : M daemon () :=
  try_catch
    (r ← func;
     write_resp (fdWriteLoop mpirresp_wire
       (MkMPIRResp RESP_MPIR (res_mpir_id r) (res_launcher_pid r) (res_job_id r)
          (res_step_id r) (to_int (Z.of_nat (length (res_proctable r)))) 0));;
     for_each (res_proctable r) write_elem)
    (λ what,
     write_resp (fdWriteLoop mpirresp_wire
       (MkMPIRResp RESP_MPIR 0 0 0 0 0 (Z.of_nat (String.length (c_str what)) + 1)));;
     write_resp (fdWriteString what)).

(** ** Request handlers *)

Definition read_int : M daemon Z := read_req (fdReadLoop int_wire).

Definition handle_ForkExecvpApp : M daemon () :=
  tryWriteIDResp
    (launchData ← read_req readLaunchData;
     appPid ← forkExec launchData;
     registerAppPID appPid).

Definition close_fds (ld : LaunchData) : M daemon () :=
  emit (EvCloseFd (fd_num (stdin_fd ld)));;
  emit (EvCloseFd (fd_num (stdout_fd ld)));;
  emit (EvCloseFd (fd_num (stderr_fd ld))).

Definition handle_ForkExecvpUtil : M daemon () :=
  tryWriteOKResp
    (appId ← read_int;
     runMode ← read_int;
     launchData ← read_req readLaunchData;
     utilPid ← forkExec launchData;
     registerUtilPID appId utilPid SIGTERM;;
     if decide (runMode = Synchronous)
     then
       d ← get;
       match p_wait (d_events d) utilPid with
       | None => mret false
       | Some status => emit (EvReap utilPid);; mret (bool_decide (status = Some 0))
       end
     else close_fds launchData;; mret true).

Definition handle_LaunchMPIR : M daemon () :=
  tryWriteMPIRResp (launchData ← read_req readLaunchData; launchMPIR launchData).

Definition handle_AttachMPIR : M daemon () :=
  tryWriteMPIRResp
    (launcherName ← read_req (with_istream (receive_string "failed to read launcher path"));
     launcherPid ← read_int;
     launcherPath ← lift (findPath launcherName);
     attachMPIR launcherPath launcherPid).

Definition handle_ReleaseMPIR : M daemon () :=
  tryWriteOKResp (mpirId ← read_int; releaseMPIR mpirId;; mret true).

Definition handle_WaitMPIR : M daemon () :=
  tryWriteOKResp (mpirId ← read_int; waitMPIR mpirId).

Definition read_shim_data : M istream ShimData :=
  a ← receive_string "failed to read shim binary path";
  b ← receive_string "failed to read temporary shim directory";
  c ← receive_string "failed to read shimmed launcher path";
  mret (MkShim a b c).

Definition handle_LaunchMPIRShim : M daemon () :=
  tryWriteMPIRResp
    (shimData ← read_req (with_istream read_shim_data);
     launchData ← read_req readLaunchData;
     launchMPIRShim shimData launchData).

Definition handle_ReadStringMPIR : M daemon () :=
  tryWriteStringResp
    (mpirId ← read_int;
     variable ← read_req (with_istream (receive_string "failed to read variable name"));
     readStringMPIR mpirId variable).

Definition handle_TerminateMPIR : M daemon () :=
  tryWriteOKResp (mpirId ← read_int; terminateMPIR mpirId;; mret true).

Definition handle_RegisterApp : M daemon () :=
  tryWriteIDResp (appPid ← read_int; registerAppPID appPid).

Definition handle_RegisterUtil : M daemon () :=
  tryWriteOKResp
    (appId ← read_int; utilPid ← read_int; registerUtilPID appId utilPid SIGTERM;; mret true).

Definition handle_RegisterUtilWithSigkill : M daemon () :=
  tryWriteOKResp
    (appId ← read_int; utilPid ← read_int; registerUtilPID appId utilPid SIGKILL;; mret true).

Definition handle_DeregisterApp : M daemon () :=
  tryWriteOKResp (appId ← read_int; deregisterAppID appId;; mret true).

Definition handle_ReleaseApp : M daemon () :=
  tryWriteOKResp (appId ← read_int; releaseAppID appId;; mret true).

Definition handle_CheckApp : M daemon () :=
  tryWriteOKResp (appId ← read_int; checkAppID appId).

Definition handle_Shutdown : M daemon () :=
  write_resp (fdWriteLoop okresp_wire (MkOKResp RESP_OK true)).

(** ** The main loop *)

Definition dispatch (r : ReqType) : M daemon () :=
  match r with
  | ForkExecvpApp => handle_ForkExecvpApp
  | ForkExecvpUtil => handle_ForkExecvpUtil
  | LaunchMPIR => handle_LaunchMPIR
  | LaunchMPIRShim => handle_LaunchMPIRShim
  | AttachMPIR => handle_AttachMPIR
  | ReadStringMPIR => handle_ReadStringMPIR
  | ReleaseMPIR => handle_ReleaseMPIR
  | WaitMPIR => handle_WaitMPIR
  | TerminateMPIR => handle_TerminateMPIR
  | RegisterApp => handle_RegisterApp
  | RegisterUtil => handle_RegisterUtil
  | RegisterUtilWithSigkill => handle_RegisterUtilWithSigkill
  | DeregisterApp => handle_DeregisterApp
  | ReleaseApp => handle_ReleaseApp
  | CheckApp => handle_CheckApp
  | Shutdown => handle_Shutdown;; modify (set_running false)
  end.

(** One round: an exception while reading the request type ends the loop; a value
    that is no request type is skipped. *)
Definition serve : M daemon () := λ d,
  match read_req (fdReadLoop long_wire) d with
  | (Ok z, d') =>
      match req_of_value z with
      | Some r => dispatch r d'
      | None => (Ok tt, d')
      end
  | (Throw _, d') => (Ok tt, set_running false d')
  | (Undef e, d') => (Undef e, d')
  end.

(** The loop; every round that goes on has taken eight bytes from the stream, so the
    length of the stream is enough fuel. *)
Fixpoint main_loop (fuel : nat) : M daemon () :=
  d ← get;
  if d_running d then
    match fuel with
    | O => undef "more rounds than requests"
    | S fuel' => serve;; main_loop fuel'
    end
  else mret tt.

(** Leaving [main]: the pipes are closed, then everything still listed is ended. *)
Definition utilMap_clear : M daemon () :=
  d ← get;
  modify (set_utilMap ∅);;
  for_each (map_to_list (d_utilMap d)) (λ '(_, s), procset_clear s).

Definition cleanup_clear : M daemon () :=
  d ← get;
  modify (set_cleanup ∅);;
  procset_clear (d_cleanup d).

(** The wait for [sigchldThreads]: those that have not run do so. *)
Definition join_threads : M daemon () :=
  d ← get;
  modify (set_threads []);;
  for_each (d_threads d) utilMap_erase.

Definition main_exit : M daemon () :=
  modify (set_in_open false);;
  modify (set_out_open false);;
  utilMap_clear;;
  cleanup_clear;;
  join_threads.

Definition daemon_main (pid : Z) : M daemon () :=
  write_resp (fdWriteLoop int_wire pid);;
  d ← get;
  main_loop (S (length (d_in d)));;
  main_exit.
End Handlers.
