(* ===== verification/FEIface.v ===== *)
(** * The frontend's side of the daemon protocol
    (src/src/frontend/daemon/cti_fe_daemon_iface.cpp, MPIRProctable.hpp)

    The library writes a request, lets the daemon serve it, and reads the response.
    The state is the daemon at the other end of the two sockets: requests are
    appended to its input, responses are taken from its output. *)

From S2P Require Import Prelude Host Wire Launch Daemon Handlers.

(** [generateBinaryRankMap]: the ranks of each executable, in order. *)
Fixpoint rank_map_from (rank : Z) (procTable : list MPIRProctableElem)
    (result : gmap string (list Z)) : gmap string (list Z) :=
  match procTable with
  | [] => result
  | elem :: rest =>
      rank_map_from (rank + 1) rest
        (<[el_executable elem := default [] (result !! el_executable elem) ++ [rank]]> result)
  end.

Definition generateBinaryRankMap (procTable : list MPIRProctableElem) : gmap string (list Z) :=
  rank_map_from 0 procTable ∅.

(** What the library returns for an MPIR launch or attach. *)
Record FEMPIRResult : Type := MkFEMPIRResult {
  fe_result : MPIRResult;
  fe_binaryRankMap : gmap string (list Z)
}.

Section Responses.
Context `{Kernel}.

(** ** Reading responses *)

Definition readOKResp : M (list item) bool :=
  okResp ← fdReadLoop okresp_wire;
  if decide (ok_type okResp = RESP_OK) then mret (ok_success okResp)
  else throw "daemon did not send expected OK response type".

Definition verifyOKResp : M (list item) () :=
  b ← readOKResp;
  if (b : bool) then mret tt else throw "daemon response indicated failure".

Definition readIDResp : M (list item) Z :=
  idResp ← fdReadLoop idresp_wire;
  if bool_decide (id_type idResp ≠ RESP_ID) || (id_id idResp <? 0)
  then throw "failed to read DaemonAppID response"
  else mret (id_id idResp).

Definition readStringResp : M (list item) string :=
  stringResp ← fdReadLoop stringresp_wire;
  if bool_decide (str_type stringResp ≠ RESP_String)
  then throw "daemon did not send expected String response type"
  else if negb (str_success stringResp) then throw "daemon failed to read string from memory"
  else with_istream (receive_string "failed to read string").

(** The characters up to a NUL, each read on its own; the stream bounds their number. *)
Fixpoint read_chars (fuel : nat) : M (list item) string :=
  match fuel with
  | O => undef "more characters than bytes"
  | S fuel' =>
      c ← fdReadLoop char_wire;
      if decide (c = "000"%char) then mret ""
      else s ← read_chars fuel'; mret (String c s)
  end.

Definition read_nul_string : M (list item) string :=
  l ← get; read_chars (S (length l)).

Fixpoint read_elems (n : nat) : M (list item) (list MPIRProctableElem) :=
  match n with
  | O => mret []
  | S n' =>
      pid ← fdReadLoop int_wire;
      hostname ← read_nul_string;
      executable ← read_nul_string;
      rest ← read_elems n';
      mret (MkElem pid hostname executable :: rest)
  end.

(** The error message: the last byte of the buffer is set to NUL. *)
Definition read_error (len : Z) : M (list item) FEMPIRResult :=
  let n := Z.to_nat len in
  what ← try_catch
    (bs ← readLoop n fd_reader n;
     mret (Some (c_str (string_of_list_ascii (take (n - 1) bs)))))
    (λ _, mret None);
  match what with
  | Some w => throw w
  | None => throw "failed to perform MPIR launch"
  end.

Definition readMPIRResp : M (list item) FEMPIRResult :=
  r ← fdReadLoop mpirresp_wire;
  if bool_decide (mr_type r ≠ RESP_MPIR)
  then throw "daemon did not send expected MPIR response type"
  else if mr_mpir_id r =? 0
  then
    if 0 <? mr_error_msg_len r then read_error (mr_error_msg_len r)
    else throw "failed to perform MPIR launch"
  else if mr_num_pids r <? 0 then throw "vector::reserve"
  else
    proctable ← read_elems (Z.to_nat (mr_num_pids r));
    mret (MkFEMPIRResult
      (MkMPIRResult (mr_mpir_id r) (mr_launcher_pid r) (mr_job_id r) (mr_step_id r) proctable)
      (generateBinaryRankMap proctable)).
End Responses.

(** ** Requests *)

Section Requests.
Context `{Kernel} `{ReqSocket} `{Procs} `{MPIR} `{Host}.

(** Write, let the daemon serve, read. *)
Definition exchange {A : Type} (request : M (list item) ()) (response : M (list item) A)
    : M daemon A :=
  zoom d_in set_in request;;
  serve;;
  zoom d_out set_out response.

Definition send_type (r : ReqType) : M (list item) () := fdWriteLoop long_wire (req_value r).
Definition send_int (n : Z) : M (list item) () := fdWriteLoop int_wire n.

Definition request_ForkExecvpApp (path : string) (argv : list string) (i o e : Z)
    (env : option (list string)) : M daemon Z :=
  exchange (send_type ForkExecvpApp;; writeLaunchData path argv i o e env) readIDResp.

Definition request_ForkExecvpUtil (app_id runMode : Z) (path : string) (argv : list string)
    (i o e : Z) (env : option (list string)) : M daemon bool :=
  exchange
    (send_type ForkExecvpUtil;; send_int app_id;; send_int runMode;;
     writeLaunchData path argv i o e env)
    (if decide (runMode = Asynchronous) then verifyOKResp;; mret true else readOKResp).

Definition request_ForkExecvpUtil_Async (app_id : Z) (path : string) (argv : list string)
    (i o e : Z) (env : option (list string)) : M daemon () :=
  request_ForkExecvpUtil app_id Asynchronous path argv i o e env;; mret tt.

Definition request_ForkExecvpUtil_Sync (app_id : Z) (path : string) (argv : list string)
    (i o e : Z) (env : option (list string)) : M daemon bool :=
  request_ForkExecvpUtil app_id Synchronous path argv i o e env.

Definition request_LaunchMPIR (path : string) (argv : list string) (i o e : Z)
    (env : option (list string)) : M daemon FEMPIRResult :=
  exchange (send_type LaunchMPIR;; writeLaunchData path argv i o e env) readMPIRResp.

Definition request_AttachMPIR (launcher_path : string) (launcher_pid : Z)
    : M daemon FEMPIRResult :=
  exchange (send_type AttachMPIR;; fdWriteString launcher_path;; send_int launcher_pid)
    readMPIRResp.

Definition request_ReleaseMPIR (mpir_id : Z) : M daemon () :=
  exchange (send_type ReleaseMPIR;; send_int mpir_id) verifyOKResp.

Definition request_WaitMPIR (mpir_id : Z) : M daemon () :=
  exchange (send_type WaitMPIR;; send_int mpir_id) verifyOKResp.

Definition request_ReadStringMPIR (mpir_id : Z) (variable : string) : M daemon string :=
  exchange (send_type ReadStringMPIR;; send_int mpir_id;; fdWriteString variable)
    readStringResp.

Definition request_TerminateMPIR (mpir_id : Z) : M daemon () :=
  exchange (send_type TerminateMPIR;; send_int mpir_id) verifyOKResp.

Definition request_LaunchMPIRShim (sd : ShimData) (scriptPath : string) (argv : list string)
    (i o e : Z) (env : option (list string)) : M daemon FEMPIRResult :=
  exchange
    (send_type LaunchMPIRShim;; fdWriteString (shimBinaryPath sd);;
     fdWriteString (temporaryShimBinDir sd);; fdWriteString (shimmedLauncherPath sd);;
     writeLaunchData scriptPath argv i o e env)
    readMPIRResp.

(** [request_RegisterApp()] sends the process id 0. *)
Definition request_RegisterApp_remote : M daemon Z :=
  exchange (send_type RegisterApp;; send_int 0) readIDResp.

Definition request_RegisterApp (app_pid : Z) : M daemon Z :=
  exchange (send_type RegisterApp;; send_int app_pid) readIDResp.

Definition request_RegisterUtil (app_id util_pid : Z) : M daemon () :=
  exchange (send_type RegisterUtil;; send_int app_id;; send_int util_pid) verifyOKResp.

Definition request_RegisterUtilWithSigkill (app_id util_pid : Z) : M daemon () :=
  exchange (send_type RegisterUtilWithSigkill;; send_int app_id;; send_int util_pid)
    verifyOKResp.

Definition request_DeregisterApp (app_id : Z) : M daemon () :=
  exchange (send_type DeregisterApp;; send_int app_id) verifyOKResp.

Definition request_ReleaseApp (app_id : Z) : M daemon () :=
  exchange (send_type ReleaseApp;; send_int app_id) verifyOKResp.

Definition request_CheckApp (app_id : Z) : M daemon bool :=
  exchange (send_type CheckApp;; send_int app_id) readOKResp.

(** ** Life of the connection *)

(** The fields of [FE_daemon] next to the sockets. *)
Record FE_daemon : Type := MkFE { m_init : bool; m_mainPid : Z; m_daemon : daemon }.

(** The parent's side of [initialize]: [fork] gave [forkedPid], which [setpgid] could
    make a process group; the daemon reports its own process id. *)
Definition initialize (selfPid forkedPid : Z) : M FE_daemon () := λ f,
  if m_init f then (Ok tt, f)
  else
    match fdReadLoop int_wire (d_out (m_daemon f)) with
    | (Ok pid, out) =>
        let d := set_out out (m_daemon f) in
        if decide (pid = forkedPid) then (Ok tt, MkFE true selfPid d)
        else (Throw "fe_daemon launch failed", MkFE false selfPid d)
    | (Throw ex, out) => (Throw ex, MkFE false selfPid (set_out out (m_daemon f)))
    | (Undef ex, out) => (Undef ex, MkFE false selfPid (set_out out (m_daemon f)))
    end.

(** [~FE_daemon]: only the process that started the daemon shuts it down; a failure
    is reported on stderr. *)
Definition destroy (selfPid : Z) : M FE_daemon () := λ f,
  if negb (m_init f) then (Ok tt, f)
  else if decide (selfPid = m_mainPid f)
  then
    let '(_, d) := try_catch (exchange (send_type Shutdown) verifyOKResp) (λ _, mret tt)
                     (m_daemon f) in
    (Ok tt, MkFE false (m_mainPid f) d)
  else (Ok tt, MkFE false (m_mainPid f) (m_daemon f)).
End Requests.

(** The rank map of a process table. *)
Lemma rank_map_from_spec (tbl : list MPIRProctableElem) (k : Z) (acc : gmap string (list Z)) (b : string) :
  (∀ z, z ∈ default [] (rank_map_from k tbl acc !! b) ↔
    z ∈ default [] (acc !! b) ∨ ∃ r e, tbl !! r = Some e ∧ el_executable e = b ∧ z = k + Z.of_nat r) ∧
  (b ∈ dom (rank_map_from k tbl acc) ↔ b ∈ dom acc ∨ ∃ r e, tbl !! r = Some e ∧ el_executable e = b).
Proof.
  revert k acc. induction tbl as [|e tbl IH]; intros k acc; cbn [rank_map_from].
  - split; [intros z|]; (split; [by left|]); by intros [?|(r & e & Hr & _)].
  - destruct (IH (k + 1) (<[el_executable e := default [] (acc !! el_executable e) ++ [k]]> acc)) as [IHz IHd].
    split.
    + intros z. rewrite IHz. split.
      * intros [Hz|(r & e' & Hr & He & ->)]; [|right; exists (S r), e'; split_and!; [done..|lia]].
        destruct (decide (el_executable e = b)) as [<-|Hne]; [|rewrite lookup_insert_ne in Hz by done; by left].
        rewrite lookup_insert_eq in Hz. cbn in Hz. apply elem_of_app in Hz as [?| ->%list_elem_of_singleton];
          [by left|]. right. exists 0%nat, e. split_and!; [done..|lia].
      * intros [Hz|([|r] & e' & Hr & He & ->)].
        -- left. destruct (decide (el_executable e = b)) as [<-|Hne];
             [rewrite lookup_insert_eq; cbn; set_solver|by rewrite lookup_insert_ne].
        -- left. injection Hr as <-. subst b. rewrite lookup_insert_eq. cbn.
           replace (k + Z.of_nat 0) with k by lia. set_solver.
        -- right. exists r, e'. split_and!; [done..|lia].
    + rewrite IHd, dom_insert, elem_of_union, elem_of_singleton. split.
      * intros [[->|Hd]|(r & e' & Hr & He)]; [right; by exists 0%nat, e|by left|right; by exists (S r), e'].
      * intros [Hd|([|r] & e' & Hr & He)]; [by left; right| |right; by exists r, e'].
        injection Hr as <-. left. by left.
Qed.
