(* ===== verification/Requests.v ===== *)
(** * Requests of applications to the frontend daemon

    What the frontends of workload managers ask of the daemon (the request functions of
    src/src/frontend/daemon/cti_fe_daemon_iface.hpp) and of the file system while they make
    and run applications, as the class [FrontendDaemon]: an answer may depend on everything
    that was done, the request last.  The search for files on all nodes, whose loop the
    workload managers share. *)

From S2P Require Import Prelude Split Host System Wire Daemon FEIface SlurmJobs.

Class FrontendDaemon : Type := {
  req_launch : list sys_event → res FEMPIRResult;
  req_util_sync : list sys_event → res bool;
  (** what a utility writes to the pipe that is read, up to its end *)
  req_util_output : list sys_event → res string;
  (** releasing, waiting, forgetting *)
  req_done : list sys_event → res ();
  req_string : list sys_event → res string;
  req_id : list sys_event → res Z;
  (** what reading the error output of a launcher gives *)
  req_stderr : list sys_event → list select_answer;
  req_copy : list sys_event → res ();
  req_remote : list sys_event → res ();
  (** a fresh name for a directory or a file from its template *)
  req_mkdtemp : list sys_event → string → res string;
  (** whether a file can be opened for writing *)
  req_open : list sys_event → string → bool
}.

(** The names of programs that are configured. *)
Class InstalledPrograms : Type := {
  mpir_shim_binary : string;
  first_subprocess_binary : string
}.

(** A request and its answer. *)
Definition request {A : Type} (e : sys_event) (answer : list sys_event → res A) : M sys A :=
  sys_emit e;; s ← get; lift (answer (sys_trace s)).

(** A file in the staging directory. *)
Definition write_file `{FrontendDaemon} (path error : string) (contents : res bytes) : M sys string :=
  s ← get;
  if req_open (sys_trace s) path
  then bytes ← lift contents; sys_emit (SWrite path bytes);; mret path
  else throw (error +:+ path).

(** The lines of all daemons: an empty one ends the output of a node, a path is found when
    every node has named it. *)
Fixpoint count_paths (num_nodes : Z) (lines : list string) (exit_count : Z) (counts : gmap string Z)
    (result : gset string) : gset string :=
  match lines with
  | [] => result
  | line :: lines' =>
      if exit_count <=? 0 then result
      else if is_empty line then count_paths num_nodes lines' (exit_count - 1) counts result
      else
        let count := default 0 (counts !! line) + 1 in
        count_paths num_nodes lines' exit_count (<[line := count]> counts)
          (if count =? num_nodes then result ∪ {[line]} else result)
  end.

Lemma request_run {A : Type} (e : sys_event) (answer : list sys_event → res A) (s : sys) :
  request e answer s = (answer (sys_trace s ++ [e]), MkSys (sys_env s) (sys_trace s ++ [e])).
Proof. done. Qed.

(** ** Files on all nodes *)

(** Sequences merged into one, each in its own order. *)
Inductive interleaves {A : Type} : list (list A) → list A → Prop :=
| interleaves_nil (ls : list (list A)) : Forall (λ l, l = []) ls → interleaves ls []
| interleaves_cons (ls : list (list A)) (i : nat) (x : A) (l out : list A) :
    ls !! i = Some (x :: l) → interleaves (<[i := l]> ls) out → interleaves ls (x :: out).

Lemma concat_insert {A : Type} (ls : list (list A)) (i : nat) (x : A) (l : list A) :
  ls !! i = Some (x :: l) → concat ls ≡ₚ x :: concat (<[i := l]> ls).
Proof.
  revert i. induction ls as [|l' ls IH]; intros [|i]; cbn; [done..|by intros [= ->]|].
  intros Hi. rewrite (IH i Hi). symmetry. apply Permutation_middle.
Qed.

Lemma interleaves_Permutation {A : Type} (ls : list (list A)) (out : list A) :
  interleaves ls out → out ≡ₚ concat ls.
Proof.
  induction 1 as [ls Hls|ls i x l out Hi _ IH].
  - by induction Hls as [|l ls -> _ IH].
  - by rewrite IH, (concat_insert _ _ _ _ Hi).
Qed.

(** When every sequence ends with the same element, so does the result. *)
Lemma interleaves_last {A : Type} (ls : list (list A)) (out : list A) (z : A) :
  interleaves ls out → Forall (λ l, ∀ y, last l = Some y → y = z) ls → ∀ y, last out = Some y → y = z.
Proof.
  induction 1 as [ls Hls|ls i x l out Hi Hm IH]; intros Hz y; [done|].
  assert (Forall (λ l, ∀ y, last l = Some y → y = z) (<[i := l]> ls)) as Hz'.
  { apply Forall_insert; [done|]. intros y' Hy'. apply (Forall_lookup_1 _ _ _ _ Hz Hi).
    by rewrite last_cons, Hy'. }
  rewrite last_cons. destruct (last out) as [y'|] eqn:El; [intros [= <-]; by apply IH|].
  intros [= <-]. apply last_None in El as ->. inversion Hm as [? Hnil|]; subst.
  assert (l = []) as ->.
  { apply (Forall_lookup_1 _ _ i _ Hnil). apply list_lookup_insert_eq. by eapply lookup_lt_Some. }
  apply (Forall_lookup_1 _ _ _ _ Hz Hi). done.
Qed.

(** Paths counted as often as they occur, until the last empty line. *)
Lemma count_paths_spec (num_nodes : Z) (ls : list string) (counts : gmap string Z) (result : gset string) (p : string) :
  let occurs l := Z.of_nat (count_occ string_dec l p) in
  p ∈ count_paths num_nodes (ls ++ [""]) (Z.of_nat (count_occ string_dec (ls ++ [""]) "")) counts result ↔
  p ∈ result ∨ p ≠ "" ∧ default 0 (counts !! p) < num_nodes ≤ default 0 (counts !! p) + occurs ls.
Proof.
  cbv zeta. revert counts result. induction ls as [|l ls IH]; intros counts result.
  - cbn. split; [by left|]. intros [?|[_ ?]]; [done|lia].
  - assert (0 < Z.of_nat (count_occ string_dec (ls ++ [""]) "")) as Hpos.
    { rewrite count_occ_app. cbn. lia. }
    cbn [app count_paths count_occ]. destruct (string_dec l "") as [->|Hl].
    + destruct (Z.leb_spec (Z.of_nat (S (count_occ string_dec (ls ++ [""]) ""))) 0); [lia|].
      cbn [is_empty]. replace (_ - 1) with (Z.of_nat (count_occ string_dec (ls ++ [""]) "")) by lia.
      rewrite IH. destruct (string_dec "" p) as [<-|]; [|done]. naive_solver.
    + destruct (Z.leb_spec (Z.of_nat (count_occ string_dec (ls ++ [""]) "")) 0); [lia|].
      destruct l as [|c l]; [done|]. cbn [is_empty]. rewrite IH.
      set (line := String c l). destruct (string_dec line p) as [<-|Hne].
      * rewrite lookup_insert_eq. cbn [default from_option id].
        destruct (Z.eqb_spec (default 0 (counts !! line) + 1) num_nodes) as [<-|];
          [|split; (intros [?|[? ?]]; [by left|right; split; [done|lia]])].
        rewrite elem_of_union, elem_of_singleton. split; [|intros _; left; by right].
        intros [[?| _]|[? ?]]; [by left|right; split; [done|lia]|lia].
      * rewrite lookup_insert_ne by done. case_match; [|done]. set_solver.
Qed.

Definition ends_node (report : list string) : list string := report ++ [""].

(** How often a path is in the answers of all nodes. *)
Lemma reports_empty_lines (reports : list (list string)) :
  Forall (λ r, "" ∉ r) reports →
  count_occ string_dec (concat (map ends_node reports)) "" = length reports.
Proof.
  induction 1 as [|r reports Hr _ IH]; [done|]. cbn [map concat length]. unfold ends_node at 1.
  rewrite !count_occ_app, IH. rewrite (proj1 (count_occ_not_In string_dec r "")) by
    by rewrite <-list_elem_of_In. done.
Qed.

Lemma reports_count (reports : list (list string)) (p : string) :
  p ≠ "" → Forall NoDup reports →
  (count_occ string_dec (concat (map ends_node reports)) p ≤ length reports)%nat ∧
  (count_occ string_dec (concat (map ends_node reports)) p = length reports ↔ Forall (elem_of p) reports).
Proof.
  intros Hp. induction 1 as [|r reports Hr _ [IHle IH]]; [done|].
  cbn [map concat length]. unfold ends_node at 1 3. rewrite !count_occ_app. cbn [count_occ].
  destruct (string_dec "" p) as [<-|_]; [done|].
  destruct (decide (p ∈ r)) as [Hin|Hin].
  - rewrite (proj1 (NoDup_count_occ' string_dec r) (proj1 (NoDup_ListNoDup r) Hr) p) by
      by rewrite <-list_elem_of_In.
    split; [lia|]. rewrite Forall_cons, <-IH. split; [intros ?; split; [done|lia]|intros [_ ?]; lia].
  - rewrite (proj1 (count_occ_not_In string_dec r p)) by by rewrite <-list_elem_of_In.
    split; [lia|]. rewrite Forall_cons. split; [intros ?; lia|tauto].
Qed.

(** The answers of all nodes, merged in any order: a path is found when every node reports
    it, and there is a node. *)
Lemma count_paths_reports (reports : list (list string)) (lines : list string) :
  Forall (λ r, NoDup r ∧ "" ∉ r) reports →
  interleaves (map ends_node reports) lines →
  let num_nodes := Z.of_nat (length reports) in
  ∀ p, p ∈ count_paths num_nodes lines num_nodes ∅ ∅ ↔ reports ≠ [] ∧ Forall (elem_of p) reports.
Proof.
  intros [Hnd Hne]%Forall_and Hmerge num_nodes p. unfold num_nodes. clear num_nodes.
  pose proof (interleaves_Permutation _ _ Hmerge) as Hperm.
  assert (Hlast : ∀ y, last lines = Some y → y = "").
  { apply (interleaves_last _ _ "" Hmerge). apply Forall_map, Forall_true. intros r y.
    unfold ends_node. rewrite last_snoc. by intros [= <-]. }
  pose proof (reports_empty_lines _ Hne) as Hempty.
  rewrite <-(proj1 (Permutation_count_occ string_dec _ _) Hperm) in Hempty.
  destruct lines as [|l ls _] using rev_ind.
  { destruct reports as [|r reports]; [|by cbn in Hempty]. cbn. set_solver. }
  specialize (Hlast l). rewrite last_snoc in Hlast. rewrite (Hlast eq_refl) in *. clear Hlast l.
  rewrite <-Hempty, count_paths_spec. rewrite lookup_empty. cbn [default from_option id].
  assert (reports ≠ []) as Hnil.
  { intros ->. cbn in Hempty. rewrite count_occ_app in Hempty. cbn in Hempty. lia. }
  destruct (decide (p = "")) as [->|Hp].
  { split; [set_solver|]. intros [_ Hall]. destruct reports as [|r reports]; [done|].
    apply Forall_cons in Hall as [? _]. apply Forall_cons in Hne as [? _]. done. }
  destruct (reports_count reports p Hp Hnd) as [Hle Hall].
  rewrite <-(proj1 (Permutation_count_occ string_dec _ _) Hperm), count_occ_app in Hle, Hall.
  cbn [count_occ] in Hle, Hall. destruct (string_dec "" p) as [<-|_]; [done|].
  rewrite Hempty, <-Hall. assert (length reports ≠ 0%nat) by (by intros ->%nil_length_inv). split.
  - intros [?%elem_of_empty|[_ ?]]; [done|]. split; [done|lia].
  - intros [_ ?]. right. split; [done|lia].
Qed.

(** ** Examples *)

(** A daemon whose utilities print [output], and whose launches fail with [failure]. *)
Definition demo_frontend_daemon (output : list sys_event → string) (sent : list sys_event → bool)
    (failure errors : string) : FrontendDaemon := {|
  req_launch _ := Throw failure;
  req_util_sync trace := Ok (sent trace);
  req_util_output trace := Ok (output trace);
  req_done _ := Ok tt;
  req_string _ := Throw "no string";
  req_id _ := Ok 1;
  req_stderr _ := [ReadBytes errors; SelTimeout];
  req_copy _ := Ok tt;
  req_remote _ := Ok tt;
  req_mkdtemp _ path := Ok path;
  req_open _ _ := true
|}.

(** A system whose names of files are what follows the last slash. *)
Definition slash_host : Host := {|
  os_stat _ := None;
  os_access _ _ := true;
  os_realpath p := Some p;
  os_basename p := Some (match find_last_not_of (λ x, bool_decide (x ≠ "/"%char)) p with
                         | Some i => drop_str (S i) p
                         | None => p
                         end);
  os_pathFind p := Some ("/usr/bin/" +:+ p);
  os_libFind _ := None;
  os_ld_val _ _ := None;
  os_getenv _ := None;
  os_readdir _ := None;
  os_read _ := None
|}.
