(* ===== verification/SlurmApp.v ===== *)
(** * Slurm: applications
    (src/src/frontend/frontend_impl/SLURM/Frontend.cpp)

    Launching under MPIR control, attaching to a running job with its components,
    and what an application does: signals, shipping packages, starting tool daemons,
    finding files on the nodes. *)

From S2P Require Import Prelude Split Host System Detect SlurmJobs Wire BackendFiles.
From S2P Require Import SlurmLayout SlurmArgs ConfigDir Daemon Handlers FEIface Requests.

Definition SLURM_CASSINI_JOB_LIMIT : Z := 3.
Definition CTI_BACKEND_WRAPPER : string := "CTI_BACKEND_WRAPPER".
Definition CTI_CONTAINER_INSTANCE : string := "CTI_CONTAINER_INSTANCE".

Section Mpir.
Context `{Host} `{Commands} `{FrontendDaemon} `{InstalledPrograms}.

(** ** srun under MPIR control *)

Definition proctable_of (r : FEMPIRResult) : list MPIRProctableElem := res_proctable (fe_result r).

(** What is wrong with a result. *)
Definition check_result (r : FEMPIRResult) : M sys () :=
  if bool_decide (proctable_of r = []) then throw "Launcher provided empty proctable"
  else if existsb (λ e, el_pid e <? 0) (proctable_of r) then throw "Launcher proctable had negative PID"
  else mret tt.

(** The launch, or the message of its failure with the processes known by then.  The
    state of the task prolog is only warned of. *)
Definition srun_attempt (fd : frontend_data) (launcher_path : string) (argv env_list : list string)
    (checkTaskPrologStatus : bool) : M sys (FEMPIRResult + string * list MPIRProctableElem) :=
  wrapper ← System.getenv CTI_LAUNCHER_WRAPPER;
  script ← System.getenv CTI_LAUNCHER_SCRIPT;
  if bool_decide (is_Some wrapper) || bool_decide (is_Some script)
  then
    try_catch
      (sattachPath ← lift (findPath "sattach");
       let srunPath := path_join (parent_path sattachPath) "srun" in
       r ← request (SLaunchShim (m_base_dir fd +:+ "/libexec/" +:+ mpir_shim_binary)
                      (m_cfg_dir fd +:+ "/shim") srunPath launcher_path argv env_list) req_launch;
       mret (inl r))
      (λ what, mret (inr (c_str what, [])))
  else
    launched ← try_catch (r ← request (SLaunch launcher_path argv env_list) req_launch; mret (inl r))
                 (λ what, mret (inr (c_str what, [])));
    match launched with
    | inr failure => mret (inr failure)
    | inl r =>
        try_catch
          (check_result r;;
           (if checkTaskPrologStatus && (0 <? res_job_id (fe_result r))
            then job_step_running (to_string (res_job_id (fe_result r)))
                   (to_string (res_step_id (fe_result r)));; mret tt
            else mret tt);;
           mret (inl r))
          (λ what, mret (inr (c_str what, proctable_of r)))
    end.

(** The jobs on the nodes of the launch, when srun complains of the interconnect and that is
    of the kind with a limit. *)
Definition jobs_on_nodes (stderrOutput : string) (attemptedNodes : gset string)
    : M sys (list (string * Z)) :=
  catch_all
    (if contains "Error configuring interconnect" stderrOutput
     then
       switchType ← scontrol_get_config "SwitchType";
       if contains "hpe_slingshot" switchType then find_jobs_on_nodes attemptedNodes else mret []
     else mret []) [].

(** The result, and whether the callback gave it. *)
Definition srunMPIR (fd : frontend_data) (launcher_path : string) (argv env_list : list string)
    (checkTaskPrologStatus : bool)
    (jobLimitCallback : string → Z → list string → string → M sys FEMPIRResult)
    : M sys (FEMPIRResult * bool) :=
  attempt ← srun_attempt fd launcher_path argv env_list checkTaskPrologStatus;
  match attempt with
  | inl r => mret (r, false)
  | inr (what, proctable) =>
      s ← get;
      match read_timeout (req_stderr (sys_trace s)) "" with
      | None => undef "the error output of srun is read forever"
      | Some stderrOutput =>
          let nodes : gset string := list_to_set (map el_hostname proctable) in
          jobsOnNode ← jobs_on_nodes stderrOutput nodes;
          match List.find (λ p, SLURM_CASSINI_JOB_LIMIT <=? p.2) jobsOnNode with
          | Some (node, count) =>
              r ← jobLimitCallback node count (sorted_elements nodes) stderrOutput; mret (r, true)
          | None => throw (what +:+ nl +:+ stderrOutput)
          end
      end
  end.

(** ** Attaching to all components of a job *)

(** The ranks of each binary, those of the next component appended. *)
Definition merge_ranks (dst src : gmap string (list Z)) : gmap string (list Z) :=
  union_with (λ a b, Some (a ++ b)) dst src.

(** What is collected: the identifier and process of the first launcher, all tables. *)
Definition attach_start : FEMPIRResult := MkFEMPIRResult (MkMPIRResult (-1) (-1) 0 0 []) ∅.

Definition add_component (result r : FEMPIRResult) : FEMPIRResult :=
  MkFEMPIRResult
    (MkMPIRResult
       (if res_mpir_id (fe_result result) <? 0 then res_mpir_id (fe_result r)
        else res_mpir_id (fe_result result))
       (if res_launcher_pid (fe_result result) <? 0 then res_launcher_pid (fe_result r)
        else res_launcher_pid (fe_result result))
       (res_job_id (fe_result result)) (res_step_id (fe_result result))
       (proctable_of result ++ proctable_of r))
    (merge_ranks (fe_binaryRankMap result) (fe_binaryRankMap r)).

Section Attach.
Context (launchFunc : string → list string → M sys FEMPIRResult) (releaseFunc : Z → M sys ()).

Fixpoint attach_components (sattachPath : string) (job_id step_id : Z) (jobIds : list HetJobId)
    (result : FEMPIRResult) : M sys FEMPIRResult :=
  match jobIds with
  | [] => mret result
  | hetJobId :: jobIds' =>
      result' ← try_catch
        (r ← launchFunc sattachPath [sattachPath; "-Q"; get_sattach_id hetJobId];
         (if res_mpir_id (fe_result result) <? 0 then mret tt
          else releaseFunc (res_mpir_id (fe_result r)));;
         mret (add_component result r))
        (λ what, throw ("Failed to attach to job using SATTACH (" +:+ c_str what +:+
           "). Try running `sattach -Q " +:+ to_string job_id +:+ "." +:+ to_string step_id +:+ "`"));
      attach_components sattachPath job_id step_id jobIds' result'
  end.

Definition sattachMPIR (job_id step_id : Z) : M sys FEMPIRResult :=
  jobIds ← get_all_job_ids job_id step_id;
  sattachPath ← lift (findPath "sattach");
  attach_components sattachPath job_id step_id jobIds attach_start.
End Attach.

Definition sattachMPIRLocal (job_id step_id : Z) : M sys FEMPIRResult :=
  sattachMPIR (λ path argv, request (SLaunch path argv []) req_launch)
    (λ id, request (SReleaseMPIR id) req_done) job_id step_id.
End Mpir.

(** ** Applications *)

(** SLURMApp, with the frontend it belongs to.  Whether the backend daemon was shipped
    is state of its own. *)
Record SLURMApp : Type := MkSLURMApp {
  m_fe : SlurmFE;
  m_frontend : frontend_data;
  m_launcherName : string;
  m_daemonAppId : Z;
  m_jobId : Z;
  m_stepId : Z;
  m_binaryRankMap : gmap string (list Z);
  m_allJobIds : list HetJobId;
  m_stepLayout : gmap string StepLayout;
  m_gresSetting : string;
  m_toolPath : string;
  m_attribsPath : string;
  m_stagePath : string;
  m_extraFiles : list string;
  getBEDaemonName : string
}.

(** The state of operations: the system, and m_beDaemonSent. *)
Record app_state : Type := MkAppState { as_sys : sys; as_sent : bool }.

Definition on_sys {A : Type} (m : M sys A) : M app_state A :=
  zoom as_sys (λ s st, MkAppState s (as_sent st)) m.

Definition getJobId (app : SLURMApp) : string :=
  to_string (m_jobId app) +:+ "." +:+ to_string (m_stepId app).

(** [SLURM_APID] *)
Definition getApid (job step : Z) : Z := uint64 (step * 10000000000 + job).

Section App.
Context `{Host} `{Commands} `{FrontendDaemon} `{InstalledPrograms}.

Fixpoint all_running (jobIds : list HetJobId) : M sys bool :=
  match jobIds with
  | [] => mret true
  | hetJobId :: jobIds' =>
      let '(jobId, stepId) := strs hetJobId in
      status ← job_step_running jobId stepId;
      if decide (status = Running) then all_running jobIds' else mret false
  end.

Definition isRunning (app : SLURMApp) : M sys bool := all_running (m_allJobIds app).

Definition releaseBarrier (app : SLURMApp) : M sys () :=
  request (SReleaseMPIR (m_daemonAppId app)) req_done.

(** *** Signals *)

(** " to step" after one digit or more. *)
Fixpoint digits_to_step (s : string) : bool :=
  match s with
  | String c s' => is_digit c && (starts_with " to step" s' || digits_to_step s')
  | "" => false
  end.

(** A line in which "Signal <number> to step" or "Terminating step" is found. *)
Fixpoint signal_sent (line : string) : bool :=
  starts_with "Terminating step" line ||
  (starts_with "Signal " line && digits_to_step (drop_str 7 line)) ||
  match line with String _ line' => signal_sent line' | "" => false end.

Definition kill (app : SLURMApp) (signum : Z) : M sys () :=
  let scancel flag := ["scancel"; flag; "-s"; to_string signum; getJobId app] in
  success ←
    (if negb (checkScancelOutput (m_fe app))
     then request (SUtil (scancel "-Q") []) req_util_sync
     else output ← request (SUtil (scancel "-v") []) req_util_output;
          mret (existsb signal_sent (text_lines (fd_text output))));
  if (success : bool) then mret tt
  else throw ("failed to send signal to job ID " +:+ getJobId app).

(** *** Packages *)

(** Up to [tries_left] attempts after one that failed. *)
Fixpoint sbcast_again (tries_left : nat) (argv : list string) (success : bool) : M sys bool :=
  match tries_left with
  | O => mret success
  | S tries_left' =>
      if success then mret true
      else
        sleep 1;;
        again ← request (SUtil argv ["SBCAST_SEND_LIBS=no"]) req_util_sync;
        sbcast_again tries_left' argv again
  end.

Definition sbcast_argv (app : SLURMApp) (tarPath packageName : string) : list string :=
  ["sbcast"; "-C"; "-j"; to_string (m_jobId app); tarPath; "--force";
   m_toolPath app +:+ "/" +:+ packageName].

Definition shipPackage (app : SLURMApp) (tarPath : string) : M sys () :=
  packageName ← lift (cstr_basename tarPath);
  let argv := sbcast_argv app tarPath packageName in
  success ← request (SUtil argv ["SBCAST_SEND_LIBS=no"]) req_util_sync;
  success ← sbcast_again 2 argv success;
  if (success : bool) then mret tt
  else throw ("sbcast failure: Failed to ship " +:+ tarPath +:+ " package to compute node").

(** Shipping a package is virtual: [ship] is that of the class of the application. *)
Definition shipDaemon_with (ship : string → M sys ()) (app : SLURMApp) : M app_state () :=
  let sourcePath := m_be_daemon_path (m_frontend app) in
  if is_empty sourcePath
  then throw ("Unable to locate backend daemon binary. Load the system default CTI module with " +:+
              "`module load cray-cti`, or set the environment variable CTI_INSTALL_DIR to the CTI " +:+
              "install location.")
  else
    let destinationPath := m_cfg_dir (m_frontend app) +:+ "/" +:+ getBEDaemonName app in
    on_sys (request (SCopy sourcePath destinationPath) req_copy;; ship destinationPath);;
    modify (λ st, MkAppState (as_sys st) true).

Definition ship_once_with (ship : string → M sys ()) (app : SLURMApp) : M app_state () :=
  st ← get; if as_sent st then mret tt else shipDaemon_with ship app.

Definition shipDaemon (app : SLURMApp) : M app_state () := shipDaemon_with (shipPackage app) app.

Definition ship_once (app : SLURMApp) : M app_state () := ship_once_with (shipPackage app) app.

(** *** Tool daemons *)

Definition daemon_path (app : SLURMApp) : string := m_toolPath app +:+ "/" +:+ getBEDaemonName app.

(** All nodes at once. *)
Definition remote_all (argv nodes : list string) : M sys () :=
  join_all nodes (λ node, request (SRemote node argv blacklist_env true) req_remote).

(** [launch_daemon_remote]: without waiting, a node that fails ends the launch. *)
Definition launch_daemon_remote (argv nodes : list string) (synchronous : bool) : M sys () :=
  if synchronous then remote_all argv nodes
  else for_each nodes (λ node, request (SRemote node argv blacklist_env false) req_remote).

(** What happens at the limit of jobs: SSH instead, and no MPIR identifier. *)
Definition daemon_over_limit (app : SLURMApp) (args : list string) (synchronous : bool) (node : string) (count : Z)
    (nodes : list string) (stderrOutput : string) : M sys FEMPIRResult :=
  try_catch
    (launch_daemon_remote (daemon_path app :: args) nodes synchronous;;
     mret (MkFEMPIRResult (MkMPIRResult (-1) 0 0 0 []) ∅))
    (λ _, throw ("Attempted to launch more than " +:+ to_string count +:+ " jobs on node " +:+ node +:+ "." +:+
       nl +:+ "The interconnect limits the active number of jobs per node. Please wait until `squeue " +:+
       "-s --nodelist=" +:+ node +:+ "` returns less than " +:+ to_string (SLURM_CASSINI_JOB_LIMIT - 1) +:+
       " jobs. srun output:" +:+ nl +:+ stderrOutput)).

Definition startDaemon_argv (app : SLURMApp) (env : gmap string string) (args : list string)
    : res (list string) :=
  generateDaemonLauncherArgv env (m_fe app) (m_launcherName app) (m_gresSetting app) (m_stepLayout app)
    (["--output=none"] ++
     match env !! CTI_CONTAINER_INSTANCE with
     | Some instance => ["singularity"; "exec"; instance]
     | None => []
     end ++ [daemon_path app] ++ args).

(** Launched by SSH, nothing is left to release or to wait for. *)
Definition startDaemon_with (ship : string → M sys ()) (app : SLURMApp) (args : list string) (synchronous : bool)
    : M app_state () :=
  ship_once_with ship app;;
  on_sys
    (s ← get;
     argv ← lift (startDaemon_argv app (sys_env s) args);
     launcherPath ← lift (findPath (m_launcherName app));
     '(result, used_ssh) ← srunMPIR (m_frontend app) launcherPath argv blacklist_env
                             (checkTaskPrologStatus (m_fe app)) (daemon_over_limit app args synchronous);
     if (used_ssh : bool) then mret tt
     else if synchronous then request (SWaitMPIR (res_mpir_id (fe_result result))) req_done
     else request (SReleaseMPIR (res_mpir_id (fe_result result))) req_done).

Definition startDaemon (app : SLURMApp) : list string → bool → M app_state () :=
  startDaemon_with (shipPackage app) app.

(** *** Files on the nodes *)

Definition checkFilesExist_with (ship : string → M sys ()) (app : SLURMApp) (paths : gset string)
    : M app_state (gset string) :=
  ship_once_with ship app;;
  on_sys
    (s ← get;
     argv ← lift (generateDaemonLauncherArgv (sys_env s) (m_fe app) (m_launcherName app)
                    (m_gresSetting app) (m_stepLayout app)
                    (daemon_path app :: map (λ path, "--file=" +:+ path) (sorted_elements paths)));
     output ← request (SUtil argv blacklist_env) req_util_output;
     let num_nodes := getNumHosts (m_stepLayout app) in
     mret (count_paths num_nodes (text_lines (fd_text output)) num_nodes ∅ ∅)).

Definition checkFilesExist (app : SLURMApp) : gset string → M app_state (gset string) :=
  checkFilesExist_with (shipPackage app) app.

(** *** Processes under a wrapper *)

(** What the utility prints for each process: its number, that of its child and the
    program.  A line that is no number is passed over. *)
Fixpoint parse_children (lines : list string) : list (Z * Z * string) :=
  match lines with
  | [] | "" :: _ => []
  | line1 :: rest1 =>
      match stoi line1 with
      | Ok (pid, _) =>
          match rest1 with
          | [] => []
          | line2 :: rest2 =>
              match stoi line2 with
              | Ok (child_pid, _) =>
                  match rest2 with
                  | [] => []
                  | line3 :: rest3 => (pid, child_pid, line3) :: parse_children rest3
                  end
              | _ => parse_children rest2
              end
          end
      | _ => parse_children rest1
      end
  end.

Definition first_child_argv (app : SLURMApp) (utility hostname : string) (pids : gset Z) : list string :=
  let component (p : string * StepLayout) :=
    ["--jobid=" +:+ p.1; "--nodes=" +:+ to_string (Z.of_nat (length (nodes p.2)));
     "--nodelist=" +:+ hostname] ++
    filter (λ arg, arg ≠ "--output=none") (srunDaemonArgs (m_fe app)) ++
    utility :: map to_string (merge_sort Z.le (elements pids)) in
  m_launcherName app :: tail (flat_map (λ p, ":" :: component p) (id_layouts (m_stepLayout app))).

(** The processes of the table that run the wrapper, by host. *)
Definition wrapped_pids (procTable : list MPIRProctableElem) (wrapperBinary : string)
    : gmap string (gset Z) :=
  fold_left (λ m e, if bool_decide (el_executable e = wrapperBinary)
                    then <[el_hostname e := default ∅ (m !! el_hostname e) ∪ {[el_pid e]}]> m else m)
    procTable ∅.

(** The children found, by host and process. *)
Fixpoint query_children (app : SLURMApp) (utility : string) (hosts : list string)
    (wrapped : gmap string (gset Z)) (children : gmap (string * Z) (Z * string))
    : M sys (gmap (string * Z) (Z * string)) :=
  match hosts with
  | [] => mret children
  | hostname :: hosts' =>
      output ← request (SUtil (first_child_argv app utility hostname (default ∅ (wrapped !! hostname)))
                          blacklist_env) req_util_output;
      query_children app utility hosts' wrapped
        (fold_left (λ m (c : Z * Z * string), <[(hostname, c.1.1) := (c.1.2, c.2)]> m)
           (parse_children (text_lines (fd_text output))) children)
  end.

(** An entry whose child was found becomes that child. *)
Definition reparent (children : gmap (string * Z) (Z * string)) (e : MPIRProctableElem) : MPIRProctableElem :=
  match children !! (el_hostname e, el_pid e) with
  | Some (child_pid, executable) => MkElem child_pid (el_hostname e) executable
  | None => e
  end.

Definition reparentProctable (app : SLURMApp) (procTable : list MPIRProctableElem) (wrapperBinary : string)
    : M sys (list MPIRProctableElem) :=
  let sourcePath := m_base_dir (m_frontend app) +:+ "/libexec/" +:+ first_subprocess_binary in
  let destinationPath := m_toolPath app +:+ "/" +:+ first_subprocess_binary in
  request (SCopy sourcePath destinationPath) req_copy;;
  shipPackage app destinationPath;;
  let wrapped := wrapped_pids procTable wrapperBinary in
  children ← query_children app destinationPath (sorted_keys wrapped) wrapped ∅;
  mret (map (reparent children) procTable).

(** ** Making applications *)

Context `{SlurmHost}.

(** An identifier that is given, or read from the launcher. *)
Definition launcher_id (given variable : string) (mpir_id : Z) : M sys Z :=
  text ← (if is_empty given then request (SReadString mpir_id variable) req_string else mret given);
  id ← lift (cti_stoi text (variable +:+ " from launcher"));
  mret (uint32 id).

Definition without_nodes (layouts : gmap string StepLayout) : option string :=
  fst <$> List.find (λ p, bool_decide (nodes p.2 = [])) (id_layouts layouts).

(** The constructor.  [beDaemonName] is the name with its random characters. *)
Definition SLURMApp_new (fe : SlurmFE) (fd : frontend_data) (launcherName beDaemonName : string)
    (mpirData : FEMPIRResult) (jobId stepId : string) : M sys SLURMApp :=
  let daemonAppId := res_mpir_id (fe_result mpirData) in
  job ← launcher_id jobId "totalview_jobid" daemonAppId;
  step ← launcher_id stepId "totalview_stepid" daemonAppId;
  allJobIds ← get_all_job_ids job step;
  stepLayout ← fetchStepLayout allJobIds;
  toolPath ← findToolPath (to_string job);
  s ← get;
  stagePath ← lift (req_mkdtemp (sys_trace s) (m_cfg_dir fd +:+ "/slurmXXXXXX"));
  layoutFile ← write_file (stagePath +:+ "/slurm_layout") "failed to open path " (createNodeLayoutFile stepLayout);
  let app rankMap files :=
    MkSLURMApp fe fd launcherName daemonAppId job step rankMap allJobIds stepLayout "" toolPath
      ("/var/opt/cray/alps/spool/" +:+ to_string (getApid job step)) stagePath files beDaemonName in
  match without_nodes stepLayout with
  | Some id => throw ("Application " +:+ id +:+ " does not have any nodes.")
  | None =>
      if daemonAppId =? 0 then throw "tried to create app with invalid daemon id: 0"
      else
        wrapper ← System.getenv CTI_BACKEND_WRAPPER;
        '(proctable, rankMap) ←
          match wrapper with
          | Some binary =>
              table ← reparentProctable (app (fe_binaryRankMap mpirData) [layoutFile])
                        (proctable_of mpirData) binary;
              mret (table, generateBinaryRankMap table)
          | None => mret (proctable_of mpirData, fe_binaryRankMap mpirData)
          end;
        pidFile ← write_file (stagePath +:+ "/slurm_pid") "failed to open path " (Ok (createPIDListFile (map el_pid proctable)));
        let result := app rankMap [layoutFile; pidFile] in
        wait_briefly_for_application_registered (getJobId result);;
        mret result
  end.

(** The destructor, in the process that made the frontend or another one. *)
Definition SLURMApp_delete (isOriginalInstance : bool) (app : SLURMApp) : M sys () :=
  if negb isOriginalInstance then mret tt
  else
    (if is_empty (m_stagePath app) then mret tt else sys_emit (SRemove (m_stagePath app)));;
    catch_all (request (SDeregister (m_daemonAppId app)) req_done) tt.

Definition setGres (gresSetting : string) (app : SLURMApp) : SLURMApp :=
  MkSLURMApp (m_fe app) (m_frontend app) (m_launcherName app) (m_daemonAppId app) (m_jobId app)
    (m_stepId app) (m_binaryRankMap app) (m_allJobIds app) (m_stepLayout app) gresSetting
    (m_toolPath app) (m_attribsPath app) (m_stagePath app) (m_extraFiles app) (getBEDaemonName app).

(** [launchApp] *)
Definition launchApp (fe : SlurmFE) (fd : frontend_data) (launcherName : string) (pid : Z)
    (inputFile : option string) (stdoutFd stderrFd : Z) (launcher_args env_list : list string)
    : M sys FEMPIRResult :=
  launcherPath ← lift (findPath launcherName);
  s ← get;
  argv ← lift (launchApp_argv (sys_env s) fe launcherPath pid inputFile stdoutFd stderrFd launcher_args);
  '(result, _) ← srunMPIR fd launcherPath argv env_list (checkTaskPrologStatus fe)
    (λ node count _ stderrOutput,
       throw ("Attempted to launch more than " +:+ to_string count +:+ " jobs on node " +:+ node +:+ "." +:+
              nl +:+ "The interconnect limits the active number of jobs per node. Please try to launch " +:+
              "on a different set of nodes. srun output:" +:+ nl +:+ stderrOutput));
  mret result.

(** [launch] and [launchBarrier], which differ in the release; an exception destroys the
    application. *)
Definition launch (isOriginalInstance barrier : bool) (fe : SlurmFE) (fd : frontend_data) (launcherName beDaemonName : string)
    (pid : Z) (inputFile : option string) (stdoutFd stderrFd : Z) (launcher_args env_list : list string)
    : M sys SLURMApp :=
  mpirData ← launchApp fe fd launcherName pid inputFile stdoutFd stderrFd launcher_args env_list;
  app ← SLURMApp_new fe fd launcherName beDaemonName mpirData "" "";
  try_catch
    (gres ← get_gres_setting launcher_args;
     let app := setGres gres app in
     (if barrier then mret tt else releaseBarrier app);;
     mret app)
    (λ e, SLURMApp_delete isOriginalInstance app;; throw e).

Definition registerJob (fe : SlurmFE) (fd : frontend_data) (launcherName beDaemonName : string)
    (job step : Z) : M sys SLURMApp :=
  mpirData ← sattachMPIRLocal job step;
  SLURMApp_new fe fd launcherName beDaemonName mpirData "" "".

Definition getSrunInfo (launcherName : string) (srunPid : Z) : M sys (Z * Z) :=
  if srunPid <=? 0 then throw ("Invalid srunPid " +:+ to_string srunPid)
  else
    launcherPath ← lift (findPath launcherName);
    mpirData ← request (SAttach launcherPath srunPid) req_launch;
    let id := res_mpir_id (fe_result mpirData) in
    jobId ← launcher_id "" "totalview_jobid" id;
    stepId ← launcher_id "" "totalview_stepid" id;
    request (SReleaseMPIR id) req_done;;
    mret (jobId, stepId).
End App.
