(* ===== verification/SlurmAppProofs.v ===== *)
(** * Slurm: properties of applications

    Which files checkFilesExist reports, from the interleaved answers of all nodes; the
    rank map of a job of several components; when a failed launch is taken for the limit
    of jobs; how often a package is sent; what reparenting does to a process table. *)

From S2P Require Import Prelude Split Host System Detect SlurmJobs Wire BackendFiles.
From S2P Require Import SlurmLayout SlurmArgs ConfigDir Daemon Handlers FEIface Requests SlurmApp.

(** ** Files on the nodes *)

Section Files.
Context `{Host} `{Commands} `{FrontendDaemon} `{InstalledPrograms}.

(** [checkFilesExist]: whatever the order in which the answers of the nodes arrive, the
    paths returned are those that every node has; none when there is no node. *)
Theorem files_on_all_nodes (app : SLURMApp) (paths : gset string) (st : app_state)
    (argv lines : list string) (reports : list (list string)) :
  as_sent st = true →
  generateDaemonLauncherArgv (sys_env (as_sys st)) (m_fe app) (m_launcherName app) (m_gresSetting app)
    (m_stepLayout app) (daemon_path app :: map (λ path, "--file=" +:+ path) (sorted_elements paths)) = Ok argv →
  req_util_output (sys_trace (as_sys st) ++ [SUtil argv blacklist_env]) = Ok (unlines lines) →
  no_char "255" (unlines lines) = true →
  Forall (λ l, no_char "010" l = true) lines →
  Z.of_nat (length reports) = getNumHosts (m_stepLayout app) →
  Forall (λ r, NoDup r ∧ "" ∉ r) reports →
  interleaves (map ends_node reports) lines →
  ∃ found st', checkFilesExist app paths st = (Ok found, st') ∧
    ∀ p, p ∈ found ↔ reports ≠ [] ∧ Forall (elem_of p) reports.
Proof.
  intros Hsent Hargv Hout Hff Hnl Hlen Hreports Hmerge.
  eexists _, _. split.
  { unfold checkFilesExist, checkFilesExist_with, ship_once_with, on_sys, zoom, mbind, M_bind, get. rewrite Hsent.
    cbn -[generateDaemonLauncherArgv String.append blacklist_env]. unfold lift. rewrite Hargv.
    unfold request, sys_emit, modify, mbind, M_bind, get. cbn -[blacklist_env]. rewrite Hout.
    reflexivity. }
  rewrite fd_text_id, text_lines_unlines by done. rewrite <-Hlen. by apply count_paths_reports.
Qed.
End Files.

(** ** The rank map of several components *)

Lemma merge_ranks_lookup (m1 m2 : gmap string (list Z)) (b : string) :
  default [] (merge_ranks m1 m2 !! b) = default [] (m1 !! b) ++ default [] (m2 !! b).
Proof.
  unfold merge_ranks. rewrite lookup_union_with.
  destruct (m1 !! b), (m2 !! b); cbn; by rewrite ?app_nil_r.
Qed.

Lemma merge_ranks_empty (m : gmap string (list Z)) : merge_ranks m ∅ = m.
Proof. apply (right_id_L ∅ (union_with _)). Qed.

Lemma empty_merge_ranks (m : gmap string (list Z)) : merge_ranks ∅ m = m.
Proof. apply (left_id_L ∅ (union_with _)). Qed.

(** A component whose rank map is that of its own table, as every launch gives it. *)
Definition own_ranks (r : FEMPIRResult) : Prop :=
  fe_binaryRankMap r = generateBinaryRankMap (proctable_of r).

Definition has_processes (r : FEMPIRResult) : bool := negb (bool_decide (proctable_of r = [])).

Lemma merged_table (rs : list FEMPIRResult) (acc : FEMPIRResult) :
  proctable_of (fold_left add_component rs acc) = proctable_of acc ++ flat_map proctable_of rs.
Proof.
  revert acc. induction rs as [|r rs IH]; intros acc; cbn; [by rewrite app_nil_r|].
  rewrite IH. symmetry. apply app_assoc.
Qed.

Lemma generated_rank (tbl : list MPIRProctableElem) (b : string) (z : Z) :
  z ∈ default [] (generateBinaryRankMap tbl !! b) ↔
  ∃ r e, tbl !! r = Some e ∧ el_executable e = b ∧ z = Z.of_nat r.
Proof.
  destruct (rank_map_from_spec tbl 0 ∅ b) as [Hz _]. unfold generateBinaryRankMap. rewrite Hz.
  rewrite lookup_empty. cbn. split; [intros [?%elem_of_nil|(r & e & ? & ? & ->)]; [done|by exists r, e]|].
  intros (r & e & ? & ? & ->). right. by exists r, e.
Qed.

(** No rank reaches the size of the largest component. *)
Lemma merged_rank_bound (rs : list FEMPIRResult) (acc : FEMPIRResult) (b : string) (z : Z) :
  Forall own_ranks rs → z ∈ default [] (fe_binaryRankMap (fold_left add_component rs acc) !! b) →
  z ∈ default [] (fe_binaryRankMap acc !! b) ∨
  ∃ r, r ∈ rs ∧ z < Z.of_nat (length (proctable_of r)).
Proof.
  revert acc. induction rs as [|r rs IH]; intros acc Hrs; [by left|].
  apply Forall_cons in Hrs as [Hr Hrs]. cbn [fold_left]. intros [Hz|(r' & Hin & Hz)]%IH; [|right; exists r'|done].
  - cbn in Hz. rewrite merge_ranks_lookup, elem_of_app in Hz. destruct Hz as [Hz|Hz]; [by left|].
    right. exists r. split; [apply list_elem_of_here|]. rewrite Hr in Hz.
    apply generated_rank in Hz as (k & e & Hk%lookup_lt_Some & _ & ->). lia.
  - split; [by apply list_elem_of_further|done].
Qed.

Lemma filter_processes (r : FEMPIRResult) (rs : list FEMPIRResult) :
  filter has_processes (r :: rs) =
  if bool_decide (proctable_of r = []) then filter has_processes rs else r :: filter has_processes rs.
Proof.
  rewrite filter_cons. destruct (decide (has_processes r)) as [Hd|Hd]; unfold has_processes in Hd;
    case_bool_decide; [by destruct Hd|done|done|by destruct Hd].
Qed.

Lemma no_processes (rs : list FEMPIRResult) :
  filter has_processes rs = [] ↔ flat_map proctable_of rs = [].
Proof.
  induction rs as [|r rs IH]; [done|]. cbn [flat_map]. rewrite filter_processes.
  rewrite app_nil. case_bool_decide; [tauto|]. split; [done|]. by intros [? _].
Qed.

Lemma part_smaller (rs : list FEMPIRResult) (r : FEMPIRResult) :
  r ∈ rs → (1 < length (filter has_processes rs))%nat →
  (length (proctable_of r) < length (flat_map proctable_of rs))%nat.
Proof.
  intros (a & b & ->)%list_elem_of_split. rewrite filter_app, filter_processes, flat_map_app. cbn [flat_map].
  rewrite !length_app. intros Hn.
  destruct (flat_map proctable_of a) eqn:Ea; [|cbn; lia]. destruct (flat_map proctable_of b) eqn:Eb; [|cbn; lia].
  apply no_processes in Ea, Eb. rewrite Ea, Eb in Hn. case_bool_decide; cbn in Hn; lia.
Qed.

Lemma merged_single (rs : list FEMPIRResult) (acc : FEMPIRResult) :
  Forall own_ranks rs → own_ranks acc → proctable_of acc = [] ∨ filter has_processes rs = [] →
  (length (filter has_processes rs) ≤ 1)%nat → own_ranks (fold_left add_component rs acc).
Proof.
  revert acc. induction rs as [|r rs IH]; intros acc Hrs Hacc Hone Hlen; [done|].
  apply Forall_cons in Hrs as [Hr Hrs]. cbn [fold_left]. rewrite filter_processes in Hone, Hlen.
  unfold own_ranks in Hacc, Hr. case_bool_decide as E.
  - apply IH; [done| |cbn; rewrite E, app_nil_r; tauto|done].
    unfold own_ranks. cbn. rewrite Hr, E, Hacc, app_nil_r. apply merge_ranks_empty.
  - destruct Hone as [Hnil|]; [|done].
    assert (filter has_processes rs = []) as Hrest by (apply length_zero_iff_nil; cbn in Hlen; lia).
    apply IH; [done| |by right|rewrite Hrest; cbn; lia].
    unfold own_ranks. cbn. rewrite Hr, Hacc, Hnil. apply empty_merge_ranks.
Qed.

Lemma merged_several (rs : list FEMPIRResult) :
  Forall own_ranks rs → own_ranks (fold_left add_component rs attach_start) →
  (length (filter has_processes rs) ≤ 1)%nat.
Proof.
  intros Hrs Hown. destruct (le_lt_dec (length (filter has_processes rs)) 1) as [?|Hn]; [done|]. exfalso.
  set (tbl := flat_map proctable_of rs).
  destruct (last tbl) as [e|] eqn:El.
  2: { apply last_None, no_processes in El. rewrite El in Hn. cbn in Hn. lia. }
  rewrite last_lookup in El. assert (Z.of_nat (pred (length tbl)) ∈
    default [] (fe_binaryRankMap (fold_left add_component rs attach_start) !! el_executable e)) as Hin.
  { rewrite Hown, merged_table. apply generated_rank. by exists (pred (length tbl)), e. }
  destruct (merged_rank_bound rs _ _ _ Hrs Hin) as [Hin'|(r & Hr & Hlt)].
  - cbn in Hin'. rewrite lookup_empty in Hin'. by apply elem_of_nil in Hin'.
  - pose proof (part_smaller rs r Hr Hn). fold tbl in H. lia.
Qed.

Section Components.
Context (launchFunc : string → list string → M sys FEMPIRResult) (releaseFunc : Z → M sys ()).

(** Attaching succeeds for every component. *)
Definition attachable (path : string) (result : HetJobId → FEMPIRResult) : Prop :=
  ∀ j s, ∃ s', launchFunc path [path; "-Q"; get_sattach_id j] s = (Ok (result j), s').

Definition releases : Prop := ∀ id s, ∃ s', releaseFunc id s = (Ok tt, s').

Lemma attach_components_run (path : string) (job step : Z) (result : HetJobId → FEMPIRResult)
    (jobIds : list HetJobId) (acc : FEMPIRResult) (s : sys) :
  attachable path result → releases →
  ∃ s', attach_components launchFunc releaseFunc path job step jobIds acc s
        = (Ok (fold_left add_component (map result jobIds) acc), s').
Proof.
  intros Ha Hr. revert acc s. induction jobIds as [|j jobIds IH]; intros acc s; [by exists s|].
  cbn [attach_components map fold_left]. destruct (Ha j s) as [s1 Hj].
  unfold mbind at 1, M_bind at 1, try_catch. unfold mbind at 1, M_bind at 1. rewrite Hj.
  destruct (res_mpir_id (fe_result acc) <? 0); [apply IH|].
  destruct (Hr (res_mpir_id (fe_result (result j))) s1) as [s2 Hs2].
  unfold mbind at 1, M_bind at 1. rewrite Hs2. apply IH.
Qed.

(** sattachMPIR collects the processes of all components in order, but the rank map it
    returns is the one of the collected table exactly when no two components have
    processes: the ranks of each component are counted from 0. *)
Theorem attached_ranks (path : string) (job step : Z) (result : HetJobId → FEMPIRResult)
    (jobIds : list HetJobId) (s : sys) :
  attachable path result → releases → (∀ j, own_ranks (result j)) →
  ∃ r s', attach_components launchFunc releaseFunc path job step jobIds attach_start s = (Ok r, s') ∧
    proctable_of r = flat_map (λ j, proctable_of (result j)) jobIds ∧
    (fe_binaryRankMap r = generateBinaryRankMap (proctable_of r) ↔
     (length (filter (λ j, has_processes (result j)) jobIds) ≤ 1)%nat).
Proof.
  intros Ha Hr Hown. destruct (attach_components_run path job step result jobIds attach_start s Ha Hr) as [s' E].
  exists (fold_left add_component (map result jobIds) attach_start), s'. split; [done|].
  split. { rewrite merged_table. cbn. by rewrite !flat_map_concat_map, map_map. }
  assert (Forall own_ranks (map result jobIds)) as Hall by (apply Forall_map, Forall_true; done).
  assert (length (filter (λ j, has_processes (result j)) jobIds)
          = length (filter has_processes (map result jobIds))) as ->.
  { clear. induction jobIds as [|j js IH]; [done|]. cbn [map]. rewrite !filter_cons.
    case_decide; cbn; by rewrite IH. }
  split; [by apply merged_several|]. intros Hlen. apply merged_single; [done|done|by left|done].
Qed.
End Components.

(** ** Failed launches *)

Section Limit.
Context `{Host} `{Commands} `{FrontendDaemon} `{InstalledPrograms}.

Lemma no_nodes_no_jobs (stderrOutput : string) (s : sys) :
  ∃ s', jobs_on_nodes stderrOutput ∅ s = (Ok [], s').
Proof.
  assert (defined (scontrol_get_config "SwitchType")) as Hd.
  { unfold scontrol_get_config, ignore_status. step_defined. }
  unfold jobs_on_nodes. destruct (contains _ stderrOutput); [|by exists s].
  unfold catch_all, try_catch, mbind, M_bind. specialize (Hd s).
  destruct (scontrol_get_config _ s) as [[t|e|e] s1]; [|by exists s1|by destruct (Hd e s1)].
  destruct (contains _ t); by exists s1.
Qed.

(** When the launch request itself fails, srunMPIR throws its message with the error
    output of srun: no process table is known, so the jobs on the nodes are not counted and
    the callback for the limit of jobs is never run, whatever srun complained of. *)
Theorem failed_launch_ignores_limit (fd : frontend_data) (launcher_path what stderrOutput : string)
    (argv env_list : list string) (checks : bool)
    (jobLimitCallback : string → Z → list string → string → M sys FEMPIRResult) (s : sys) :
  sys_env s !! CTI_LAUNCHER_WRAPPER = None → sys_env s !! CTI_LAUNCHER_SCRIPT = None →
  let trace := sys_trace s ++ [SLaunch launcher_path argv env_list] in
  req_launch trace = Throw what → read_timeout (req_stderr trace) "" = Some stderrOutput →
  ∃ s', srunMPIR fd launcher_path argv env_list checks jobLimitCallback s
        = (Throw (c_str what +:+ nl +:+ stderrOutput), s').
Proof.
  intros Hw Hs trace Hl He.
  destruct (no_nodes_no_jobs stderrOutput (MkSys (sys_env s) trace)) as [s' Hj]. exists s'.
  unfold srunMPIR, srun_attempt, System.getenv, mbind, M_bind, gets. rewrite Hw, Hs. cbn -[jobs_on_nodes nl].
  unfold try_catch at 1. rewrite request_run. fold trace. rewrite Hl. cbn -[jobs_on_nodes nl]. rewrite He.
  change (list_to_set _) with (∅ : gset string). by rewrite Hj.
Qed.
End Limit.

(** ** Packages *)

(** One attempt to send, as [shipPackage] makes it. *)
Definition is_sbcast (e : sys_event) : Z :=
  match e with SUtil ("sbcast" :: _) _ => 1 | _ => 0 end.

Section Packages.
Context `{Host} `{Commands} `{FrontendDaemon} `{InstalledPrograms}.

(** The attempts of a package: what is done before attempt [k]. *)
Fixpoint attempts_before (trace : list sys_event) (argv : list string) (k : nat) : list sys_event :=
  let send := SUtil argv ["SBCAST_SEND_LIBS=no"] in
  match k with
  | O => trace ++ [send]
  | S k' => attempts_before trace argv k' ++ [SSleep 1; send]
  end.

Lemma sbcast_again_run (argv : list string) (trace : list sys_event) (env : gmap string string)
    (answer : nat → bool) (tries k : nat) :
  (∀ i, (i ≤ k + tries)%nat → req_util_sync (attempts_before trace argv i) = Ok (answer i)) →
  ∃ n, (n ≤ tries)%nat ∧
    sbcast_again tries argv (answer k) (MkSys env (attempts_before trace argv k))
    = (Ok (answer (k + n)%nat), MkSys env (attempts_before trace argv (k + n))) ∧
    (answer (k + n)%nat = true ∨ n = tries) ∧ (∀ i, (i < n)%nat → answer (k + i)%nat = false).
Proof.
  revert k. induction tries as [|tries IH]; intros k Ha.
  - exists 0%nat. rewrite Nat.add_0_r. split_and!; [done|done|by right|lia].
  - cbn [sbcast_again]. destruct (answer k) eqn:Ek.
    + exists 0%nat. rewrite Nat.add_0_r, Ek. split_and!; [lia|done|by left|lia].
    + destruct (IH (S k)) as (n & Hn & Hrun & Hend & Hfalse).
      { intros i Hi. apply Ha. lia. }
      exists (S n). replace (k + S n)%nat with (S k + n)%nat by lia. split_and!; [lia| |destruct Hend as [?| ->]; [by left|by right]|].
      * unfold sleep, sys_emit, modify, mbind, M_bind. rewrite request_run. cbn [sys_trace sys_env].
        rewrite <-app_assoc. change (attempts_before trace argv k ++ _) with (attempts_before trace argv (S k)).
        rewrite Ha by lia. exact Hrun.
      * intros [|i] Hi; [by rewrite Nat.add_0_r|]. replace (k + S i)%nat with (S k + i)%nat by lia.
        apply Hfalse. lia.
Qed.

(** [shipPackage] sends a package at most three times, a second apart, stops at the
    first success and throws exactly when all three attempts have failed. *)
Theorem package_attempts (app : SLURMApp) (tarPath packageName : string) (s : sys) (answer : nat → bool) :
  cstr_basename tarPath = Ok packageName →
  let argv := sbcast_argv app tarPath packageName in
  (∀ i, (i ≤ 2)%nat → req_util_sync (attempts_before (sys_trace s) argv i) = Ok (answer i)) →
  ∃ n, (n ≤ 2)%nat ∧ (∀ i, (i < n)%nat → answer i = false) ∧ (answer n = true ∨ n = 2%nat) ∧
    shipPackage app tarPath s =
    ((if answer n then Ok tt
      else Throw ("sbcast failure: Failed to ship " +:+ tarPath +:+ " package to compute node")),
     MkSys (sys_env s) (attempts_before (sys_trace s) argv n)).
Proof.
  intros Hb argv Ha. destruct (sbcast_again_run argv (sys_trace s) (sys_env s) answer 2 0) as (n & Hn & Hrun & Hend & Hfalse).
  { intros i Hi. apply Ha. lia. }
  exists n. split_and!; [done|done|done|].
  unfold shipPackage, lift, mbind, M_bind. rewrite Hb, request_run. fold argv.
  change (sys_trace s ++ _) with (attempts_before (sys_trace s) argv 0). rewrite Ha by lia.
  rewrite Hrun. cbn [Nat.add]. by destruct (answer n).
Qed.

(** ** Reparenting *)

(** The processes of the table that run the wrapper. *)
Lemma wrapped_pids_spec (procTable : list MPIRProctableElem) (wrapperBinary hostname : string) (pid : Z) :
  pid ∈ default ∅ (wrapped_pids procTable wrapperBinary !! hostname) ↔
  ∃ e, e ∈ procTable ∧ el_executable e = wrapperBinary ∧ el_hostname e = hostname ∧ el_pid e = pid.
Proof.
  unfold wrapped_pids.
  assert (∀ m : gmap string (gset Z),
    pid ∈ default ∅ (fold_left (λ m e, if bool_decide (el_executable e = wrapperBinary)
      then <[el_hostname e := default ∅ (m !! el_hostname e) ∪ {[el_pid e]}]> m else m) procTable m !! hostname)
    ↔ pid ∈ default ∅ (m !! hostname) ∨
      ∃ e, e ∈ procTable ∧ el_executable e = wrapperBinary ∧ el_hostname e = hostname ∧ el_pid e = pid) as Hg.
  { induction procTable as [|e tbl IH]; intros m; cbn [fold_left]; [set_solver|].
    rewrite IH. case_bool_decide as Ex.
    - destruct (decide (el_hostname e = hostname)) as [<-|Hne].
      + rewrite lookup_insert_eq. cbn. set_solver.
      + rewrite lookup_insert_ne by done. set_solver.
    - set_solver. }
  rewrite Hg, lookup_empty. set_solver.
Qed.

(** What the utility finds: the child of a process and its program. *)
Context (child : string → Z → Z * string).

Definition child_lines (hostname : string) (pids : list Z) : list string :=
  flat_map (λ pid, [to_string pid; to_string (child hostname pid).1; (child hostname pid).2]) pids.

Definition sorted_pids (pids : gset Z) : list Z := merge_sort Z.le (elements pids).

Definition children_fit (hostname : string) (pids : gset Z) : Prop :=
  ∀ pid, pid ∈ pids → in_int pid = true ∧ in_int (child hostname pid).1 = true ∧
    no_char "010" (child hostname pid).2 = true ∧ no_char "255" (child hostname pid).2 = true.

Lemma elem_of_sorted_pids (pids : gset Z) (pid : Z) : pid ∈ sorted_pids pids ↔ pid ∈ pids.
Proof. unfold sorted_pids. by rewrite merge_sort_Permutation, elem_of_elements. Qed.

Lemma parse_child_lines (hostname : string) (pids : list Z) :
  Forall (λ pid, in_int pid = true ∧ in_int (child hostname pid).1 = true) pids →
  parse_children (child_lines hostname pids)
  = map (λ pid, (pid, (child hostname pid).1, (child hostname pid).2)) pids.
Proof.
  induction 1 as [|pid pids [Hp Hc] _ IH]; [done|]. cbn [child_lines flat_map app map parse_children].
  rewrite !stoi_to_string by done. fold (child_lines hostname pids). rewrite IH.
  pose proof (to_string_nonempty pid). by destruct (to_string pid).
Qed.

Lemma child_lines_read (hostname : string) (pids : gset Z) :
  children_fit hostname pids →
  parse_children (text_lines (fd_text (unlines (child_lines hostname (sorted_pids pids)))))
  = map (λ pid, (pid, (child hostname pid).1, (child hostname pid).2)) (sorted_pids pids).
Proof.
  intros Hfit.
  assert (Forall (λ pid, pid ∈ pids) (sorted_pids pids)) as Hin.
  { apply Forall_forall. intros pid. apply elem_of_sorted_pids. }
  assert (∀ c, ends_text c → (∀ pid, pid ∈ pids → no_char c (child hostname pid).2 = true) →
    Forall (λ l, no_char c l = true) (child_lines hostname (sorted_pids pids))) as Hclean.
  { intros c Hc Hx. induction Hin as [|pid l Hpid _ IH]; [constructor|]. cbn [child_lines flat_map app].
    repeat (apply Forall_cons; split); [by apply no_char_number..|by apply Hx|apply IH]. }
  rewrite fd_text_id, text_lines_unlines.
  - apply parse_child_lines. eapply Forall_impl; [exact Hin|]. intros pid Hpid.
    by destruct (Hfit pid Hpid) as (? & ? & _).
  - apply Hclean; [by left|]. intros pid Hpid. by destruct (Hfit pid Hpid) as (_ & _ & ? & _).
  - apply no_char_unlines; [done|]. apply Hclean; [by right|]. intros pid Hpid.
    by destruct (Hfit pid Hpid) as (_ & _ & _ & ?).
Qed.

(** The children of one host are added. *)
Lemma add_children (hostname : string) (pids : list Z) (m : gmap (string * Z) (Z * string)) (h : string) (p : Z) :
  fold_left (λ m (c : Z * Z * string), <[(hostname, c.1.1) := (c.1.2, c.2)]> m)
    (map (λ pid, (pid, (child hostname pid).1, (child hostname pid).2)) pids) m !! (h, p)
  = if decide (h = hostname ∧ p ∈ pids) then Some (child h p) else m !! (h, p).
Proof.
  revert m. induction pids as [|pid pids IH]; intros m; cbn [map fold_left].
  - rewrite decide_False; [done|]. by intros [_ ?%elem_of_nil].
  - rewrite IH. cbn [fst snd]. rewrite <-surjective_pairing.
    destruct (decide (h = hostname ∧ p ∈ pids)) as [[-> Hp]|Hn].
    + rewrite decide_True; [done|]. split; [done|by apply list_elem_of_further].
    + destruct (decide ((hostname, pid) = (h, p))) as [[= <- <-]|Hne].
      * rewrite lookup_insert_eq, decide_True; [done|]. split; [done|apply list_elem_of_here].
      * rewrite lookup_insert_ne by done. rewrite decide_False; [done|].
        intros [-> [->|?]%elem_of_cons]; [done|]. by apply Hn.
Qed.

Lemma query_children_run (app : SLURMApp) (utility : string) (wrapped : gmap string (gset Z))
    (hosts : list string) (m : gmap (string * Z) (Z * string)) (s : sys) :
  let pids h := default ∅ (wrapped !! h) in
  (∀ h, children_fit h (pids h)) →
  (∀ h trace, req_util_output (trace ++ [SUtil (first_child_argv app utility h (pids h)) blacklist_env])
              = Ok (unlines (child_lines h (sorted_pids (pids h))))) →
  ∃ m' s', query_children app utility hosts wrapped m s = (Ok m', s') ∧
    ∀ h p, m' !! (h, p) = if decide (h ∈ hosts ∧ p ∈ pids h) then Some (child h p) else m !! (h, p).
Proof.
  intros pids Hfit Hans. revert m s. induction hosts as [|host hosts IH]; intros m s.
  { exists m, s. split; [done|]. intros h p. rewrite decide_False; [done|]. by intros [?%elem_of_nil _]. }
  cbn [query_children]. unfold mbind, M_bind. rewrite request_run, Hans. cbv beta iota.
  rewrite child_lines_read by apply Hfit. edestruct IH as (m' & s' & -> & Hm'). exists m', s'. split; [done|].
  intros h p. rewrite Hm', add_children.
  destruct (decide (h ∈ hosts ∧ p ∈ pids h)) as [[? ?]|Hn].
  - rewrite decide_True; [done|]. split; [by apply list_elem_of_further|done].
  - destruct (decide (h = host ∧ p ∈ sorted_pids (pids host))) as [[-> Hp%elem_of_sorted_pids]|Hn2].
    + rewrite decide_True; [done|]. split; [apply list_elem_of_here|done].
    + rewrite decide_False; [done|]. intros [[->|?]%elem_of_cons Hp]; [|by apply Hn].
      apply Hn2. split; [done|]. by apply elem_of_sorted_pids.
Qed.

(** The table in which every process that runs the wrapper is its child. *)
Definition unwrapped (wrapperBinary : string) (e : MPIRProctableElem) : MPIRProctableElem :=
  if bool_decide (el_executable e = wrapperBinary)
  then let '(pid, executable) := child (el_hostname e) (el_pid e) in MkElem pid (el_hostname e) executable
  else e.

Definition place (e : MPIRProctableElem) : string * Z := (el_hostname e, el_pid e).

Lemma reparent_unwraps (procTable : list MPIRProctableElem) (wrapperBinary : string)
    (children : gmap (string * Z) (Z * string)) :
  let pids h := default ∅ (wrapped_pids procTable wrapperBinary !! h) in
  NoDup (map place procTable) →
  (∀ h p, children !! (h, p) = if decide (h ∈ sorted_keys (wrapped_pids procTable wrapperBinary) ∧ p ∈ pids h)
                               then Some (child h p) else None) →
  map (reparent children) procTable = map (unwrapped wrapperBinary) procTable.
Proof.
  intros pids Hnd Hch. apply map_ext_in. intros e He%list_elem_of_In. unfold reparent, unwrapped. rewrite Hch.
  case_bool_decide as Ex.
  - assert (el_pid e ∈ pids (el_hostname e)) as Hp by (apply wrapped_pids_spec; by exists e).
    rewrite decide_True; [by destruct (child _ _)|]. split; [|done].
    apply elem_of_sorted_keys. unfold pids in Hp. destruct (_ !! el_hostname e) eqn:E; [by eexists|set_solver].
  - rewrite decide_False; [done|]. intros [_ (e' & He' & Ex' & Hh & Hp)%wrapped_pids_spec].
    apply Ex. rewrite <-Ex'. f_equal.
    apply list_elem_of_lookup in He as [i Hi], He' as [j Hj].
    assert (i = j) as ->; [|congruence].
    eapply (NoDup_lookup _ _ _ (place e) Hnd); rewrite list_lookup_fmap; [by rewrite Hi|].
    rewrite Hj. cbn. unfold place. by rewrite Hh, Hp.
Qed.

(** [reparentProctable] replaces exactly the processes that run the wrapper by the
    children found on their hosts, and keeps all others, the hosts and the order. *)
Theorem reparent_exact (app : SLURMApp) (procTable : list MPIRProctableElem) (wrapperBinary name : string) (s : sys) :
  let utility := m_toolPath app +:+ "/" +:+ first_subprocess_binary in
  let pids h := default ∅ (wrapped_pids procTable wrapperBinary !! h) in
  cstr_basename utility = Ok name →
  (∀ trace, req_copy trace = Ok tt) → (∀ trace, req_util_sync trace = Ok true) →
  NoDup (map place procTable) →
  (∀ h, children_fit h (pids h)) →
  (∀ h trace, req_util_output (trace ++ [SUtil (first_child_argv app utility h (pids h)) blacklist_env])
              = Ok (unlines (child_lines h (sorted_pids (pids h))))) →
  ∃ s', reparentProctable app procTable wrapperBinary s = (Ok (map (unwrapped wrapperBinary) procTable), s').
Proof.
  intros utility pids Hname Hcopy Hsync Hnd Hfit Hans. unfold reparentProctable. fold utility.
  unfold mbind at 1, M_bind at 1. rewrite request_run, Hcopy. set (s1 := MkSys _ _).
  assert (∃ s2, shipPackage app utility s1 = (Ok tt, s2)) as [s2 Hship].
  { unfold shipPackage, lift, mbind, M_bind. rewrite Hname, request_run, Hsync. by eexists. }
  unfold mbind at 1, M_bind at 1. rewrite Hship.
  destruct (query_children_run app utility (wrapped_pids procTable wrapperBinary)
    (sorted_keys (wrapped_pids procTable wrapperBinary)) ∅ s2 Hfit Hans) as (m & s3 & Hq & Hm).
  exists s3. unfold mbind, M_bind. rewrite Hq. unfold mret, M_ret. do 2 f_equal.
  apply reparent_unwraps; [done|]. intros h p. by rewrite Hm, lookup_empty.
Qed.
End Packages.

(** ** Examples *)

Definition demo_programs : InstalledPrograms := {|
  mpir_shim_binary := "cti_mpir_shim"; first_subprocess_binary := "cti_first_subprocess"
|}.

#[local] Existing Instance demo_programs.

Definition demo_slurm_fe : SlurmFE := MkSlurmFE [] default_daemon_args true false.

Definition demo_frontend : frontend_data :=
  MkFrontend "" "" false "/home/u/.cti" "/opt/cti" "" "" "/opt/cti/libexec/cti_be_daemon".

(** Two nodes of one component. *)
Definition demo_slurm_app : SLURMApp :=
  MkSLURMApp demo_slurm_fe demo_frontend "srun" 3 7 0 ∅ [MkHetJobId 7 0 None false false false]
    {["7.0" := MkStep 4 [MkNode "nid1" 2 0; MkNode "nid2" 2 2]]} "" "/tmp/cti" "/attribs" "/stage" [] "cti_be_daemonX".

(** Both have /bin/a; each has a file of its own. *)
Definition demo_reports : list (list string) := [["/lib/b"; "/bin/a"]; ["/bin/a"; "/lib/c"]].
Definition demo_merged : list string := ["/lib/b"; "/bin/a"; "/bin/a"; ""; "/lib/c"; ""].

Lemma demo_interleaved : interleaves (map ends_node demo_reports) demo_merged.
Proof.
  eapply (interleaves_cons _ 0); [reflexivity|]. eapply (interleaves_cons _ 1); [reflexivity|].
  eapply (interleaves_cons _ 0); [reflexivity|]. eapply (interleaves_cons _ 0); [reflexivity|].
  eapply (interleaves_cons _ 1); [reflexivity|]. eapply (interleaves_cons _ 1); [reflexivity|].
  apply interleaves_nil. repeat constructor.
Qed.

Lemma files_on_all_nodes_witness :
  let D := demo_frontend_daemon (λ _, unlines demo_merged) (λ _, true) "" "" in
  let C := scripted [] in
  ∃ found st', checkFilesExist demo_slurm_app {["/bin/a"]} (MkAppState (MkSys ∅ []) true) = (Ok found, st') ∧
    ∀ p, p ∈ found ↔ demo_reports ≠ [] ∧ Forall (elem_of p) demo_reports.
Proof.
  intros D C. eapply (files_on_all_nodes demo_slurm_app {["/bin/a"]} _ _ demo_merged demo_reports).
  - reflexivity.
  - vm_compute. reflexivity.
  - reflexivity.
  - reflexivity.
  - repeat constructor.
  - vm_compute. reflexivity.
  - repeat constructor; set_solver.
  - exact demo_interleaved.
Defined.

(** Two components of one process each. *)
Definition demo_attached (j : HetJobId) : FEMPIRResult :=
  let tbl := [MkElem 10 "nid1" "/bin/a"] in
  MkFEMPIRResult (MkMPIRResult 1 2 0 0 tbl) (generateBinaryRankMap tbl).

Definition demo_het : list HetJobId :=
  [MkHetJobId 7 0 (Some 0) false false false; MkHetJobId 7 0 (Some 1) false false false].

Lemma attached_ranks_witness :
  let launch j := λ (_ : string) (_ : list string), mret (demo_attached j) : M sys FEMPIRResult in
  ∃ r s', attach_components (launch (MkHetJobId 7 0 None false false false)) (λ _, mret tt) "/usr/bin/sattach" 7 0
      demo_het attach_start (MkSys ∅ []) = (Ok r, s') ∧
    proctable_of r = [MkElem 10 "nid1" "/bin/a"; MkElem 10 "nid1" "/bin/a"] ∧
    (fe_binaryRankMap r = generateBinaryRankMap (proctable_of r) ↔ (2 ≤ 1)%nat).
Proof.
  intros launch.
  apply (attached_ranks (launch (MkHetJobId 7 0 None false false false)) (λ _, mret tt) "/usr/bin/sattach" 7 0
    demo_attached demo_het (MkSys ∅ [])).
  - intros j s. exists s. reflexivity.
  - intros id s. exists s. reflexivity.
  - intros j. reflexivity.
Defined.

Lemma failed_launch_ignores_limit_witness :
  let D := demo_frontend_daemon (λ _, "") (λ _, true) "launch failed" "Error configuring interconnect" in
  let C := scripted [] in
  ∃ s', srunMPIR demo_frontend "/usr/bin/srun" [] [] false (λ _ _ _ _, mret attach_start) (MkSys ∅ [])
        = (Throw ("launch failed" +:+ nl +:+ "Error configuring interconnect"), s').
Proof.
  intros D C. apply (failed_launch_ignores_limit demo_frontend "/usr/bin/srun" "launch failed"
    "Error configuring interconnect" [] [] false (λ _ _ _ _, mret attach_start) (MkSys ∅ [])); reflexivity.
Defined.

(** The first attempt fails. *)
Lemma package_attempts_witness :
  let H := slash_host in
  let D := demo_frontend_daemon (λ _, "") (λ trace, Nat.ltb 1 (length trace)) "" "" in
  ∃ n, (n ≤ 2)%nat ∧ (∀ i, (i < n)%nat → Nat.ltb 0 i = false) ∧ (Nat.ltb 0 n = true ∨ n = 2%nat) ∧
    shipPackage demo_slurm_app "/stage/p.tar" (MkSys ∅ []) =
    ((if Nat.ltb 0 n then Ok tt
      else Throw ("sbcast failure: Failed to ship " +:+ "/stage/p.tar" +:+ " package to compute node")),
     MkSys ∅ (attempts_before [] (sbcast_argv demo_slurm_app "/stage/p.tar" "p.tar") n)).
Proof.
  intros H D. apply (package_attempts demo_slurm_app "/stage/p.tar" "p.tar" (MkSys ∅ []) (Nat.ltb 0)).
  - reflexivity.
  - intros [|[|[|i]]] Hi; [reflexivity..|lia].
Defined.

(** One process under a wrapper, which the utility finds, and one beside it. *)
Definition demo_wrapped : list MPIRProctableElem :=
  [MkElem 10 "nid1" "/bin/wrap"; MkElem 20 "nid2" "/bin/app"].

Lemma reparent_exact_witness :
  let H := slash_host in
  let child := λ (_ : string) pid, (pid + 1, "/bin/app") in
  let D := demo_frontend_daemon
    (λ trace, match last trace with
              | Some (SUtil argv _) =>
                  if bool_decide ("--nodelist=nid1" ∈ argv) then unlines (child_lines child "nid1" [10]) else ""
              | _ => ""
              end) (λ _, true) "" "" in
  ∃ s', reparentProctable demo_slurm_app demo_wrapped "/bin/wrap" (MkSys ∅ []) =
    (Ok [MkElem 11 "nid1" "/bin/app"; MkElem 20 "nid2" "/bin/app"], s').
Proof.
  intros H child D.
  assert (∀ h, default ∅ (wrapped_pids demo_wrapped "/bin/wrap" !! h) = if decide (h = "nid1") then {[10]} else ∅) as Hp.
  { intros h. change (wrapped_pids _ _) with (<["nid1" := ∅ ∪ {[10]}]> ∅ : gmap string (gset Z)).
    case_decide as E; [by subst|]. by rewrite lookup_insert_ne. }
  apply (reparent_exact child demo_slurm_app demo_wrapped "/bin/wrap" "cti_first_subprocess" (MkSys ∅ [])).
  - reflexivity.
  - reflexivity.
  - reflexivity.
  - apply (bool_decide_unpack _). vm_compute. exact I.
  - intros h pid. rewrite Hp. case_decide; [|set_solver]. intros ->%elem_of_singleton. repeat split; reflexivity.
  - intros h trace. rewrite Hp. cbn [req_util_output D demo_frontend_daemon]. rewrite last_snoc.
    case_decide as E; [subst; reflexivity|].
    rewrite bool_decide_false; [reflexivity|]. vm_compute. intros Hin.
    repeat (apply elem_of_cons in Hin as [Hin|Hin]; [try discriminate Hin; congruence|]).
    by apply elem_of_nil in Hin.
Defined.
