(* ===== verification/PalsJobs.v ===== *)
(** * PALS: jobs and launches
    (src/src/frontend/frontend_impl/PALS/Frontend.cpp)

    What qstat and palstat say of jobs and applications, submitting job scripts, finding
    the execution host and the application of an identifier, attaching and launching,
    with the arguments and variables that launches are given. *)

From S2P Require Import Prelude Split Argv Host Wire Daemon Handlers FEIface System SlurmJobs.
From S2P Require Import ConfigDir Requests.

Definition PALS_BARRIER_NON_MPI : string := "CTI_PALS_BARRIER_NON_MPI".
Definition PALS_DISABLE_TIMEOUT : string := "CTI_PALS_DISABLE_TIMEOUT".
Definition PALS_EXEC_HOST : string := "CTI_PALS_EXEC_HOST".
Definition SAVE_LD_PRELOAD : string := "CTI_SAVE_LD_PRELOAD".

(** The first character of a variable, which is NUL when it is empty. *)
Definition first_is (c : ascii) (value : option string) : bool :=
  match value with Some (String x _) => bool_decide (x = c) | _ => false end.

(** Version numbers in their order. *)
Definition version3 (text : string) : Z * Z * Z :=
  let '(major, minor, revision) := split3 text "." in
  (stoi_or_zero major, stoi_or_zero minor, stoi_or_zero revision).

Definition below (major minor : Z) (v : Z * Z * Z) : bool :=
  (v.1.1 <? major) || ((v.1.1 =? major) && (v.1.2 <? minor)).

(** A field and its value, both without blanks around them, in a line that is split at a
    separator. *)
Definition field_value (separator line : string) : option (string * string) :=
  '(var, val) ← find_sub separator line;
  Some (removeLeadingWhitespace var, removeLeadingWhitespace val).

(** ** Identifiers of applications *)

Fixpoint take_alnum (n : nat) (s : string) : option string :=
  match n, s with
  | O, _ => Some s
  | S n', String c s' => if is_alnum c then take_alnum n' s' else None
  | S _, "" => None
  end.

Fixpoint uuid_groups (groups : list nat) (s : string) : option string :=
  match groups with
  | [] => Some s
  | [n] => take_alnum n s
  | n :: groups' =>
      match take_alnum n s with
      | Some (String c s') => if bool_decide (c = "-"%char) then uuid_groups groups' s' else None
      | _ => None
      end
  end.

(** What follows an identifier of the form 8-4-4-4-12. *)
Definition uuid_rest (s : string) : option string := uuid_groups [8; 4; 4; 4; 12]%nat s.

Definition is_pals_apid (apid : string) : bool := bool_decide (uuid_rest apid = Some "").

(** The identifier in the first text "Launched tool helper <identifier>". *)
Fixpoint tool_helper_id (line : string) : option string :=
  let here :=
    if starts_with "Launched tool helper " line
    then let id := drop_str 21 line in
         if bool_decide (is_Some (uuid_rest id)) then Some (substr 0 36 id) else None
    else None in
  match here with
  | Some id => Some id
  | None => match line with String _ line' => tool_helper_id line' | "" => None end
  end.

(** [s.rfind(c)]: the parts around the last occurrence. *)
Definition split_last (c : ascii) (s : string) : option (string * string) :=
  i ← find_last_not_of (λ x, bool_decide (x ≠ c)) s;
  Some (substr 0 i s, drop_str (S i) s).

Section Pals.
Context `{Host} `{Commands}.

(** ** Versions *)

Definition getPalsVersion : M sys (Z * Z * Z) :=
  lines ← Execvp ["palstat"; "--version"];
  match lines with
  | [] => throw "Failed: `palstat --version`. Ensure the `cray-pals` module is loaded"
  | line :: _ =>
      mret (version3 (match split_string 4 line " " with [_; _; version; _] => version | _ => "" end))
  end.

Definition pmix_label : string := "pmix:version:full:".

Definition getPmixVersion : M sys (Z * Z * Z) :=
  lines ← Execvp ["pmix_info"; "--parsable"];
  let pmixVersion :=
    match List.find (starts_with pmix_label) lines with
    | Some line => drop_str (String.length pmix_label) line
    | None => ""
    end in
  if is_empty pmixVersion then throw "failed to find version in output"
  else
    let version := version3 pmixVersion in
    if version.1.1 =? 0 then throw ("Failed to parse PMIx version '" +:+ pmixVersion) else mret version.

(** Whether the library that implements the barrier is to be preloaded. *)
Definition PALSFrontend_new : M sys bool :=
  barrier ← getenv PALS_BARRIER_NON_MPI;
  if first_is "0" barrier then mret false
  else version ← getPalsVersion; mret (below 1 6 version).

(** ** Hosts and applications *)

(** The first line of a file. *)
Definition file_line (path : string) : option string :=
  blocks ← os_read path; head (text_lines (blocks_text blocks)).

Definition find_job_host_in_allocation : M sys string :=
  pbs_nodefile ← getenv "PBS_NODEFILE";
  match pbs_nodefile with
  | Some path =>
      match file_line path with
      | Some line => mret line
      | None => throw ("failed to parse PBS_NODEFILE at " +:+ path)
      end
  | None => throw "PBS_NODEFILE was not set in allocation environment"
  end.

(** The state, the hosts and the comment that qstat prints, the last of each. *)
Definition job_details (lines : list string) : string * string * string :=
  fold_left (λ '(state, host, comment) line,
    match field_value " = " line with
    | Some (var, val) =>
        if bool_decide (var = "job_state") then (val, host, comment)
        else if bool_decide (var = "exec_host") then (state, val, comment)
        else if bool_decide (var = "comment") then (state, host, val)
        else (state, host, comment)
    | None => (state, host, comment)
    end) lines ("", "", "").

Definition get_job_details (jobId : string) : M sys (string * string * string) :=
  let argv := ["qstat"; "-f"; jobId] in
  '(lines, status) ← run_lines argv;
  if negb (status =? 0) then throw ("`qstat -f " +:+ jobId +:+ "` failed, is the job running?")
  else mret (job_details lines).

Definition find_job_host_outside_allocation (jobId : string) : M sys string :=
  '(_, execHost, comment) ← get_job_details jobId;
  if is_empty execHost
  then if is_empty comment
       then throw ("Failed to find exec_host for " +:+ jobId +:+ ", is the job running?")
       else throw ("Failed to find exec_host for " +:+ jobId +:+ ". PBS reported: " +:+ nl +:+ comment +:+
                   nl +:+ "The job may still be queued.")
  else
    match split_at "/" execHost with
    | Some (firstHost, _) => mret firstHost
    | None => throw ("failed to parse qstat exec_host: " +:+ execHost)
    end.

(** The last application named before the first job whose identifier begins as wanted, and
    whether there is such a job. *)
Fixpoint apid_of_job (pbsJobId : string) (lines : list string) (parsedApid : string) : bool * string :=
  match lines with
  | [] => (false, parsedApid)
  | line :: lines' =>
      match field_value ": " line with
      | Some (var, val) =>
          if bool_decide (var = "APID") then apid_of_job pbsJobId lines' val
          else if bool_decide (var = "JobID") && starts_with pbsJobId val then (true, parsedApid)
          else apid_of_job pbsJobId lines' parsedApid
      | None => apid_of_job pbsJobId lines' parsedApid
      end
  end.

Definition find_apid_from_jobid (execHost pbsJobId : string) : M sys string :=
  '(lines, status) ← run_lines ["palstat"; "--node"; execHost];
  let '(foundApid, parsedApid) := apid_of_job pbsJobId lines "" in
  if negb (status =? 0)
  then throw ("`palstat --node " +:+ execHost +:+ "` failed with code " +:+ to_string status)
  else if negb foundApid || is_empty parsedApid
  then throw ("invalid PBS job id " +:+ pbsJobId +:+ " for host " +:+ execHost +:+
              ". Check for this job by running `palstat --node " +:+ execHost +:+ "`")
  else mret parsedApid.

Definition running_states : list string := ["pending"; "startup"; "running"].

Definition says_running (line : string) : bool :=
  match field_value ": " line with
  | Some (var, val) => bool_decide (var = "State") && bool_decide (val ∈ running_states)
  | None => false
  end.

Definition is_apid_running (execHost apId : string) : M sys bool :=
  '(lines, status) ← run_lines ["palstat"; "-n"; execHost; apId];
  mret (existsb says_running lines && (status =? 0)).

(** Whether a field that palstat prints satisfies a condition; how palstat ends is of no
    consequence, and not asked for once the field is found. *)
Definition palstat_search (execHost appId : string) (callback : string → string → bool) : M sys bool :=
  let argv := ["palstat"; "-n"; execHost; appId] in
  lines ← Execvp argv;
  if existsb (λ line, match field_value ": " line with
                      | Some (var, val) => callback var val
                      | None => false
                      end) lines
  then mret true
  else getExitStatus argv;; mret false.

Definition in_pbs_allocation : M sys bool :=
  nodefile ← getenv "PBS_NODEFILE";
  jobid ← getenv "PBS_JOBID";
  mret (bool_decide (is_Some nodefile) && bool_decide (is_Some jobid)).

Definition in_matching_pbs_allocation (apid : string) : M sys bool :=
  '(_, status) ← run_lines ["palstat"; apid]; mret (status =? 0).

(** ** Job scripts *)

Definition qsub_argv (scriptPath : string) (launcher_args env_list : list string) : list string :=
  ["qsub"] ++ launcher_args ++
  ["-v"; String.concat "" (map (λ e, std_quoted e +:+ ",") env_list) +:+
         "PALS_LOCAL_LAUNCH=0,PALS_STARTUP_BARRIER=1"; scriptPath].

(** Asking for the application every three seconds: the host of the job is looked for outside
    of the handler, so a job without one ends the wait. *)
Fixpoint await_application (rounds : nat) (disable_timeout : bool) (pbsJobId : string) : M sys string :=
  match rounds with
  | O => if disable_timeout then undef "the application is waited for forever"
         else throw "Timed out waiting for PALS application to launch"
  | S rounds' =>
      sleep 3;;
      execHost ← find_job_host_outside_allocation pbsJobId;
      started ← catch_all (find_apid_from_jobid execHost pbsJobId;; mret true) false;
      if (started : bool) then mret pbsJobId else await_application rounds' disable_timeout pbsJobId
  end.

Definition max_launch_retry : nat := 10.

(** [fuel] bounds the wait that has no timeout. *)
Definition submitJobScript (fuel : nat) (scriptPath : string) (launcher_args env_list : list string)
    : M sys string :=
  let argv := qsub_argv scriptPath launcher_args env_list in
  '(lines, status) ← run_lines argv;
  let pbsJobId := default "" (head lines) in
  if negb (status =? 0) || bool_decide (lines = [])
  then
    text ← lift (argv_string (argv_of_list argv));
    throw ("failed to submit PBS job using command" +:+ nl +:+ "    " +:+ text +:+
           (if is_empty pbsJobId then "" else nl +:+ pbsJobId))
  else
    timeout ← getenv PALS_DISABLE_TIMEOUT;
    let disable_timeout := bool_decide (is_Some timeout) && negb (first_is "0" timeout) in
    await_application (if disable_timeout then fuel else max_launch_retry) disable_timeout pbsJobId.

(** ** Attaching *)

Context `{FrontendDaemon}.

(** PalsLaunchInfo *)
Record PalsLaunchInfo : Type := MkPalsInfo {
  daemonAppId : Z; execHost : string; apId : string;
  procTable : list MPIRProctableElem; binaryRankMap : gmap string (list Z); atBarrier : bool
}.

(** "host executable pid": words that are missing are empty, and an empty number throws. *)
Definition drop_word (s : string) : string := drop_str (String.length (take_word s)) s.

Definition parse_elem (line : string) : res MPIRProctableElem :=
  let s1 := skip_space line in
  let s2 := skip_space (drop_word s1) in
  let s3 := skip_space (drop_word s2) in
  '(pid, _) ← stoi (take_word s3);
  mret (MkElem pid (take_word s1) (take_word s2)).

Fixpoint parse_elems (lines : list string) : res (list MPIRProctableElem) :=
  match lines with
  | [] => Ok []
  | line :: lines' => e ← parse_elem line; rest ← parse_elems lines'; mret (e :: rest)
  end.

(** The execution host and the application of an identifier: "job:application", an
    application, or a job. *)
Definition find_application (jobOrApId : string) : M sys (string * string) :=
  match split_last ":" jobOrApId with
  | Some (jobId, apId) => execHost ← find_job_host_outside_allocation jobId; mret (execHost, apId)
  | None =>
      if is_pals_apid jobOrApId
      then
        pals_exec_host ← getenv PALS_EXEC_HOST;
        match pals_exec_host with
        | Some execHost => mret (execHost, jobOrApId)
        | None =>
            allocated ← in_pbs_allocation;
            if negb (allocated : bool)
            then throw ("Provided PALS application ID " +:+ jobOrApId +:+ ", but this tool was not launched " +:+
                        "inside the application's PBS allocation")
            else
              matching ← in_matching_pbs_allocation jobOrApId;
              if negb (matching : bool)
              then throw ("This tool was launched in a PBS allocation, but could not find the provided PALS " +:+
                          "application " +:+ jobOrApId +:+ ". Ensure that the tool was started inside the same " +:+
                          "PBS allocation as the PALS application")
              else execHost ← find_job_host_in_allocation; mret (execHost, jobOrApId)
        end
      else
        execHost ← find_job_host_outside_allocation jobOrApId;
        apId ← find_apid_from_jobid execHost jobOrApId;
        mret (execHost, apId)
  end.

(** An application that is registered with the daemon is not forgotten again when its
    processes cannot be read. *)
Definition attachApp (jobOrApId : string) : M sys PalsLaunchInfo :=
  '(execHost, apId) ← find_application jobOrApId;
  running ← is_apid_running execHost apId;
  if negb (running : bool)
  then
    pals_exec_host ← getenv PALS_EXEC_HOST;
    throw ("Attempted to attach to PALS application " +:+ apId +:+
           (if bool_decide (is_Some pals_exec_host) then "" else " running on host " +:+ execHost) +:+
           ", but PALS reported that it was not running." +:+ nl +:+
           "If the application is running on a single node, try relaunching it " +:+
           "with the environment setting PALS_LOCAL_LAUNCH=0")
  else
    daemonAppId ← request SRegister req_id;
    lines ← Execvp ["palstat"; "-n"; execHost; "-p"; apId];
    table ← lift (parse_elems (tail lines));
    if bool_decide (table = [])
    then throw ("Failed to get job layout for job ID " +:+ jobOrApId +:+ ". Check with `palstat -n " +:+
                execHost +:+ " --proctable " +:+ apId +:+ "`")
    else mret (MkPalsInfo daemonAppId execHost apId table (generateBinaryRankMap table) false).

(** The application of a launcher that runs: the path is null when the launcher is not found. *)
Definition getApid (launcherName : string) (launcher_pid : Z) : M sys string :=
  match os_pathFind launcherName with
  | None => undef "strlen of a null pointer"
  | Some path =>
      mpirData ← request (SAttach path launcher_pid) req_launch;
      result ← request (SReadString (res_mpir_id (fe_result mpirData)) "totalview_jobid") req_string;
      request (SReleaseMPIR (res_mpir_id (fe_result mpirData))) req_done;;
      mret result
  end.

(** ** Launching *)

Definition launchApp (launcherName : string) (launcher_args env_list : list string) : M sys PalsLaunchInfo :=
  pbs_nodefile ← getenv "PBS_NODEFILE";
  execHost ←
    match pbs_nodefile with
    | Some path =>
        match file_line path with
        | Some line => mret line
        | None => throw ("Failed to parse PBS_NODEFILE at " +:+ path)
        end
    | None => mret ""
    end;
  match os_pathFind launcherName with
  | None => throw ("Failed to find launcher in path: " +:+ launcherName)
  | Some path =>
      mpirData ← try_catch (request (SLaunch path (path :: launcher_args) env_list) req_launch)
        (λ what,
           hostlist ← getenv "PALS_HOSTLIST"; hostfile ← getenv "PALS_HOSTFILE";
           nodefile ← getenv "PBS_NODEFILE";
           if bool_decide (hostlist = None) && bool_decide (hostfile = None) && bool_decide (nodefile = None)
           then throw ("Launcher failed to start application. PALS_HOSTLIST, PALS_HOSTFILE, and " +:+
                       "PBS_NODEFILE were not set. Ensure you are launching inside an active PBS allocation")
           else throw what);
      let id := res_mpir_id (fe_result mpirData) in
      apid ← request (SReadString id "totalview_jobid") req_string;
      mret (MkPalsInfo id execHost apid (res_proctable (fe_result mpirData)) (fe_binaryRankMap mpirData) true)
  end.

(** The variables of the launcher, mpiexec or aprun. *)
Definition fixLaunchEnvironment (launcherName : string) (env_list : list string) : list string :=
  let aprun := bool_decide (launcherName = "aprun") in
  env_list ++ [if aprun then "APRUN_RPC_TIMEOUT=300" else "PALS_RPC_TIMEOUT=300";
               if aprun then "APRUN_LOCAL_LAUNCH=0" else "PALS_LOCAL_LAUNCH=0"].

(** Both ways to give LD_PRELOAD to the application get the library in front and the value
    saved; whether there was one.  Only four characters of "--env" are compared. *)
Definition preload_args (preloadPath ldPreload : string) : list string :=
  ["--env=LD_PRELOAD=" +:+ preloadPath +:+ ":" +:+ ldPreload; "--env=" +:+ SAVE_LD_PRELOAD +:+ "=" +:+ ldPreload].

Fixpoint fix_preload (preloadPath : string) (args : list string) : list string * bool :=
  match args with
  | [] => ([], false)
  | arg :: rest =>
      if starts_with "--env=LD_PRELOAD=" arg
      then let '(fixed, _) := fix_preload preloadPath rest in
           (preload_args preloadPath (split3 arg "=").2 ++ fixed, true)
      else
        match rest with
        | next :: rest' =>
            if starts_with "--en" arg && starts_with "LD_PRELOAD=" next
            then let '(fixed, _) := fix_preload preloadPath rest' in
                 (preload_args preloadPath (split2 next "=").2 ++ fixed, true)
            else let '(fixed, found) := fix_preload preloadPath rest in (arg :: fixed, found)
        | [] => ([arg], false)
        end
  end.

Definition fixLaunchArguments (baseDir : string) (launcher_argv : option (list string)) (preload_pals : bool)
    : list string :=
  match launcher_argv with
  | None => []
  | Some args =>
      match (if preload_pals then accessiblePath (baseDir +:+ "/lib/libctipreloadpals.so") else Throw "") with
      | Ok preloadPath =>
          if is_empty preloadPath then args
          else let '(fixed, found) := fix_preload preloadPath args in
               if found then fixed else ("--env=LD_PRELOAD=" +:+ preloadPath) :: fixed
      | _ => args
      end
  end.
End Pals.
