(* ===== verification/PalsApp.v ===== *)
(** * PALS: applications
    (src/src/frontend/frontend_impl/PALS/Frontend.cpp)

    The layout file for the backend, the helper for PMIx, and what an application does:
    construction and destruction, the startup barrier, shipping packages, starting tool
    daemons, finding files, signals. *)

From S2P Require Import Prelude Split Argv Host Wire BackendFiles Daemon Handlers FEIface System SlurmJobs.
From S2P Require Import ConfigDir Requests PalsJobs.

Definition PALS_PMIX : string := "CTI_PALS_PMIX".
Definition PALS_PMIX_CFLAGS : string := "CTI_PALS_PMIX_CFLAGS".
Definition PALS_PMIX_BE_PATH : string := "CTI_PALS_PMIX_BE_PATH".
Definition PALS_PMIX_RANKINFO : string := "CTI_PALS_PMIX_RANKINFO".
Definition PALS_BARRIER_RELEASE_DELAY : string := "CTI_PALS_BARRIER_RELEASE_DELAY".

(** ** Files for the backend *)

(** The process and rank of every entry, by host, in the order of ranks. *)
Fixpoint host_ranks (rank : Z) (procTable : list MPIRProctableElem) (layouts : gmap string (list (Z * Z)))
    : gmap string (list (Z * Z)) :=
  match procTable with
  | [] => layouts
  | e :: procTable' =>
      host_ranks (rank + 1) procTable'
        (<[el_hostname e := default [] (layouts !! el_hostname e) ++ [(el_pid e, rank)]]> layouts)
  end.

Definition pals_entry (hostname : string) (pairs : list (Z * Z)) : res bytes :=
  if (HOST_NAME_MAX <? S (String.length hostname))%nat
  then Throw "hostname too large for layout buffer"
  else Ok (padded_name hostname ++ enc_le 4 (Z.of_nat (length pairs)) ++
           flat_map (λ p : Z * Z, enc_le 4 p.1 ++ enc_le 4 p.2) pairs).

Fixpoint pals_entries (l : list (string * list (Z * Z))) : res bytes :=
  match l with
  | [] => Ok []
  | (hostname, pairs) :: l' => e ← pals_entry hostname pairs; rest ← pals_entries l'; mret (e ++ rest)
  end.

(** The hosts in their order, each with its pairs. *)
Definition layout_hosts (procTable : list MPIRProctableElem) : list (string * list (Z * Z)) :=
  let layouts := host_ranks 0 procTable ∅ in
  map (λ h, (h, default [] (layouts !! h))) (sorted_keys layouts).

Definition createNodeLayoutFile (procTable : list MPIRProctableElem) : res bytes :=
  let hosts := layout_hosts procTable in
  es ← pals_entries hosts; mret (enc_le 4 (Z.of_nat (length hosts)) ++ es).

(** The first rank and the number of ranks of each host. *)
Fixpoint first_ranks (rank : Z) (procTable : list MPIRProctableElem) (info : gmap string (Z * Z))
    : gmap string (Z * Z) :=
  match procTable with
  | [] => info
  | e :: procTable' =>
      first_ranks (rank + 1) procTable'
        (<[el_hostname e := match info !! el_hostname e with
                            | Some (first, num) => (Z.min first rank, num + 1)
                            | None => (rank, 1)
                            end]> info)
  end.

Definition pmix_rank_lines (procTable : list MPIRProctableElem) : list string :=
  let info := first_ranks 0 procTable ∅ in
  map (λ h, let '(first, num) := default (0, 0) (info !! h) in
            h +:+ " " +:+ to_string first +:+ " " +:+ to_string num) (sorted_keys info).

(** ** Shipping: the list of hosts *)

(** The host that the name of the execution host is a name of, up to its first point. *)
Definition find_first_host (hosts : gset string) (execHost : string) : string :=
  let execHostPrefix := match split_at "." execHost with Some (a, _) => a +:+ "." | None => execHost end in
  default "" (List.find (starts_with execHostPrefix) (sorted_elements hosts)).

(** The execution host on a line of its own, then the others without anything between. *)
Definition host_file (hosts : gset string) (execHost : string) : string :=
  let firstHost := find_first_host hosts execHost in
  (if is_empty firstHost then "" else firstHost +:+ nl) +:+
  String.concat "" (filter (λ h, h ≠ firstHost) (sorted_elements hosts)).

(** ** Applications *)

Record PALSApp : Type := MkPALSApp {
  m_frontend : frontend_data;
  m_daemonAppId : Z;
  m_execHost : string;
  m_apId : string;
  m_procTable : list MPIRProctableElem;
  m_binaryRankMap : gmap string (list Z);
  m_hosts : gset string;
  m_apinfoPath : string;
  m_toolPath : string;
  m_attribsPath : string;
  m_stagePath : string;
  m_extraFiles : list string;
  m_pmix : bool;
  getBEDaemonName : string
}.

(** What operations change: m_beDaemonSent and m_atBarrier. *)
Record app_state : Type := MkAppState { as_sys : sys; as_sent : bool; as_atBarrier : bool }.

Definition on_sys {A : Type} (m : M sys A) : M app_state A :=
  zoom as_sys (λ s st, MkAppState s (as_sent st) (as_atBarrier st)) m.

Section Pals.
Context `{Host} `{Commands} `{FrontendDaemon}.

Definition getPMIxUtilPath (fd : frontend_data) : M sys string :=
  pals_pmix ← System.getenv PALS_PMIX;
  match pals_pmix with
  | Some path =>
      if fileHasPerms (Some path) (Z.lor R_OK X_OK) then mret path
      else throw ("PMIx utility set in " +:+ PALS_PMIX +:+ " was not accesible: " +:+ path)
  | None =>
      let result := m_cfg_dir fd +:+ "/cti_pmix_util" in
      if fileHasPerms (Some result) (Z.lor R_OK X_OK) then mret result
      else
        let pmixSource := m_base_dir fd +:+ "/pals/cti_pmix_util.c" in
        if negb (fileHasPerms (Some pmixSource) R_OK)
        then throw ("Could not find PMIx utility source at " +:+ pmixSource)
        else
          cflags ← System.getenv PALS_PMIX_CFLAGS;
          let ccCmd := "cc " +:+ default "-g -lpmix" cflags +:+ " " +:+ pmixSource +:+ " -o " +:+ result in
          let argv := ["bash"; "-c"; ccCmd] in
          output ← Execvp_text argv;
          status ← getExitStatus argv;
          if negb (status =? 0)
          then throw ("Failed to build PMIx helper utility: " +:+ nl +:+ ccCmd +:+ nl +:+
                      "Build the source file at " +:+ pmixSource +:+ " and set " +:+ PALS_PMIX +:+
                      " to the path to the built binary. Build output: " +:+ nl +:+ output)
          else mret result
  end.

Definition palscmd (execHost apId : string) (args : list string) : list string :=
  ["palscmd"; "-n"; execHost; apId] ++ args.

(** Whether the backend is to be sent the ranks of hosts: versions of PMIx before 5.0.10 are
    not asked for them. *)
Definition wants_rank_file (version : Z * Z * Z) (setting : option string) : bool :=
  let '(major, minor, revision) := version in
  let older_version := (major <? 5) || ((major =? 5) && (minor =? 0) && (revision <? 10)) in
  let parse_minor_failed := (major =? 5) && (minor =? 0) && (revision =? 0) in
  first_is "1" setting || (negb (first_is "0" setting) && older_version && negb parse_minor_failed).

(** The file of ranks, when it is wanted and can be written. *)
Definition rank_file (procTable : list MPIRProctableElem) (stagePath : string) : M sys (list string) :=
  catch_all
    (version ← getPmixVersion;
     setting ← System.getenv PALS_PMIX_RANKINFO;
     if wants_rank_file version setting
     then catch_all
            (path ← write_file (stagePath +:+ "/pmix_ranks") "failed to open "
                      (Ok (list_ascii_of_string (unlines (pmix_rank_lines procTable))));
             mret [path]) []
     else mret []) [].

(** The constructor.  [beDaemonName] is the name with its random characters. *)
Definition PALSApp_new (fd : frontend_data) (beDaemonName : string) (info : PalsLaunchInfo) : M sys PALSApp :=
  toolPath ← findToolPath (apId info);
  s ← get;
  stagePath ← lift (req_mkdtemp (sys_trace s) (m_cfg_dir fd +:+ "/palsXXXXXX"));
  layoutFile ← write_file (stagePath +:+ "/slurm_layout") "failed to open path "
                 (createNodeLayoutFile (procTable info));
  made ← request (SUtil (palscmd (execHost info) (apId info) ["mkdir"; "-p"; toolPath]) []) req_util_sync;
  if negb (made : bool) then throw ("failed to create remote toolpath directory for apid " +:+ apId info)
  else
    pmix ← palstat_search (execHost info) (apId info)
             (λ key val, bool_decide (key = "PMI") && bool_decide (val = "pmix"));
    extra ← (if (pmix : bool)
             then util ← getPMIxUtilPath fd;
                  getPalsVersion;;
                  ranks ← rank_file (procTable info) stagePath;
                  mret (util :: ranks)
             else mret []);
    mret (MkPALSApp fd (daemonAppId info) (execHost info) (apId info) (procTable info) (binaryRankMap info)
            (list_to_set (map el_hostname (procTable info))) ("/var/run/palsd/" +:+ apId info +:+ "/apinfo")
            toolPath ("/var/run/palsd/" +:+ apId info) stagePath (layoutFile :: extra) pmix beDaemonName).

(** The destructor.  The staging directory stays, and the daemon keeps the application. *)
Definition PALSApp_delete (isOriginalInstance : bool) (app : PALSApp) : M sys () :=
  if negb isOriginalInstance then mret tt
  else catch_all
         (request (SUtil (palscmd (m_execHost app) (m_apId app) ["rm"; "-rf"; m_toolPath app +:+ "/cti_*"]) [])
            req_util_sync;; mret tt) tt.

Definition isRunning (app : PALSApp) : M sys bool := is_apid_running (m_execHost app) (m_apId app).

Definition getNumPEs (app : PALSApp) : Z := Z.of_nat (length (m_procTable app)).

Definition getNumHosts (app : PALSApp) : Z := Z.of_nat (size (m_hosts app)).

Definition getHostnameList (app : PALSApp) : list string := sorted_elements (m_hosts app).

Fixpoint host_counts (procTable : list MPIRProctableElem) (counts : gmap string Z) : gmap string Z :=
  match procTable with
  | [] => counts
  | e :: procTable' =>
      host_counts procTable' (<[el_hostname e := default 0 (counts !! el_hostname e) + 1]> counts)
  end.

Definition getHostsPlacement (app : PALSApp) : list (string * Z) :=
  let counts := host_counts (m_procTable app) ∅ in
  map (λ h, (h, default 0 (counts !! h))) (sorted_keys counts).

(** A delay before the release, when one is set: what [strtol] makes of it, as [sleep] takes
    it. *)
Definition release_delay (setting : option string) : Z :=
  match setting ≫= Prelude.read_int with
  | Some (seconds, _) => if 0 <? seconds then uint32 (Z.min seconds (2 ^ 63 - 1)) else 0
  | None => 0
  end.

Definition releaseBarrier (app : PALSApp) : M app_state () :=
  st ← get;
  if negb (as_atBarrier st) then throw "application is not at startup barrier"
  else
    on_sys (setting ← System.getenv PALS_BARRIER_RELEASE_DELAY;
            (if 0 <? release_delay setting then sleep (release_delay setting) else mret tt);;
            request (SReleaseMPIR (m_daemonAppId app)) req_done);;
    modify (λ st, MkAppState (as_sys st) (as_sent st) false).

(** *** Packages *)

Definition shipPackage (app : PALSApp) (tarPath : string) : M sys () :=
  destinationName ← lift (cstr_basename tarPath);
  s ← get;
  hostFile ← lift (req_mkdtemp (sys_trace s) (m_stagePath app +:+ "/hostsXXXXXX"));
  finally
    ((if req_open (sys_trace s) hostFile
      then sys_emit (SWrite hostFile (list_ascii_of_string (host_file (m_hosts app) (m_execHost app))))
      else mret tt);;
     sent ← request (SUtil ["palscp"; "-l"; hostFile; "-f"; tarPath; "-d"; destinationName; m_apId app] [])
              req_util_sync;
     if negb (sent : bool) then throw ("failed to ship " +:+ tarPath +:+ " using palscp")
     else
       moved ← request (SUtil (palscmd (m_execHost app) (m_apId app)
                 ["mv"; "/var/run/palsd/" +:+ m_apId app +:+ "/files/" +:+ destinationName; m_toolPath app]) [])
                 req_util_sync;
       if negb (moved : bool) then throw ("failed to move shipped package for apid " +:+ m_apId app)
       else mret tt)
    (sys_emit (SRemove hostFile)).

Definition ship_daemon (app : PALSApp) : M app_state () :=
  let sourcePath := m_be_daemon_path (m_frontend app) in
  if is_empty sourcePath
  then throw ("Unable to locate backend daemon binary. Try setting " +:+ CTI_INSTALL_DIR +:+
              " environment variable to the install location of CTI.")
  else
    let destinationPath := m_cfg_dir (m_frontend app) +:+ "/" +:+ getBEDaemonName app in
    on_sys (copied ← request (SUtil ["cp"; sourcePath; destinationPath] []) req_util_sync;
            if negb (copied : bool) then throw ("failed to copy " +:+ sourcePath +:+ " to " +:+ destinationPath)
            else shipPackage app destinationPath);;
    modify (λ st, MkAppState (as_sys st) true (as_atBarrier st)).

(** *** Tool daemons *)

(** Until the tool is no longer listed, a second apart. *)
Fixpoint await_tool (retries : nat) (app : PALSApp) (toolHelperId : string) : M sys () :=
  match retries with
  | O => mret tt
  | S retries' =>
      listed ← palstat_search (m_execHost app) (m_apId app)
                 (λ key val, bool_decide (key = "Tool ID") && bool_decide (val = toolHelperId));
      if negb (listed : bool) then mret tt
      else sleep 1;; await_tool retries' app toolHelperId
  end.

Definition max_tool_retry : nat := 10.

Definition startDaemon (app : PALSApp) (args : option (list string)) (synchronous : bool) : M app_state () :=
  match args with
  | None => throw "args array is empty!"
  | Some args =>
      st ← get;
      (if as_sent st then mret tt else ship_daemon app);;
      on_sys
        (env ← (if m_pmix app
                then util ← getPMIxUtilPath (m_frontend app);
                     name ← lift (cstr_basename util);
                     mret [PALS_PMIX_BE_PATH +:+ "=" +:+ name]
                else mret []);
         output ← request (SUtil (palscmd (m_execHost app) (m_apId app)
                    ((m_toolPath app +:+ "/" +:+ getBEDaemonName app) :: args)) env) req_util_output;
         if negb synchronous then mret tt
         else match head (text_lines (fd_text output)) ≫= tool_helper_id with
              | None => sleep 1
              | Some toolHelperId => await_tool max_tool_retry app toolHelperId
              end)
  end.

(** *** Files and signals *)

Definition checkFilesExist (app : PALSApp) (paths : gset string) : M sys (gset string) :=
  let num_nodes := getNumHosts app in
  let argv := ["mpiexec"; "--envnone"; "--mem-bind=none"; "--ppn=1"; "-n"; to_string num_nodes;
               m_be_daemon_path (m_frontend app)] ++
              map (λ path, "--file=" +:+ path) (sorted_elements paths) in
  output ← request (SUtil argv ["PALS_LOCAL_LAUNCH=0"]) req_util_output;
  mret (count_paths num_nodes (text_lines (fd_text output)) num_nodes ∅ ∅).

Definition kill (app : PALSApp) (signum : Z) : M sys () :=
  sent ← request (SUtil ["palsig"; "-n"; m_execHost app; "-s"; to_string signum; m_apId app] []) req_util_sync;
  if (sent : bool) then mret tt else throw ("failed to send signal to apid " +:+ m_apId app).

(** ** Making applications *)

(** The application is destroyed again when it cannot be released. *)
Definition release_or_delete (isOriginalInstance held : bool) (app : PALSApp) : M sys () := λ s,
  match releaseBarrier app (MkAppState s false held) with
  | (Ok _, st) => (Ok tt, as_sys st)
  | (Throw e, st) => (PALSApp_delete isOriginalInstance app;; throw e) (as_sys st)
  | (Undef e, st) => (Undef e, as_sys st)
  end.

Definition launch (isOriginalInstance : bool) (fd : frontend_data) (launcherName beDaemonName : string)
    (launcher_argv : option (list string)) (env_list : list string) : M sys PALSApp :=
  info ← launchApp launcherName (fixLaunchArguments (m_base_dir fd) launcher_argv false)
           (fixLaunchEnvironment launcherName env_list);
  app ← PALSApp_new fd beDaemonName info;
  release_or_delete isOriginalInstance (atBarrier info) app;;
  mret app.

(** [launchBarrier] and [launchBarrierNonMpi] *)
Definition launchBarrier (preloadMpirShim : bool) (fd : frontend_data) (launcherName beDaemonName : string)
    (launcher_argv : option (list string)) (env_list : list string) : M sys PALSApp :=
  info ← launchApp launcherName (fixLaunchArguments (m_base_dir fd) launcher_argv preloadMpirShim)
           (fixLaunchEnvironment launcherName env_list);
  PALSApp_new fd beDaemonName info.

Definition registerJob (fd : frontend_data) (beDaemonName apid : string) : M sys PALSApp :=
  info ← attachApp apid; PALSApp_new fd beDaemonName info.
End Pals.
