(* ===== verification/PalsProofs.v ===== *)
(** * PALS: properties

    The layout file and what the backend reads from it, the list of hosts a package is sent
    to, the forms of identifiers, attaching to an application and submitting a script, and
    the arguments of launches. *)

From S2P Require Import Prelude Split Argv Host Wire BackendFiles Daemon Handlers FEIface System SlurmJobs.
From S2P Require Import SlurmLayout ConfigDir Requests PalsJobs PalsApp.

(** ** The layout file *)

(** What the backend reads: the number of hosts; for each its name, the number of its ranks
    and pairs of a process and a rank. *)
Fixpoint decode_hosts (n : nat) (l : bytes) : list (string * list (Z * Z)) :=
  match n with
  | O => []
  | S n' =>
      let num := Z.to_nat (dec_int (drop HOST_NAME_MAX l)) in
      (decode_name l, decode_pairs num (drop (HOST_NAME_MAX + 4) l)) ::
      decode_hosts n' (drop (HOST_NAME_MAX + 4 + 8 * num) l)
  end.

Definition decode_pals (l : bytes) : list (string * list (Z * Z)) :=
  decode_hosts (Z.to_nat (dec_int l)) (drop 4 l).

Definition pair_bytes (p : Z * Z) : bytes := enc_le 4 p.1 ++ enc_le 4 p.2.

Definition pair_fits (p : Z * Z) : Prop := in_int p.1 = true ∧ in_int p.2 = true.

Definition host_fits (p : string * list (Z * Z)) : Prop :=
  name_fits p.1 ∧ Forall pair_fits p.2 ∧ in_int (Z.of_nat (length p.2)) = true.

Lemma length_pairs (pairs : list (Z * Z)) : length (flat_map pair_bytes pairs) = (8 * length pairs)%nat.
Proof.
  induction pairs as [|p pairs IH]; [done|]. cbn [flat_map length]. unfold pair_bytes at 1.
  rewrite !length_app, IH, !length_enc_le. lia.
Qed.

Lemma pair_read (p : Z * Z) (rest : bytes) :
  pair_fits p → dec_int (pair_bytes p ++ rest) = p.1 ∧ dec_int (drop 4 (pair_bytes p ++ rest)) = p.2 ∧
    drop 8 (pair_bytes p ++ rest) = rest.
Proof.
  intros [Hp Hr]. split_and!.
  - unfold pair_bytes. by rewrite <-app_assoc, dec_int_enc.
  - unfold pair_bytes. by rewrite <-app_assoc, drop_encoded, dec_int_enc.
  - rewrite drop_app_length'; [done|]. unfold pair_bytes. by rewrite length_app, !length_enc_le.
Qed.

Lemma decode_pairs_bytes (pairs : list (Z * Z)) (rest : bytes) :
  Forall pair_fits pairs → decode_pairs (length pairs) (flat_map pair_bytes pairs ++ rest) = pairs.
Proof.
  induction 1 as [|p pairs Hp _ IH]; [done|]. cbn [flat_map length decode_pairs]. rewrite <-app_assoc.
  destruct (pair_read p (flat_map pair_bytes pairs ++ rest) Hp) as (-> & -> & ->). rewrite IH. by destruct p.
Qed.

Lemma host_roundtrip (hostname : string) (pairs : list (Z * Z)) (rest : bytes) :
  host_fits (hostname, pairs) →
  ∃ b, pals_entry hostname pairs = Ok b ∧ length b = (HOST_NAME_MAX + 4 + 8 * length pairs)%nat ∧
    decode_name (b ++ rest) = hostname ∧
    dec_int (drop HOST_NAME_MAX (b ++ rest)) = Z.of_nat (length pairs) ∧
    decode_pairs (length pairs) (drop (HOST_NAME_MAX + 4) (b ++ rest)) = pairs.
Proof.
  intros (Hn & Hp & Hl). cbn [fst snd] in *. unfold pals_entry. destruct (Hn) as [Hlen _].
  rewrite (proj2 (Nat.ltb_ge _ _)) by lia. fold pair_bytes. eexists. split; [done|].
  change (flat_map _ pairs) with (flat_map pair_bytes pairs). split.
  { rewrite !length_app, length_enc_le, length_padded_name, length_pairs by done. lia. }
  rewrite <-!app_assoc, decode_padded_name by done. split; [done|].
  rewrite drop_padded_name by done. rewrite <-(Nat.add_0_r HOST_NAME_MAX) at 1. rewrite drop_padded_name by done.
  rewrite drop_0, dec_int_enc, drop_encoded by done. split; [done|]. by apply decode_pairs_bytes.
Qed.

Lemma pals_entries_read (l : list (string * list (Z * Z))) :
  Forall host_fits l → ∃ b, pals_entries l = Ok b ∧ decode_hosts (length l) b = l.
Proof.
  induction 1 as [|[h pairs] l Hf _ (b & E & Hd)]; [by exists []|].
  destruct (host_roundtrip h pairs b Hf) as (e & He & Hlen & Hname & Hnum & Hpairs).
  exists (e ++ b). cbn [pals_entries length decode_hosts]. rewrite He. cbn [mbind res_bind]. rewrite E.
  split; [done|]. rewrite Hnum, Nat2Z.id, Hname, Hpairs. f_equal.
  by rewrite drop_app_length' by lia.
Qed.

(** The processes of a host with their ranks, taken from the table. *)
Definition ranks_on (hostname : string) (procTable : list MPIRProctableElem) : list (Z * Z) :=
  omap (λ p : nat * MPIRProctableElem,
          if bool_decide (el_hostname p.2 = hostname) then Some (el_pid p.2, Z.of_nat p.1) else None)
    (imap pair procTable).

Lemma host_ranks_lookup (procTable : list MPIRProctableElem) (rank : nat) (m : gmap string (list (Z * Z))) (h : string) :
  default [] (host_ranks (Z.of_nat rank) procTable m !! h) =
  default [] (m !! h) ++
  omap (λ p : nat * MPIRProctableElem,
          if bool_decide (el_hostname p.2 = h) then Some (el_pid p.2, Z.of_nat p.1) else None)
    (imap (λ i e, ((rank + i)%nat, e)) procTable).
Proof.
  revert rank m. induction procTable as [|e tbl IH]; intros rank m; cbn [host_ranks imap omap list_omap].
  { by rewrite app_nil_r. }
  replace (Z.of_nat rank + 1) with (Z.of_nat (S rank)) by lia. rewrite IH. cbn [fst snd].
  rewrite Nat.add_0_r. erewrite (imap_ext (_ ∘ S)); [|intros i x _; cbn; by rewrite Nat.add_succ_r].
  case_bool_decide as E.
  - subst h. rewrite lookup_insert_eq. cbn. by rewrite <-app_assoc.
  - by rewrite lookup_insert_ne.
Qed.

Definition table_hosts (procTable : list MPIRProctableElem) : gset string :=
  list_to_set (map el_hostname procTable).

Lemma host_ranks_dom (procTable : list MPIRProctableElem) (rank : Z) (m : gmap string (list (Z * Z))) :
  dom (host_ranks rank procTable m) = dom m ∪ table_hosts procTable.
Proof.
  unfold table_hosts. revert rank m. induction procTable as [|e tbl IH]; intros rank m; cbn; [set_solver|].
  rewrite IH, dom_insert_L. set_solver.
Qed.

Lemma layout_hosts_spec (procTable : list MPIRProctableElem) :
  layout_hosts procTable = map (λ h, (h, ranks_on h procTable)) (sorted_elements (table_hosts procTable)).
Proof.
  unfold layout_hosts, sorted_keys. rewrite host_ranks_dom, dom_empty_L, (left_id_L ∅ union).
  apply map_ext. intros h. f_equal.
  pose proof (host_ranks_lookup procTable 0 ∅ h) as E. rewrite lookup_empty in E. exact E.
Qed.

Lemma ranks_on_fits (h : string) (procTable : list MPIRProctableElem) :
  Forall (λ e, in_int (el_pid e) = true) procTable → Z.of_nat (length procTable) < 2 ^ 31 →
  Forall pair_fits (ranks_on h procTable) ∧ in_int (Z.of_nat (length (ranks_on h procTable))) = true.
Proof.
  intros Hp Hn. assert (length (ranks_on h procTable) ≤ length procTable)%nat as Hlen.
  { unfold ranks_on. transitivity (length (imap pair procTable)); [|by rewrite length_imap].
    induction (imap pair procTable) as [|[i e] l IH]; [done|]. cbn. case_bool_decide; cbn; lia. }
  split; [|unfold in_int, int_min, int_max; lia].
  apply Forall_forall. intros [pid rank] Hin. unfold ranks_on in Hin.
  apply list_elem_of_omap in Hin as ([i e] & Hi & He). apply elem_of_lookup_imap in Hi as (j & e' & [= -> ->] & Hj).
  cbn in He. case_bool_decide; [|done]. injection He as <- <-. split; cbn [fst snd].
  - by apply (Forall_lookup_1 _ _ _ _ Hp Hj).
  - apply lookup_lt_Some in Hj. unfold in_int, int_min, int_max. lia.
Qed.

(** The hosts of a table fit into a layout file. *)
Lemma layout_hosts_fit (procTable : list MPIRProctableElem) :
  Forall (λ e, name_fits (el_hostname e) ∧ in_int (el_pid e) = true) procTable →
  Z.of_nat (length procTable) < 2 ^ 31 →
  Forall host_fits (layout_hosts procTable) ∧ in_int (Z.of_nat (length (layout_hosts procTable))) = true.
Proof.
  intros [Hh Hp]%Forall_and Hn. split.
  - rewrite layout_hosts_spec. apply Forall_map, Forall_forall. intros h Hin.
    apply elem_of_sorted_elements, elem_of_list_to_set, list_elem_of_fmap in Hin as (e & -> & He).
    destruct (ranks_on_fits (el_hostname e) procTable Hp Hn). split_and!; [|done..].
    by apply (proj1 (Forall_forall _ _) Hh).
  - assert (length (layout_hosts procTable) ≤ length procTable)%nat as Hlen.
    { rewrite layout_hosts_spec, length_map. unfold sorted_elements. rewrite merge_sort_Permutation.
      rewrite <-(length_map el_hostname procTable). apply submseteq_length, NoDup_submseteq; [apply NoDup_elements|].
      intros h. unfold table_hosts. by rewrite elem_of_elements, elem_of_list_to_set. }
    unfold in_int, int_min, int_max. lia.
Qed.

(** What the backend reads from the layout file of a PALS application is every host once, in
    order, with exactly the processes and ranks that the process table has on it. *)
Theorem pals_layout_read_back (procTable : list MPIRProctableElem) :
  Forall (λ e, name_fits (el_hostname e) ∧ in_int (el_pid e) = true) procTable →
  Z.of_nat (length procTable) < 2 ^ 31 →
  ∃ b, createNodeLayoutFile procTable = Ok b ∧
    decode_pals b = map (λ h, (h, ranks_on h procTable)) (sorted_elements (table_hosts procTable)).
Proof.
  intros Hf Hn. destruct (layout_hosts_fit procTable Hf Hn) as [Hfits Hlen].
  rewrite <-layout_hosts_spec. unfold createNodeLayoutFile.
  destruct (pals_entries_read _ Hfits) as (b & E & Hd). rewrite E. eexists. split; [done|].
  unfold decode_pals. by rewrite dec_int_enc, drop_encoded, Nat2Z.id by done.
Qed.

(** ** The list of hosts of a package *)

Definition other_hosts (hosts : gset string) (execHost : string) : list string :=
  filter (λ h, h ≠ find_first_host hosts execHost) (sorted_elements hosts).

Definition host_name (h : string) : Prop := h ≠ "" ∧ no_char "010" h = true.

Lemma no_char_concat (c : ascii) (l : list string) :
  Forall (λ h, no_char c h = true) l → no_char c (String.concat "" l) = true.
Proof.
  induction 1 as [|h l Hh _ IH]; [done|]. destruct l as [|h' l]; [done|].
  change (String.concat "" (h :: h' :: l)) with (h +:+ "" +:+ String.concat "" (h' :: l)).
  by rewrite !no_char_app, Hh, IH.
Qed.

Lemma text_lines_single (s : string) :
  no_char "010" s = true → text_lines s = if is_empty s then [] else [s].
Proof.
  induction s as [|c s IH]; [done|]. cbn. intros [Hc%bool_decide_eq_true Hs]%andb_true_iff.
  rewrite decide_False by done. rewrite IH by done. by destruct s.
Qed.

Lemma concat_longer (l : list string) (h : string) :
  Forall host_name l → h ∈ l → (1 < length l)%nat → (String.length h < String.length (String.concat "" l))%nat.
Proof.
  intros Hl. revert h.
  assert (∀ x l, String.concat "" (x :: l) = x +:+ String.concat "" l) as Hcons.
  { intros x [|y l']; [by rewrite string_app_nil_r|done]. }
  assert (∀ l h, h ∈ l → (String.length h ≤ String.length (String.concat "" l))%nat) as Hle.
  { intros l' h. induction 1 as [h l'|h x l' _ IH]; rewrite Hcons, string_length_app; lia. }
  assert (∀ x, host_name x → (0 < String.length x)%nat) as Hpos.
  { intros x [Hx _]. destruct x; [done|cbn; lia]. }
  destruct Hl as [|x l Hx Hl]; [intros h ?%elem_of_nil; done|].
  intros h Hin Hlen. rewrite Hcons, string_length_app. destruct Hl as [|y l Hy Hl]; [cbn in Hlen; lia|].
  apply elem_of_cons in Hin as [->|Hin].
  - pose proof (Hle (y :: l) y (list_elem_of_here _ _)). pose proof (Hpos y Hy). lia.
  - pose proof (Hle _ _ Hin). pose proof (Hpos x Hx). lia.
Qed.

Section HostFile.
Context (hosts : gset string) (execHost : string) (Hhosts : set_Forall host_name hosts).
Abbreviation first := (find_first_host hosts execHost).
Abbreviation others := (other_hosts hosts execHost).

Lemma elem_of_others (h : string) : h ∈ others ↔ h ∈ hosts ∧ h ≠ first.
Proof. unfold other_hosts. rewrite list_elem_of_filter, elem_of_sorted_elements. tauto. Qed.

Lemma others_named : Forall host_name others.
Proof. apply Forall_forall. intros h [Hh _]%elem_of_others. by apply Hhosts. Qed.

Lemma first_named : first = "" ∨ host_name first.
Proof.
  unfold find_first_host. destruct (List.find _ _) as [h|] eqn:E; [|by left]. right.
  apply List.find_some in E as [Hin%list_elem_of_In _]. apply Hhosts. by apply elem_of_sorted_elements.
Qed.

Lemma host_file_text :
  text_lines (host_file hosts execHost) =
  (if is_empty first then [] else [first]) ++
  (if is_empty (String.concat "" others) then [] else [String.concat "" others]).
Proof.
  unfold host_file. fold others.
  assert (no_char "010" (String.concat "" others) = true) as Hcat.
  { apply no_char_concat. eapply Forall_impl; [exact others_named|]. by intros h [_ ?]. }
  destruct (is_empty first) eqn:Ef; [by apply text_lines_single|].
  destruct first_named as [E|[_ Hf]]; [by rewrite E in Ef|]. rewrite string_app_assoc. unfold nl.
  cbn [String.append]. rewrite text_lines_app by done. cbn [app]. f_equal. by apply text_lines_single.
Qed.

Lemma others_joined (h : string) :
  (1 < length others)%nat → h ∈ others → h ∉ text_lines (host_file hosts execHost).
Proof.
  intros Hlen Hh. pose proof (concat_longer others h others_named Hh Hlen) as Hlt.
  rewrite host_file_text, elem_of_app. apply elem_of_others in Hh as [_ Hne]. intros [Hin|Hin].
  - destruct (is_empty first); [by apply elem_of_nil in Hin|]. by apply list_elem_of_singleton in Hin.
  - destruct (is_empty (String.concat "" others)); [by apply elem_of_nil in Hin|].
    apply list_elem_of_singleton in Hin as ->. lia.
Qed.

Lemma few_listed (h : string) :
  (length others ≤ 1)%nat → h ∈ hosts → h ∈ text_lines (host_file hosts execHost).
Proof.
  intros Hlen Hh. rewrite host_file_text. apply elem_of_app. destruct (Hhosts h Hh) as [Hn _].
  destruct (decide (h = first)) as [<-|Hne].
  - left. destruct h; [done|]. apply list_elem_of_here.
  - right. assert (h ∈ others) as Hin by by apply elem_of_others.
    destruct others as [|x [|y l]]; [by apply elem_of_nil in Hin| |cbn in Hlen; lia].
    apply list_elem_of_singleton in Hin as <-. cbn. destruct h; [done|]. apply list_elem_of_here.
Qed.
End HostFile.

(** The file that lists the hosts for palscp has a line for every host exactly when there is
    at most one host beside the execution host: the names of the others are written without
    anything between them, so that with two or more none of them is a line of its own. *)
Theorem host_file_lines (hosts : gset string) (execHost : string) :
  set_Forall host_name hosts →
  ((∀ h, h ∈ hosts → h ∈ text_lines (host_file hosts execHost)) ↔ (length (other_hosts hosts execHost) ≤ 1)%nat) ∧
  ((1 < length (other_hosts hosts execHost))%nat →
   ∀ h, h ∈ other_hosts hosts execHost → h ∉ text_lines (host_file hosts execHost)).
Proof.
  intros Hhosts. split; [|intros Hlen h; by apply others_joined]. split.
  - intros Hall. destruct (le_lt_dec (length (other_hosts hosts execHost)) 1) as [?|Hlen]; [done|]. exfalso.
    destruct (other_hosts hosts execHost) as [|h l] eqn:Eo; [cbn in Hlen; lia|].
    assert (h ∈ other_hosts hosts execHost) as Hh by (rewrite Eo; apply list_elem_of_here).
    apply (others_joined hosts execHost Hhosts h); [by rewrite Eo|done|].
    apply Hall. by apply elem_of_others in Hh as [? _].
  - intros Hlen h. by apply few_listed.
Qed.

(** ** Identifiers of applications *)

Definition alnum_group (n : nat) (g : string) : Prop :=
  String.length g = n ∧ string_forall is_alnum g = true.

Lemma take_alnum_spec (n : nat) (s r : string) :
  take_alnum n s = Some r ↔ ∃ g, s = g +:+ r ∧ alnum_group n g.
Proof.
  revert s. induction n as [|n IH]; intros s; cbn [take_alnum].
  - split; [intros [= ->]; by exists ""|]. intros ([|c g] & -> & Hl & _); [done|by cbn in Hl].
  - destruct s as [|c s]; [split; [done|]; intros ([|x g] & E & Hl & _); [by cbn in Hl|done]|].
    destruct (is_alnum c) eqn:Ec.
    + rewrite IH. split.
      * intros (g & -> & Hl & Hg). exists (String c g). split; [done|]. split; cbn; [by rewrite Hl|by rewrite Ec].
      * intros ([|x g] & E & Hl & Hg); [by cbn in Hl|]. injection E as -> ->. cbn in Hl, Hg.
        apply andb_true_iff in Hg as [_ Hg]. exists g. split; [done|]. split; [lia|done].
    + split; [done|]. intros ([|x g] & E & Hl & Hg); [by cbn in Hl|]. injection E as -> ->. cbn in Hg.
      by rewrite Ec in Hg.
Qed.

Lemma uuid_groups_spec (n : nat) (groups : list nat) (s r : string) :
  uuid_groups (n :: groups) s = Some r ↔
  ∃ gs, s = join "-" gs +:+ r ∧ Forall2 alnum_group (n :: groups) gs.
Proof.
  revert n s. induction groups as [|m groups IH]; intros n s.
  - cbn [uuid_groups]. rewrite take_alnum_spec. split.
    + intros (g & -> & Hg). exists [g]. split; [done|]. constructor; [done|constructor].
    + intros (gs & -> & Hgs). inversion Hgs as [|? g ? ? Hg Hnil]; subst. inversion Hnil; subst. by exists g.
  - change (uuid_groups (n :: m :: groups) s) with
      (match take_alnum n s with
       | Some (String c s') => if bool_decide (c = "-"%char) then uuid_groups (m :: groups) s' else None
       | _ => None
       end). split.
    + destruct (take_alnum n s) as [[|c s']|] eqn:E; [done| |done]. case_bool_decide as Ec; [|done]. subst c.
      apply take_alnum_spec in E as (g & -> & Hg). intros (gs & -> & Hgs)%IH. exists (g :: gs).
      split; [|by constructor]. inversion Hgs; subst. by rewrite join_cons, string_app_assoc.
    + intros (gs & -> & Hgs). inversion Hgs as [|? g ? gs' Hg Hrest]; subst.
      assert (take_alnum n (join "-" (g :: gs') +:+ r) = Some (String "-" (join "-" gs' +:+ r))) as ->.
      { apply take_alnum_spec. exists g. split; [|done]. inversion Hrest; subst.
        by rewrite join_cons, string_app_assoc. }
      rewrite bool_decide_true by done. apply IH. by exists gs'.
Qed.

Lemma pals_apid_groups (apid : string) :
  is_pals_apid apid = true ↔
  ∃ groups, apid = join "-" groups ∧ Forall2 alnum_group [8; 4; 4; 4; 12]%nat groups.
Proof.
  unfold is_pals_apid, uuid_rest. rewrite bool_decide_eq_true, uuid_groups_spec.
  by setoid_rewrite string_app_nil_r.
Qed.

(** An identifier is taken for that of a PALS application exactly when it consists of groups
    of 8, 4, 4, 4 and 12 letters and digits with hyphens between them. *)
Theorem pals_apid_form (apid : string) :
  is_pals_apid apid = true ↔
  ∃ groups, apid = join "-" groups ∧ Forall2 alnum_group [8; 4; 4; 4; 12]%nat groups.
Proof. apply pals_apid_groups. Qed.

Lemma string_forall_join (p : ascii → bool) (d : ascii) (fs : list string) :
  p d = true → Forall (λ f, string_forall p f = true) fs → string_forall p (join d fs) = true.
Proof.
  intros Hd. induction 1 as [|f fs Hf Hfs IH]; [done|]. destruct Hfs as [|g fs Hg Hfs]; [done|].
  rewrite join_cons, string_forall_app, Hf. cbn [string_forall]. by rewrite Hd.
Qed.

Lemma pals_apid_no_colon (apid : string) : is_pals_apid apid = true → split_last ":" apid = None.
Proof.
  intros (gs & -> & Hgs)%pals_apid_groups. unfold split_last.
  rewrite (proj2 (find_last_not_of_None _ _)); [done|]. apply string_forall_join; [done|].
  induction Hgs as [|n g ns gs [_ Hg] _ IH]; constructor; [|done].
  eapply string_forall_impl; [|exact Hg]. intros c Hc. apply bool_decide_eq_true. by intros ->.
Qed.

(** ** Attaching *)

Definition word (s : string) : Prop := s ≠ "" ∧ string_forall (λ c, negb (is_space c)) s = true.

(** A line of palstat for a process. *)
Definition elem_line (e : MPIRProctableElem) : string :=
  el_hostname e +:+ " " +:+ el_executable e +:+ " " +:+ to_string (el_pid e).

Definition elem_fits (e : MPIRProctableElem) : Prop :=
  word (el_hostname e) ∧ word (el_executable e) ∧ in_int (el_pid e) = true ∧
  no_char "255" (elem_line e) = true.

Lemma take_word_stop (w t : string) (c : ascii) :
  string_forall (λ c, negb (is_space c)) w = true → is_space c = true → take_word (w +:+ String c t) = w.
Proof.
  intros Hw Hc. induction w as [|x w IH]; cbn; [by rewrite Hc|].
  cbn in Hw. apply andb_true_iff in Hw as [->%negb_true_iff Hw]. f_equal. by apply IH.
Qed.

Lemma word_taken (w t : string) :
  word w →
  take_word (skip_space (w +:+ " " +:+ t)) = w ∧
  skip_space (drop_word (skip_space (w +:+ " " +:+ t))) = skip_space t.
Proof.
  intros [Hne Hw]. assert (skip_space (w +:+ " " +:+ t) = w +:+ " " +:+ t) as ->.
  { rewrite skip_space_app; by rewrite skip_space_no_space. }
  assert (take_word (w +:+ " " +:+ t) = w) as Ht by by apply take_word_stop.
  unfold drop_word. rewrite Ht, drop_str_app. done.
Qed.

Lemma number_word (z : Z) : take_word (skip_space (to_string z)) = to_string z.
Proof.
  assert (string_forall (λ c, negb (is_space c)) (to_string z) = true) as Hw.
  { eapply string_forall_impl; [|apply to_string_chars]. intros c [Hc| ->%bool_decide_eq_true]%orb_true_iff; [|done].
    destruct (is_space c) eqn:E; [|done]. pose proof (skip_space_digit c "" Hc) as Hs. cbn in Hs. by rewrite E in Hs. }
  by rewrite skip_space_no_space, take_word_no_space.
Qed.

Lemma parse_elem_line (e : MPIRProctableElem) : elem_fits e → parse_elem (elem_line e) = Ok e.
Proof.
  intros (Hh & Hx & Hp & _). unfold parse_elem, elem_line.
  destruct (word_taken _ (el_executable e +:+ " " +:+ to_string (el_pid e)) Hh) as [-> ->].
  destruct (word_taken _ (to_string (el_pid e)) Hx) as [-> ->].
  rewrite number_word, stoi_to_string by done. by destruct e.
Qed.

Lemma parse_elems_lines (procTable : list MPIRProctableElem) (rest : list string) :
  Forall elem_fits procTable →
  parse_elems (map elem_line procTable ++ rest) = (t ← parse_elems rest; mret (procTable ++ t)).
Proof.
  induction 1 as [|e tbl He _ IH]; [by cbn; destruct (parse_elems rest)|]. cbn [map app parse_elems].
  rewrite parse_elem_line, IH by done. cbn. by destruct (parse_elems rest).
Qed.

Lemma word_no_newline (w : string) : word w → no_char "010" w = true.
Proof.
  intros [_ Hw]. eapply string_forall_impl; [|exact Hw]. intros c Hc. apply bool_decide_eq_true. by intros ->.
Qed.

Lemma elem_line_clean (e : MPIRProctableElem) : elem_fits e → no_char "010" (elem_line e) = true.
Proof.
  intros (Hh & Hx & _). unfold elem_line. by rewrite !no_char_app, (word_no_newline _ Hh), (word_no_newline _ Hx), to_string_no_char.
Qed.

Section Attach.
Context `{Host} `{Commands} `{FrontendDaemon}.

Definition palstat (args : list string) : list string := "palstat" :: args.

(** palstat lists an application as running on its host, and prints [table_text] for it. *)
Definition palstat_answers (execHost apid state_text table_text : string) : Prop :=
  existsb says_running (text_lines (fd_text state_text)) = true ∧
  (∀ trace, c_output trace (palstat ["-n"; execHost; apid]) = Some state_text) ∧
  (∀ trace, c_wait trace (palstat ["-n"; execHost; apid]) = WExited 0) ∧
  (∀ trace, c_output trace (palstat ["-n"; execHost; "-p"; apid]) = Some table_text).

Definition attach_trace (execHost apid : string) : list sys_event :=
  [SRun (palstat ["-n"; execHost; apid]); SRegister; SRun (palstat ["-n"; execHost; "-p"; apid])].

(** Everything up to the table. *)
Lemma attach_run (s : sys) (execHost apid state_text table_text : string) (id : Z) :
  sys_env s !! PALS_EXEC_HOST = Some execHost → is_pals_apid apid = true →
  palstat_answers execHost apid state_text table_text → (∀ trace, req_id trace = Ok id) →
  attachApp apid s =
  (table ← lift (parse_elems (tail (text_lines (fd_text table_text))));
   if bool_decide (table = [])
   then throw ("Failed to get job layout for job ID " +:+ apid +:+ ". Check with `palstat -n " +:+
               execHost +:+ " --proctable " +:+ apid +:+ "`")
   else mret (MkPalsInfo id execHost apid table (generateBinaryRankMap table) false) : M sys PalsLaunchInfo)
  (MkSys (sys_env s) (sys_trace s ++ attach_trace execHost apid)).
Proof.
  intros Hhost Hapid (Hrun & Hout & Hwait & Htable) Hid. unfold attachApp.
  rewrite (bind_run_Ok _ _ s (execHost, apid) s).
  2: { unfold find_application. rewrite pals_apid_no_colon, Hapid by done.
       unfold getenv, gets, mbind, M_bind. by rewrite Hhost. }
  rewrite (bind_run_Ok _ _ s true (MkSys (sys_env s) (sys_trace s ++ [SRun (palstat ["-n"; execHost; apid])]))).
  2: { unfold is_apid_running, run_lines, Execvp, getExitStatus, mbind, M_bind, get. change ("palstat" :: _) with (palstat ["-n"; execHost; apid]).
       rewrite Hout. cbn -[text_lines fd_text says_running]. rewrite Hwait. cbn -[text_lines fd_text says_running].
       by rewrite Hrun. }
  cbn [negb]. set (s1 := MkSys _ _).
  rewrite (bind_run_Ok _ _ s1 id (MkSys (sys_env s1) (sys_trace s1 ++ [SRegister]))).
  2: { by rewrite request_run, Hid. }
  set (s2 := MkSys _ _).
  rewrite (bind_run_Ok _ _ s2 (text_lines (fd_text table_text))
    (MkSys (sys_env s2) (sys_trace s2 ++ [SRun (palstat ["-n"; execHost; "-p"; apid])]))).
  2: { unfold Execvp, mbind, M_bind, get. change ("palstat" :: _) with (palstat ["-n"; execHost; "-p"; apid]).
       by rewrite Htable. }
  unfold s2, s1. cbn [sys_trace sys_env]. by rewrite <-!app_assoc.
Qed.

(** Attaching to an application that runs reads its processes, one per line after a header,
    exactly as palstat prints them, with the rank map of their table; the application is
    registered with the daemon and is not at the barrier. *)
Theorem attach_reads_table (s : sys) (execHost apid state_text header : string) (id : Z)
    (procTable : list MPIRProctableElem) :
  let table_text := unlines (header :: map elem_line procTable) in
  sys_env s !! PALS_EXEC_HOST = Some execHost → is_pals_apid apid = true →
  palstat_answers execHost apid state_text table_text → (∀ trace, req_id trace = Ok id) →
  no_char "010" header = true → no_char "255" header = true →
  Forall elem_fits procTable → procTable ≠ [] →
  attachApp apid s =
  (Ok (MkPalsInfo id execHost apid procTable (generateBinaryRankMap procTable) false),
   MkSys (sys_env s) (sys_trace s ++ attach_trace execHost apid)).
Proof.
  intros table_text Hhost Hapid Hans Hid Hnl Hff Hfits Hne.
  rewrite (attach_run s execHost apid state_text table_text id) by done. unfold table_text.
  rewrite fd_text_id, text_lines_unlines.
  - cbn [tail]. pose proof (parse_elems_lines procTable [] Hfits) as E. rewrite app_nil_r in E. rewrite E.
    unfold lift, mbind, M_bind. cbn. rewrite app_nil_r. by rewrite bool_decide_false.
  - constructor; [done|]. apply Forall_map. eapply Forall_impl; [exact Hfits|]. apply elem_line_clean.
  - apply no_char_unlines; [done|]. constructor; [done|]. apply Forall_map.
    eapply Forall_impl; [exact Hfits|]. by intros e (_ & _ & _ & ?).
Qed.

(** An empty line after the processes that palstat prints makes attaching throw instead of
    ending the table, with the application left registered with the daemon. *)
Theorem blank_line_ends_attach (s : sys) (execHost apid state_text header : string) (id : Z)
    (procTable : list MPIRProctableElem) :
  let table_text := unlines (header :: map elem_line procTable ++ [""]) in
  sys_env s !! PALS_EXEC_HOST = Some execHost → is_pals_apid apid = true →
  palstat_answers execHost apid state_text table_text → (∀ trace, req_id trace = Ok id) →
  no_char "010" header = true → no_char "255" header = true → Forall elem_fits procTable →
  attachApp apid s =
  (Throw "stoi", MkSys (sys_env s) (sys_trace s ++ attach_trace execHost apid)).
Proof.
  intros table_text Hhost Hapid Hans Hid Hnl Hff Hfits.
  rewrite (attach_run s execHost apid state_text table_text id) by done. unfold table_text.
  rewrite fd_text_id, text_lines_unlines.
  - cbn [tail]. by rewrite parse_elems_lines.
  - constructor; [done|]. apply Forall_app. split; [|by repeat constructor]. apply Forall_map.
    eapply Forall_impl; [exact Hfits|]. apply elem_line_clean.
  - apply no_char_unlines; [done|]. constructor; [done|]. apply Forall_app. split; [|by repeat constructor].
    apply Forall_map. eapply Forall_impl; [exact Hfits|]. by intros e (_ & _ & _ & ?).
Qed.
End Attach.

(** ** Submitting scripts *)

Section Submit.
Context `{Host} `{Commands}.

(** Waiting for the application of a script that was submitted gives up at the first answer in
    which the job has no host, because it is still queued for instance: after three seconds, and
    even when the timeout is disabled, although the wait is meant to go on. *)
Theorem queued_job_ends_wait (fuel : nat) (scriptPath out jobId queue_text state comment : string)
    (launcher_args env_list : list string) (s : sys) :
  let argv := qsub_argv scriptPath launcher_args env_list in
  let qstat := ["qstat"; "-f"; jobId] in
  c_output (sys_trace s) argv = Some out → head (text_lines (fd_text out)) = Some jobId →
  c_wait (sys_trace s ++ [SRun argv]) argv = WExited 0 →
  (∀ trace, c_output trace qstat = Some queue_text) → (∀ trace, c_wait trace qstat = WExited 0) →
  job_details (text_lines (fd_text queue_text)) = (state, "", comment) → comment ≠ "" → fuel ≠ O →
  submitJobScript fuel scriptPath launcher_args env_list s =
  (Throw ("Failed to find exec_host for " +:+ jobId +:+ ". PBS reported: " +:+ nl +:+ comment +:+ nl +:+
          "The job may still be queued."),
   MkSys (sys_env s) (sys_trace s ++ [SRun argv; SSleep 3; SRun qstat])).
Proof.
  intros argv qstat Hout Hjob Hwait Hq Hqw Hdetails Hcomment Hfuel. unfold submitJobScript. fold argv. clearbody argv.
  set (s1 := MkSys (sys_env s) (sys_trace s ++ [SRun argv])).
  rewrite (bind_run_Ok _ _ s (text_lines (fd_text out), 0) s1).
  2: { unfold run_lines, Execvp, getExitStatus, mbind, M_bind, get. rewrite Hout.
       cbn -[text_lines fd_text]. rewrite Hwait. done. }
  destruct (text_lines (fd_text out)) as [|line lines]; [done|]. injection Hjob as ->. cbn [negb Z.eqb orb].
  rewrite bool_decide_false by done. cbn [head default from_option id].
  rewrite (bind_run_Ok _ _ s1 (sys_env s !! PALS_DISABLE_TIMEOUT) s1) by done.
  set (disable := bool_decide _ && _). set (rounds := if disable then fuel else max_launch_retry).
  destruct rounds as [|left] eqn:Er.
  { unfold rounds in Er. destruct disable; [done|]. unfold max_launch_retry in Er. lia. }
  cbn [await_application]. rewrite (bind_run_Ok _ _ s1 tt (MkSys (sys_env s1) (sys_trace s1 ++ [SSleep 3]))) by done.
  apply bind_run_Throw. unfold find_job_host_outside_allocation, get_job_details. fold qstat. clearbody qstat.
  rewrite (bind_run_Ok _ _ _ (state, "", comment)
    (MkSys (sys_env s) (sys_trace s ++ [SRun argv; SSleep 3; SRun qstat]))).
  - cbn [is_empty]. destruct comment; [done|]. done.
  - unfold run_lines, Execvp, getExitStatus, mbind, M_bind, get. rewrite Hq. cbn -[text_lines fd_text job_details].
    rewrite Hqw. cbn -[text_lines fd_text job_details]. rewrite Hdetails, <-!app_assoc. done.
Qed.
End Submit.

(** ** Arguments of launches *)

(** Arguments as they are given: one that has nothing to do with LD_PRELOAD, or a value for it
    in one argument or in two. *)
Inductive launch_arg : Type := Plain (arg : string) | Joined (value : string) | Parted (value : string).

Definition given (a : launch_arg) : list string :=
  match a with
  | Plain arg => [arg]
  | Joined value => ["--env=LD_PRELOAD=" +:+ value]
  | Parted value => ["--env"; "LD_PRELOAD=" +:+ value]
  end.

Definition arg_ok (a : launch_arg) : Prop :=
  match a with
  | Plain arg => starts_with "--env=LD_PRELOAD=" arg = false ∧ starts_with "LD_PRELOAD=" arg = false
  | Joined value | Parted value => no_char "=" value = true
  end.

Definition preloads (a : launch_arg) : bool := match a with Plain _ => false | _ => true end.

Definition fixed_arg (preloadPath : string) (a : launch_arg) : list string :=
  match a with
  | Plain arg => [arg]
  | Joined value | Parted value => preload_args preloadPath value
  end.

Lemma split3_joined (value : string) :
  no_char "=" value = true → (split3 ("--env=LD_PRELOAD=" +:+ value) "=").2 = value.
Proof.
  intros Hv. unfold split3. change ("--env=LD_PRELOAD=" +:+ value) with (join "=" ["--env"; "LD_PRELOAD"; value]).
  change 3%nat with (length ["--env"; "LD_PRELOAD"; value]). unfold split_string.
  rewrite getlines_join; [done|done|]. by repeat constructor.
Qed.

Lemma split2_parted (value : string) :
  no_char "=" value = true → (split2 ("LD_PRELOAD=" +:+ value) "=").2 = value.
Proof.
  intros Hv. unfold split2. change ("LD_PRELOAD=" +:+ value) with (join "=" ["LD_PRELOAD"; value]).
  change 2%nat with (length ["LD_PRELOAD"; value]). unfold split_string.
  rewrite getlines_join; [done|done|]. by repeat constructor.
Qed.

Lemma given_not_value (args : list launch_arg) (x : string) (rest : list string) :
  Forall arg_ok args → flat_map given args = x :: rest → starts_with "LD_PRELOAD=" x = false.
Proof. destruct 1 as [|[arg|v|v] args Ha _]; [done|..]; intros [= <- _]; [by destruct Ha|done..]. Qed.

Lemma fix_preload_spec (preloadPath : string) (args : list launch_arg) :
  Forall arg_ok args →
  fix_preload preloadPath (flat_map given args) = (flat_map (fixed_arg preloadPath) args, existsb preloads args).
Proof.
  induction 1 as [|a args Ha Hargs IH]; [done|]. destruct a as [arg|value|value]; cbn [flat_map given app].
  - destruct Ha as [H1 H2]. cbn [fix_preload]. rewrite H1. destruct (flat_map given args) as [|next rest] eqn:E.
    + injection IH as Hf Hx. cbn [flat_map fixed_arg existsb preloads]. by rewrite <-Hf, <-Hx.
    + rewrite (given_not_value _ _ _ Hargs E), andb_false_r, IH. done.
  - cbn [fix_preload]. rewrite starts_with_app, IH, split3_joined by done. done.
  - cbn [fix_preload]. change (starts_with "--env=LD_PRELOAD=" "--env") with false.
    change (starts_with "--en" "--env") with true. cbn [andb].
    rewrite starts_with_app, IH, split2_parted by done. done.
Qed.

(** The arguments of a launch with the barrier library: every value of LD_PRELOAD, in either
    form, gets the library in front and is saved in a variable of its own; all other arguments
    stay as they are and in their places; the library is named first when there is no value. *)
Theorem launch_arguments `{Host} (baseDir preloadPath : string) (args : list launch_arg) :
  accessiblePath (baseDir +:+ "/lib/libctipreloadpals.so") = Ok preloadPath → preloadPath ≠ "" →
  Forall arg_ok args →
  fixLaunchArguments baseDir (Some (flat_map given args)) true =
  (if existsb preloads args then [] else ["--env=LD_PRELOAD=" +:+ preloadPath]) ++
  flat_map (fixed_arg preloadPath) args.
Proof.
  intros Hpath Hne Hargs. unfold fixLaunchArguments. rewrite Hpath, fix_preload_spec by done.
  destruct preloadPath; [done|]. cbn [is_empty]. by destruct (existsb preloads args).
Qed.

(** ** Examples *)

Definition demo_pals_table : list MPIRProctableElem :=
  [MkElem 10 "nid2" "/bin/a"; MkElem 20 "nid1" "/bin/a"; MkElem 11 "nid2" "/bin/b"].

Lemma pals_layout_read_back_witness :
  ∃ b, createNodeLayoutFile demo_pals_table = Ok b ∧
    decode_pals b = [("nid1", [(20, 1)]); ("nid2", [(10, 0); (11, 2)])].
Proof.
  apply (pals_layout_read_back demo_pals_table).
  - repeat (apply Forall_cons_2; [split; [split; [vm_compute; repeat constructor|reflexivity]|reflexivity]|]).
    apply Forall_nil_2.
  - reflexivity.
Defined.

(** Three hosts: the two beside the execution host are joined. *)
Lemma host_file_lines_witness :
  let hosts : gset string := {["nid1"; "nid2"; "nid3"]} in
  text_lines (host_file hosts "nid1") = ["nid1"; "nid2nid3"] ∧
  ((∀ h, h ∈ hosts → h ∈ text_lines (host_file hosts "nid1")) ↔ (length (other_hosts hosts "nid1") ≤ 1)%nat) ∧
  ((1 < length (other_hosts hosts "nid1"))%nat →
   ∀ h, h ∈ other_hosts hosts "nid1" → h ∉ text_lines (host_file hosts "nid1")).
Proof.
  intros hosts. split; [vm_compute; reflexivity|].
  apply (host_file_lines hosts "nid1"). apply (bool_decide_unpack _). vm_compute. exact I.
Defined.

Definition demo_apid : string := "12345678-abcd-ef01-2345-0123456789ab".

Definition demo_table_text (end_lines : list string) : string :=
  unlines ("HOST EXECUTABLE PID" :: map elem_line demo_pals_table ++ end_lines).

Definition demo_palstat (end_lines : list string) : Commands :=
  scripted [(palstat ["-n"; "nid2"; demo_apid], ("State: running" +:+ nl, 0));
            (palstat ["-n"; "nid2"; "-p"; demo_apid], (demo_table_text end_lines, 0))].

Lemma demo_elems_fit : Forall elem_fits demo_pals_table.
Proof. repeat (apply Forall_cons_2; [repeat split; done|]). apply Forall_nil_2. Qed.

Lemma demo_palstat_answers (end_lines : list string) :
  let C := demo_palstat end_lines in
  palstat_answers "nid2" demo_apid ("State: running" +:+ nl) (demo_table_text end_lines).
Proof. intros C. repeat split. Qed.

Lemma attach_reads_table_witness :
  let C := demo_palstat [] in let D := demo_frontend_daemon (λ _, "") (λ _, true) "" "" in
  attachApp demo_apid (MkSys {[PALS_EXEC_HOST := "nid2"]} []) =
  (Ok (MkPalsInfo 1 "nid2" demo_apid demo_pals_table (generateBinaryRankMap demo_pals_table) false),
   MkSys {[PALS_EXEC_HOST := "nid2"]} (attach_trace "nid2" demo_apid)).
Proof.
  intros C D. pose proof (demo_palstat_answers []) as Ha. unfold demo_table_text in Ha. rewrite app_nil_r in Ha.
  exact (attach_reads_table (MkSys {[PALS_EXEC_HOST := "nid2"]} []) "nid2" demo_apid ("State: running" +:+ nl)
    "HOST EXECUTABLE PID" 1 demo_pals_table eq_refl eq_refl Ha (λ _, eq_refl) eq_refl eq_refl demo_elems_fit
    ltac:(discriminate)).
Defined.

Lemma blank_line_ends_attach_witness :
  let C := demo_palstat [""] in let D := demo_frontend_daemon (λ _, "") (λ _, true) "" "" in
  attachApp demo_apid (MkSys {[PALS_EXEC_HOST := "nid2"]} []) =
  (Throw "stoi", MkSys {[PALS_EXEC_HOST := "nid2"]} (attach_trace "nid2" demo_apid)).
Proof.
  intros C D. pose proof (demo_palstat_answers [""]) as Ha.
  exact (blank_line_ends_attach (MkSys {[PALS_EXEC_HOST := "nid2"]} []) "nid2" demo_apid ("State: running" +:+ nl)
    "HOST EXECUTABLE PID" 1 demo_pals_table eq_refl eq_refl Ha (λ _, eq_refl) eq_refl eq_refl demo_elems_fit).
Defined.

(** A job that is queued, with the timeout disabled. *)
Definition demo_queue : string := unlines ["Job Id: 7.pbs"; "    job_state = Q"; "    comment = Not Running"].

Definition demo_pbs : Commands :=
  scripted [(qsub_argv "job.sh" [] [], ("7.pbs" +:+ nl, 0)); (["qstat"; "-f"; "7.pbs"], (demo_queue, 0))].

Lemma queued_job_ends_wait_witness :
  let C := demo_pbs in let e := {[PALS_DISABLE_TIMEOUT := "1"]} : gmap string string in
  submitJobScript 1000 "job.sh" [] [] (MkSys e []) =
  (Throw ("Failed to find exec_host for 7.pbs. PBS reported: " +:+ nl +:+ "Not Running" +:+ nl +:+
          "The job may still be queued."),
   MkSys e [SRun (qsub_argv "job.sh" [] []); SSleep 3; SRun ["qstat"; "-f"; "7.pbs"]]).
Proof.
  intros C e.
  apply (queued_job_ends_wait 1000 "job.sh" ("7.pbs" +:+ nl) "7.pbs" demo_queue "Q" "Not Running" [] [] (MkSys e []));
    first [reflexivity|discriminate|vm_compute; reflexivity].
Defined.

Lemma launch_arguments_witness :
  let args := [Plain "-n"; Plain "4"; Parted "/opt/x.so"; Plain "--envall"; Plain "a.out"] in
  fixLaunchArguments "/opt/cti" (Some (flat_map given args)) true =
  ["-n"; "4"; "--env=LD_PRELOAD=/opt/cti/lib/libctipreloadpals.so:/opt/x.so";
   "--env=CTI_SAVE_LD_PRELOAD=/opt/x.so"; "--envall"; "a.out"].
Proof.
  intros args. apply (launch_arguments "/opt/cti" "/opt/cti/lib/libctipreloadpals.so" args).
  - reflexivity.
  - discriminate.
  - repeat (apply Forall_cons_2; [repeat split; reflexivity|]). apply Forall_nil_2.
Defined.
