(* ===== verification/SshSession.v ===== *)
(** * Sessions over SSH (src/src/SSHSession/SSHSession.cpp)

    Connecting to a host, checking its key, authenticating the user; running commands and
    sending files over channels.  The library libssh2, the resolver and sockets are the class
    [Ssh]: what a call returns may depend on everything done before, the call last.  Destroying
    sessions and channels is not part of the model. *)

From S2P Require Import Prelude Split Host System.

Inductive known_host : Type := KnownMatch | KnownNotFound | KnownMismatch | KnownFailure.

#[export] Instance known_host_eq_dec : EqDecision known_host.
Proof. solve_decision. Defined.

Class Ssh : Type := {
  LIBSSH2_ERROR_TIMEOUT : Z;
  LIBSSH2_ERROR_EAGAIN : Z;
  (** error codes are negative *)
  ssh_timeout_negative : LIBSSH2_ERROR_TIMEOUT < 0;
  (** [getaddrinfo], with the text of its error *)
  ssh_getaddrinfo : list sys_event → option string;
  (** the number a call returns, and whether a pointer it returns is not null *)
  ssh_rc : list sys_event → Z;
  (** how many bytes a write takes, or an error *)
  ssh_written : list sys_event → Z;
  ssh_ptr : list sys_event → bool;
  ssh_last_error : list sys_event → option string;
  ssh_hostkey : list sys_event → option string;
  ssh_check : list sys_event → known_host;
  ssh_userauth_list : list sys_event → option string;
  (** the keys of the agent, and what asking for one more returns *)
  ssh_identities : list sys_event → list string * Z;
  (** when waiting for a channel fails, with what *)
  ssh_select_error : list sys_event → option string;
  (** a file that can be opened: its size, if it is a regular file, and what is read from it,
      up to an error *)
  ssh_file : list sys_event → string → option (option Z * list ascii * option string)
}.

Section Ssh.
Context `{Host} `{Ssh}.

(** A call and what it returns. *)
Definition call_rc (name : string) (args : list string) : M sys Z :=
  sys_emit (SSsh name args);; s ← get; mret (ssh_rc (sys_trace s)).

Definition call_ptr (name : string) (args : list string) : M sys bool :=
  sys_emit (SSsh name args);; s ← get; mret (ssh_ptr (sys_trace s)).

Definition get_libssh2_error : M sys string :=
  s ← get; mret (default "no error information available" (ssh_last_error (sys_trace s))).

(** Up to ten times, as long as there is a timeout, with a second after each. *)
Fixpoint retry_from (rc : Z) (attempts : nat) (func : M sys Z) : M sys Z :=
  match attempts with
  | O => mret rc
  | S attempts' =>
      rc ← func;
      if negb (rc =? LIBSSH2_ERROR_TIMEOUT) then mret rc
      else sleep 1;; retry_from rc attempts' func
  end.

Definition libssh2_retry (func : M sys Z) : M sys Z := retry_from LIBSSH2_ERROR_TIMEOUT 10 func.

(** *** Connecting *)

Definition ssh_connect (hostname : string) : M sys () :=
  port ← getenv "CTI_SSH_PORT";
  sys_emit (SSsh "getaddrinfo" [hostname; default "22" port]);;
  s ← get;
  match ssh_getaddrinfo (sys_trace s) with
  | Some text => throw ("getaddrinfo failed: " +:+ text)
  | None =>
      fd ← call_rc "socket" [];
      if fd <? 0 then throw "File descriptor creation failed."
      else
        rc ← call_rc "connect" [hostname];
        if negb (rc =? 0) then throw ("failed to connect to host " +:+ hostname)
        else
          session ← call_ptr "session_init" [];
          if negb (session : bool) then throw "libssh2_session_init() failed"
          else
            rc ← libssh2_retry (call_rc "session_handshake" []);
            if rc <? 0
            then text ← get_libssh2_error; throw ("Failure establishing SSH session: " +:+ text)
            else mret tt
  end.

(** *** Directories and files *)

Definition ssh_dir (homeDir : string) : M sys string :=
  let sshDir := homeDir +:+ "/.ssh/" in
  setting ← getenv "CTI_SSH_DIR";
  sshDir ← match setting with
           | Some ssh_dir =>
               if dirHasPerms (Some ssh_dir) (Z.lor R_OK X_OK) then mret ssh_dir
               else throw ("Default SSH keyfile directory " +:+ sshDir +:+
                 " was overridden by setting the environment variable CTI_SSH_DIR to " +:+ ssh_dir +:+
                 ", but the directory was not readable / executable. Ensure the directory exists and has " +:+
                 "permission code 500.")
           | None => mret sshDir
           end;
  if dirHasPerms (Some sshDir) (Z.lor R_OK X_OK) then mret sshDir
  else throw ("The SSH keyfile directory at " +:+ sshDir +:+
    " is not readable / executable. Ensure the directory exists and has permission code 700. " +:+
    "If your system is configured to use a non-default SSH directory, it can be overridden " +:+
    "by setting the environment variable CTI_SSH_DIR to the SSH directory path.").

Definition known_hosts_path (sshDir : string) : M sys string :=
  let knownHostsPath := sshDir +:+ "/known_hosts" in
  setting ← getenv "CTI_SSH_KNOWNHOSTS_PATH";
  knownHostsPath ← match setting with
                   | Some path =>
                       if fileHasPerms (Some path) R_OK then mret path
                       else throw ("Default SSH known hosts path " +:+ knownHostsPath +:+
                         " was overridden by setting the environment variable CTI_SSH_DIR to " +:+ path +:+
                         ", but the file was not readable. Ensure the file exists and has permission code 600.")
                   | None => mret knownHostsPath
                   end;
  if fileHasPerms (Some knownHostsPath) R_OK then mret knownHostsPath
  else throw ("The SSH known hosts file at " +:+ knownHostsPath +:+
    " is not readable. Ensure the file exists and has permission code 600. If your system is " +:+
    "configured to use a non-default SSH known_hosts file, it can be overridden by setting " +:+
    "the environment variable CTI_SSH_KNOWNHOSTS_PATH to the known hosts file path.").

(** *** The key of the host *)

(** The key is compared for port 22; a host that is not in the file is added to the list of
    this session. *)
Definition check_host (hostname : string) : M sys () :=
  sys_emit (SSsh "session_hostkey" []);;
  s ← get;
  match ssh_hostkey (sys_trace s) with
  | None => throw "Failed to obtain the remote hostkey"
  | Some fingerprint =>
      sys_emit (SSsh "knownhost_checkp" [hostname; "22"; fingerprint]);;
      s ← get;
      match ssh_check (sys_trace s) with
      | KnownMatch => mret tt
      | KnownNotFound =>
          match fingerprint with
          | "" => mret tt
          | String c _ =>
              if bool_decide (c = "000"%char) then mret tt
              else
                rc ← call_rc "knownhost_addc" [hostname; fingerprint];
                if negb (rc =? 0) then throw "Failed to add remote host to knownhosts" else mret tt
          end
      | KnownMismatch =>
          throw ("Remote hostkey mismatch with knownhosts file! Remove the host from knownhosts to resolve: " +:+
                 hostname)
      | KnownFailure => throw "Failure with libssh2 knownhost check"
      end
  end.

Definition verify_host (hostname homeDir : string) : M sys string :=
  known_host ← call_ptr "knownhost_init" [];
  if negb (known_host : bool) then throw "Failure initializing knownhost file"
  else
    sshDir ← ssh_dir homeDir;
    knownHostsPath ← known_hosts_path sshDir;
    rc ← call_rc "knownhost_readfile" [knownHostsPath];
    if rc <? 0
    then throw ("The SSH known hosts file at " +:+ knownHostsPath +:+
      " failed to parse correctly. Ensure the file exists and is formatted correctly. If your " +:+
      "system is configured to use a non-default SSH known_hosts file, it can be overridden " +:+
      "by setting the environment variable CTI_SSH_KNOWNHOSTS_PATH to the known hosts file path.")
    else check_host hostname;; mret sshDir.

(** *** Authentication *)

(** The identities of the agent, one after the other. *)
Fixpoint try_identities (username : string) (identities : list string) (after : Z) : M sys () :=
  match identities with
  | [] =>
      if after <? 0 then throw "Could not obtain identity from ssh-agent."
      else throw "ssh-agent reached the end of the public keys without authenticating."
  | identity :: identities' =>
      rc ← call_rc "agent_userauth" [username; identity];
      if rc =? 0 then mret tt else try_identities username identities' after
  end.

Definition SSHAgent_auth (username : string) : M sys () :=
  agent ← call_ptr "agent_init" [];
  if negb (agent : bool) then throw "Could not init ssh-agent support."
  else
    rc ← call_rc "agent_connect" [];
    if negb (rc =? 0) then throw "Could not connect to ssh-agent."
    else
      rc ← call_rc "agent_list_identities" [];
      if negb (rc =? 0) then throw "Could not request identities from ssh-agent."
      else
        s ← get;
        let '(identities, after) := ssh_identities (sys_trace s) in
        try_identities username identities after.

(** The file a variable names, or the one by default; none when that does not exist. *)
Definition key_file (kind mode variable defaultPath : string) : M sys (option string) :=
  setting ← getenv variable;
  path ← match setting with
         | Some p =>
             if fileHasPerms (Some p) R_OK then mret p
             else throw ("Default SSH " +:+ kind +:+ " key path " +:+ defaultPath +:+
               " was overridden by setting the environment variable " +:+ variable +:+ " to " +:+ p +:+
               ", but the file was not readable. Ensure the file exists and has permission code " +:+ mode +:+ ".")
         | None => mret defaultPath
         end;
  if negb (pathExists path) then mret None
  else if fileHasPerms (Some path) R_OK then mret (Some path)
  else throw ("The SSH " +:+ kind +:+ " key file at " +:+ path +:+
    " is not readable. Ensure the file exists and has permission code " +:+ mode +:+
    ". If your system is configured to use a non-default SSH " +:+ kind +:+
    " key file, it can be overridden by setting the environment variable " +:+ variable +:+
    " to the " +:+ kind +:+ " key file path.").

Definition public_key_file : string → M sys (option string) := key_file "public" "644" "CTI_SSH_PUBKEY_PATH".
Definition private_key_file : string → M sys (option string) := key_file "private" "600" "CTI_SSH_PRIKEY_PATH".

(** Whether a pair of keys could be used. *)
Definition tryAuthKeyfilePair (username defaultPublickeyPath defaultPrivatekeyPath : string) : M sys bool :=
  public ← public_key_file defaultPublickeyPath;
  match public with
  | None => mret false
  | Some publickeyPath =>
      private ← private_key_file defaultPrivatekeyPath;
      match private with
      | None => mret false
      | Some privatekeyPath =>
          passphrase ← getenv "CTI_SSH_PASSPHRASE";
          rc ← libssh2_retry (call_rc "userauth_publickey_fromfile"
                 ([username; publickeyPath; privatekeyPath] ++ option_list passphrase));
          if rc <? 0
          then text ← get_libssh2_error;
               throw ("Failed to authenticate using the username " +:+ username +:+
                 ", SSH public key file at " +:+ publickeyPath +:+ " and private key file at " +:+
                 privatekeyPath +:+ " . If these paths are not correct, they can be overridden by setting " +:+
                 "the environment variables CTI_SSH_PUBKEY_PATH and CTI_SSH_PRIKEY_PATH . If a passhrase is " +:+
                 "required to unlock the keys, it can be provided by setting the environment variable " +:+
                 "CTI_SSH_PASSPHRASE (" +:+ text +:+ ", " +:+ to_string rc +:+ ")")
          else mret true
      end
  end.

Fixpoint try_key_pairs (username sshDir : string) (names : list string) : M sys () :=
  match names with
  | [] => throw ("Failed to detect SSH key files in " +:+ sshDir +:+
      " . These paths can be specified by setting the environment variables CTI_SSH_PUBKEY_PATH and " +:+
      "CTI_SSH_PRIKEY_PATH . If a passhrase is required to unlock the keys, it can be provided by setting " +:+
      "the environment variable CTI_SSH_PASSPHRASE . CTI requires passwordless (public key) SSH " +:+
      "authentication to compute nodes. If passwordless SSH access to compute nodes is unavailable, " +:+
      "contact your system adminstrator.")
  | name :: names' =>
      used ← tryAuthKeyfilePair username (sshDir +:+ name +:+ ".pub") (sshDir +:+ name);
      if (used : bool) then mret tt else try_key_pairs username sshDir names'
  end.

(** The agent, then the files.  A server that does not offer public keys is not authenticated
    with at all. *)
Definition authenticate (username sshDir : string) : M sys () :=
  sys_emit (SSsh "userauth_list" [username]);;
  s ← get;
  match ssh_userauth_list (sys_trace s) with
  | Some methods =>
      if contains "publickey" methods
      then
        agent ← catch_all (SSHAgent_auth username;; mret true) false;
        if (agent : bool) then mret tt
        else try_key_pairs username sshDir ["/id_rsa"; "/id_dsa"; "/id_ed25519"]
      else mret tt
  | None => mret tt
  end.

(** The constructor. *)
Definition SSHSession_new (hostname username homeDir : string) : M sys () :=
  ssh_connect hostname;;
  sshDir ← verify_host hostname homeDir;
  authenticate username sshDir.

(** *** Commands *)

Definition open_channel : M sys () :=
  rc ← libssh2_retry (opened ← call_ptr "channel_open_session" [];
                      mret (if opened : bool then 0 else LIBSSH2_ERROR_TIMEOUT));
  if rc <? 0
  then text ← get_libssh2_error; throw ("Failure opening SSH channel on session: " +:+ text)
  else mret tt.

Definition channel_exec (hostname command : string) : M sys () :=
  rc ← libssh2_retry (call_rc "channel_exec" [hostname; command]);
  if rc <? 0
  then text ← get_libssh2_error; throw ("Executing remote command failed: " +:+ text)
  else mret tt.

(** The variables with a value; what setting them returns is not looked at. *)
Definition set_variables (env : list string) : M sys () :=
  for_each env (λ setting,
    let '(var, val) := split2 setting "=" in
    if is_empty val then mret tt else sys_emit (SSsh "channel_setenv" [var; val])).

(** The text of a command: nothing separates the last argument from the redirections of a
    command that is waited for. *)
Definition remote_command (argv : list string) (synchronous : bool) : string :=
  let argvString := joinStr argv " " in
  if negb synchronous then "nohup " +:+ argvString +:+ " < /dev/null > /dev/null 2>&1 &"
  else argvString +:+ "< /dev/null > /dev/null 2>&1".

(** The result of closing is not asked for again: when closing would block, this waits until
    waiting fails. *)
Definition waitCloseChannel : M sys () :=
  rc ← call_rc "channel_close" [];
  if rc =? LIBSSH2_ERROR_EAGAIN
  then
    s ← get;
    match ssh_select_error (sys_trace s) with
    | Some text => throw ("select on SSH socket failed: " +:+ text)
    | None => undef "waits for the channel forever"
    end
  else mret tt.

Definition executeRemoteCommand (hostname : string) (argv : list string) (env : option (list string))
    (synchronous : bool) : M sys () :=
  if bool_decide (argv = []) then undef "assert(args[0] != nullptr)"
  else
    open_channel;;
    set_variables (default [] env);;
    channel_exec hostname (remote_command argv synchronous);;
    if synchronous then waitCloseChannel else mret tt.

(** The command of a daemon, with the variables it needs in front. *)
Definition daemon_command (env : gmap string string) (argv : list string) : string :=
  String.concat ""
    (omap (λ name, (λ value, name +:+ "=" +:+ value +:+ " ") <$> env !! name)
       ["CTI_DEBUG"; "CTI_LOG_DIR"; "PATH"; "LD_LIBRARY_PATH"] ++
     map (λ arg, arg +:+ " ") argv).

Definition startRemoteCommand (hostname : string) (argv : list string) : M sys () :=
  if bool_decide (argv = []) then undef "assert(argv[0] != nullptr)"
  else
    open_channel;;
    s ← get;
    channel_exec hostname (daemon_command (sys_env s) argv).

(** What a daemon on another host is started with: its standard input and output. *)
Definition remote_daemon_argv (daemonPath : string) : list string := [daemonPath; "--read=0"; "--write=1"].

(** *** Files *)

Definition channel_write (bs : list ascii) : M sys Z :=
  sys_emit (SSsh "channel_write" [string_of_list_ascii bs]);; s ← get; mret (ssh_written (sys_trace s)).

(** A block of bytes, as much at a time as the channel takes.  A channel that takes nothing
    without an error is asked again, without end if it goes on. *)
Fixpoint send_block (fuel : nat) (hostname destination : string) (bs : list ascii) : M sys () :=
  match fuel with
  | O => undef "the channel is written to forever"
  | S fuel' =>
      rc ← channel_write bs;
      if rc <? 0
      then text ← get_libssh2_error; throw ("Error writing to remote file: " +:+ text)
      else if Z.of_nat (length bs) <? rc then undef "more was written than was there"
      else
        sys_emit (SSend hostname destination (take (Z.to_nat rc) bs));;
        let rest := drop (Z.to_nat rc) bs in
        if bool_decide (rest = []) then mret tt else send_block fuel' hostname destination rest
  end.

Definition BLOCK_SIZE : nat := 1024.

(** Blocks of the file up to its end, or to an error of reading it. *)
Fixpoint send_blocks (rounds fuel : nat) (hostname destination : string) (contents : list ascii)
    (error : option string) : M sys () :=
  match rounds with
  | O => undef "more blocks than bytes"
  | S rounds' =>
      match error with
      | Some text =>
          if (length contents <? BLOCK_SIZE)%nat then throw ("Error in reading from file: " +:+ text)
          else send_block fuel hostname destination (take BLOCK_SIZE contents);;
               send_blocks rounds' fuel hostname destination (drop BLOCK_SIZE contents) error
      | None =>
          if bool_decide (contents = []) then mret tt
          else send_block fuel hostname destination (take BLOCK_SIZE contents);;
               send_blocks rounds' fuel hostname destination (drop BLOCK_SIZE contents) error
      end
  end.

(** The file is opened once for its size and once for its contents.  [fuel] bounds the writes
    of one block. *)
Definition sendRemoteFile (fuel : nat) (hostname source_path destination_path : string) (mode : Z)
    : M sys () :=
  s ← get;
  match ssh_file (sys_trace s) source_path with
  | None => throw "File descriptor creation failed."
  | Some (None, _, _) => throw ("Could not fstat file to send: " +:+ source_path)
  | Some (Some st_size, _, _) =>
      channel ← call_ptr "scp_send" [hostname; destination_path; to_string (Z.land mode 511); to_string st_size];
      if negb (channel : bool)
      then text ← get_libssh2_error; throw ("Failure to scp send on session: " +:+ text)
      else
        s ← get;
        match ssh_file (sys_trace s) source_path with
        | None => throw ("failed to open path " +:+ source_path)
        | Some (_, contents, error) =>
            send_blocks (S (length contents)) fuel hostname destination_path contents error
        end
  end.
End Ssh.
