(* ===== verification/EproxyApp.v ===== *)
(** * Slurm through eproxy (src/src/frontend/frontend_impl/SLURM/Frontend.cpp)

    On an Elogin node Slurm runs elsewhere: applications are launched by a daemon on the login
    node, reached by SSH, and their packages are sent there first.  What that daemon answers to
    the requests of [RemoteDaemon] is taken from the class [FrontendDaemon]; how it computes the
    answers, and what becomes of failures, is the subject of [RemoteDaemon.v]. *)

From S2P Require Import Prelude Split Argv Host Wire BackendFiles Daemon Handlers FEIface System SlurmJobs.
From S2P Require Import ConfigDir Requests SlurmLayout SlurmArgs SlurmApp SshSession.

Section Eproxy.
Context `{Host} `{Commands} `{FrontendDaemon} `{InstalledPrograms} `{SlurmHost} `{Ssh}.

(** ** The frontend *)

Definition getenv_default (key default_val : string) : M sys string :=
  val ← System.getenv key; mret (default default_val val).

(** EproxySLURMFrontend, with what it inherits. *)
Record EproxyFE : Type := MkEproxyFE {
  m_slurm : SlurmFE;
  m_eproxyLogin : string;
  m_eproxyKeyfile : string;
  m_eproxyEnvfile : string;
  m_eproxyUser : string;
  m_eproxyPrefix : string;
  m_homeDir : string;
  m_envSpec : EproxyEnvSpec
}.

(** A file that cannot be opened has no lines. *)
Definition EproxyEnvSpec_new (path : string) : EproxyEnvSpec :=
  readFrom (default "" (blocks_text <$> os_read path)) empty_spec.

(** The constructor; [pw_name] and [pw_dir] are those of the user. *)
Definition EproxySLURMFrontend_new (pw_name pw_dir : string) : M sys EproxyFE :=
  fe ← SLURMFrontend_new;
  login ← getenv_default "EPROXY_LOGIN" "login";
  keyfile ← getenv_default "EPROXY_KEYFILE" "/opt/cray/elogin/eproxy/etc/eproxy.ini";
  envfile ← getenv_default "EPROXY_ENVFILE" "/opt/cray/elogin/eproxy/etc/eproxy.env";
  user ← getenv_default "EPROXY_USER" pw_name;
  prefix ← getenv_default "EPROXY_ENVFILE" "/opt/cray/elogin/eproxy/etc/eproxy.env";
  mret (MkEproxyFE fe login keyfile envfile user prefix pw_dir (EproxyEnvSpec_new envfile)).

(** ** The daemon on the login node *)

Definition remote_call (name : string) (args : list string) : sys_event := SSsh name args.

(** The session and the daemon, with its process number. *)
Definition RemoteDaemon_new (fe : EproxyFE) (fd : frontend_data) : M sys Z :=
  SSHSession_new (m_eproxyLogin fe) (m_eproxyUser fe) (m_homeDir fe);;
  startRemoteCommand (m_eproxyLogin fe) (remote_daemon_argv (m_fe_daemon_path fd));;
  request (remote_call "readPid" []) req_id.

Definition remote_stop : sys_event := remote_call "shutdown" [].

Definition RemoteDaemon_delete (m_daemonPid : Z) : M sys () :=
  if 0 <? m_daemonPid then catch_all (request remote_stop req_done) tt else mret tt.

Definition remote_launch (launcher_argv : list string) (env : option (list string)) : M sys FEMPIRResult :=
  let vars := default [] env in
  request (remote_call "launchMPIR"
             ([default "" (head launcher_argv); to_string (Z.of_nat (length launcher_argv))] ++ launcher_argv ++
              to_string (Z.of_nat (length vars)) :: vars)) req_launch.

Definition remote_readString (mpir_id : Z) (var : string) : M sys string :=
  request (remote_call "readStringMPIR" [to_string mpir_id; var]) req_string.

Definition remote_release (mpir_id : Z) : M sys () :=
  request (remote_call "releaseMPIR" [to_string mpir_id]) req_done.

Definition remote_check (mpir_id : Z) : M sys bool :=
  request (remote_call "checkApp" [to_string mpir_id]) req_util_sync.

Definition remote_deregister (mpir_id : Z) : M sys () :=
  request (remote_call "deregisterApp" [to_string mpir_id]) req_done.

(** Until the daemon belongs to an application, an exception stops it. *)
Definition guarded {A : Type} (daemon : Z) (m : M sys A) : M sys A :=
  try_catch m (λ e, RemoteDaemon_delete daemon;; throw e).

(** [sattachMPIRRemote]: only the name of sattach is sent. *)
Definition sattachMPIRRemote (job_id step_id : Z) : M sys FEMPIRResult :=
  sattachMPIR (λ _ argv,
      match argv with
      | [] => undef "basename of a null pointer"
      | path :: args => name ← lift (cstr_basename path); remote_launch (name :: args) None
      end)
    remote_release job_id step_id.

(** ** Applications *)

Record EproxySLURMApp : Type := MkEproxyApp {
  e_app : SLURMApp;
  m_remoteDaemon : Z;
  m_remoteMpirId : Z;
  e_fe : EproxyFE
}.

Definition set_daemonAppId (id : Z) (a : SLURMApp) : SLURMApp :=
  MkSLURMApp (m_fe a) (m_frontend a) (m_launcherName a) id (m_jobId a) (m_stepId a) (m_binaryRankMap a)
    (m_allJobIds a) (m_stepLayout a) (m_gresSetting a) (m_toolPath a) (m_attribsPath a) (m_stagePath a)
    (m_extraFiles a) (getBEDaemonName a).

(** The constructor.  What it inherits is made with the identifier of the remote daemon, then
    an identifier of the local one takes its place. *)
Definition EproxySLURMApp_new (isOriginalInstance : bool) (fe : EproxyFE) (fd : frontend_data)
    (launcherName beDaemonName : string) (daemon : Z) (mpirData : FEMPIRResult) (jobId stepId : string)
    : M sys EproxySLURMApp :=
  base ← guarded daemon (SLURMApp_new (m_slurm fe) fd launcherName beDaemonName mpirData jobId stepId);
  id ← try_catch (request SRegister req_id)
         (λ e, RemoteDaemon_delete daemon;; SLURMApp_delete isOriginalInstance base;; throw e);
  mret (MkEproxyApp (set_daemonAppId id base) daemon (res_mpir_id (fe_result mpirData)) fe).

(** The destructor, then those of the daemon and of what it inherits. *)
Definition EproxySLURMApp_delete (isOriginalInstance : bool) (e : EproxySLURMApp) : M sys () :=
  (if 0 <? m_remoteMpirId e
   then try_catch (remote_deregister (m_remoteMpirId e)) (λ _, undef "a destructor throws")
   else mret tt);;
  RemoteDaemon_delete (m_remoteDaemon e);;
  SLURMApp_delete isOriginalInstance (e_app e).

Definition Eproxy_releaseBarrier (e : EproxySLURMApp) : M sys () :=
  if 0 <? m_remoteMpirId e then remote_release (m_remoteMpirId e) else mret tt.

(** The daemon on the login node is asked for the identifier of the one here. *)
Definition Eproxy_isRunning (e : EproxySLURMApp) : M sys bool := remote_check (m_daemonAppId (e_app e)).

(** To the login node, and from there to the nodes. *)
Definition Eproxy_shipPackage (fuel : nat) (e : EproxySLURMApp) (tarPath : string) : M sys () :=
  packageName ← lift (cstr_basename tarPath);
  let destination := m_toolPath (e_app e) +:+ "/" +:+ packageName in
  SSHSession_new (m_eproxyLogin (e_fe e)) (m_eproxyUser (e_fe e)) (m_homeDir (e_fe e));;
  sendRemoteFile fuel (m_eproxyLogin (e_fe e)) tarPath destination 511;;
  SlurmApp.shipPackage (e_app e) destination.

(** What is inherited ships with the package method of this class. *)
Definition Eproxy_startDaemon (fuel : nat) (e : EproxySLURMApp) : list string → bool → M app_state () :=
  startDaemon_with (Eproxy_shipPackage fuel e) (e_app e).

Definition Eproxy_checkFilesExist (fuel : nat) (e : EproxySLURMApp) : gset string → M app_state (gset string) :=
  checkFilesExist_with (Eproxy_shipPackage fuel e) (e_app e).

(** ** Making applications *)

(** [environ] is the environment as the process has it. *)
Definition Eproxy_launchApp (fe : EproxyFE) (fd : frontend_data) (environ launcher_args env_list : list string)
    : M sys (Z * FEMPIRResult) :=
  daemon ← RemoteDaemon_new fe fd;
  mpirData ← guarded daemon
    (remote_launch ("srun" :: launcher_args) (Some (eproxy_env (m_envSpec fe) environ env_list)));
  mret (daemon, mpirData).

Definition format_launch_error (error hostname : string) : string :=
  "Failed to launch tool remotely from this Elogin node:" +:+ nl +:+ "    " +:+ error +:+ nl +:+
  "You can retry the tool launch directly on the login node `" +:+ hostname +:+ "`." +:+ nl +:+
  "This will allow direct access to the Slurm utilities.".

(** Every exception is explained. *)
Definition explained {A : Type} (fe : EproxyFE) (m : M sys A) : M sys A :=
  try_catch m (λ what, throw (format_launch_error (c_str what) (m_eproxyLogin fe))).

(** What both launches begin with. *)
Definition launched_app (isOriginalInstance : bool) (fe : EproxyFE) (fd : frontend_data)
    (launcherName beDaemonName : string) (environ launcher_args env_list : list string) : M sys EproxySLURMApp :=
  '(daemon, mpirData) ← Eproxy_launchApp fe fd environ launcher_args env_list;
  let id := res_mpir_id (fe_result mpirData) in
  '(jobId, stepId) ← guarded daemon
    (jobId ← remote_readString id "totalview_jobid";
     stepId ← remote_readString id "totalview_stepid";
     mret (jobId, stepId));
  e ← EproxySLURMApp_new isOriginalInstance fe fd launcherName beDaemonName daemon mpirData jobId stepId;
  gres ← get_gres_setting launcher_args;
  mret (MkEproxyApp (setGres gres (e_app e)) (m_remoteDaemon e) (m_remoteMpirId e) (e_fe e)).

(** [launch] returns a weak pointer: [None] when the application it was made from has been
    destroyed.  It returns before the application is registered, so nothing owns it. *)
Definition Eproxy_launch (isOriginalInstance : bool) (fe : EproxyFE) (fd : frontend_data)
    (launcherName beDaemonName : string) (environ launcher_args env_list : list string)
    : M sys (option EproxySLURMApp) :=
  explained fe
    (e ← launched_app isOriginalInstance fe fd launcherName beDaemonName environ launcher_args env_list;
     try_catch (Eproxy_releaseBarrier e) (λ what, EproxySLURMApp_delete isOriginalInstance e;; throw what);;
     EproxySLURMApp_delete isOriginalInstance e;;
     mret None).

Definition Eproxy_launchBarrier (isOriginalInstance : bool) (fe : EproxyFE) (fd : frontend_data)
    (launcherName beDaemonName : string) (environ launcher_args env_list : list string)
    : M sys (option EproxySLURMApp) :=
  explained fe
    (e ← launched_app isOriginalInstance fe fd launcherName beDaemonName environ launcher_args env_list;
     mret (Some e)).

(** [ids] are the variable arguments. *)
Definition Eproxy_registerJob (isOriginalInstance : bool) (fe : EproxyFE) (fd : frontend_data)
    (launcherName beDaemonName : string) (ids : list Z) : M sys (option EproxySLURMApp) :=
  match ids with
  | [job_id; step_id] =>
      explained fe
        (daemon ← RemoteDaemon_new fe fd;
         mpirData ← guarded daemon (sattachMPIRRemote job_id step_id);
         e ← EproxySLURMApp_new isOriginalInstance fe fd launcherName beDaemonName daemon mpirData
               (to_string job_id) (to_string step_id);
         mret (Some e))
  | _ => throw "expecting job and step ID pair to register app"
  end.
End Eproxy.
