(* ===== verification/SshApp.v ===== *)
(** * Generic SSH: applications
    (src/src/frontend/frontend_impl/GenericSSH/Frontend.cpp)

    A workload manager that is only a launcher: where the processes are is read from the
    process table of the debugger interface, and nodes are reached by SSH.  The layout of an
    application, its files for the backend, and what an application does. *)

From S2P Require Import Prelude Split Argv Host Wire BackendFiles Daemon Handlers FEIface System SlurmJobs.
From S2P Require Import ConfigDir Requests SshSession.

(** ** The layout *)

Record NodeLayout : Type := MkNode { hostname : string; pids : list Z; firstPE : Z }.

(** The name up to its first point. *)
Definition base_hostname (hostname : string) : string :=
  match split_at "." hostname with Some (base, _) => base | None => hostname end.

Definition add_pid (pid : Z) (n : NodeLayout) : NodeLayout :=
  MkNode (hostname n) (pids n ++ [pid]) (firstPE n).

(** The nodes so far and where each host is among them. *)
Fixpoint layout_nodes (procTable : list MPIRProctableElem) (peCount : Z) (hostNidMap : gmap string nat)
    (nodes : list NodeLayout) : list NodeLayout :=
  match procTable with
  | [] => nodes
  | proc :: procTable' =>
      let base := base_hostname (el_hostname proc) in
      match hostNidMap !! base with
      | None =>
          layout_nodes procTable' (peCount + 1) (<[base := length nodes]> hostNidMap)
            (nodes ++ [MkNode base [el_pid proc] peCount])
      | Some nid => layout_nodes procTable' (peCount + 1) hostNidMap (alter (add_pid (el_pid proc)) nid nodes)
      end
  end.

Record StepLayout : Type := MkStep { numPEs : Z; nodes : list NodeLayout }.

Definition fetchStepLayout (procTable : list MPIRProctableElem) : StepLayout :=
  MkStep (Z.of_nat (length procTable)) (layout_nodes procTable 0 ∅ []).

Definition node_entry (n : NodeLayout) : string * Z * Z :=
  (hostname n, Z.of_nat (length (pids n)), firstPE n).

(** [createNodeLayoutFile] and [createPIDListFile] *)
Definition createNodeLayoutFile (layout : StepLayout) : res bytes := layout_file (map node_entry (nodes layout)).

Definition createPIDListFile (procTable : list MPIRProctableElem) : bytes := pid_file (map el_pid procTable).

(** ** Applications *)

(** The user, as the frontend found it. *)
Record SshFE : Type := MkSshFE { m_username : string; m_homeDir : string }.

Record GenericSSHApp : Type := MkSshApp {
  m_fe : SshFE;
  m_frontend : frontend_data;
  m_daemonAppId : Z;
  m_launcherPid : Z;
  m_binaryRankMap : gmap string (list Z);
  m_stepLayout : StepLayout;
  m_toolPath : string;
  m_attribsPath : string;
  m_stagePath : string;
  m_extraFiles : list string;
  getBEDaemonName : string
}.

(** What operations change: m_beDaemonSent. *)
Record app_state : Type := MkAppState { as_sys : sys; as_sent : bool }.

Definition on_sys {A : Type} (m : M sys A) : M app_state A :=
  zoom as_sys (λ s st, MkAppState s (as_sent st)) m.

Definition getJobId (app : GenericSSHApp) : string := to_string (m_launcherPid app).

Definition getLauncherHostname (app : GenericSSHApp) : res string :=
  Throw "not supported for WLM: getLauncherHostname".

Definition getHostnameList (app : GenericSSHApp) : list string := map hostname (nodes (m_stepLayout app)).

Definition getHostsPlacement (app : GenericSSHApp) : list (string * Z) :=
  map (λ n, (hostname n, Z.of_nat (length (pids n)))) (nodes (m_stepLayout app)).

Definition getNumPEs (app : GenericSSHApp) : Z := numPEs (m_stepLayout app).

Definition getNumHosts (app : GenericSSHApp) : Z := Z.of_nat (length (nodes (m_stepLayout app))).

Section App.
Context `{Host} `{FrontendDaemon} `{InstalledPrograms} `{Ssh}.

(** The constructor.  [beDaemonName] is the name with its random characters. *)
Definition GenericSSHApp_new (fe : SshFE) (fd : frontend_data) (beDaemonName : string) (mpirData : FEMPIRResult)
    : M sys GenericSSHApp :=
  let procTable := res_proctable (fe_result mpirData) in
  let launcherPid := res_launcher_pid (fe_result mpirData) in
  let daemonAppId := res_mpir_id (fe_result mpirData) in
  let stepLayout := fetchStepLayout procTable in
  toolPath ← findToolPath (to_string launcherPid);
  s ← get;
  stagePath ← lift (req_mkdtemp (sys_trace s) (m_cfg_dir fd +:+ "/slurmXXXXXX"));
  layoutFile ← write_file (stagePath +:+ "/slurm_layout") "failed to open path " (createNodeLayoutFile stepLayout);
  if bool_decide (nodes stepLayout = [])
  then throw ("Application " +:+ to_string launcherPid +:+ " does not have any nodes.")
  else if daemonAppId =? 0
  then throw ("tried to create app with invalid daemon id: " +:+ to_string daemonAppId)
  else
    pidFile ← write_file (stagePath +:+ "/slurm_pid") "failed to open path " (Ok (createPIDListFile procTable));
    mret (MkSshApp fe fd daemonAppId launcherPid (fe_binaryRankMap mpirData) stepLayout toolPath toolPath
            stagePath [layoutFile; pidFile] beDaemonName).

(** The destructor. *)
Definition GenericSSHApp_delete (isOriginalInstance : bool) (app : GenericSSHApp) : M sys () :=
  if negb isOriginalInstance then mret tt
  else
    (if is_empty (m_stagePath app) then mret tt else sys_emit (SRemove (m_stagePath app)));;
    catch_all (request (SDeregister (m_daemonAppId app)) req_done) tt.

Definition isRunning (app : GenericSSHApp) : M sys bool :=
  request (SCheck (m_daemonAppId app)) req_util_sync.

Definition releaseBarrier (app : GenericSSHApp) : M sys () :=
  request (SReleaseMPIR (m_daemonAppId app)) req_done.

(** A session to a node, as the user of the frontend. *)
Definition node_session (app : GenericSSHApp) (node : string) : M sys () :=
  SSHSession_new node (m_username (m_fe app)) (m_homeDir (m_fe app)).

Definition kill_argv (signum : Z) (n : NodeLayout) : list string :=
  ["kill"; "-" +:+ to_string signum] ++ map to_string (pids n).

Definition kill (app : GenericSSHApp) (signum : Z) : M sys () :=
  for_each (nodes (m_stepLayout app)) (λ n,
    node_session app (hostname n);; executeRemoteCommand (hostname n) (kill_argv signum n) None true).

(** To one node after the other.  [fuel] bounds the writes of a block. *)
Definition shipPackage (fuel : nat) (app : GenericSSHApp) (tarPath : string) : M sys () :=
  packageName ← lift (cstr_basename tarPath);
  let destination := m_toolPath app +:+ "/" +:+ packageName in
  for_each (nodes (m_stepLayout app)) (λ n,
    node_session app (hostname n);; sendRemoteFile fuel (hostname n) tarPath destination 511).

Definition ship_daemon (fuel : nat) (app : GenericSSHApp) : M app_state () :=
  let sourcePath := m_be_daemon_path (m_frontend app) in
  if is_empty sourcePath
  then throw ("Unable to locate backend daemon binary. Try setting " +:+ CTI_INSTALL_DIR +:+
              " environment variable to the install location of CTI.")
  else
    let destinationPath := m_cfg_dir (m_frontend app) +:+ "/" +:+ getBEDaemonName app in
    on_sys (linked ← request (SUtil ["ln"; "-s"; sourcePath; destinationPath] []) req_util_sync;
            if negb (linked : bool) then throw ("failed to link " +:+ sourcePath +:+ " to " +:+ destinationPath)
            else shipPackage fuel app destinationPath);;
    modify (λ st, MkAppState (as_sys st) true).

(** On all nodes at once when they are waited for, otherwise one after the other. *)
Definition startDaemon (fuel : nat) (app : GenericSSHApp) (args : option (list string)) (synchronous : bool)
    : M app_state () :=
  match args with
  | None => throw "args array is empty!"
  | Some args =>
      st ← get;
      (if as_sent st then mret tt else ship_daemon fuel app);;
      let argv := (m_toolPath app +:+ "/" +:+ getBEDaemonName app) :: args in
      let run synchronous node := node_session app node;; executeRemoteCommand node argv None synchronous in
      on_sys (if synchronous then join_all (getHostnameList app) (run true)
              else for_each (getHostnameList app) (run false))
  end.

(** ** Making applications *)

Definition getLauncherName : M sys string :=
  name ← System.getenv "CTI_LAUNCHER_NAME"; mret (default "mpiexec" name).

Definition getShimmedLauncherName (launcherPath : string) : res string :=
  base ← cstr_basename launcherPath;
  mret (if bool_decide (base = "mpirun") then "mpiexec.hydra" else "").

(** The message for a shimmed launcher that is not found is made of its null path. *)
Definition launchApp (fd : frontend_data) (launcher_argv : option (list string)) (env_list : list string)
    : M sys FEMPIRResult :=
  launcherName ← getLauncherName;
  match os_pathFind launcherName with
  | None => throw ("Failed to find launcher in path: " +:+ launcherName)
  | Some launcher_path =>
      match launcher_argv with
      | None => throw "attempted to add null argument array"
      | Some args =>
          shimmed ← lift (getShimmedLauncherName launcher_path);
          if is_empty shimmed
          then request (SLaunch launcher_path (launcher_path :: args) env_list) req_launch
          else match os_pathFind shimmed with
               | None => undef "std::string of a null pointer"
               | Some shimmedLauncherPath =>
                   request (SLaunchShim (m_base_dir fd +:+ "/libexec/" +:+ mpir_shim_binary)
                              (m_cfg_dir fd +:+ "/shim") shimmedLauncherPath launcher_path
                              (launcher_path :: args) env_list) req_launch
               end
      end
  end.

Definition launch (isOriginalInstance : bool) (fe : SshFE) (fd : frontend_data) (beDaemonName : string)
    (launcher_argv : option (list string)) (env_list : list string) : M sys GenericSSHApp :=
  mpirData ← launchApp fd launcher_argv env_list;
  app ← GenericSSHApp_new fe fd beDaemonName mpirData;
  try_catch (releaseBarrier app) (λ e, GenericSSHApp_delete isOriginalInstance app;; throw e);;
  mret app.

Definition launchBarrier (fe : SshFE) (fd : frontend_data) (beDaemonName : string)
    (launcher_argv : option (list string)) (env_list : list string) : M sys GenericSSHApp :=
  mpirData ← launchApp fd launcher_argv env_list; GenericSSHApp_new fe fd beDaemonName mpirData.

(** The path of a launcher that is not found is null, and sent to the daemon. *)
Definition registerJob (fe : SshFE) (fd : frontend_data) (beDaemonName : string) (launcherPid : Z)
    : M sys GenericSSHApp :=
  launcherName ← getLauncherName;
  match os_pathFind launcherName with
  | None => undef "strlen of a null pointer"
  | Some launcher_path =>
      mpirData ← request (SAttach launcher_path launcherPid) req_launch;
      GenericSSHApp_new fe fd beDaemonName mpirData
  end.

Definition with_mpir_id (id : Z) (r : FEMPIRResult) : FEMPIRResult :=
  MkFEMPIRResult
    (MkMPIRResult id (res_launcher_pid (fe_result r)) (res_job_id (fe_result r)) (res_step_id (fe_result r))
       (res_proctable (fe_result r)))
    (fe_binaryRankMap r).

(** The launcher is attached to by a daemon on its host; what is registered with the daemon here
    is this process. *)
Definition registerRemoteJob (fe : SshFE) (fd : frontend_data) (beDaemonName hostname : string) (launcher_pid : Z)
    : M sys GenericSSHApp :=
  SSHSession_new hostname (m_username fe) (m_homeDir fe);;
  launcherName ← getLauncherName;
  startRemoteCommand hostname (remote_daemon_argv (m_fe_daemon_path fd));;
  mpirResult ← request (SSsh "attachMPIR" [hostname; launcherName; to_string launcher_pid]) req_launch;
  mpir_id ← request SRegister req_id;
  GenericSSHApp_new fe fd beDaemonName (with_mpir_id mpir_id mpirResult).
End App.
