(* ===== verification/SshProofs.v ===== *)
(** * Properties of SSH sessions and of generic SSH applications

    What a session has made sure of when it is handed out; that files arrive whole, on one node
    and on all of them; what the backend makes of the layout of an application. *)

From S2P Require Import Prelude Split Argv Host Wire BackendFiles Daemon Handlers FEIface System SlurmJobs.
From S2P Require Import ConfigDir Requests SshSession SshApp.

(** ** Traces *)

(** Calls of the SSH library and waiting. *)
Definition is_talk (e : sys_event) : Prop :=
  match e with SSsh _ _ | SSleep _ => True | _ => False end.

(** Conditions that calls of the SSH library and waiting cannot break. *)
Definition talk_closed (I : sys → Prop) : Prop :=
  ∀ s e, is_talk e → I s → I (MkSys (sys_env s) (sys_trace s ++ [e])).

Section Talk.
Context `{Host} `{Ssh} (I : sys → Prop) (HI : talk_closed I).

Lemma talk_ssh (call : string) (args : list string) : preserves I (sys_emit (SSsh call args)).
Proof. apply preserves_modify. intros s. by apply HI. Qed.

Lemma talk_sleep (n : Z) : preserves I (sleep n).
Proof. apply preserves_modify. intros s. by apply HI. Qed.
#[local] Hint Resolve talk_ssh talk_sleep : cti.

Lemma talk_getenv (name : string) : preserves I (getenv name).
Proof. unfold getenv. auto with cti. Qed.

Lemma talk_call_rc (call : string) (args : list string) : preserves I (call_rc call args).
Proof. unfold call_rc. preserve. Qed.

Lemma talk_call_ptr (call : string) (args : list string) : preserves I (call_ptr call args).
Proof. unfold call_ptr. preserve. Qed.

Lemma talk_error : preserves I get_libssh2_error.
Proof. unfold get_libssh2_error. preserve. Qed.

Lemma talk_retry (func : M sys Z) : preserves I func → preserves I (libssh2_retry func).
Proof.
  intros Hf. unfold libssh2_retry. generalize LIBSSH2_ERROR_TIMEOUT as rc. generalize 10%nat as n.
  induction n as [|n IH]; intros rc; cbn [retry_from]; [auto with cti|].
  apply preserves_bind; [done|intros rc']. destruct (rc' =? _); cbn [negb]; preserve.
Qed.
#[local] Hint Resolve talk_getenv talk_call_rc talk_call_ptr talk_error talk_retry : cti.

Lemma talk_check_host (hostname : string) : preserves I (check_host hostname).
Proof. unfold check_host. preserve. Qed.

Lemma talk_identities (username : string) (identities : list string) (after : Z) :
  preserves I (try_identities username identities after).
Proof. induction identities as [|i l IH]; cbn [try_identities]; preserve. Qed.
#[local] Hint Resolve talk_check_host talk_identities : cti.

Lemma talk_agent (username : string) : preserves I (SSHAgent_auth username).
Proof. unfold SSHAgent_auth. preserve. Qed.

Lemma talk_key_file (kind mode variable path : string) :
  preserves I (key_file kind mode variable path).
Proof. unfold key_file. preserve. Qed.
#[local] Hint Resolve talk_agent talk_key_file : cti.

Lemma talk_pair (username public private : string) :
  preserves I (tryAuthKeyfilePair username public private).
Proof. unfold tryAuthKeyfilePair, public_key_file, private_key_file. preserve. Qed.
#[local] Hint Resolve talk_pair : cti.

Lemma talk_pairs (username sshDir : string) (names : list string) :
  preserves I (try_key_pairs username sshDir names).
Proof. induction names as [|n names IH]; cbn [try_key_pairs]; preserve. Qed.
#[local] Hint Resolve talk_pairs : cti.

Lemma talk_authenticate (username sshDir : string) : preserves I (authenticate username sshDir).
Proof. unfold authenticate, catch_all. preserve. Qed.

Lemma talk_connect (hostname : string) : preserves I (ssh_connect hostname).
Proof. unfold ssh_connect. preserve. Qed.

Lemma talk_verify (hostname homeDir : string) : preserves I (verify_host hostname homeDir).
Proof. unfold verify_host, ssh_dir, known_hosts_path. preserve. Qed.
#[local] Hint Resolve talk_authenticate talk_connect talk_verify : cti.

Lemma talk_session (hostname username homeDir : string) :
  preserves I (SSHSession_new hostname username homeDir).
Proof. unfold SSHSession_new. preserve. Qed.

Lemma talk_open_channel : preserves I open_channel.
Proof. unfold open_channel. preserve. apply talk_retry. preserve. Qed.
End Talk.

(** What was done is not undone. *)
Lemma grows_closed (t : list sys_event) : talk_closed (λ s, t `prefix_of` sys_trace s).
Proof. intros s e _ [k E]. exists (k ++ [e]). cbn [sys_trace]. by rewrite E, app_assoc. Qed.

(** ** Trying again *)

Section Retry.
Context `{Host} `{Ssh}.

Lemma call_rc_run (call : string) (args : list string) (s : sys) :
  call_rc call args s =
  (Ok (ssh_rc (sys_trace s ++ [SSsh call args])), MkSys (sys_env s) (sys_trace s ++ [SSsh call args])).
Proof. done. Qed.

Lemma call_ptr_run (call : string) (args : list string) (s : sys) :
  call_ptr call args s =
  (Ok (ssh_ptr (sys_trace s ++ [SSsh call args])), MkSys (sys_env s) (sys_trace s ++ [SSsh call args])).
Proof. done. Qed.

(** The attempts that timed out, each with its second of waiting. *)
Definition timed_out (n : nat) (call : string) (args : list string) : list sys_event :=
  concat (replicate n [SSsh call args; SSleep 1]).

Lemma retry_from_run (attempts : nat) (call : string) (args : list string) (s : sys) :
  ∃ n rc, (n ≤ attempts)%nat ∧
    retry_from LIBSSH2_ERROR_TIMEOUT attempts (call_rc call args) s =
    (Ok rc, MkSys (sys_env s) (sys_trace s ++ timed_out n call args ++
              (if (n <? attempts)%nat then [SSsh call args] else []))) ∧
    (if (n <? attempts)%nat
     then rc ≠ LIBSSH2_ERROR_TIMEOUT ∧ rc = ssh_rc (sys_trace s ++ timed_out n call args ++ [SSsh call args])
     else rc = LIBSSH2_ERROR_TIMEOUT).
Proof.
  revert s. induction attempts as [|attempts IH]; intros s.
  { exists 0%nat, LIBSSH2_ERROR_TIMEOUT. split; [done|]. cbn. rewrite app_nil_r. by destruct s. }
  cbn [retry_from]. rewrite (bind_run_Ok _ _ _ _ _ (call_rc_run call args s)).
  set (rc0 := ssh_rc _). destruct (Z.eqb_spec rc0 LIBSSH2_ERROR_TIMEOUT) as [E|E]; cbn [negb].
  - destruct (IH (MkSys (sys_env s) ((sys_trace s ++ [SSsh call args]) ++ [SSleep 1]))) as (n & rc & Hn & Hrun & Hrc).
    exists (S n), rc. split; [lia|]. unfold timed_out in *. cbn [replicate concat].
    change (S n <? S attempts)%nat with (n <? attempts)%nat.
    unfold sleep, sys_emit. rewrite (bind_run_Ok _ _ _ tt (MkSys (sys_env s) ((sys_trace s ++ [SSsh call args]) ++ [SSleep 1])))
      by done.
    rewrite E, Hrun. cbn [sys_env sys_trace] in *. rewrite <-!app_assoc in *. by split.
  - exists 0%nat, rc0. split; [lia|]. by split.
Qed.

(** Calls that time out are tried again.  A call is made at most ten times; after each that
    times out a second passes; the result is that of the first call that does not time out, and
    the timeout when all ten do. *)
Theorem retry_attempts (call : string) (args : list string) (s : sys) :
  ∃ n rc, (n ≤ 10)%nat ∧
    libssh2_retry (call_rc call args) s =
    (Ok rc, MkSys (sys_env s) (sys_trace s ++ timed_out n call args ++
              (if (n <? 10)%nat then [SSsh call args] else []))) ∧
    (if (n <? 10)%nat
     then rc ≠ LIBSSH2_ERROR_TIMEOUT ∧ rc = ssh_rc (sys_trace s ++ timed_out n call args ++ [SSsh call args])
     else rc = LIBSSH2_ERROR_TIMEOUT).
Proof. apply retry_from_run. Qed.

(** A result that is no error is that of the last thing done. *)
Lemma retry_success (call : string) (args : list string) (s s' : sys) (rc : Z) :
  libssh2_retry (call_rc call args) s = (Ok rc, s') → 0 ≤ rc →
  ssh_rc (sys_trace s') = rc ∧ last (sys_trace s') = Some (SSsh call args).
Proof.
  intros E Hrc. destruct (retry_from_run 10 call args s) as (n & rc' & _ & E' & Hr).
  unfold libssh2_retry in E. rewrite E' in E. injection E as -> <-. cbn [sys_trace].
  pose proof ssh_timeout_negative. destruct (n <? 10)%nat; [|lia]. destruct Hr as [_ ->].
  by rewrite !app_assoc, last_snoc.
Qed.
End Retry.

(** ** What a session has made sure of *)

Section Session.
Context `{Host} `{Ssh}.

Definition offers_publickey (t : list sys_event) : bool :=
  match ssh_userauth_list t with Some methods => contains "publickey" methods | None => false end.

(** The last thing done was to authenticate the user, with success. *)
Definition logged_in (username : string) (t : list sys_event) : Prop :=
  (∃ identity, last t = Some (SSsh "agent_userauth" [username; identity]) ∧ ssh_rc t = 0) ∨
  (∃ keys, last t = Some (SSsh "userauth_publickey_fromfile" (username :: keys)) ∧ 0 ≤ ssh_rc t).

(** The key of the host was compared with the known ones and is not another one. *)
Definition host_checked (hostname : string) (t : list sys_event) : Prop :=
  (∃ fingerprint, last t = Some (SSsh "knownhost_checkp" [hostname; "22"; fingerprint])) ∧
  (ssh_check t = KnownMatch ∨ ssh_check t = KnownNotFound).

Lemma grows_run {A : Type} (m : M sys A) (s s' : sys) (r : res A) :
  (∀ I, talk_closed I → preserves I m) → m s = (r, s') → sys_trace s `prefix_of` sys_trace s'.
Proof.
  intros Hm E. apply (preserves_Ok _ _ _ _ _ (Hm _ (grows_closed (sys_trace s))) E). reflexivity.
Qed.

Lemma check_host_ok (hostname : string) (s s' : sys) :
  check_host hostname s = (Ok tt, s') → ∃ t, host_checked hostname t ∧ t `prefix_of` sys_trace s'.
Proof.
  unfold check_host. intros E. apply bind_Ok in E as (u & s1 & E1 & E). injection E1 as _ <-.
  apply bind_Ok in E as (s2 & s3 & E2 & E). injection E2 as <- <-.
  destruct (ssh_hostkey _) as [fingerprint|]; [|done].
  apply bind_Ok in E as (u2 & s4 & E4 & E). injection E4 as _ <-.
  apply bind_Ok in E as (s5 & s6 & E5 & E). injection E5 as <- <-. cbn [sys_trace sys_env] in E.
  set (t := (_ ++ [SSsh "knownhost_checkp" _])) in *. exists t.
  assert (∃ f, last t = Some (SSsh "knownhost_checkp" [hostname; "22"; f])) as Hl.
  { exists fingerprint. unfold t. by rewrite last_snoc. }
  destruct (ssh_check t) eqn:Ec; [| |done..].
  - injection E as <-. split; [|done]. split; [done|by left].
  - split; [split; [done|by right]|]. destruct fingerprint as [|c f]; [by injection E as <-|].
    case_bool_decide; [by injection E as <-|].
    rewrite (bind_run_Ok _ _ _ _ _ (call_rc_run _ _ _)) in E. destruct (negb _); [done|].
    injection E as <-. by eexists.
Qed.

Lemma identities_ok (username : string) (identities : list string) (after : Z) (s s' : sys) :
  try_identities username identities after s = (Ok tt, s') → logged_in username (sys_trace s').
Proof.
  revert s. induction identities as [|i l IH]; intros s; cbn [try_identities]; [by case_match|].
  rewrite (bind_run_Ok _ _ _ _ _ (call_rc_run _ _ _)).
  destruct (Z.eqb_spec (ssh_rc (sys_trace s ++ [SSsh "agent_userauth" [username; i]])) 0); [|apply IH].
  intros [= <-]. left. exists i. cbn [sys_trace]. by rewrite last_snoc.
Qed.

Lemma pairs_ok (username sshDir : string) (names : list string) (s s' : sys) :
  try_key_pairs username sshDir names s = (Ok tt, s') → logged_in username (sys_trace s').
Proof.
  revert s. induction names as [|n names IH]; intros s; cbn [try_key_pairs]; [done|].
  intros E. apply bind_Ok in E as (used & s1 & E1 & E). destruct used; [|by eapply IH].
  injection E as <-. unfold tryAuthKeyfilePair in E1.
  apply bind_Ok in E1 as (pub & s2 & _ & E1). destruct pub as [pub|]; [|done].
  apply bind_Ok in E1 as (priv & s3 & _ & E1). destruct priv as [priv|]; [|done].
  apply bind_Ok in E1 as (pass & s4 & _ & E1). apply bind_Ok in E1 as (rc & s5 & E5 & E1).
  destruct (Z.ltb_spec rc 0); [by apply bind_Ok in E1 as (text & s6 & _ & E1)|]. injection E1 as <-.
  destruct (retry_success _ _ _ _ _ E5 ltac:(lia)) as [<- Hl]. right. by eexists.
Qed.

Lemma authenticate_ok (username sshDir : string) (s s' : sys) :
  authenticate username sshDir s = (Ok tt, s') →
  let t := sys_trace s ++ [SSsh "userauth_list" [username]] in
  if offers_publickey t then t `prefix_of` sys_trace s' ∧ logged_in username (sys_trace s')
  else sys_trace s' = t.
Proof.
  intros E t. unfold authenticate in E. apply bind_Ok in E as (u & s1 & E1 & E). injection E1 as _ <-.
  apply bind_Ok in E as (s2 & s3 & E2 & E). injection E2 as <- <-. cbn [sys_trace sys_env] in E. fold t in E.
  unfold offers_publickey. destruct (ssh_userauth_list t) as [methods|]; [|by injection E as <-].
  destruct (contains "publickey" methods); [|by injection E as <-].
  apply bind_Ok in E as (agent & s4 & E4 & E).
  pose proof (grows_run _ _ _ _ (λ I HI, preserves_try_catch _ _ _
    (preserves_bind _ _ _ (talk_agent I HI username) (λ _, preserves_ret _ _)) (λ _, preserves_ret _ _)) E4) as G4.
  destruct agent.
  - injection E as <-. split; [done|]. unfold catch_all, try_catch in E4.
    destruct ((SSHAgent_auth username;; mret true) _) as [[b|e|e] s5] eqn:E5; [|done..].
    injection E4 as -> <-. apply bind_Ok in E5 as ([] & s6 & E6 & E5). injection E5 as <-.
    unfold SSHAgent_auth in E6. rewrite (bind_run_Ok _ _ _ _ _ (call_ptr_run _ _ _)) in E6.
    destruct (negb _); [done|]. rewrite (bind_run_Ok _ _ _ _ _ (call_rc_run _ _ _)) in E6.
    destruct (negb _); [done|]. rewrite (bind_run_Ok _ _ _ _ _ (call_rc_run _ _ _)) in E6.
    destruct (negb _); [done|]. apply bind_Ok in E6 as (s7 & s8 & _ & E6).
    destruct (ssh_identities _) as [ids after]. by eapply identities_ok.
  - split; [|by eapply pairs_ok].
    etrans; [exact G4|]. eapply (grows_run _ _ _ _ (λ I HI, talk_pairs I HI _ _ _) E).
Qed.

(** C25 A session that is handed out has checked its host and, where the server offers it,
    authenticated the user.  When the constructor returns, the key of the host was compared with
    the known ones after connecting, and was found or not known at all, never another one; a
    server that offers public keys has accepted the user last; with a server that does not, no
    authentication was tried. *)
Theorem session_checked (hostname username homeDir : string) (s s' : sys) :
  SSHSession_new hostname username homeDir s = (Ok tt, s') →
  ∃ t_check t_list, host_checked hostname t_check ∧ t_check `prefix_of` t_list ∧
    if offers_publickey (t_list ++ [SSsh "userauth_list" [username]])
    then (t_list ++ [SSsh "userauth_list" [username]]) `prefix_of` sys_trace s' ∧ logged_in username (sys_trace s')
    else sys_trace s' = t_list ++ [SSsh "userauth_list" [username]].
Proof.
  unfold SSHSession_new. intros E. apply bind_Ok in E as (u & s1 & _ & E).
  apply bind_Ok in E as (sshDir & s2 & E2 & E). unfold verify_host in E2.
  rewrite (bind_run_Ok _ _ _ _ _ (call_ptr_run _ _ _)) in E2. destruct (negb _); [done|].
  apply bind_Ok in E2 as (dir & s3 & _ & E2). apply bind_Ok in E2 as (path & s4 & _ & E2).
  rewrite (bind_run_Ok _ _ _ _ _ (call_rc_run _ _ _)) in E2. destruct (_ <? 0); [done|].
  apply bind_Ok in E2 as ([] & s5 & E5 & E2). injection E2 as _ <-.
  destruct (check_host_ok _ _ _ E5) as (t & Ht & Hp).
  exists t, (sys_trace s5). split; [done|]. split; [done|]. by apply (authenticate_ok username sshDir).
Qed.
End Session.

(** ** Sending files *)

(** The bytes that were sent to a file on a host. *)
Fixpoint sent_to (hostname path : string) (t : list sys_event) : list ascii :=
  match t with
  | [] => []
  | SSend h p bs :: t' =>
      (if bool_decide (h = hostname ∧ p = path) then bs else []) ++ sent_to hostname path t'
  | _ :: t' => sent_to hostname path t'
  end.

Lemma sent_to_app (hostname path : string) (t t' : list sys_event) :
  sent_to hostname path (t ++ t') = sent_to hostname path t ++ sent_to hostname path t'.
Proof. induction t as [|e t IH]; [done|]. destruct e; cbn; rewrite IH; try done. by rewrite app_assoc. Qed.

Lemma sent_closed (hostname path : string) (bs : list ascii) :
  talk_closed (λ s, sent_to hostname path (sys_trace s) = bs).
Proof. intros s e He <-. cbn [sys_trace]. rewrite sent_to_app. destruct e; try done; cbn; by rewrite app_nil_r. Qed.

Lemma env_closed (env : gmap string string) : talk_closed (λ s, sys_env s = env).
Proof. by intros s e _. Qed.

Section Files.
Context `{Host} `{Ssh}.

(** A channel that takes at least a byte of what it is given, and no more than that. *)
Definition channel_takes : Prop := ∀ t bs, bs ≠ [] →
  1 ≤ ssh_written (t ++ [SSsh "channel_write" [string_of_list_ascii bs]]) ≤ Z.of_nat (length bs).

(** The outcome [r] with bytes sent to a file on a host and to no other file, and the environment
    left alone. *)
Definition sends {A : Type} (hostname path : string) (m : M sys A) (s : sys) (r : res A) (bs : list ascii) : Prop :=
  ∃ s', m s = (r, s') ∧ sys_env s' = sys_env s ∧ ∀ h p, sent_to h p (sys_trace s') =
    sent_to h p (sys_trace s) ++ (if bool_decide (hostname = h ∧ path = p) then bs else []).

Lemma sends_bind {A B : Type} (hostname path : string) (m : M sys A) (k : A → M sys B) (s : sys) (a : A)
    (r : res B) (bs bs' : list ascii) :
  sends hostname path m s (Ok a) bs → (∀ s1, sends hostname path (k a) s1 r bs') →
  sends hostname path (m ≫= k) s r (bs ++ bs').
Proof.
  intros (s1 & E1 & Hv1 & Hs1) Hk. destruct (Hk s1) as (s2 & E2 & Hv2 & Hs2). exists s2.
  rewrite (bind_run_Ok _ _ _ _ _ E1). split; [done|]. split; [congruence|]. intros h p. rewrite Hs2, Hs1, <-app_assoc.
  by case_bool_decide.
Qed.

Lemma sends_talk {A : Type} (hostname path : string) (m : M sys A) (s s' : sys) (r : res A) :
  (∀ I, talk_closed I → preserves I m) → m s = (r, s') → sends hostname path m s r [].
Proof.
  intros Hm E. exists s'. split; [done|]. split; [by apply (preserves_Ok _ _ _ _ _ (Hm _ (env_closed (sys_env s))) E)|].
  intros h p. replace (if bool_decide (hostname = h ∧ path = p) then [] else []) with (@nil ascii) by by case_bool_decide.
  rewrite app_nil_r. apply (preserves_Ok _ _ _ _ _ (Hm _ (sent_closed h p _)) E). done.
Qed.

Lemma send_block_sends (fuel : nat) (hostname path : string) (bs : list ascii) (s : sys) :
  channel_takes → bs ≠ [] → (length bs ≤ fuel)%nat →
  sends hostname path (send_block fuel hostname path bs) s (Ok tt) bs.
Proof.
  intros Hc. revert bs s. induction fuel as [|fuel IH]; intros bs s Hbs Hlen; [by destruct bs; cbn in Hlen; [|lia]|].
  cbn [send_block]. pose proof (Hc (sys_trace s) bs Hbs) as Hrc.
  set (t := sys_trace s ++ [SSsh "channel_write" [string_of_list_ascii bs]]) in *. set (rc := ssh_written t) in *.
  assert (∀ h p, sent_to h p t = sent_to h p (sys_trace s)) as Ht.
  { intros h p. unfold t. rewrite sent_to_app. cbn. by rewrite app_nil_r. }
  rewrite <-(take_drop (Z.to_nat rc) bs) at 2.
  unfold sends. rewrite (bind_run_Ok (channel_write bs) _ s rc (MkSys (sys_env s) t)) by done.
  destruct (Z.ltb_spec rc 0); [lia|]. destruct (Z.ltb_spec (Z.of_nat (length bs)) rc); [lia|].
  rewrite (bind_run_Ok (sys_emit _) _ _ tt (MkSys (sys_env s) (t ++ [SSend hostname path (take (Z.to_nat rc) bs)]))) by done.
  assert (∀ h p, sent_to h p (t ++ [SSend hostname path (take (Z.to_nat rc) bs)]) =
    sent_to h p (sys_trace s) ++ (if bool_decide (hostname = h ∧ path = p) then take (Z.to_nat rc) bs else [])) as Hs.
  { intros h p. rewrite sent_to_app, Ht. cbn. by rewrite app_nil_r. }
  case_bool_decide as Hrest.
  - eexists. split; [done|]. split; [done|]. intros h p. cbn [sys_trace]. rewrite Hs, Hrest, app_nil_r. done.
  - assert (length (drop (Z.to_nat rc) bs) ≤ fuel)%nat as Hl by (rewrite length_drop; lia).
    destruct (IH (drop (Z.to_nat rc) bs) (MkSys (sys_env s) (t ++ [SSend hostname path (take (Z.to_nat rc) bs)])) Hrest Hl)
      as (s' & E & Hv & Hs'). exists s'. split; [done|]. split; [done|]. intros h p. rewrite Hs'. cbn [sys_trace]. rewrite Hs.
    rewrite <-app_assoc. by case_bool_decide.
Qed.

(** The bytes of a file that are sent: all of them, or the whole blocks before an error. *)
Definition sent_bytes (contents : list ascii) (error : option string) : list ascii :=
  match error with
  | None => contents
  | Some _ => take (BLOCK_SIZE * (length contents / BLOCK_SIZE)) contents
  end.

Definition sent_result (error : option string) : res () :=
  match error with None => Ok tt | Some text => Throw ("Error in reading from file: " +:+ text) end.

Lemma sends_same {A : Type} (hostname path : string) (m : M sys A) (s : sys) (r : res A) :
  m s = (r, s) → sends hostname path m s r [].
Proof.
  intros E. exists s. split; [done|]. split; [done|]. intros h p. case_bool_decide; by rewrite app_nil_r.
Qed.

Lemma sent_bytes_block (contents : list ascii) (error : option string) :
  (BLOCK_SIZE ≤ length contents)%nat →
  sent_bytes contents error = take BLOCK_SIZE contents ++ sent_bytes (drop BLOCK_SIZE contents) error.
Proof.
  intros Hl. destruct error as [e|]; cbn [sent_bytes]; [|by rewrite take_drop].
  rewrite length_drop. set (n := length contents) in *.
  assert (n / BLOCK_SIZE = S ((n - BLOCK_SIZE) / BLOCK_SIZE))%nat as ->.
  { replace n with ((n - BLOCK_SIZE) + 1 * BLOCK_SIZE)%nat at 1 by lia.
    rewrite Nat.div_add by done. lia. }
  rewrite Nat.mul_succ_r, Nat.add_comm. by rewrite take_take_drop.
Qed.

Lemma send_blocks_sends (rounds fuel : nat) (hostname path : string) (contents : list ascii)
    (error : option string) (s : sys) :
  channel_takes → (length contents < rounds)%nat → (BLOCK_SIZE ≤ fuel)%nat →
  sends hostname path (send_blocks rounds fuel hostname path contents error) s
    (sent_result error) (sent_bytes contents error).
Proof.
  intros Hc. revert contents s. induction rounds as [|rounds IH]; intros contents s Hlen Hfuel; [lia|].
  cbn [send_blocks].
  assert (∀ bs, contents = bs → bs ≠ [] → sends hostname path
    (send_block fuel hostname path (take BLOCK_SIZE contents);;
     send_blocks rounds fuel hostname path (drop BLOCK_SIZE contents) error) s (sent_result error)
    (take BLOCK_SIZE contents ++ sent_bytes (drop BLOCK_SIZE contents) error)) as Hstep.
  { intros bs -> Hbs. apply (sends_bind _ _ _ _ _ tt).
    - apply send_block_sends; [done| |rewrite length_take; lia]. by destruct bs.
    - intros s1. apply IH; [|done]. rewrite length_drop. destruct bs; [done|]. cbn [length] in *. unfold BLOCK_SIZE. lia. }
  destruct error as [text|].
  - destruct (Nat.ltb_spec (length contents) BLOCK_SIZE) as [Hl|Hl].
    + cbn [sent_bytes sent_result]. rewrite Nat.div_small, Nat.mul_0_r, take_0 by done. by apply sends_same.
    + rewrite sent_bytes_block by done. apply (Hstep contents eq_refl). intros ->. cbn in Hl. unfold BLOCK_SIZE in Hl. lia.
  - case_bool_decide as Hnil; [subst; by apply sends_same|].
    specialize (Hstep contents eq_refl Hnil). cbn [sent_bytes] in Hstep |- *. by rewrite take_drop in Hstep.
Qed.

Lemma file_sends (fuel : nat) (hostname source destination : string) (mode size : Z)
    (contents : list ascii) (error : option string) (s : sys) :
  channel_takes → (BLOCK_SIZE ≤ fuel)%nat →
  (∀ t, ssh_file t source = Some (Some size, contents, error)) →
  (∀ t args, ssh_ptr (t ++ [SSsh "scp_send" args]) = true) →
  sends hostname destination (sendRemoteFile fuel hostname source destination mode) s
    (sent_result error) (sent_bytes contents error).
Proof.
  intros Hc Hfuel Hfile Hscp. unfold sendRemoteFile. apply (sends_bind _ _ _ _ _ s _ []); [by apply sends_same|].
  intros s1. rewrite Hfile.
  apply (sends_bind _ _ _ _ _ true _ []).
  { eapply sends_talk; [intros; by apply talk_call_ptr|]. rewrite call_ptr_run, Hscp. done. }
  intros s2. cbn [negb]. apply (sends_bind _ _ _ _ _ s2 _ []); [by apply sends_same|].
  intros s3. rewrite Hfile. apply send_blocks_sends; [done|lia|done].
Qed.

(** A file is sent whole.  When the channel takes some of what it is given at each call, and
    blocks may take as many calls as they have bytes, sending a regular file ends; every byte of
    the file arrives once, in order, in the file of the host that was asked for, and nothing
    anywhere else; an error of reading is passed on, after the whole blocks before it. *)
Theorem file_sent_whole (fuel : nat) (hostname source destination : string) (mode size : Z)
    (contents : list ascii) (error : option string) (s : sys) :
  channel_takes → (BLOCK_SIZE ≤ fuel)%nat →
  (∀ t, ssh_file t source = Some (Some size, contents, error)) →
  (∀ t args, ssh_ptr (t ++ [SSsh "scp_send" args]) = true) →
  sends hostname destination (sendRemoteFile fuel hostname source destination mode) s
    (sent_result error) (sent_bytes contents error).
Proof. by apply file_sends. Qed.
End Files.

(** ** Packages *)

Section Packages.
Context `{Host} `{FrontendDaemon} `{InstalledPrograms} `{Ssh}.

Lemma ship_nodes (fuel : nat) (app : GenericSSHApp) (tarPath destination : string) (size : Z)
    (contents : list ascii) (ns : list NodeLayout) (s : sys) :
  channel_takes → (BLOCK_SIZE ≤ fuel)%nat →
  (∀ t, ssh_file t tarPath = Some (Some size, contents, None)) →
  (∀ t args, ssh_ptr (t ++ [SSsh "scp_send" args]) = true) →
  Forall (λ n, ∀ s1, sys_env s1 = sys_env s → ∃ s2, node_session app (hostname n) s1 = (Ok tt, s2)) ns →
  NoDup (map hostname ns) →
  ∃ s', for_each ns (λ n, node_session app (hostname n);;
          sendRemoteFile fuel (hostname n) tarPath destination 511) s = (Ok tt, s') ∧
    ∀ h p, sent_to h p (sys_trace s') = sent_to h p (sys_trace s) ++
      (if bool_decide (h ∈ map hostname ns ∧ p = destination) then contents else []).
Proof.
  intros Hc Hfuel Hfile Hscp Hns Hnd. remember (sys_env s) as env eqn:Henv. revert s Henv.
  induction Hns as [|n ns Hn Hns IH]; intros s ->.
  { exists s. split; [done|]. intros h p. rewrite bool_decide_false by set_solver. by rewrite app_nil_r. }
  cbn [map] in Hnd. apply NoDup_cons in Hnd as [Hnin Hnd]. cbn [for_each].
  destruct (Hn s eq_refl) as [s1 Er1].
  assert (sends (hostname n) destination (node_session app (hostname n);;
    sendRemoteFile fuel (hostname n) tarPath destination 511) s (Ok tt) ([] ++ contents)) as (s2 & Er2 & Hv2 & Hs2).
  { apply (sends_bind _ _ _ _ _ tt).
    - eapply sends_talk; [intros; by apply talk_session|exact Er1].
    - intros s'. exact (file_sends fuel (hostname n) tarPath destination 511 size contents None s' Hc Hfuel Hfile Hscp). }
  destruct (IH Hnd s2 ltac:(done)) as (s3 & Er3 & Hs3). exists s3. rewrite (bind_run_Ok _ _ _ _ _ Er2). split; [done|].
  intros h p. rewrite Hs3, Hs2, <-app_assoc. f_equal. rewrite app_nil_l.
  destruct (decide (hostname n = h)) as [<-|Hne].
  - rewrite (bool_decide_false (hostname n ∈ map hostname ns ∧ _)) by tauto. rewrite app_nil_r.
    apply (f_equal (λ b : bool, if b then contents else [])), bool_decide_ext. set_solver.
  - rewrite bool_decide_false by tauto. rewrite app_nil_l.
    apply (f_equal (λ b : bool, if b then contents else [])), bool_decide_ext. set_solver.
Qed.

(** C34 A package reaches every node.  When the nodes of an application can be reached, their
    channels take what they are given and the package can be read, shipPackage returns, and on
    every node exactly the bytes of the package have arrived under its name in the directory of
    tools; no other file is sent anything. *)
Theorem package_reaches_nodes (fuel : nat) (app : GenericSSHApp) (tarPath packageName : string) (size : Z)
    (contents : list ascii) (s : sys) :
  let destination := m_toolPath app +:+ "/" +:+ packageName in
  channel_takes → (BLOCK_SIZE ≤ fuel)%nat →
  (∀ t, ssh_file t tarPath = Some (Some size, contents, None)) →
  (∀ t args, ssh_ptr (t ++ [SSsh "scp_send" args]) = true) →
  Forall (λ n, ∀ s1, sys_env s1 = sys_env s → ∃ s2, node_session app (hostname n) s1 = (Ok tt, s2))
    (nodes (m_stepLayout app)) →
  NoDup (getHostnameList app) → cstr_basename tarPath = Ok packageName →
  ∃ s', shipPackage fuel app tarPath s = (Ok tt, s') ∧
    ∀ h p, sent_to h p (sys_trace s') = sent_to h p (sys_trace s) ++
      (if bool_decide (h ∈ getHostnameList app ∧ p = destination) then contents else []).
Proof.
  intros destination Hc Hfuel Hfile Hscp Hns Hnd Hbase. unfold shipPackage.
  rewrite (bind_run_Ok _ _ _ packageName s) by (unfold lift; by rewrite Hbase).
  by apply (ship_nodes fuel app tarPath destination size).
Qed.
End Packages.

(** ** The layout *)

(** Hosts and processes of a table. *)
Definition placed (e : MPIRProctableElem) : string * Z := (base_hostname (el_hostname e), el_pid e).

Definition pids_on (h : string) (l : list (string * Z)) : list Z := map snd (filter (λ p, p.1 = h) l).

(** Where a host is first. *)
Fixpoint first_at (h : string) (l : list (string * Z)) : nat :=
  match l with
  | [] => O
  | (x, _) :: l' => if decide (x = h) then O else S (first_at h l')
  end.

(** The hosts in the order in which they come up. *)
Definition add_host (hs : list string) (h : string) : list string := if decide (h ∈ hs) then hs else hs ++ [h].

Definition hosts_in_order (l : list (string * Z)) : list string := foldl add_host [] (map fst l).

Definition node_of (l : list (string * Z)) (h : string) : NodeLayout :=
  MkNode h (pids_on h l) (Z.of_nat (first_at h l)).

Lemma hosts_snoc (l : list (string * Z)) (p : string * Z) :
  hosts_in_order (l ++ [p]) = add_host (hosts_in_order l) p.1.
Proof. unfold hosts_in_order. by rewrite map_app, foldl_app. Qed.

Lemma elem_of_hosts (l : list (string * Z)) (h : string) : h ∈ hosts_in_order l ↔ h ∈ map fst l.
Proof.
  induction l as [|p l IH] using rev_ind; [done|]. rewrite hosts_snoc, map_app, elem_of_app, <-IH.
  unfold add_host. cbn. case_decide; rewrite ?elem_of_app; set_solver.
Qed.

Lemma NoDup_hosts (l : list (string * Z)) : NoDup (hosts_in_order l).
Proof.
  induction l as [|p l IH] using rev_ind; [apply NoDup_nil_2|]. rewrite hosts_snoc. unfold add_host.
  case_decide; [done|]. apply NoDup_app. split; [done|]. split; [set_solver|apply NoDup_singleton].
Qed.

Lemma pids_on_snoc (h : string) (l : list (string * Z)) (p : string * Z) :
  pids_on h (l ++ [p]) = pids_on h l ++ (if decide (p.1 = h) then [p.2] else []).
Proof. unfold pids_on. rewrite filter_app, map_app. f_equal. rewrite filter_cons, filter_nil. by case_decide. Qed.

Lemma first_at_snoc (h : string) (l : list (string * Z)) (p : string * Z) :
  h ∈ map fst l → first_at h (l ++ [p]) = first_at h l.
Proof.
  induction l as [|[x q] l IH]; cbn; [set_solver|]. intros Hin. case_decide; [done|]. f_equal. apply IH. set_solver.
Qed.

Lemma first_at_new (h : string) (l : list (string * Z)) (pid : Z) :
  h ∉ map fst l → first_at h (l ++ [(h, pid)]) = length l.
Proof.
  induction l as [|[x q] l IH]; cbn; [by rewrite decide_True|]. intros Hin.
  rewrite decide_False by set_solver. f_equal. apply IH. set_solver.
Qed.

Lemma pids_on_none (h : string) (l : list (string * Z)) : h ∉ map fst l → pids_on h l = [].
Proof.
  intros Hin. unfold pids_on. induction l as [|[x q] l IH]; [done|]. cbn in Hin.
  rewrite filter_cons_False by (cbn; set_solver). apply IH. set_solver.
Qed.

(** The nodes after one more process. *)
Lemma nodes_snoc_new (l : list (string * Z)) (h : string) (pid : Z) :
  h ∉ hosts_in_order l →
  map (node_of (l ++ [(h, pid)])) (hosts_in_order (l ++ [(h, pid)])) =
  map (node_of l) (hosts_in_order l) ++ [MkNode h [pid] (Z.of_nat (length l))].
Proof.
  intros Hin. pose proof Hin as Hin'. rewrite elem_of_hosts in Hin'. rewrite hosts_snoc. unfold add_host. cbn [fst].
  rewrite decide_False by done. rewrite map_app. f_equal.
  - apply map_ext_in. intros x Hx. apply list_elem_of_In in Hx. unfold node_of.
    rewrite pids_on_snoc, decide_False, app_nil_r by (cbn; by intros <-).
    by rewrite first_at_snoc by by apply elem_of_hosts.
  - cbn. unfold node_of. rewrite pids_on_snoc, pids_on_none, first_at_new by done. cbn. by rewrite decide_True.
Qed.

Lemma nodes_snoc_old (l : list (string * Z)) (h : string) (pid : Z) (nid : nat) :
  hosts_in_order l !! nid = Some h →
  map (node_of (l ++ [(h, pid)])) (hosts_in_order (l ++ [(h, pid)])) =
  alter (add_pid pid) nid (map (node_of l) (hosts_in_order l)).
Proof.
  intros Hnid. assert (h ∈ hosts_in_order l) as Hin by by eapply list_elem_of_lookup_2.
  rewrite hosts_snoc. unfold add_host. cbn [fst]. rewrite decide_True by done.
  apply list_eq. intros i. destruct (decide (i = nid)) as [->|Hne].
  - rewrite list_lookup_alter_eq, !list_lookup_fmap, Hnid. cbn. unfold node_of, add_pid. cbn. rewrite pids_on_snoc, decide_True by done.
    by rewrite first_at_snoc by by apply elem_of_hosts.
  - rewrite list_lookup_alter_ne, !list_lookup_fmap by done.
    destruct (hosts_in_order l !! i) as [x|] eqn:Ex; [|done]. cbn. f_equal.
    assert (x ≠ h) by (intros ->; by destruct Hne; eapply NoDup_lookup; [apply NoDup_hosts|..]).
    unfold node_of. rewrite pids_on_snoc, decide_False, app_nil_r by done.
    rewrite first_at_snoc; [done|]. apply elem_of_hosts. by eapply list_elem_of_lookup_2.
Qed.

Lemma layout_nodes_run (procTable : list MPIRProctableElem) (l : list (string * Z)) (m : gmap string nat) :
  (∀ h i, m !! h = Some i ↔ hosts_in_order l !! i = Some h) →
  layout_nodes procTable (Z.of_nat (length l)) m (map (node_of l) (hosts_in_order l)) =
  map (node_of (l ++ map placed procTable)) (hosts_in_order (l ++ map placed procTable)).
Proof.
  revert l m. induction procTable as [|e tbl IH]; intros l m Hm; [by rewrite app_nil_r|].
  cbn [layout_nodes map].
  replace (l ++ placed e :: map placed tbl) with ((l ++ [placed e]) ++ map placed tbl) by by rewrite <-app_assoc.
  assert (Z.of_nat (length l) + 1 = Z.of_nat (length (l ++ [placed e]))) as -> by (rewrite length_app; cbn; lia).
  set (h := base_hostname (el_hostname e)). change (placed e) with (h, el_pid e).
  destruct (m !! h) as [nid|] eqn:Eh.
  - apply Hm in Eh. rewrite <-(nodes_snoc_old l h (el_pid e) nid) by done. apply IH. intros x i. rewrite Hm, hosts_snoc.
    unfold add_host. cbn [fst]. by rewrite decide_True by by eapply list_elem_of_lookup_2.
  - assert (h ∉ hosts_in_order l) as Hnin.
    { intros [i Hi]%list_elem_of_lookup. apply Hm in Hi. congruence. }
    rewrite <-(nodes_snoc_new l h (el_pid e)) by done. apply IH. intros x i. rewrite hosts_snoc. unfold add_host. cbn [fst].
    rewrite decide_False, length_map by done. rewrite lookup_insert_Some, Hm, lookup_app_Some. split.
    + intros [[<- <-]|[Hne Hi]]; [right; by rewrite Nat.sub_diag|by left].
    + intros [Hi|[Hge Hi]].
      * right. split; [|done]. intros ->. apply Hnin. by eapply list_elem_of_lookup_2.
      * left. destruct (i - length (hosts_in_order l))%nat eqn:Ei; [|done]. injection Hi as <-. split; [done|lia].
Qed.

(** The nodes are the hosts in the order in which they come up, each with its processes. *)
Lemma fetchStepLayout_spec (procTable : list MPIRProctableElem) :
  fetchStepLayout procTable =
  MkStep (Z.of_nat (length procTable)) (map (node_of (map placed procTable)) (hosts_in_order (map placed procTable))).
Proof. unfold fetchStepLayout. f_equal. by apply (layout_nodes_run procTable [] ∅). Qed.

(** ** What the backend reads *)

(** The processes of every host follow one another. *)
Fixpoint grouped (hosts : list string) : Prop :=
  match hosts with
  | [] => True
  | h :: hosts' => (head hosts' = Some h ∨ h ∉ hosts') ∧ grouped hosts'
  end.

(** The part of the list of processes that the backend takes for those of a host. *)
Definition slice (l : list (string * Z)) (h : string) : list Z :=
  take (length (pids_on h l)) (drop (first_at h l) (map snd l)).

Lemma pids_on_cons (h : string) (p : string * Z) (l : list (string * Z)) :
  pids_on h (p :: l) = (if decide (p.1 = h) then [p.2] else []) ++ pids_on h l.
Proof. unfold pids_on. rewrite filter_cons. by case_decide. Qed.

Lemma grouped_head (h : string) (l : list (string * Z)) :
  grouped (h :: map fst l) → take (length (pids_on h l)) (map snd l) = pids_on h l.
Proof.
  induction l as [|[x q] l IH]; [done|]. cbn [map fst snd grouped head]. intros [Hh Hg].
  destruct Hh as [[= ->]|Hh]; [|by rewrite (pids_on_none h ((x, q) :: l))].
  rewrite pids_on_cons. cbn [fst snd]. rewrite decide_True by done. cbn. f_equal. by apply IH.
Qed.

Lemma grouped_slices (l : list (string * Z)) (h : string) :
  grouped (map fst l) → h ∈ map fst l → slice l h = pids_on h l.
Proof.
  unfold slice. induction l as [|[x q] l IH]; [set_solver|]. intros Hg Hin. cbn [first_at map fst].
  rewrite pids_on_cons. cbn [fst snd]. destruct (decide (x = h)) as [->|Hne].
  - cbn. f_equal. by apply grouped_head.
  - cbn [app drop]. cbn in Hin. apply IH; [apply Hg|set_solver].
Qed.

Lemma slice_tail (x h : string) (q : Z) (l : list (string * Z)) :
  x ≠ h → slice ((x, q) :: l) h = slice l h ∧ pids_on h ((x, q) :: l) = pids_on h l.
Proof. intros Hne. unfold slice. rewrite pids_on_cons. cbn. by rewrite !decide_False. Qed.

Lemma pids_on_elem (h : string) (l : list (string * Z)) (q : Z) : q ∈ pids_on h l ↔ (h, q) ∈ l.
Proof.
  unfold pids_on. rewrite list_elem_of_fmap. setoid_rewrite list_elem_of_filter. split.
  - by intros ([x q'] & -> & <- & ?).
  - intros Hin. by exists (h, q).
Qed.

(** Distinct numbers belong to one host. *)
Lemma slices_grouped (l : list (string * Z)) :
  NoDup (map snd l) → (∀ h, h ∈ map fst l → slice l h = pids_on h l) → grouped (map fst l).
Proof.
  induction l as [|[x q] l IH]; [done|]. cbn [map fst snd grouped]. intros [Hq Hnd]%NoDup_cons Hs.
  assert (x ∉ map fst l ∨ (∃ q' l', l = (x, q') :: l') ∧ slice l x = pids_on x l) as Hx.
  { destruct (decide (x ∈ map fst l)) as [Hin|]; [right|by left].
    specialize (Hs x ltac:(set_solver)). unfold slice in Hs. rewrite pids_on_cons in Hs. cbn in Hs.
    rewrite !decide_True in Hs by done. cbn in Hs. injection Hs as Hs.
    destruct l as [|[y q'] l]; [set_solver|]. assert (y = x) as ->.
    { apply list_elem_of_fmap in Hin as ([z q''] & -> & Hin). cbn [fst] in Hs |- *.
      destruct (pids_on z ((y, q') :: l)) as [|p ps] eqn:E.
      { apply pids_on_elem in Hin. rewrite E in Hin. by apply not_elem_of_nil in Hin. }
      cbn in Hs. injection Hs as -> _. assert ((z, p) ∈ (y, p) :: l) as Hz.
      { apply pids_on_elem. rewrite E. apply list_elem_of_here. }
      apply elem_of_cons in Hz as [[= ->]|Hz]; [done|]. cbn in Hnd. apply NoDup_cons in Hnd as [[] _].
      apply list_elem_of_fmap. by exists (z, p). }
    split; [by eexists _, _|]. unfold slice. cbn [first_at]. rewrite decide_True by done. exact Hs. }
  split; [destruct Hx as [?|[(q' & l' & ->) _]]; [by right|by left]|].
  apply IH; [done|]. intros h Hh. destruct (decide (x = h)) as [<-|Hne].
  - destruct Hx as [?|[_ ?]]; [done|done].
  - destruct (slice_tail x h q l Hne) as [<- <-]. apply Hs. set_solver.
Qed.

(** The processes the backend of a host takes from the files: as many as the layout says, from
    the first on. *)
Definition backend_pids (layout pid_list : bytes) (h : string) : option (list Z) :=
  '(_, numPids, firstPE) ← List.find (λ e, bool_decide (e.1.1 = h)) (decode_layout layout);
  Some (take (Z.to_nat numPids) (drop (Z.to_nat firstPE) (decode_pids pid_list))).

Lemma find_node (l : list (string * Z)) (h : string) (hs : list string) :
  h ∈ hs → List.find (λ e, bool_decide (e.1.1 = h)) (map node_entry (map (node_of l) hs)) =
  Some (node_entry (node_of l h)).
Proof.
  induction hs as [|x hs IH]; [set_solver|]. intros Hin. cbn [map List.find node_entry node_of hostname fst].
  case_bool_decide as E; [by subst|]. apply IH. set_solver.
Qed.

Lemma pids_on_length (h : string) (l : list (string * Z)) : (length (pids_on h l) ≤ length l)%nat.
Proof. unfold pids_on. rewrite length_map. apply length_filter. Qed.

Lemma first_at_length (h : string) (l : list (string * Z)) : (first_at h l ≤ length l)%nat.
Proof. induction l as [|[x q] l IH]; [done|]. cbn. case_decide; lia. Qed.

Lemma length_hosts (l : list (string * Z)) : (length (hosts_in_order l) ≤ length l)%nat.
Proof.
  induction l as [|p l IH] using rev_ind; [done|]. rewrite hosts_snoc, length_app. unfold add_host.
  case_decide; [lia|]. rewrite length_app. cbn. lia.
Qed.

Lemma layout_fits (procTable : list MPIRProctableElem) :
  Forall (λ e, name_fits (base_hostname (el_hostname e))) procTable → Z.of_nat (length procTable) < 2 ^ 31 →
  let entries := map node_entry (nodes (fetchStepLayout procTable)) in
  Forall entry_fits entries ∧ in_int (Z.of_nat (length entries)) = true.
Proof.
  intros Hh Hn. cbv zeta. split.
  - rewrite fetchStepLayout_spec. cbn [nodes]. apply Forall_map, Forall_map, Forall_forall. intros h Hin.
    apply elem_of_hosts, list_elem_of_fmap in Hin as (p & -> & Hin).
    apply list_elem_of_fmap in Hin as (e & -> & Hin). pose proof (proj1 (Forall_forall _ _) Hh e Hin) as [? ?].
    pose proof (pids_on_length (placed e).1 (map placed procTable)) as H1.
    pose proof (first_at_length (placed e).1 (map placed procTable)) as H2. rewrite length_map in H1, H2.
    unfold entry_fits, node_entry, node_of. cbn [hostname pids firstPE].
    split_and!; [done|done|unfold in_int, int_min, int_max; lia..].
  - rewrite fetchStepLayout_spec. cbn [nodes]. rewrite !length_map.
    pose proof (length_hosts (map placed procTable)) as H1. rewrite length_map in H1.
    unfold in_int, int_min, int_max. lia.
Qed.

Lemma layout_read (procTable : list MPIRProctableElem) :
  Forall (λ e, name_fits (base_hostname (el_hostname e))) procTable → Z.of_nat (length procTable) < 2 ^ 31 →
  ∃ b, createNodeLayoutFile (fetchStepLayout procTable) = Ok b ∧
    decode_layout b = map node_entry (nodes (fetchStepLayout procTable)).
Proof. intros Hh Hn. destruct (layout_fits procTable Hh Hn). by apply layout_file_roundtrip. Qed.

Lemma backend_pids_slice (procTable : list MPIRProctableElem) (b : bytes) (h : string) :
  let l := map placed procTable in
  decode_layout b = map node_entry (nodes (fetchStepLayout procTable)) →
  Forall (λ e, in_int (el_pid e) = true) procTable → Z.of_nat (length procTable) < 2 ^ 31 →
  h ∈ map fst l → backend_pids b (createPIDListFile procTable) h = Some (slice l h).
Proof.
  intros l Hb Hp Hn Hin. unfold backend_pids. rewrite Hb, fetchStepLayout_spec. cbn [nodes].
  rewrite (find_node _ h) by by apply elem_of_hosts. cbn [mbind option_bind node_entry node_of hostname pids firstPE].
  unfold createPIDListFile. rewrite pid_file_roundtrip.
  - unfold slice, l. rewrite map_map. by rewrite !Nat2Z.id.
  - by apply Forall_map.
  - rewrite length_map. unfold in_int, int_min, int_max. lia.
Qed.

(** The backend finds the processes of its host exactly when the table is grouped.  The
    layout of a table, when host names have at most 63 characters and numbers fit the type int,
    is written and read back as the hosts in the order in which they come up.  When the
    processes of every host follow one another in the table, the backend of every host takes
    exactly its processes, in order; for processes with distinct numbers the converse holds: in
    any other table the backend of some host takes others. *)
Theorem backend_pids_grouped (procTable : list MPIRProctableElem) :
  Forall (λ e, name_fits (base_hostname (el_hostname e)) ∧ in_int (el_pid e) = true) procTable →
  Z.of_nat (length procTable) < 2 ^ 31 →
  let l := map placed procTable in
  ∃ b, createNodeLayoutFile (fetchStepLayout procTable) = Ok b ∧
    decode_layout b = map node_entry (nodes (fetchStepLayout procTable)) ∧
    (grouped (map fst l) →
       ∀ h, h ∈ map fst l → backend_pids b (createPIDListFile procTable) h = Some (pids_on h l)) ∧
    (NoDup (map snd l) →
       (∀ h, h ∈ map fst l → backend_pids b (createPIDListFile procTable) h = Some (pids_on h l)) →
       grouped (map fst l)).
Proof.
  intros [Hh Hp]%Forall_and Hn l. destruct (layout_read procTable Hh Hn) as (b & E & Hd).
  exists b. split; [done|]. split; [done|]. split.
  - intros Hg h Hin. rewrite backend_pids_slice by done. f_equal. by apply grouped_slices.
  - intros Hnd Hall. apply slices_grouped; [done|]. intros h Hin. specialize (Hall h Hin).
    rewrite backend_pids_slice in Hall by done. by injection Hall.
Qed.

(** The last argument of the command that sends a signal is followed by a redirection at once:
    a shell takes digits in that place for a descriptor. *)
Lemma kill_command (signum pid : Z) (h : string) (others : list Z) (firstPE : Z) :
  ∃ command, remote_command (kill_argv signum (MkNode h (others ++ [pid]) firstPE)) true =
    command +:+ " " +:+ to_string pid +:+ "< /dev/null > /dev/null 2>&1".
Proof.
  unfold remote_command, kill_argv. cbn [negb pids app].
  assert (∀ l x, l ≠ [] → joinStr (l ++ [x]) " " = joinStr l " " +:+ " " +:+ x) as Hj.
  { intros l x Hl. induction l as [|a [|b l] IH]; [done|done|]. cbn [app joinStr] in *.
    rewrite IH by done. by rewrite !string_app_assoc. }
  rewrite map_app, !app_comm_cons. cbn [map]. rewrite Hj by done.
  eexists. rewrite string_app_assoc. reflexivity.
Qed.

(** ** Examples *)

(** Hosts that answer, accept this user's key and take a byte at a time. *)
#[local] Instance demo_ssh : Ssh.
Proof.
  refine {|
    LIBSSH2_ERROR_TIMEOUT := -9; LIBSSH2_ERROR_EAGAIN := -37;
    ssh_getaddrinfo _ := None;
    ssh_rc _ := 0;
    ssh_written _ := 1;
    ssh_ptr _ := true;
    ssh_last_error _ := None;
    ssh_hostkey _ := Some "key";
    ssh_check _ := KnownMatch;
    ssh_userauth_list _ := Some "publickey,password";
    ssh_identities _ := ([], 1);
    ssh_select_error _ := None;
    ssh_file _ _ := Some (Some 3, list_ascii_of_string "tar", None)
  |}.
  done.
Defined.

(** A home with a directory .ssh and readable files. *)
#[local] Instance demo_home : Host := {|
  os_stat p := if bool_decide (last_char p = Some "/"%char) then Some TDir else Some TReg;
  os_access _ _ := true;
  os_realpath := @os_realpath slash_host;
  os_basename := @os_basename slash_host;
  os_pathFind := @os_pathFind slash_host;
  os_libFind := @os_libFind slash_host;
  os_ld_val := @os_ld_val slash_host;
  os_getenv := @os_getenv slash_host;
  os_readdir := @os_readdir slash_host;
  os_read := @os_read slash_host
|}.

#[local] Instance demo_daemon : FrontendDaemon := demo_frontend_daemon (λ _, "") (λ _, true) "no" "".

#[local] Instance demo_installed : InstalledPrograms := {|
  mpir_shim_binary := "cti_mpir_shim"; first_subprocess_binary := "cti_first_subprocess"
|}.

Definition demo_sys : sys := MkSys ∅ [].

(** Three processes on two hosts: grouped, and with the first host coming up again. *)
Definition demo_grouped : list MPIRProctableElem :=
  [MkElem 10 "nid1.local" "/bin/a"; MkElem 11 "nid1.local" "/bin/a"; MkElem 20 "nid2.local" "/bin/a"].
Definition demo_mixed : list MPIRProctableElem :=
  [MkElem 10 "nid1" "/bin/a"; MkElem 20 "nid2" "/bin/a"; MkElem 11 "nid1" "/bin/a"].

Definition demo_ssh_app : GenericSSHApp :=
  MkSshApp (MkSshFE "user" "/home/user") (MkFrontend "" "" false "/cfg" "/opt" "" "" "/opt/be") 1 77 ∅
    (fetchStepLayout demo_grouped) "/tmp" "/tmp" "/cfg/stage" [] "cti_be1".

Lemma demo_takes : channel_takes.
Proof. intros t bs Hbs. cbn [ssh_written demo_ssh]. destruct bs; [done|]. cbn [length]. lia. Qed.

Lemma session_checked_witness :
  ∃ s', SSHSession_new "nid1" "user" "/home/user" demo_sys = (Ok tt, s') ∧
    ∃ t_check, host_checked "nid1" t_check ∧ logged_in "user" (sys_trace s').
Proof.
  destruct (SSHSession_new "nid1" "user" "/home/user" demo_sys) as [r s'] eqn:E.
  assert (r = Ok tt) as -> by (apply (f_equal fst) in E; vm_compute in E; by rewrite <-E).
  exists s'. split; [reflexivity|].
  destruct (session_checked "nid1" "user" "/home/user" demo_sys s' E) as (t & l & Hc & _ & Hl).
  exists t. split; [exact Hc|exact (proj2 Hl)].
Defined.

Lemma file_sent_whole_witness :
  sends "nid1" "/tmp/a" (sendRemoteFile 1024 "nid1" "/a" "/tmp/a" 511) demo_sys (Ok tt) (list_ascii_of_string "tar").
Proof.
  exact (file_sent_whole 1024 "nid1" "/a" "/tmp/a" 511 3 (list_ascii_of_string "tar") None demo_sys
    demo_takes (le_n _) (λ _, eq_refl) (λ _ _, eq_refl)).
Defined.

Lemma demo_session (h : string) (s : sys) :
  sys_env s = ∅ → ∃ s2, node_session demo_ssh_app h s = (Ok tt, s2).
Proof.
  destruct s as [env t]. cbn [sys_env]. intros ->. eexists.
  vm_compute. reflexivity.
Qed.

Lemma package_reaches_nodes_witness :
  ∃ s', shipPackage 1024 demo_ssh_app "/cfg/p.tar" demo_sys = (Ok tt, s') ∧
    sent_to "nid1" "/tmp/p.tar" (sys_trace s') = list_ascii_of_string "tar" ∧
    sent_to "nid2" "/tmp/p.tar" (sys_trace s') = list_ascii_of_string "tar".
Proof.
  destruct (package_reaches_nodes 1024 demo_ssh_app "/cfg/p.tar" "p.tar" 3 (list_ascii_of_string "tar") demo_sys)
    as (s' & E & Hs); [exact demo_takes|exact (le_n _)|done|done| |..].
  - apply Forall_forall. intros n _ s1. apply demo_session.
  - vm_compute. by repeat constructor; set_solver.
  - reflexivity.
  - exists s'. split; [exact E|]. rewrite !Hs. by split.
Defined.

Lemma backend_pids_grouped_witness :
  (∃ b, createNodeLayoutFile (fetchStepLayout demo_grouped) = Ok b ∧
     backend_pids b (createPIDListFile demo_grouped) "nid1" = Some [10; 11] ∧
     backend_pids b (createPIDListFile demo_grouped) "nid2" = Some [20]) ∧
  ∃ b, createNodeLayoutFile (fetchStepLayout demo_mixed) = Ok b ∧
     backend_pids b (createPIDListFile demo_mixed) "nid1" = Some [10; 20].
Proof.
  split; [|eexists; split; [reflexivity|vm_compute; reflexivity]].
  destruct (backend_pids_grouped demo_grouped) as (b & E & _ & Hg & _).
  - repeat constructor; vm_compute; try done; lia.
  - done.
  - exists b. split; [exact E|]. assert (grouped (map fst (map placed demo_grouped))) as G.
    { vm_compute. set_solver. }
    split; [exact (Hg G "nid1" ltac:(set_solver))|exact (Hg G "nid2" ltac:(set_solver))].
Defined.
