(* ===== verification/EproxyProofs.v ===== *)
(** * Slurm through eproxy: properties

    What becomes of applications and of the daemon on the login node; concrete runs. *)

From S2P Require Import Prelude Split Argv Host Wire BackendFiles Daemon Handlers FEIface System SlurmJobs.
From S2P Require Import ConfigDir Requests SlurmLayout SlurmArgs SlurmApp SlurmAppProofs SshSession EproxyApp.
From S2P Require Import SshProofs.

(** ** Properties *)

Section Properties.
Context `{Host} `{Commands} `{FrontendDaemon} `{InstalledPrograms} `{SlurmHost} `{Ssh}.

(** Events other than calls over SSH. *)
Definition is_local (e : sys_event) : Prop := match e with SSsh _ _ => False | _ => True end.

(** The last call over SSH was that which stops the daemon. *)
Definition stopped_last (s : sys) : Prop :=
  ∃ tr tr', sys_trace s = tr ++ remote_stop :: tr' ∧ Forall is_local tr'.

(** What the destructors do. *)
Definition base_ends (app : SLURMApp) : list sys_event :=
  (if is_empty (m_stagePath app) then [] else [SRemove (m_stagePath app)]) ++ [SDeregister (m_daemonAppId app)].

Definition app_ends (e : EproxySLURMApp) : list sys_event :=
  (if 0 <? m_remoteMpirId e then [remote_call "deregisterApp" [to_string (m_remoteMpirId e)]] else []) ++
  (if 0 <? m_remoteDaemon e then [remote_stop] else []) ++ base_ends (e_app e).

Lemma base_ends_local (app : SLURMApp) : Forall is_local (base_ends app).
Proof. unfold base_ends. destruct (is_empty _); by repeat constructor. Qed.

Definition after (l : list sys_event) (s : sys) : sys := MkSys (sys_env s) (sys_trace s ++ l).

Lemma after_nil (s : sys) : after [] s = s.
Proof. unfold after. rewrite app_nil_r. by destruct s. Qed.

Lemma after_after (l l' : list sys_event) (s : sys) : after l (after l' s) = after (l' ++ l) s.
Proof. unfold after. cbn. by rewrite app_assoc. Qed.

(** Code that leaves these events behind, or does not return. *)
Definition ends_with (m : M sys ()) (l : list sys_event) : Prop :=
  ∀ s, m s = (Ok tt, after l s) ∨ ∃ why, (m s).1 = Undef why.

Lemma ends_ret : ends_with (mret tt) [].
Proof. intros s. left. by rewrite after_nil. Qed.

Lemma ends_emit (e : sys_event) : ends_with (sys_emit e) [e].
Proof. by left. Qed.

Lemma ends_bind (m m' : M sys ()) (l l' : list sys_event) :
  ends_with m l → ends_with m' l' → ends_with (m;; m') (l ++ l').
Proof.
  intros Hm Hm' s. destruct (Hm s) as [E|[why E]].
  - rewrite (bind_run_Ok _ _ _ _ _ E), <-after_after. apply Hm'.
  - right. exists why. destruct (m s) as [r s1] eqn:Es. cbn in E. subst. by rewrite (bind_run_Undef _ _ _ _ _ Es).
Qed.

Lemma ends_request (e : sys_event) (answer : list sys_event → res ()) :
  ends_with (catch_all (request e answer) tt) [e].
Proof.
  intros s. unfold catch_all, try_catch. rewrite request_run.
  destruct (answer _) as [[]|what|why]; [by left|by left|right; by exists why].
Qed.

Lemma ends_RemoteDaemon_delete (d : Z) :
  ends_with (RemoteDaemon_delete d) (if 0 <? d then [remote_stop] else []).
Proof. unfold RemoteDaemon_delete. destruct (0 <? d); [apply ends_request|apply ends_ret]. Qed.

Lemma ends_SLURMApp_delete (app : SLURMApp) : ends_with (SLURMApp_delete true app) (base_ends app).
Proof.
  unfold SLURMApp_delete, base_ends. cbn [negb]. apply ends_bind; [|apply ends_request].
  destruct (is_empty _); [apply ends_ret|apply ends_emit].
Qed.

Lemma ends_EproxySLURMApp_delete (e : EproxySLURMApp) :
  ends_with (EproxySLURMApp_delete true e) (app_ends e).
Proof.
  unfold EproxySLURMApp_delete, app_ends.
  apply ends_bind; [|apply ends_bind; [apply ends_RemoteDaemon_delete|apply ends_SLURMApp_delete]].
  destruct (0 <? m_remoteMpirId e); [|apply ends_ret]. intros s. unfold try_catch, remote_deregister.
  rewrite request_run. destruct (req_done _) as [[]|what|why]; [by left|right; by eexists|right; by eexists].
Qed.

(** An application that is launched through eproxy is destroyed before its caller sees it.
    [launch] returns from before the application is registered with the frontend, so whenever it
    returns, the pointer is expired, and after the barrier was released the last it did was to
    make the login node forget the job, to stop the daemon there, to remove the staging directory
    and to deregister the application. *)
Theorem eproxy_launch_expired (fe : EproxyFE) (fd : frontend_data) (launcherName beDaemonName : string)
    (environ launcher_args env_list : list string) (s s' : sys) (r : option EproxySLURMApp) :
  Eproxy_launch true fe fd launcherName beDaemonName environ launcher_args env_list s = (Ok r, s') →
  r = None ∧ ∃ e s1 s2,
    launched_app true fe fd launcherName beDaemonName environ launcher_args env_list s = (Ok e, s1) ∧
    Eproxy_releaseBarrier e s1 = (Ok tt, s2) ∧ s' = after (app_ends e) s2.
Proof.
  unfold Eproxy_launch, explained, try_catch at 1. intros E.
  match type of E with (match ?m with _ => _ end) = _ => destruct m as [[r0|what|why] s0] eqn:Er end; [|discriminate E..]. injection E as -> ->.
  apply bind_Ok in Er as (e & s1 & E1 & Er). apply bind_Ok in Er as ([] & s2 & E2 & Er).
  apply bind_Ok in Er as ([] & s3 & E3 & Er). injection Er as <- <-. split; [done|]. exists e, s1, s2.
  split; [done|]. split.
  - revert E2. unfold try_catch. destruct (Eproxy_releaseBarrier e s1) as [[[]|what|why] s4]; [done| |done].
    intros E2. apply bind_Ok in E2 as (? & ? & _ & [=]).
  - destruct (ends_EproxySLURMApp_delete e s2) as [E|[why E]]; rewrite E3 in E; [by injection E|done].
Qed.

(** Code that, from a state, may only throw after stopping the daemon. *)
Definition throws_stopped {A : Type} (s : sys) (m : M sys A) : Prop :=
  ∀ what s', m s = (Throw what, s') → stopped_last s'.

Lemma stopped_bind {A B : Type} (m : M sys A) (k : A → M sys B) (s : sys) :
  throws_stopped s m → (∀ a s1, m s = (Ok a, s1) → throws_stopped s1 (k a)) → throws_stopped s (m ≫= k).
Proof.
  intros Hm Hk what s'. unfold mbind, M_bind. destruct (m s) as [[a|e|e] s1] eqn:E; [by apply Hk| |done].
  intros [= -> ->]. by eapply Hm.
Qed.

Lemma stopped_ret {A : Type} (a : A) (s : sys) : throws_stopped s (mret a).
Proof. by intros what s'. Qed.

Lemma stopped_handler {A : Type} (m : M sys A) (h : M sys ()) (l' : list sys_event) (s : sys) :
  ends_with h (remote_stop :: l') → Forall is_local l' → throws_stopped s (try_catch m (λ e, h;; throw e)).
Proof.
  intros Hh Hl what s'. unfold try_catch. destruct (m s) as [[a|e|e] s1]; [done| |done].
  destruct (Hh s1) as [E|[why E]].
  - rewrite (bind_run_Ok _ _ _ _ _ E). intros [= _ <-]. by exists (sys_trace s1), l'.
  - unfold mbind, M_bind. destruct (h s1) as [? ?]. cbn in E. by subst.
Qed.

Lemma stopped_guarded {A : Type} (d : Z) (m : M sys A) (s : sys) : 0 < d → throws_stopped s (guarded d m).
Proof.
  intros Hd. apply (stopped_handler m _ []); [|done].
  pose proof (ends_RemoteDaemon_delete d) as E. by rewrite (proj2 (Z.ltb_lt 0 d) Hd) in E.
Qed.

Lemma bind_assoc {A B : Type} (m : M sys ()) (m' : M sys A) (k : A → M sys B) (s : sys) :
  (((m;; m') : M sys A) ≫= k : M sys B) s = ((m;; (m' ≫= k : M sys B)) : M sys B) s.
Proof. unfold mbind, M_bind. by destruct (m s) as [[[]|e|e] s1]. Qed.

Lemma stopped_new (fe : EproxyFE) (fd : frontend_data) (l b : string) (d : Z) (mpirData : FEMPIRResult)
    (jobId stepId : string) (s : sys) :
  0 < d → throws_stopped s (EproxySLURMApp_new true fe fd l b d mpirData jobId stepId).
Proof.
  intros Hd. apply stopped_bind; [by apply stopped_guarded|]. intros base s1 _.
  apply stopped_bind; [|intros; apply stopped_ret]. intros what s' E.
  refine (stopped_handler (request SRegister req_id) (RemoteDaemon_delete d;; SLURMApp_delete true base)
    (base_ends base) s1 _ (base_ends_local base) what s' _).
  - pose proof (ends_bind _ _ _ _ (ends_RemoteDaemon_delete d) (ends_SLURMApp_delete base)) as E'.
    by rewrite (proj2 (Z.ltb_lt 0 d) Hd) in E'.
  - rewrite <-E. unfold try_catch. destruct (request _ _ s1) as [[a|e|e] s2]; [done| |done].
    apply bind_assoc.
Qed.

(** What both launches begin with stops the daemon it has started. *)
Lemma stopped_launched (fe : EproxyFE) (fd : frontend_data) (l b : string)
    (environ launcher_args env_list : list string) (s s1 : sys) (d : Z) :
  RemoteDaemon_new fe fd s = (Ok d, s1) → 0 < d →
  throws_stopped s (launched_app true fe fd l b environ launcher_args env_list).
Proof.
  intros Enew Hd. apply stopped_bind.
  { apply stopped_bind; [intros what s'; by rewrite Enew|]. intros d' s2. rewrite Enew. intros [= <- <-].
    apply stopped_bind; [by apply stopped_guarded|]. intros; apply stopped_ret. }
  intros [d' r] s2 (d0 & s0 & E0 & E)%bind_Ok. rewrite Enew in E0. injection E0 as <- <-.
  apply bind_Ok in E as (? & ? & _ & [= <- <- <-]).
  apply stopped_bind; [by apply stopped_guarded|]. intros [jobId stepId] s3 _.
  apply stopped_bind; [by apply stopped_new|]. intros e s4 _.
  apply stopped_bind; [|intros; apply stopped_ret]. by intros what s'.
Qed.

Lemma stopped_explained {A : Type} (fe : EproxyFE) (m : M sys A) (s s' : sys) (what : string) :
  explained fe m s = (Throw what, s') →
  ∃ error, m s = (Throw error, s') ∧ what = format_launch_error (c_str error) (m_eproxyLogin fe).
Proof.
  unfold explained, try_catch. destruct (m s) as [[a|e|e] s2] eqn:E; [done| |done].
  intros [= <- <-]. by exists e.
Qed.

(** The text that explains a failure, by its lines. *)
Definition explanation (fe : EproxyFE) (error : string) : string :=
  String.concat nl
    ["Failed to launch tool remotely from this Elogin node:";
     "    " +:+ c_str error;
     "You can retry the tool launch directly on the login node `" +:+ m_eproxyLogin fe +:+ "`.";
     "This will allow direct access to the Slurm utilities."].

Lemma explanation_text (fe : EproxyFE) (error : string) :
  format_launch_error (c_str error) (m_eproxyLogin fe) = explanation fe error.
Proof.
  unfold format_launch_error, explanation. cbn [String.concat]. by rewrite !string_app_assoc.
Qed.

(** The application that a launch makes belongs to the daemon that was started. *)
Lemma launched_daemon (fe : EproxyFE) (fd : frontend_data) (l b : string)
    (environ launcher_args env_list : list string) (s s1 s2 : sys) (d : Z) (e : EproxySLURMApp) :
  RemoteDaemon_new fe fd s = (Ok d, s1) →
  launched_app true fe fd l b environ launcher_args env_list s = (Ok e, s2) → m_remoteDaemon e = d.
Proof.
  intros Enew E. unfold launched_app in E. apply bind_Ok in E as ([d' r] & s3 & E1 & E).
  apply bind_Ok in E1 as (d0 & s0 & E0 & E1). rewrite Enew in E0. injection E0 as <- <-.
  apply bind_Ok in E1 as (? & ? & _ & [= <- <- <-]).
  apply bind_Ok in E as ([jobId stepId] & s4 & _ & E). apply bind_Ok in E as (e0 & s5 & En & E).
  apply bind_Ok in E as (gres & s6 & _ & [= <- <-]). cbn [m_remoteDaemon].
  unfold EproxySLURMApp_new in En. apply bind_Ok in En as (? & ? & _ & En). by apply bind_Ok in En as (? & ? & _ & [= <- _]).
Qed.

Lemma stopped_app_ends (e : EproxySLURMApp) (s : sys) : 0 < m_remoteDaemon e → stopped_last (after (app_ends e) s).
Proof.
  intros Hd. unfold app_ends. rewrite (proj2 (Z.ltb_lt 0 _) Hd).
  match goal with |- context [?l ++ [remote_stop] ++ _] => exists (sys_trace s ++ l), (base_ends (e_app e)) end.
  split; [|apply base_ends_local]. cbn. by rewrite <-app_assoc.
Qed.

(** The barrier is released as soon as the application has been made; when that fails, the
    application ends. *)
Lemma launch_throws (fe : EproxyFE) (fd : frontend_data) (l b : string)
    (environ launcher_args env_list : list string) (s s' : sys) (error : string) :
  (e ← launched_app true fe fd l b environ launcher_args env_list;
   try_catch (Eproxy_releaseBarrier e) (λ what, EproxySLURMApp_delete true e;; throw what);;
   EproxySLURMApp_delete true e;;
   mret (@None EproxySLURMApp)) s = (Throw error, s') →
  launched_app true fe fd l b environ launcher_args env_list s = (Throw error, s') ∨
  ∃ e s1 s2, launched_app true fe fd l b environ launcher_args env_list s = (Ok e, s1) ∧
    Eproxy_releaseBarrier e s1 = (Throw error, s2) ∧ s' = after (app_ends e) s2.
Proof.
  unfold mbind at 1, M_bind at 1. destruct (launched_app _ _ _ _ _ _ _ _ s) as [[e|w|w] s1] eqn:E; [| |done].
  2: { intros [= <- <-]. by left. }
  intros Er. right. exists e, s1. unfold mbind at 1, M_bind at 1, try_catch in Er.
  destruct (Eproxy_releaseBarrier e s1) as [[[]|w|w] s2] eqn:Eb; [| |done].
  - destruct (ends_EproxySLURMApp_delete e s2) as [Ed|[why Ed]]; unfold mbind, M_bind in Er.
    + by rewrite Ed in Er.
    + destruct (EproxySLURMApp_delete true e s2) as [r s3]. cbn in Ed. by subst r.
  - destruct (ends_EproxySLURMApp_delete e s2) as [Ed|[why Ed]]; unfold mbind, M_bind in Er.
    + rewrite Ed in Er. injection Er as <- <-. by exists s2.
    + destruct (EproxySLURMApp_delete true e s2) as [r s3]. cbn in Ed. by subst r.
Qed.

End Properties.

(** ** Examples *)

#[local] Existing Instance demo_ssh.
#[local] Existing Instance demo_home.
#[local] Existing Instance demo_programs.
#[local] Existing Instance demo_slurm_host.

(** Slurm with a job of two ranks on one node. *)
Definition demo_layout_argv : list string := sattach_argv (get_sattach_id (MkHetJobId 7 0 (Some 0) false false false)).

#[local] Instance demo_eproxy_slurm : Commands :=
  scripted [(demo_layout_argv, (unlines (layout_lines [("nid1", [0; 1])]), 0));
            (["squeue"; "--job"; "7.0"], ("", 0))].

(** A login node that launches, and of which every request for an identifier is answered
    with [id]. *)
Definition demo_login (ids : list sys_event → res Z) : FrontendDaemon := {|
  req_launch _ := Ok (MkFEMPIRResult (MkMPIRResult 4 900 7 0 [MkElem 10 "nid1" "/bin/a"; MkElem 11 "nid1" "/bin/a"]) ∅);
  req_util_sync _ := Ok true;
  req_util_output _ := Ok "";
  req_done _ := Ok tt;
  req_string trace := Ok (if bool_decide (last trace = Some (remote_call "readStringMPIR" ["4"; "totalview_jobid"]))
                          then "7" else "0");
  req_id := ids;
  req_stderr _ := [];
  req_copy _ := Ok tt;
  req_remote _ := Ok tt;
  req_mkdtemp _ path := Ok path;
  req_open _ _ := true
|}.

Definition demo_eproxy_fe : EproxyFE :=
  MkEproxyFE demo_slurm_fe "login" "key" "env" "user" "env" "/home/user" (readFrom "*" empty_spec).

Definition demo_eproxy_sys : sys := MkSys {[SLURM_DISABLE_SACCT := "1"; SLURM_CHECK_ARCH := "0"]} [].

Definition demo_eproxy_launch (ids : list sys_event → res Z) : res (option EproxySLURMApp) * sys :=
  let D := demo_login ids in
  Eproxy_launch true demo_eproxy_fe demo_frontend "srun" "cti_be1" ["PATH=/bin"] ["./a.out"] [] demo_eproxy_sys.

(** A daemon here that cannot register the application. *)
Definition demo_no_id (trace : list sys_event) : res Z :=
  if bool_decide (last trace = Some SRegister) then Throw "no identifier" else Ok 900.

Lemma eproxy_launch_expired_witness :
  ∃ s', demo_eproxy_launch (λ _, Ok 900) = (Ok None, s') ∧ last (sys_trace s') = Some (SDeregister 900) ∧
    remote_stop ∈ sys_trace s'.
Proof.
  destruct (demo_eproxy_launch (λ _, Ok 900)) as [r s'] eqn:E.
  assert (∃ o, r = Ok o) as [o ->].
  { apply (f_equal fst) in E. vm_compute in E. by eexists. }
  exists s'. pose (D := demo_login (λ _, Ok 900)).
  destruct (eproxy_launch_expired demo_eproxy_fe demo_frontend "srun" "cti_be1" ["PATH=/bin"] ["./a.out"] []
    demo_eproxy_sys s' o E) as [-> _].
  assert (bool_decide (last (sys_trace s') = Some (SDeregister 900) ∧ remote_stop ∈ sys_trace s') = true) as B.
  { replace s' with (demo_eproxy_launch (λ _, Ok 900)).2 by by rewrite E. vm_compute. reflexivity. }
  apply bool_decide_eq_true in B as [B1 B2]. split; [reflexivity|by split].
Defined.

(** A login node that cannot release the barrier. *)
Definition demo_stuck (D : FrontendDaemon) : FrontendDaemon := {|
  req_launch := @req_launch D; req_util_sync := @req_util_sync D; req_util_output := @req_util_output D;
  req_done trace := if bool_decide (last trace = Some (remote_call "releaseMPIR" ["4"])) then Throw "stuck" else Ok tt;
  req_string := @req_string D; req_id := @req_id D; req_stderr := @req_stderr D; req_copy := @req_copy D;
  req_remote := @req_remote D; req_mkdtemp := @req_mkdtemp D; req_open := @req_open D
|}.

