(* ===== verification/Paths.v ===== *)
(** * Searching and setting paths (src/src/useful/cti_path.c)

    Where programs and libraries are searched for, how a directory is removed with all that is
    in it, and how the paths of a tool daemon are set.  Buffers on the stack have [PATH_MAX]
    characters; the calls that fill them allow one more. *)

From S2P Require Import Prelude Split System Host.

Definition PATH_MAX : nat := 4096.

(** The parts between colons that are not empty, as [strtok_r] gives them. *)
Fixpoint colon_parts (s : string) : list string :=
  match s with
  | "" => [""]
  | String c s' =>
      if decide (c = ":"%char) then "" :: colon_parts s'
      else match colon_parts s' with
           | p :: ps => String c p :: ps
           | [] => [String c ""]
           end
  end.

Definition path_entries (s : string) : list string := filter (λ p, p ≠ "") (colon_parts s).

(** [basename] of <libgen.h> *)
Fixpoint drop_slashes (s : list ascii) : list ascii :=
  match s with
  | c :: s' => if decide (c = "/"%char) then drop_slashes s' else s
  | [] => []
  end.

Fixpoint up_to_slash (s : list ascii) : list ascii :=
  match s with
  | c :: s' => if decide (c = "/"%char) then [] else c :: up_to_slash s'
  | [] => []
  end.

Definition posix_basename (path : string) : string :=
  if is_empty path then "."
  else
    let b := rev (up_to_slash (drop_slashes (rev (list_ascii_of_string path)))) in
    if bool_decide (b = []) then "/" else string_of_list_ascii b.

(** The path as [basename] leaves it: slashes at its end are overwritten. *)
Definition after_basename (path : string) : string :=
  let p := rev (drop_slashes (rev (list_ascii_of_string path))) in
  if bool_decide (p = []) then path else string_of_list_ascii p.

Section Search.
Context `{Host}.

Definition is_regular (path : string) : bool := bool_decide (os_stat path = Some TReg).

(** A path that starts with a dot or a slash is not searched for. *)
Definition direct_path (file : string) : bool :=
  match file with
  | String c _ => bool_decide (c = "."%char) || bool_decide (c = "/"%char)
  | "" => false
  end.

(** The first regular file of a name in a list of directories. *)
Fixpoint find_in_entries (file : string) (entries : list string) : res (option string) :=
  match entries with
  | [] => Ok None
  | entry :: entries' =>
      let buf := entry +:+ "/" +:+ file in
      if (PATH_MAX <=? String.length buf)%nat then Undef "writes past the buffer"
      else if is_regular buf then Ok (Some buf) else find_in_entries file entries'
  end.

Definition pathFind (file envPath : option string) : res (option string) :=
  match file with
  | None => Ok None
  | Some file =>
      if direct_path file then Ok (if is_regular file then Some file else None)
      else
        match os_getenv (default "PATH" envPath) with
        | None => Ok None
        | Some path => find_in_entries file (path_entries path)
        end
  end.

Definition EXTRA_LIBRARY_PATH : string := "/lib64:/usr/lib64:/lib:/usr/lib".

Definition dquoted (s : string) : string := String "034" (s +:+ String "034" "").

Definition ldconfig_command (file : string) : string :=
  "/sbin/ldconfig -p | grep " +:+ dquoted file +:+ " | cut -d " +:+ dquoted " " +:+ " -f4".

(** [ldconfig] is what [popen] of the command gives, if it can be run.  A path of the cache is
    compared with the name as a whole. *)
Definition find_in_cache (file : string) (output : option string) : option string :=
  out ← output;
  after_basename <$> List.find (λ l, bool_decide (posix_basename l = file) && is_regular (after_basename l))
                       (map c_str (text_lines out)).

Definition libFind (ldconfig : string → option string) (file : string) : res (option string) :=
  if direct_path file then Ok (if is_regular file then Some file else None)
  else
    found ← match os_getenv "LD_LIBRARY_PATH" with
            | Some path => find_in_entries file (path_entries path)
            | None => mret None
            end;
    match found with
    | Some path => Ok (Some path)
    | None =>
        match find_in_cache file (ldconfig (ldconfig_command file)) with
        | Some path => Ok (Some path)
        | None => find_in_entries file (path_entries EXTRA_LIBRARY_PATH)
        end
    end.
End Search.

(** ** Removing directories *)

(** What is found at a path: nothing that [stat] succeeds on, no directory, a directory that
    cannot be opened, or one with entries. *)
Inductive tree : Type :=
| Missing
| File
| Closed
| Dir (entries : list (string * tree)).

Definition dot_entry (name : string) : bool := bool_decide (name = ".") || bool_decide (name = "..").

(** The removals that are done, in order, given whether each can be, and whether all went well. *)
Section Remove.
Context (removable : string → bool).

Definition remove_path (path : string) : list string * bool :=
  if removable path then ([path], true) else ([], false).

Fixpoint removeDirectory (t : tree) (path : string) {struct t} : list string * bool :=
  match t with
  | Missing | File | Closed => ([], false)
  | Dir entries =>
      let fix remove_entries (entries : list (string * tree)) : list string * bool :=
        match entries with
        | [] => remove_path path
        | (name, sub) :: entries' =>
            if dot_entry name then remove_entries entries'
            else
              let name_path := path +:+ "/" +:+ name in
              let '(removed, ok) :=
                match sub with
                | Missing => ([], false)
                | File => remove_path name_path
                | _ => removeDirectory sub name_path
                end in
              if ok
              then let '(removed', ok') := remove_entries entries' in (removed ++ removed', ok')
              else (removed, false)
        end in
      remove_entries entries
  end.
End Remove.

(** ** Adjusting paths *)

(** PATH and LD_LIBRARY_PATH of a tool daemon, whose files are below [path]. *)
Definition adjusted_env (path : string) (libpath : option string) (env : gmap string string) : gmap string string :=
  <["LD_LIBRARY_PATH" := default (path +:+ "/lib") libpath]>
    (<["PATH" := match env !! "PATH" with
                 | Some p => path +:+ "/bin:" +:+ p
                 | None => path +:+ "/bin"
                 end]> env).

(** ** Properties *)

(** The first directory in which there is a regular file of the name. *)
Inductive first_in `{Host} (file : string) : list string → option string → Prop :=
| first_none (entries : list string) :
    Forall (λ e, is_regular (e +:+ "/" +:+ file) = false) entries → first_in file entries None
| first_some (before : list string) (entry : string) (behind : list string) :
    Forall (λ e, is_regular (e +:+ "/" +:+ file) = false) before → is_regular (entry +:+ "/" +:+ file) = true →
    first_in file (before ++ entry :: behind) (Some (entry +:+ "/" +:+ file)).

Section SearchProofs.
Context `{Host}.

Lemma find_in_entries_first (file : string) (entries : list string) :
  Forall (λ e, (String.length (e +:+ "/" +:+ file) < PATH_MAX)%nat) entries →
  ∃ r, find_in_entries file entries = Ok r ∧ first_in file entries r.
Proof.
  induction 1 as [|e entries He _ (r & IH & Hr)]; [by exists None; repeat constructor|].
  cbn [find_in_entries]. rewrite (proj2 (Nat.leb_gt _ _)) by done. destruct (is_regular _) eqn:E.
  - eexists. split; [done|]. by apply (first_some file [] e entries).
  - exists r. split; [done|]. destruct Hr as [entries Hall|before entry behind Hall ?].
    + by constructor; constructor.
    + by apply (first_some file (e :: before) entry behind); [constructor|].
Qed.

(** A program is searched for in the directories of PATH in order: unless a path is too long
    for the buffer, the result is the first that names a regular file, or nothing when there is
    none; a name with a path of its own is looked at only there. *)
Theorem path_find_first (file path : string) :
  direct_path file = false → os_getenv "PATH" = Some path →
  Forall (λ e, (String.length (e +:+ "/" +:+ file) < PATH_MAX)%nat) (path_entries path) →
  ∃ r, pathFind (Some file) None = Ok r ∧ first_in file (path_entries path) r.
Proof. intros Hd Hp Hl. unfold pathFind. rewrite Hd. cbn [default]. rewrite Hp. by apply find_in_entries_first. Qed.

(** One character more than the buffer has is written past it. *)
Lemma path_find_overflow (file entry : string) (entries : list string) :
  String.length (entry +:+ "/" +:+ file) = PATH_MAX →
  find_in_entries file (entry :: entries) = Undef "writes past the buffer".
Proof. intros E. cbn [find_in_entries]. by rewrite E, Nat.leb_refl. Qed.
End SearchProofs.

(** What is somewhere below a directory, and where. *)
Inductive lies_below : tree → string → string → tree → Prop :=
| below_here (entries : list (string * tree)) (path name : string) (sub : tree) :
    (name, sub) ∈ entries → dot_entry name = false → lies_below (Dir entries) path (path +:+ "/" +:+ name) sub
| below_deep (entries : list (string * tree)) (path name p : string) (sub t : tree) :
    (name, sub) ∈ entries → dot_entry name = false → lies_below sub (path +:+ "/" +:+ name) p t →
    lies_below (Dir entries) path p t.

(** A list in which a path comes after all that is below it. *)
Definition after_contents (l : list string) (t : tree) (p : string) : Prop :=
  ∃ l1 l2, l = l1 ++ p :: l2 ∧ ∀ q t', lies_below t p q t' → q ∈ l1.

Lemma after_contents_app (l k : list string) (t : tree) (p : string) :
  after_contents l t p → after_contents (l ++ k) t p ∧ after_contents (k ++ l) t p.
Proof.
  intros (l1 & l2 & -> & Hb). split.
  - exists l1, (l2 ++ k). split; [by rewrite <-app_assoc|done].
  - exists (k ++ l1), l2. split; [by rewrite <-app_assoc|]. intros q t' Hq. apply elem_of_app. right. by eapply Hb.
Qed.

Lemma below_leaf (t : tree) (path p : string) (t' : tree) :
  match t with Dir _ => False | _ => True end → ¬ lies_below t path p t'.
Proof. intros Ht Hb. by destruct Hb. Qed.

Lemma after_contents_in (l : list string) (t : tree) (p : string) : after_contents l t p → p ∈ l.
Proof. intros (l1 & l2 & -> & _). rewrite elem_of_app, elem_of_cons. auto. Qed.

Section RemoveProofs.
Context (removable : string → bool).

Definition removes (t : tree) : Prop :=
  ∀ path l, removeDirectory removable t path = (l, true) →
    after_contents l t path ∧ ∀ p t', lies_below t path p t' → after_contents l t' p.

(** One entry of a directory. *)
Lemma remove_entry (sub : tree) (path : string) (l : list string) :
  removes sub →
  match sub with
  | Missing => ([], false)
  | File => remove_path removable path
  | _ => removeDirectory removable sub path
  end = (l, true) →
  after_contents l sub path ∧ ∀ p t', lies_below sub path p t' → after_contents l t' p.
Proof.
  intros Hs. destruct sub; [done| |by apply Hs..]. unfold remove_path. destruct (removable path); [|done].
  intros [= <-]. split; [exists [], []; split; [done|]|]; intros q t' Hq; by apply below_leaf in Hq.
Qed.

Fixpoint removes_all (t : tree) : removes t.
Proof.
  destruct t as [| | |entries]; [by intros path l..|]. intros path l E. cbn [removeDirectory] in E.
  assert (∃ l', l = l' ++ [path] ∧ ∀ name sub, (name, sub) ∈ entries → dot_entry name = false →
    after_contents l' sub (path +:+ "/" +:+ name) ∧
    ∀ p t', lies_below sub (path +:+ "/" +:+ name) p t' → after_contents l' t' p) as (l' & -> & Hl').
  { revert l E. induction entries as [|[name sub] entries IH]; intros l E.
    { unfold remove_path in E. destruct (removable path); [|done]. injection E as <-. exists [].
      split; [done|]. intros name sub Hn. by apply elem_of_nil in Hn. }
    destruct (dot_entry name) eqn:Ed.
    { destruct (IH l E) as (l' & -> & Hl'). exists l'. split; [done|]. intros n s [[= -> ->]|Hn]%elem_of_cons; [|by apply Hl'].
      by rewrite Ed. }
    destruct (match sub with Missing => _ | _ => _ end) as [r ok] eqn:Er. destruct ok; [|done].
    apply (remove_entry _ _ _ (removes_all sub)) in Er as [Hr Hrb].
    match type of E with (let '(_, _) := ?x in _) = _ => destruct x as [l1 ok1] eqn:E1 end.
    injection E as <- ->. destruct (IH _ eq_refl) as (l' & -> & Hl'). exists (r ++ l'). split; [by rewrite app_assoc|].
    intros n s [[= -> ->]|Hn]%elem_of_cons Hdot.
    - split; [by apply (after_contents_app r)|]. intros p t' Hb. by apply (after_contents_app r), Hrb.
    - destruct (Hl' n s Hn Hdot) as [H1 H2]. split; [exact (proj2 (after_contents_app _ r _ _ H1))|].
      intros p t' Hb. exact (proj2 (after_contents_app _ r _ _ (H2 p t' Hb))). }
  split.
  - exists l', []. split; [done|]. intros q t' Hq. inversion Hq as [? ? name sub Hn Hd|? ? name p sub t Hn Hd Hb]; subst.
    + exact (after_contents_in _ _ _ (proj1 (Hl' name t' Hn Hd))).
    + exact (after_contents_in _ _ _ (proj2 (Hl' name sub Hn Hd) _ _ Hb)).
  - intros p t' Hp. apply (after_contents_app l'). inversion Hp as [? ? name sub Hn Hd|? ? name q sub t Hn Hd Hb]; subst.
    + exact (proj1 (Hl' name t' Hn Hd)).
    + exact (proj2 (Hl' name sub Hn Hd) _ _ Hb).
Qed.

(** A directory that is reported as removed is removed with everything below it: every file
    and directory is removed, each directory after what is in it, and the directory itself last of
    all. *)
Theorem directory_removed (t : tree) (path : string) (l : list string) :
  removeDirectory removable t path = (l, true) →
  after_contents l t path ∧ ∀ p t', lies_below t path p t' → after_contents l t' p.
Proof. apply removes_all. Qed.
End RemoveProofs.

(** ** At concrete inputs *)

Definition demo_tree : tree := Dir [(".", Dir []); ("a", File); ("b", Dir [("c", File)])].

Lemma directory_removed_witness :
  removeDirectory (λ _, true) demo_tree "/d" = (["/d/a"; "/d/b/c"; "/d/b"; "/d"], true) ∧
  "/d/b/c" ∈ ["/d/a"; "/d/b/c"; "/d/b"; "/d"].
Proof.
  assert (removeDirectory (λ _, true) demo_tree "/d" = (["/d/a"; "/d/b/c"; "/d/b"; "/d"], true)) as E by reflexivity.
  split; [exact E|]. destruct (directory_removed (λ _, true) demo_tree "/d" _ E) as [_ Hb].
  destruct (Hb "/d/b/c" File) as (l1 & l2 & -> & _); [|apply elem_of_app; right; apply list_elem_of_here].
  apply (below_deep _ _ "b" _ (Dir [("c", File)]));
    [apply list_elem_of_further, list_elem_of_further, list_elem_of_here|reflexivity|].
  apply (below_here [("c", File)] "/d/b" "c"); [apply list_elem_of_here|reflexivity].
Defined.

Definition demo_path_host : Host := {|
  os_stat p := if decide (p = "/b/tool") then Some TReg else if decide (p = "/a/tool") then Some TDir else None;
  os_access _ _ := true; os_realpath _ := None; os_basename _ := None; os_pathFind _ := None; os_libFind _ := None;
  os_ld_val _ _ := None; os_getenv n := if decide (n = "PATH") then Some "/a::/b:/c" else None;
  os_readdir _ := None; os_read _ := None
|}.

Lemma path_find_first_witness :
  let H := demo_path_host in pathFind (Some "tool") None = Ok (Some "/b/tool").
Proof.
  pose (H := demo_path_host). cbv zeta.
  destruct (path_find_first "tool" "/a::/b:/c") as (r & E & Hr); [reflexivity|reflexivity| |].
  { change (path_entries "/a::/b:/c") with ["/a"; "/b"; "/c"].
    repeat (apply Forall_cons_2; [apply Nat.ltb_lt; reflexivity|]). apply Forall_nil_2. }
  assert (r = Some "/b/tool") as ->; [|exact E].
  inversion Hr as [l Hall Hl|]; [|cut (Ok (A := option string) (Some "/b/tool") = Ok r); [by intros [= <-]|by rewrite <-E]].
  change (path_entries "/a::/b:/c") with ["/a"; "/b"; "/c"] in Hall. apply Forall_cons in Hall as [_ Hall].
  apply Forall_cons in Hall as [Hb _]. vm_compute in Hb. discriminate Hb.
Defined.
