(* ===== verification/BeState.v ===== *)
(** * The backend library: its state, numbers, placement information of PMI
    (src/src/backend/pmi_attribs_parser.c, parts of cti_be.c)

    The library that tool daemons use on compute nodes, in C.  A function that fails prints a
    message and returns 1, -1 or a null pointer: here it throws the message, and what its callers
    do with such a result is written as a handler.  The files of the node, its name and the
    programs it runs are the class [Node].  Allocations succeed, except of negative sizes, which
    are converted to sizes of at least [2^63]. *)

From S2P Require Import Prelude Host Wire BackendFiles System Paths.

(** ** Numbers as the C library reads them *)

(** A number that does not fit the type long is the nearest that does. *)
Definition clamp_long (z : Z) : Z := Z.max (- 2 ^ 63) (Z.min (2 ^ 63 - 1) z).

(** [strtol(s, &end, 10)] *)
Definition strtol (s : string) : Z * string :=
  match read_int s with Some (z, rest) => (clamp_long z, rest) | None => (0, s) end.

(** [strtoul(s, NULL, 10)] *)
Definition strtoul (s : string) : Z :=
  match read_int s with
  | Some (z, _) => if Z.abs z <? 2 ^ 64 then uint64 z else 2 ^ 64 - 1
  | None => 0
  end.

Definition atoi (s : string) : Z := int32 (strtol s).1.

(** Conversions [%d] and [%ld] of [fscanf]; a white space in the format skips any. *)
Definition scan_int (s : string) : option (Z * string) :=
  '(z, rest) ← read_int s; Some (int32 (clamp_long z), rest).

Definition scan_long (s : string) : option (Z * string) :=
  '(z, rest) ← read_int s; Some (clamp_long z, rest).

(** What follows the first occurrence of a text, the text included. *)
Fixpoint strstr (p s : string) : option string :=
  if starts_with p s then Some s
  else match s with "" => None | String _ s' => strstr p s' end.

(** [snprintf] into a buffer of [PATH_MAX] characters. *)
Definition truncated (s : string) : string := String.substring 0 (PATH_MAX - 1) s.

(** ** The node *)

Inductive be_event : Type :=
| BOpen (path : string)
| BStat (path : string)
| BNap (** a quarter of a second *)
| BSleep (seconds : Z)
| BRun (argv : list string)
| BKillChild (program : string).

#[export] Instance be_event_eq_dec : EqDecision be_event.
Proof. solve_decision. Defined.

Class Node : Type := {
  (** what [fopen] for reading gives: the bytes of the file *)
  n_open : list be_event → string → option bytes;
  n_stat : list be_event → string → bool;
  n_access : string → bool;
  n_hostname : list be_event → option string;
  (** the output of a program; [None] when there is no pipe or process for it *)
  n_output : list be_event → list string → option string;
  n_exit : list be_event → list string → option Z;
  (** the entries of a directory, and whether they are regular files *)
  n_dir : string → option (list (string * bool))
}.

Record pmi_attribs_t : Type := MkAttribs {
  pmi_file_ver : Z;
  cnode_nidNum : Z;
  mpmd_cmdNum : Z;
  app_nodeNumRanks : Z;
  app_rankPidPairs : list (Z * Z)
}.

(** The layout of this node: PEsHere and firstPE. *)
Definition be_layout : Type := Z * Z.

(** The globals of a workload manager: one of them is in use in a process. *)
Record be : Type := MkBe {
  b_env : gmap string string;
  b_trace : list be_event;
  b_attrs : option pmi_attribs_t;
  b_layout : option be_layout;
  b_pids : option (list Z);
  b_hostname : option string;
  b_jobid : Z;
  b_stepid : Z;
  b_init : bool
}.

Definition set_trace (l : list be_event) (b : be) : be :=
  MkBe (b_env b) l (b_attrs b) (b_layout b) (b_pids b) (b_hostname b) (b_jobid b) (b_stepid b) (b_init b).
Definition set_attrs (a : option pmi_attribs_t) (b : be) : be :=
  MkBe (b_env b) (b_trace b) a (b_layout b) (b_pids b) (b_hostname b) (b_jobid b) (b_stepid b) (b_init b).
Definition set_layout (l : option be_layout) (b : be) : be :=
  MkBe (b_env b) (b_trace b) (b_attrs b) l (b_pids b) (b_hostname b) (b_jobid b) (b_stepid b) (b_init b).
Definition set_pids (l : option (list Z)) (b : be) : be :=
  MkBe (b_env b) (b_trace b) (b_attrs b) (b_layout b) l (b_hostname b) (b_jobid b) (b_stepid b) (b_init b).
Definition set_hostname (h : option string) (b : be) : be :=
  MkBe (b_env b) (b_trace b) (b_attrs b) (b_layout b) (b_pids b) h (b_jobid b) (b_stepid b) (b_init b).
Definition set_ids (job step : Z) (b : be) : be :=
  MkBe (b_env b) (b_trace b) (b_attrs b) (b_layout b) (b_pids b) (b_hostname b) job step (b_init b).
Definition set_init (i : bool) (b : be) : be :=
  MkBe (b_env b) (b_trace b) (b_attrs b) (b_layout b) (b_pids b) (b_hostname b) (b_jobid b) (b_stepid b) i.

Definition be_emit (e : be_event) : M be () := modify (λ b, set_trace (b_trace b ++ [e]) b).

Definition be_getenv (name : string) : M be (option string) := gets (λ b, b_env b !! name).

(** A null pointer throws. *)
Definition non_null {A : Type} (o : option A) (message : string) : M be A :=
  match o with Some a => mret a | None => throw message end.

Definition be_require (name message : string) : M be string :=
  value ← be_getenv name; non_null value message.

(** ** The environment the backend daemon leaves *)

Definition BE_GUARD_ENV_VAR : string := "CTI_IAMBACKEND".
Definition APID_ENV_VAR : string := "CTI_APID".
Definition WLM_ENV_VAR : string := "CTI_WLM".
Definition SCRATCH_ENV_VAR : string := "TMPDIR".
Definition OLD_SCRATCH_ENV_VAR : string := "CTI_OLD_TMPDIR".
Definition OLD_CWD_ENV_VAR : string := "CTI_OLD_CWD".
Definition TOOL_DIR_VAR : string := "CTI_TOP_LEVEL".
Definition ROOT_DIR_VAR : string := "CTI_ROOT_DIR".
Definition BIN_DIR_VAR : string := "CTI_BIN_DIR".
Definition LIB_DIR_VAR : string := "CTI_LIB_DIR".
Definition FILE_DIR_VAR : string := "CTI_FILE_DIR".
Definition PMI_ATTRIBS_DIR_VAR : string := "CTI_PMI_ATTRIBS_DIR".
Definition PMI_ATTRIBS_TIMEOUT_VAR : string := "CTI_PMI_FOPEN_TIMEOUT".
Definition PMI_EXTRA_SLEEP_VAR : string := "CTI_PMI_EXTRA_SLEEP".

Definition cti_be_getAppId : M be (option string) := be_getenv APID_ENV_VAR.
Definition be_getToolDir : M be (option string) := be_getenv TOOL_DIR_VAR.
Definition be_getAttribsDir : M be (option string) := be_getenv PMI_ATTRIBS_DIR_VAR.
Definition cti_be_getRootDir : M be (option string) := be_getenv ROOT_DIR_VAR.
Definition cti_be_getBinDir : M be (option string) := be_getenv BIN_DIR_VAR.
Definition cti_be_getLibDir : M be (option string) := be_getenv LIB_DIR_VAR.
Definition cti_be_getFileDir : M be (option string) := be_getenv FILE_DIR_VAR.
Definition cti_be_getTmpDir : M be (option string) := be_getenv SCRATCH_ENV_VAR.

(** ** pmi_attribs *)

Definition PMI_ATTRIBS_FILE_NAME : string := "pmi_attribs".
Definition PMI_ATTRIBS_DEFAULT_FOPEN_TIMEOUT : Z := 60.

(** A number in a line of its own. *)
Definition scan_line (what text : string) : res (Z * string) :=
  match scan_int text with
  | Some (z, rest) => Ok (z, skip_space rest)
  | None => Throw ("Reading " +:+ what +:+ " failed.")
  end.

Fixpoint scan_pairs (n : nat) (i : Z) (text : string) : res (list (Z * Z)) :=
  match n with
  | O => Ok []
  | S n' =>
      match ('(rank, rest) ← scan_int text; '(pid, rest) ← scan_long (skip_space rest);
             Some (rank, pid, rest)) with
      | Some (rank, pid, rest) =>
          pairs ← scan_pairs n' (i + 1) (skip_space rest); mret ((rank, int32 pid) :: pairs)
      | None => Throw ("Reading rank/pid pair " +:+ to_string i +:+ " failed.")
      end
  end.

Definition parse_attribs (text : string) : res pmi_attribs_t :=
  '(ver, text) ← scan_line "pmi_file_version" text;
  '(nid, text) ← scan_line "cnode_nidNum" text;
  '(cmd, text) ← scan_line "mpmd_cmdNum" text;
  '(ranks, text) ← scan_line "app_nodeNumRanks" text;
  if ranks <? 0 then Throw "malloc failed."
  else pairs ← scan_pairs (Z.to_nat ranks) 0 text; mret (MkAttribs ver nid cmd ranks pairs).

Section Attribs.
Context `{Node}.

(** A setting that is no number or 0 is that by default. *)
Definition setting_or (name : string) (default_value : Z) : M be Z :=
  value ← be_getenv name;
  mret (match value with
        | Some v => if strtoul v =? 0 then default_value else strtoul v
        | None => default_value
        end).

(** Opening the file, again after a quarter of a second as long as fewer than four per second of
    the limit were spent.  The counter is of type int, the limit of type unsigned long. *)
Fixpoint open_attribs (fuel : nat) (retry : bool) (fileName : string) (tcount timeout : Z)
    : M be (bytes * Z) :=
  match fuel with
  | O => undef "more rounds than the counter has values"
  | S fuel' =>
      be_emit (BOpen fileName);;
      b ← get;
      match n_open (b_trace b) fileName with
      | Some contents => mret (contents, tcount)
      | None =>
          if negb retry then throw ""
          else
            timeout ← (if timeout =? 0
                       then setting_or PMI_ATTRIBS_TIMEOUT_VAR PMI_ATTRIBS_DEFAULT_FOPEN_TIMEOUT
                       else mret timeout);
            if tcount =? int_max then undef "the counter overflows"
            else if tcount <? uint64 (4 * timeout)
            then be_emit BNap;; open_attribs fuel' retry fileName (tcount + 1) timeout
            else throw ""
      end
  end.

(** A file that had to be waited for may not be complete. *)
Definition extra_sleep (tcount : Z) : M be () :=
  if tcount =? 0 then mret tt
  else
    extra_timeout ← setting_or PMI_EXTRA_SLEEP_VAR (tcount / 4 / 10);
    be_emit (BSleep (uint32 extra_timeout)).

Definition getPmiAttribsInfo (fuel : nat) (retry : bool) : M be pmi_attribs_t :=
  attribs_path ← be_getAttribsDir;
  attribs_path ← non_null attribs_path "";
  '(contents, tcount) ← open_attribs fuel retry
     (truncated (attribs_path +:+ "/" +:+ PMI_ATTRIBS_FILE_NAME)) 0 0;
  extra_sleep tcount;;
  lift (parse_attribs (string_of_list_ascii contents)).

(** The list of processes, each with its rank, that is made of the information, which is kept. *)
Definition attribs_pids (fuel : nat) (failure : string) : M be (list (Z * Z)) :=
  b ← get;
  attrs ← match b_attrs b with
          | Some attrs => mret attrs
          | None =>
              attrs ← try_catch (getPmiAttribsInfo fuel true) (λ _, throw failure);
              modify (set_attrs (Some attrs));; mret attrs
          end;
  mret (map (λ p, (p.2, p.1)) (app_rankPidPairs attrs)).
End Attribs.

(** ** Numbers in range *)

Lemma int32_in_int (z : Z) : in_int z = true → int32 z = z.
Proof.
  unfold in_int, int_min, int_max, int32. intros [H1%Z.leb_le H2%Z.leb_le]%andb_true_iff.
  rewrite Z.mod_small; lia.
Qed.

Lemma clamp_in_int (z : Z) : in_int z = true → clamp_long z = z.
Proof.
  unfold in_int, int_min, int_max, clamp_long. intros [H1%Z.leb_le H2%Z.leb_le]%andb_true_iff. lia.
Qed.

Lemma atoi_to_string (z : Z) : in_int z = true → atoi (to_string z) = z.
Proof.
  intros Hz. unfold atoi, strtol. rewrite read_int_to_string. cbn [fst]. by rewrite clamp_in_int, int32_in_int.
Qed.
