(* ===== verification/BeLayout.v ===== *)
(** * The backend library: Slurm, SSH, Flux and localhost
    (src/src/backend/slurm_be.c, generic_ssh_be.c, flux_be.c, localhost_be.c)

    Where this node is in the layout of the job, and which processes it runs, from the files
    that the frontend has shipped or from those of PMI. *)

From S2P Require Import Prelude Host Wire BackendFiles System BeState.

Definition SLURM_LAYOUT_FILE : string := "slurm_layout".
Definition SLURM_PID_FILE : string := "slurm_pid".
Definition SLURMD_NODENAME : string := "SLURMD_NODENAME".

(** ** The files of the frontend *)

(** The entries of a layout file that is as long as its header says. *)
Definition layout_contents (contents : bytes) (name : string) : res (list (string * Z * Z)) :=
  if (length contents <? 4)%nat then Throw ("Could not read " +:+ name)
  else
    let n := dec_int contents in
    if n <? 0 then Throw "calloc failed."
    else if (length (drop 4 contents) <? Z.to_nat n * (HOST_NAME_MAX + 8))%nat then Throw ("Bad data in " +:+ name)
    else Ok (decode_layout contents).

(** The processes of this node: [PEsHere] entries from [firstPE] on, which [fseek] counts from
    the end of the header. *)
Definition pids_at (contents : bytes) (layout : be_layout) (name : string) : res (list Z) :=
  let '(PEsHere, firstPE) := layout in
  if (length contents <? 4)%nat then Throw ("Could not read " +:+ name)
  else if negb (in_int (firstPE + PEsHere)) then Undef "the sum overflows"
  else if dec_int contents <? firstPE + PEsHere then Throw ("Data out of bounds in " +:+ name)
  else if PEsHere <? 0 then Throw "calloc failed."
  else if 4 + 4 * firstPE <? 0 then Throw "fseek failed."
  else
    let rest := drop (Z.to_nat (4 + 4 * firstPE)) contents in
    if (length rest <? 4 * Z.to_nat PEsHere)%nat then Throw ("Bad data in " +:+ name)
    else Ok (decode_ints (Z.to_nat PEsHere) rest).

Definition entry_layout (e : string * Z * Z) : be_layout := (e.1.2, e.2).

(** The host name of an entry has the name of this node as a prefix, and no letter or digit
    follows.  A name without a null character would be read past its end. *)
Definition name_matches (hostname name : string) : res bool :=
  if starts_with hostname name
  then
    match String.get (String.length hostname) name with
    | Some c => Ok (negb (is_alnum c))
    | None => if (String.length hostname <? HOST_NAME_MAX)%nat then Ok true else Undef "reads past the host name"
    end
  else Ok false.

Fixpoint find_node_entry (hostname : string) (entries : list (string * Z * Z)) : res (option be_layout) :=
  match entries with
  | [] => Ok None
  | e :: entries' =>
      found ← name_matches hostname e.1.1;
      if (found : bool) then Ok (Some (entry_layout e)) else find_node_entry hostname entries'
  end.

(** Processes from [firstPE] on. *)
Definition ranked (pids : list Z) (firstPE : Z) : list (Z * Z) :=
  imap (λ i pid, (pid, Z.of_nat i + firstPE)) pids.

Section Backend.
Context `{Node}.

(** A file in the directory of files. *)
Definition open_shipped (name noDir : string) : M be bytes :=
  file_dir ← be_require FILE_DIR_VAR noDir;
  let path := file_dir +:+ "/" +:+ name in
  be_emit (BOpen path);;
  b ← get;
  non_null (n_open (b_trace b) path) ("Could not open " +:+ path +:+ " for reading").

(** [gethostname], its result kept. *)
Definition cached_hostname : M be string :=
  b ← get;
  match b_hostname b with
  | Some h => mret h
  | None =>
      h ← non_null (n_hostname (b_trace b)) "gethostname() failed!";
      modify (set_hostname (Some h));; mret h
  end.

(** ** Slurm *)

Definition be_slurm_init : M be () :=
  b ← get;
  if b_init b then mret tt
  else
    apid_str ← be_require APID_ENV_VAR ("Env var " +:+ APID_ENV_VAR +:+ " not set!");
    match split_at "." apid_str with
    | None => throw ("Env var " +:+ APID_ENV_VAR +:+ " has invalid value!")
    | Some (job, step) =>
        modify (λ b, set_init true (set_ids (uint32 (strtoul job)) (uint32 (strtoul step)) b))
    end.

Definition be_fini : M be () := modify (λ b, set_attrs None (set_layout None (set_pids None b))).

(** A value up to a blank, not empty, after a name. *)
Fixpoint up_to_blank (s : string) : string :=
  match s with
  | String c s' => if decide (c = " "%char) then "" else String c (up_to_blank s')
  | "" => ""
  end.

Definition scan_value (name text : string) : option string :=
  if starts_with name text
  then let v := up_to_blank (drop_str (String.length name) text) in if is_empty v then None else Some v
  else None.

Definition prefix_no_digit (short long : string) : bool :=
  starts_with short long &&
  match String.get (String.length short) long with Some c => negb (is_digit c) | None => true end.

(** One is a prefix of the other that no digit follows. *)
Definition hosts_match (hostname node_host : string) : bool :=
  match (String.length hostname ?= String.length node_host)%nat with
  | Eq => bool_decide (hostname = node_host)
  | Lt => prefix_no_digit hostname node_host
  | Gt => prefix_no_digit node_host hostname
  end.

(** The node names in the lines of scontrol, each before its host name. *)
Fixpoint find_node_name (hostname : string) (lines : list string) (current_node_name : option string)
    : option string :=
  match lines with
  | [] => None
  | line :: lines' =>
      match (suffix ← strstr "NodeHostName" line; scan_value "NodeHostName=" suffix) with
      | Some node_host =>
          match current_node_name with
          | None => None
          | Some name =>
              if hosts_match hostname node_host then Some name else find_node_name hostname lines' None
          end
      | None =>
          match scan_value "NodeName=" line with
          | Some name => find_node_name hostname lines' (Some name)
          | None => find_node_name hostname lines' current_node_name
          end
      end
  end.

(** A program and its output; the process is killed in the end. *)
Definition squeue_argv (job_id : string) : list string := ["squeue"; "-h"; "-o%N"; "-j"; job_id].

Definition slurm_getNodeName (job_id hostname : string) : M be (option string) :=
  be_emit (BRun (squeue_argv job_id));;
  b ← get;
  match n_output (b_trace b) (squeue_argv job_id) with
  | None => mret None
  | Some out =>
      match text_lines out with
      | [] => be_emit (BKillChild "squeue");; mret None
      | nodenames :: _ =>
          let scontrol := ["scontrol"; "show"; "node"; nodenames] in
          be_emit (BRun scontrol);;
          b ← get;
          let name := lines ← text_lines <$> n_output (b_trace b) scontrol; find_node_name hostname lines None in
          (match n_output (b_trace b) scontrol with
           | Some _ => be_emit (BKillChild "scontrol")
           | None => mret tt
           end);;
          be_emit (BKillChild "squeue");;
          mret name
      end
  end.

(** The name that Slurm has for the node, if it can be found out. *)
Definition slurm_getNodeHostname : M be string :=
  b ← get;
  match b_hostname b with
  | Some h => mret h
  | None =>
      nodename ← be_getenv SLURMD_NODENAME;
      match nodename with
      | Some name => modify (set_hostname (Some name));; mret name
      | None =>
          hostname ← cached_hostname;
          job_id ← be_getenv "SLURM_JOB_ID";
          name ← match job_id with
                 | Some job_id => slurm_getNodeName job_id hostname
                 | None => mret None
                 end;
          match name with
          | Some name => modify (set_hostname (Some name));; mret name
          | None => mret hostname
          end
      end
  end.

Definition slurm_getLayout : M be be_layout :=
  b ← get;
  match b_layout b with
  | Some layout => mret layout
  | None =>
      hostname ← slurm_getNodeHostname;
      contents ← open_shipped SLURM_LAYOUT_FILE "cti_be_getFileDir failed.";
      entries ← lift (layout_contents contents SLURM_LAYOUT_FILE);
      found ← lift (find_node_entry hostname entries);
      layout ← non_null found ("Could not find layout entry for hostname " +:+ hostname);
      modify (set_layout (Some layout));; mret layout
  end.

(** The processes in the file of the frontend: [getLayout] is that of the workload manager. *)
Definition shipped_pids (getLayout : M be be_layout) : M be (list Z) :=
  b ← get;
  match b_pids b with
  | Some pids => mret pids
  | None =>
      layout ← getLayout;
      contents ← open_shipped SLURM_PID_FILE "getPids failed.";
      pids ← lift (pids_at contents layout SLURM_PID_FILE);
      modify (set_pids (Some pids));; mret pids
  end.

Definition slurm_getPids : M be (list Z) := shipped_pids slurm_getLayout.

(** The file of PMI is looked for in the directory of tools, and read from another. *)
Definition slurm_findAppPids (fuel : nat) : M be (list (Z * Z)) :=
  tool_path ← be_require TOOL_DIR_VAR "_cti_be_getToolDir failed.";
  be_emit (BStat (tool_path +:+ "/" +:+ PMI_ATTRIBS_FILE_NAME));;
  b ← get;
  if n_stat (b_trace b) (tool_path +:+ "/" +:+ PMI_ATTRIBS_FILE_NAME)
  then attribs_pids fuel "_cti_be_slurm_findAppPids failed."
  else
    file_dir ← be_require FILE_DIR_VAR "_cti_be_slurm_findAppPids failed.";
    be_emit (BStat (file_dir +:+ "/" +:+ SLURM_PID_FILE));;
    b ← get;
    if n_stat (b_trace b) (file_dir +:+ "/" +:+ SLURM_PID_FILE)
    then
      pids ← slurm_getPids;
      b ← get;
      layout ← (match b_layout b with Some l => mret l | None => undef "no layout" end);
      mret (ranked pids layout.2)
    else attribs_pids fuel "_cti_be_slurm_findAppPids failed.".

(** ** SSH *)

(** The name of this node is a prefix of that of the entry. *)
Definition find_prefix_entry (hostname : string) (entries : list (string * Z * Z)) : option be_layout :=
  entry_layout <$> List.find (λ e, starts_with hostname e.1.1) entries.

(** A name that is missing is only noticed when it is compared. *)
Definition ssh_getLayout : M be be_layout :=
  b ← get;
  match b_layout b with
  | Some layout => mret layout
  | None =>
      hostname ← try_catch (h ← cached_hostname; mret (Some h)) (λ _, mret None);
      contents ← open_shipped SLURM_LAYOUT_FILE "_cti_be_generic_ssh_getLayout failed.";
      entries ← lift (layout_contents contents SLURM_LAYOUT_FILE);
      match hostname with
      | None => if bool_decide (entries = []) then throw "Could not find layout entry for hostname (null)"
                else undef "strlen of a null pointer"
      | Some hostname =>
          layout ← non_null (find_prefix_entry hostname entries)
                     ("Could not find layout entry for hostname " +:+ hostname);
          modify (set_layout (Some layout));; mret layout
      end
  end.

Definition ssh_getPids : M be (list Z) := shipped_pids ssh_getLayout.

Definition ssh_findAppPids (fuel : nat) : M be (list (Z * Z)) :=
  pids ← try_catch (pids ← ssh_getPids; mret (Some pids)) (λ _, mret None);
  match pids with
  | Some pids =>
      b ← get;
      layout ← (match b_layout b with Some l => mret l | None => undef "no layout" end);
      mret (ranked pids layout.2)
  | None =>
      attribs_pids fuel "_cti_be_generic_ssh_findAppPids failed (_cti_be_getPmiAttribsInfo NULL)."
  end.

(** ** Flux *)

(** The name is asked for each time. *)
Definition flux_getNodeHostname : M be string :=
  b ← get; non_null (n_hostname (b_trace b)) "_cti_be_flux_getNodeHostname failed.".

Definition flux_getLayoutFromFile : M be be_layout :=
  hostname ← flux_getNodeHostname;
  contents ← open_shipped SLURM_LAYOUT_FILE "cti_be_getFileDir failed.";
  entries ← lift (layout_contents contents SLURM_LAYOUT_FILE);
  found ← lift (find_node_entry hostname entries);
  non_null found ("Could not find layout entry for hostname " +:+ hostname).

(** A file that cannot be opened is read all the same. *)
Definition flux_getPidsFromFile (layout : be_layout) : M be (list Z) :=
  file_dir ← be_require FILE_DIR_VAR "cti_be_getFileDir failed.";
  let path := file_dir +:+ "/" +:+ SLURM_PID_FILE in
  be_emit (BOpen path);;
  b ← get;
  match n_open (b_trace b) path with
  | None => undef "fread of a null pointer"
  | Some contents => lift (pids_at contents layout SLURM_PID_FILE)
  end.

Definition be_flux_init : M be () :=
  b ← get;
  if b_init b then mret tt
  else
    try_catch
      (layout ← flux_getLayoutFromFile; modify (λ b, set_init true (set_layout (Some layout) b)))
      (λ e, modify (set_layout None);; throw e).

Definition be_flux_fini : M be () := modify (set_layout None).

Definition flux_findAppPids : M be (list (Z * Z)) :=
  b ← get;
  layout ← non_null (b_layout b) "";
  pids ← flux_getPidsFromFile layout;
  mret (ranked pids layout.2).

(** ** Localhost *)

Fixpoint scan_ints (n : nat) (text : string) : res (list Z) :=
  match n with
  | O => Ok []
  | S n' =>
      match scan_int text with
      | None => Throw "Could not read pid"
      | Some (pid, rest) => pids ← scan_ints n' rest; mret (pid :: pids)
      end
  end.

(** The number of processes, then each, as text. *)
Definition parse_pids (text : string) : res (list Z) :=
  match scan_int text with
  | None => Throw "Could not read"
  | Some (numPids, rest) =>
      if numPids <? 0 then Throw "Could not allocate pid list of length" else scan_ints (Z.to_nat numPids) rest
  end.

Definition localhost_initPids : M be (list Z) :=
  b ← get;
  match b_pids b with
  | Some pids => mret pids
  | None =>
      contents ← open_shipped SLURM_PID_FILE "_cti_be_localhost_initPids failed.";
      pids ← lift (parse_pids (string_of_list_ascii contents));
      modify (set_pids (Some pids));; mret pids
  end.

Definition be_localhost_fini : M be () := modify (set_pids None).

Definition localhost_findAppPids : M be (list (Z * Z)) :=
  pids ← localhost_initPids; mret (ranked pids 0).
End Backend.
