(* ===== verification/BePals.v ===== *)
(** * The backend library: PALS (src/src/backend/pals_be.c)

    Where this node is comes from libpals, or from PMIx by way of a utility; processes come from
    the file of PMI or from the layout that the frontend has shipped.  The library libpals is the
    class [LibPals]. *)

From S2P Require Import Prelude Host Wire BackendFiles System Paths BeState BeLayout.

Definition PALS_PMIX_BE_PATH : string := "CTI_PALS_PMIX_BE_PATH".
Definition PALS_BE_LIB_NAME : string := "libpals.so".

(** Functions that fail leave what they would set as it is. *)
Class LibPals : Type := {
  lp_dlopen : string → bool;
  (** whether a symbol is found, in the library or, for a null handle, in the process *)
  lp_dlsym : bool → string → bool;
  lp_init : bool;
  lp_nodes : option (list string);
  lp_nodeidx : option Z;
  (** the node of each process *)
  lp_pes : option (list Z)
}.

(** The globals.  What is asked for once only has a flag, whatever the answer was. *)
Record pals_be : Type := MkPalsBe {
  pb_be : be;
  pb_libpals : bool;
  pb_pmix_file_path : option string;
  pb_pmix_util_path : option string;
  pb_pmix_ranks_file_path : option string;
  pb_attrs_tried : bool;
  pb_node_idx : option Z;
  pb_nodes : option (option (list string));
  pb_pes : option (option (list Z));
  (** whether the file of ranks was tried, the first rank and the number found in it *)
  pb_ranks : option (Z * Z)
}.

Definition pset_be (b : be) (p : pals_be) : pals_be :=
  MkPalsBe b (pb_libpals p) (pb_pmix_file_path p) (pb_pmix_util_path p) (pb_pmix_ranks_file_path p)
    (pb_attrs_tried p) (pb_node_idx p) (pb_nodes p) (pb_pes p) (pb_ranks p).
Definition pset_libpals (l : bool) (p : pals_be) : pals_be :=
  MkPalsBe (pb_be p) l (pb_pmix_file_path p) (pb_pmix_util_path p) (pb_pmix_ranks_file_path p)
    (pb_attrs_tried p) (pb_node_idx p) (pb_nodes p) (pb_pes p) (pb_ranks p).
Definition pset_pmix (file util ranks : option string) (p : pals_be) : pals_be :=
  MkPalsBe (pb_be p) (pb_libpals p) file util ranks
    (pb_attrs_tried p) (pb_node_idx p) (pb_nodes p) (pb_pes p) (pb_ranks p).
Definition pset_attrs_tried (t : bool) (p : pals_be) : pals_be :=
  MkPalsBe (pb_be p) (pb_libpals p) (pb_pmix_file_path p) (pb_pmix_util_path p) (pb_pmix_ranks_file_path p)
    t (pb_node_idx p) (pb_nodes p) (pb_pes p) (pb_ranks p).
Definition pset_node_idx (i : option Z) (p : pals_be) : pals_be :=
  MkPalsBe (pb_be p) (pb_libpals p) (pb_pmix_file_path p) (pb_pmix_util_path p) (pb_pmix_ranks_file_path p)
    (pb_attrs_tried p) i (pb_nodes p) (pb_pes p) (pb_ranks p).
Definition pset_nodes (n : option (option (list string))) (p : pals_be) : pals_be :=
  MkPalsBe (pb_be p) (pb_libpals p) (pb_pmix_file_path p) (pb_pmix_util_path p) (pb_pmix_ranks_file_path p)
    (pb_attrs_tried p) (pb_node_idx p) n (pb_pes p) (pb_ranks p).
Definition pset_pes (n : option (option (list Z))) (p : pals_be) : pals_be :=
  MkPalsBe (pb_be p) (pb_libpals p) (pb_pmix_file_path p) (pb_pmix_util_path p) (pb_pmix_ranks_file_path p)
    (pb_attrs_tried p) (pb_node_idx p) (pb_nodes p) n (pb_ranks p).
Definition pset_ranks (r : option (Z * Z)) (p : pals_be) : pals_be :=
  MkPalsBe (pb_be p) (pb_libpals p) (pb_pmix_file_path p) (pb_pmix_util_path p) (pb_pmix_ranks_file_path p)
    (pb_attrs_tried p) (pb_node_idx p) (pb_nodes p) (pb_pes p) r.

(** Code over the common part of the state. *)
Definition on_be {A : Type} (m : M be A) : M pals_be A := zoom pb_be pset_be m.

(** ** Texts *)

(** What [fgets] reads of a line at a time. *)
Fixpoint pieces (fuel : nat) (line : string) : list string :=
  match fuel with
  | O => []
  | S fuel' =>
      if (String.length line <? PATH_MAX)%nat then [line]
      else truncated line :: pieces fuel' (drop_str (PATH_MAX - 1) line)
  end.

Fixpoint word (n : nat) (s : string) : string * string :=
  match n, s with
  | S n', String c s' => if is_space c then ("", s) else let '(w, rest) := word n' s' in (String c w, rest)
  | _, _ => ("", s)
  end.

(** [sscanf(line, "%1023s %ld %ld")] *)
Definition scan_ranks (line : string) : option (string * Z * Z) :=
  let '(file_host, rest) := word 1023 (skip_space line) in
  if is_empty file_host then None
  else
    '(first_rank, rest) ← scan_long rest;
    '(num_ranks, _) ← scan_long rest;
    Some (file_host, first_rank, num_ranks).

Definition hostnames_match_by_prefix (a b : string) : bool :=
  if (String.length a <? String.length b)%nat then starts_with a b else starts_with b a.

(** The first line for a host: what it does not set is -1. *)
Fixpoint find_ranks (hostname : string) (lines : list string) : Z * Z :=
  match lines with
  | [] => (-1, -1)
  | line :: lines' =>
      match scan_ranks line with
      | Some (file_host, first_rank, num_ranks) =>
          if hostnames_match_by_prefix hostname file_host
          then (if 0 <=? first_rank then int32 first_rank else -1, if 0 <=? num_ranks then int32 num_ranks else -1)
          else find_ranks hostname lines'
      | None => find_ranks hostname lines'
      end
  end.

(** ** The layout of the frontend *)

(** The host of an entry, and the number of pairs that follow it. *)
Definition PALS_ENTRY : nat := HOST_NAME_MAX + 4.

(** Entries from a position on.  A seek to before the start of the file fails and leaves the
    position. *)
Fixpoint find_pals_entry (n : nat) (hostname : string) (contents : bytes) (pos : Z) : res (list (Z * Z)) :=
  match n with
  | O => Throw ("Could not find layout entry for hostname " +:+ hostname)
  | S n' =>
      let entry := drop (Z.to_nat pos) contents in
      if (length entry <? PALS_ENTRY)%nat then Throw "Could not read layout entry"
      else
        let numRanks := dec_int (drop HOST_NAME_MAX entry) in
        found ← name_matches hostname (decode_name entry);
        if (found : bool)
        then
          if numRanks <? 0 then Throw "malloc failed."
          else
            let pairs := drop PALS_ENTRY entry in
            if (length pairs <? 8 * Z.to_nat numRanks)%nat then Throw "Could not read PID list"
            else Ok (decode_pairs (Z.to_nat numRanks) pairs)
        else
          let pos := pos + Z.of_nat PALS_ENTRY in
          find_pals_entry n' hostname contents (if pos + 8 * numRanks <? 0 then pos else pos + 8 * numRanks)
  end.

Definition find_pals_ranks (hostname : string) (contents : bytes) : res (list (Z * Z)) :=
  if (length contents <? 4)%nat then Throw "Could not read header"
  else find_pals_entry (Z.to_nat (dec_int contents)) hostname contents 4.

Section Pals.
Context `{Node} `{LibPals}.

(** ** What is asked for once *)

(** Without the file of PMI, the answer is kept as well. *)
Definition get_pmi_attrs_no_retry : M pals_be (option pmi_attribs_t) :=
  p ← get;
  if pb_attrs_tried p then mret (b_attrs (pb_be p))
  else
    modify (pset_attrs_tried true);;
    attrs ← try_catch (a ← on_be (getPmiAttribsInfo 1 false); mret (Some a)) (λ _, mret None);
    on_be (modify (set_attrs attrs));; mret attrs.

Definition get_node_idx : M pals_be Z :=
  p ← get;
  match pb_node_idx p with
  | Some i => mret i
  | None =>
      let i := if pb_libpals p then default (-1) lp_nodeidx else -1 in
      modify (pset_node_idx (Some i));; mret i
  end.

Definition get_pals_nodes : M pals_be (option (list string)) :=
  p ← get;
  match pb_nodes p with
  | Some nodes => mret nodes
  | None =>
      let nodes := if pb_libpals p then lp_nodes else None in
      modify (pset_nodes (Some nodes));; mret nodes
  end.

Definition get_pals_pes : M pals_be (option (list Z)) :=
  p ← get;
  match pb_pes p with
  | Some pes => mret pes
  | None =>
      let pes := if pb_libpals p then lp_pes else None in
      modify (pset_pes (Some pes));; mret pes
  end.

(** The flags are not reset. *)
Definition cleanup_be_globals : M pals_be () :=
  modify (λ p, pset_libpals false (pset_pmix None None None (pset_be (set_attrs None (pb_be p))
    (pset_nodes (match pb_nodes p with Some _ => Some None | None => None end)
       (pset_pes (match pb_pes p with Some _ => Some None | None => None end) p))))).

(** ** Paths *)

(** The first library that can be read: in the directory that pkg-config prints, then in those
    by default. *)
Definition detect_libpals : M be string :=
  let argv := ["pkg-config"; "--variable=libdir"; "libpals"] in
  be_emit (BRun argv);;
  b ← get;
  detected ←
    match n_output (b_trace b) argv with
    | None => mret None
    | Some out =>
        mret (if is_empty out || (PATH_MAX - 1 <=? String.length out)%nat || negb (default 0 (n_exit (b_trace b) argv) =? 0)
              then None else Some (c_str (String.substring 0 (String.length out - 1) out)))
    end;
  if (PATH_MAX <=? String.length (default "" detected +:+ "/" +:+ PALS_BE_LIB_NAME))%nat then throw "snprintf"
  else match List.find (λ dir, n_access (dir +:+ "/" +:+ PALS_BE_LIB_NAME))
          (option_list detected ++ ["/opt/cray/pe/pals/default/lib"; "/opt/cray/pals/default/lib"; "/usr/lib64"]) with
  | Some dir => mret (dir +:+ "/" +:+ PALS_BE_LIB_NAME)
  | None => throw "failed to detect libpals path"
  end.

Definition find_first_pmix_file (path : string) : option string :=
  entries ← n_dir path;
  fst <$> List.find (λ e : string * bool, e.2 && starts_with "pmix." e.1) entries.

Definition get_pmix_file_path : M be (option string) :=
  spool ← be_getenv "PALS_SPOOL_DIR";
  mret (spool_dir ← spool;
        let spool_tmp_dir := spool_dir +:+ "/tmp/" in
        (λ filename, spool_tmp_dir +:+ "/" +:+ filename) <$> find_first_pmix_file spool_tmp_dir).

Definition get_pmix_util_path : M be (option string) :=
  manifest_root ← cti_be_getRootDir;
  mret ((λ root, root +:+ "/cti_pmix_util") <$> manifest_root).

Definition get_pmix_ranks_file_path : M be (option string) :=
  file_dir ← cti_be_getFileDir;
  mret (dir ← file_dir; let path := dir +:+ "/pmix_ranks" in if n_access path then Some path else None).

(** ** Initialization *)

Definition libpals_symbols : list string :=
  ["pals_errmsg"; "pals_init"; "pals_fini"; "pals_get_nodes"; "pals_get_nodeidx"; "pals_get_pes"].

(** Whether the library could be opened is not looked at: the table of functions is, which is
    there, so that the path of the library is never detected. *)
Definition load_libpals : M pals_be () :=
  modify (pset_libpals true);;
  if negb (forallb (lp_dlsym (lp_dlopen PALS_BE_LIB_NAME)) libpals_symbols)
  then cleanup_be_globals;; throw "dlsym"
  else if negb lp_init then cleanup_be_globals;; throw "libpals initialization failed"
  else mret tt.

(** With PMIx, libpals is the fallback. *)
Definition be_pals_init : M pals_be () :=
  p ← get;
  if pb_libpals p || bool_decide (is_Some (pb_pmix_file_path p)) then mret tt
  else
    pmix ← on_be (be_getenv PALS_PMIX_BE_PATH);
    match pmix with
    | Some _ =>
        file ← on_be get_pmix_file_path;
        util ← on_be get_pmix_util_path;
        ranks ← on_be get_pmix_ranks_file_path;
        modify (pset_pmix file util ranks);;
        if bool_decide (is_Some file) && bool_decide (is_Some util) then mret tt else load_libpals
    | None => load_libpals
    end.

Definition be_pals_fini : M pals_be () := cleanup_be_globals.

(** ** PMIx *)

(** What the utility prints for a key, but for its last character. *)
Definition pmix_get (pmix_util_path : option string) (key : string) : M pals_be (option string) :=
  p ← get;
  match pb_pmix_file_path p, pmix_util_path with
  | Some file, Some util =>
      let argv := [util; file; key] in
      on_be (be_emit (BRun argv));;
      p ← get;
      let trace := b_trace (pb_be p) in
      mret (out ← n_output trace argv;
            if is_empty out || (PATH_MAX - 1 <=? String.length out)%nat || negb (default 0 (n_exit trace argv) =? 0)
            then None
            else Some (c_str (String.substring 0 (String.length out - 1) out)))
  | _, _ => mret None
  end.

Definition pmix_get_hostname (pmix_util_path : option string) : M pals_be (option string) :=
  hname ← pmix_get pmix_util_path "pmix.hname";
  match hname with
  | Some h => mret (Some h)
  | None => p ← get; mret (n_hostname (b_trace (pb_be p)))
  end.

(** The first rank and the number of ranks from the file of ranks, which is read once. *)
Definition nodeinfo_from_fallback (pmix_util_path : option string) : M pals_be (option (Z * Z)) :=
  p ← get;
  match pb_ranks p with
  | Some (first, num) => mret (if (0 <=? first) || (0 <=? num) then Some (first, num) else None)
  | None =>
      modify (pset_ranks (Some (-1, -1)));;
      match pb_pmix_ranks_file_path p with
      | None => mret None
      | Some path =>
          hostname ← pmix_get_hostname pmix_util_path;
          match hostname with
          | None => mret None
          | Some hostname =>
              on_be (be_emit (BOpen path));;
              p ← get;
              match n_open (b_trace (pb_be p)) path with
              | None => mret None
              | Some contents =>
                  let text := string_of_list_ascii contents in
                  let '(first, num) := find_ranks hostname
                                         (flat_map (λ l, pieces (S (String.length l)) l) (text_lines text)) in
                  modify (pset_ranks (Some (first, num)));;
                  mret (if (first <? 0) && (num <? 0) then None else Some (first, num))
              end
          end
      end
  end.

(** A number that PMIx has for a key; a text that is no number is 0. *)
Definition pmix_number (pmix_util_path : option string) (key : string) : M pals_be Z :=
  text ← pmix_get pmix_util_path key;
  mret (match text with Some t => atoi t | None => -1 end).

Definition pmix_get_first_pe (pmix_util_path : option string) : M pals_be Z :=
  fallback ← nodeinfo_from_fallback pmix_util_path;
  match fallback with
  | Some (first, _) => if 0 <=? first then mret first else pmix_number pmix_util_path "pmix.lldr"
  | None => pmix_number pmix_util_path "pmix.lldr"
  end.

Definition pmix_get_num_pes (pmix_util_path : option string) : M pals_be Z :=
  fallback ← nodeinfo_from_fallback pmix_util_path;
  match fallback with
  | Some (_, num) => if 0 <=? num then mret num else pmix_number pmix_util_path "pmix.local.size"
  | None => pmix_number pmix_util_path "pmix.local.size"
  end.

(** ** The interface *)

Definition pals_getNodeHostname : M pals_be string :=
  pmix ← on_be (be_getenv PALS_PMIX_BE_PATH);
  match pmix with
  | None =>
      nodes ← get_pals_nodes;
      match nodes with
      | None => throw ""
      | Some nodes =>
          idx ← get_node_idx;
          if idx <? 0 then throw ""
          else match nodes !! Z.to_nat idx with
               | Some h => mret h
               | None => throw "libpals reported current node index"
               end
      end
  | Some _ =>
      p ← get;
      h ← pmix_get_hostname (pb_pmix_util_path p);
      match h with Some h => mret h | None => throw "" end
  end.

Definition pals_getNodeFirstPE : M pals_be Z :=
  pmix ← on_be (be_getenv PALS_PMIX_BE_PATH);
  match pmix with
  | None =>
      pes ← get_pals_pes;
      match pes with
      | None => throw ""
      | Some pes =>
          idx ← get_node_idx;
          if idx <? 0 then throw ""
          else match list_find (eq idx) pes with
               | Some (i, _) => mret (Z.of_nat i)
               | None => throw ""
               end
      end
  | Some _ => p ← get; pmix_get_first_pe (pb_pmix_util_path p)
  end.

Definition pals_getNodePEs : M pals_be Z :=
  pmix ← on_be (be_getenv PALS_PMIX_BE_PATH);
  match pmix with
  | None =>
      pes ← get_pals_pes;
      match pes with
      | None => throw ""
      | Some pes =>
          idx ← get_node_idx;
          if idx <? 0 then throw "" else mret (Z.of_nat (length (filter (eq idx) pes)))
      end
  | Some _ => p ← get; pmix_get_num_pes (pb_pmix_util_path p)
  end.

Definition pals_getRanksFromFile : M pals_be (list (Z * Z)) :=
  hostname ← pals_getNodeHostname;
  on_be (contents ← open_shipped SLURM_LAYOUT_FILE "cti_be_getFileDir failed.";
         lift (find_pals_ranks hostname contents)).

Definition pals_findAppPids : M pals_be (list (Z * Z)) :=
  attrs ← get_pmi_attrs_no_retry;
  match attrs with
  | Some attrs => mret (map (λ p, (p.2, p.1)) (app_rankPidPairs attrs))
  | None => pals_getRanksFromFile
  end.
End Pals.
