(* ===== verification/BeLib.v ===== *)
(** * The backend library: the interface (src/src/backend/cti_be.c, alps_be.c)

    The workload manager is chosen from the environment when the library is loaded; the functions
    of the interface are those of that workload manager.  libalpsutil is the class [LibAlps]. *)

From S2P Require Import Prelude Host Wire BackendFiles System Detect BeState BeLayout BePals.

Class LibAlps : Type := {
  la_load : bool;
  (** firstPe and numPesHere of an application *)
  la_placement : Z → option (Z * Z)
}.

Inductive be_proto : Type :=
| ProtoNone | ProtoAlps | ProtoPals | ProtoSlurm | ProtoSsh | ProtoFlux | ProtoLocalhost.

#[export] Instance be_proto_eq_dec : EqDecision be_proto.
Proof. solve_decision. Defined.

(** The enumeration cti_wlm_type_t *)
Definition CTI_WLM_NONE : Z := 0.
Definition CTI_WLM_MOCK : Z := 1.
Definition CTI_WLM_SLURM : Z := 2.
Definition CTI_WLM_SSH : Z := 3.
Definition CTI_WLM_ALPS : Z := 4.
Definition CTI_WLM_PALS : Z := 5.
Definition CTI_WLM_FLUX : Z := 6.
Definition CTI_WLM_LOCALHOST : Z := 7.

(** wlm_type of the tables; that of localhost says SSH. *)
Definition wlm_type (p : be_proto) : Z :=
  match p with
  | ProtoNone => CTI_WLM_NONE
  | ProtoAlps => CTI_WLM_ALPS
  | ProtoPals => CTI_WLM_PALS
  | ProtoSlurm => CTI_WLM_SLURM
  | ProtoSsh => CTI_WLM_SSH
  | ProtoFlux => CTI_WLM_FLUX
  | ProtoLocalhost => CTI_WLM_SSH
  end.

Definition cti_be_wlm_type_toString (wlm : Z) : string :=
  if wlm =? CTI_WLM_ALPS then "alps"
  else if wlm =? CTI_WLM_SLURM then "slurm"
  else if wlm =? CTI_WLM_SSH then "generic"
  else if wlm =? CTI_WLM_PALS then "pals"
  else if wlm =? CTI_WLM_FLUX then "flux"
  else if wlm =? CTI_WLM_LOCALHOST then "localhost"
  else if (wlm =? CTI_WLM_NONE) || (wlm =? CTI_WLM_MOCK) then "No WLM detected"
  else "Invalid WLM.".

(** The globals of ALPS: the library is loaded, the application, this node, its layout. *)
Record alps_be : Type := MkAlpsBe {
  al_ptr : bool; al_apid : Z; al_nid : option Z; al_layout : option (Z * Z)
}.

Record be_lib : Type := MkBeLib {
  bl_pals : pals_be;
  bl_alps : alps_be;
  bl_proto : be_proto;
  bl_isInit : bool;
  bl_isFini : bool
}.

Definition bset_pals (p : pals_be) (l : be_lib) : be_lib :=
  MkBeLib p (bl_alps l) (bl_proto l) (bl_isInit l) (bl_isFini l).
Definition bset_alps (a : alps_be) (l : be_lib) : be_lib :=
  MkBeLib (bl_pals l) a (bl_proto l) (bl_isInit l) (bl_isFini l).
Definition bset_proto (p : be_proto) (l : be_lib) : be_lib :=
  MkBeLib (bl_pals l) (bl_alps l) p (bl_isInit l) (bl_isFini l).
Definition bset_isInit (i : bool) (l : be_lib) : be_lib :=
  MkBeLib (bl_pals l) (bl_alps l) (bl_proto l) i (bl_isFini l).
Definition bset_isFini (i : bool) (l : be_lib) : be_lib :=
  MkBeLib (bl_pals l) (bl_alps l) (bl_proto l) (bl_isInit l) i.

Definition on_pals {A : Type} (m : M pals_be A) : M be_lib A := zoom bl_pals bset_pals m.
Definition on_node {A : Type} (m : M be A) : M be_lib A := on_pals (on_be m).
Definition on_alps {A : Type} (m : M alps_be A) : M be_lib A := zoom bl_alps bset_alps m.

Section Lib.
Context `{Node} `{LibPals} `{LibAlps} `{Build}.

(** ** ALPS *)

Definition ALPS_XT_NID : string := "/proc/cray_xt/nid".

(** [%05d] *)
Definition nid_digits (nid : Z) : string :=
  let digits := to_string (Z.abs nid) in
  let pad := ((if (nid <? 0)%Z then 4 else 5) - String.length digits)%nat in
  (if nid <? 0 then "-" else "") +:+ String.concat "" (replicate pad "0") +:+ digits.

Definition be_alps_init : M be_lib () :=
  l ← get;
  if al_ptr (bl_alps l) then mret tt
  else if negb la_load then throw "dlopen"
  else
    apid_str ← on_node (be_require APID_ENV_VAR ("Env var " +:+ APID_ENV_VAR +:+ " not set!"));
    on_alps (modify (λ a, MkAlpsBe true (strtoul apid_str) (al_nid a) (al_layout a))).

Definition be_alps_fini : M be_lib () :=
  on_alps (modify (λ a, MkAlpsBe false (al_apid a) None None));; on_node (modify (set_attrs None)).

Definition alps_getComputeNodeInfo : M be_lib Z :=
  l ← get;
  match al_nid (bl_alps l) with
  | Some nid => mret nid
  | None =>
      contents ← on_node (be_emit (BOpen ALPS_XT_NID);; b ← get;
                          non_null (n_open (b_trace b) ALPS_XT_NID) "_cti_be_alps_getComputeNodeInfo failed.");
      match text_lines (string_of_list_ascii contents) with
      | [] => throw "_cti_be_alps_getComputeNodeInfo failed."
      | line :: _ =>
          on_alps (modify (λ a, MkAlpsBe (al_ptr a) (al_apid a) (Some (atoi line)) (al_layout a)));;
          mret (atoi line)
      end
  end.

Definition alps_getPlacementInfo : M be_lib (Z * Z) :=
  l ← get;
  match al_layout (bl_alps l) with
  | Some layout => mret layout
  | None =>
      let apid := al_apid (bl_alps l) in
      if apid =? 0 then throw "_cti_be_alps_getPlacementInfo failed."
      else
        match (if al_ptr (bl_alps l) then la_placement apid else None) with
        | None => throw "_cti_be_alps_getPlacementInfo failed."
        | Some layout =>
            on_alps (modify (λ a, MkAlpsBe (al_ptr a) (al_apid a) (al_nid a) (Some layout)));; mret layout
        end
  end.

Definition alps_getNodeHostname : M be_lib string :=
  nid ← alps_getComputeNodeInfo; mret ("nid" +:+ nid_digits nid).

(** ** The functions of the workload manager *)

Definition wlm_init (p : be_proto) : M be_lib () :=
  match p with
  | ProtoNone => throw "wlm_init() not supported"
  | ProtoAlps => be_alps_init
  | ProtoPals => on_pals be_pals_init
  | ProtoSlurm => on_node be_slurm_init
  | ProtoFlux => on_node be_flux_init
  | ProtoSsh | ProtoLocalhost => mret tt
  end.

Definition wlm_fini (p : be_proto) : M be_lib () :=
  match p with
  | ProtoNone => mret tt
  | ProtoAlps => be_alps_fini
  | ProtoPals => on_pals be_pals_fini
  | ProtoSlurm | ProtoSsh => on_node be_fini
  | ProtoFlux => on_node be_flux_fini
  | ProtoLocalhost => on_node be_localhost_fini
  end.

(** [fuel] bounds the attempts to open the file of PMI. *)
Definition wlm_findAppPids (fuel : nat) (p : be_proto) : M be_lib (list (Z * Z)) :=
  match p with
  | ProtoNone => throw "wlm_findAppPids() not supported"
  | ProtoAlps => on_node (attribs_pids fuel "_cti_be_alps_findAppPids failed.")
  | ProtoPals => on_pals pals_findAppPids
  | ProtoSlurm => on_node (slurm_findAppPids fuel)
  | ProtoSsh => on_node (ssh_findAppPids fuel)
  | ProtoFlux => on_node flux_findAppPids
  | ProtoLocalhost => on_node localhost_findAppPids
  end.

Definition wlm_getNodeHostname (p : be_proto) : M be_lib string :=
  match p with
  | ProtoNone => throw "wlm_getNodeHostname() not supported"
  | ProtoAlps => alps_getNodeHostname
  | ProtoPals => on_pals pals_getNodeHostname
  | ProtoSlurm => on_node slurm_getNodeHostname
  | ProtoSsh | ProtoLocalhost => on_node cached_hostname
  | ProtoFlux => on_node flux_getNodeHostname
  end.

(** The layout that Flux has found when it was initialized. *)
Definition flux_layout : M be_lib be_layout := on_node (b ← get; non_null (b_layout b) "").

Definition wlm_getNodeFirstPE (p : be_proto) : M be_lib Z :=
  match p with
  | ProtoNone => throw "wlm_getNodeFirstPE() not supported"
  | ProtoAlps => layout ← alps_getPlacementInfo; mret layout.1
  | ProtoPals => on_pals pals_getNodeFirstPE
  | ProtoSlurm => layout ← on_node slurm_getLayout; mret layout.2
  | ProtoSsh => layout ← on_node ssh_getLayout; mret layout.2
  | ProtoFlux => layout ← flux_layout; mret layout.2
  | ProtoLocalhost => mret 0
  end.

Definition wlm_getNodePEs (p : be_proto) : M be_lib Z :=
  match p with
  | ProtoNone => throw "wlm_getNodePEs() not supported"
  | ProtoAlps => layout ← alps_getPlacementInfo; mret layout.2
  | ProtoPals => on_pals pals_getNodePEs
  | ProtoSlurm => layout ← on_node slurm_getLayout; mret layout.1
  | ProtoSsh => layout ← on_node ssh_getLayout; mret layout.1
  | ProtoFlux => layout ← flux_layout; mret layout.1
  | ProtoLocalhost => pids ← on_node localhost_initPids; mret (Z.of_nat (length pids))
  end.

(** ** Loading and unloading *)

(** The table for a value of the environment. *)
Definition proto_of (wlm : Z) : option be_proto :=
  if (wlm =? CTI_WLM_ALPS) && HAVE_ALPS then Some ProtoAlps
  else if (wlm =? CTI_WLM_PALS) && HAVE_PALS then Some ProtoPals
  else if wlm =? CTI_WLM_SLURM then Some ProtoSlurm
  else if wlm =? CTI_WLM_SSH then Some ProtoSsh
  else if (wlm =? CTI_WLM_FLUX) && HAVE_FLUX then Some ProtoFlux
  else if wlm =? CTI_WLM_LOCALHOST then Some ProtoLocalhost
  else None.

(** The constructor of the library. *)
Definition be_library_init : M be_lib () :=
  l ← get;
  if bl_isInit l then mret tt
  else
    guard_var ← on_node (be_getenv BE_GUARD_ENV_VAR);
    wlm_str ← on_node (be_getenv WLM_ENV_VAR);
    match guard_var, wlm_str with
    | Some _, Some wlm_str =>
        match proto_of (atoi wlm_str) with
        | None => mret tt
        | Some p =>
            modify (bset_proto p);;
            ok ← try_catch (wlm_init p;; mret true) (λ _, mret false);
            modify (if ok : bool then bset_isInit true else bset_proto ProtoNone)
        end
    | _, _ => mret tt
    end.

(** The destructor. *)
Definition be_library_fini : M be_lib () :=
  l ← get;
  if bl_isFini l then mret tt
  else wlm_fini (bl_proto l);; modify (λ l, bset_isFini true (bset_proto ProtoNone l)).

(** ** The interface *)

Definition cti_be_current_wlm : M be_lib Z := gets (λ l, wlm_type (bl_proto l)).

(** Null pointers and -1 for what fails. *)
Definition api_pointer {A : Type} (m : be_proto → M be_lib A) : M be_lib (option A) :=
  l ← get; try_catch (a ← m (bl_proto l); mret (Some a)) (λ _, mret None).

Definition api_int (m : be_proto → M be_lib Z) : M be_lib Z :=
  l ← get; try_catch (m (bl_proto l)) (λ _, mret (-1)).

Definition cti_be_findAppPids (fuel : nat) : M be_lib (option (list (Z * Z))) := api_pointer (wlm_findAppPids fuel).
Definition cti_be_getNodeHostname : M be_lib (option string) := api_pointer wlm_getNodeHostname.
Definition cti_be_getNodeFirstPE : M be_lib Z := api_int wlm_getNodeFirstPE.
Definition cti_be_getNodePEs : M be_lib Z := api_int wlm_getNodePEs.
End Lib.
