(* ===== verification/BeProofs.v ===== *)
(** * The backend library: properties

    What the backend reads of the files that the frontends have staged, for Generic SSH, Slurm
    and PALS; the file of PMI and the wait for it; what the interface says of the processes of a
    node. *)

From S2P Require Import Prelude Split Argv Host Wire BackendFiles Daemon Handlers FEIface System SlurmJobs.
From S2P Require Import ConfigDir Requests SlurmLayout PalsJobs PalsApp PalsProofs SshSession SshApp SshProofs.
From S2P Require Import Detect BeState BeLayout BePals BeLib.

(** ** Contents of files *)

Lemma layout_entries_length (l : list (string * Z * Z)) (b : bytes) :
  Forall entry_fits l → layout_file_entries l = Ok b → length b = (length l * (HOST_NAME_MAX + 8))%nat.
Proof.
  intros Hl. revert b. induction Hl as [|[[h n] f] l Hf _ IH]; intros b; [by intros [= <-]|].
  cbn [layout_file_entries]. destruct (entry_roundtrip h n f [] Hf) as (e & -> & He & _). cbn.
  destruct (layout_file_entries l) as [es|x|x]; [|done..]. cbn. intros [= <-].
  rewrite length_app, He, (IH es eq_refl). unfold HOST_NAME_MAX. cbn [length]. lia.
Qed.

(** The backend accepts a layout file and finds the entries it was made of. *)
Lemma layout_contents_file (l : list (string * Z * Z)) (message : string) :
  Forall entry_fits l → in_int (Z.of_nat (length l)) = true →
  ∃ b, layout_file l = Ok b ∧ layout_contents b message = Ok l.
Proof.
  intros Hl Hn. destruct (layout_file_roundtrip l Hl Hn) as (b & E & Hd). exists b. split; [done|].
  unfold layout_file in E. destruct (layout_file_entries l) as [es|x|x] eqn:Ees; [|done..].
  assert (b = enc_le 4 (Z.of_nat (length l)) ++ es) as -> by (injection E; done).
  pose proof (layout_entries_length _ _ Hl Ees) as Hes. unfold layout_contents.
  rewrite length_app, length_enc_le, dec_int_enc, drop_encoded by done.
  rewrite (proj2 (Nat.ltb_ge _ _)) by lia. rewrite (proj2 (Z.ltb_ge _ _)) by lia.
  rewrite (proj2 (Nat.ltb_ge _ _)) by lia. by rewrite Hd.
Qed.

Lemma decode_ints_take (n : nat) (pids : list Z) :
  Forall (λ p, in_int p = true) pids → (n ≤ length pids)%nat →
  decode_ints n (flat_map (enc_le 4) pids) = take n pids.
Proof.
  revert pids. induction n as [|n IH]; intros pids Hp Hn; [done|]. destruct Hp as [|p pids Hp Hps]; [cbn in Hn; lia|].
  cbn [flat_map decode_ints take]. rewrite dec_int_enc, drop_encoded by done. f_equal. apply IH; [done|cbn in Hn; lia].
Qed.

Lemma drop_ints (f : nat) (pids : list Z) :
  drop (4 * f) (flat_map (enc_le 4) pids) = flat_map (enc_le 4) (drop f pids).
Proof.
  revert pids. induction f as [|f IH]; intros pids; [done|]. destruct pids as [|p pids]; [by rewrite drop_nil|].
  cbn [flat_map drop]. replace (4 * S f)%nat with (4 + 4 * f)%nat by lia.
  rewrite <-drop_drop, drop_encoded. apply IH.
Qed.

Lemma length_ints (pids : list Z) : length (flat_map (enc_le 4) pids) = (4 * length pids)%nat.
Proof. induction pids as [|p pids IH]; [done|]. cbn [flat_map length]. rewrite length_app, length_enc_le, IH. lia. Qed.

(** Of a file of processes, those of a node that the layout places within it. *)
Lemma pids_at_file (pids : list Z) (n f : nat) (message : string) :
  Forall (λ p, in_int p = true) pids → Z.of_nat (length pids) < 2 ^ 31 → (f + n ≤ length pids)%nat →
  pids_at (pid_file pids) (Z.of_nat n, Z.of_nat f) message = Ok (take n (drop f pids)).
Proof.
  intros Hp Hl Hfn. unfold pids_at, pid_file.
  rewrite length_app, length_enc_le, dec_int_enc by (unfold in_int, int_min, int_max; lia).
  rewrite (proj2 (Nat.ltb_ge _ _)) by lia.
  replace (in_int (Z.of_nat f + Z.of_nat n)) with true by (unfold in_int, int_min, int_max; lia). cbn [negb].
  rewrite !(proj2 (Z.ltb_ge _ _)) by lia.
  replace (Z.to_nat (4 + 4 * Z.of_nat f)) with (4 + 4 * f)%nat by lia.
  rewrite <-drop_drop, drop_encoded, drop_ints, Nat2Z.id, length_ints, length_drop.
  rewrite (proj2 (Nat.ltb_ge _ _)) by lia. rewrite decode_ints_take; [done|by apply Forall_drop|rewrite length_drop; lia].
Qed.

(** ** Names of hosts *)

Lemma get_after (h rest : string) : String.get (String.length h) (h +:+ rest) = String.get 0 rest.
Proof. induction h as [|c h IH]; [done|]. exact IH. Qed.

(** A name is that of a host when it is the name of the host, or goes on with what is neither
    letter nor digit. *)
Lemma name_matches_spec (h name : string) :
  (String.length h < HOST_NAME_MAX)%nat →
  ∃ m, name_matches h name = Ok m ∧
    (m = true ↔ name = h ∨ ∃ c rest, name = h +:+ String c rest ∧ is_alnum c = false).
Proof.
  intros Hl. unfold name_matches. destruct (starts_with h name) eqn:Es.
  - apply starts_with_spec in Es as [rest ->]. rewrite get_after. destruct rest as [|c rest]; cbn [String.get].
    + rewrite (proj2 (Nat.ltb_lt _ _)) by lia. exists true. split; [done|]. rewrite string_app_nil_r. tauto.
    + exists (negb (is_alnum c)). split; [done|]. rewrite negb_true_iff. split.
      * intros Hc. right. by exists c, rest.
      * intros [E|(c' & rest' & E & Hc)]; [|apply string_app_inj_l in E; by injection E as -> ->].
        rewrite <-(string_app_nil_r h) in E at 2. by apply string_app_inj_l in E.
  - exists false. split; [done|]. split; [done|]. intros Hm. exfalso. apply not_true_iff_false in Es. apply Es.
    apply starts_with_spec. destruct Hm as [->|(c & rest & -> & _)]; [exists ""|by eexists].
    by rewrite string_app_nil_r.
Qed.

(** The entry of a node, when no other entry has a name of this node. *)
Lemma find_node_entry_unique (h : string) (entries : list (string * Z * Z)) (e : string * Z * Z) :
  (String.length h < HOST_NAME_MAX)%nat → e ∈ entries → name_matches h e.1.1 = Ok true →
  (∀ e', e' ∈ entries → name_matches h e'.1.1 = Ok true → e' = e) →
  find_node_entry h entries = Ok (Some (entry_layout e)).
Proof.
  intros Hl. induction entries as [|x entries IH]; [set_solver|]. intros Hin He Huniq. cbn [find_node_entry].
  destruct (name_matches_spec h x.1.1 Hl) as ([] & E & _); rewrite E; cbn.
  - by rewrite (Huniq x (list_elem_of_here _ _) E).
  - apply IH; [|done|by intros e' He'; apply Huniq; right]. apply elem_of_cons in Hin as [->|Hin]; [|done].
    rewrite E in He. discriminate He.
Qed.

(** ** The files of a node *)

Section Files.
Context `{Node}.

(** A file in the directory of files, whenever it is opened. *)
Definition shipped (name : string) (contents : bytes) (b : be) : Prop :=
  ∃ dir, b_env b !! FILE_DIR_VAR = Some dir ∧ ∀ t, n_open t (dir +:+ "/" +:+ name) = Some contents.

(** A library that has not looked at the files yet, on a node of this name. *)
Record fresh (h : string) (b : be) : Prop := {
  fresh_layout : b_layout b = None;
  fresh_pids : b_pids b = None;
  fresh_name : b_hostname b = Some h
}.

Lemma open_shipped_run (name noDir : string) (contents : bytes) (b : be) :
  shipped name contents b →
  ∃ path, open_shipped name noDir b = (Ok contents, set_trace (b_trace b ++ [BOpen path]) b).
Proof.
  intros (dir & Hdir & Hopen). exists (dir +:+ "/" +:+ name).
  unfold open_shipped, be_require, be_getenv, gets, mbind, M_bind. rewrite Hdir. cbn.
  by rewrite Hopen.
Qed.

Lemma shipped_trace (name : string) (contents : bytes) (t : list be_event) (b : be) :
  shipped name contents b → shipped name contents (set_trace t b).
Proof. done. Qed.

Lemma shipped_layout (name : string) (contents : bytes) (l : option be_layout) (b : be) :
  shipped name contents b → shipped name contents (set_layout l b).
Proof. done. Qed.

(** Once the layout is known, the processes are a part of the file. *)
Lemma shipped_pids_run (getLayout : M be be_layout) (pids : list Z) (n f : nat) (b b1 : be) :
  b_pids b = None → getLayout b = (Ok (Z.of_nat n, Z.of_nat f), b1) →
  shipped SLURM_PID_FILE (pid_file pids) b1 →
  Forall (λ p, in_int p = true) pids → Z.of_nat (length pids) < 2 ^ 31 → (f + n ≤ length pids)%nat →
  ∃ b', shipped_pids getLayout b = (Ok (take n (drop f pids)), b') ∧ b_layout b' = b_layout b1.
Proof.
  intros Hb HL Hs Hp Hl Hfn. destruct (open_shipped_run SLURM_PID_FILE "getPids failed." _ _ Hs) as (path & Ho).
  eexists. unfold shipped_pids. unfold mbind at 1, M_bind at 1. unfold get. rewrite Hb.
  rewrite (bind_run_Ok _ _ _ _ _ HL), (bind_run_Ok _ _ _ _ _ Ho).
  unfold lift, mbind, M_bind. rewrite pids_at_file by done. split; [reflexivity|done].
Qed.
End Files.

(** ** Generic SSH *)

(** The processes of a host in the table, each with its rank, its place in the table. *)
Fixpoint processes_from (rank : Z) (h : string) (l : list (string * Z)) : list (Z * Z) :=
  match l with
  | [] => []
  | (x, pid) :: l' => (if decide (x = h) then [(pid, rank)] else []) ++ processes_from (rank + 1) h l'
  end.

Definition processes_on (h : string) (l : list (string * Z)) : list (Z * Z) := processes_from 0 h l.

Lemma ranked_cons (pid : Z) (pids : list Z) (f : Z) : ranked (pid :: pids) f = (pid, f) :: ranked pids (f + 1).
Proof.
  unfold ranked. rewrite imap_cons. f_equal. apply imap_ext. intros i x _. cbn. f_equal. lia.
Qed.

Lemma processes_from_none (rank : Z) (h : string) (l : list (string * Z)) :
  h ∉ map fst l → processes_from rank h l = [].
Proof.
  revert rank. induction l as [|[x pid] l IH]; intros rank Hh; [done|]. cbn [processes_from map fst] in *.
  rewrite decide_False by set_solver. apply IH. set_solver.
Qed.

(** In a table in which the processes of a host follow one another, the ranks do. *)
Lemma processes_grouped (rank : Z) (h : string) (l : list (string * Z)) :
  grouped (map fst l) → h ∈ map fst l →
  processes_from rank h l = ranked (pids_on h l) (Z.of_nat (first_at h l) + rank).
Proof.
  revert rank. induction l as [|[x pid] l IH]; intros rank; [set_solver|]. cbn [map fst grouped].
  intros [Hx Hg] Hin. cbn [processes_from first_at]. rewrite pids_on_cons. cbn [fst snd]. case_decide as E.
  - subst x. rewrite Z.add_0_l. cbn [app]. rewrite ranked_cons. f_equal.
    destruct Hx as [Hx|Hx]; [|by rewrite processes_from_none, pids_on_none].
    destruct l as [|[y q] l]; [done|]. injection Hx as ->. cbn [map fst] in *.
    rewrite IH by (done || set_solver). cbn [first_at]. rewrite decide_True by done. f_equal; lia.
  - cbn [app]. rewrite IH by (done || set_solver). f_equal. lia.
Qed.

Lemma find_prefix_node (l : list (string * Z)) (h : string) (hs : list string) :
  h ∈ hs → (∀ h', h' ∈ hs → starts_with h h' = true → h' = h) →
  find_prefix_entry h (map node_entry (map (node_of l) hs)) =
  Some (Z.of_nat (length (pids_on h l)), Z.of_nat (first_at h l)).
Proof.
  unfold find_prefix_entry. induction hs as [|x hs IH]; [set_solver|]. intros Hin Huniq. cbn [map List.find].
  change ((node_entry (node_of l x)).1.1) with x. destruct (starts_with h x) eqn:E.
  - by rewrite (Huniq x (list_elem_of_here _ _) E).
  - apply IH; [|intros h' Hh'; apply Huniq; by right]. apply elem_of_cons in Hin as [->|]; [|done].
    rewrite <-(string_app_nil_r x) in E at 2. by rewrite starts_with_app in E.
Qed.

Lemma slice_fits (h : string) (l : list (string * Z)) : (first_at h l + length (pids_on h l) ≤ length l)%nat.
Proof.
  induction l as [|[x pid] l IH]; [done|]. cbn [first_at length]. rewrite pids_on_cons, length_app. cbn [fst snd].
  pose proof (pids_on_length h l). case_decide; cbn [length]; lia.
Qed.

Section Ssh.
Context `{Node}.

Lemma ssh_layout_run (h : string) (layout : bytes) (entries : list (string * Z * Z)) (b : be) :
  fresh h b → shipped SLURM_LAYOUT_FILE layout b → layout_contents layout SLURM_LAYOUT_FILE = Ok entries →
  ∃ t, ssh_getLayout b =
    match find_prefix_entry h entries with
    | Some l => (Ok l, set_layout (Some l) (set_trace t b))
    | None => (Throw ("Could not find layout entry for hostname " +:+ h), set_trace t b)
    end.
Proof.
  intros [Hlay _ Hname] Hs Hc.
  destruct (open_shipped_run SLURM_LAYOUT_FILE "_cti_be_generic_ssh_getLayout failed." _ _ Hs) as (path & Ho).
  eexists. unfold ssh_getLayout. unfold mbind at 1, M_bind at 1, get at 1. rewrite Hlay.
  rewrite (bind_run_Ok (try_catch _ _) _ _ (Some h) b).
  2: { unfold try_catch, cached_hostname, mbind, M_bind, get. by rewrite Hname. }
  rewrite (bind_run_Ok _ _ _ _ _ Ho). unfold lift, mbind, M_bind. rewrite Hc.
  by destruct (find_prefix_entry h entries).
Qed.

End Ssh.

(** The name of a node may be the beginning of that of another: with nid1 behind nid10 in the
    layout, a daemon on nid1 is given the process of nid10. *)
Definition demo_prefix_table : list MPIRProctableElem := [MkElem 10 "nid10" "/bin/a"; MkElem 11 "nid1" "/bin/a"].

Definition demo_be (h : string) : be :=
  MkBe {[FILE_DIR_VAR := "/t"; TOOL_DIR_VAR := "/t"]} [] None None None (Some h) 0 0 false.

Definition demo_files (files : list (string * bytes)) (h : string) : Node := {|
  n_open _ path := snd <$> List.find (λ f, bool_decide (f.1 = path)) files;
  n_stat _ path := bool_decide (path ∈ map fst files);
  n_access _ := true;
  n_hostname _ := Some h;
  n_output _ _ := None;
  n_exit _ _ := None;
  n_dir _ := None
|}.

Definition demo_node (procTable : list MPIRProctableElem) (h : string) : Node :=
  demo_files
    [("/t/slurm_layout", match SshApp.createNodeLayoutFile (SshApp.fetchStepLayout procTable) with Ok b => b | _ => [] end);
     ("/t/slurm_pid", SshApp.createPIDListFile procTable)] h.

Lemma ssh_prefix_of_other :
  let N := demo_node demo_prefix_table "nid1" in
  (ssh_findAppPids 0 (demo_be "nid1")).1 = Ok [(10, 0)] ∧ processes_on "nid1" (map placed demo_prefix_table) = [(11, 1)].
Proof. by vm_compute. Qed.


(** ** PALS *)

(** The part of the file behind [pre] is read from its entries on. *)
Lemma find_pals_entry_run (h x : string) (ps : list (Z * Z)) (l : list (string * list (Z * Z))) (pre b : bytes) :
  (String.length h < HOST_NAME_MAX)%nat → Forall host_fits l → pals_entries l = Ok b →
  (x, ps) ∈ l → name_matches h x = Ok true →
  (∀ e, e ∈ l → name_matches h e.1 = Ok true → e = (x, ps)) →
  find_pals_entry (length l) h (pre ++ b) (Z.of_nat (length pre)) = Ok ps.
Proof.
  intros Hl Hf. revert pre b. induction Hf as [|[y qs] l Hy _ IH]; intros pre b; [set_solver|].
  cbn [pals_entries]. intros E Hin Hx Huniq.
  destruct (pals_entries l) as [b'|?|?] eqn:Eb; [|by destruct (pals_entry y qs)..].
  destruct (host_roundtrip y qs b' Hy) as (e & He & Hlen & Hname & Hnum & Hpairs).
  rewrite He in E. assert (b = e ++ b') as -> by by injection E. clear E He.
  cbn [length find_pals_entry]. rewrite Nat2Z.id, drop_app_length.
  unfold PALS_ENTRY in *. rewrite (proj2 (Nat.ltb_ge _ _)) by (rewrite length_app; lia).
  rewrite Hnum, Hname. destruct (name_matches_spec h y Hl) as ([] & Ey & _); rewrite Ey; cbn [mbind res_bind].
  - injection (Huniq (y, qs) (list_elem_of_here _ _) Ey) as -> ->. rewrite (proj2 (Z.ltb_ge _ _)) by lia.
    rewrite length_drop, length_app, Nat2Z.id. rewrite (proj2 (Nat.ltb_ge _ _)) by lia. by rewrite Hpairs.
  - rewrite (proj2 (Z.ltb_ge _ _)) by lia. rewrite app_assoc.
    replace (Z.of_nat (length pre) + _ + _) with (Z.of_nat (length (pre ++ e))) by (rewrite length_app, Hlen; lia).
    apply IH; [done| |done|by intros e' He'; apply Huniq; right].
    apply elem_of_cons in Hin as [[= -> ->]|Hin]; [|done]. rewrite Ey in Hx. discriminate Hx.
Qed.

(** A tool daemon finds the processes of its node, under PALS.  Of the layout file that the
    frontend makes of a process table, a node reads the entry of the one host whose name is that
    of the node, or its name within a domain, past the entries of any others: exactly the processes
    of the table on that host with their ranks. *)
Theorem pals_backend_ranks (procTable : list MPIRProctableElem) (layout : bytes) (h host : string) :
  Forall (λ e, name_fits (el_hostname e) ∧ in_int (el_pid e) = true) procTable →
  Z.of_nat (length procTable) < 2 ^ 31 → PalsApp.createNodeLayoutFile procTable = Ok layout →
  (String.length h < HOST_NAME_MAX)%nat → host ∈ map el_hostname procTable → name_matches h host = Ok true →
  (∀ host', host' ∈ map el_hostname procTable → name_matches h host' = Ok true → host' = host) →
  find_pals_ranks h layout = Ok (ranks_on host procTable).
Proof.
  intros Hf Hn E Hl Hin Hm Huniq. destruct (layout_hosts_fit procTable Hf Hn) as [Hfits Hlen].
  unfold PalsApp.createNodeLayoutFile in E. destruct (pals_entries (layout_hosts procTable)) as [b|?|?] eqn:Eb; [|done..].
  assert (layout = enc_le 4 (Z.of_nat (length (layout_hosts procTable))) ++ b) as -> by by injection E.
  unfold find_pals_ranks. rewrite dec_int_enc, Nat2Z.id by done.
  rewrite (proj2 (Nat.ltb_ge _ _)) by (rewrite length_app, length_enc_le; lia).
  change 4 with (Z.of_nat 4).
  change (Z.of_nat 4) with (Z.of_nat (length (enc_le 4 (Z.of_nat (length (layout_hosts procTable)))))).
  apply (find_pals_entry_run h host); [done..| |done|].
  - rewrite layout_hosts_spec. apply list_elem_of_fmap. exists host. split; [done|].
    unfold table_hosts. by apply elem_of_sorted_elements, elem_of_list_to_set.
  - rewrite layout_hosts_spec. intros e (host' & -> & Hh)%list_elem_of_fmap. cbn [fst]. intros Hm'.
    unfold table_hosts in Hh. apply elem_of_sorted_elements, elem_of_list_to_set in Hh. by rewrite (Huniq host' Hh Hm').
Qed.

Lemma pals_backend_ranks_witness :
  match PalsApp.createNodeLayoutFile demo_pals_table with
  | Ok layout => find_pals_ranks "nid2" layout = Ok [(10, 0); (11, 2)]
  | _ => False
  end.
Proof.
  destruct (PalsApp.createNodeLayoutFile demo_pals_table) as [layout|?|?] eqn:E; [|vm_compute in E; discriminate E..].
  apply (pals_backend_ranks demo_pals_table layout "nid2" "nid2").
  - repeat (apply Forall_cons_2; [split; [split; [vm_compute; repeat constructor|reflexivity]|reflexivity]|]).
    apply Forall_nil_2.
  - reflexivity.
  - exact E.
  - apply Nat.ltb_lt. reflexivity.
  - apply list_elem_of_here.
  - reflexivity.
  - intros host' Hh. assert (host' = "nid2" ∨ host' = "nid1") as [-> | ->]; [|done|by vm_compute].
    change (map el_hostname demo_pals_table) with ["nid2"; "nid1"; "nid2"] in Hh. rewrite !elem_of_cons in Hh.
    destruct Hh as [->|[->|[->|[]%not_elem_of_nil]]]; auto.
Defined.
