(* ===== verification/BePmiProofs.v ===== *)
(** * The backend library: properties of PMI's file and of Slurm

    How long the file of PMI is waited for, that what it says is read; the processes that a node
    finds under Slurm, and that the functions of the interface agree on them. *)

From S2P Require Import Prelude Split Host Wire BackendFiles System Detect SlurmJobs SlurmLayout.
From S2P Require Import BeState BeLayout BePals BeLib BeProofs.

(** ** Waiting for the file *)

(** The setting in seconds, and the number of rounds it allows. *)
Definition pmi_timeout (env : gmap string string) : Z :=
  match env !! PMI_ATTRIBS_TIMEOUT_VAR with
  | Some v => if strtoul v =? 0 then PMI_ATTRIBS_DEFAULT_FOPEN_TIMEOUT else strtoul v
  | None => PMI_ATTRIBS_DEFAULT_FOPEN_TIMEOUT
  end.

Definition pmi_limit (env : gmap string string) : Z := uint64 (4 * pmi_timeout env).

(** Rounds of opening the file and sleeping. *)
Definition pmi_rounds (k : nat) (file : string) : list be_event := concat (replicate k [BOpen file; BNap]).

Lemma strtoul_nonneg (s : string) : 0 ≤ strtoul s.
Proof.
  unfold strtoul, uint64. destruct (read_int s) as [[z rest]|]; [|done].
  destruct (Z.abs z <? 2 ^ 64); [|lia]. apply Z.mod_pos_bound. lia.
Qed.

Lemma pmi_timeout_pos (env : gmap string string) : pmi_timeout env ≠ 0.
Proof.
  unfold pmi_timeout. destruct (env !! _) as [v|]; [|done]. destruct (Z.eqb_spec (strtoul v) 0); [done|done].
Qed.

Section Pmi.
Context `{Node}.

Lemma setting_or_run (b : be) :
  setting_or PMI_ATTRIBS_TIMEOUT_VAR PMI_ATTRIBS_DEFAULT_FOPEN_TIMEOUT b = (Ok (pmi_timeout (b_env b)), b).
Proof. done. Qed.

Lemma open_attribs_run (file : string) (fuel : nat) (tcount timeout : Z) (b : be) :
  0 ≤ tcount ≤ pmi_limit (b_env b) → pmi_limit (b_env b) < int_max →
  (Z.to_nat (pmi_limit (b_env b) - tcount) < fuel)%nat →
  timeout = 0 ∨ timeout = pmi_timeout (b_env b) →
  ∃ k r b', open_attribs fuel true file tcount timeout b = (r, b') ∧
    b_trace b' = b_trace b ++ pmi_rounds k file ++ [BOpen file] ∧
    tcount + Z.of_nat k ≤ pmi_limit (b_env b) ∧
    match r with
    | Ok (contents, rounds) => rounds = tcount + Z.of_nat k ∧ n_open (b_trace b') file = Some contents
    | Throw _ => tcount + Z.of_nat k = pmi_limit (b_env b) ∧ n_open (b_trace b') file = None
    | Undef _ => False
    end.
Proof.
  revert tcount timeout b. induction fuel as [|fuel IH]; intros tcount timeout b Ht Hl Hfuel Hto; [lia|].
  cbn [open_attribs]. unfold be_emit, modify, get. unfold mbind at 1 2, M_bind at 1 2. cbn [b_trace set_trace].
  destruct (n_open (b_trace b ++ [BOpen file]) file) as [contents|] eqn:Eo.
  { exists 0%nat. eexists _, _. split; [reflexivity|]. cbn. split_and!; [done|lia|lia|exact Eo]. }
  cbn [negb]. set (b1 := set_trace (b_trace b ++ [BOpen file]) b).
  assert ((if timeout =? 0 then setting_or PMI_ATTRIBS_TIMEOUT_VAR PMI_ATTRIBS_DEFAULT_FOPEN_TIMEOUT else mret timeout) b1
          = (Ok (pmi_timeout (b_env b)), b1)) as Es.
  { destruct Hto as [->| ->]; [exact (setting_or_run b1)|].
    destruct (Z.eqb_spec (pmi_timeout (b_env b)) 0) as [E|_]; [by apply pmi_timeout_pos in E|done]. }
  rewrite (bind_run_Ok _ _ _ _ _ Es). fold (pmi_limit (b_env b)).
  rewrite (proj2 (Z.eqb_neq tcount int_max)) by lia.
  destruct (Z.ltb_spec tcount (pmi_limit (b_env b))) as [Hlt|Hge].
  - unfold mbind, M_bind. set (b2 := set_trace (b_trace b1 ++ [BNap]) b1).
    destruct (IH (tcount + 1) (pmi_timeout (b_env b)) b2) as (k & r & b' & E & Etr & Hk & Hr);
      [cbn; lia|done|cbn; lia|by right|].
    exists (S k), r, b'. split; [exact E|]. split.
    { rewrite Etr. unfold b2, b1. cbn. by rewrite <-!app_assoc. }
    change (b_env b2) with (b_env b) in *. split; [lia|].
    destruct r as [[contents rounds]|?|?]; [|split; [lia|apply Hr]|done].
    destruct Hr as [-> ?]. split; [lia|done].
  - exists 0%nat. eexists _, _. split; [reflexivity|]. cbn. split_and!; [done|lia|lia|exact Eo].
Qed.

(** C38 Waiting for the file of PMI ends.  When the limit that the environment sets fits the
    counter, the library opens the file once more than it sleeps and sleeps at most four times
    per second of the limit; it stops with the contents when the file can be opened and fails
    only after all the time was spent. *)
Theorem pmi_wait_bounded (fuel : nat) (file : string) (b : be) :
  pmi_limit (b_env b) < int_max → (Z.to_nat (pmi_limit (b_env b)) < fuel)%nat →
  ∃ k r b', open_attribs fuel true file 0 0 b = (r, b') ∧
    b_trace b' = b_trace b ++ pmi_rounds k file ++ [BOpen file] ∧ Z.of_nat k ≤ pmi_limit (b_env b) ∧
    match r with
    | Ok (contents, rounds) => rounds = Z.of_nat k ∧ n_open (b_trace b') file = Some contents
    | Throw _ => Z.of_nat k = pmi_limit (b_env b) ∧ n_open (b_trace b') file = None
    | Undef _ => False
    end.
Proof.
  intros Hl Hf. apply (open_attribs_run file fuel 0 0 b); [|done| |by left].
  - unfold pmi_limit, uint64. pose proof (Z.mod_pos_bound (4 * pmi_timeout (b_env b)) (2 ^ 64)). lia.
  - by rewrite Z.sub_0_r.
Qed.
End Pmi.

(** A limit so long that four times its value does not fit: no wait at all. *)
Lemma pmi_limit_wraps : pmi_limit {[PMI_ATTRIBS_TIMEOUT_VAR := "4611686018427387904"]} = 0.
Proof. by vm_compute. Qed.

(** ** What the file says *)

Definition pmi_line (z : Z) : string := to_string z +:+ nl.

(** The file as PMI writes it: four numbers and a line per rank. *)
Definition attribs_text (a : pmi_attribs_t) : string :=
  pmi_line (pmi_file_ver a) +:+ pmi_line (cnode_nidNum a) +:+ pmi_line (mpmd_cmdNum a) +:+
  pmi_line (app_nodeNumRanks a) +:+
  foldr (λ (p : Z * Z) s, to_string p.1 +:+ " " +:+ to_string p.2 +:+ nl +:+ s) "" (app_rankPidPairs a).

Definition attribs_ok (a : pmi_attribs_t) : Prop :=
  in_int (pmi_file_ver a) = true ∧ in_int (cnode_nidNum a) = true ∧ in_int (mpmd_cmdNum a) = true ∧
  in_int (app_nodeNumRanks a) = true ∧ app_nodeNumRanks a = Z.of_nat (length (app_rankPidPairs a)) ∧
  Forall (λ p, in_int p.1 = true ∧ in_int p.2 = true) (app_rankPidPairs a).

Lemma skip_space_idem (s : string) : skip_space (skip_space s) = skip_space s.
Proof. induction s as [|c s IH]; [done|]. cbn. destruct (is_space c) eqn:E; [done|]. cbn. by rewrite E. Qed.

Lemma read_int_skip (s : string) : read_int (skip_space s) = read_int s.
Proof. unfold read_int. by rewrite skip_space_idem. Qed.

Lemma scan_int_stop (z : Z) (c : ascii) (rest : string) :
  is_digit c = false → in_int z = true →
  scan_int (skip_space (to_string z +:+ String c rest)) = Some (z, String c rest).
Proof.
  intros Hc Hz. unfold scan_int. rewrite read_int_skip, (read_int_stop _ _ _ _ Hc (read_int_to_string z)). cbn.
  by rewrite clamp_in_int, int32_in_int.
Qed.

Lemma scan_long_stop (z : Z) (c : ascii) (rest : string) :
  is_digit c = false → in_int z = true →
  scan_long (skip_space (to_string z +:+ String c rest)) = Some (z, String c rest).
Proof.
  intros Hc Hz. unfold scan_long. rewrite read_int_skip, (read_int_stop _ _ _ _ Hc (read_int_to_string z)). cbn.
  by rewrite clamp_in_int.
Qed.

Lemma scan_line_run (what : string) (z : Z) (rest : string) :
  in_int z = true → scan_line what (skip_space (pmi_line z +:+ rest)) = Ok (z, skip_space rest).
Proof.
  intros Hz. unfold scan_line, pmi_line. rewrite string_app_assoc. unfold nl. cbn [String.append].
  by rewrite scan_int_stop.
Qed.

Lemma scan_pairs_run (pairs : list (Z * Z)) (i : Z) :
  Forall (λ p, in_int p.1 = true ∧ in_int p.2 = true) pairs →
  scan_pairs (length pairs) i
    (skip_space (foldr (λ (p : Z * Z) s, to_string p.1 +:+ " " +:+ to_string p.2 +:+ nl +:+ s) "" pairs)) = Ok pairs.
Proof.
  intros Hp. revert i. induction Hp as [|[rank pid] pairs [Hr Hp] _ IH]; intros i; [done|].
  cbn [length scan_pairs foldr fst snd] in *. unfold nl in *. cbn [String.append].
  rewrite scan_int_stop by done. cbn [mbind option_bind skip_space]. change (is_space " ") with true. cbv iota.
  rewrite scan_long_stop by done. cbn [mbind option_bind skip_space].
  change (is_space "010") with true. cbv iota. rewrite IH. cbn. by rewrite int32_in_int.
Qed.

(** The file of PMI is read back: a file with the numbers of a node, of type int, and a line
    per rank is parsed into exactly these numbers and pairs. *)
Theorem pmi_attribs_read_back (a : pmi_attribs_t) :
  attribs_ok a → parse_attribs (attribs_text a) = Ok a.
Proof.
  intros (H1 & H2 & H3 & H4 & Hn & Hp). unfold parse_attribs.
  assert (∀ what z rest, in_int z = true → scan_line what (pmi_line z +:+ rest) = Ok (z, skip_space rest)) as Hline.
  { intros what z rest Hz. rewrite <-(scan_line_run what z rest Hz). unfold scan_line, scan_int. by rewrite read_int_skip. }
  unfold attribs_text. rewrite Hline by done. cbn [mbind res_bind]. rewrite scan_line_run by done. cbn [mbind res_bind].
  rewrite scan_line_run by done. cbn [mbind res_bind]. rewrite scan_line_run by done. cbn [mbind res_bind].
  rewrite (proj2 (Z.ltb_ge _ _)) by lia. rewrite Hn at 1. rewrite Nat2Z.id, scan_pairs_run by done. by destruct a.
Qed.

(** ** Slurm *)

Lemma be_require_run (name message value : string) (b : be) :
  b_env b !! name = Some value → be_require name message b = (Ok value, b).
Proof. intros E. unfold be_require, be_getenv, gets, mbind, M_bind. by rewrite E. Qed.

Lemma be_emit_run (e : be_event) (b : be) : be_emit e b = (Ok tt, set_trace (b_trace b ++ [e]) b).
Proof. done. Qed.

Lemma bind_get {S A : Type} (k : S → M S A) (s : S) : (get ≫= k : M S A) s = k s s.
Proof. done. Qed.

Section Slurm.
Context `{Node}.

Lemma slurm_layout_run (h : string) (layout : bytes) (entries : list (string * Z * Z)) (e : string * Z * Z) (b : be) :
  fresh h b → shipped SLURM_LAYOUT_FILE layout b → layout_contents layout SLURM_LAYOUT_FILE = Ok entries →
  find_node_entry h entries = Ok (Some (entry_layout e)) →
  ∃ t, slurm_getLayout b = (Ok (entry_layout e), set_layout (Some (entry_layout e)) (set_trace t b)).
Proof.
  intros [Hlay _ Hname] Hs Hc He.
  destruct (open_shipped_run SLURM_LAYOUT_FILE "cti_be_getFileDir failed." _ _ Hs) as (path & Ho).
  eexists. unfold slurm_getLayout. unfold mbind at 1, M_bind at 1, get at 1. rewrite Hlay.
  rewrite (bind_run_Ok slurm_getNodeHostname _ _ h b).
  2: { unfold slurm_getNodeHostname, mbind, M_bind, get. by rewrite Hname. }
  rewrite (bind_run_Ok _ _ _ _ _ Ho). unfold lift, mbind, M_bind. rewrite Hc, He. done.
Qed.

(** What [slurm_findAppPids] gives, and the layout that it leaves. *)
Lemma slurm_pids_run (fuel : nat) (layouts : gmap string StepLayout) (layout : bytes) (n : NodeLayout)
    (first count : nat) (pids : list Z) (h tools dir : string) (b : be) :
  Forall (λ n, entry_fits (SlurmLayout.node_entry n)) (all_nodes layouts) →
  Z.of_nat (length (all_nodes layouts)) < 2 ^ 31 → SlurmLayout.createNodeLayoutFile layouts = Ok layout →
  n ∈ all_nodes layouts → SlurmLayout.firstPE n = Z.of_nat first → SlurmLayout.numPEs n = Z.of_nat count →
  (String.length h < HOST_NAME_MAX)%nat → name_matches h (SlurmLayout.hostname n) = Ok true →
  (∀ n', n' ∈ all_nodes layouts → name_matches h (SlurmLayout.hostname n') = Ok true → n' = n) →
  Forall (λ p, in_int p = true) pids → Z.of_nat (length pids) < 2 ^ 31 → (first + count ≤ length pids)%nat →
  fresh h b → shipped SLURM_LAYOUT_FILE layout b → shipped SLURM_PID_FILE (SlurmLayout.createPIDListFile pids) b →
  b_env b !! TOOL_DIR_VAR = Some tools → b_env b !! FILE_DIR_VAR = Some dir →
  (∀ t, n_stat t (tools +:+ "/" +:+ PMI_ATTRIBS_FILE_NAME) = false) →
  (∀ t, n_stat t (dir +:+ "/" +:+ SLURM_PID_FILE) = true) →
  ∃ b', slurm_findAppPids fuel b = (Ok (ranked (take count (drop first pids)) (Z.of_nat first)), b') ∧
    b_layout b' = Some (Z.of_nat count, Z.of_nat first).
Proof.
  intros Hf Hn Elay Hin Hfirst Hcount Hlen Hm Huniq Hp Hpl Hfc Hfresh Hsl Hsp Htools Hdir Hno Hyes.
  destruct (layout_contents_file (map SlurmLayout.node_entry (all_nodes layouts)) SLURM_LAYOUT_FILE)
    as (layout' & E & Hc).
  { by apply Forall_fmap. }
  { unfold in_int, int_min, int_max. rewrite length_map. lia. }
  assert (layout' = layout) as ->.
  { unfold SlurmLayout.createNodeLayoutFile in Elay. rewrite getNumHosts_nodes in Elay by done.
    unfold layout_file in E. rewrite length_map in E.
    assert (Ok layout' = Ok layout) as H' by (rewrite <-E; exact Elay). by injection H'. }
  assert (find_node_entry h (map SlurmLayout.node_entry (all_nodes layouts)) =
          Ok (Some (entry_layout (SlurmLayout.node_entry n)))) as He.
  { apply find_node_entry_unique; [done|by apply list_elem_of_fmap; exists n|done|].
    intros e' (n' & -> & Hn')%list_elem_of_fmap Hm'. by rewrite (Huniq n' Hn' Hm'). }
  set (b1 := set_trace ((b_trace b ++ [BStat (tools +:+ "/" +:+ PMI_ATTRIBS_FILE_NAME)]) ++
                        [BStat (dir +:+ "/" +:+ SLURM_PID_FILE)]) b).
  assert (fresh h b1) as Hfresh1 by by destruct Hfresh.
  destruct (slurm_layout_run h layout _ (SlurmLayout.node_entry n) b1 Hfresh1 Hsl Hc He) as (t & Hrun).
  unfold entry_layout, SlurmLayout.node_entry in Hrun. cbn [fst snd] in Hrun. rewrite Hfirst, Hcount in Hrun.
  destruct (shipped_pids_run slurm_getLayout pids count first b1 _ (fresh_pids _ _ Hfresh1) Hrun Hsp Hp Hpl Hfc)
    as (b' & Hpids & Hl').
  exists b'. split; [|exact Hl']. unfold slurm_findAppPids.
  rewrite (bind_run_Ok _ _ _ _ _ (be_require_run _ _ _ b Htools)), (bind_run_Ok _ _ _ _ _ (be_emit_run _ _)).
  rewrite bind_get. cbn [b_trace set_trace]. rewrite Hno.
  erewrite bind_run_Ok by (by apply be_require_run). rewrite (bind_run_Ok _ _ _ _ _ (be_emit_run _ _)).
  rewrite bind_get. cbn [b_trace set_trace]. rewrite Hyes. unfold slurm_getPids.
  rewrite (bind_run_Ok _ _ b1 _ _ Hpids), bind_get, Hl'. done.
Qed.
End Slurm.

(** C9 A tool daemon finds the processes of its node, under Slurm.  On a node whose name is that
    of one host of the layout, or the first part of its full name, and of no other, and on which
    the file of PMI is not in the directory of tools, the interface gives, from the files that the
    frontend makes of the layout and the process table, as many processes as the layout has on the
    node, those from its first rank on, with these ranks, and then reports the same first rank and
    the same number. *)
Theorem slurm_backend_processes `{Node} `{LibPals} `{LibAlps} `{Build} (fuel : nat)
    (layouts : gmap string StepLayout) (layout : bytes) (n : NodeLayout)
    (first count : nat) (pids : list Z) (h tools dir : string) (l : be_lib) :
  let b := pb_be (bl_pals l) in
  bl_proto l = ProtoSlurm →
  Forall (λ n, entry_fits (SlurmLayout.node_entry n)) (all_nodes layouts) →
  Z.of_nat (length (all_nodes layouts)) < 2 ^ 31 → SlurmLayout.createNodeLayoutFile layouts = Ok layout →
  n ∈ all_nodes layouts → SlurmLayout.firstPE n = Z.of_nat first → SlurmLayout.numPEs n = Z.of_nat count →
  (String.length h < HOST_NAME_MAX)%nat → name_matches h (SlurmLayout.hostname n) = Ok true →
  (∀ n', n' ∈ all_nodes layouts → name_matches h (SlurmLayout.hostname n') = Ok true → n' = n) →
  Forall (λ p, in_int p = true) pids → Z.of_nat (length pids) < 2 ^ 31 → (first + count ≤ length pids)%nat →
  fresh h b → shipped SLURM_LAYOUT_FILE layout b → shipped SLURM_PID_FILE (SlurmLayout.createPIDListFile pids) b →
  b_env b !! TOOL_DIR_VAR = Some tools → b_env b !! FILE_DIR_VAR = Some dir →
  (∀ t, n_stat t (tools +:+ "/" +:+ PMI_ATTRIBS_FILE_NAME) = false) →
  (∀ t, n_stat t (dir +:+ "/" +:+ SLURM_PID_FILE) = true) →
  ∃ l', cti_be_findAppPids fuel l = (Ok (Some (ranked (take count (drop first pids)) (Z.of_nat first))), l') ∧
    cti_be_getNodeFirstPE l' = (Ok (Z.of_nat first), l') ∧ cti_be_getNodePEs l' = (Ok (Z.of_nat count), l').
Proof.
  intros b Hproto Hf Hn Elay Hin Hfirst Hcount Hlen Hm Huniq Hp Hpl Hfc Hfresh Hsl Hsp Htools Hdir Hno Hyes.
  destruct (slurm_pids_run fuel layouts layout n first count pids h tools dir b) as (b' & Hrun & Hl'); try done.
  exists (bset_pals (pset_be b' (bl_pals l)) l).
  unfold cti_be_findAppPids, cti_be_getNodeFirstPE, cti_be_getNodePEs, api_pointer, api_int. rewrite !bind_get.
  cbn [bl_proto bset_pals]. rewrite Hproto. cbn [wlm_findAppPids wlm_getNodeFirstPE wlm_getNodePEs].
  set (l' := bset_pals _ l).
  assert (on_node (slurm_findAppPids fuel) l = (Ok (ranked (take count (drop first pids)) (Z.of_nat first)), l')) as E.
  { unfold on_node, on_pals, on_be, zoom. fold b. by rewrite Hrun. }
  assert (on_node slurm_getLayout l' = (Ok (Z.of_nat count, Z.of_nat first), l')) as El.
  { unfold on_node, on_pals, on_be, zoom, l'. cbn [bl_pals bset_pals pb_be pset_be].
    unfold slurm_getLayout. rewrite bind_get, Hl'. by destruct l as [[] ? ? ? ?]. }
  split_and!; unfold try_catch, mbind, M_bind; by rewrite ?E, ?El.
Qed.

(** ** What the library says of itself *)

(** A tool daemon of a job on the local host is told that the workload manager is that of SSH. *)
Lemma localhost_reports_ssh (l : be_lib) :
  bl_proto l = ProtoLocalhost → (cti_be_current_wlm l).1 = Ok CTI_WLM_SSH.
Proof. unfold cti_be_current_wlm, gets. by intros ->. Qed.

Section Fallback.
Context `{Node} `{LibPals}.

Lemma load_libpals_run (p p' : pals_be) : load_libpals p = (Ok tt, p') → p' = pset_libpals true p.
Proof.
  unfold load_libpals, mbind, M_bind, modify. destruct (forallb _ _); cbn [negb]; [|done].
  destruct lp_init; cbn [negb]; [by intros [= <-]|done].
Qed.

(** The fallback from PMIx to libpals is of no use.  When PMIx is asked for but its file is
    not found, a library that is initialized all the same has libpals, and then reports no first
    rank and no number of processes, whatever libpals knows of the node. *)
Theorem pmix_fallback_reports_nothing (p p' : pals_be) (value : string) :
  pb_libpals p = false → pb_pmix_file_path p = None → pb_ranks p = None →
  b_env (pb_be p) !! PALS_PMIX_BE_PATH = Some value → b_env (pb_be p) !! "PALS_SPOOL_DIR" = None →
  b_env (pb_be p) !! FILE_DIR_VAR = None → be_pals_init p = (Ok tt, p') →
  pb_libpals p' = true ∧ (pals_getNodeFirstPE p').1 = Ok (-1) ∧ (pals_getNodePEs p').1 = Ok (-1).
Proof.
  intros Hl Hf Hr Hpmix Hspool Hdir. unfold be_pals_init. rewrite bind_get, Hl, Hf.
  rewrite bool_decide_eq_false_2 by (by intros [? [=]]). cbn [orb].
  assert (∀ name (q : pals_be), on_be (be_getenv name) q = (Ok (b_env (pb_be q) !! name), pset_be (pb_be q) q)) as Henv
    by done.
  rewrite (bind_run_Ok _ _ _ _ _ (Henv _ p)), Hpmix. cbn iota beta.
  assert (∃ util, on_be get_pmix_util_path (pset_be (pb_be p) p) = (Ok util, pset_be (pb_be p) p)) as (util & Eu)
    by (by eexists).
  assert (on_be get_pmix_file_path (pset_be (pb_be p) p) = (Ok None, pset_be (pb_be p) p)) as Ef.
  { unfold get_pmix_file_path, on_be, zoom, be_getenv, gets, mbind, M_bind. cbn. by rewrite Hspool. }
  assert (on_be get_pmix_ranks_file_path (pset_be (pb_be p) p) = (Ok None, pset_be (pb_be p) p)) as Er.
  { unfold get_pmix_ranks_file_path, cti_be_getFileDir, on_be, zoom, be_getenv, gets, mbind, M_bind. cbn. by rewrite Hdir. }
  rewrite (bind_run_Ok _ _ _ _ _ Ef), (bind_run_Ok _ _ _ _ _ Eu), (bind_run_Ok _ _ _ _ _ Er).
  unfold mbind at 1, M_bind at 1, modify at 1. rewrite bool_decide_eq_false_2 by (by intros [? [=]]). cbn [andb].
  intros ->%load_libpals_run. split; [done|].
  unfold pals_getNodeFirstPE, pals_getNodePEs.
  rewrite !(bind_run_Ok _ _ _ _ _ (Henv _ _)). cbn [pb_be pset_be pset_libpals pset_pmix]. rewrite Hpmix.
  rewrite !bind_get. unfold pmix_get_first_pe, pmix_get_num_pes, nodeinfo_from_fallback, mbind, M_bind, get. cbn.
  rewrite Hr. done.
Qed.
End Fallback.

(** ** At concrete inputs *)

(** A file that is there once the process has slept three times, and nothing else. *)
Definition demo_late : Node := {|
  n_open t _ := if (3 <=? length (filter (eq BNap) t))%nat then Some [] else None;
  n_stat _ _ := true;
  n_access _ := true;
  n_hostname _ := None;
  n_output _ _ := None;
  n_exit _ _ := None;
  n_dir _ := None
|}.

Lemma pmi_wait_bounded_witness :
  let N := demo_late in
  ∃ b', open_attribs 241 true "/attribs/pmi_attribs" 0 0 (demo_be "nid1") = (Ok ([], 3), b').
Proof.
  pose (N := demo_late). cbv zeta.
  destruct (pmi_wait_bounded 241 "/attribs/pmi_attribs" (demo_be "nid1")) as (k & r & b' & E & _ & _ & Hr).
  { reflexivity. }
  { apply Nat.ltb_lt. reflexivity. }
  assert (r = Ok ([], 3)) as ->; [|by exists b'].
  transitivity (open_attribs 241 true "/attribs/pmi_attribs" 0 0 (demo_be "nid1")).1; [by rewrite E|].
  vm_compute. reflexivity.
Defined.

Definition demo_attribs : pmi_attribs_t := MkAttribs 1 2 0 2 [(0, 101); (1, -1)].

Lemma pmi_attribs_read_back_witness :
  attribs_ok demo_attribs ∧ parse_attribs (attribs_text demo_attribs) = Ok demo_attribs.
Proof.
  assert (attribs_ok demo_attribs) as Hok by (unfold attribs_ok; repeat constructor).
  split; [exact Hok|exact (pmi_attribs_read_back demo_attribs Hok)].
Defined.

(** Two nodes with two processes and one. *)
Definition demo_layouts : gmap string StepLayout :=
  {["0" := MkStep 3 [SlurmLayout.MkNode "nid10" 2 0; SlurmLayout.MkNode "nid1" 1 2]]}.

Definition demo_slurm_node : Node :=
  demo_files [("/t/slurm_layout", match SlurmLayout.createNodeLayoutFile demo_layouts with Ok b => b | _ => [] end);
              ("/t/slurm_pid", SlurmLayout.createPIDListFile [10; 11; 12])] "nid1".

Definition demo_no_libpals : LibPals := {|
  lp_dlopen _ := false; lp_dlsym _ _ := false; lp_init := false; lp_nodes := None; lp_nodeidx := None; lp_pes := None
|}.
Definition demo_no_alps : LibAlps := {| la_load := false; la_placement _ := None |}.
Definition demo_slurm_build : Build := {| HAVE_ALPS := false; HAVE_PALS := false; HAVE_FLUX := false |}.

Lemma slurm_backend_processes_witness :
  let N := demo_slurm_node in let L := demo_no_libpals in let A := demo_no_alps in let B := demo_slurm_build in
  let l := MkBeLib (MkPalsBe (demo_be "nid1") false None None None false None None None None)
             (MkAlpsBe false 0 None None) ProtoSlurm true false in
  ∃ l', cti_be_findAppPids 0 l = (Ok (Some [(12, 2)]), l') ∧
    cti_be_getNodeFirstPE l' = (Ok 2, l') ∧ cti_be_getNodePEs l' = (Ok 1, l').
Proof.
  pose (N := demo_slurm_node). pose (L := demo_no_libpals). pose (A := demo_no_alps). pose (B := demo_slurm_build). cbv zeta.
  assert (all_nodes demo_layouts = [SlurmLayout.MkNode "nid10" 2 0; SlurmLayout.MkNode "nid1" 1 2]) as En
    by (vm_compute; reflexivity).
  destruct (SlurmLayout.createNodeLayoutFile demo_layouts) as [layout|?|?] eqn:E; [|vm_compute in E; discriminate E..].
  apply (slurm_backend_processes 0 demo_layouts layout (SlurmLayout.MkNode "nid1" 1 2) 2 1 [10; 11; 12] "nid1" "/t" "/t");
    rewrite ?En; try reflexivity.
  - repeat (apply Forall_cons_2; [repeat split; apply Nat.ltb_lt; reflexivity|]). apply Forall_nil_2.
  - exact E.
  - apply list_elem_of_further, list_elem_of_here.
  - apply Nat.ltb_lt. reflexivity.
  - intros n' Hn' Hm. rewrite !elem_of_cons in Hn'. destruct Hn' as [->|[->|[]%not_elem_of_nil]]; [discriminate Hm|done].
  - repeat constructor.
  - by split.
  - exists "/t". split; [reflexivity|]. intros t.
    transitivity (Some (match SlurmLayout.createNodeLayoutFile demo_layouts with Ok b => b | _ => [] end));
      [reflexivity|by rewrite E].
  - by exists "/t".
Defined.

Definition demo_libpals : LibPals := {|
  lp_dlopen _ := true; lp_dlsym _ _ := true; lp_init := true;
  lp_nodes := Some ["nid1"]; lp_nodeidx := Some 0; lp_pes := Some [0; 0]
|}.

Definition demo_pals_be : pals_be :=
  MkPalsBe (MkBe {[PALS_PMIX_BE_PATH := "1"]} [] None None None None 0 0 false)
    false None None None false None None None None.

Lemma pmix_fallback_reports_nothing_witness :
  let N := demo_late in let L := demo_libpals in
  ∃ p', be_pals_init demo_pals_be = (Ok tt, p') ∧ pb_libpals p' = true ∧ (pals_getNodePEs p').1 = Ok (-1).
Proof.
  pose (N := demo_late). pose (L := demo_libpals). cbv zeta.
  assert ((be_pals_init demo_pals_be).1 = Ok tt) as Hr by (vm_compute; reflexivity).
  destruct (be_pals_init demo_pals_be) as [r p'] eqn:E. cbn [fst] in Hr. subst r.
  destruct (pmix_fallback_reports_nothing demo_pals_be p' "1") as (? & _ & ?); try reflexivity; [exact E|].
  by exists p'.
Defined.
