(* ===== verification/BeOptions.v ===== *)
(** * The backend daemon: its options (src/src/useful/cti_stack.c, src/src/backend/daemon/cti_be_daemon.c)

    The options of the daemon as [getopt_long] finds them among its arguments, and the stack that
    keeps the environment settings in the order of the command line. *)

From S2P Require Import Prelude Argv.

(** ** The stack *)

Definition CTI_DEFAULT_STACK : nat := 128.

(** [idx] elements out of [num_elems]; the array, or nothing once [realloc] has moved it: the new
    address is never stored. *)
Record cti_stack (A : Type) : Type := MkStack {
  st_idx : nat;
  st_num_elems : nat;
  st_elems : option (list A)
}.
Arguments MkStack {A} _ _ _.
Arguments st_idx {A} _.
Arguments st_num_elems {A} _.
Arguments st_elems {A} _.

Definition newStack {A : Type} : cti_stack A := MkStack 0 CTI_DEFAULT_STACK (Some []).

(** [moved]: whether [realloc] moves an array of this many elements. *)
Definition resizeStack {A : Type} (moved : nat → bool) (s : cti_stack A) : cti_stack A :=
  MkStack (st_idx s) (2 * st_num_elems s) (if moved (st_num_elems s) then None else st_elems s).

(** The elements below [idx], the last first. *)
Definition push {A : Type} (moved : nat → bool) (elem : A) (s : cti_stack A) : res (cti_stack A) :=
  let s := if (st_num_elems s <=? st_idx s)%nat then resizeStack moved s else s in
  match st_elems s with
  | None => Undef "writes to freed memory"
  | Some l => Ok (MkStack (S (st_idx s)) (st_num_elems s) (Some (elem :: l)))
  end.

Definition pop {A : Type} (s : cti_stack A) : res (option (A * cti_stack A)) :=
  match st_idx s with
  | O => Ok None
  | S idx =>
      match st_elems s with
      | Some (e :: l) => Ok (Some (e, MkStack idx (st_num_elems s) (Some l)))
      | _ => Undef "reads freed memory"
      end
  end.

(** ** getopt_long *)

(** A long option: its name, whether it has an argument, the character it stands for, or none for
    a flag that is only set. *)
Record long_option : Type := LongOption { lo_name : string; lo_arg : bool; lo_val : option ascii }.

(** The options that a program takes: the long ones, and the text for the short ones. *)
Class OptionTable : Type := { ot_long : list long_option; ot_short : string }.

(** What [getopt_long] returns: 0, a character and [optarg], or a question mark. *)
Inductive parsed : Type :=
| PFlag
| POpt (c : ascii) (optarg : option string)
| PBad.

Section Getopt.
Context `{OptionTable}.

(** Whether a short option has an argument. *)
Fixpoint short_option (c : ascii) (spec : string) : option bool :=
  match spec with
  | "" => None
  | String x spec' =>
      if decide (c = ":"%char) then None
      else if decide (x = c) then Some (match spec' with String y _ => bool_decide (y = ":"%char) | "" => false end)
      else short_option c spec'
  end.

(** The option of a name, or the only one whose name starts with it. *)
Definition find_long (name : string) : option long_option :=
  match List.find (λ o, bool_decide (lo_name o = name)) ot_long with
  | Some o => Some o
  | None =>
      match List.filter (λ o, starts_with name (lo_name o)) ot_long with
      | [o] => Some o
      | _ => None
      end
  end.

Definition long_result (o : long_option) (optarg : option string) : parsed :=
  match lo_val o with Some c => POpt c optarg | None => PFlag end.

(** What an argument of the command line is: options of which the last may take the next argument. *)
Inductive scanned : Type :=
| SDone (l : list parsed)
| SNeeds (l : list parsed) (f : string → parsed).

Definition scan_long_option (text : string) : scanned :=
  let '(name, value) := match split_at "=" text with Some (n, v) => (n, Some v) | None => (text, None) end in
  match find_long name with
  | None => SDone [PBad]
  | Some o =>
      match lo_arg o, value with
      | false, None => SDone [long_result o None]
      | false, Some _ => SDone [PBad]
      | true, Some v => SDone [long_result o (Some v)]
      | true, None => SNeeds [] (λ v, long_result o (Some v))
      end
  end.

Fixpoint scan_short_options (text : string) : scanned :=
  match text with
  | "" => SDone []
  | String c text' =>
      match short_option c ot_short with
      | None => SDone [PBad]
      | Some true => if is_empty text' then SNeeds [] (λ v, POpt c (Some v)) else SDone [POpt c (Some text')]
      | Some false =>
          match scan_short_options text' with
          | SDone l => SDone (POpt c None :: l)
          | SNeeds l f => SNeeds (POpt c None :: l) f
          end
      end
  end.

Inductive argument : Type := ATerminator | AOperand | AOptions (s : scanned).

Definition classify (arg : string) : argument :=
  match arg with
  | String "-" (String "-" "") => ATerminator
  | String "-" (String "-" name) => AOptions (scan_long_option name)
  | String "-" (String c text) => AOptions (scan_short_options (String c text))
  | _ => AOperand
  end.

(** The options of a command line; the arguments that are behind [optind] in the end, and those
    before it, in the order in which [getopt_long] leaves them: it moves operands behind options,
    unless the environment asks for the order of POSIX.  What follows an error is not used. *)
Fixpoint getopt_long (posix : bool) (args : list string) : list parsed * list string * list string :=
  match args with
  | [] => ([], [], [])
  | arg :: args' =>
      match classify arg with
      | ATerminator => ([], [arg], args')
      | AOperand =>
          if posix then ([], [], args)
          else let '(opts, before, behind) := getopt_long posix args' in (opts, before, arg :: behind)
      | AOptions (SDone l) =>
          let '(opts, before, behind) := getopt_long posix args' in (l ++ opts, arg :: before, behind)
      | AOptions (SNeeds l f) =>
          match args' with
          | [] => (l ++ [PBad], [arg], [])
          | value :: args'' =>
              let '(opts, before, behind) := getopt_long posix args'' in
              (l ++ f value :: opts, arg :: value :: before, behind)
          end
      end
  end.
End Getopt.

(** The options of the backend daemon. *)
Definition long_opts : list long_option :=
  [LongOption "apid" true (Some "a"%char); LongOption "binary" true (Some "b"%char);
   LongOption "clean" false (Some "c"%char); LongOption "directory" true (Some "d"%char);
   LongOption "env" true (Some "e"%char); LongOption "file" true (Some "f"%char);
   LongOption "inst" true (Some "i"%char); LongOption "manifest" true (Some "m"%char);
   LongOption "path" true (Some "p"%char); LongOption "apath" true (Some "t"%char);
   LongOption "ldlibpath" true (Some "l"%char); LongOption "wlm" true (Some "w"%char);
   LongOption "help" false (Some "h"%char); LongOption "debug" false None].

Definition optstring : string := "a:b:cd:e:i:m:p:t:l:w:h".

#[export] Instance be_options : OptionTable := {| ot_long := long_opts; ot_short := optstring |}.
