(* ===== verification/BeDaemon.v ===== *)
(** * The backend daemon (src/src/backend/daemon/cti_be_daemon.c, the *_dl.c files next to it)

    The program that a frontend starts on every node of a job: it unpacks what was shipped, sets
    the environment of a tool daemon and becomes that tool daemon, or cleans up in the end.  The
    node is the class [Compute].  A message on the standard error stream and the exit code 1 are a
    throw; messages of the debug log are left out.  Allocations succeed. *)

From S2P Require Import Prelude Host Wire BackendFiles System Paths Detect BeState BePals BeLib BeOptions.

(** What [stat] tells of a file. *)
Record stat_buf : Type := MkStat { st_type : file_type; st_uid : Z; st_gid : Z; st_mode : Z }.

(** What the daemon does to the node. *)
Inductive devent : Type :=
| DUsage
| DOut (line : string)
| DChmod (path : string) (mode : Z)
| DDetach (descriptors : Z)
| DMkdir (path : string)
| DLog (path : string)
| DChdir (path : string)
| DStat (path : string)
| DExtract (path : string)
| DRemove (path : string)
| DKill (pid : Z)
| DAppend (path : string) (contents : bytes)
| DCreate (path : string)
| DUnlink (path : string)
| DLsof (path : string)
| DSleep
| DErr (message : string).

#[export] Instance devent_eq_dec : EqDecision devent.
Proof. solve_decision. Defined.

(** The entries of an archive, each with whether its header can be written to the disk and whether
    it can be finished; [None] is a header that cannot be read. *)
Definition tar_entry : Type := option (string * bool * bool).

(** Answers may depend on everything that the daemon has done. *)
Class Compute : Type := {
  k_exists : list devent → string → bool;
  k_stat : list devent → string → option stat_buf;
  k_open : list devent → string → option bytes;
  k_append : list devent → string → bool;
  k_write : list devent → bool;
  k_create : list devent → string → bool;
  k_writable : list devent → string → bool;
  k_chmod : list devent → string → bool;
  k_chdir : list devent → string → bool;
  k_mkdir : list devent → string → bool;
  k_cwd : option string;
  k_uid : Z;
  k_groups : option (list Z);
  k_rlimit : option Z;
  k_pid : Z;
  k_hostname : option string;
  (** the result of opening an archive, and what is in it *)
  k_archive : list devent → string → Z * list tar_entry;
  k_alive : list devent → Z → bool;
  k_dir : list devent → string → tree;
  (** how lsof ended, when it could be started *)
  k_lsof : list devent → string → option Z;
  k_exec : list devent → string → bool;
  (** what an uninitialised variable holds *)
  k_uninit : Z
}.

Record daemon_opts : Type := MkOpts {
  o_apid : option string; o_binary : option string; o_cleanup : bool; o_directory : option string;
  o_inst : Z; o_manifest : option string; o_path : option string; o_apath : option string;
  o_ldlibpath : option string; o_wlm : Z; o_debug : bool; o_check : bool
}.

Definition no_opts : daemon_opts := MkOpts None None false None 1 None None None None CTI_WLM_NONE false false.

Record dstate : Type := MkDaemon {
  d_env : gmap string string;
  d_trace : list devent;
  d_opts : daemon_opts;
  d_env_args : option (cti_stack string)
}.

Definition dset_env (e : gmap string string) (d : dstate) : dstate := MkDaemon e (d_trace d) (d_opts d) (d_env_args d).
Definition dset_trace (t : list devent) (d : dstate) : dstate := MkDaemon (d_env d) t (d_opts d) (d_env_args d).
Definition dset_opts (o : daemon_opts) (d : dstate) : dstate := MkDaemon (d_env d) (d_trace d) o (d_env_args d).
Definition dset_env_args (s : option (cti_stack string)) (d : dstate) : dstate :=
  MkDaemon (d_env d) (d_trace d) (d_opts d) s.

Definition d_emit (e : devent) : M dstate () := modify (λ d, dset_trace (d_trace d ++ [e]) d).
Definition d_ask {A : Type} (f : list devent → A) : M dstate A := gets (λ d, f (d_trace d)).
Definition d_getenv (name : string) : M dstate (option string) := gets (λ d, d_env d !! name).
Definition d_setenv (name value : string) : M dstate () := modify (λ d, dset_env (<[name := value]> (d_env d)) d).

(** How the program ends: it exits, or becomes another with arguments and an environment. *)
Inductive daemon_end : Type :=
| Exits (code : Z)
| Execs (path : string) (args : list string) (env : gmap string string).

(** ** Options *)

Fixpoint strip_spaces (s : string) : string :=
  match s with
  | String c s' => if decide (c = " "%char) then strip_spaces s' else s
  | "" => ""
  end.

(** What an option sets; the last of its kind counts. *)
Definition set_option (c : ascii) (arg : string) (o : daemon_opts) : daemon_opts :=
  let '(MkOpts apid binary cleanup directory inst manifest path apath ldlibpath wlm debug check) := o in
  let s := Some (strip_spaces arg) in
  if decide (c = "a"%char) then MkOpts s binary cleanup directory inst manifest path apath ldlibpath wlm debug check
  else if decide (c = "b"%char) then MkOpts apid s cleanup directory inst manifest path apath ldlibpath wlm debug check
  else if decide (c = "c"%char) then MkOpts apid binary true directory inst manifest path apath ldlibpath wlm debug check
  else if decide (c = "d"%char) then MkOpts apid binary cleanup s inst manifest path apath ldlibpath wlm debug check
  else if decide (c = "f"%char) then MkOpts apid binary cleanup directory inst manifest path apath ldlibpath wlm debug true
  else if decide (c = "i"%char) then MkOpts apid binary cleanup directory (atoi arg) manifest path apath ldlibpath wlm debug check
  else if decide (c = "m"%char) then MkOpts apid binary cleanup directory inst s path apath ldlibpath wlm debug check
  else if decide (c = "p"%char) then MkOpts apid binary cleanup directory inst manifest s apath ldlibpath wlm debug check
  else if decide (c = "t"%char) then MkOpts apid binary cleanup directory inst manifest path s ldlibpath wlm debug check
  else if decide (c = "l"%char) then MkOpts apid binary cleanup directory inst manifest path apath s wlm debug check
  else if decide (c = "w"%char) then MkOpts apid binary cleanup directory inst manifest path apath ldlibpath (atoi arg) debug check
  else o.

Definition set_debug (o : daemon_opts) : daemon_opts :=
  let '(MkOpts apid binary cleanup directory inst manifest path apath ldlibpath wlm _ check) := o in
  MkOpts apid binary cleanup directory inst manifest path apath ldlibpath wlm true check.

Section Daemon.
Context `{Compute} `{LibPals} `{Build}.

(** Whether [realloc] moves an array. *)
Context (moved : nat → bool).

(** One option; an exit code when it ends the program. *)
Definition handle_option (p : parsed) : M dstate (option Z) :=
  match p with
  | PFlag => modify (λ d, dset_opts (set_debug (d_opts d)) d);; mret None
  | PBad => d_emit DUsage;; mret (Some 1)
  | POpt c arg =>
      let arg := default "" arg in
      if decide (c = "h"%char) then d_emit DUsage;; mret (Some 0)
      else if decide (c = "e"%char) then
        d ← get;
        s ← lift (push moved (strip_spaces arg) (default newStack (d_env_args d)));
        modify (dset_env_args (Some s));; mret None
      else
        (if decide (c = "f"%char) then
           found ← d_ask (λ t, k_exists t arg);
           if found : bool then d_emit (DOut arg) else mret tt
         else mret tt);;
        modify (λ d, dset_opts (set_option c arg (d_opts d)) d);; mret None
  end.

Fixpoint handle_options (l : list parsed) : M dstate (option Z) :=
  match l with
  | [] => mret None
  | p :: l' => e ← handle_option p; match e with Some code => mret (Some code) | None => handle_options l' end
  end.

(** ** The workload manager *)

Definition d_wlmProto (wlm_arg : Z) : be_proto := default ProtoNone (proto_of wlm_arg).

(** The type in the table of a workload manager: here localhost has its own. *)
Definition d_wlm_type (p : be_proto) : Z :=
  match p with
  | ProtoLocalhost => CTI_WLM_LOCALHOST
  | p => wlm_type p
  end.

Definition SHELL_ENV_VAR : string := "SHELL".
Definition SHELL_PATH : string := "/bin/sh".

Definition d_wlm_init (p : be_proto) : M dstate () :=
  match p with
  | ProtoNone => d_emit (DErr "wlm_init() not supported.");; throw "wlm_init() failed."
  | ProtoAlps => d_setenv "LC_ALL" "POSIX";; d_setenv SHELL_ENV_VAR SHELL_PATH
  | ProtoSlurm | ProtoFlux => d_setenv "LC_ALL" "POSIX"
  | ProtoPals | ProtoSsh | ProtoLocalhost => mret tt
  end.

Definition signed_char (c : ascii) : Z :=
  let n := Z.of_nat (Ascii.nat_of_ascii c) in if n <? 128 then n else n - 256.

(** Unsigned arithmetic of 32 bits over the characters of a name. *)
Fixpoint hash_from (hash : Z) (name : string) : Z :=
  match name with
  | "" => hash
  | String c name' => hash_from (uint32 (signed_char c + Z.shiftl hash 6 + Z.shiftl hash 16 - hash)) name'
  end.

Definition hostname_id : M dstate Z :=
  match k_hostname with
  | Some h => mret (int32 (hash_from 0 h))
  | None => d_emit (DErr "gethostname() failed!");; mret (-1)
  end.

Definition CRAY_SHASTA_NID_FILE : string := "/etc/cray/nid".

Definition nid_of (contents : bytes) : M dstate Z :=
  match text_lines (string_of_list_ascii contents) with
  | line :: _ => mret (atoi line)
  | [] => d_emit (DErr "fgets failed.");; mret (-1)
  end.

(** The number of the node in a file of the system, or else a hash of its name. *)
Definition cray_getNodeID : M dstate Z :=
  xt ← d_ask (λ t, k_open t ALPS_XT_NID);
  match xt with
  | Some contents => nid_of contents
  | None =>
      shasta ← d_ask (λ t, k_open t CRAY_SHASTA_NID_FILE);
      match shasta with Some contents => nid_of contents | None => hostname_id end
  end.

Definition alps_getNodeID : M dstate Z :=
  xt ← d_ask (λ t, k_open t ALPS_XT_NID);
  match xt with Some contents => nid_of contents | None => d_emit (DErr "not found.");; mret (-1) end.

Definition pals_getNodeID : M dstate Z :=
  mret (if lp_dlopen PALS_BE_LIB_NAME && forallb (lp_dlsym true) ["pals_init"; "pals_fini"; "pals_get_nodeidx"] && lp_init
        then default (-1) lp_nodeidx else -1).

Definition d_getNodeID (p : be_proto) : M dstate Z :=
  match p with
  | ProtoNone => d_emit (DErr "wlm_getNodeID() not supported.");; mret (-1)
  | ProtoAlps => alps_getNodeID
  | ProtoPals => pals_getNodeID
  | ProtoSlurm | ProtoSsh => cray_getNodeID
  | ProtoFlux => hostname_id
  | ProtoLocalhost => mret 0
  end.

(** ** Becoming a daemon *)

Definition RLIM_INFINITY : Z := 2 ^ 64 - 1.

(** All descriptors up to the limit are closed, and three opened that lead nowhere. *)
Definition detach : M dstate () :=
  let rlim_max := match k_rlimit with
                  | Some r => if r =? RLIM_INFINITY then 1024 else r
                  | None => 1024
                  end in
  if int_max <? rlim_max then undef "the counter overflows" else d_emit (DDetach rlim_max).

(** The settings from the command line, the last first, so that of two for a name the first
    counts in the end. *)
Fixpoint process_env_args (fuel : nat) (s : cti_stack string) : M dstate () :=
  match fuel with
  | O => undef "more elements than the stack has"
  | S fuel' =>
      top ← lift (pop s);
      match top with
      | None => mret tt
      | Some (arg, s') =>
          match split_at "=" arg with
          | Some (env, val) =>
              if is_empty env then throw "Unrecognized env argument."
              else d_setenv env val;; process_env_args fuel' s'
          | None => throw "Unrecognized env argument."
          end
      end
  end.

Definition process_env : M dstate () :=
  d ← get;
  match d_env_args d with
  | Some s => process_env_args (S (st_idx s)) s
  | None => mret tt
  end.

Definition CTI_LOG_DIR_ENV_VAR : string := "CTI_LOG_DIR".

Definition is_dir (s : option stat_buf) : bool :=
  match s with Some s => bool_decide (st_type s = TDir) | None => false end.

Definition is_reg (s : option stat_buf) : bool :=
  match s with Some s => bool_decide (st_type s = TReg) | None => false end.

Definition d_stat (path : string) : M dstate (option stat_buf) :=
  d_emit (DStat path);; d_ask (λ t, k_stat t path).

(** Whether the directory is there in the end. *)
Definition recursive_mkdir (path : option string) : M dstate bool :=
  match path with
  | None => mret false
  | Some path =>
      st ← d_stat path;
      if is_dir st then mret true else d_emit (DMkdir path);; d_ask (λ t, k_mkdir t path)
  end.

(** The name of a log, written to a buffer that is one character too short. *)
Definition create_log (directory : option string) (filename : string) (suffix : Z) : M dstate () :=
  let logfile := default "/tmp" directory +:+ "/dbglog_" +:+ filename +:+ "." +:+ to_string suffix +:+ ".log" in
  if (PATH_MAX <=? String.length logfile)%nat then undef "writes past the buffer"
  else
    ok ← d_ask (λ t, k_append t logfile);
    if ok : bool then d_emit (DLog logfile) else mret tt.

Definition setup_log : M dstate () :=
  d ← get;
  if o_debug (d_opts d) then
    let apid_str := default "NOAPID" (o_apid (d_opts d)) in
    envDir ← d_getenv CTI_LOG_DIR_ENV_VAR;
    ok ← recursive_mkdir envDir;
    if ok : bool then
      nid ← d_getNodeID (d_wlmProto (o_wlm (d_opts d)));
      create_log envDir apid_str nid
    else mret tt
  else mret tt.

(** Whether what is needed was given: the application, a directory or a manifest, and a path. *)
Definition valid_wlm (wlm_arg : Z) : bool :=
  (wlm_arg =? CTI_WLM_ALPS) || (wlm_arg =? CTI_WLM_PALS) || (wlm_arg =? CTI_WLM_SLURM) ||
  (wlm_arg =? CTI_WLM_SSH) || (wlm_arg =? CTI_WLM_FLUX) || (wlm_arg =? CTI_WLM_LOCALHOST).

Definition check_options : M dstate (string * string) :=
  d ← get;
  let o := d_opts d in
  if negb (valid_wlm (o_wlm o))
  then throw (if o_wlm o =? CTI_WLM_NONE then "WLM provided by wlm argument is not yet supported!"
              else "Invalid wlm argument.")
  else match o_apid o with
  | None => throw "Missing apid argument!"
  | Some apid =>
      match o_directory o, o_manifest o with
      | None, None => throw "Missing either directory or manifest argument!"
      | _, _ =>
          match o_path o with
          | None => throw "Missing path argument!"
          | Some path => mret (apid, path)
          end
      end
  end.

Definition init_wlm (apid : string) : M dstate () :=
  d ← get;
  let p := d_wlmProto (o_wlm (d_opts d)) in
  d_wlm_init p;;
  (match k_cwd with Some cwd => d_setenv OLD_CWD_ENV_VAR cwd | None => mret tt end);;
  d_setenv APID_ENV_VAR apid;;
  d_setenv WLM_ENV_VAR (to_string (d_wlm_type p)).

(** ** The directory of tools *)

Definition S_IRWXU : Z := 448.
Definition S_IRWXG : Z := 56.
Definition S_IRWXO : Z := 7.

(** [(mode & mask) ^ mask] is not 0 *)
Definition missing_perms (mode mask : Z) : bool := negb (Z.lxor (Z.land mode mask) mask =? 0).

(** The owner relaxes the permissions; others need those of their group, or those of all. *)
Definition check_tool_path (tool_path : string) : M dstate () :=
  st ← d_stat tool_path;
  match st with
  | None => throw ("Could not stat " +:+ tool_path)
  | Some st =>
      if k_uid =? st_uid st then
        if missing_perms (st_mode st) S_IRWXU then
          d_emit (DChmod tool_path (Z.lor (st_mode st) S_IRWXU));;
          ok ← d_ask (λ t, k_chmod t tool_path);
          if ok : bool then mret tt else throw ("Could not chmod " +:+ tool_path)
        else mret tt
      else
        match k_groups with
        | None => throw "getgroups"
        | Some grps =>
            if bool_decide (st_gid st ∈ grps)
            then if missing_perms (st_mode st) S_IRWXG then throw ("Missing group perms in " +:+ tool_path) else mret tt
            else if missing_perms (st_mode st) S_IRWXO then throw ("Missing others perms in " +:+ tool_path) else mret tt
        end
  end;;
  d_emit (DChdir tool_path);;
  ok ← d_ask (λ t, k_chdir t tool_path);
  if ok : bool then mret tt else throw ("Could not chdir to " +:+ tool_path).

(** ** The manifest *)

(** The part before the first occurrence of a text. *)
Fixpoint cut_at (p s : string) : string :=
  if starts_with p s then ""
  else match s with "" => "" | String c s' => String c (cut_at p s') end.

Fixpoint extract_entries (l : list tar_entry) : M dstate () :=
  match l with
  | [] => mret tt
  | None :: _ => throw "archive_read_next_header()"
  | Some (path, header, finish) :: l' =>
      if negb header then throw "archive_write_header()"
      else
        d_emit (DExtract path);;
        if negb finish then throw "archive_write_finish_entry()" else extract_entries l'
  end.

(** The manifest is unpacked where the daemon is and removed; an exit code when the archive cannot
    be opened, or else the path without its ending. *)
Definition extract_manifest (tool_path manifest : string) : M dstate (Z + string) :=
  let manifest_path := tool_path +:+ "/" +:+ manifest in
  st ← d_stat manifest_path;
  match st with
  | None => throw ("Could not stat manifest tarball " +:+ manifest_path)
  | Some _ =>
      if negb (is_reg st) then throw (manifest_path +:+ " is not a regular file!")
      else
        '(r, entries) ← d_ask (λ t, k_archive t manifest_path);
        if r =? 0
        then
          extract_entries entries;;
          d_emit (DRemove manifest_path);;
          mret (inr (cut_at ".tar" manifest_path))
        else d_emit (DErr "archive_read_open_filename()");; mret (inl r)
  end.

(** The directory of the manifest, which has to be there; an exit code. *)
Definition root_directory (tool_path : string) : M dstate (Z + string * string) :=
  d ← get;
  let o := d_opts d in
  unpacked ← match o_manifest o with
             | Some manifest => extract_manifest tool_path manifest
             | None => mret (inr "")
             end;
  match unpacked with
  | inl r => mret (inl r)
  | inr manifest_path =>
      let manifest_path := match o_directory o with
                           | Some directory => tool_path +:+ "/" +:+ directory
                           | None => manifest_path
                           end in
      st ← d_stat manifest_path;
      match st with
      | None => throw ("Could not stat root directory " +:+ manifest_path)
      | Some _ =>
          if negb (is_dir st) then throw (manifest_path +:+ " is not a directory!")
          else
            let directory := match o_directory o with
                             | Some directory => directory
                             | None => cut_at ".tar" (default "" (o_manifest o))
                             end in
            mret (inr (manifest_path, directory))
      end
  end.

(** ** Cleaning up *)

Definition PID_FILE : string := ".cti_pids".
Definition STAGE_DIR_PREFIX : string := "cti_daemon".

(** What is read of the file of processes: the array, its index, which is set to what the last read
    gave, and the number that was read last, of which a short read only replaces a part. *)
Fixpoint read_pids (n : nat) (contents : bytes) (pids : list Z) (idx : nat) (pid : Z) : list Z * nat :=
  match n, contents with
  | S n', _ :: _ =>
      let nr := length (take 4 contents) in
      let pid := dec_int (take 4 contents ++ drop nr (enc_le 4 pid)) in
      read_pids n' (drop 4 contents) (<[idx := pid]> pids) (nr / 4) pid
  | _, _ => (pids, idx)
  end.

Definition recorded_pids (contents : bytes) : list Z :=
  let '(pids, idx) := read_pids (length contents) contents (replicate 32 0) 0 k_uninit in take idx pids.

Definition kill_recorded (pids : list Z) : M dstate () :=
  for_each pids (λ pid,
    alive ← d_ask (λ t, k_alive t pid);
    if alive : bool then d_emit (DErr ("Sending SIGKILL to " +:+ to_string pid));; d_emit (DKill pid) else mret tt).

(** The paths that are removed below a path, whether they can be or not; a directory is removed
    again after what was in it. *)
Fixpoint remove_dir (t : tree) (path : string) : list string :=
  match t with
  | Dir entries =>
      flat_map (λ e : string * tree,
        if dot_entry e.1 then []
        else remove_dir e.2 (path +:+ "/" +:+ e.1) ++ [path +:+ "/" +:+ e.1]) entries ++ [path]
  | _ => []
  end.

Definition d_remove_dir (path : string) : M dstate () :=
  t ← d_ask (λ t, k_dir t path); for_each (remove_dir t path) (λ p, d_emit (DRemove p)).

Definition lock_path (tool_path directory : string) (i : Z) : string :=
  tool_path +:+ "/.lock_" +:+ directory +:+ "_" +:+ to_string i.

(** [inst - 1] down to 1 *)
Definition earlier (inst : Z) : res (list Z) :=
  if inst =? int_min then Undef "the difference overflows" else Ok (reverse (seqZ 1 (inst - 1))).

(** Only the exit code 1 of lsof means that no file is in use. *)
Definition session_files_in_use (directory : string) : M dstate bool :=
  d_emit (DLsof directory);;
  code ← d_ask (λ t, k_lsof t directory);
  mret (negb (bool_decide (code = Some 1))).

Definition remove_past_sessions (tool_path : string) : M dstate () :=
  t ← d_ask (λ t, k_dir t tool_path);
  match t with
  | Dir entries =>
      for_each (List.filter (λ e : string * tree, starts_with STAGE_DIR_PREFIX e.1) entries) (λ e,
        let full_path := tool_path +:+ "/" +:+ e.1 in
        writable ← d_ask (λ t, k_writable t full_path);
        if negb writable then mret tt
        else
          used ← session_files_in_use full_path;
          if used : bool then mret tt
          else d_emit (DErr ("Removing unused directory " +:+ full_path));; d_remove_dir full_path)
  | _ => undef "readdir of a null pointer"
  end.

Definition cleanup_session (tool_path manifest_path directory : string) : M dstate daemon_end :=
  d ← get;
  contents ← d_ask (λ t, k_open t (manifest_path +:+ "/" +:+ PID_FILE));
  match contents with
  | None => throw "open failed"
  | Some contents =>
      kill_recorded (recorded_pids contents);;
      d_emit (DErr ("Removing directory " +:+ manifest_path));;
      d_remove_dir manifest_path;;
      instances ← lift (earlier (o_inst (d_opts d)));
      for_each instances (λ i, d_emit (DUnlink (lock_path tool_path directory i)));;
      remove_past_sessions tool_path;;
      mret (Exits 0)
  end.

(** ** Starting the tool daemon *)

(** The process is recorded for the clean-up; then later instances are told that the files of this
    one are there. *)
Definition register_instance (tool_path manifest_path directory : string) : M dstate () :=
  d ← get;
  let pid_path := manifest_path +:+ "/" +:+ PID_FILE in
  opened ← d_ask (λ t, k_append t pid_path);
  if negb opened then throw "open failed"
  else
    written ← d_ask k_write;
    if negb written then throw "write failed"
    else
      d_emit (DAppend pid_path (enc_le 4 k_pid));;
      let lock := lock_path tool_path directory (o_inst (d_opts d)) in
      created ← d_ask (λ t, k_create t lock);
      if created : bool then d_emit (DCreate lock) else d_emit (DErr ("fopen on " +:+ lock +:+ " failed")).

(** What the tool daemon finds in its environment. *)
Definition tool_env (tool_path manifest_path : string) : M dstate () :=
  d ← get;
  d_setenv BE_GUARD_ENV_VAR "1";;
  d_setenv ROOT_DIR_VAR manifest_path;;
  scratch ← d_getenv SCRATCH_ENV_VAR;
  (match scratch with Some old => d_setenv OLD_SCRATCH_ENV_VAR old | None => mret tt end);;
  d_setenv SCRATCH_ENV_VAR (manifest_path +:+ "/tmp");;
  d_setenv BIN_DIR_VAR (manifest_path +:+ "/bin");;
  d_setenv LIB_DIR_VAR (manifest_path +:+ "/lib");;
  d_setenv FILE_DIR_VAR manifest_path;;
  d_setenv TOOL_DIR_VAR tool_path;;
  match o_apath (d_opts d) with
  | Some attribs_path => d_setenv PMI_ATTRIBS_DIR_VAR attribs_path
  | None => mret tt
  end.

Definition adjustPaths (path : string) (libpath : option string) : M dstate () :=
  st ← d_stat path;
  match st with
  | None => throw "Could not adjust paths."
  | Some st =>
      d_emit (DChmod path (Z.lor (st_mode st) S_IRWXU));;
      ok ← d_ask (λ t, k_chmod t path);
      if negb ok then throw "Could not adjust paths."
      else
        d_emit (DChdir path);;
        ok ← d_ask (λ t, k_chdir t path);
        if negb ok then throw "Could not adjust paths."
        else modify (λ d, dset_env (adjusted_env path libpath (d_env d)) d)
  end.

(** Until the file is there. *)
Fixpoint wait_for (fuel : nat) (path : string) : M dstate () :=
  match fuel with
  | O => undef "still waiting"
  | S fuel' =>
      st ← d_stat path;
      match st with
      | Some _ => mret tt
      | None => d_emit DSleep;; wait_for fuel' path
      end
  end.

Definition wait_for_earlier (fuel : nat) (tool_path directory : string) : M dstate () :=
  d ← get;
  instances ← lift (earlier (o_inst (d_opts d)));
  for_each instances (λ i, wait_for fuel (lock_path tool_path directory i)).

(** The argument before the first operand is replaced by the path of the binary. *)
Definition exec_binary (fuel : nat) (tool_path manifest_path directory binary : string) (operands : list string)
    : M dstate daemon_end :=
  let binary_path := manifest_path +:+ "/bin/" +:+ binary in
  wait_for_earlier fuel tool_path directory;;
  st ← d_stat binary_path;
  match st with
  | None => throw ("Could not stat " +:+ binary_path)
  | Some _ =>
      if negb (is_reg st) then throw (binary_path +:+ " is not a regular file!")
      else
        ok ← d_ask (λ t, k_exec t binary_path);
        if ok : bool
        then d ← get; mret (Execs binary_path (binary_path :: operands) (d_env d))
        else throw "Return from exec!"
  end.

Definition start_tool (fuel : nat) (tool_path manifest_path directory : string) (operands : list string)
    : M dstate daemon_end :=
  register_instance tool_path manifest_path directory;;
  tool_env tool_path manifest_path;;
  d ← get;
  adjustPaths manifest_path (o_ldlibpath (d_opts d));;
  match o_binary (d_opts d) with
  | None => d_emit (DErr ("No binary provided. Stage to " +:+ manifest_path +:+ " complete."));; mret (Exits 0)
  | Some binary => exec_binary fuel tool_path manifest_path directory binary operands
  end.

(** After the options. *)
Definition run_daemon (fuel : nat) (operands : list string) : M dstate daemon_end :=
  detach;;
  process_env;;
  setup_log;;
  '(apid, tool_path) ← check_options;
  init_wlm apid;;
  check_tool_path tool_path;;
  root ← root_directory tool_path;
  match root with
  | inl r => mret (Exits r)
  | inr (manifest_path, directory) =>
      d ← get;
      if o_cleanup (d_opts d)
      then cleanup_session tool_path manifest_path directory
      else start_tool fuel tool_path manifest_path directory operands
  end.

(** [main]: [fuel] bounds the wait for each earlier instance.  [argv[0]] is the program itself. *)
Definition main (fuel : nat) (program : string) (args : list string) : M dstate daemon_end :=
  match args with
  | [] => d_emit DUsage;; mret (Exits 1)
  | _ =>
      d_emit (DChmod program 511);;
      posix ← d_getenv "POSIXLY_CORRECT";
      let '(opts, before, operands) := getopt_long (bool_decide (is_Some posix)) args in
      try_catch
        (ended ← handle_options opts;
         match ended with
         | Some code => mret (Exits code)
         | None =>
             d ← get;
             if o_check (d_opts d) then d_emit (DOut "");; mret (Exits 0)
             else run_daemon fuel operands
         end)
        (λ message, d_emit (DErr message);; mret (Exits 1))
  end.
End Daemon.

(** The daemon when it starts. *)
Definition daemon_start (env : gmap string string) : dstate := MkDaemon env [] no_opts None.
