(* ===== verification/BeOptionProofs.v ===== *)
(** * The backend daemon: properties of its options

    What a session writes on the command line of a daemon is what the daemon reads; the settings
    of the environment, of which the first for a name counts; the stack that keeps them. *)

From S2P Require Import Prelude Host Argv Archive Manifest Session System Paths Detect BeState BePals BeLib.
From S2P Require Import BeOptions BeDaemon.

(** ** The stack *)

(** A stack that was never resized holds its elements, the last pushed first. *)
Definition holds {A : Type} (s : cti_stack A) (l : list A) : Prop :=
  s = MkStack (length l) CTI_DEFAULT_STACK (Some l).

Lemma push_holds {A : Type} (moved : nat → bool) (e : A) (s : cti_stack A) (l : list A) :
  holds s l → (length l < CTI_DEFAULT_STACK)%nat → ∃ s', push moved e s = Ok s' ∧ holds s' (e :: l).
Proof.
  intros -> Hl. unfold push. cbn [st_num_elems st_idx]. rewrite (proj2 (Nat.leb_gt _ _)) by done.
  by eexists.
Qed.

Lemma pop_holds {A : Type} (s : cti_stack A) (e : A) (l : list A) :
  holds s (e :: l) → ∃ s', pop s = Ok (Some (e, s')) ∧ holds s' l.
Proof. intros ->. by eexists. Qed.

(** The 129th element is written to the old array. *)
Lemma push_after_resize {A : Type} (e : A) (s : cti_stack A) (l : list A) :
  holds s l → length l = CTI_DEFAULT_STACK → push (λ _, true) e s = Undef "writes to freed memory".
Proof. intros -> ->. done. Qed.

(** ** Reading options *)

Definition param_text (o : gnu_option) (value : string) : string :=
  "--" +:+ default "" (opt_name o) +:+ "=" +:+ value.

Definition daemon_params : list gnu_option :=
  [DaemonArgv.ApID; DaemonArgv.Binary; DaemonArgv.Directory; DaemonArgv.EnvVariable; DaemonArgv.InstSeqNum;
   DaemonArgv.ManifestName; DaemonArgv.ToolPath; DaemonArgv.PMIAttribsPath; DaemonArgv.LdLibraryPath;
   DaemonArgv.WLMEnum].

Definition param_parsed (ov : gnu_option * string) : parsed := POpt (char_of_val (opt_val ov.1)) (Some ov.2).

Lemma classify_param (o : gnu_option) (value : string) :
  o ∈ daemon_params →
  (∃ n, opt_name o = Some n) ∧ classify (param_text o value) = AOptions (SDone [param_parsed (o, value)]).
Proof.
  unfold daemon_params. rewrite !elem_of_cons, elem_of_nil.
  intros H. repeat (destruct H as [->|H]; [split; [by eexists|reflexivity]|]). done.
Qed.

Lemma getopt_params (posix : bool) (params : list (gnu_option * string)) (rest : list string) :
  Forall (λ ov, ov.1 ∈ daemon_params) params →
  (getopt_long posix (map (λ ov, param_text ov.1 ov.2) params ++ rest)).1.1 =
    map param_parsed params ++ (getopt_long posix rest).1.1 ∧
  (getopt_long posix (map (λ ov, param_text ov.1 ov.2) params ++ rest)).2 = (getopt_long posix rest).2.
Proof.
  induction 1 as [|[o value] params Ho _ [IH1 IH2]]; [done|].
  cbn [map app getopt_long fst snd]. destruct (classify_param o value Ho) as [_ ->].
  destruct (getopt_long posix (map _ params ++ rest)) as [[opts before] behind]. cbn in *. by rewrite IH1.
Qed.

(** Texts that are handed over whole. *)
Definition params_ok (params : list (gnu_option * string)) : Prop :=
  Forall (λ ov, ov.1 ∈ daemon_params ∧ nul_free ov.2 = true) params.

Lemma add_params_spec (params : list (gnu_option * string)) (v : argv) (l : list string) :
  represents v l → params_ok params →
  ∃ v', add_params params v = Ok v' ∧ represents v' (l ++ map (λ ov, param_text ov.1 ov.2) params).
Proof.
  intros Hv Hp. revert v l Hv. unfold add_params. induction Hp as [|[o value] params [Ho Hn] _ IH]; intros v l Hv.
  { exists v. by rewrite app_nil_r. }
  cbn [foldl fst snd map]. destruct (outgoing_add_param_spec o value v l Hv) as (v1 & E1 & H1).
  cbn [mbind res_bind]. rewrite E1. destruct (classify_param o value Ho) as [[n En] _].
  destruct (IH v1 _ H1) as (v' & E & H'). exists v'. split; [exact E|]. rewrite <-app_assoc in H'.
  unfold param_args, param_text in *. rewrite En in *. cbn [map default app] in *.
  rewrite c_str_id in H'; [exact H'|].
  cbn [fst snd] in Hn, Ho. rewrite !nul_free_app, Hn, andb_true_r.
  clear -En Ho. revert n En. unfold daemon_params in Ho. rewrite !elem_of_cons, elem_of_nil in Ho.
  repeat (destruct Ho as [->|Ho]; [intros n [= <-]; reflexivity|]). done.
Qed.

(** ** The settings of the environment *)

Section Daemon.
Context `{Compute} `{LibPals} `{Build}.
Context (moved : nat → bool).

Lemma handle_options_app (l l' : list parsed) (d d1 : dstate) :
  handle_options moved l d = (Ok None, d1) → handle_options moved (l ++ l') d = handle_options moved l' d1.
Proof.
  revert d. induction l as [|p l IH]; intros d E; [by injection E as <-|]. cbn [app handle_options] in *.
  apply bind_Ok in E as (e & d2 & E1 & E2). rewrite (bind_run_Ok _ _ _ _ _ E1).
  destruct e as [code|]; [discriminate E2|by apply IH].
Qed.

(** Settings are pushed in order. *)
Lemma handle_env (vars : list string) (d : dstate) (l : list string) :
  holds (default newStack (d_env_args d)) l → (length l + length vars ≤ CTI_DEFAULT_STACK)%nat →
  ∃ d', handle_options moved (map param_parsed (env_params vars)) d = (Ok None, d') ∧
    d_env d' = d_env d ∧ d_trace d' = d_trace d ∧ d_opts d' = d_opts d ∧
    (vars = [] ∧ d' = d ∨ ∃ s, d_env_args d' = Some s ∧ holds s (rev (map strip_spaces vars) ++ l)).
Proof.
  revert d l. induction vars as [|v vars IH]; intros d l Hl Hlen.
  { exists d. split_and!; [done..|by left]. }
  cbn [length] in Hlen. destruct (push_holds moved (strip_spaces v) _ l Hl) as (s & E & Hs); [lia|].
  destruct (IH (dset_env_args (Some s) d) (strip_spaces v :: l)) as (d' & E' & He & Ht & Ho & Ha);
    [exact Hs|cbn [length]; lia|].
  exists d'. split_and!; [|done..|].
  - cbn [map env_params handle_options]. unfold env_params in E'. rewrite <-E'. unfold handle_option, param_parsed.
    cbn [opt_val DaemonArgv.EnvVariable fst snd default]. change (char_of_val 101) with "e"%char.
    rewrite decide_False by done. rewrite decide_True by done.
    unfold mbind, M_bind, get, lift, modify.
    change (id v) with v. rewrite E. done.
  - right. destruct Ha as [[-> ->]|(s' & ? & ?)]; [by exists s|]. exists s'. split; [done|].
    cbn [map rev]. by rewrite <-app_assoc.
Qed.

(** The environment that settings make of one; the last counts. *)
Definition apply_settings (settings : list (string * string)) (env : gmap string string) : gmap string string :=
  foldl (λ e nv, <[nv.1 := nv.2]> e) env settings.

Definition setting_text (nv : string * string) : string := nv.1 +:+ "=" +:+ nv.2.

Definition setting_ok (nv : string * string) : Prop := nv.1 ≠ "" ∧ no_char "=" nv.1 = true.

Lemma process_env_run (settings : list (string * string)) (s : cti_stack string) (d : dstate) (fuel : nat) :
  Forall setting_ok settings → holds s (map setting_text settings) → (length settings < fuel)%nat →
  process_env_args fuel s d = (Ok tt, dset_env (apply_settings settings (d_env d)) d).
Proof.
  intros Hok. revert s d fuel. induction Hok as [|[n v] settings [Hne Hn] _ IH]; intros s d fuel Hs Hf;
    (destruct fuel as [|fuel]; [cbn [length] in Hf; lia|]).
  - rewrite Hs. by destruct d.
  - cbn [map] in Hs. destruct (pop_holds s _ _ Hs) as (s' & E & Hs'). cbn [process_env_args].
    unfold mbind at 1, M_bind at 1, lift at 1. rewrite E. unfold setting_text at 1. cbn [fst snd] in *.
    change ("=" +:+ v) with (String "=" v). rewrite split_at_app by done.
    destruct (is_empty n) eqn:En; [by apply is_empty_spec in En|].
    unfold d_setenv, mbind, M_bind, modify. cbn [length] in Hf. rewrite IH by (done || lia). by destruct d.
Qed.

Lemma apply_settings_lookup (settings : list (string * string)) (env : gmap string string) (name : string) :
  apply_settings (rev settings) env !! name =
    match List.find (λ nv : string * string, bool_decide (nv.1 = name)) settings with
    | Some nv => Some nv.2
    | None => env !! name
    end.
Proof.
  unfold apply_settings. induction settings as [|[n v] settings IH]; [done|].
  cbn [rev List.find fst snd]. rewrite foldl_app. cbn [foldl fst snd]. case_bool_decide as E; [subst n; by rewrite lookup_insert_eq|].
  by rewrite lookup_insert_ne.
Qed.

(** Of the settings of the environment on its command line the daemon keeps, for every name,
    the first: up to 128 settings are read from the options and applied; other names keep what the
    environment of the daemon has. *)
Theorem first_setting_wins (settings : list (string * string)) (d : dstate) :
  Forall setting_ok settings → Forall (λ nv, strip_spaces (setting_text nv) = setting_text nv) settings →
  (length settings ≤ CTI_DEFAULT_STACK)%nat → d_env_args d = None →
  ∃ d', (handle_options moved (map param_parsed (env_params (map setting_text settings)));; process_env) d
          = (Ok tt, d') ∧ d_trace d' = d_trace d ∧
    ∀ name, d_env d' !! name =
      match List.find (λ nv : string * string, bool_decide (nv.1 = name)) settings with
      | Some nv => Some nv.2
      | None => d_env d !! name
      end.
Proof.
  intros Hok Hstrip Hlen Hd.
  destruct (handle_env (map setting_text settings) d []) as (d1 & E & He & Ht & Ho & Ha).
  { by rewrite Hd. }
  { by rewrite length_map. }
  rewrite (bind_run_Ok _ _ _ _ _ E). unfold process_env. unfold mbind, M_bind, get.
  destruct Ha as [[Hnil ->]|(s & Es & Hs)].
  { apply map_eq_nil in Hnil as ->. exists d. by rewrite Hd. }
  rewrite Es. eexists. rewrite (process_env_run (rev settings) s).
  - split; [reflexivity|]. split; [exact Ht|]. intros name. cbn. rewrite apply_settings_lookup. by rewrite He.
  - by apply Forall_rev.
  - rewrite app_nil_r in Hs. rewrite map_rev. rewrite map_map in Hs.
    by rewrite (map_ext_Forall _ _ Hstrip) in Hs.
  - rewrite Hs. cbn. rewrite length_app, !length_rev, !length_map. cbn. lia.
Qed.

(** ** The options of a session *)

Lemma handle_param (o : gnu_option) (value : string) (d : dstate) :
  o ∈ daemon_params → o ≠ DaemonArgv.EnvVariable →
  handle_option moved (param_parsed (o, value)) d =
    (Ok None, dset_opts (set_option (char_of_val (opt_val o)) value (d_opts d)) d).
Proof.
  unfold daemon_params. rewrite !elem_of_cons, elem_of_nil. intros Ho Hne.
  repeat (destruct Ho as [->|Ho]; [first [done|reflexivity]|]). done.
Qed.

Lemma handle_params (params : list (gnu_option * string)) (d : dstate) :
  Forall (λ ov, ov.1 ∈ daemon_params ∧ ov.1 ≠ DaemonArgv.EnvVariable) params →
  handle_options moved (map param_parsed params) d =
    (Ok None, dset_opts (foldl (λ o ov, set_option (char_of_val (opt_val ov.1)) ov.2 o) (d_opts d) params) d).
Proof.
  intros Hp. revert d. induction Hp as [|[o value] params [Ho Hne] _ IH]; intros d; [by destruct d|].
  cbn [map handle_options foldl fst snd]. unfold mbind, M_bind. rewrite handle_param by done. by rewrite IH.
Qed.
End Daemon.

Definition non_empty (s : string) : option string := if is_empty s then None else Some s.

(** What a session means to tell the daemon that starts a tool. *)
Definition session_opts `{App} (s : session) (archiveName binaryName : string) : daemon_opts :=
  MkOpts (Some app_getJobId) (Some binaryName) false (Some (s_stageName s)) (s_seqNum s) (non_empty archiveName)
    (Some app_getToolPath) (non_empty app_getAttribsPath) (non_empty (s_ldLibraryPath s)) (atoi (s_wlmType s))
    fe_debug false.

Definition plain (s : string) : Prop := nul_free s = true ∧ strip_spaces s = s.

Section SessionOptions.
Context `{Host} `{App} `{Tar} `{Compute} `{LibPals} `{Build}.
Context (moved : nat → bool).

Lemma exec_params_ok (s : session) (archiveName binaryName : string) :
  Forall plain [app_getJobId; app_getToolPath; app_getAttribsPath; s_ldLibraryPath s; archiveName; binaryName;
                s_stageName s] → nul_free (s_wlmType s) = true →
  Forall (λ ov, (ov.1 ∈ daemon_params ∧ ov.1 ≠ DaemonArgv.EnvVariable) ∧ nul_free ov.2 = true)
    (exec_params s archiveName binaryName).
Proof.
  rewrite !Forall_cons. intros ([? _] & [? _] & [? _] & [? _] & [? _] & [? _] & [? _] & _) ?.
  assert (nul_free (to_string (s_seqNum s)) = true) by (by apply to_string_no_char).
  unfold exec_params, opt_param. rewrite !Forall_app, !Forall_cons.
  split_and!; try done; try (destruct (is_empty _); [done|apply Forall_singleton; split_and!]); try done;
    try (unfold daemon_params; rewrite !elem_of_cons; tauto); apply Forall_nil_2.
Qed.

Lemma session_opts_set (s : session) (archiveName binaryName : string) :
  Forall plain [app_getJobId; app_getToolPath; app_getAttribsPath; s_ldLibraryPath s; archiveName; binaryName;
                s_stageName s] → in_int (s_seqNum s) = true →
  foldl (λ o ov, set_option (char_of_val (opt_val ov.1)) ov.2 o) no_opts (exec_params s archiveName binaryName) =
    let '(MkOpts apid binary cleanup directory inst manifest path apath ldlibpath wlm _ check) :=
      session_opts s archiveName binaryName in
    MkOpts apid binary cleanup directory inst manifest path apath ldlibpath wlm false check.
Proof.
  rewrite !Forall_cons. intros ([_ E1] & [_ E2] & [_ E3] & [_ E4] & [_ E5] & [_ E6] & [_ E7] & _) Hz.
  unfold exec_params, opt_param, session_opts, non_empty. rewrite !foldl_app.
  destruct (is_empty app_getAttribsPath), (is_empty (s_ldLibraryPath s)), (is_empty archiveName);
    lazy -[strip_spaces atoi to_string app_getJobId app_getToolPath app_getAttribsPath s_ldLibraryPath s_stageName
           s_wlmType s_seqNum];
    rewrite ?E1, ?E2, ?E3, ?E4, ?E5, ?E6, ?E7, (atoi_to_string _ Hz); reflexivity.
Qed.

Definition debug_text : list string := if fe_debug then ["--debug"] else [].

Definition operand_text (daemonArgs : option (list string)) : list string :=
  match daemonArgs with Some args => "--" :: args | None => [] end.

Lemma env_params_ok (vars : list string) : Forall (λ v, nul_free v = true) vars → params_ok (env_params vars).
Proof.
  intros Hv. apply Forall_map. apply (Forall_impl _ _ _ Hv). intros v Hn. split; [|exact Hn].
  unfold daemon_params. cbn [fst]. rewrite !elem_of_cons. tauto.
Qed.

Lemma add_debug_spec (v v' : argv) (l : list string) :
  represents v l → add_debug v = Ok v' → represents v' (l ++ debug_text).
Proof.
  intros Hv. unfold add_debug, debug_text. destruct fe_debug; [|intros [= <-]; by rewrite app_nil_r].
  destruct (argv_add_spec v l "--debug" Hv) as (v1 & E & Hv1). unfold outgoing_add_option.
  cbn [opt_name DaemonArgv.Debug]. change ("--" +:+ "debug") with "--debug". rewrite E. by intros [= <-].
Qed.

Lemma add_env_spec (env : list string) (v v' : argv) (l : list string) :
  represents v l → Forall (λ v, nul_free v = true) env → add_params (env_params env) v = Ok v' →
  represents v' (l ++ map (λ ov, param_text ov.1 ov.2) (env_params env)).
Proof.
  intros Hv He E. destruct (add_params_spec _ v l Hv (env_params_ok _ He)) as (v1 & E1 & Hv1).
  rewrite E in E1. by injection E1 as ->.
Qed.

(** The command line as a list. *)
Lemma exec_argv_texts (s : session) (archiveName binaryName : string) (daemonArgs envVars : option (list string))
    (v : argv) :
  params_ok (exec_params s archiveName binaryName) →
  Forall (λ v, nul_free v = true) (fe_getDefaultEnvVars ++ default [] envVars) →
  exec_argv s archiveName binaryName daemonArgs envVars = Ok v →
  until_null (drop 1 v) =
    map (λ ov, param_text ov.1 ov.2) (exec_params s archiveName binaryName) ++ debug_text ++
    map (λ ov, param_text ov.1 ov.2) (env_params (fe_getDefaultEnvVars ++ default [] envVars)) ++
    operand_text daemonArgs.
Proof.
  intros Hp [Hd He]%Forall_app. unfold exec_argv, outgoing_new.
  destruct (argv_add_spec argv_new [] CTI_BE_DAEMON_BINARY represents_new) as (v0 & -> & R0). cbn [mbind res_bind].
  destruct (add_params_spec _ v0 _ R0 Hp) as (v1 & -> & R1). cbn [mbind res_bind].
  destruct (add_debug v1) as [v2|?|?] eqn:E2; [|done..]. apply (add_debug_spec _ _ _ R1) in E2 as R2. cbn [mbind res_bind].
  destruct (add_params (env_params fe_getDefaultEnvVars) v2) as [v3|?|?] eqn:E3; [|done..].
  apply (add_env_spec _ _ _ _ R2 Hd) in E3 as R3. cbn [mbind res_bind].
  destruct (match envVars with None => _ | Some _ => _ end) as [v4|?|?] eqn:E4; [|done..]. cbn [mbind res_bind].
  assert (represents v4 ((([c_str CTI_BE_DAEMON_BINARY] ++ map (λ ov, param_text ov.1 ov.2)
            (exec_params s archiveName binaryName)) ++ debug_text) ++
            map (λ ov, param_text ov.1 ov.2) (env_params (fe_getDefaultEnvVars ++ default [] envVars)))) as R4.
  { unfold env_params. rewrite !map_app. rewrite (app_assoc _ (map _ (map _ fe_getDefaultEnvVars))).
    destruct envVars as [env|]; cbn [default] in *.
    - destruct (enforceValidEnvStrings env) as [[]|?|?]; [|done..]. exact (add_env_spec _ _ _ _ R3 He E4).
    - injection E4 as <-. by rewrite app_nil_r. }
  intros E. assert (represents v (([c_str CTI_BE_DAEMON_BINARY] ++ map (λ ov, param_text ov.1 ov.2)
            (exec_params s archiveName binaryName) ++ debug_text ++
            map (λ ov, param_text ov.1 ov.2) (env_params (fe_getDefaultEnvVars ++ default [] envVars))) ++
            operand_text daemonArgs)) as R.
  { rewrite <-!app_assoc in R4. destruct daemonArgs as [args|]; [|injection E as <-; by rewrite app_nil_r].
    unfold argv_add_cstr in E. destruct (insert_before_end_spec v4 _ "--" R4) as (v5 & E5 & R5).
    rewrite E5 in E. cbn [mbind res_bind] in E. destruct (argv_add_each_spec args _ v5 R5) as (v6 & E6 & R6).
    rewrite E6 in E. injection E as <-. rewrite <-app_assoc in R6. exact R6. }
  rewrite R. unfold represents in *. rewrite <-!app_assoc. cbn [app map]. rewrite skipn_cons, drop_0.
  by rewrite (until_null_represents (map Some _ ++ [None]) _ eq_refl).
Qed.

(** C7 What a session tells its daemon is what the daemon reads.  The command line that starts a
    tool, of texts without null characters and leading blanks and with at most 128 settings of the
    environment, is read as the application, the tool, the directory of the session, its sequence
    number, the manifest, paths and workload manager of the session; the settings are kept in
    order, and the arguments of the tool are what is left. *)
Theorem session_options_read (s : session) (archiveName binaryName : string)
    (daemonArgs envVars : option (list string)) (v : argv) (posix : bool) (d : dstate) :
  let envs := fe_getDefaultEnvVars ++ default [] envVars in
  Forall plain [app_getJobId; app_getToolPath; app_getAttribsPath; s_ldLibraryPath s; archiveName; binaryName;
                s_stageName s] →
  nul_free (s_wlmType s) = true → in_int (s_seqNum s) = true →
  Forall (λ v, nul_free v = true) envs → (length envs ≤ CTI_DEFAULT_STACK)%nat →
  d_opts d = no_opts → d_env_args d = None →
  exec_argv s archiveName binaryName daemonArgs envVars = Ok v →
  (getopt_long posix (until_null (drop 1 v))).2 = default [] daemonArgs ∧
  ∃ d', handle_options moved (getopt_long posix (until_null (drop 1 v))).1.1 d = (Ok None, d') ∧
    d_opts d' = session_opts s archiveName binaryName ∧ d_trace d' = d_trace d ∧ d_env d' = d_env d ∧
    holds (default newStack (d_env_args d')) (rev (map strip_spaces envs)).
Proof.
  intros envs Hplain Hwlm Hseq Henv Hlen Hopts Hargs E.
  pose proof (exec_params_ok s archiveName binaryName Hplain Hwlm) as Hok.
  assert (params_ok (exec_params s archiveName binaryName)) as Hp
    by (apply (Forall_impl _ _ _ Hok); by intros ov [[? _] ?]).
  rewrite (exec_argv_texts _ _ _ _ _ _ Hp Henv E). fold envs.
  destruct (getopt_params posix (exec_params s archiveName binaryName) (debug_text ++
    map (λ ov, param_text ov.1 ov.2) (env_params envs) ++ operand_text daemonArgs)) as [G1 G2].
  { apply (Forall_impl _ _ _ Hp). by intros ov [? _]. }
  destruct (getopt_params posix (env_params envs) (operand_text daemonArgs)) as [G3 G4].
  { apply (Forall_impl _ _ _ (env_params_ok _ Henv)). by intros ov [? _]. }
  assert (∀ rest, (getopt_long posix (debug_text ++ rest)).1.1 =
            (if fe_debug then [PFlag] else []) ++ (getopt_long posix rest).1.1 ∧
            (getopt_long posix (debug_text ++ rest)).2 = (getopt_long posix rest).2) as Hdebug.
  { intros rest. unfold debug_text. destruct fe_debug; [|done]. cbn [app getopt_long].
    change (classify "--debug") with (AOptions (SDone [PFlag])). cbv iota.
    by destruct (getopt_long posix rest) as [[opts before] behind]. }
  destruct (Hdebug (map (λ ov, param_text ov.1 ov.2) (env_params envs) ++ operand_text daemonArgs)) as [G5 G6].
  rewrite G1, G2, G5, G6, G3, G4. split; [by destruct daemonArgs|].
  replace (getopt_long posix (operand_text daemonArgs)).1.1 with (@nil parsed) by (by destruct daemonArgs).
  rewrite app_nil_r.
  set (d1 := dset_opts (foldl (λ o ov, set_option (char_of_val (opt_val ov.1)) ov.2 o) (d_opts d)
               (exec_params s archiveName binaryName)) d).
  erewrite handle_options_app.
  2: { apply handle_params. apply (Forall_impl _ _ _ Hok). by intros ov [? _]. }
  fold d1. set (d2 := dset_opts (session_opts s archiveName binaryName) d1).
  erewrite (handle_options_app _ _ _ d1 d2).
  2: { unfold d2, d1. rewrite Hopts, session_opts_set by done. unfold session_opts. by destruct fe_debug. }
  destruct (handle_env moved envs d2 []) as (d' & E' & He & Ht & Ho & Ha);
    [cbn; by rewrite Hargs|done|].
  exists d'. split_and!; [exact E'|exact Ho|exact Ht|exact He|].
  destruct Ha as [[-> ->]|(st & -> & Hst)]; [cbn; by rewrite Hargs|]. by rewrite app_nil_r in Hst.
Qed.
End SessionOptions.
