(* ===== verification/BeDaemonProofs.v ===== *)
(** * The backend daemon: properties

    When a tool daemon starts, what its environment is, and that the backend library finds the
    workload manager in it; what a clean-up kills; what the check for files reports. *)

From S2P Require Import Prelude Host Wire BackendFiles System Paths Detect BeState BePals BeLib BeOptions BeDaemon.

Section Daemon.
Context `{Compute} `{LibPals} `{Build}.
Context (moved : nat → bool).

(** ** What steps keep *)

(** The daemon has done at least [t], with these options. *)
Definition past (t : list devent) (o : daemon_opts) (d : dstate) : Prop := t `prefix_of` d_trace d ∧ d_opts d = o.

Lemma past_refl (d : dstate) : past (d_trace d) (d_opts d) d.
Proof. done. Qed.

Lemma past_emit (t : list devent) (o : daemon_opts) (e : devent) : preserves (past t o) (d_emit e).
Proof. apply preserves_modify. intros d [Ht Ho]. split; [by apply prefix_app_r|done]. Qed.

Lemma past_ask {A : Type} (t : list devent) (o : daemon_opts) (f : list devent → A) : preserves (past t o) (d_ask f).
Proof. apply preserves_gets. Qed.

Lemma past_env (t : list devent) (o : daemon_opts) (f : dstate → gmap string string) :
  preserves (past t o) (modify (λ d, dset_env (f d) d)).
Proof. by apply preserves_modify. Qed.

#[local] Hint Resolve past_emit past_ask past_env : cti.

Lemma past_stat (t : list devent) (o : daemon_opts) (path : string) : preserves (past t o) (d_stat path).
Proof. unfold d_stat. preserve. Qed.
#[local] Hint Resolve past_stat : cti.

Lemma past_wait (t : list devent) (o : daemon_opts) (fuel : nat) (path : string) :
  preserves (past t o) (wait_for fuel path).
Proof. induction fuel as [|fuel IH]; cbn [wait_for]; preserve. Qed.
#[local] Hint Resolve past_wait : cti.

Lemma past_wait_earlier (t : list devent) (o : daemon_opts) (fuel : nat) (tool dir : string) :
  preserves (past t o) (wait_for_earlier fuel tool dir).
Proof. unfold wait_for_earlier. preserve. Qed.
#[local] Hint Resolve past_wait_earlier : cti.

Lemma past_tool_env (t : list devent) (o : daemon_opts) (tool path : string) : preserves (past t o) (tool_env tool path).
Proof. unfold tool_env, d_setenv, d_getenv. preserve. Qed.

Lemma past_adjust (t : list devent) (o : daemon_opts) (path : string) (lib : option string) :
  preserves (past t o) (adjustPaths path lib).
Proof. unfold adjustPaths. preserve. Qed.

Lemma past_register (t : list devent) (o : daemon_opts) (tool path dir : string) :
  preserves (past t o) (register_instance tool path dir).
Proof. unfold register_instance. preserve. Qed.
#[local] Hint Resolve past_tool_env past_adjust past_register : cti.

(** Only the environment is left as it is by waiting. *)
Definition same_env (e : gmap string string) (d : dstate) : Prop := d_env d = e.

Lemma same_emit (e : gmap string string) (ev : devent) : preserves (same_env e) (d_emit ev).
Proof. by apply preserves_modify. Qed.

Lemma same_ask {A : Type} (e : gmap string string) (f : list devent → A) : preserves (same_env e) (d_ask f).
Proof. apply preserves_gets. Qed.
#[local] Hint Resolve same_emit same_ask : cti.

Lemma same_wait (e : gmap string string) (fuel : nat) (path : string) : preserves (same_env e) (wait_for fuel path).
Proof. induction fuel as [|fuel IH]; cbn [wait_for]; unfold d_stat; preserve. Qed.
#[local] Hint Resolve same_wait : cti.

Lemma same_wait_earlier (e : gmap string string) (fuel : nat) (tool dir : string) :
  preserves (same_env e) (wait_for_earlier fuel tool dir).
Proof. unfold wait_for_earlier. preserve. Qed.

(** ** Waiting for earlier instances *)

(** When the wait for a file is over, the file was there at the end of what was done. *)
Lemma wait_for_seen (fuel : nat) (path : string) (d d' : dstate) :
  wait_for fuel path d = (Ok tt, d') → is_Some (k_stat (d_trace d') path).
Proof.
  revert d. induction fuel as [|fuel IH]; intros d; cbn [wait_for]; [done|]. intros E.
  apply bind_Ok in E as (st & d1 & E1 & E2). unfold d_stat in E1. minv.
  destruct st as [st|]; [|minv; by eapply IH]. minv. unfold d_ask in *. by minv.
Qed.

Lemma wait_all_seen (fuel : nat) (tool dir : string) (l : list Z) (d d' : dstate) :
  for_each l (λ i, wait_for fuel (lock_path tool dir i)) d = (Ok tt, d') →
  ∀ i, i ∈ l → ∃ t, d_trace d `prefix_of` t ∧ t `prefix_of` d_trace d' ∧ is_Some (k_stat t (lock_path tool dir i)).
Proof.
  revert d. induction l as [|j l IH]; intros d; cbn [for_each]; [set_solver|]. intros E i Hi.
  apply bind_Ok in E as ([] & d1 & E1 & E2).
  pose proof (preserves_Ok _ _ _ _ _ (past_wait _ _ _ _) E1 (past_refl d)) as [Hp1 _].
  assert (preserves (past (d_trace d1) (d_opts d1)) (for_each l (λ i, wait_for fuel (lock_path tool dir i)))) as Hp by preserve.
  pose proof (preserves_Ok _ _ _ _ _ Hp E2 (past_refl d1)) as [Hp2 _].
  apply elem_of_cons in Hi as [->|Hi].
  - exists (d_trace d1). split_and!; [done..|]. by eapply wait_for_seen.
  - destruct (IH _ E2 i Hi) as (t & ? & ? & ?). exists t. split_and!; [by etrans|done..].
Qed.

Lemma elem_of_earlier (inst : Z) (l : list Z) : earlier inst = Ok l → ∀ i, i ∈ l ↔ 1 ≤ i < inst.
Proof.
  unfold earlier. destruct (inst =? int_min); [done|]. intros [= <-] i.
  rewrite elem_of_reverse, elem_of_seqZ. lia.
Qed.

Lemma wait_earlier_run (fuel : nat) (tool dir : string) (d d' : dstate) :
  wait_for_earlier fuel tool dir d = (Ok tt, d') →
  past (d_trace d) (d_opts d) d' ∧ d_env d' = d_env d ∧
  ∀ i, 1 ≤ i < o_inst (d_opts d) →
    ∃ t, d_trace d `prefix_of` t ∧ t `prefix_of` d_trace d' ∧ is_Some (k_stat t (lock_path tool dir i)).
Proof.
  intros E. split; [exact (preserves_Ok _ _ _ _ _ (past_wait_earlier _ _ _ _ _) E (past_refl d))|].
  split; [exact (preserves_Ok _ _ _ _ _ (same_wait_earlier _ _ _ _) E eq_refl)|].
  unfold wait_for_earlier, mbind, M_bind, get, lift in E. destruct (earlier _) as [l|?|?] eqn:El; [|done..].
  intros i Hi%(elem_of_earlier _ _ El). exact (wait_all_seen _ _ _ _ _ _ E i Hi).
Qed.

Lemma exec_binary_run (fuel : nat) (tool man dir binary : string) (operands argv : list string) (path : string)
    (env : gmap string string) (d d' : dstate) :
  exec_binary fuel tool man dir binary operands d = (Ok (Execs path argv env), d') →
  path = man +:+ "/bin/" +:+ binary ∧ argv = path :: operands ∧ env = d_env d ∧
  past (d_trace d) (d_opts d) d' ∧ (∃ st, k_stat (d_trace d') path = Some st ∧ st_type st = TReg) ∧
  ∀ i, 1 ≤ i < o_inst (d_opts d) →
    ∃ t, d_trace d `prefix_of` t ∧ t `prefix_of` d_trace d' ∧ is_Some (k_stat t (lock_path tool dir i)).
Proof.
  unfold exec_binary. intros E. apply bind_Ok in E as ([] & d1 & E1 & E2).
  destruct (wait_earlier_run _ _ _ _ _ E1) as ([Ht1 Ho1] & He1 & Hw).
  unfold d_stat, d_emit, modify, d_ask, gets, mbind, M_bind in E2. cbn in E2.
  destruct (k_stat _ _) as [st|] eqn:Est; [|done]. unfold is_reg in E2. case_bool_decide as Hreg; [|done].
  cbn in E2. destruct (k_exec _ _); [|done]. injection E2 as <- <- <- <-. cbn.
  split_and!; [done|done|done|split; [by apply prefix_app_r|done]|by exists st|].
  intros i Hi. destruct (Hw i Hi) as (t & ? & ? & ?). exists t. split_and!; [done|by apply prefix_app_r|done].
Qed.

Lemma register_run (tool man dir : string) (d d' : dstate) :
  register_instance tool man dir d = (Ok tt, d') →
  let new := drop (length (d_trace d)) (d_trace d') in
  d_env d' = d_env d ∧ DAppend (man +:+ "/" +:+ PID_FILE) (enc_le 4 k_pid) ∈ new ∧
  let lock := lock_path tool dir (o_inst (d_opts d)) in
  (DCreate lock ∈ new ∨ DErr ("fopen on " +:+ lock +:+ " failed") ∈ new).
Proof.
  unfold register_instance, d_ask, gets, get. unfold mbind at 1 2, M_bind at 1 2.
  destruct (k_append _ _); [|done]. cbn [negb]. unfold mbind at 1, M_bind at 1. destruct (k_write _); [|done].
  cbn [negb]. unfold d_emit, modify, mbind, M_bind. destruct (k_create _ _); intros [= <-];
    cbn [d_env d_trace dset_trace]; rewrite <-!app_assoc, drop_app_length; cbn [app];
    split_and!; try done; set_solver.
Qed.

(** The environment before paths are adjusted. *)
Definition env_after (tool man : string) (apath : option string) (e : gmap string string) : gmap string string :=
  let e := <[ROOT_DIR_VAR := man]> (<[BE_GUARD_ENV_VAR := "1"]> e) in
  let e := match e !! SCRATCH_ENV_VAR with Some old => <[OLD_SCRATCH_ENV_VAR := old]> e | None => e end in
  let e := <[TOOL_DIR_VAR := tool]> (<[FILE_DIR_VAR := man]> (<[LIB_DIR_VAR := man +:+ "/lib"]>
             (<[BIN_DIR_VAR := man +:+ "/bin"]> (<[SCRATCH_ENV_VAR := man +:+ "/tmp"]> e)))) in
  match apath with Some attribs_path => <[PMI_ATTRIBS_DIR_VAR := attribs_path]> e | None => e end.

Lemma tool_env_run (tool man : string) (d : dstate) :
  tool_env tool man d = (Ok tt, dset_env (env_after tool man (o_apath (d_opts d)) (d_env d)) d).
Proof.
  unfold tool_env, env_after, d_setenv, d_getenv, modify, gets, mbind, M_bind, get. cbn.
  destruct (<[ROOT_DIR_VAR := man]> _ !! SCRATCH_ENV_VAR); cbn; by destruct (o_apath (d_opts d)).
Qed.

Lemma start_tool_run (fuel : nat) (tool man dir : string) (operands argv : list string) (path : string)
    (env : gmap string string) (d d' : dstate) :
  start_tool fuel tool man dir operands d = (Ok (Execs path argv env), d') →
  ∃ binary t, o_binary (d_opts d) = Some binary ∧
    path = man +:+ "/bin/" +:+ binary ∧ argv = path :: operands ∧
    (∃ st, k_stat (d_trace d') path = Some st ∧ st_type st = TReg) ∧
    env = adjusted_env man (o_ldlibpath (d_opts d)) (env_after tool man (o_apath (d_opts d)) (d_env d)) ∧
    past t (d_opts d) d' ∧ d_trace d `prefix_of` t ∧
    (let new := drop (length (d_trace d)) t in
     DAppend (man +:+ "/" +:+ PID_FILE) (enc_le 4 k_pid) ∈ new ∧
     let lock := lock_path tool dir (o_inst (d_opts d)) in
     DCreate lock ∈ new ∨ DErr ("fopen on " +:+ lock +:+ " failed") ∈ new) ∧
    ∀ i, 1 ≤ i < o_inst (d_opts d) →
      ∃ t', t `prefix_of` t' ∧ t' `prefix_of` d_trace d' ∧ is_Some (k_stat t' (lock_path tool dir i)).
Proof.
  unfold start_tool. intros E. apply bind_Ok in E as ([] & d1 & E1 & E2).
  pose proof (preserves_Ok _ _ _ _ _ (past_register _ _ _ _ _) E1 (past_refl d)) as [Ht1 Ho1].
  destruct (register_run _ _ _ _ _ E1) as (He1 & Hpid & Hlock).
  rewrite (bind_run_Ok _ _ _ _ _ (tool_env_run tool man d1)) in E2. unfold mbind at 1, M_bind at 1, get in E2.
  cbn [d_opts dset_env] in E2. rewrite Ho1, He1 in E2. apply bind_Ok in E2 as ([] & d2 & E2 & E3).
  assert (d_env d2 = adjusted_env man (o_ldlibpath (d_opts d)) (env_after tool man (o_apath (d_opts d)) (d_env d)) ∧
          past (d_trace d1) (d_opts d) d2) as [He2 [Ht2 Ho2]].
  { clear E3. unfold adjustPaths, d_stat, d_emit, modify, d_ask, gets, mbind, M_bind in E2. cbn in E2.
    case_match; [|done]. cbn in E2. do 2 (case_match; [done|]; cbn in E2). injection E2 as <-. cbn. split; [done|]. split; [|done].
    cbn. by do 3 apply prefix_app_r. }
  destruct (o_binary (d_opts d)) as [binary|]; [|by minv].
  apply exec_binary_run in E3 as (-> & -> & -> & [Ht3 Ho3] & Hreg & Hw). rewrite Ho2 in *.
  exists binary, (d_trace d1). split_and!; try done.
  - split; [by etrans|done].
  - intros i Hi. destruct (Hw i Hi) as (t & ? & ? & ?). exists t. split_and!; [by etrans|done..].
Qed.

(** ** From the options to the tool *)

(** What is known before the tool is started. *)
Definition ready (apid : string) (o : daemon_opts) (d : dstate) : Prop :=
  d_opts d = o ∧ d_env d !! APID_ENV_VAR = Some apid ∧
  d_env d !! WLM_ENV_VAR = Some (to_string (d_wlm_type (d_wlmProto (o_wlm o)))).

Lemma ready_emit (apid : string) (o : daemon_opts) (e : devent) : preserves (ready apid o) (d_emit e).
Proof. by apply preserves_modify. Qed.

Lemma ready_ask {A : Type} (apid : string) (o : daemon_opts) (f : list devent → A) : preserves (ready apid o) (d_ask f).
Proof. apply preserves_gets. Qed.
#[local] Hint Resolve ready_emit ready_ask : cti.

Lemma ready_check (apid : string) (o : daemon_opts) (tool : string) : preserves (ready apid o) (check_tool_path tool).
Proof. unfold check_tool_path, d_stat. preserve. Qed.

Lemma ready_entries (apid : string) (o : daemon_opts) (l : list tar_entry) : preserves (ready apid o) (extract_entries l).
Proof. induction l as [|[[[path header] finish]|] l IH]; cbn [extract_entries]; preserve. Qed.
#[local] Hint Resolve ready_entries : cti.

Lemma ready_root (apid : string) (o : daemon_opts) (tool : string) : preserves (ready apid o) (root_directory tool).
Proof. unfold root_directory, extract_manifest, d_stat. preserve. Qed.
#[local] Hint Resolve ready_check ready_root : cti.

Lemma init_wlm_ready (apid : string) (d d' : dstate) :
  init_wlm apid d = (Ok tt, d') → ready apid (d_opts d) d' ∧ d_wlmProto (o_wlm (d_opts d)) ≠ ProtoNone.
Proof.
  unfold init_wlm. unfold mbind at 1, M_bind at 1, get at 1. intros E. apply bind_Ok in E as ([] & d1 & E1 & E2).
  assert (d_opts d1 = d_opts d ∧ d_wlmProto (o_wlm (d_opts d)) ≠ ProtoNone) as [Ho Hp].
  { clear E2. destruct (d_wlmProto _); cbn [d_wlm_init] in E1; unfold d_setenv, modify, mbind, M_bind in E1; by minv. }
  split; [|done]. unfold d_setenv, modify, mbind, M_bind in E2.
  destruct k_cwd; injection E2 as <-; cbn; (split; [done|]); cbn; rewrite lookup_insert_ne by done;
    rewrite !lookup_insert_eq; done.
Qed.

Lemma root_run (tool man dir : string) (d d' : dstate) :
  root_directory tool d = (Ok (inr (man, dir)), d') →
  ∀ x, o_directory (d_opts d) = Some x → dir = x ∧ man = tool +:+ "/" +:+ x.
Proof.
  unfold root_directory. unfold mbind at 1, M_bind at 1, get at 1. intros E x Hx.
  apply bind_Ok in E as ([r|path] & d1 & E1 & E2); [by minv|]. rewrite Hx in E2.
  apply bind_Ok in E2 as ([st|] & d2 & E2 & E3); [|done]. destruct (negb _); [done|]. by minv; simplify_eq.
Qed.

Lemma d_stat_run (path : string) (d : dstate) :
  d_stat path d = (Ok (k_stat (d_trace d ++ [DStat path]) path), dset_trace (d_trace d ++ [DStat path]) d).
Proof. done. Qed.

(** The daemon was in the directory of tools, and there all entries of its manifest were written,
    one after the other, before the manifest was removed. *)
Definition manifest_unpacked (tool : string) (o : daemon_opts) (t : list devent) : Prop :=
  ∀ manifest, o_manifest o = Some manifest →
    let archive := tool +:+ "/" +:+ manifest in
    ∃ t0 names, k_archive (t0 ++ [DChdir tool; DStat archive]) archive
                  = (0, map (λ name, Some (name, true, true)) names) ∧
      t0 ++ [DChdir tool; DStat archive] ++ map DExtract names ++ [DRemove archive] `prefix_of` t.

Lemma extract_entries_run (l : list tar_entry) (d d' : dstate) :
  extract_entries l d = (Ok tt, d') →
  ∃ names, l = map (λ name, Some (name, true, true)) names ∧ d_trace d' = d_trace d ++ map DExtract names.
Proof.
  revert d. induction l as [|[[[name header] finish]|] l IH]; intros d; cbn [extract_entries]; [|..|done].
  - intros [= <-]. exists []. by rewrite app_nil_r.
  - destruct header; [|done]. cbn [negb]. unfold mbind, M_bind, d_emit, modify.
    destruct finish; [|done]. cbn [negb]. intros (names & -> & E)%IH. exists (name :: names).
    split; [done|]. rewrite E. cbn [d_trace dset_trace map]. by rewrite <-app_assoc.
Qed.

Lemma extract_manifest_run (tool manifest path : string) (d d' : dstate) :
  extract_manifest tool manifest d = (Ok (inr path), d') →
  let archive := tool +:+ "/" +:+ manifest in
  ∃ names, k_archive (d_trace d ++ [DStat archive]) archive = (0, map (λ name, Some (name, true, true)) names) ∧
    d_trace d' = d_trace d ++ [DStat archive] ++ map DExtract names ++ [DRemove archive].
Proof.
  unfold extract_manifest. rewrite (bind_run_Ok _ _ _ _ _ (d_stat_run _ d)). cbv zeta.
  set (archive := tool +:+ "/" +:+ manifest). destruct (k_stat _ archive) as [st|]; [|done].
  destruct (negb _); [done|]. unfold mbind at 1, M_bind at 1, d_ask, gets. cbn [d_trace dset_trace].
  destruct (k_archive _ _) as [r entries] eqn:Ea. destruct (r =? 0) eqn:Hr; [|by intros E; minv].
  apply Z.eqb_eq in Hr as ->. intros E. apply bind_Ok in E as ([] & d1 & E1 & E2).
  apply extract_entries_run in E1 as (names & -> & Et). exists names. split; [done|].
  unfold mbind, M_bind, d_emit, modify in E2. injection E2 as _ <-. cbn [d_trace dset_trace] in *.
  rewrite Et. by rewrite <-!app_assoc.
Qed.

Lemma check_tool_path_run (tool : string) (d d' : dstate) :
  check_tool_path tool d = (Ok tt, d') → ∃ t0, d_trace d' = t0 ++ [DChdir tool].
Proof.
  unfold check_tool_path. intros E. apply bind_Ok in E as (st & d0 & _ & E).
  apply bind_Ok in E as ([] & d1 & _ & E). apply bind_Ok in E as ([] & d2 & E1 & E2). injection E1 as <-. unfold mbind, M_bind, d_ask, gets in E2.
  destruct (k_chdir _ _); [|done]. injection E2 as <-. by exists (d_trace d1).
Qed.

Lemma root_unpacked (tool man dir : string) (t0 : list devent) (d d' : dstate) :
  d_trace d = t0 ++ [DChdir tool] → root_directory tool d = (Ok (inr (man, dir)), d') →
  manifest_unpacked tool (d_opts d) (d_trace d').
Proof.
  intros Ht E manifest Hm. unfold root_directory in E. unfold mbind at 1, M_bind at 1, get at 1 in E.
  rewrite Hm in E. apply bind_Ok in E as ([r|path] & d1 & E1 & E); [by minv|].
  apply extract_manifest_run in E1 as (names & Ea & E1). exists t0, names. rewrite Ht, <-app_assoc in Ea, E1.
  split; [exact Ea|]. cbn [app] in *. rewrite <-E1.
  rewrite (bind_run_Ok _ _ _ _ _ (d_stat_run _ d1)) in E. destruct (k_stat _ _); [|done].
  destruct (negb _); [done|]. injection E as _ _ <-. cbn [d_trace dset_trace]. by apply prefix_app_r.
Qed.

Lemma run_daemon_execs (fuel : nat) (operands argv : list string) (path : string) (env : gmap string string) (d d' : dstate) :
  run_daemon fuel operands d = (Ok (Execs path argv env), d') →
  ∃ d1 apid tool man dir, start_tool fuel tool man dir operands d1 = (Ok (Execs path argv env), d') ∧
    ready apid (d_opts d1) d1 ∧ d_wlmProto (o_wlm (d_opts d1)) ≠ ProtoNone ∧
    o_apid (d_opts d1) = Some apid ∧ o_path (d_opts d1) = Some tool ∧
    (∀ x, o_directory (d_opts d1) = Some x → dir = x ∧ man = tool +:+ "/" +:+ x) ∧
    manifest_unpacked tool (d_opts d1) (d_trace d1).
Proof.
  unfold run_daemon. intros E. apply bind_Ok in E as ([] & d2 & _ & E). apply bind_Ok in E as ([] & d3 & _ & E).
  apply bind_Ok in E as ([] & d4 & _ & E). apply bind_Ok in E as ([apid tool] & d5 & E5 & E).
  assert (d5 = d4 ∧ o_apid (d_opts d4) = Some apid ∧ o_path (d_opts d4) = Some tool) as (-> & Hapid & Htool).
  { clear E. unfold check_options, mbind, M_bind, get in E5. repeat (case_match; try done);
      unfold mret, M_ret in E5; by simplify_eq. }
  apply bind_Ok in E as ([] & d6 & E6 & E). destruct (init_wlm_ready _ _ _ E6) as [Hr6 Hp6].
  apply bind_Ok in E as ([] & d7 & E7 & E). pose proof (preserves_Ok _ _ _ _ _ (ready_check _ _ _) E7 Hr6) as Hr7.
  apply bind_Ok in E as ([r|[man dir]] & d8 & E8 & E); [by minv|].
  pose proof (preserves_Ok _ _ _ _ _ (ready_root _ _ _) E8 Hr7) as Hr8. pose proof (root_run _ _ _ _ _ E8) as Hdir.
  destruct (check_tool_path_run _ _ _ E7) as [t0 Ht0]. pose proof (root_unpacked _ _ _ _ _ _ Ht0 E8) as Hun.
  unfold mbind at 1, M_bind at 1, get at 1 in E. destruct (o_cleanup _).
  { unfold cleanup_session in E. apply bind_Ok in E as (x & d9 & _ & E).
    apply bind_Ok in E as ([contents|] & d10 & _ & E); [|done]. by minv. }
  destruct Hr8 as (Ho & Ha & Hw). rewrite (proj1 Hr7) in Hdir, Hun.
  exists d8, apid, tool, man, dir. unfold ready. rewrite Ho. by split_and!.
Qed.

Lemma main_execs (fuel : nat) (program : string) (args argv : list string) (path : string)
    (env0 env : gmap string string) (d' : dstate) :
  main moved fuel program args (daemon_start env0) = (Ok (Execs path argv env), d') →
  let operands := (getopt_long (bool_decide (is_Some (env0 !! "POSIXLY_CORRECT"))) args).2 in
  ∃ d1 apid tool man dir, start_tool fuel tool man dir operands d1 = (Ok (Execs path argv env), d') ∧
    ready apid (d_opts d1) d1 ∧ d_wlmProto (o_wlm (d_opts d1)) ≠ ProtoNone ∧
    o_apid (d_opts d1) = Some apid ∧ o_path (d_opts d1) = Some tool ∧
    (∀ x, o_directory (d_opts d1) = Some x → dir = x ∧ man = tool +:+ "/" +:+ x) ∧
    manifest_unpacked tool (d_opts d1) (d_trace d1).
Proof.
  unfold main. destruct args as [|arg args]; [by minv|]. unfold mbind at 1, M_bind at 1, d_emit at 1, modify at 1.
  unfold mbind at 1, M_bind at 1, d_getenv at 1, gets at 1. cbn [d_env dset_trace daemon_start].
  destruct (getopt_long _ _) as [[opts before] operands]. cbn [snd]. unfold try_catch.
  destruct ((handle_options moved opts ≫= _) _) as [[e|?|?] d2] eqn:E; [|by intros E'; minv|done].
  intros [= -> ->]. apply bind_Ok in E as ([code|] & d3 & E3 & E); [by minv|].
  unfold mbind at 1, M_bind at 1, get at 1 in E. destruct (o_check _); [by minv|].
  exact (run_daemon_execs _ _ _ _ _ _ _ E).
Qed.

(** Nothing was unpacked since [t]. *)
Definition unpacked_in (t : list devent) (d : dstate) : Prop := ∀ p, DExtract p ∈ d_trace d → DExtract p ∈ t.

Lemma unpacked_emit (t : list devent) (e : devent) :
  (∀ p, e ≠ DExtract p) → preserves (unpacked_in t) (d_emit e).
Proof.
  intros He. apply preserves_modify. intros d Hd p. cbn. rewrite elem_of_app, list_elem_of_singleton.
  intros [?|E]; [by apply Hd|]. by destruct (He p).
Qed.

Lemma unpacked_ask {A : Type} (t : list devent) (f : list devent → A) : preserves (unpacked_in t) (d_ask f).
Proof. apply preserves_gets. Qed.

Lemma unpacked_env (t : list devent) (f : dstate → gmap string string) :
  preserves (unpacked_in t) (modify (λ d, dset_env (f d) d)).
Proof. by apply preserves_modify. Qed.
#[local] Hint Resolve unpacked_ask unpacked_env : cti.
#[local] Hint Extern 1 (preserves (unpacked_in _) (d_emit _)) => apply unpacked_emit; intros ?; discriminate : cti.

Lemma unpacked_wait (t : list devent) (fuel : nat) (path : string) : preserves (unpacked_in t) (wait_for fuel path).
Proof. induction fuel as [|fuel IH]; cbn [wait_for]; unfold d_stat; preserve. Qed.
#[local] Hint Resolve unpacked_wait : cti.

Lemma unpacked_start (t : list devent) (fuel : nat) (tool man dir : string) (operands : list string) :
  preserves (unpacked_in t) (start_tool fuel tool man dir operands).
Proof.
  unfold start_tool, register_instance, tool_env, adjustPaths, exec_binary, wait_for_earlier, d_stat, d_setenv, d_getenv.
  preserve.
Qed.


(** The number of a workload manager is read back as that of its table. *)
Lemma wlm_number_read (w : Z) :
  d_wlmProto w ≠ ProtoNone → proto_of (atoi (to_string (d_wlm_type (d_wlmProto w)))) = Some (d_wlmProto w).
Proof.
  intros Hp. rewrite atoi_to_string by (by destruct (d_wlmProto w)). revert Hp. unfold d_wlmProto.
  destruct (proto_of w) as [p|] eqn:E; [|done]. intros _. cbn [default]. revert E. unfold proto_of.
  repeat case_match; intros [= <-]; cbn; repeat case_match; try done;
    repeat match goal with E : (_ && _) = true |- _ => apply andb_true_iff in E as [? ?] end.
  all: simpl in *; congruence.
Qed.

#[local] Ltac env_lookup := repeat first [rewrite lookup_insert_eq | rewrite lookup_insert_ne by done].

(** The names that are set, and the others. *)
Lemma env_after_set (tool man : string) (apath : option string) (e : gmap string string) :
  let e' := env_after tool man apath e in
  e' !! BE_GUARD_ENV_VAR = Some "1" ∧ e' !! TOOL_DIR_VAR = Some tool ∧ e' !! FILE_DIR_VAR = Some man ∧
  e' !! ROOT_DIR_VAR = Some man ∧ e' !! BIN_DIR_VAR = Some (man +:+ "/bin") ∧
  e' !! LIB_DIR_VAR = Some (man +:+ "/lib") ∧ e' !! SCRATCH_ENV_VAR = Some (man +:+ "/tmp") ∧
  (∀ a, apath = Some a → e' !! PMI_ATTRIBS_DIR_VAR = Some a) ∧
  e' !! APID_ENV_VAR = e !! APID_ENV_VAR ∧ e' !! WLM_ENV_VAR = e !! WLM_ENV_VAR.
Proof.
  cbv zeta. unfold env_after. destruct apath as [a|]; (destruct (<[ROOT_DIR_VAR := man]> _ !! SCRATCH_ENV_VAR));
    split_and!; try intros ? [= <-]; by env_lookup.
Qed.

(** What a tool finds in its environment: that it is on a compute node, the application, the
    directories of its session and where its programs, libraries and temporary files are, first in
    PATH its own programs; and a workload manager for which the backend library takes the functions
    that the daemon was told to use. *)
Theorem tool_environment (fuel : nat) (program : string) (args argv : list string) (path : string)
    (env0 env : gmap string string) (d : dstate) :
  main moved fuel program args (daemon_start env0) = (Ok (Execs path argv env), d) →
  ∃ tool man, o_path (d_opts d) = Some tool ∧
    (∀ x, o_directory (d_opts d) = Some x → man = tool +:+ "/" +:+ x) ∧
    env !! BE_GUARD_ENV_VAR = Some "1" ∧ env !! APID_ENV_VAR = o_apid (d_opts d) ∧
    env !! TOOL_DIR_VAR = Some tool ∧ env !! FILE_DIR_VAR = Some man ∧ env !! ROOT_DIR_VAR = Some man ∧
    env !! BIN_DIR_VAR = Some (man +:+ "/bin") ∧ env !! LIB_DIR_VAR = Some (man +:+ "/lib") ∧
    env !! SCRATCH_ENV_VAR = Some (man +:+ "/tmp") ∧
    env !! "LD_LIBRARY_PATH" = Some (default (man +:+ "/lib") (o_ldlibpath (d_opts d))) ∧
    (∃ rest, env !! "PATH" = Some (man +:+ "/bin" +:+ rest)) ∧
    (∀ a, o_apath (d_opts d) = Some a → env !! PMI_ATTRIBS_DIR_VAR = Some a) ∧
    ∃ v, env !! WLM_ENV_VAR = Some v ∧ proto_of (atoi v) = Some (d_wlmProto (o_wlm (d_opts d))).
Proof.
  intros E. apply main_execs in E as (d1 & apid & tool & man & dir & E & Hr & Hp & Hapid & Htool & Hdir & _).
  apply start_tool_run in E as (binary & t & _ & _ & _ & _ & -> & [_ Ho] & _).
  destruct Hr as (_ & Ha & Hw). rewrite Ho. exists tool, man. unfold adjusted_env.
  assert (∀ name, name ≠ "PATH" → name ≠ "LD_LIBRARY_PATH" → ∀ e : gmap string string,
    adjusted_env man (o_ldlibpath (d_opts d1)) e !! name = e !! name) as Hadj.
  { intros name H1' H2' e. unfold adjusted_env. by rewrite !lookup_insert_ne. }
  fold (adjusted_env man (o_ldlibpath (d_opts d1)) (env_after tool man (o_apath (d_opts d1)) (d_env d1))).
  rewrite !Hadj by done.
  destruct (env_after_set tool man (o_apath (d_opts d1)) (d_env d1)) as (? & ? & ? & ? & ? & ? & ? & ? & Ea & Ew).
  split_and!; try done.
  - by intros x [_ ?]%Hdir.
  - by rewrite Ea, Ha, Hapid.
  - unfold adjusted_env. by env_lookup.
  - unfold adjusted_env. env_lookup.
    destruct (env_after _ _ _ _ !! "PATH") as [p|];
      [exists (":" +:+ p); reflexivity|exists ""; by rewrite string_app_nil_r].
  - intros a Hattr. rewrite Hadj by done. auto.
  - exists (to_string (d_wlm_type (d_wlmProto (o_wlm (d_opts d1))))). rewrite Hadj, Ew, Hw by done.
    split; [done|by apply wlm_number_read].
Qed.

(** ** The wait ends *)

Definition naps (t : list devent) : nat := length (filter (eq DSleep) t).

Lemma naps_app (t t' : list devent) : naps (t ++ t') = (naps t + naps t')%nat.
Proof. unfold naps. by rewrite filter_app, length_app. Qed.

(** A file that is there after [n] naps is waited for until then at most. *)
Lemma wait_for_ends (n fuel : nat) (path : string) (d : dstate) :
  (∀ t, (n ≤ naps t)%nat → is_Some (k_stat t path)) → (n - naps (d_trace d) < fuel)%nat →
  ∃ d', wait_for fuel path d = (Ok tt, d') ∧
    (naps (d_trace d) ≤ naps (d_trace d') ≤ Nat.max n (naps (d_trace d)))%nat ∧ d_opts d' = d_opts d.
Proof.
  intros Hn. revert d. induction fuel as [|fuel IH]; intros d Hf; [lia|].
  cbn [wait_for]. rewrite (bind_run_Ok _ _ _ _ _ (d_stat_run path d)).
  assert (naps (d_trace d ++ [DStat path]) = naps (d_trace d)) as Hs.
  { rewrite naps_app. change (naps [DStat path]) with 0%nat. lia. }
  destruct (k_stat (d_trace d ++ [DStat path]) path) as [st|] eqn:E.
  { eexists. split; [reflexivity|]. cbn [d_trace dset_trace d_opts]. rewrite Hs. split; [lia|done]. }
  assert (naps (d_trace d) < n)%nat as Hlt.
  { destruct (decide (n ≤ naps (d_trace d)))%nat as [Hle|]; [|lia]. rewrite <-Hs in Hle.
    destruct (Hn _ Hle) as [? E']. by rewrite E in E'. }
  unfold d_emit, modify, mbind, M_bind. cbn [d_trace dset_trace].
  match goal with |- context [wait_for fuel path ?d2] => set (d2' := d2) end.
  assert (naps (d_trace d2') = S (naps (d_trace d))) as Hd2.
  { subst d2'. cbn [d_trace dset_trace]. rewrite naps_app, Hs. change (naps [DSleep]) with 1%nat. lia. }
  destruct (IH d2') as (d' & E' & Hb & Ho); [lia|]. exists d'. split; [exact E'|]. split; [lia|exact Ho].
Qed.

(** C35 The wait for earlier instances ends.  When every lock file that is waited for is there
    after some number of naps, the daemon goes on, and has napped no more often than that. *)
Theorem wait_for_earlier_ends (n fuel : nat) (tool dir : string) (d : dstate) :
  (∀ i t, 1 ≤ i < o_inst (d_opts d) → (n ≤ naps t)%nat → is_Some (k_stat t (lock_path tool dir i))) →
  (n < fuel)%nat → o_inst (d_opts d) ≠ int_min → naps (d_trace d) = 0%nat →
  ∃ d', wait_for_earlier fuel tool dir d = (Ok tt, d') ∧ (naps (d_trace d') ≤ n)%nat.
Proof.
  intros Hn Hf Hmin H0n. unfold wait_for_earlier. unfold mbind, M_bind, get, lift.
  destruct (earlier (o_inst (d_opts d))) as [l|?|?] eqn:El;
    [|unfold earlier in El; rewrite (proj2 (Z.eqb_neq _ _) Hmin) in El; done..].
  assert (∀ i, i ∈ l → 1 ≤ i < o_inst (d_opts d)) as Hl by (intros i; apply (elem_of_earlier _ _ El)).
  revert Hn Hl. generalize (o_inst (d_opts d)) as inst. intros inst Hn Hl. clear El Hmin.
  assert (naps (d_trace d) ≤ n)%nat as Hd by lia. clear H0n.
  induction l as [|i l IH] in d, Hd, Hl |- *; [by exists d|]. cbn [for_each].
  destruct (wait_for_ends n fuel (lock_path tool dir i) d) as (d1 & E & Hb & _);
    [intros t Ht; apply Hn; [apply Hl, list_elem_of_here|done]|lia|].
  rewrite (bind_run_Ok _ _ _ _ _ E). apply IH; [|lia]. intros j Hj. apply Hl. by apply list_elem_of_further.
Qed.

(** The daemon of the second instance, whose number is 1, waits for nothing: sessions count their
    instances from 0. *)
Lemma second_instance_waits_not (fuel : nat) (tool dir : string) (d : dstate) :
  o_inst (d_opts d) = 1 → wait_for_earlier fuel tool dir d = (Ok tt, d).
Proof. intros E. unfold wait_for_earlier, mbind, M_bind, get, lift. by rewrite E. Qed.

(** ** Cleaning up *)

Lemma recorded_bytes (pids : list Z) (arr : list Z) (n idx : nat) (pid : Z) :
  Forall (λ p, in_int p = true) pids → (4 * length pids ≤ n)%nat → idx = 0%nat ∨ idx = 1%nat → (1 < length arr)%nat →
  ∃ arr' idx', read_pids n (flat_map (enc_le 4) pids) arr idx pid = (arr', idx') ∧
    (pids = [] ∧ arr' = arr ∧ idx' = idx ∨ pids ≠ [] ∧ idx' = 1%nat ∧
     arr' !! 0%nat = if decide (idx = 0%nat) then head pids else arr !! 0%nat).
Proof.
  intros Hp. revert n arr idx pid. induction Hp as [|p pids Hp _ IH]; intros n arr idx pid Hn Hidx Harr.
  { exists arr, idx. split; [by destruct n|by left]. }
  cbn [length] in Hn. destruct n as [|n]; [lia|].
  assert (take 4 (enc_le 4 p ++ flat_map (enc_le 4) pids) = enc_le 4 p) as Ht by done.
  assert (drop 4 (enc_le 4 p ++ flat_map (enc_le 4) pids) = flat_map (enc_le 4) pids) as Hd by done.
  cbn [flat_map]. remember (enc_le 4 p ++ flat_map (enc_le 4) pids) as b eqn:Eb.
  cbn [read_pids]. destruct b as [|c b]; [discriminate Eb|]. rewrite Ht, Hd.
  replace (length (enc_le 4 p)) with 4%nat by done. rewrite dec_int_enc by done. change (4 / 4)%nat with 1%nat.
  destruct (IH n (<[idx := p]> arr) 1%nat p) as (arr' & idx' & E & Hr); [lia|by right|by rewrite length_insert|].
  exists arr', idx'. split; [exact E|]. right. split; [done|].
  assert (<[idx := p]> arr !! 0%nat = if decide (idx = 0%nat) then Some p else arr !! 0%nat) as H0a.
  { destruct Hidx as [-> | ->]; [by rewrite list_lookup_insert_eq by lia|by rewrite list_lookup_insert_ne]. }
  destruct Hr as [(-> & -> & ->)|(_ & -> & E0)]; (split; [done|]); [exact H0a|]. cbn in E0. by rewrite E0.
Qed.

Lemma recorded_first (pids : list Z) :
  Forall (λ p, in_int p = true) pids → recorded_pids (flat_map (enc_le 4) pids) = take 1 pids.
Proof.
  intros Hp. unfold recorded_pids.
  destruct (recorded_bytes pids (replicate 32 0) (length (flat_map (enc_le 4) pids)) 0 k_uninit)
    as (arr & idx & -> & [(-> & -> & ->)|(Hne & -> & E0)]); [done| |by left|cbn; lia|done|].
  { rewrite (flat_map_constant_length (c := 4)); [lia|]. intros; apply length_enc_le. }
  cbn in E0. destruct pids as [|p pids]; [done|]. destruct arr as [|a arr]; [done|]. by injection E0 as ->.
Qed.

(** The kills that may have been done. *)
Definition kills_in (t : list devent) (allowed : list Z) (d : dstate) : Prop :=
  ∀ pid, DKill pid ∈ d_trace d → DKill pid ∈ t ∨ pid ∈ allowed.

Lemma kills_emit (t : list devent) (allowed : list Z) (e : devent) :
  (∀ pid, e = DKill pid → pid ∈ allowed) → preserves (kills_in t allowed) (d_emit e).
Proof.
  intros He. apply preserves_modify. intros d Hd pid. cbn. rewrite elem_of_app, list_elem_of_singleton.
  intros [?|E]; [by apply Hd|right; by apply He].
Qed.

Lemma kills_ask {A : Type} (t : list devent) (allowed : list Z) (f : list devent → A) :
  preserves (kills_in t allowed) (d_ask f).
Proof. apply preserves_gets. Qed.
#[local] Hint Resolve kills_ask : cti.
#[local] Hint Extern 1 (preserves (kills_in _ _) (d_emit _)) =>
  apply kills_emit; intros ?; first [discriminate | intros [= <-]; assumption] : cti.

Lemma kills_past_sessions (t : list devent) (allowed : list Z) (tool : string) :
  preserves (kills_in t allowed) (remove_past_sessions tool).
Proof. unfold remove_past_sessions, session_files_in_use, d_remove_dir. preserve. Qed.
#[local] Hint Resolve kills_past_sessions : cti.

(** A clean-up kills at most one process: of a file with the processes of all instances of a
    session, written one after the other as the daemons do, only the first.  Where the next number
    goes is set to how many were read each time, and never counted up. *)
Theorem cleanup_kills_first (pids : list Z) (tool man dir : string) (d : dstate) :
  Forall (λ p, in_int p = true) pids →
  k_open (d_trace d) (man +:+ "/" +:+ PID_FILE) = Some (flat_map (enc_le 4) pids) →
  ∀ pid, DKill pid ∈ d_trace (cleanup_session tool man dir d).2 → DKill pid ∈ d_trace d ∨ head pids = Some pid.
Proof.
  intros Hp E pid Hk. unfold cleanup_session, d_ask in Hk. unfold mbind at 1 2, M_bind at 1 2, get, gets in Hk.
  rewrite E, recorded_first in Hk by done.
  assert (kills_in (d_trace d) (take 1 pids) d) as Hd by (intros ?; by left).
  assert (∀ m : M dstate daemon_end, preserves (kills_in (d_trace d) (take 1 pids)) m →
          DKill pid ∈ d_trace (m d).2 → DKill pid ∈ d_trace d ∨ head pids = Some pid) as Hm.
  { intros m Hm Hin. destruct (Hm d Hd pid Hin) as [?|Hin']; [by left|right].
    destruct pids as [|p pids]; [by apply elem_of_nil in Hin'|]. apply list_elem_of_singleton in Hin' as ->. done. }
  eapply Hm, Hk. unfold kill_recorded, d_remove_dir. preserve.
Qed.
End Daemon.
