(* ===== verification/BeCheck.v ===== *)
(** * The backend daemon: the check for files, and runs at concrete inputs

    What the daemons of all nodes report of files, and what the frontend makes of it. *)

From S2P Require Import Prelude Host Wire BackendFiles System SlurmJobs Requests Argv Archive Manifest Session Paths.
From S2P Require Import SlurmLayout SlurmArgs ConfigDir Daemon FEIface SlurmApp SlurmAppProofs.
From S2P Require Import Detect BeState BePals BeLib BeOptions BeDaemon BeOptionProofs BeDaemonProofs.

(** ** The check for files *)

Definition file_args (paths : list string) : list string := map (λ path, "--file=" +:+ path) paths.

(** What is printed on the standard output. *)
Definition printed (t : list devent) : list string :=
  flat_map (λ e, match e with DOut line => [line] | _ => [] end) t.

Lemma printed_app (t t' : list devent) : printed (t ++ t') = printed t ++ printed t'.
Proof. apply flat_map_app. Qed.

Lemma printed_outs (l : list string) : printed (map DOut l) = l.
Proof. induction l as [|x l IH]; [done|]. change (x :: printed (map DOut l) = x :: l). by rewrite IH. Qed.

Section Check.
Context `{Compute} `{LibPals} `{Build}.
Context (moved : nat → bool).

Lemma getopt_files (posix : bool) (paths : list string) :
  (getopt_long posix (file_args paths)).1.1 = map (λ p, POpt "f" (Some p)) paths.
Proof.
  induction paths as [|p paths IH]; [done|]. unfold file_args in *. cbn [map getopt_long].
  change (classify ("--file=" +:+ p)) with (AOptions (SDone [POpt "f" (Some p)])).
  destruct (getopt_long posix (map _ paths)) as [[opts before] behind]. cbn in *. by rewrite IH.
Qed.

Lemma handle_files (ex : string → bool) (paths : list string) (d : dstate) :
  (∀ t p, k_exists t p = ex p) →
  ∃ d', handle_options moved (map (λ p, POpt "f" (Some p)) paths) d = (Ok None, d') ∧
    d_trace d' = d_trace d ++ map DOut (List.filter ex paths) ∧
    (paths ≠ [] → o_check (d_opts d') = true).
Proof.
  intros Hex. revert d. induction paths as [|p paths IH]; intros d.
  { exists d. split_and!; [done|by rewrite app_nil_r|done]. }
  cbn [map handle_options List.filter].
  set (d1 := if ex p then dset_trace (d_trace d ++ [DOut p]) d else d).
  assert (handle_option moved (POpt "f" (Some p)) d = (Ok None, dset_opts (set_option "f" p (d_opts d1)) d1)) as E1.
  { unfold handle_option. cbn [default]. rewrite !decide_False by done. rewrite decide_True by done.
    unfold d_ask, gets, mbind, M_bind. rewrite Hex. unfold d1, id.
    by destruct (ex p). }
  rewrite (bind_run_Ok _ _ _ _ _ E1). destruct (IH (dset_opts (set_option "f" p (d_opts d1)) d1)) as (d' & E & Ht & Hc).
  exists d'. split; [exact E|]. split.
  - rewrite Ht. unfold d1. cbn. destruct (ex p); [|done]. cbn. by rewrite <-app_assoc.
  - intros _. destruct paths as [|q paths]; [|by apply Hc]. injection E as <-.
    unfold d1. destruct d as [e t o s]. by destruct o, (ex p).
Qed.

(** A daemon that is asked for files prints those there are, and an empty line. *)
Lemma file_check_run (ex : string → bool) (paths : list string) (fuel : nat) (program : string)
    (env : gmap string string) :
  (∀ t p, k_exists t p = ex p) → paths ≠ [] →
  ∃ d, main moved fuel program (file_args paths) (daemon_start env) = (Ok (Exits 0), d) ∧
    printed (d_trace d) = List.filter ex paths ++ [""].
Proof.
  intros Hex Hne. unfold main. destruct (file_args paths) as [|a l] eqn:Ea.
  { by destruct paths. }
  rewrite <-Ea. unfold mbind at 1, M_bind at 1, d_emit at 1, modify at 1.
  unfold mbind at 1, M_bind at 1, d_getenv at 1, gets at 1. cbn [d_env dset_trace daemon_start].
  pose proof (getopt_files (bool_decide (is_Some (env !! "POSIXLY_CORRECT"))) paths) as Hopts.
  destruct (getopt_long _ (file_args paths)) as [[opts before] operands]. cbn [fst] in Hopts. subst opts.
  match goal with |- context [try_catch _ _ ?d0] => set (d1 := d0) end.
  destruct (handle_files ex paths d1 Hex) as (d2 & E & Ht & Hc).
  eexists. split.
  - apply try_catch_run_Ok. rewrite (bind_run_Ok _ _ _ _ _ E). unfold mbind at 1, M_bind at 1, get.
    rewrite Hc by done. reflexivity.
  - cbn [d_trace dset_trace]. rewrite Ht. unfold d1. cbn [d_trace dset_trace]. by rewrite !printed_app, printed_outs.
Qed.
End Check.

(** ** All nodes of a job *)

(** A node, and which files are on it. *)
Record check_node : Type := CheckNode {
  cn_node : Compute; cn_exists : string → bool;
  cn_answers : ∀ t p, @k_exists cn_node t p = cn_exists p
}.

(** What the daemon prints on a node. *)
Definition node_output `{LibPals} `{Build} (moved : nat → bool) (program : string) (paths : list string) (n : check_node)
    : list string :=
  printed (d_trace (@main (cn_node n) _ _ moved 0 program (file_args paths) (daemon_start ∅)).2).

(** What a node reports: the files of the list that it has. *)
Definition node_report (paths : gset string) (n : check_node) : list string :=
  List.filter (cn_exists n) (sorted_elements paths).

Lemma node_output_report `{LibPals} `{Build} (moved : nat → bool) (program : string) (paths : gset string)
    (n : check_node) :
  paths ≠ ∅ → node_output moved program (sorted_elements paths) n = ends_node (node_report paths n).
Proof.
  intros Hne. assert (sorted_elements paths ≠ []) as Hs.
  { intros E. apply Hne. apply set_eq. intros x. rewrite <-elem_of_sorted_elements, E. set_solver. }
  unfold node_output.
  destruct (@file_check_run (cn_node n) _ _ moved (cn_exists n) (sorted_elements paths) 0 program ∅ (cn_answers n) Hs)
    as (d & E & Hp).
  rewrite E. exact Hp.
Qed.

Lemma elem_of_node_report (paths : gset string) (n : check_node) (p : string) :
  p ∈ node_report paths n ↔ p ∈ paths ∧ cn_exists n p = true.
Proof.
  unfold node_report. by rewrite list_elem_of_In, List.filter_In, <-list_elem_of_In, elem_of_sorted_elements.
Qed.

(** A character that no path has is in no line of the nodes. *)
Lemma lines_no_char (c : ascii) (paths : gset string) (nodes : list check_node) (lines : list string) :
  (∀ p, p ∈ paths → no_char c p = true) →
  interleaves (map ends_node (map (node_report paths) nodes)) lines →
  Forall (λ l, no_char c l = true) lines.
Proof.
  intros Hc Hm%interleaves_Permutation. rewrite Hm, map_map. apply Forall_concat, Forall_map, Forall_forall.
  intros n _. unfold ends_node. apply Forall_app. split; [|by repeat constructor].
  apply Forall_forall. intros l [Hl _]%elem_of_node_report. by apply Hc.
Qed.

Lemma all_reported (paths : gset string) (nodes : list check_node) (p : string) :
  (map (node_report paths) nodes ≠ [] ∧ Forall (elem_of p) (map (node_report paths) nodes)) ↔
  nodes ≠ [] ∧ p ∈ paths ∧ Forall (λ n, cn_exists n p = true) nodes.
Proof.
  rewrite Forall_map. split.
  - intros [Hn Hall]. assert (nodes ≠ []) as Hn' by (by intros ->). split; [done|].
    assert (∀ n, n ∈ nodes → p ∈ paths ∧ cn_exists n p = true) as Hin.
    { intros n Hn1. rewrite Forall_forall in Hall. by apply elem_of_node_report, Hall. }
    split; [destruct nodes as [|n nodes]; [done|]; apply (Hin n), list_elem_of_here|].
    rewrite Forall_forall. intros n Hn1. by apply Hin.
  - intros (Hn & Hp & Hall). split; [by destruct nodes|]. apply (Forall_impl _ _ _ Hall). intros n En.
    by apply elem_of_node_report.
Qed.

(** C14 The check for files, from the frontend over the daemons to the frontend.  A Slurm application
    whose daemon was sent asks for paths that are not empty and have no newline and no byte 255; a
    daemon runs on every node with the arguments after the daemon's own path in the command, and what
    is in the pipe are the lines of all daemons, each with a newline, in some order that keeps the order of
    each daemon.  Then the paths that are found are exactly those that are there on all nodes. *)
Theorem files_checked_on_all_nodes `{LibPals} `{Build} `{Host} `{Commands} `{FrontendDaemon} `{InstalledPrograms}
    (moved : nat → bool) (app : SLURMApp) (st : app_state) (program : string) (paths : gset string)
    (nodes : list check_node) (lines argv : list string) :
  as_sent st = true → paths ≠ ∅ →
  (∀ p, p ∈ paths → p ≠ "" ∧ no_char "010" p = true ∧ no_char "255" p = true) →
  generateDaemonLauncherArgv (sys_env (as_sys st)) (m_fe app) (m_launcherName app) (m_gresSetting app)
    (m_stepLayout app) (daemon_path app :: file_args (sorted_elements paths)) = Ok argv →
  Z.of_nat (length nodes) = getNumHosts (m_stepLayout app) →
  interleaves (map (node_output moved program (sorted_elements paths)) nodes) lines →
  req_util_output (sys_trace (as_sys st) ++ [SUtil argv blacklist_env]) = Ok (unlines lines) →
  ∃ found st', SlurmApp.checkFilesExist app paths st = (Ok found, st') ∧
    ∀ p, p ∈ found ↔ nodes ≠ [] ∧ p ∈ paths ∧ Forall (λ n, cn_exists n p = true) nodes.
Proof.
  intros Hsent Hne Hpaths Hargv Hlen Hmerge Hout.
  assert (map (node_output moved program (sorted_elements paths)) nodes
          = map ends_node (map (node_report paths) nodes)) as Em.
  { rewrite map_map. apply map_ext. intros n. by apply node_output_report. }
  rewrite Em in Hmerge.
  destruct (files_on_all_nodes app paths st argv lines (map (node_report paths) nodes)) as (found & st' & E & Hf);
    [done..| | | | |done|].
  - apply no_char_unlines; [done|]. eapply lines_no_char, Hmerge. intros p Hp. by apply Hpaths.
  - eapply lines_no_char, Hmerge. intros p Hp. by apply Hpaths.
  - by rewrite length_map.
  - rewrite Forall_map. apply Forall_forall. intros n _. split.
    + apply NoDup_ListNoDup, List.NoDup_filter, NoDup_ListNoDup, NoDup_sorted_elements.
    + intros [Hp _]%elem_of_node_report. by destruct (Hpaths _ Hp).
  - exists found, st'. split; [exact E|]. intros p. by rewrite Hf, all_reported.
Qed.

(** ** Runs at concrete inputs *)

#[local] Instance demo_build : Build := {| HAVE_ALPS := true; HAVE_PALS := true; HAVE_FLUX := true |}.

#[local] Instance no_libpals : LibPals := {|
  lp_dlopen _ := false; lp_dlsym _ _ := false; lp_init := false; lp_nodes := None; lp_nodeidx := None; lp_pes := None
|}.

(** A node of these directories and files, on which the lock file of instance 1 appears once the
    daemon has napped twice. *)
Definition demo_stat (t : list devent) (path : string) : option stat_buf :=
  if bool_decide (path ∈ ["/tmp"; "/tmp/cti_daemonX"]) then Some (MkStat TDir 7 7 448)
  else if bool_decide (path ∈ ["/tmp/cti_daemonX2.tar"; "/tmp/cti_daemonX/bin/tool"]) then Some (MkStat TReg 7 7 448)
  else if bool_decide (path = "/tmp/.lock_cti_daemonX_1") && (2 <=? naps t)%nat then Some (MkStat TReg 7 7 384)
  else None.

#[local] Instance demo_compute : Compute := {|
  k_exists _ p := bool_decide (p ∈ ["/a"; "/b"]); k_stat := demo_stat;
  k_open _ p := if bool_decide (p = "/tmp/cti_daemonX/.cti_pids") then Some (flat_map (enc_le 4) [41; 42; 43]) else None;
  k_append _ _ := true; k_write _ := true; k_create _ _ := true; k_writable _ _ := true; k_chmod _ _ := true;
  k_chdir _ _ := true; k_mkdir _ _ := true; k_cwd := Some "/"; k_uid := 7; k_groups := Some []; k_rlimit := Some 1024;
  k_pid := 44; k_hostname := Some "nid1";
  k_archive _ _ := (0, [Some ("cti_daemonX/bin/tool", true, true)]);
  k_alive _ _ := true; k_dir _ _ := Dir [(".", Closed); ("..", Closed)]; k_lsof _ _ := Some 1; k_exec _ _ := true;
  k_uninit := 0
|}.

Definition demo_args : list string :=
  ["--apid=1.0"; "--path=/tmp"; "--wlm=2"; "--manifest=cti_daemonX2.tar"; "--binary=tool"; "--directory=cti_daemonX";
   "--inst=2"; "--env=A=1"; "--env=A=2"; "--"; "-x"; "y"].

#[local] Abbreviation demo_run := (main (λ _, true) 9 "/bin/cti_be_daemon" demo_args (daemon_start ∅)).

(** What a run executes. *)
Definition execs (r : res daemon_end) : option (string * list string) :=
  match r with Ok (Execs path args _) => Some (path, args) | _ => None end.

Lemma demo_execs : ∃ env d,
  demo_run = (Ok (Execs "/tmp/cti_daemonX/bin/tool" ["/tmp/cti_daemonX/bin/tool"; "-x"; "y"] env), d) ∧
  o_directory (d_opts d) = Some "cti_daemonX" ∧ o_path (d_opts d) = Some "/tmp" ∧ o_inst (d_opts d) = 2.
Proof.
  assert (execs demo_run.1 = Some ("/tmp/cti_daemonX/bin/tool", ["/tmp/cti_daemonX/bin/tool"; "-x"; "y"])) as E1
    by (vm_compute; reflexivity).
  assert ((o_directory (d_opts demo_run.2), o_path (d_opts demo_run.2), o_inst (d_opts demo_run.2)) =
          (Some "cti_daemonX", Some "/tmp", 2)) as E2 by (vm_compute; reflexivity).
  destruct demo_run as [[[code|path args env]|?|?] d]; [discriminate E1| |discriminate E1..].
  injection E1 as -> ->. injection E2 as ? ? ?. by exists env, d.
Qed.


Lemma tool_environment_witness : ∃ env d,
  demo_run = (Ok (Execs "/tmp/cti_daemonX/bin/tool" ["/tmp/cti_daemonX/bin/tool"; "-x"; "y"] env), d) ∧
  env !! FILE_DIR_VAR = Some "/tmp/cti_daemonX".
Proof.
  destruct demo_execs as (env & d & E & Hdir & Hpath & _). exists env, d. split; [exact E|].
  destruct (tool_environment (λ _, true) 9 "/bin/cti_be_daemon" demo_args
    ["/tmp/cti_daemonX/bin/tool"; "-x"; "y"] "/tmp/cti_daemonX/bin/tool" ∅ env d E)
    as (tool & man & Ht & Hd & _ & _ & _ & Hf & _).
  rewrite Hpath in Ht. injection Ht as <-. rewrite Hf, (Hd _ Hdir). reflexivity.
Defined.

Lemma wait_for_earlier_ends_witness : ∃ d',
  wait_for_earlier 3 "/tmp" "cti_daemonX" (dset_opts (set_option "i" "2" no_opts) (daemon_start ∅)) = (Ok tt, d') ∧
  (naps (d_trace d') ≤ 2)%nat.
Proof.
  apply (wait_for_earlier_ends 2 3 "/tmp" "cti_daemonX"); [|lia|done|done].
  intros i t Hi Ht. change (o_inst _) with 2 in Hi. assert (i = 1) as -> by lia.
  exists (MkStat TReg 7 7 384). unfold k_stat, demo_compute, demo_stat.
  rewrite (proj2 (Nat.leb_le _ _)) by done. reflexivity.
Defined.

Lemma cleanup_kills_first_witness :
  DKill 42 ∉ d_trace (cleanup_session "/tmp" "/tmp/cti_daemonX" "cti_daemonX" (daemon_start ∅)).2.
Proof.
  intros Hin. destruct (cleanup_kills_first [41; 42; 43] "/tmp" "/tmp/cti_daemonX" "cti_daemonX" (daemon_start ∅)) with 42
    as [Hn|Hn]; [by repeat constructor|reflexivity|exact Hin|by apply elem_of_nil in Hn|discriminate Hn].
Defined.

Lemma first_setting_wins_witness : ∃ d',
  (handle_options (λ _, true) (map param_parsed (env_params ["A=1"; "B=2"; "A=3"]));; process_env) (daemon_start ∅)
    = (Ok tt, d') ∧ d_env d' !! "A" = Some "1".
Proof.
  destruct (first_setting_wins (λ _, true) [("A", "1"); ("B", "2"); ("A", "3")] (daemon_start ∅)) as (d' & E & _ & He).
  { by repeat constructor. }
  { by repeat constructor. }
  { cbn. unfold CTI_DEFAULT_STACK. lia. }
  { done. }
  exists d'. split; [exact E|]. rewrite He. reflexivity.
Defined.

Definition demo_check_node (files : list string) : check_node :=
  CheckNode {|
    k_exists _ p := bool_decide (p ∈ files); k_stat := demo_stat; k_open _ _ := None; k_append _ _ := true;
    k_write _ := true; k_create _ _ := true; k_writable _ _ := true; k_chmod _ _ := true; k_chdir _ _ := true;
    k_mkdir _ _ := true; k_cwd := None; k_uid := 7; k_groups := None; k_rlimit := None; k_pid := 1; k_hostname := None;
    k_archive _ _ := (1, []); k_alive _ _ := true; k_dir _ _ := Closed; k_lsof _ _ := None; k_exec _ _ := true;
    k_uninit := 0 |} (λ p, bool_decide (p ∈ files)) (λ _ _, eq_refl).

Lemma files_checked_on_all_nodes_witness :
  let nodes := [demo_check_node ["/a"; "/b"]; demo_check_node ["/b"]] in
  let D := demo_frontend_daemon (λ _, unlines ["/a"; "/b"; "/b"; ""; ""]) (λ _, true) "" "" in
  let C := scripted [] in
  let I := demo_programs in
  ∃ found st', SlurmApp.checkFilesExist demo_slurm_app {["/a"; "/b"]} (MkAppState (MkSys ∅ []) true) = (Ok found, st') ∧
    "/b" ∈ found ∧ "/a" ∉ found.
Proof.
  intros nodes D C I.
  assert (map (node_output (λ _, true) "/d" (sorted_elements {["/a"; "/b"]})) nodes = [["/a"; "/b"; ""]; ["/b"; ""]]) as Eo
    by (vm_compute; reflexivity).
  edestruct (files_checked_on_all_nodes (λ _, true) demo_slurm_app (MkAppState (MkSys ∅ []) true) "/d" {["/a"; "/b"]}
    nodes ["/a"; "/b"; "/b"; ""; ""]) as (found & st' & E & Hf).
  - reflexivity.
  - intros E. apply (not_elem_of_empty (C := gset string) "/a"). rewrite <-E.
    by apply elem_of_union; left; apply elem_of_singleton.
  - intros p [->%elem_of_singleton| ->%elem_of_singleton]%elem_of_union; by split_and!.
  - vm_compute. reflexivity.
  - reflexivity.
  - rewrite Eo. eapply (interleaves_cons _ 0); [reflexivity|]. eapply (interleaves_cons _ 0); [reflexivity|].
    eapply (interleaves_cons _ 1); [reflexivity|]. eapply (interleaves_cons _ 1); [reflexivity|].
    eapply (interleaves_cons _ 0); [reflexivity|]. apply interleaves_nil. repeat constructor.
  - reflexivity.
  - exists found, st'. split; [exact E|]. rewrite !Hf. split.
    + split; [done|]. split; [by apply elem_of_union; right; apply elem_of_singleton|repeat constructor].
    + intros (_ & _ & Hall). unfold nodes in Hall. rewrite !Forall_cons in Hall.
      destruct Hall as (_ & Hx & _). change (bool_decide ("/a" ∈ ["/b"]) = true) in Hx. discriminate Hx.
Defined.

Definition demo_session : session := MkSession ∅ true 0 3 ∅ ∅ "cti_daemonX" "/stage" "2" "".

Lemma session_options_read_witness :
  match exec_argv demo_session "cti_daemonX2.tar" "tool" (Some ["-x"; "y"]) (Some ["A=1"]) with
  | Ok v =>
      (getopt_long false (until_null (drop 1 v))).2 = ["-x"; "y"] ∧
      ∃ d', handle_options (λ _, true) (getopt_long false (until_null (drop 1 v))).1.1 (daemon_start ∅) = (Ok None, d') ∧
        d_opts d' = MkOpts (Some "1234.0") (Some "tool") false (Some "cti_daemonX") 3 (Some "cti_daemonX2.tar")
                      (Some "/tmp") None None 2 false false
  | _ => False
  end.
Proof.
  destruct (exec_argv demo_session "cti_daemonX2.tar" "tool" (Some ["-x"; "y"]) (Some ["A=1"])) as [v|?|?] eqn:E;
    [|vm_compute in E; discriminate E..].
  destruct (session_options_read (λ _, true) demo_session "cti_daemonX2.tar" "tool" (Some ["-x"; "y"]) (Some ["A=1"]) v
              false (daemon_start ∅)) as [Hops (d' & Ed & Ho & _)]; try reflexivity.
  - repeat (apply Forall_cons_2; [split; reflexivity|]). apply Forall_nil_2.
  - repeat (apply Forall_cons_2; [reflexivity|]). apply Forall_nil_2.
  - apply Nat.leb_le. reflexivity.
  - exact E.
  - split; [exact Hops|]. exists d'. split; [exact Ed|]. rewrite Ho. reflexivity.
Defined.
