(* ===== verification/LocalApp.v ===== *)
(** * Localhost: applications (src/src/frontend/frontend_impl/Localhost/Frontend.cpp)

    A stand-in for a workload manager: the processes of an application are children of this
    process, or are found below a process that runs.  Launching with the variables that a
    simple MPI reads, the file of process numbers, packages and daemons as files beside the
    processes, and the search in the tree of processes. *)

From S2P Require Import Prelude Split Host System SlurmJobs Wire Daemon Handlers FEIface ConfigDir Requests.

(** What the operating system answers: the number of a new process (negative when there is
    none), whether a file could be renamed or linked, with the text of the error, and what
    /proc says of processes: the first line of comm and the words of children. *)
Class LocalHost : Type := {
  fork_pid : list sys_event → Z;
  fs_rename : list sys_event → option string;
  fs_link : list sys_event → option string;
  proc_comm : string → option string;
  proc_children : string → option (list string);
  local_hostname : string
}.

(** [atoi], which is undefined outside the range of int. *)
Definition atoi (s : string) : res Z :=
  match Prelude.read_int s with
  | Some (z, _) => if in_int z then Ok z else Undef "atoi"
  | None => Ok 0
  end.

(** The number of processes after the first "-n" that something follows, and the program with
    its arguments: what comes after the number, or everything. *)
Fixpoint count_argument (args : list string) : option (string * list string) :=
  match args with
  | [] => None
  | arg :: args' =>
      match args' with
      | count :: rest => if bool_decide (arg = "-n") then Some (count, rest) else count_argument args'
      | [] => None
      end
  end.

Definition split_arguments (launcher_argv : list string) : res (Z * list string) :=
  match count_argument launcher_argv with
  | Some (count, rest) => n ← atoi count; mret (n, rest)
  | None => Ok (1, launcher_argv)
  end.

(** ** Applications *)

Record LocalhostApp : Type := MkLocalApp {
  m_frontend : frontend_data;
  m_id : string;
  m_appPEs : list Z;
  m_toolPath : string;
  m_attribsPath : string;
  m_stagePath : string;
  m_extraFiles : list string;
  getBEDaemonName : string
}.

(** What operations change: m_lockFile, m_cleanupFiles and m_beDaemonSent. *)
Record app_state : Type := MkAppState {
  as_sys : sys; as_lockFile : string; as_cleanup : list string; as_sent : bool
}.

Definition on_sys {A : Type} (m : M sys A) : M app_state A :=
  zoom as_sys (λ s st, MkAppState s (as_lockFile st) (as_cleanup st) (as_sent st)) m.

Definition add_cleanup (path : string) : M app_state () :=
  modify (λ st, MkAppState (as_sys st) (as_lockFile st) (as_cleanup st ++ [path]) (as_sent st)).

(** The last part of a path. *)
Definition path_filename (p : string) : string :=
  match last_slash p with Some i => drop_str (S i) p | None => p end.

Section App.
Context `{Host} `{FrontendDaemon} `{LocalHost}.

(** [writeAppPEs]: the number of processes and the processes, a line each. *)
Definition writeAppPEs (stagePath : string) (appPEs : list Z) : M sys string :=
  write_file (stagePath +:+ "/slurm_pid") "failed to open path "
    (Ok (list_ascii_of_string (unlines (to_string (Z.of_nat (length appPEs)) :: map to_string appPEs)))).

(** The processes of the ranks from [rank] on, in this process: a child that could not execute
    the program is not part of this. *)
Fixpoint fork_ranks (n : nat) (rank : Z) (appArgs env : list string) : M sys (list Z) :=
  match n with
  | O => mret []
  | S n' =>
      sys_emit (SFork appArgs (env ++ ["CTI_LOCALHOST_RANK=" +:+ to_string rank]));;
      s ← get;
      let pid := fork_pid (sys_trace s) in
      if 0 <? pid then pids ← fork_ranks n' (rank + 1) appArgs env; mret (pid :: pids)
      else throw "fork failed"
  end.

(** The number of an application within the process. *)
Definition app_id (self nextId : Z) : string := to_string self +:+ "." +:+ to_string nextId.

Definition environ (env : gmap string string) : list string :=
  map (λ '(name, value), name +:+ "=" +:+ value) (map_to_list env).

Definition lock_path (toolPath id : string) : string := toolPath +:+ "/cti.lock." +:+ id.

(** The file whose removal lets the processes go on, if it can be made. *)
Definition make_lock (stopAtBarrier : bool) (toolPath id : string) : M sys string :=
  if negb stopAtBarrier then mret ""
  else
    let lockFile := lock_path toolPath id in
    s ← get;
    if req_open (sys_trace s) lockFile then sys_emit (SWrite lockFile []);; mret lockFile else mret "".

(** The constructor that launches.  [self] is the process number, [nextId] the counter, and
    [beDaemonName] the name with its random characters; descriptors, the input file, the
    directory and the variables of the request are not used. *)
Definition LocalhostApp_launch (fd : frontend_data) (beDaemonName : string) (self nextId : Z)
    (launcher_argv : list string) (stopAtBarrier : bool) : M sys (LocalhostApp * string) :=
  let id := app_id self nextId in
  toolPath ← findToolPath id;
  s ← get;
  stagePath ← lift (req_mkdtemp (sys_trace s) (m_cfg_dir fd +:+ "/slurmXXXXXX"));
  '(numPEs, appArgs) ← lift (split_arguments launcher_argv);
  lockFile ← make_lock stopAtBarrier toolPath id;
  s ← get;
  let env := environ (sys_env s) ++
             (if is_empty lockFile then [] else ["CTI_LOCALHOST_LOCK_FILE=" +:+ lockFile]) ++
             ["CTI_LOCALHOST_NUM_RANKS=" +:+ to_string numPEs] in
  appPEs ← fork_ranks (Z.to_nat numPEs) 0 appArgs env;
  pidFile ← writeAppPEs stagePath appPEs;
  mret (MkLocalApp fd id appPEs toolPath toolPath stagePath [pidFile] beDaemonName, lockFile).

(** The constructor for processes that run. *)
Definition LocalhostApp_attach (fd : frontend_data) (beDaemonName : string) (self nextId : Z) (appPEs : list Z)
    : M sys LocalhostApp :=
  let id := app_id self nextId in
  toolPath ← findToolPath id;
  s ← get;
  stagePath ← lift (req_mkdtemp (sys_trace s) (m_cfg_dir fd +:+ "/slurmXXXXXX"));
  pidFile ← writeAppPEs stagePath appPEs;
  mret (MkLocalApp fd id appPEs toolPath toolPath stagePath [pidFile] beDaemonName).

(** The state of an application that was just made. *)
Definition initial_state (app : LocalhostApp) (lockFile : string) (s : sys) : app_state :=
  MkAppState s lockFile [m_stagePath app] false.

(** The destructor: the files to clean up, and what a package was unpacked to.  For a path of
    four characters the position before its end is that of "not found", so erasing throws out
    of the destructor. *)
Definition cleanup_file (file : string) : M sys () :=
  sys_emit (SRemove file);;
  match find_sub "1.tar" file with
  | Some (before, rest) =>
      if is_empty rest then sys_emit (SRemove before) else mret tt
  | None => if (String.length file =? 4)%nat then undef "std::terminate" else mret tt
  end.

Definition LocalhostApp_delete : M app_state () :=
  st ← get; on_sys (for_each (as_cleanup st) cleanup_file).

Definition getJobId (app : LocalhostApp) : string := m_id app.

Definition getLauncherHostname (app : LocalhostApp) : res string :=
  Throw "not supported for WLM: getLauncherHostname".

Definition isRunning (app : LocalhostApp) : bool := negb (bool_decide (m_appPEs app = [])).

Definition getNumPEs (app : LocalhostApp) : Z := Z.of_nat (length (m_appPEs app)).

Definition getHostnameList (app : LocalhostApp) : list string := [local_hostname].

(** The ranks, under the name of the host. *)
Definition getBinaryRankMap (app : LocalhostApp) : gmap string (list Z) :=
  {[ local_hostname := map Z.of_nat (seq 0 (length (m_appPEs app))) ]}.

Definition getHostsPlacement (app : LocalhostApp) : list (string * Z) :=
  [(local_hostname, Z.of_nat (length (m_appPEs app)))].

(** What removing the file gives is not looked at. *)
Definition releaseBarrier : M app_state () :=
  st ← get;
  if is_empty (as_lockFile st) then mret tt
  else
    on_sys (sys_emit (SRemove (as_lockFile st)));;
    modify (λ st, MkAppState (as_sys st) "" (as_cleanup st) (as_sent st)).

Definition kill (app : LocalhostApp) (signum : Z) : M sys () :=
  for_each (m_appPEs app) (λ pid, sys_emit (SSignal pid signum)).

(** A package is moved. *)
Definition shipPackage (app : LocalhostApp) (tarPath : string) : M app_state () :=
  let to := path_join (m_toolPath app) (path_filename tarPath) in
  on_sys (sys_emit (SRename tarPath to);;
          s ← get;
          match fs_rename (sys_trace s) with Some what => throw what | None => mret tt end);;
  add_cleanup to.

Definition ship_daemon (app : LocalhostApp) : M app_state () :=
  let sourcePath := m_be_daemon_path (m_frontend app) in
  if is_empty sourcePath
  then throw ("Unable to locate backend daemon binary. Try setting " +:+ CTI_INSTALL_DIR +:+
              " environment variable to the install location of CTI.")
  else
    let daemonPath := m_cfg_dir (m_frontend app) +:+ "/" +:+ getBEDaemonName app in
    on_sys (sys_emit (SLink sourcePath daemonPath);;
            s ← get;
            match fs_link (sys_trace s) with
            | Some _ => throw ("failed to link " +:+ sourcePath +:+ " to " +:+ daemonPath)
            | None => mret tt
            end);;
    add_cleanup daemonPath;;
    shipPackage app daemonPath;;
    modify (λ st, MkAppState (as_sys st) (as_lockFile st) (as_cleanup st) true).

(** The daemon is a child, waited for when that is asked for.  In a child that could not execute
    it an exception is thrown, which is not part of this. *)
Definition startDaemon (app : LocalhostApp) (args : option (list string)) (synchronous : bool) : M app_state () :=
  match args with
  | None => throw "args array is empty!"
  | Some args =>
      st ← get;
      (if as_sent st then mret tt else ship_daemon app);;
      on_sys
        (sys_emit (SFork (path_join (m_toolPath app) (getBEDaemonName app) :: args) []);;
         s ← get;
         let pid := fork_pid (sys_trace s) in
         if pid <? 0 then throw "fork failed when starting daemon"
         else if synchronous then sys_emit (SReap pid) else mret tt)
  end.

(** ** Processes that run *)

(** The identifier names a process and, after its first point, the program to look for. *)
Definition split_job (jobId : string) : string * string :=
  match split_at "." jobId with Some (launcher, exe) => (launcher, exe) | None => (jobId, "dbgsrv") end.

(** From the process at the end of [pids] on: one that runs the program is taken and its
    children are not looked at. *)
Fixpoint find_processes (fuel : nat) (exe : string) (pids : list string) (appIds : list Z) : res (list Z) :=
  match fuel with
  | O => Undef "the search goes on"
  | S fuel' =>
      match last pids with
      | None => Ok appIds
      | Some pid =>
          let rest := removelast pids in
          if bool_decide (proc_comm pid = Some exe)
          then '(z, _) ← stoi pid; find_processes fuel' exe rest (appIds ++ [z])
          else find_processes fuel' exe (rest ++ default [] (proc_children pid)) appIds
      end
  end.

Definition registerJob (fuel : nat) (fd : frontend_data) (beDaemonName : string) (self nextId : Z) (jobId : string)
    : M sys LocalhostApp :=
  let '(launcher, exe) := split_job jobId in
  appIds ← lift (find_processes fuel exe [launcher] []);
  if bool_decide (appIds = []) then throw "Could not find processes in job"
  else LocalhostApp_attach fd beDaemonName self nextId appIds.
End App.
