(* ===== verification/LocalProofs.v ===== *)
(** * Properties of localhost applications

    The search for the processes of a job ends with the right ones; a launch starts every rank
    once with its variables; the file for the backend; what is left behind. *)

From S2P Require Import Prelude Split Host System SlurmJobs Wire Daemon Handlers FEIface ConfigDir Requests LocalApp.

(** ** Processes that run *)

(** A process, its program and its children. *)
Inductive ptree : Type := PNode (pid : Z) (comm : string) (children : list ptree).

Definition tree_pid (t : ptree) : Z := match t with PNode pid _ _ => pid end.

Fixpoint tree_size (t : ptree) : nat :=
  match t with PNode _ _ children => S (foldr (λ c n, tree_size c + n)%nat O children) end.

Definition forest_size (ts : list ptree) : nat := foldr (λ c n, tree_size c + n)%nat O ts.

(** The topmost processes that run a program, children from last to first. *)
Fixpoint running (exe : string) (t : ptree) : list Z :=
  match t with
  | PNode pid comm children =>
      if bool_decide (comm = exe) then [pid] else foldr (λ c l, l ++ running exe c) [] children
  end.

Definition forest_running (exe : string) (ts : list ptree) : list Z := foldr (λ c l, l ++ running exe c) [] ts.

Section Search.
Context `{LocalHost}.

(** What /proc says is the tree. *)
Fixpoint agrees (t : ptree) : Prop :=
  match t with
  | PNode pid comm children =>
      in_int pid = true ∧ proc_comm (to_string pid) = Some comm ∧
      proc_children (to_string pid) = Some (map (λ c, to_string (tree_pid c)) children) ∧
      foldr (λ c P, agrees c ∧ P) True children
  end.

Lemma agrees_children (ts : list ptree) : foldr (λ c P, agrees c ∧ P) True ts ↔ Forall agrees ts.
Proof. induction ts as [|t ts IH]; cbn; [by split|]. by rewrite Forall_cons, IH. Qed.

Lemma forest_size_app (ts us : list ptree) : forest_size (ts ++ us) = (forest_size ts + forest_size us)%nat.
Proof. induction ts as [|t ts IH]; [done|]. cbn. unfold forest_size in *. rewrite IH. lia. Qed.

Lemma forest_running_app (exe : string) (ts us : list ptree) :
  forest_running exe (ts ++ us) = forest_running exe us ++ forest_running exe ts.
Proof.
  induction ts as [|t ts IH]; cbn; [by rewrite app_nil_r|]. unfold forest_running in *. by rewrite IH, app_assoc.
Qed.

Lemma find_processes_run (fuel : nat) (exe : string) (ts : list ptree) (appIds : list Z) :
  Forall agrees ts → (forest_size ts < fuel)%nat →
  find_processes fuel exe (map (λ t, to_string (tree_pid t)) ts) appIds = Ok (appIds ++ forest_running exe ts).
Proof.
  revert ts appIds. induction fuel as [|fuel IH]; intros ts appIds Hts Hf; [lia|].
  destruct ts as [|t ts _] using rev_ind; [cbn; by rewrite app_nil_r|].
  apply Forall_app in Hts as [Hts [Ht _]%Forall_cons].
  rewrite forest_size_app in Hf. cbn [find_processes]. rewrite map_app, forest_running_app. cbn [map].
  rewrite last_snoc, removelast_last. destruct t as [pid comm children].
  cbn [agrees] in Ht. destruct Ht as (Hp & Hc & Hch & Hcs). rewrite agrees_children in Hcs.
  cbn in Hf. change (foldr _ 0%nat children) with (forest_size children) in Hf.
  cbn [tree_pid]. rewrite Hc, Hch. cbn [forest_running foldr running app].
  change (foldr _ [] children) with (forest_running exe children).
  destruct (decide (comm = exe)) as [->|Hne].
  - rewrite !bool_decide_true by done. rewrite stoi_to_string by done. cbn [mbind res_bind].
    rewrite IH by (done || lia). by rewrite <-app_assoc.
  - rewrite !bool_decide_false by congruence. cbn [default from_option id]. rewrite <-map_app, IH.
    + by rewrite forest_running_app.
    + by apply Forall_app.
    + rewrite forest_size_app. lia.
Qed.

(** Registering a job ends and finds its processes.  For an identifier of a process and a
    program, when /proc shows the tree of processes below it, the search ends after as many
    rounds as there are processes, and finds exactly the topmost ones that run the program, each
    once; there being none is an exception. *)
Theorem register_finds_processes `{FrontendDaemon} (fuel : nat) (fd : frontend_data) (beDaemonName exe : string)
    (self nextId : Z) (t : ptree) (s : sys) :
  agrees t → (tree_size t < fuel)%nat →
  registerJob fuel fd beDaemonName self nextId (to_string (tree_pid t) +:+ "." +:+ exe) s =
  match running exe t with
  | [] => (Throw "Could not find processes in job", s)
  | appIds => LocalhostApp_attach fd beDaemonName self nextId appIds s
  end.
Proof.
  intros Ht Hf. unfold registerJob, split_job.
  change ("." +:+ exe) with (String "." exe). rewrite split_at_app by by apply to_string_no_char.
  rewrite (bind_run_Ok _ _ _ (running exe t) s).
  - destruct (running exe t); [by rewrite bool_decide_true|by rewrite bool_decide_false].
  - unfold lift. f_equal. apply (find_processes_run fuel exe [t] []); [by constructor|]. cbn. lia.
Qed.
End Search.

(** ** Launching *)

Section Launch.
Context `{Host} `{FrontendDaemon} `{LocalHost}.

(** New processes can be made. *)
Definition forks_succeed : Prop := ∀ t args env, 0 < fork_pid (t ++ [SFork args env]).

(** One process for each of [n] ranks from [rank] on. *)
Definition rank_events (n : nat) (rank : Z) (appArgs env : list string) : list sys_event :=
  map (λ i, SFork appArgs (env ++ ["CTI_LOCALHOST_RANK=" +:+ to_string (rank + Z.of_nat i)])) (seq 0 n).

Lemma rank_events_S (n : nat) (rank : Z) (appArgs env : list string) :
  rank_events (S n) rank appArgs env =
  SFork appArgs (env ++ ["CTI_LOCALHOST_RANK=" +:+ to_string rank]) :: rank_events n (rank + 1) appArgs env.
Proof.
  unfold rank_events. cbn [seq map]. rewrite Z.add_0_r. f_equal.
  rewrite <-seq_shift, map_map. apply map_ext. intros i. by replace (rank + Z.of_nat (S i)) with (rank + 1 + Z.of_nat i) by lia.
Qed.

Lemma fork_ranks_run (n : nat) (rank : Z) (appArgs env : list string) (s : sys) :
  forks_succeed → ∃ pids, length pids = n ∧
    fork_ranks n rank appArgs env s =
    (Ok pids, MkSys (sys_env s) (sys_trace s ++ rank_events n rank appArgs env)).
Proof.
  intros Hf. revert rank s. induction n as [|n IH]; intros rank s.
  { exists []. split; [done|]. cbn. rewrite app_nil_r. by destruct s. }
  cbn [fork_ranks]. set (e := SFork appArgs (env ++ ["CTI_LOCALHOST_RANK=" +:+ to_string rank])).
  set (s1 := MkSys (sys_env s) (sys_trace s ++ [e])). rewrite (bind_run_Ok _ _ _ tt s1) by done.
  rewrite (bind_run_Ok _ _ _ s1 s1) by done. cbv zeta. pose proof (Hf (sys_trace s) appArgs _ : 0 < fork_pid (sys_trace s1)) as Hpos.
  destruct (Z.ltb_spec 0 (fork_pid (sys_trace s1))); [|lia].
  destruct (IH (rank + 1) s1) as (pids & Hl & E). exists (fork_pid (sys_trace s1) :: pids). split; [cbn; lia|].
  rewrite (bind_run_Ok _ _ _ _ _ E). unfold s1. cbn [sys_env sys_trace]. rewrite rank_events_S. by rewrite <-app_assoc.
Qed.

(** The text that the backend is given. *)
Definition pid_text (appPEs : list Z) : string :=
  unlines (to_string (Z.of_nat (length appPEs)) :: map to_string appPEs).

Lemma pid_text_lines (appPEs : list Z) :
  text_lines (pid_text appPEs) = to_string (Z.of_nat (length appPEs)) :: map to_string appPEs.
Proof.
  apply text_lines_unlines. constructor; [by apply to_string_no_char|].
  apply Forall_map, Forall_true. intros z. by apply to_string_no_char.
Qed.

(** A launch starts every rank once.  When processes can be made and files be written, the
    constructor starts as many processes as the arguments say, the ranks in order, each with the
    program, the number of ranks, its rank and, when it is to wait, the file that holds it; it
    writes the file for the backend last, whose lines are the number of processes and their
    process numbers. *)
Theorem launch_starts_ranks (fd : frontend_data) (beDaemonName : string) (self nextId numPEs : Z)
    (launcher_argv appArgs : list string) (stopAtBarrier : bool) (stagePath : string) (s : sys) :
  forks_succeed → req_mkdtemp (sys_trace s) (m_cfg_dir fd +:+ "/slurmXXXXXX") = Ok stagePath →
  (∀ t path, req_open t path = true) →
  split_arguments launcher_argv = Ok (numPEs, appArgs) →
  ∃ app lockFile, let id := app_id self nextId in
    lockFile = (if stopAtBarrier then lock_path (m_toolPath app) id else "") ∧
    length (m_appPEs app) = Z.to_nat numPEs ∧
    LocalhostApp_launch fd beDaemonName self nextId launcher_argv stopAtBarrier s =
    (Ok (app, lockFile), MkSys (sys_env s) (sys_trace s ++
       (if stopAtBarrier then [SWrite lockFile []] else []) ++
       rank_events (Z.to_nat numPEs) 0 appArgs
         (environ (sys_env s) ++ (if stopAtBarrier then ["CTI_LOCALHOST_LOCK_FILE=" +:+ lockFile] else []) ++
          ["CTI_LOCALHOST_NUM_RANKS=" +:+ to_string numPEs]) ++
       [SWrite (stagePath +:+ "/slurm_pid") (list_ascii_of_string (pid_text (m_appPEs app)))])) ∧
    text_lines (pid_text (m_appPEs app)) =
    to_string (Z.of_nat (length (m_appPEs app))) :: map to_string (m_appPEs app).
Proof.
  intros Hf Hmk Hopen Hargs. set (id := app_id self nextId).
  unfold LocalhostApp_launch. fold id. cbv zeta.
  destruct (findToolPath id s) as [r s0] eqn:Etool. assert (∃ toolPath, r = Ok toolPath ∧ s0 = s) as (toolPath & -> & ->).
  { unfold findToolPath, mbind, M_bind, getenv, gets in Etool. injection Etool as <- <-. by eexists. }
  rewrite (bind_run_Ok _ _ _ _ _ Etool), (bind_run_Ok get _ s s s) by done.
  rewrite (bind_run_Ok _ _ _ stagePath s) by (unfold lift; by rewrite Hmk).
  rewrite (bind_run_Ok _ _ _ (numPEs, appArgs) s) by (unfold lift; by rewrite Hargs).
  set (lockFile := if stopAtBarrier then lock_path toolPath id else "").
  set (s1 := MkSys (sys_env s) (sys_trace s ++ (if stopAtBarrier then [SWrite lockFile []] else []))).
  rewrite (bind_run_Ok _ _ _ lockFile s1).
  2: { unfold make_lock, lockFile, s1. destruct stopAtBarrier; cbn [negb].
       - rewrite (bind_run_Ok get _ s s s) by done. by rewrite Hopen.
       - rewrite app_nil_r. by destruct s. }
  rewrite (bind_run_Ok get _ s1 s1 s1) by done. cbv zeta.
  set (env := environ _ ++ _ ++ _).
  destruct (fork_ranks_run (Z.to_nat numPEs) 0 appArgs env s1 Hf) as (pids & Hl & E).
  exists (MkLocalApp fd id pids toolPath toolPath stagePath [stagePath +:+ "/slurm_pid"] beDaemonName), lockFile.
  cbn [m_toolPath m_appPEs]. split; [done|]. split; [done|]. split; [|apply pid_text_lines].
  rewrite (bind_run_Ok _ _ _ _ _ E). unfold writeAppPEs, write_file.
  rewrite (bind_run_Ok _ _ _ (stagePath +:+ "/slurm_pid") (MkSys (sys_env s)
    ((sys_trace s1 ++ rank_events (Z.to_nat numPEs) 0 appArgs env) ++
     [SWrite (stagePath +:+ "/slurm_pid") (list_ascii_of_string (pid_text pids))]))).
  - unfold mret, M_ret, s1. cbn [sys_trace]. rewrite <-!app_assoc. unfold env, s1. cbn [sys_env].
    subst lockFile. destruct stopAtBarrier; [|done]. cbn [is_empty lock_path].
    by destruct (lock_path toolPath id) eqn:El; [unfold lock_path in El; destruct toolPath|].
  - rewrite (bind_run_Ok get _ _ _ _ eq_refl). by rewrite Hopen.
Qed.
End Launch.

(** ** Examples *)

(** Process 1 runs sh, with two children; one of these has a child of its own. *)
Definition demo_tree : ptree :=
  PNode 1 "sh" [PNode 2 "app" [PNode 5 "app" []]; PNode 3 "sh" [PNode 4 "app" []]].

#[local] Instance demo_local : LocalHost := {|
  fork_pid t := 100 + Z.of_nat (length t);
  fs_rename _ := None;
  fs_link _ := None;
  proc_comm p := demo_lookup [("1", "sh"); ("2", "app"); ("3", "sh"); ("4", "app"); ("5", "app")] p;
  proc_children p := demo_lookup [("1", ["2"; "3"]); ("2", ["5"]); ("3", ["4"]); ("4", []); ("5", [])] p;
  local_hostname := "login"
|}.

#[local] Instance demo_daemon : FrontendDaemon := demo_frontend_daemon (λ _, "") (λ _, true) "no" "".

Definition demo_frontend : frontend_data := MkFrontend "" "" false "/cfg" "/opt" "" "" "/opt/be".

Lemma register_finds_processes_witness :
  registerJob 10 demo_frontend "cti_be1" 9 0 "1.app" (MkSys ∅ []) =
  LocalhostApp_attach demo_frontend "cti_be1" 9 0 [4; 2] (MkSys ∅ []).
Proof.
  refine (register_finds_processes 10 demo_frontend "cti_be1" "app" 9 0 demo_tree (MkSys ∅ []) _ _).
  - vm_compute. repeat split.
  - vm_compute. lia.
Defined.

Lemma demo_forks : forks_succeed.
Proof. intros t args env. cbn [fork_pid demo_local]. lia. Qed.

Lemma launch_starts_ranks_witness :
  ∃ app lockFile s', LocalhostApp_launch demo_frontend "cti_be1" 9 0 ["-n"; "2"; "app"; "x"] true (MkSys ∅ [])
    = (Ok (app, lockFile), s') ∧ length (m_appPEs app) = 2%nat ∧ lockFile = "/tmp/cti.lock.9.0".
Proof.
  destruct (launch_starts_ranks demo_frontend "cti_be1" 9 0 2 ["-n"; "2"; "app"; "x"] ["app"; "x"] true
    "/cfg/slurmXXXXXX" (MkSys ∅ [])) as (app & lockFile & Hlock & Hl & E & _);
    [exact demo_forks|..].
  - reflexivity.
  - done.
  - vm_compute. reflexivity.
  - exists app, lockFile. eexists. split; [exact E|]. split; [exact Hl|].
    apply (f_equal (λ r, match r.1 with Ok (_, l) => l | _ => "" end)) in E. cbn [fst] in E. rewrite <-E.
    vm_compute. reflexivity.
Defined.
