(* ===== verification/AlpsApp.v ===== *)
(** * ALPS: applications (src/src/frontend/frontend_impl/ALPS/Frontend.cpp)

    Launching aprun, held at its barrier or not, finding the aprun that a wrapper has started,
    what libalps says of an application, its layout, packages, daemons and signals.  What libalps
    and /proc answer, and the descriptors of pipes, are the class [Aprun].  The child between its
    start and the start of aprun is not modelled, nor are the descriptors it is given. *)

From S2P Require Import Prelude Host System SlurmJobs Wire Daemon FEIface ConfigDir Requests BeState.

(** What the code reads of the results of libalps. *)
Record appInfo_t : Type := MkAppInfo { ai_apid : Z; aprunPid : Z; aprunNid : Z; numCmds : Z; numPlaces : Z }.

(** A place: the program that runs there, the node and the number of processes.  Of a program the
    code reads its name. *)
Record placeNodeList_t : Type := MkPlace { cmdIx : Z; pl_nid : Z; pl_numPEs : Z }.

Inductive sync_result : Type :=
| SyncRead (sync : Z)
| SyncEnd
| SyncInterrupted
| SyncFailed (why : string).

Class Aprun : Type := {
  alps_get_apid : list sys_event → Z → Z → Z;
  (** the application, its programs and its places, or the message if there is one *)
  alps_get_appinfo_ver2_err :
    list sys_event → appInfo_t * list string * list placeNodeList_t + option string;
  (** the message of a failure *)
  alps_launch_tool_helper : list sys_event → option string;
  alps_get_overlap_ordinal : list sys_event → Z * option string;
  (** the process that was started, negative when there is none *)
  aprun_fork : list sys_event → Z;
  (** the ends for reading and writing of both pipes *)
  aprun_pipes : list sys_event → option ((Z * Z) * (Z * Z));
  sync_read : list sys_event → sync_result;
  barrier_written : list sys_event → bool;
  (** what a link leads to, the names in /proc, the text of a file *)
  read_link : list sys_event → string → option string;
  proc_names : list sys_event → option (list string);
  proc_text : list sys_event → string → option string;
  (** making a session, making a manifest of it, starting a program with it *)
  internal_session : list sys_event → res ()
}.

(** ** Names of nodes *)

Definition zero_padded (width : nat) (z : Z) : string :=
  zeros (width - String.length (to_string z)) +:+ to_string z.

(** [ALPS_XT_HOSTNAME_FMT] *)
Definition nid_name (nid : Z) : string :=
  "nid" +:+ if nid <? 0 then "-" +:+ zero_padded 4 (- nid) else zero_padded 5 nid.

(** [stream >> int] *)
Definition stream_int (s : string) : Z :=
  match Prelude.read_int s with Some (z, _) => Z.max int_min (Z.min int_max z) | None => 0 end.

Definition ALPS_XT_NID : string := "/proc/cray_xt/nid".

Definition getSvcNid `{Host} : Z := stream_int (default "" (blocks_text <$> os_read ALPS_XT_NID)).

(** [ALPSFrontend::getHostname] *)
Definition getHostname `{Host} : string := nid_name getSvcNid.

(** A call and what it answers. *)
Definition call {A : Type} (name : string) (args : list string) (answer : list sys_event → A) : M sys A :=
  sys_emit (SCall name args);; s ← get; mret (answer (sys_trace s)).

(** ** Applications *)

(** [AprunLaunchInfo] *)
Record AprunLaunchInfo : Type := MkAprunInfo {
  daemonAppId : Z;
  alpsAppInfo : appInfo_t;
  alpsCmdDetail : list string;
  alpsPlaceNodeList : list placeNodeList_t;
  pe0Node : Z;
  barrierReleaseFd : Z;
  barrierReleaseSync : Z
}.

Record ALPSApp : Type := MkALPSApp {
  m_frontend : frontend_data;
  m_daemonAppId : Z;
  m_alpsAppInfo : appInfo_t;
  m_alpsCmdDetail : list string;
  m_alpsPlaceNodeList : list placeNodeList_t;
  m_pe0Node : Z;
  m_toolPath : string;
  m_attribsPath : string;
  getBEDaemonName : string
}.

(** What operations change: m_beDaemonSent, m_barrierReleaseFd, m_barrierReleaseSync and whether
    m_internalSession is alive. *)
Record app_state : Type := MkAppState {
  as_sys : sys; as_sent : bool; as_fd : Z; as_sync : Z; as_session : bool
}.

Definition on_sys {A : Type} (m : M sys A) : M app_state A :=
  zoom as_sys (λ s st, MkAppState s (as_sent st) (as_fd st) (as_sync st) (as_session st)) m.

Definition set_released (st : app_state) : app_state :=
  MkAppState (as_sys st) (as_sent st) (-1) (-1) (as_session st).

Definition set_sent (st : app_state) : app_state :=
  MkAppState (as_sys st) true (as_fd st) (as_sync st) (as_session st).

Definition set_session (st : app_state) : app_state :=
  MkAppState (as_sys st) (as_sent st) (as_fd st) (as_sync st) true.

Definition ALPS_OBS_LOC : string := "/opt/cray/alps".

Definition apid_text (a : ALPSApp) : string := to_string (ai_apid (m_alpsAppInfo a)).

Definition getJobId (a : ALPSApp) : string := apid_text a.

Definition getLauncherHostname (a : ALPSApp) : string := nid_name (aprunNid (m_alpsAppInfo a)).

Definition getApid (a : ALPSApp) : Z := ai_apid (m_alpsAppInfo a).

Definition get_cti_aprunProc_t (a : ALPSApp) : Z * Z :=
  (ai_apid (m_alpsAppInfo a), aprunPid (m_alpsAppInfo a)).

(** The sum is of type int. *)
Fixpoint sum_PEs (total : Z) (places : list placeNodeList_t) : res Z :=
  match places with
  | [] => Ok total
  | p :: places' =>
      let total := total + pl_numPEs p in
      if in_int total then sum_PEs total places' else Undef "the sum overflows"
  end.

Definition getNumPEs (a : ALPSApp) : res Z := total ← sum_PEs 0 (m_alpsPlaceNodeList a); mret (uint64 total).

Definition getNumHosts (a : ALPSApp) : Z := Z.of_nat (length (m_alpsPlaceNodeList a)).

Definition getHostnameList (a : ALPSApp) : list string :=
  map (λ p, nid_name (pl_nid p)) (m_alpsPlaceNodeList a).

Definition getHostsPlacement (a : ALPSApp) : list (string * Z) :=
  map (λ p, (nid_name (pl_nid p), uint64 (pl_numPEs p))) (m_alpsPlaceNodeList a).

(** The numbers from [rank] on, as many as there are processes, as int. *)
Definition place_ranks (rank numPEs : Z) : list Z :=
  map (λ i, int32 (uint64 (rank + Z.of_nat i))) (seq 0 (Z.to_nat numPEs)).

(** [vector::max_size] of numbers of type int *)
Definition max_reserve : Z := 2 ^ 61 - 1.

Fixpoint rank_map (cmds : list string) (places : list placeNodeList_t) (rank : Z)
    (result : gmap string (list Z)) : res (gmap string (list Z)) :=
  match places with
  | [] => Ok result
  | p :: places' =>
      let idx := uint64 (cmdIx p) in
      if Z.of_nat (length cmds) <=? idx
      then Throw ("PE has invalid cmdDetail index " +:+ to_string idx)
      else
        match cmds !! Z.to_nat idx with
        | None => Undef "no such program"
        | Some binaryName =>
            let ranks := default [] (result !! binaryName) in
            if max_reserve <? uint64 (Z.of_nat (length ranks) + pl_numPEs p) then Throw "vector::reserve"
            else
              rank_map cmds places' (uint64 (rank + pl_numPEs p))
                (<[binaryName := ranks ++ place_ranks rank (pl_numPEs p)]> result)
        end
  end.

Definition getBinaryRankMap (a : ALPSApp) : res (gmap string (list Z)) :=
  rank_map (m_alpsCmdDetail a) (m_alpsPlaceNodeList a) 0 ∅.

Section Alps.
Context `{Host} `{FrontendDaemon} `{Aprun}.

(** The constructor. *)
Definition ALPSApp_new (fd : frontend_data) (beDaemonName : string) (info : AprunLaunchInfo) : ALPSApp :=
  let apid := to_string (ai_apid (alpsAppInfo info)) in
  let spool := if bool_decide (os_stat ALPS_OBS_LOC = None) then "/var/spool/alps/" else "/var/opt/cray/alps/spool/" in
  MkALPSApp fd (daemonAppId info) (alpsAppInfo info) (alpsCmdDetail info) (alpsPlaceNodeList info) (pe0Node info)
    (spool +:+ apid +:+ "/toolhelper" +:+ apid) (spool +:+ apid) beDaemonName.

(** The state of an application that was just made. *)
Definition initial_state (info : AprunLaunchInfo) (s : sys) : app_state :=
  MkAppState s false (barrierReleaseFd info) (barrierReleaseSync info) false.

Definition isRunning (a : ALPSApp) : M sys bool := request (SCheck (m_daemonAppId a)) req_util_sync.

(** The number that was read from aprun is written back. *)
Definition releaseBarrier : M app_state () :=
  st ← get;
  if (as_fd st <? 0) || (as_sync st <? 0) then throw "application is not at startup barrier"
  else
    written ← on_sys (call "write" [to_string (as_fd st); to_string (as_sync st)] barrier_written);
    if written : bool
    then on_sys (sys_emit (SCall "close" [to_string (as_fd st)]));; modify set_released
    else throw "Aprun barrier release operation failed.".

(** Signals that apkill sends: hangup, interrupt, quit, terminate, abort, the two of users,
    urgent data and a change of the window. *)
Definition apkill_signals : list Z := [1; 2; 3; 15; 6; 10; 12; 23; 28].

Definition apkill (a : ALPSApp) (signal : Z) : M app_state () :=
  sent ← on_sys (request (SUtil ["apkill"; "-" +:+ to_string signal; apid_text a] []) req_util_sync);
  if sent : bool then mret tt else throw ("failed to send signal to apid " +:+ apid_text a).

(** A session that is kept for later, a manifest of it, and the program on the nodes. *)
Definition signal_backend (a : ALPSApp) (signal : Z) : M app_state () :=
  let session name args := r ← on_sys (call name args internal_session); lift r in
  st ← get;
  (if as_session st then mret tt else session "createSession" [];; modify set_session);;
  session "createManifest" [];;
  session "execManifest" [m_base_dir (m_frontend a) +:+ "/libexec/cti_send_signal_backend"; to_string signal].

Definition kill (a : ALPSApp) (signal : Z) : M app_state () :=
  if bool_decide (signal ∈ apkill_signals) then apkill a signal
  else if (signal <=? 0) || (64 <? signal) then throw "Invalid signal"
  else signal_backend a signal.

(** Transferring, executing and the path or command of a call of the tool helper. *)
Definition tool_helper (a : ALPSApp) (transfer execute : Z) (command : string) : M sys (option string) :=
  call "alps_launch_tool_helper"
    [apid_text a; to_string (m_pe0Node a); to_string transfer; to_string execute; "1"; command]
    alps_launch_tool_helper.

Definition LAUNCH_TOOL_RETRY : nat := 5.

(** Half a second is spent after every failure, the last one too. *)
Fixpoint ship_attempts (tries : nat) (a : ALPSApp) (tarPath : string) (error : option string)
    : M sys (option string) :=
  match tries with
  | O => mret error
  | S tries' =>
      error ← tool_helper a 1 0 tarPath;
      match error with
      | None => mret None
      | Some _ => sys_emit (SCall "usleep" ["500000"]);; ship_attempts tries' a tarPath error
      end
  end.

Definition shipPackage (a : ALPSApp) (tarPath : string) : M sys () :=
  error ← ship_attempts LAUNCH_TOOL_RETRY a tarPath None;
  match error with
  | None => mret tt
  | Some what => throw ("alps_launch_tool_helper: " +:+ what)
  end.

(** [boost::replace_all] of a character by itself after a backslash. *)
Fixpoint escape_char (x : ascii) (s : string) : string :=
  match s with
  | "" => ""
  | String c s' => if bool_decide (c = x) then String backslash (String c (escape_char x s'))
                   else String c (escape_char x s')
  end.

Definition escape_arg (arg : string) : string := escape_char ";" (escape_char "&" (escape_char " " arg)).

(** The daemon under a name of its own, and the command that runs it. *)
Definition link_daemon (a : ALPSApp) : M app_state string :=
  let sourcePath := m_be_daemon_path (m_frontend a) in
  let destinationPath := m_cfg_dir (m_frontend a) +:+ "/" +:+ getBEDaemonName a in
  linked ← on_sys (request (SUtil ["ln"; "-s"; sourcePath; destinationPath] []) req_util_sync);
  if linked : bool then mret destinationPath
  else throw ("failed to link " +:+ sourcePath +:+ " to " +:+ destinationPath).

Definition startDaemon (a : ALPSApp) (args : option (list string)) (synchronous : bool) : M app_state () :=
  match args with
  | None => throw "args array is null!"
  | Some args =>
      st ← get;
      let sent := as_sent st in
      program ← (if sent then mret (m_toolPath a +:+ "/" +:+ getBEDaemonName a) else link_daemon a);
      let command := String.concat "" (program :: map (λ arg, " " +:+ escape_arg arg) args) in
      error ← on_sys (tool_helper a (if sent then 0 else 1) 1 command);
      match error with
      | Some what => throw ("alps_launch_tool_helper: " +:+ what)
      | None => (if sent then mret tt else modify set_sent);; if synchronous then on_sys (sleep 1) else mret tt
      end
  end.

Definition getAlpsOverlapOrdinal (a : ALPSApp) : M sys Z :=
  '(result, error) ← call "alps_get_overlap_ordinal" [apid_text a] alps_get_overlap_ordinal;
  if result <? 0 then throw (default "alps_get_overlap_ordinal" error) else mret result.

(** ** What libalps says of an application *)

(** As many elements of an array as are said to be there. *)
Definition elements {A : Type} (n : Z) (l : list A) : res (list A) :=
  if (length l <? Z.to_nat n)%nat then Undef "read beyond the end" else Ok (take (Z.to_nat n) l).

Definition getAprunLaunchInfo (aprunId : Z) : M sys AprunLaunchInfo :=
  answer ← call "alps_get_appinfo_ver2_err" [to_string aprunId] alps_get_appinfo_ver2_err;
  match answer with
  | inr error => throw (default "alps_get_appinfo_ver2_err" error)
  | inl (info, cmds, places) =>
      id ← request (SCall "request_RegisterApp" [to_string (aprunPid info)]) req_id;
      match places with
      | [] => undef "read beyond the end"
      | p :: _ =>
          cmds ← lift (elements (numCmds info) cmds);
          places ← lift (elements (numPlaces info) places);
          mret (MkAprunInfo id info cmds places (pl_nid p) (-1) (-1))
      end
  end.

Definition find_apid (aprunPid : Z) : M sys Z :=
  call "alps_get_apid" [to_string getSvcNid; to_string aprunPid] (λ t, alps_get_apid t getSvcNid aprunPid).

(** ** The aprun that a wrapper has started *)

Definition OLD_APRUN_LOCATION : string := "/usr/bin/aprun".
Definition OBS_APRUN_LOCATION : string := "/opt/cray/alps/default/bin/aprun".
Definition USER_DEF_APRUN_LOC_ENV_VAR : string := "CTI_APRUN_PATH".

Definition checkPathForWrappedAprun (aprun_path : string) : M sys bool :=
  user ← System.getenv USER_DEF_APRUN_LOC_ENV_VAR;
  match user with
  | Some usr_aprun_path =>
      if bool_decide (is_Some (os_stat usr_aprun_path))
      then mret (negb (starts_with usr_aprun_path aprun_path))
      else throw (USER_DEF_APRUN_LOC_ENV_VAR +:+ " is set but cannot stat its value.")
  | None =>
      if starts_with OLD_APRUN_LOCATION aprun_path then mret false
      else
        match os_realpath OBS_APRUN_LOCATION with
        | Some default_obs_realpath => mret (negb (starts_with default_obs_realpath aprun_path))
        | None => mret (bool_decide (is_Some (os_realpath OLD_APRUN_LOCATION)))
        end
  end.

Definition cstr_readlink (path : string) : M sys string :=
  target ← call "readlink" [path] (λ t, read_link t path);
  match target with Some p => mret p | None => throw "readlink failed" end.

(** The program of the process, read again each second while it is not the launcher yet. *)
Fixpoint settled_exe (retries : nat) (launcherName procExePath exe : string) : M sys string :=
  match retries with
  | O => mret exe
  | S retries' =>
      exe ← cstr_readlink procExePath;
      base ← lift (cstr_basename exe);
      if bool_decide (base = launcherName) then mret exe
      else sleep 1;; settled_exe retries' launcherName procExePath exe
  end.

Definition one_char (s : string) : option string :=
  match s with "" => None | String _ s' => Some s' end.

(** A word of [fscanf], which is not empty. *)
Fixpoint skip_word (s : string) : string :=
  match s with
  | "" => ""
  | String c s' => if is_space c then s else skip_word s'
  end.

(** The format "%*d %*s %*c %d": a number, a word, a character and the parent. *)
Definition parent_of (text : string) : option Z :=
  '(_, rest) ← scan_int text;
  rest ← (let word := skip_space rest in if is_empty word then None else Some (skip_word word));
  rest ← one_char (skip_space rest);
  fst <$> scan_int (skip_space rest).

(** The path that is checked is the one in /proc and not what it leads to, and a process is taken
    when the check says that it is a wrapper. *)
Fixpoint find_child_aprun (launchedPid : Z) (names : list string) : M sys Z :=
  match names with
  | [] => throw "Could not find child aprun process of wrapped aprun command."
  | name :: names' =>
      if bool_decide (name = ".") || bool_decide (name = "..") then find_child_aprun launchedPid names'
      else
        match stoi name with
        | Ok (pid, _) =>
            let statFilePath := "/proc/" +:+ to_string pid +:+ "/stat" in
            text ← call "fopen" [statFilePath] (λ t, proc_text t statFilePath);
            match text with
            | None => throw ("failed to open path " +:+ statFilePath)
            | Some text =>
                if bool_decide (parent_of text = Some launchedPid)
                then wrapped ← checkPathForWrappedAprun ("/proc/" +:+ to_string pid +:+ "/exe");
                     if wrapped : bool then mret pid else find_child_aprun launchedPid names'
                else find_child_aprun launchedPid names'
            end
        | _ => find_child_aprun launchedPid names'
        end
  end.

Definition findRealAprunPid (launcherName : string) (launchedPid : Z) : M sys Z :=
  let procExePath := "/proc/" +:+ to_string launchedPid +:+ "/exe" in
  exe ← cstr_readlink procExePath;
  realExePath ← settled_exe 5 launcherName procExePath exe;
  wrapped ← checkPathForWrappedAprun realExePath;
  if wrapped : bool
  then
    names ← call "opendir" ["/proc"] proc_names;
    match names with
    | Some names => find_child_aprun launchedPid names
    | None => throw "Could not enumerate /proc for real aprun process."
    end
  else mret launchedPid.

(** ** Launching *)

(** [PidGuard]: an exception kills the launcher. *)
Definition killing {A : Type} (pid : Z) (m : M sys A) : M sys A :=
  try_catch m (λ e, sys_emit (SSignal pid 9);; throw e).

(** The process and the application of the aprun that was started; the wrapper of an aprun
    becomes a utility of the application, and is let go before that is asked for. *)
Definition launched_info (launcherName : string) (launcherPid : Z) : M sys (Z * AprunLaunchInfo) :=
  aprunPid ← findRealAprunPid launcherName launcherPid;
  apid ← find_apid aprunPid;
  info ← getAprunLaunchInfo apid;
  mret (aprunPid, info).

Definition register_wrapper (launcherPid aprunPid : Z) (info : AprunLaunchInfo) : M sys () :=
  if bool_decide (aprunPid = launcherPid) then mret tt
  else request (SCall "request_RegisterUtil" [to_string (daemonAppId info); to_string launcherPid]) req_done.

(** Starting the launcher: the arguments and the variables that are added. *)
Definition fork_aprun (argv env_list : list string) : M sys Z :=
  sys_emit (SFork argv env_list);;
  s ← get;
  let pid := aprun_fork (sys_trace s) in
  if 0 <? pid then mret pid else throw "fork failed".

Definition launchApp (launcherName : string) (launcher_argv env_list : list string) : M sys AprunLaunchInfo :=
  match os_pathFind launcherName with
  | None => throw ("Failed to find launcher in path: " +:+ launcherName)
  | Some launcher_path =>
      launcherPid ← fork_aprun (launcher_path :: launcher_argv) env_list;
      '(aprunPid, info) ← killing launcherPid (launched_info launcherName launcherPid);
      register_wrapper launcherPid aprunPid info;;
      mret info
  end.

(** Reading what aprun sends when it is at its barrier. *)
Fixpoint await_sync (fuel : nat) (fd : Z) : M sys Z :=
  match fuel with
  | O => undef "interrupted again and again"
  | S fuel' =>
      r ← call "read" [to_string fd] sync_read;
      match r with
      | SyncRead sync => mret sync
      | SyncInterrupted => await_sync fuel' fd
      | SyncEnd => throw "sync pipe read failed: zero bytes read"
      | SyncFailed why => throw ("sync pipe read failed: " +:+ why)
      end
  end.

Definition close_fd (fd : Z) : M sys () := sys_emit (SCall "close" [to_string fd]).

Definition launchAppBarrier (fuel : nat) (launcherName : string) (launcher_argv env_list : list string)
    : M sys AprunLaunchInfo :=
  match os_pathFind launcherName with
  | None => throw ("Failed to find launcher in path: " +:+ launcherName)
  | Some launcher_path =>
      pipes ← call "pipe" [] aprun_pipes;
      match pipes with
      | None => throw "pipe failed"
      | Some ((ctiToAprunRead, ctiToAprunWrite), (aprunToCtiRead, aprunToCtiWrite)) =>
          launcherPid ← fork_aprun
            (launcher_path :: "-P" :: (to_string aprunToCtiWrite +:+ "," +:+ to_string ctiToAprunRead) ::
             launcher_argv) env_list;
          '(sync, (aprunPid, info)) ← killing launcherPid
            (close_fd ctiToAprunRead;; close_fd aprunToCtiWrite;;
             sync ← await_sync fuel aprunToCtiRead;
             close_fd aprunToCtiRead;;
             launched ← launched_info launcherName launcherPid;
             mret (sync, launched));
          let info := MkAprunInfo (daemonAppId info) (alpsAppInfo info) (alpsCmdDetail info) (alpsPlaceNodeList info)
                        (pe0Node info) ctiToAprunWrite sync in
          register_wrapper launcherPid aprunPid info;;
          mret info
      end
  end.

(** [launch], [launchBarrier] and [registerJob]: the application with its state. *)
Definition new_app (fd : frontend_data) (beDaemonName : string) (info : AprunLaunchInfo) : M sys (ALPSApp * app_state) :=
  s ← get; mret (ALPSApp_new fd beDaemonName info, initial_state info s).

Definition launch (fd : frontend_data) (launcherName beDaemonName : string) (launcher_argv env_list : list string)
    : M sys (ALPSApp * app_state) :=
  info ← launchApp launcherName launcher_argv env_list; new_app fd beDaemonName info.

Definition launchBarrier (fuel : nat) (fd : frontend_data) (launcherName beDaemonName : string)
    (launcher_argv env_list : list string) : M sys (ALPSApp * app_state) :=
  info ← launchAppBarrier fuel launcherName launcher_argv env_list; new_app fd beDaemonName info.

(** [ids] are the variable arguments. *)
Definition registerJob (fd : frontend_data) (beDaemonName : string) (ids : list Z) : M sys (ALPSApp * app_state) :=
  match ids with
  | [aprunId] => info ← getAprunLaunchInfo aprunId; new_app fd beDaemonName info
  | _ => throw "expecting single aprun ID argument to register app"
  end.
End Alps.

(** The constructor of the frontend: where libalps is looked for. *)
Definition ALPSFrontend_new `{Host} : res string := accessiblePath "/opt/cray/alps/default/lib64/libalps.so".
