(* ===== verification/AlpsProofs.v ===== *)
(** * ALPS: properties

    The ranks of programs, what is left of a launch that fails, the barrier, attempts to ship a
    package and the command that starts a daemon; concrete runs. *)

From S2P Require Import Prelude Host System SlurmJobs Wire Daemon FEIface ConfigDir Requests BeState AlpsApp.

(** ** Ranks *)

(** The program of every rank, and the places of a program in such a list. *)
Definition rank_binaries (cmds : list string) (places : list placeNodeList_t) : list string :=
  flat_map (λ p, replicate (Z.to_nat (pl_numPEs p)) (default "" (cmds !! Z.to_nat (cmdIx p)))) places.

Fixpoint positions (b : string) (start : Z) (l : list string) : list Z :=
  match l with
  | [] => []
  | x :: l' => (if decide (x = b) then [start] else []) ++ positions b (start + 1) l'
  end.

Definition place_ok (cmds : list string) (p : placeNodeList_t) : Prop :=
  0 ≤ cmdIx p < Z.of_nat (length cmds) ∧ 0 ≤ pl_numPEs p.

Lemma positions_app (b : string) (start : Z) (l l' : list string) :
  positions b start (l ++ l') = positions b start l ++ positions b (start + Z.of_nat (length l)) l'.
Proof.
  revert start. induction l as [|x l IH]; intros start; cbn [positions app length].
  - by rewrite Z.add_0_r.
  - rewrite IH, <-app_assoc. do 3 f_equal. lia.
Qed.

Lemma positions_replicate (b x : string) (start : Z) (n : nat) :
  0 ≤ start → start + Z.of_nat n < 2 ^ 31 →
  positions b start (replicate n x) = if decide (x = b) then place_ranks start (Z.of_nat n) else [].
Proof.
  unfold place_ranks. rewrite Nat2Z.id. revert start.
  induction n as [|n IH]; intros start H0 Hn; [by destruct (decide _)|].
  cbn [replicate positions seq map]. rewrite IH by lia.
  destruct (decide (x = b)) as [->|]; [|done]. cbn [app]. f_equal.
  - unfold uint64, int32. rewrite Z.add_0_r, (Z.mod_small start), (Z.mod_small (start + 2 ^ 31)) by lia. lia.
  - rewrite <-seq_shift, map_map. apply map_ext. intros i. do 2 f_equal. lia.
Qed.

Lemma length_positions (b : string) (start : Z) (l : list string) : (length (positions b start l) ≤ length l)%nat.
Proof.
  revert start. induction l as [|x l IH]; intros start; [done|]. cbn [positions length]. rewrite length_app.
  specialize (IH (start + 1)). case_decide; cbn [length]; lia.
Qed.

Lemma rank_map_run (cmds : list string) (places : list placeNodeList_t) (rank : Z)
    (result : gmap string (list Z)) :
  Forall (place_ok cmds) places → Z.of_nat (length cmds) < 2 ^ 31 → 0 ≤ rank →
  rank + Z.of_nat (length (rank_binaries cmds places)) < 2 ^ 31 →
  (∀ b, Z.of_nat (length (default [] (result !! b))) ≤ rank) →
  ∃ m, rank_map cmds places rank result = Ok m ∧
    ∀ b, default [] (m !! b) = default [] (result !! b) ++ positions b rank (rank_binaries cmds places).
Proof.
  intros Hp Hc. revert rank result. induction Hp as [|p places [Hi Hn] _ IH]; intros rank result H0 Hlen Hres.
  { exists result. split; [done|]. intros b. cbn. by rewrite app_nil_r. }
  cbn [rank_binaries flat_map] in Hlen |- *. fold (rank_binaries cmds places) in Hlen |- *.
  rewrite length_app, length_replicate, Nat2Z.inj_add, Z2Nat.id in Hlen by done.
  set (x := default "" (cmds !! Z.to_nat (cmdIx p))) in *.
  assert (cmds !! Z.to_nat (cmdIx p) = Some x) as Hx.
  { unfold x. destruct (lookup_lt_is_Some_2 cmds (Z.to_nat (cmdIx p))) as [y ->]; [lia|done]. }
  cbn [rank_map]. unfold uint64. rewrite (Z.mod_small (cmdIx p)) by lia.
  destruct (Z.leb_spec (Z.of_nat (length cmds)) (cmdIx p)); [lia|]. rewrite Hx.
  specialize (Hres x) as Hx'. rewrite !Z.mod_small by lia.
  destruct (Z.ltb_spec max_reserve (Z.of_nat (length (default [] (result !! x))) + pl_numPEs p)) as [Hm|_];
    [unfold max_reserve in Hm; lia|].
  destruct (IH (rank + pl_numPEs p)
              (<[x := default [] (result !! x) ++ place_ranks rank (pl_numPEs p)]> result))
    as (m & -> & Hm); [lia..| |].
  { intros b. specialize (Hres b). destruct (decide (x = b)) as [->|].
    - rewrite lookup_insert_eq. cbn [default from_option id]. unfold place_ranks.
      rewrite length_app, length_map, length_seq. lia.
    - rewrite lookup_insert_ne by done. lia. }
  exists m. split; [done|]. intros b. rewrite Hm, positions_app, positions_replicate, length_replicate, Z2Nat.id by lia.
  destruct (decide (x = b)) as [->|].
  - rewrite lookup_insert_eq. cbn [default from_option id]. by rewrite app_assoc.
  - by rewrite lookup_insert_ne.
Qed.

Lemma sum_PEs_run (cmds : list string) (places : list placeNodeList_t) (total : Z) :
  Forall (place_ok cmds) places → 0 ≤ total →
  total + Z.of_nat (length (rank_binaries cmds places)) < 2 ^ 31 →
  sum_PEs total places = Ok (total + Z.of_nat (length (rank_binaries cmds places))).
Proof.
  intros Hp. revert total. induction Hp as [|p places [_ Hn] _ IH]; intros total H0 Hlen.
  { cbn. f_equal. lia. }
  cbn [rank_binaries flat_map] in Hlen |- *. fold (rank_binaries cmds places) in Hlen |- *.
  rewrite length_app, length_replicate, Nat2Z.inj_add, Z2Nat.id in Hlen |- * by done.
  cbn [sum_PEs]. unfold in_int, int_min, int_max.
  destruct (Z.leb_spec (- 2 ^ 31) (total + pl_numPEs p)); [|lia].
  destruct (Z.leb_spec (total + pl_numPEs p) (2 ^ 31 - 1)); [|lia]. cbn [andb].
  rewrite IH by lia. f_equal. lia.
Qed.

(** The ranks of an ALPS application.  When the places name programs of the application and
    hold fewer than 2^31 processes together, the map of programs to ranks gives every program
    exactly the ranks of its places, counted through all places in order, and the number of
    processes is that of all ranks. *)
Theorem alps_binary_ranks (a : ALPSApp) :
  Forall (place_ok (m_alpsCmdDetail a)) (m_alpsPlaceNodeList a) → Z.of_nat (length (m_alpsCmdDetail a)) < 2 ^ 31 →
  let l := rank_binaries (m_alpsCmdDetail a) (m_alpsPlaceNodeList a) in
  Z.of_nat (length l) < 2 ^ 31 →
  getNumPEs a = Ok (Z.of_nat (length l)) ∧
  ∃ m, getBinaryRankMap a = Ok m ∧ ∀ b, default [] (m !! b) = positions b 0 l.
Proof.
  intros Hp Hc l Hl. split.
  - unfold getNumPEs. rewrite (sum_PEs_run (m_alpsCmdDetail a)) by done. cbn. unfold uint64.
    rewrite Z.mod_small; [done|]. fold l. lia.
  - destruct (rank_map_run (m_alpsCmdDetail a) (m_alpsPlaceNodeList a) 0 ∅) as (m & Hm & Hb); [done..| |].
    { intros b. by rewrite lookup_empty. }
    exists m. split; [done|]. intros b. by rewrite Hb, lookup_empty.
Qed.

(** ** Launches that fail *)

Section Launching.
Context `{Host} `{FrontendDaemon} `{Aprun}.

Lemma killing_Throw {A : Type} (pid : Z) (m : M sys A) (s s' : sys) (e : string) :
  killing pid m s = (Throw e, s') → last (sys_trace s') = Some (SSignal pid 9).
Proof.
  unfold killing, try_catch. destruct (m s) as [[a|w|w] s1]; [done| |done].
  cbn. intros [= _ <-]. cbn [sys_trace]. by rewrite last_snoc.
Qed.

Lemma register_wrapper_Throw (pid aprunPid : Z) (info : AprunLaunchInfo) (s s' : sys) (e : string) :
  register_wrapper pid aprunPid info s = (Throw e, s') →
  aprunPid ≠ pid ∧
  sys_trace s' = sys_trace s ++ [SCall "request_RegisterUtil" [to_string (daemonAppId info); to_string pid]] ∧
  req_done (sys_trace s') = Throw e.
Proof.
  unfold register_wrapper. case_bool_decide as Hp; [done|]. rewrite request_run. intros [= Hr <-]. by split_and!.
Qed.

Lemma killing_Ok {A : Type} (pid : Z) (m : M sys A) (s s' : sys) (a : A) :
  killing pid m s = (Ok a, s') → m s = (Ok a, s').
Proof. unfold killing, try_catch. by destruct (m s) as [[?|?|?] ?]. Qed.

Lemma call_run {A : Type} (name : string) (args : list string) (answer : list sys_event → A) (s : sys) :
  call name args answer s =
    (Ok (answer (sys_trace s ++ [SCall name args])), MkSys (sys_env s) (sys_trace s ++ [SCall name args])).
Proof. done. Qed.

Lemma getAprunLaunchInfo_Ok (apid : Z) (s s' : sys) (i : AprunLaunchInfo) :
  getAprunLaunchInfo apid s = (Ok i, s') →
  ∃ info cmds places,
    let t := sys_trace s ++ [SCall "alps_get_appinfo_ver2_err" [to_string apid]] in
    alps_get_appinfo_ver2_err t = inl (info, cmds, places) ∧
    sys_trace s' = t ++ [SCall "request_RegisterApp" [to_string (aprunPid info)]] ∧
    req_id (sys_trace s') = Ok (daemonAppId i).
Proof.
  unfold getAprunLaunchInfo. rewrite (bind_run_Ok _ _ _ _ _ (call_run _ _ alps_get_appinfo_ver2_err s)). intros Hr.
  destruct (alps_get_appinfo_ver2_err _) as [[[info cmds] places]|] eqn:Ea; [|done].
  apply bind_Ok in Hr as (id & s1 & Hq & Hr). rewrite request_run in Hq. injection Hq as Hq <-.
  exists info, cmds, places. cbn zeta. split; [done|]. destruct places as [|p places]; [done|]. minv.
  by simplify_eq.
Qed.

(** The launcher is a wrapper: another process was found to be aprun, libalps was asked for its
    application, the daemon has given that an id, and what threw is the request to look after the
    launcher under this id. *)
Definition wrapper_handed_over (launcherName : string) (pid : Z) (what : string) (s s' : sys) : Prop :=
  ∃ (s0 s1 : sys) (real apid id : Z) info cmds places,
    sys_trace s `prefix_of` sys_trace s0 ∧ findRealAprunPid launcherName pid s0 = (Ok real, s1) ∧ real ≠ pid ∧
    let t1 := sys_trace s1 ++ [SCall "alps_get_apid" [to_string getSvcNid; to_string real]] in
    let t2 := t1 ++ [SCall "alps_get_appinfo_ver2_err" [to_string apid]] in
    let t3 := t2 ++ [SCall "request_RegisterApp" [to_string (aprunPid info)]] in
    alps_get_apid t1 getSvcNid real = apid ∧ alps_get_appinfo_ver2_err t2 = inl (info, cmds, places) ∧
    req_id t3 = Ok id ∧
    sys_trace s' = t3 ++ [SCall "request_RegisterUtil" [to_string id; to_string pid]] ∧
    req_done (sys_trace s') = Throw what.

(** What becomes of the process that a launch has started. *)
Definition launcher_handled (launcherName : string) (pid : Z) (what : string) (s s' : sys) : Prop :=
  last (sys_trace s') = Some (SSignal pid 9) ∨ wrapper_handed_over launcherName pid what s s'.

(** What follows the start of the launcher, in both ways to launch. *)
Lemma launch_end {A : Type} (launcherName : string) (pid : Z) (m : M sys A) (found : A → Z * AprunLaunchInfo)
    (change : A → AprunLaunchInfo) (k : A → M sys AprunLaunchInfo) (s s' : sys) (e : string) :
  (∀ s1 s2 a, m s1 = (Ok a, s2) → ∃ s0, sys_trace s1 `prefix_of` sys_trace s0 ∧
    launched_info launcherName pid s0 = (Ok (found a), s2)) →
  (∀ a, daemonAppId (change a) = daemonAppId (found a).2) →
  (∀ a, k a = (register_wrapper pid (found a).1 (change a);; mret (change a))) →
  (killing pid m ≫= k) s = (Throw e, s') → launcher_handled launcherName pid e s s'.
Proof.
  intros Hm Hid Hk. unfold mbind at 1, M_bind at 1. destruct (killing pid m s) as [[a|w|w] s1] eqn:Ek; [| |done].
  2: { intros [= _ <-]. left. by eapply killing_Throw. }
  rewrite Hk. unfold mbind, M_bind. destruct (register_wrapper pid (found a).1 (change a) s1) as [[[]|w|w] s2] eqn:Er; [done| |done].
  intros [= <- <-]. right. apply register_wrapper_Throw in Er as (Hp & El & Eq). rewrite Hid in El.
  apply killing_Ok, Hm in Ek as (s0 & Hpre & Hl). destruct (found a) as [real i]. cbn [fst snd] in *.
  unfold launched_info in Hl. apply bind_Ok in Hl as (real' & s3 & Hf & Hl).
  apply bind_Ok in Hl as (apid & s4 & Ha & Hl). apply bind_Ok in Hl as (i' & s5 & Hi & Hl).
  apply Ok_inj in Hl as [[= -> ->] <-].
  unfold find_apid in Ha. rewrite call_run in Ha. injection Ha as Ha <-.
  apply getAprunLaunchInfo_Ok in Hi as (info & cmds & places & Hi & Et & Hq).
  exists s0, s3, real, apid, (daemonAppId i), info, cmds, places. cbn zeta. cbn [sys_trace] in *.
  rewrite Et in *. by split_and!.
Qed.

Lemma handled_later (launcherName : string) (pid : Z) (what : string) (s s1 s' : sys) :
  sys_trace s `prefix_of` sys_trace s1 →
  launcher_handled launcherName pid what s1 s' → launcher_handled launcherName pid what s s'.
Proof.
  intros Hp [Hl|(s0 & s2 & real & apid & id & info & cmds & places & Hpre & Hr)]; [by left|right].
  exists s0, s2, real, apid, id, info, cmds, places. split; [by etrans|done].
Qed.

Lemma await_sync_trace (fuel : nat) (fd : Z) (s : sys) : sys_trace s `prefix_of` sys_trace (await_sync fuel fd s).2.
Proof.
  revert s. induction fuel as [|fuel IH]; intros s; [done|]. cbn [await_sync].
  rewrite (bind_run_Ok _ _ _ _ _ (call_run "read" _ sync_read s)).
  destruct (sync_read _); cbn [throw mret M_ret snd sys_trace]; try by eexists.
  etrans; [|apply IH]. by eexists.
Qed.

(** The process that a launch has started, after what was done before. *)
Definition started_by (before : list sys_event) (argv env : list string) (s : sys) : Z :=
  aprun_fork (sys_trace s ++ before ++ [SFork argv env]).

Lemma fork_aprun_run (argv env : list string) (s : sys) :
  fork_aprun argv env s =
    (let pid := aprun_fork (sys_trace s ++ [SFork argv env]) in if 0 <? pid then Ok pid else Throw "fork failed",
     MkSys (sys_env s) (sys_trace s ++ [SFork argv env])).
Proof. unfold fork_aprun, mbind, M_bind. cbn. by case_match. Qed.

Lemma barrier_launched (launcherName : string) (fuel : nat) (pid r0 w1 r1 : Z) (s1 s2 : sys)
    (a : Z * (Z * AprunLaunchInfo)) :
  (close_fd r0;; close_fd w1;; sync ← await_sync fuel r1; close_fd r1;;
   launched ← launched_info launcherName pid; mret (sync, launched)) s1 = (Ok a, s2) →
  ∃ s0, sys_trace s1 `prefix_of` sys_trace s0 ∧ launched_info launcherName pid s0 = (Ok a.2, s2).
Proof.
  intros Hr. apply bind_Ok in Hr as (? & s3 & H3 & Hr). apply bind_Ok in Hr as (? & s4 & H4 & Hr).
  apply bind_Ok in Hr as (sync & s5 & Hs & Hr). apply bind_Ok in Hr as (? & s6 & H6 & Hr).
  apply bind_Ok in Hr as (l & s7 & Hl & Hr). apply Ok_inj in Hr as [<- <-]. exists s6. split; [|done].
  pose proof (await_sync_trace fuel r1 s4) as Ht. rewrite Hs in Ht. cbn [snd] in Ht.
  injection H3 as _ <-. injection H4 as _ <-. injection H6 as _ <-. cbn [sys_trace] in *.
  etrans; [|by eexists]. etrans; [|done]. rewrite <-app_assoc. by eexists.
Qed.

(** C30 A launch of aprun that fails does not leave its launcher.  When it throws after the
    launcher was started, with or without the barrier, the last it did was to kill the launcher,
    with one exception: the launcher is a wrapper of an aprun whose application the daemon has
    been told of, and what threw is the request that the daemon look after the launcher for
    this application. *)
Theorem alps_launch_leaves_nothing (fuel : nat) (launcherName path : string) (args env : list string) (s s' : sys)
    (what : string) :
  os_pathFind launcherName = Some path →
  (launchApp launcherName args env s = (Throw what, s') →
   let pid := started_by [] (path :: args) env s in 0 < pid → launcher_handled launcherName pid what s s') ∧
  (∀ r0 w0 r1 w1, aprun_pipes (sys_trace s ++ [SCall "pipe" []]) = Some ((r0, w0), (r1, w1)) →
   launchAppBarrier fuel launcherName args env s = (Throw what, s') →
   let pid := started_by [SCall "pipe" []]
                (path :: "-P" :: (to_string w1 +:+ "," +:+ to_string r0) :: args) env s in
   0 < pid → launcher_handled launcherName pid what s s').
Proof.
  intros Hp. unfold started_by. split.
  - unfold launchApp. rewrite Hp. unfold mbind at 1, M_bind at 1. rewrite fork_aprun_run. cbn zeta.
    intros Hl Hpid. cbn [app] in Hpid. rewrite (proj2 (Z.ltb_lt _ _) Hpid) in Hl.
    apply (launch_end launcherName _ _ id snd) in Hl; [|intros s1 s2 a Ha; by exists s1|done|by intros [? ?]].
    eapply handled_later, Hl. by eexists.
  - intros r0 w0 r1 w1 Hpipes. unfold launchAppBarrier. rewrite Hp.
    rewrite (bind_run_Ok _ _ _ _ _ (call_run "pipe" [] aprun_pipes s)), Hpipes.
    unfold mbind at 1, M_bind at 1. rewrite fork_aprun_run. cbn zeta. cbn [sys_trace sys_env].
    rewrite <-app_assoc. intros Hl Hpid. rewrite (proj2 (Z.ltb_lt _ _) Hpid) in Hl.
    apply (launch_end launcherName _ _ snd (λ a, MkAprunInfo (daemonAppId a.2.2) (alpsAppInfo a.2.2) (alpsCmdDetail a.2.2)
      (alpsPlaceNodeList a.2.2) (pe0Node a.2.2) w0 a.1)) in Hl; [|by apply barrier_launched|done|by intros [? [? ?]]].
    eapply handled_later, Hl. by eexists.
Qed.

(** ** The barrier *)

Lemma await_sync_Ok (fuel : nat) (fd sync : Z) (s s' : sys) :
  await_sync fuel fd s = (Ok sync, s') →
  ∃ t, last t = Some (SCall "read" [to_string fd]) ∧ sync_read t = SyncRead sync.
Proof.
  revert s. induction fuel as [|fuel IH]; intros s; [done|]. cbn [await_sync].
  rewrite (bind_run_Ok _ _ _ _ _ (call_run "read" _ sync_read s)).
  cbv beta. destruct (sync_read _) eqn:Er; cbv [throw mret M_ret]; [|done|apply IH|done]. intros [= <- _]. eexists. split; [|done]. apply last_snoc.
Qed.

Lemma launchAppBarrier_Ok (fuel : nat) (launcherName : string) (args env : list string) (r0 w0 r1 w1 : Z)
    (s s' : sys) (info : AprunLaunchInfo) :
  aprun_pipes (sys_trace s ++ [SCall "pipe" []]) = Some ((r0, w0), (r1, w1)) →
  launchAppBarrier fuel launcherName args env s = (Ok info, s') →
  barrierReleaseFd info = w0 ∧
  ∃ t, last t = Some (SCall "read" [to_string r1]) ∧ sync_read t = SyncRead (barrierReleaseSync info).
Proof.
  intros Hpipes. unfold launchAppBarrier. destruct (os_pathFind launcherName) as [path|]; [|done].
  rewrite (bind_run_Ok _ _ _ _ _ (call_run "pipe" [] aprun_pipes s)), Hpipes.
  intros Hl. apply bind_Ok in Hl as (pid & s1 & _ & Hl).
  apply bind_Ok in Hl as ([sync [p i]] & s2 & Hk & Hl). apply bind_Ok in Hl as ([] & s3 & _ & Hl).
  apply Ok_inj in Hl as [<- _]. split; [done|]. apply killing_Ok in Hk. minv. simplify_eq.
  cbn [barrierReleaseSync]. by eapply await_sync_Ok.
Qed.

Definition with_events (l : list sys_event) (st : app_state) : app_state :=
  MkAppState (MkSys (sys_env (as_sys st)) (sys_trace (as_sys st) ++ l)) (as_sent st) (as_fd st) (as_sync st)
    (as_session st).

Lemma on_sys_call {A : Type} (name : string) (args : list string) (answer : list sys_event → A) (st : app_state) :
  on_sys (call name args answer) st =
    (Ok (answer (sys_trace (as_sys st) ++ [SCall name args])), with_events [SCall name args] st).
Proof. done. Qed.

Lemma releaseBarrier_run (st : app_state) :
  let write := SCall "write" [to_string (as_fd st); to_string (as_sync st)] in
  releaseBarrier st =
    if (as_fd st <? 0) || (as_sync st <? 0) then (Throw "application is not at startup barrier", st)
    else if barrier_written (sys_trace (as_sys st) ++ [write])
         then (Ok tt, set_released (with_events [write; SCall "close" [to_string (as_fd st)]] st))
         else (Throw "Aprun barrier release operation failed.", with_events [write] st).
Proof.
  cbv zeta. unfold releaseBarrier. rewrite (bind_run_Ok get _ st st st eq_refl).
  destruct ((as_fd st <? 0) || (as_sync st <? 0)); [done|].
  rewrite (bind_run_Ok _ _ _ _ _ (on_sys_call _ _ _ _)). destruct (barrier_written _); [|done].
  unfold mbind, M_bind, with_events, set_released. cbn. by rewrite <-app_assoc.
Qed.

(** Aprun is released with what it has sent.  An application that is launched with the
    barrier is released by writing the number that was read from aprun back to it, on the other
    pipe, once: when the write fails releasing can be tried again, after it has succeeded it
    throws and writes nothing.  A number that is negative is never written back. *)
Theorem alps_barrier_released (fuel : nat) (fd : frontend_data) (launcherName beDaemonName : string)
    (args env : list string) (r0 w0 r1 w1 : Z) (s s' : sys) (a : ALPSApp) (st : app_state) :
  aprun_pipes (sys_trace s ++ [SCall "pipe" []]) = Some ((r0, w0), (r1, w1)) → 0 ≤ w0 →
  launchBarrier fuel fd launcherName beDaemonName args env s = (Ok (a, st), s') →
  ∃ sync t, last t = Some (SCall "read" [to_string r1]) ∧ sync_read t = SyncRead sync ∧ as_sys st = s' ∧
    let write := SCall "write" [to_string w0; to_string sync] in
    let after l := MkAppState (MkSys (sys_env s') (sys_trace s' ++ l)) false in
    releaseBarrier st =
      (if sync <? 0 then (Throw "application is not at startup barrier", st)
       else if barrier_written (sys_trace s' ++ [write])
            then (Ok tt, after [write; SCall "close" [to_string w0]] (-1) (-1) false)
            else (Throw "Aprun barrier release operation failed.", after [write] w0 sync false)) ∧
    ∀ st', releaseBarrier st = (Ok tt, st') →
      releaseBarrier st' = (Throw "application is not at startup barrier", st').
Proof.
  intros Hpipes Hw Hl. unfold launchBarrier in Hl. apply bind_Ok in Hl as (info & s1 & Hi & Hl).
  apply (launchAppBarrier_Ok _ _ _ _ _ _ _ _ _ _ _ Hpipes) in Hi as (Hfd & t & Ht & Hr).
  cbv [new_app mbind M_bind get mret M_ret] in Hl. injection Hl as <- <- <-.
  destruct info as [id ai cmds places pe0 fd' sync]. cbn [barrierReleaseFd barrierReleaseSync] in *. subst fd'.
  exists sync, t. split_and!; [done..| |].
  - rewrite releaseBarrier_run. cbn [initial_state as_fd as_sync barrierReleaseFd barrierReleaseSync as_sys].
    by rewrite (proj2 (Z.ltb_ge w0 0) Hw).
  - intros st' Hs. rewrite releaseBarrier_run in Hs. rewrite releaseBarrier_run.
    destruct ((_ <? 0) || _) in Hs; [done|]. destruct (barrier_written _) in Hs; [|done]. by injection Hs as <-.
Qed.

(** ** Packages *)

(** A call of the tool helper that ships a package, and the wait after one that has failed. *)
Definition ship_call (a : ALPSApp) (tarPath : string) : sys_event :=
  SCall "alps_launch_tool_helper" [apid_text a; to_string (m_pe0Node a); to_string 1; to_string 0; "1"; tarPath].

Definition ship_wait : sys_event := SCall "usleep" ["500000"].

Fixpoint ship_rounds (n : nat) (a : ALPSApp) (tarPath : string) : list sys_event :=
  match n with O => [] | S n' => ship_call a tarPath :: ship_wait :: ship_rounds n' a tarPath end.

Lemma ship_attempts_run (tries : nat) (a : ALPSApp) (tarPath : string) (error : option string) (s : sys) :
  let tr n := sys_trace s ++ ship_rounds n a tarPath in
  let fails n := is_Some (alps_launch_tool_helper (tr n ++ [ship_call a tarPath])) in
  (∃ n, (n < tries)%nat ∧ (∀ i, (i < n)%nat → fails i) ∧ ¬ fails n ∧
    ship_attempts tries a tarPath error s = (Ok None, MkSys (sys_env s) (tr n ++ [ship_call a tarPath]))) ∨
  ((∀ i, (i < tries)%nat → fails i) ∧ ∃ e, (is_Some error ∨ tries ≠ 0%nat → is_Some e) ∧
    ship_attempts tries a tarPath error s = (Ok e, MkSys (sys_env s) (tr tries))).
Proof.
  cbv zeta. revert s error. induction tries as [|tries IH]; intros s error.
  { right. split; [intros i Hi; lia|]. exists error. split; [by intros [?|?]|].
    cbn [ship_rounds ship_attempts]. rewrite app_nil_r. by destruct s. }
  cbn [ship_attempts]. unfold tool_helper. rewrite (bind_run_Ok _ _ _ _ _ (call_run _ _ _ _)).
  fold (ship_call a tarPath). destruct (alps_launch_tool_helper _) as [e|] eqn:E.
  - set (s1 := MkSys (sys_env s) (sys_trace s ++ [ship_call a tarPath; ship_wait])).
    assert (∀ k : M sys (option string), (sys_emit (SCall "usleep" ["500000"]);; k)
              (MkSys (sys_env s) (sys_trace s ++ [ship_call a tarPath])) = k s1) as ->.
    { intros k. unfold mbind, M_bind. cbn. unfold s1. by rewrite <-app_assoc. }
    assert (∀ n, sys_trace s1 ++ ship_rounds n a tarPath = sys_trace s ++ ship_rounds (S n) a tarPath) as Hs1.
    { intros n. cbn. by rewrite <-app_assoc. }
    assert (∀ n, (∀ i, (i < n)%nat →
        is_Some (alps_launch_tool_helper ((sys_trace s1 ++ ship_rounds i a tarPath) ++ [ship_call a tarPath]))) →
      ∀ i, (i < S n)%nat →
        is_Some (alps_launch_tool_helper ((sys_trace s ++ ship_rounds i a tarPath) ++ [ship_call a tarPath]))) as Hf1.
    { intros n Hf [|i] Hi; [cbn [ship_rounds]; rewrite app_nil_r, E; by eexists|].
      rewrite <-Hs1. apply Hf. lia. }
    destruct (IH s1 (Some e)) as [(n & Hn & Hf & Ho & ->)|[Hf (e' & He' & ->)]].
    + left. exists (S n). rewrite <-Hs1. split_and!; [lia|by apply Hf1|done|done].
    + right. split; [by apply Hf1|]. exists e'. rewrite <-Hs1. split; [|done].
      intros _. apply He'. left. by eexists.
  - left. exists 0%nat. cbn [ship_rounds]. rewrite app_nil_r. split_and!; [lia|intros i Hi; lia| |done].
    rewrite E. by intros [? [=]].
Qed.

(** A package of an ALPS application is sent at most five times, with half a second after
    every failure: sending stops at the first success, and shipping throws exactly when all five
    attempts have failed. *)
Theorem alps_package_attempts (a : ALPSApp) (tarPath : string) (s : sys) :
  let tr n := sys_trace s ++ ship_rounds n a tarPath in
  let fails n := is_Some (alps_launch_tool_helper (tr n ++ [ship_call a tarPath])) in
  (∃ n, (n < LAUNCH_TOOL_RETRY)%nat ∧ (∀ i, (i < n)%nat → fails i) ∧ ¬ fails n ∧
    shipPackage a tarPath s = (Ok tt, MkSys (sys_env s) (tr n ++ [ship_call a tarPath]))) ∨
  ((∀ i, (i < LAUNCH_TOOL_RETRY)%nat → fails i) ∧ ∃ what,
    shipPackage a tarPath s = (Throw what, MkSys (sys_env s) (tr LAUNCH_TOOL_RETRY))).
Proof.
  cbv zeta. destruct (ship_attempts_run LAUNCH_TOOL_RETRY a tarPath None s) as [(n & Hn & Hf & Ho & E)|[Hf (e & He & E)]].
  - left. exists n. split_and!; [done..|]. unfold shipPackage. by rewrite (bind_run_Ok _ _ _ _ _ E).
  - right. split; [done|]. destruct He as [what ->]; [by right|]. exists ("alps_launch_tool_helper: " +:+ what).
    unfold shipPackage. by rewrite (bind_run_Ok _ _ _ _ _ E).
Qed.
(** ** Commands *)

(** The words of a single command: they are between blanks, a character after a backslash stands
    for itself, and there is no other command, behind or beside. *)
Definition push_char (c : ascii) (words : list string) : list string :=
  match words with [] => [String c ""] | w :: ws => String c w :: ws end.

Fixpoint command_words (s : string) : option (list string) :=
  match s with
  | "" => Some [""]
  | String c s' =>
      if decide (c = backslash)
      then match s' with "" => None | String d s'' => push_char d <$> command_words s'' end
      else if decide (c ∈ ["&"; ";"]%char) then None
      else if decide (c = " "%char) then (λ ws, "" :: ws) <$> command_words s' else push_char c <$> command_words s'
  end.

Definition push_text (t : string) (words : list string) : list string :=
  match words with [] => [t] | w :: ws => (t +:+ w) :: ws end.

Lemma push_char_text (c : ascii) (t : string) (words : list string) :
  push_char c (push_text t words) = push_text (String c t) words.
Proof. by destruct words. Qed.

Lemma escape_arg_char (c : ascii) (s : string) :
  c ≠ backslash →
  escape_arg (String c s) =
    (if decide (c ∈ [" "; "&"; ";"]%char) then String backslash (String c (escape_arg s)) else String c (escape_arg s)).
Proof.
  intros Hc. unfold escape_arg. cbn [escape_char].
  destruct (decide (c ∈ _)) as [Hin|Hin].
  - rewrite !elem_of_cons, elem_of_nil in Hin. destruct Hin as [->|[->|[->|[]]]]; done.
  - rewrite !not_elem_of_cons in Hin. destruct Hin as (H1' & H2' & H3' & _).
    rewrite (bool_decide_eq_false_2 (c = " "%char)) by done. cbn [escape_char].
    rewrite (bool_decide_eq_false_2 (c = "&"%char)) by done. cbn [escape_char].
    by rewrite (bool_decide_eq_false_2 (c = ";"%char)) by done.
Qed.

Lemma words_some (s : string) : command_words s ≠ Some [].
Proof.
  destruct s as [|c s]; [done|]. cbn. unfold push_char.
  destruct (decide (c = backslash)).
  { destruct s as [|d s]; [done|]. destruct (command_words s) as [[]|]; done. }
  repeat case_decide; [done|..]; destruct (command_words s) as [[]|]; done.
Qed.

Lemma push_text_fmap (c : ascii) (t : string) (words : option (list string)) :
  push_char c <$> (push_text t <$> words) = push_text (String c t) <$> words.
Proof. destruct words; [|done]. cbn. f_equal. apply push_char_text. Qed.

Lemma words_escaped (arg rest : string) :
  no_char backslash arg = true → command_words (escape_arg arg +:+ rest) = push_text arg <$> command_words rest.
Proof.
  induction arg as [|c arg IH]; intros Hn.
  { cbn. destruct (command_words rest) as [ws|] eqn:E; [|done]. cbn. f_equal.
    destruct ws; [|done]. by apply words_some in E. }
  unfold no_char in Hn. cbn in Hn. apply andb_prop in Hn as [Hc Hn].
  assert (c ≠ backslash) as Hc' by (by intros ->).
  rewrite escape_arg_char by done. specialize (IH Hn). destruct (decide (c ∈ _)) as [Hin|Hin].
  - change (String backslash (String c (escape_arg arg)) +:+ rest)
      with (String backslash (String c (escape_arg arg +:+ rest))).
    cbn [command_words]. rewrite decide_True by done. by rewrite IH, push_text_fmap.
  - change (String c (escape_arg arg) +:+ rest) with (String c (escape_arg arg +:+ rest)).
    cbn [command_words]. rewrite decide_False by done.
    rewrite decide_False by (intros Hin'; apply Hin; by right).
    rewrite decide_False by (intros ->; apply Hin; by left). by rewrite IH, push_text_fmap.
Qed.

(** A text that is a word as it is. *)
Definition plain_word (t : string) : Prop :=
  ∀ c, c ∈ [backslash; "&"; ";"; " "]%char → no_char c t = true.

Lemma words_plain (t rest : string) :
  plain_word t → command_words (t +:+ rest) = push_text t <$> command_words rest.
Proof.
  unfold plain_word, no_char. induction t as [|c t IH]; intros Hn.
  { by rewrite <-(words_escaped "" rest). }
  assert (c ∉ [backslash; "&"; ";"; " "]%char) as Hc.
  { intros Hin. specialize (Hn c Hin). cbn in Hn. by case_bool_decide. }
  change (String c t +:+ rest) with (String c (t +:+ rest)). cbn [command_words].
  rewrite decide_False by (intros ->; apply Hc; by left).
  rewrite decide_False by (intros Hin; apply Hc; apply elem_of_cons in Hin as [->|Hin];
    [by right; left|right; right; by apply elem_of_cons; left; apply list_elem_of_singleton in Hin]).
  rewrite decide_False by (intros ->; apply Hc; by right; right; right; left).
  rewrite IH, push_text_fmap; [done|]. intros d Hd. specialize (Hn d Hd). cbn in Hn. by apply andb_prop in Hn as [_ ?].
Qed.

Lemma words_args (args : list string) :
  Forall (λ arg, no_char backslash arg = true) args →
  command_words (String.concat "" (map (λ arg, " " +:+ escape_arg arg) args)) = Some ("" :: args).
Proof.
  induction 1 as [|arg args Ha _ IH]; [done|].
  assert (∀ x (l : list string), String.concat "" (x :: l) = x +:+ String.concat "" l) as Hcons.
  { intros x [|y l]; cbn; [by rewrite string_app_nil_r|done]. }
  cbn [map]. rewrite Hcons, string_app_assoc. match goal with |- context [" " +:+ escape_arg arg +:+ ?t] =>
    change (" " +:+ escape_arg arg +:+ t) with (String " " (escape_arg arg +:+ t)) end. cbn [command_words].
  rewrite decide_False by done. rewrite decide_False by (rewrite !elem_of_cons, elem_of_nil; naive_solver).
  rewrite decide_True by done. rewrite words_escaped, IH by done. cbn. by rewrite string_app_nil_r.
Qed.
(** C31 Starting a daemon under ALPS.  When it returns, the daemon was linked to its own name and
    transferred by the call of the tool helper that runs it, or, when it is on the nodes, only
    that call was made, with the daemon that is there, and from then on the daemon is on the nodes.
    When no argument has a backslash and the path of the daemon no special character, the command
    is a single one, and its words are the daemon and the arguments, blanks, ampersands and
    semicolons in them included. *)
Theorem alps_daemon_command (a : ALPSApp) (args : list string) (synchronous : bool) (st st' : app_state) :
  let program := if as_sent st then m_toolPath a +:+ "/" +:+ getBEDaemonName a
                 else m_cfg_dir (m_frontend a) +:+ "/" +:+ getBEDaemonName a in
  plain_word program → Forall (λ arg, no_char backslash arg = true) args →
  startDaemon a (Some args) synchronous st = (Ok tt, st') →
  as_sent st' = true ∧ ∃ command, command_words command = Some (program :: args) ∧
    sys_trace (as_sys st') = sys_trace (as_sys st) ++
      (if as_sent st then [] else [SUtil ["ln"; "-s"; m_be_daemon_path (m_frontend a); program] []]) ++
      [SCall "alps_launch_tool_helper"
         [apid_text a; to_string (m_pe0Node a); if as_sent st then "0" else "1"; "1"; "1"; command]] ++
      (if synchronous then [SSleep 1] else []).
Proof.
  intros program Hp Ha Hr.
  set (command := program +:+ String.concat "" (map (λ arg, " " +:+ escape_arg arg) args)).
  assert (command_words command = Some (program :: args)) as Hw.
  { unfold command. rewrite words_plain, words_args by done. cbn. by rewrite string_app_nil_r. }
  assert (String.concat "" (program :: map (λ arg, " " +:+ escape_arg arg) args) = command) as Hcat.
  { unfold command. destruct args; [by rewrite string_app_nil_r|done]. }
  unfold startDaemon in Hr. rewrite (bind_run_Ok get _ st st st eq_refl) in Hr.
  destruct st as [s sent fd sync session]. cbn [as_sent as_sys] in *. destruct sent.
  - fold program in Hr. unfold tool_helper in Hr. cbn zeta in Hr.
    rewrite (bind_run_Ok (mret program) _ _ program _ eq_refl), Hcat in Hr.
    rewrite (bind_run_Ok _ _ _ _ _ (on_sys_call _ _ _ _)) in Hr. destruct (alps_launch_tool_helper _); [done|].
    destruct synchronous; injection Hr as <-; (split; [done|]); exists command; (split; [done|]); cbn;
      by rewrite <-?app_assoc.
  - apply bind_Ok in Hr as (p & st1 & Hl & Hr). unfold link_daemon in Hl. fold program in Hl.
    apply bind_Ok in Hl as (linked & st2 & Hq & Hl).
    unfold on_sys, zoom in Hq. rewrite request_run in Hq. cbn in Hq. destruct (req_util_sync _) as [l|w|w]; [|done..].
    injection Hq as <- <-. destruct l; [|done]. injection Hl as <- <-. rewrite Hcat in Hr. unfold tool_helper in Hr.
    rewrite (bind_run_Ok _ _ _ _ _ (on_sys_call _ _ _ _)) in Hr. destruct (alps_launch_tool_helper _); [done|].
    destruct synchronous; injection Hr as <-; (split; [done|]); exists command; (split; [done|]); cbn;
      by rewrite <-!app_assoc.
Qed.
End Launching.

(** ** Concrete runs *)

Definition demo_places : list placeNodeList_t := [MkPlace 0 20 2; MkPlace 1 21 1; MkPlace 0 22 1].

(** An aprun whose application libalps knows or not. *)
Definition demo_aprun (known : bool) : Aprun := {|
  alps_get_apid _ _ _ := 100;
  alps_get_appinfo_ver2_err _ :=
    if known then inl (MkAppInfo 100 4000 12 2 3, ["a.out"; "b.out"], demo_places) else inr None;
  alps_launch_tool_helper _ := None;
  alps_get_overlap_ordinal _ := (0, None);
  aprun_fork _ := 4000;
  aprun_pipes _ := Some ((3, 4), (5, 6));
  sync_read _ := SyncRead 7;
  barrier_written _ := true;
  read_link _ _ := Some "/usr/bin/aprun";
  proc_names _ := None;
  proc_text _ _ := None;
  internal_session _ := Ok tt
|}.

Definition demo_alps_fd : frontend_data :=
  MkFrontend "" "" false "/cfg" "/opt/cti" "" "/opt/cti/libexec/cti_fe_daemon" "/opt/cti/libexec/cti_be_daemon".

Definition demo_alps_daemon : FrontendDaemon := demo_frontend_daemon (λ _, "") (λ _, true) "no" "".

Definition demo_empty_sys : sys := MkSys ∅ [].

(** The application and its state after the launch with the barrier. *)
Abbreviation demo_launched :=
  (@launchBarrier slash_host demo_alps_daemon (demo_aprun true) 1 demo_alps_fd "aprun" "cti_be_daemon1"
     ["-n"; "4"; "a.out"] [] demo_empty_sys).

Abbreviation demo_alps_app :=
  (@ALPSApp_new slash_host demo_alps_fd "cti_be_daemon1"
     (MkAprunInfo 1 (MkAppInfo 100 4000 12 2 3) ["a.out"; "b.out"] demo_places 20 4 7)).

Lemma alps_binary_ranks_witness :
  getNumPEs demo_alps_app = Ok 4 ∧
  ∃ m, getBinaryRankMap demo_alps_app = Ok m ∧
    default [] (m !! "a.out") = [0; 1; 3] ∧ default [] (m !! "b.out") = [2].
Proof.
  destruct (alps_binary_ranks demo_alps_app) as [Hn (m & Hm & Hb)].
  - repeat constructor; by vm_compute.
  - by vm_compute.
  - by vm_compute.
  - split; [exact Hn|]. exists m. split; [exact Hm|]. rewrite !Hb. by vm_compute.
Defined.

Lemma alps_launch_leaves_nothing_witness :
  ∃ s', @launchApp slash_host demo_alps_daemon (demo_aprun false) "aprun" ["a.out"] [] demo_empty_sys
          = (Throw "alps_get_appinfo_ver2_err", s') ∧
    @launcher_handled slash_host demo_alps_daemon (demo_aprun false) "aprun" 4000 "alps_get_appinfo_ver2_err" demo_empty_sys s'.
Proof.
  eexists. split; [by vm_compute|].
  eapply (proj1 (@alps_launch_leaves_nothing slash_host demo_alps_daemon (demo_aprun false) 1 "aprun"
            "/usr/bin/aprun" ["a.out"] [] demo_empty_sys _ "alps_get_appinfo_ver2_err" eq_refl)); by vm_compute.
Defined.

Lemma alps_barrier_released_witness :
  ∃ a st s', demo_launched = (Ok (a, st), s') ∧
    ∃ st', @releaseBarrier (demo_aprun true) st = (Ok tt, st') ∧
      @releaseBarrier (demo_aprun true) st' = (Throw "application is not at startup barrier", st').
Proof.
  eexists _, _, _. split; [by vm_compute|]. eexists. split; [by vm_compute|].
  destruct (@alps_barrier_released slash_host demo_alps_daemon (demo_aprun true) 1 demo_alps_fd "aprun"
              "cti_be_daemon1" ["-n"; "4"; "a.out"] [] 3 4 5 6 demo_empty_sys demo_launched.2
              demo_alps_app (initial_state (MkAprunInfo 1 (MkAppInfo 100 4000 12 2 3) ["a.out"; "b.out"]
                demo_places 20 4 7) demo_launched.2)) as (sync & t & _ & _ & _ & _ & Hr);
    [done|lia|by vm_compute|]. apply Hr. by vm_compute.
Defined.

Lemma alps_daemon_command_witness :
  ∃ st', @startDaemon demo_alps_daemon (demo_aprun true) demo_alps_app (Some ["-x"; "two words"; "a&b;c"]) false
           (MkAppState demo_empty_sys false (-1) (-1) false) = (Ok tt, st') ∧
    as_sent st' = true ∧ ∃ command, command_words command = Some ["/cfg/cti_be_daemon1"; "-x"; "two words"; "a&b;c"].
Proof.
  eexists. split; [by vm_compute|].
  destruct (@alps_daemon_command demo_alps_daemon (demo_aprun true) demo_alps_app ["-x"; "two words"; "a&b;c"] false
              (MkAppState demo_empty_sys false (-1) (-1) false)
              (@startDaemon demo_alps_daemon (demo_aprun true) demo_alps_app (Some ["-x"; "two words"; "a&b;c"]) false
                 (MkAppState demo_empty_sys false (-1) (-1) false)).2) as (Hs & command & Hc & _);
    [|by repeat constructor|by vm_compute|].
  { intros c Hc. repeat (apply elem_of_cons in Hc as [->|Hc]; [by vm_compute|]). by apply elem_of_nil in Hc. }
  split; [by vm_compute|]. exists command. exact Hc.
Defined.
