(* ===== verification/DaemonProofs.v ===== *)
(** * The frontend daemon: invariants and protocol

    Every request handler and signal keeps the registry consistent, answers with
    exactly one response of the kind the protocol gives its request, and makes
    progress on the request stream. *)

From S2P Require Import Prelude Split Argv Host Wire Launch Daemon Handlers FEIface.

(** ** Code that only consumes its stream *)

Definition shrinks {A : Type} (m : M (list item) A) : Prop :=
  ∀ n, preserves (λ l, (length l ≤ n)%nat) m.

Definition shrinks_is {A : Type} (m : M istream A) : Prop :=
  ∀ n, preserves (λ st, (length (is_items st) ≤ n)%nat) m.

Section Shrinks.
Context `{Kernel} `{ReqSocket}.

Lemma shrinks_sys_read (k : nat) : shrinks (sys_read k).
Proof. intros n [|x l] Hl; [done|]. cbn [sys_read snd]. rewrite length_drop. lia. Qed.

Lemma shrinks_fdReadLoop {T : Type} (w : wire T) : shrinks (fdReadLoop w).
Proof.
  intros n. unfold fdReadLoop. apply preserves_bind; [|auto with cti].
  assert (∀ k, preserves (λ l, (length l ≤ n)%nat) (fd_reader k)) as Hr.
  { intros k. apply preserves_bind; [apply shrinks_sys_read|]. intros [|]; auto with cti. }
  generalize (w_size w) at 2 as k. induction (w_size w) as [|f IH]; intros [|k]; cbn;
    [auto with cti..|].
  apply preserves_bind; [apply Hr|]. intros [|b bs]; [auto with cti|].
  apply preserves_bind; [apply IH|auto with cti].
Qed.

Lemma shrinks_take_line (l : list item) : (length (take_line l).2 ≤ length l)%nat.
Proof.
  induction l as [|x l IH]; [done|]. cbn. repeat case_decide; cbn; [lia..|].
  destruct (take_line l) as [[s b] r]. cbn in *. lia.
Qed.

Lemma shrinks_receive_string (what : string) : shrinks_is (receive_string what).
Proof.
  intros n [l b] Hl. unfold receive_string, getline_nul. cbn [is_eof is_items].
  destruct b; [done|]. pose proof (shrinks_take_line l) as Ht.
  destruct (take_line l) as [[s found] r]. cbn in *.
  destruct found; [cbn; lia|]. destruct (is_empty s); cbn; lia.
Qed.

Lemma shrinks_with_istream {A : Type} (m : M istream A) : shrinks_is m → shrinks (with_istream m).
Proof.
  intros Hm n l Hl. unfold with_istream. specialize (Hm n (MkIstream l false) Hl).
  by destruct (m (MkIstream l false)).
Qed.

Lemma shrinks_receive_strings (k : nat) : shrinks_is (receive_strings k).
Proof.
  intros n. induction k as [|k IH]; cbn; [auto with cti|].
  apply preserves_bind; [apply shrinks_receive_string|intros s].
  apply preserves_bind; [apply IH|auto with cti].
Qed.

Lemma shrinks_receive_count (what : string) : shrinks_is (receive_count what).
Proof.
  intros n. unfold receive_count. apply preserves_bind; [apply shrinks_receive_string|intros s].
  apply preserves_bind; [auto with cti|]. intros [z r]. destruct (is_empty r); auto with cti.
Qed.

Lemma shrinks_readLaunchData : shrinks readLaunchData.
Proof.
  intros n. apply preserves_bind.
  - intros l Hl. unfold receive_fds. destruct (rs_numbers l) as [[a b] c].
    destruct (negb rs_is_socket); [done|]. destruct l as [|[] l]; cbn in *; [done|lia..].
  - intros [[i o] e]. apply shrinks_with_istream. intros m.
    apply preserves_bind; [apply shrinks_receive_string|intros path].
    apply preserves_bind; [apply shrinks_receive_count|intros argc].
    apply preserves_bind; [apply shrinks_receive_strings|intros argv].
    apply preserves_bind; [apply shrinks_receive_count|intros envc].
    apply preserves_bind; [apply shrinks_receive_strings|intros vars].
    destruct (sort_env vars). auto with cti.
Qed.

Lemma shrinks_read_shim_data : shrinks_is read_shim_data.
Proof.
  intros n. repeat (apply preserves_bind; [apply shrinks_receive_string|intros ?]). auto with cti.
Qed.
End Shrinks.

(** ** Invariants of the handlers, generically *)

Section Keep.
Context `{Kernel} `{ReqSocket} `{Procs} `{MPIR} `{Host}.

(** A property of the daemon that survives everything but responses: reading
    requests, events, the environment, the MPIR maps, the cleanup list, and the
    four operations on the registry. *)
Record admissible (I : daemon → Prop) : Prop := Admissible {
  ad_in : ∀ d l, I d → (length l ≤ length (d_in d))%nat → I (set_in l d);
  ad_ev : ∀ d e, I d → I (push_ev e d);
  ad_env : ∀ d e, I d → I (set_env e d);
  ad_mpir : ∀ d m, I d → I (set_mpirMap m d);
  ad_launching : ∀ d m, I d → I (set_launching m d);
  ad_cleanup : ∀ d s, I d → I (set_cleanup s d);
  ad_register : ∀ pid, preserves I (registerAppPID pid);
  ad_util : ∀ id pid sig, preserves I (registerUtilPID id pid sig);
  ad_deregister : ∀ id, preserves I (deregisterAppID id);
  ad_release : ∀ id, preserves I (releaseAppID id)
}.

Context (I : daemon → Prop) (HI : admissible I).

Lemma keep_read_req {A : Type} (m : M (list item) A) : shrinks m → preserves I (read_req m).
Proof.
  intros Hm d Hd. unfold read_req, zoom. destruct (d_in_open d); [|done].
  specialize (Hm (length (d_in d)) (d_in d) (le_n _)).
  destruct (m (d_in d)) as [r l]. by apply (ad_in I HI).
Qed.

Lemma keep_read_int : preserves I read_int.
Proof. apply keep_read_req, shrinks_fdReadLoop. Qed.

Lemma keep_readLaunchData : preserves I (read_req readLaunchData).
Proof. apply keep_read_req, shrinks_readLaunchData. Qed.

Lemma keep_read_string (what : string) :
  preserves I (read_req (with_istream (receive_string what))).
Proof. apply keep_read_req, shrinks_with_istream, shrinks_receive_string. Qed.

Lemma keep_read_shim : preserves I (read_req (with_istream read_shim_data)).
Proof. apply keep_read_req, shrinks_with_istream, shrinks_read_shim_data. Qed.

Lemma keep_emit (e : devent) : preserves I (emit e).
Proof. apply preserves_modify. intros d. apply (ad_ev I HI). Qed.

Lemma keep_set_env (f : daemon → gmap string string) : preserves I (modify (λ d, set_env (f d) d)).
Proof. apply preserves_modify. intros d. apply (ad_env I HI). Qed.

Lemma keep_set_env_const (e : gmap string string) : preserves I (modify (set_env e)).
Proof. apply preserves_modify. intros d. apply (ad_env I HI). Qed.

Lemma keep_set_launching (m : option mpir_inst) : preserves I (modify (set_launching m)).
Proof. apply preserves_modify. intros d. apply (ad_launching I HI). Qed.

Lemma keep_set_mpirMap (f : daemon → gmap Z mpir_inst) :
  preserves I (modify (λ d, set_mpirMap (f d) d)).
Proof. apply preserves_modify. intros d. apply (ad_mpir I HI). Qed.

Lemma keep_cleanup_insert (pid sig : Z) : preserves I (cleanup_insert pid sig).
Proof. apply preserves_modify. intros d. apply (ad_cleanup I HI). Qed.

Lemma keep_register (pid : Z) : preserves I (registerAppPID pid).
Proof. apply (ad_register I HI). Qed.

Lemma keep_registerUtil (id pid sig : Z) : preserves I (registerUtilPID id pid sig).
Proof. apply (ad_util I HI). Qed.

Lemma keep_deregister (id : Z) : preserves I (deregisterAppID id).
Proof. apply (ad_deregister I HI). Qed.

Lemma keep_release (id : Z) : preserves I (releaseAppID id).
Proof. apply (ad_release I HI). Qed.

Lemma keep_finally {A : Type} (m : M daemon A) (f : M daemon ()) :
  preserves I m → preserves I f → preserves I (finally m f).
Proof.
  intros Hm Hf d Hd. specialize (Hm d Hd). unfold finally.
  destruct (m d) as [[a|e|e] d1]; cbn in *; [by apply Hf..|done].
Qed.
#[local] Hint Resolve keep_read_int keep_readLaunchData keep_read_string keep_read_shim keep_emit
  keep_set_env keep_set_env_const keep_set_launching keep_set_mpirMap keep_cleanup_insert
  keep_register keep_registerUtil keep_deregister keep_release : cti.

Lemma keep_forkExec (ld : LaunchData) : preserves I (forkExec ld).
Proof. unfold forkExec. preserve. Qed.
#[local] Hint Resolve keep_forkExec : cti.

Lemma keep_extractMPIRResult (inst : mpir_inst) : preserves I (extractMPIRResult inst).
Proof. unfold extractMPIRResult. preserve. Qed.
#[local] Hint Resolve keep_extractMPIRResult : cti.

Lemma keep_extract_local (inst : mpir_inst) : preserves I (extract_local inst).
Proof. unfold extract_local. preserve. Qed.
#[local] Hint Resolve keep_extract_local : cti.

Lemma keep_set_launchingInstance (inst : mpir_inst) : preserves I (set_launchingInstance inst).
Proof. unfold set_launchingInstance. preserve. Qed.
#[local] Hint Resolve keep_set_launchingInstance : cti.

Lemma keep_launchMPIR (ld : LaunchData) : preserves I (launchMPIR ld).
Proof.
  unfold launchMPIR. apply preserves_bind; [auto with cti|intros d0].
  destruct (launch_env ld (d_env d0)) as [saved e].
  apply preserves_bind; [auto with cti|intros _]. apply keep_finally; preserve.
Qed.

Lemma keep_attachMPIR (path : string) (pid : Z) : preserves I (attachMPIR path pid).
Proof. unfold attachMPIR. preserve. Qed.

Lemma keep_mpirMap_erase (id : Z) (inst : mpir_inst) : preserves I (mpirMap_erase id inst).
Proof. unfold mpirMap_erase. preserve. Qed.
#[local] Hint Resolve keep_launchMPIR keep_attachMPIR keep_mpirMap_erase : cti.

Lemma keep_with_dir {A : Type} (path : string) (m : M daemon A) :
  preserves I m → preserves I (with_dir path m).
Proof.
  intros Hm. unfold with_dir. destruct (p_mkdir path); [|auto with cti].
  apply preserves_bind; [auto with cti|intros _]. apply keep_finally; auto with cti.
Qed.

Lemma keep_with_link {A : Type} (target path : string) (m : M daemon A) :
  preserves I m → preserves I (with_link target path m).
Proof.
  intros Hm. unfold with_link. destruct (p_symlink path); [|auto with cti].
  apply preserves_bind; [auto with cti|intros _]. apply keep_finally; auto with cti.
Qed.

Lemma keep_launchMPIRShim (sd : ShimData) (ld : LaunchData) : preserves I (launchMPIRShim sd ld).
Proof.
  unfold launchMPIRShim. apply preserves_bind; [auto with cti|intros d0].
  apply preserves_bind; [auto with cti|intros name].
  apply keep_with_dir, keep_with_link. preserve.
Qed.
#[local] Hint Resolve keep_launchMPIRShim : cti.


(** Closed under responses and the end of the main loop as well. *)
Record closed_all : Prop := ClosedAll {
  ca_out : ∀ d l, I d → I (set_out l d);
  ca_running : ∀ d b, I d → I (set_running b d)
}.

Lemma keep_write_resp (m : M (list item) ()) :
  (∀ d l, I d → I (set_out l d)) → preserves I (write_resp m).
Proof.
  intros Hc d Hd. unfold write_resp, zoom. destruct (d_out_open d); [|done].
  destruct (m (d_out d)) as [r l]. by apply Hc.
Qed.

Lemma keep_registerUtil_true (id pid sig : Z) :
  preserves I (registerUtilPID id pid sig;; mret true).
Proof. preserve. Qed.
End Keep.

(** ** Responses of the protocol *)

Inductive resp_kind : Type := KOK | KID | KString | KMPIR.

(** The response each request gets, and the library's function for the request reads.
    The comment on [RespType] has the same, except that it lists [RegisterApp] under
    [OK] and leaves out [DeregisterApp], [AttachMPIR], [TerminateMPIR] and
    [RegisterUtilWithSigkill]. *)
Definition kind_of (r : ReqType) : resp_kind :=
  match r with
  | ForkExecvpApp | RegisterApp => KID
  | LaunchMPIR | LaunchMPIRShim | AttachMPIR => KMPIR
  | ReadStringMPIR => KString
  | _ => KOK
  end.

Section Protocol.
Context `{Kernel} `{ReqSocket} `{Procs} `{MPIR} `{Host}.

Definition elem_items (el : MPIRProctableElem) : list item :=
  map Byte (w_enc int_wire (el_pid el) ++
            (list_ascii_of_string (el_hostname el) ++ ["000"%char]) ++
            (list_ascii_of_string (el_executable el) ++ ["000"%char])).

(** The responses of each kind, byte by byte. *)
Inductive is_response : resp_kind → list item → Prop :=
| resp_ok b : is_response KOK (map Byte (w_enc okresp_wire (MkOKResp RESP_OK b)))
| resp_id i : is_response KID (map Byte (w_enc idresp_wire (MkIDResp RESP_ID i)))
| resp_string s : is_response KString
    (map Byte (w_enc stringresp_wire (MkStringResp RESP_String true)) ++
     map Byte (list_ascii_of_string s ++ ["000"%char]))
| resp_no_string : is_response KString
    (map Byte (w_enc stringresp_wire (MkStringResp RESP_String false)))
| resp_mpir r : is_response KMPIR
    (map Byte (w_enc mpirresp_wire (MkMPIRResp RESP_MPIR (res_mpir_id r) (res_launcher_pid r)
       (res_job_id r) (res_step_id r) (to_int (Z.of_nat (length (res_proctable r)))) 0)) ++
     concat (map elem_items (res_proctable r)))
| resp_no_mpir what : is_response KMPIR
    (map Byte (w_enc mpirresp_wire (MkMPIRResp RESP_MPIR 0 0 0 0 0
       (Z.of_nat (String.length (c_str what)) + 1))) ++
     map Byte (cstr_bytes what)).

(** A handler is the writer of its kind around a computation that keeps every
    admissible property. *)
Inductive handler_shape (r : ReqType) : Prop :=
| shape_ok f : kind_of r = KOK → dispatch r = tryWriteOKResp f →
    (∀ I, admissible I → preserves I f) → handler_shape r
| shape_id f : kind_of r = KID → dispatch r = tryWriteIDResp f →
    (∀ I, admissible I → preserves I f) → handler_shape r
| shape_string f : kind_of r = KString → dispatch r = tryWriteStringResp f →
    (∀ I, admissible I → preserves I f) → handler_shape r
| shape_mpir f : kind_of r = KMPIR → dispatch r = tryWriteMPIRResp f →
    (∀ I, admissible I → preserves I f) → handler_shape r
| shape_shutdown : r = Shutdown → handler_shape r.

#[local] Hint Resolve keep_read_int keep_readLaunchData keep_read_string keep_read_shim keep_emit
  keep_set_env keep_set_env_const keep_set_launching keep_set_mpirMap keep_cleanup_insert
  keep_register keep_registerUtil keep_deregister keep_release keep_forkExec keep_launchMPIR
  keep_attachMPIR keep_mpirMap_erase keep_launchMPIRShim : cti.

Lemma keep_checkAppID (I : daemon → Prop) (id : Z) : preserves I (checkAppID id).
Proof. unfold checkAppID. preserve. Qed.
#[local] Hint Resolve keep_checkAppID : cti.

Lemma handler_shapes (r : ReqType) : handler_shape r.
Proof.
  destruct r; try (by apply shape_shutdown);
    (first [eapply shape_ok; [reflexivity|reflexivity|] | eapply shape_id; [reflexivity|reflexivity|]
           |eapply shape_string; [reflexivity|reflexivity|]
           |eapply shape_mpir; [reflexivity|reflexivity|]]);
    intros I HI;
    unfold releaseMPIR, waitMPIR, readStringMPIR, terminateMPIR, close_fds; preserve.
Qed.

Lemma keep_handler (I : daemon → Prop) (r : ReqType) :
  admissible I → (∀ d l, I d → I (set_out l d)) →
  (r = Shutdown → ∀ d b, I d → I (set_running b d)) → preserves I (dispatch r).
Proof.
  intros HI Hc Hrun. pose proof (λ m, keep_write_resp I m Hc) as Hw.
  destruct (handler_shapes r) as [f _ -> Hf|f _ -> Hf|f _ -> Hf|f _ -> Hf| ->].
  - apply preserves_try_catch; [|auto]. apply preserves_bind; auto.
  - apply preserves_try_catch; [|auto]. apply preserves_bind; auto.
  - apply preserves_try_catch; [|auto]. apply preserves_bind; [auto|]. intros s.
    apply preserves_bind; auto.
  - apply preserves_try_catch.
    + apply preserves_bind; [auto|intros res]. apply preserves_bind; [auto|intros _].
      apply preserves_for_each. intros el _. unfold write_elem.
      apply preserves_bind; [auto|intros _]. apply preserves_bind; auto.
    + intros what. apply preserves_bind; auto.
  - apply preserves_bind; [apply Hw|intros _]. apply preserves_modify. intros d. by apply Hrun.
Qed.

Lemma keep_dispatch (I : daemon → Prop) (r : ReqType) :
  admissible I → closed_all I → preserves I (dispatch r).
Proof. intros HI [Ho Hr]. by apply keep_handler. Qed.

Lemma keep_serve (I : daemon → Prop) : admissible I → closed_all I → preserves I serve.
Proof.
  intros HI Hc d Hd. unfold serve.
  pose proof (keep_read_req I HI (fdReadLoop long_wire) (shrinks_fdReadLoop _) d Hd) as Hr.
  destruct (read_req (fdReadLoop long_wire) d) as [[z|e|e] d']; cbn in Hr.
  - destruct (req_of_value z); [by apply keep_dispatch|done].
  - by apply (ca_running I Hc).
  - done.
Qed.
End Protocol.

(** ** Instances of the generic invariants *)

Section Frames.
Context `{Kernel} `{ReqSocket} `{Procs} `{MPIR} `{Host}.

(** Properties that do not look at the registry. *)
Record frame_closed (I : daemon → Prop) : Prop := FrameClosed {
  fc_in : ∀ d l, I d → (length l ≤ length (d_in d))%nat → I (set_in l d);
  fc_ev : ∀ d e, I d → I (push_ev e d);
  fc_env : ∀ d e, I d → I (set_env e d);
  fc_mpir : ∀ d m, I d → I (set_mpirMap m d);
  fc_launching : ∀ d m, I d → I (set_launching m d);
  fc_cleanup : ∀ d s, I d → I (set_cleanup s d);
  fc_registry : ∀ d n p i, I d → I (set_registry n p i d);
  fc_util : ∀ d u, I d → I (set_utilMap u d)
}.

Lemma keep_tryTerm (I : daemon → Prop) (pid sig : Z) :
  (∀ d e, I d → I (push_ev e d)) → preserves I (tryTerm pid sig).
Proof.
  intros Hev. unfold tryTerm. apply preserves_bind; [auto with cti|intros d].
  destruct (p_kill _ _ _); [|auto with cti].
  repeat (apply preserves_bind; [by apply preserves_modify; intros; apply Hev|intros _]).
  apply preserves_modify. intros. by apply Hev.
Qed.

Lemma keep_procset_clear (I : daemon → Prop) (s : ProcSet) :
  (∀ d e, I d → I (push_ev e d)) → preserves I (procset_clear s).
Proof.
  intros Hev. apply preserves_for_each. intros [pid sig] _. by apply keep_tryTerm.
Qed.

Lemma keep_utilMap_erase (I : daemon → Prop) (id : Z) :
  (∀ d e, I d → I (push_ev e d)) → (∀ d u, I d → I (set_utilMap u d)) →
  preserves I (utilMap_erase id).
Proof.
  intros Hev Hu. unfold utilMap_erase. apply preserves_bind; [auto with cti|intros d].
  apply preserves_bind; [|intros _; by apply keep_procset_clear].
  apply preserves_modify. intros. by apply Hu.
Qed.

Lemma keep_newId (I : daemon → Prop) :
  (∀ d n p i, I d → I (set_registry n p i d)) → preserves I newId.
Proof.
  intros Hr. unfold newId. apply preserves_bind; [auto with cti|intros d].
  case_decide; [auto with cti|]. apply preserves_bind; [|auto with cti].
  apply preserves_modify. intros. by apply Hr.
Qed.

Lemma frame_admissible (I : daemon → Prop) : frame_closed I → admissible I.
Proof.
  intros [Hin Hev Henv Hmp Hl Hc Hr Hu].
  assert (∀ f : daemon → Z * gmap Z Z * gmap Z Z, preserves I (modify (λ d,
    let '(n, p, i) := f d in set_registry n p i d))) as Hm.
  { intros f. apply preserves_modify. intros d Hd. destruct (f d) as [[n p] i]. by apply Hr. }
  split; try done; intros *.
  - unfold registerAppPID. case_decide.
    + apply preserves_bind; [by apply keep_newId|intros a].
      apply preserves_bind; [|auto with cti]. apply preserves_modify. intros. by apply Hr.
    + apply preserves_bind; [auto with cti|intros d].
      destruct (d_pidIdMap d !! pid); [auto with cti|].
      apply preserves_bind; [by apply keep_newId|intros a].
      apply preserves_bind; [|auto with cti]. apply preserves_modify. intros. by apply Hr.
  - unfold registerUtilPID. apply preserves_bind; [auto with cti|intros d].
    destruct (d_idPidMap d !! id); [|auto with cti]. case_decide; [|auto with cti].
    apply preserves_modify. intros. by apply Hu.
  - unfold deregisterAppID. apply preserves_bind; [auto with cti|intros d].
    destruct (d_idPidMap d !! id); [|auto with cti].
    apply preserves_bind; [apply preserves_modify; intros; by apply Hr|intros _].
    apply preserves_bind; [by apply keep_utilMap_erase|intros _].
    case_decide; [|auto with cti].
    apply preserves_bind; [apply preserves_modify; intros; by apply Hc|intros _].
    by apply keep_tryTerm.
  - unfold releaseAppID. apply preserves_bind; [auto with cti|intros d].
    destruct (d_idPidMap d !! id); [|auto with cti].
    apply preserves_bind; [apply preserves_modify; intros; by apply Hr|intros _].
    apply preserves_bind; [apply preserves_modify; intros; by apply Hc|intros _].
    by apply keep_utilMap_erase.
Qed.

(** Nothing but [write_resp] touches the response stream. *)
Definition out_is (o : list item) (d : daemon) : Prop := d_out d = o ∧ d_out_open d = true.

Lemma out_is_admissible (o : list item) : admissible (out_is o).
Proof. apply frame_admissible. split; done. Qed.

(** No handler adds to the request stream. *)
Definition in_le (n : nat) (d : daemon) : Prop := (length (d_in d) ≤ n)%nat.

Lemma in_le_admissible (n : nat) : admissible (in_le n).
Proof.
  apply frame_admissible. split; try done. intros d l Hd Hl. unfold in_le in *. cbn. lia.
Qed.

Lemma in_le_closed (n : nat) : closed_all (in_le n).
Proof. by split. Qed.

Lemma write_obj_run {T : Type} (w : wire T) (t : T) (d : daemon) :
  d_out_open d = true →
  write_resp (fdWriteLoop w t) d = (Ok tt, set_out (d_out d ++ map Byte (w_enc w t)) d).
Proof. intros Ho. unfold write_resp, zoom. by rewrite Ho, fdWriteLoop_run. Qed.

Lemma write_bytes_run (b : bytes) (d : daemon) :
  d_out_open d = true →
  write_resp (fdWriteBytes b) d = (Ok tt, set_out (d_out d ++ map Byte b) d).
Proof. intros Ho. unfold write_resp, zoom. by rewrite Ho, fdWriteBytes_run. Qed.

Lemma write_elems_run (l : list MPIRProctableElem) (d : daemon) :
  d_out_open d = true →
  for_each l write_elem d = (Ok tt, set_out (d_out d ++ concat (map elem_items l)) d).
Proof.
  revert d. induction l as [|el l IH]; intros d Ho.
  { cbn. rewrite app_nil_r. by destruct d. }
  cbn [for_each map concat].
  assert (write_elem el d = (Ok tt, set_out (d_out d ++ elem_items el) d)) as E.
  { unfold write_elem. rewrite (bind_run_Ok _ _ _ _ _ (write_obj_run int_wire (el_pid el) d Ho)).
    rewrite (bind_run_Ok _ _ _ _ _ (write_bytes_run _ (set_out _ d) Ho)).
    rewrite write_bytes_run by done.
    unfold elem_items. rewrite !map_app. cbn [set_out d_out]. by rewrite <-!app_assoc. }
  rewrite (bind_run_Ok _ _ _ _ _ E), IH by done. cbn [set_out d_out]. by rewrite <-app_assoc.
Qed.

(** A computation that answers with one response of a kind. *)
Definition answers (k : resp_kind) (m : M daemon ()) (d : daemon) : Prop :=
  (∃ why, (m d).1 = Undef why) ∨
  ((m d).1 = Ok tt ∧ ∃ resp, is_response k resp ∧ d_out (m d).2 = d_out d ++ resp ∧
     d_out_open (m d).2 = true).

(** Where a computation leads that keeps the response stream. *)
Lemma func_run {A : Type} (f : M daemon A) (d : daemon) :
  (∀ I, admissible I → preserves I f) → d_out_open d = true →
  ∃ r d1, f d = (r, d1) ∧ d_out d1 = d_out d ∧ d_out_open d1 = true.
Proof.
  intros Hf Ho. destruct (f d) as [r d1] eqn:E. exists r, d1.
  destruct (preserves_Ok _ _ _ _ _ (Hf _ (out_is_admissible (d_out d))) E) as [Ea Eb]; by split.
Qed.

Lemma answers_OK (f : M daemon bool) (d : daemon) :
  (∀ I, admissible I → preserves I f) → d_out_open d = true → answers KOK (tryWriteOKResp f) d.
Proof.
  intros Hf Ho. destruct (func_run f d Hf Ho) as (r & d1 & E & E1 & E2).
  unfold answers, tryWriteOKResp, try_catch, mbind, M_bind. rewrite E.
  destruct r as [b|what|why]; [right|right|left; exists why; reflexivity];
    rewrite write_obj_run by done; (split; [done|]); eexists;
    (split; [apply resp_ok|]); (split; [cbn [snd set_out d_out]; by rewrite E1|exact E2]).
Qed.

Lemma answers_ID (f : M daemon Z) (d : daemon) :
  (∀ I, admissible I → preserves I f) → d_out_open d = true → answers KID (tryWriteIDResp f) d.
Proof.
  intros Hf Ho. destruct (func_run f d Hf Ho) as (r & d1 & E & E1 & E2).
  unfold answers, tryWriteIDResp, try_catch, mbind, M_bind. rewrite E.
  destruct r as [b|what|why]; [right|right|left; exists why; reflexivity];
    rewrite write_obj_run by done; (split; [done|]); eexists;
    (split; [apply resp_id|]); (split; [cbn [snd set_out d_out]; by rewrite E1|exact E2]).
Qed.

Lemma answers_String (f : M daemon string) (d : daemon) :
  (∀ I, admissible I → preserves I f) → d_out_open d = true →
  answers KString (tryWriteStringResp f) d.
Proof.
  intros Hf Ho. destruct (func_run f d Hf Ho) as (r & d1 & E & E1 & E2).
  unfold answers, tryWriteStringResp, try_catch, mbind, M_bind. rewrite E.
  destruct r as [s|what|why]; [right|right|left; exists why; reflexivity]; rewrite write_obj_run by done.
  - rewrite write_bytes_run by done. split; [done|]. eexists. split; [apply (resp_string s)|].
    split; [|exact E2]. cbn [snd set_out d_out]. by rewrite E1, <-app_assoc.
  - split; [done|]. eexists. split; [apply resp_no_string|].
    split; [|exact E2]. cbn [snd set_out d_out]. by rewrite E1.
Qed.

Lemma answers_MPIR (f : M daemon MPIRResult) (d : daemon) :
  (∀ I, admissible I → preserves I f) → d_out_open d = true →
  answers KMPIR (tryWriteMPIRResp f) d.
Proof.
  intros Hf Ho. destruct (func_run f d Hf Ho) as (r & d1 & E & E1 & E2).
  unfold answers, tryWriteMPIRResp, try_catch, mbind, M_bind. rewrite E.
  destruct r as [s|what|why]; [right|right|left; exists why; reflexivity]; rewrite write_obj_run by done.
  - rewrite write_elems_run by done. split; [done|]. eexists. split; [apply (resp_mpir s)|].
    split; [|exact E2]. cbn [snd set_out d_out]. by rewrite E1, <-app_assoc.
  - unfold fdWriteString. rewrite write_bytes_run by done. split; [done|]. eexists.
    split; [apply (resp_no_mpir what)|].
    split; [|exact E2]. cbn [snd set_out d_out]. by rewrite E1, <-app_assoc.
Qed.

Lemma dispatch_answers (r : ReqType) (d : daemon) :
  d_out_open d = true → answers (kind_of r) (dispatch r) d.
Proof.
  intros Ho. destruct (handler_shapes r) as [f -> -> Hf|f -> -> Hf|f -> -> Hf|f -> -> Hf| ->].
  - by apply answers_OK.
  - by apply answers_ID.
  - by apply answers_String.
  - by apply answers_MPIR.
  - right. cbn [dispatch]. unfold mbind, M_bind, handle_Shutdown. rewrite write_obj_run by done.
    split; [done|]. eexists. split; [apply resp_ok|]. by split.
Qed.


(** *** The main loop ends *)

Lemma serve_consumes (d : daemon) :
  (d_running (serve d).2 = true → (length (d_in (serve d).2) + 8 ≤ length (d_in d))%nat) ∨
  ∃ why, (serve d).1 = Undef why.
Proof.
  unfold serve, read_req, zoom. destruct (d_in_open d); [|by left].
  destruct (le_lt_dec 8 (length (d_in d))) as [Hl|Hl].
  - unfold fdReadLoop.
    rewrite (bind_run_Ok _ _ _ _ _ (readLoop_full 8 8 (d_in d) (le_n _) Hl)).
    cbv [mret M_ret]. set (d' := set_in (drop 8 (d_in d)) d).
    assert (in_le (length (d_in d) - 8) d') as Hd'.
    { unfold in_le, d'. cbn. rewrite length_drop. lia. }
    left. intros _. destruct (req_of_value _) as [r|]; [|unfold in_le in Hd'; cbn in *; lia].
    pose proof (keep_dispatch _ r (in_le_admissible _) (in_le_closed _) d' Hd') as Hk.
    unfold in_le in Hk. lia.
  - rewrite fdReadLoop_short by done. by left.
Qed.

(** A round of the loop that went through. *)
Definition round (d d' : daemon) : Prop := d_running d = true ∧ serve d = (Ok tt, d').

Lemma serve_out_open (d : daemon) :
  d_out_open d = true → d_out_open (serve d).2 = true ∧ ∀ what, (serve d).1 ≠ Throw what.
Proof.
  intros Ho. unfold serve.
  pose proof (keep_read_req _ (out_is_admissible (d_out d)) (fdReadLoop long_wire)
    (shrinks_fdReadLoop _) d ltac:(by split)) as [_ Hr].
  destruct (read_req (fdReadLoop long_wire) d) as [[z|e|e] d']; cbn in Hr; [|done|done].
  destruct (req_of_value z) as [r|]; [|done].
  destruct (dispatch_answers r d' Hr) as [[why E]|(E & _ & _ & _ & Hop)].
  - split; [|by rewrite E]. assert (admissible (λ d, d_out_open d = true)) as Ha
      by (apply frame_admissible; by split).
    by apply (keep_dispatch _ r Ha).
  - split; [done|]. by rewrite E.
Qed.

(** Only a shutdown request stops the loop from within a handler. *)
Lemma dispatch_running (r : ReqType) (d : daemon) :
  r ≠ Shutdown → d_running d = true → d_running (dispatch r d).2 = true.
Proof.
  intros Hr Hd. assert (admissible (λ d, d_running d = true)) as Ha
    by (apply frame_admissible; by split).
  by apply (keep_handler _ r Ha).
Qed.

(** Why a round is the last one: it read a shutdown request, or there was no whole
    request type to read. *)
Definition asked_to_stop (d : daemon) : Prop :=
  d_in_open d = true ∧ ∃ d', read_req (fdReadLoop long_wire) d = (Ok (req_value Shutdown), d').

Definition stream_ended (d : daemon) : Prop := d_in_open d = false ∨ (length (d_in d) < 8)%nat.

Lemma serve_stops (d : daemon) :
  d_running d = true → d_running (serve d).2 = false → asked_to_stop d ∨ stream_ended d.
Proof.
  intros Hd. destruct (d_in_open d) eqn:Ho; [|by right; left].
  destruct (le_lt_dec 8 (length (d_in d))) as [Hl|Hl]; [|by right; right].
  unfold serve. destruct (read_req (fdReadLoop long_wire) d) as [[z|what|why] d'] eqn:E.
  - assert (d_running d' = true) as Hd'.
    { pose proof (keep_read_req (λ d, d_running d = true)
        ltac:(apply frame_admissible; by split) (fdReadLoop long_wire)
        (shrinks_fdReadLoop _) d Hd) as Hk. by rewrite E in Hk. }
    destruct (req_of_value z) as [r|] eqn:Er; [|cbn; congruence].
    destruct (decide (r = Shutdown)) as [->|Hr].
    + intros _. left. split; [done|]. exists d'. by rewrite (req_of_value_Some z Shutdown Er) in E.
    + intros Hf. by rewrite dispatch_running in Hf.
  - unfold read_req, zoom in E. rewrite Ho in E. unfold fdReadLoop in E.
    by rewrite (bind_run_Ok _ _ _ _ _ (readLoop_full 8 8 (d_in d) (le_n _) Hl)) in E.
  - cbn. pose proof (keep_read_req (λ d, d_running d = true)
      ltac:(apply frame_admissible; by split) (fdReadLoop long_wire)
      (shrinks_fdReadLoop _) d Hd) as Hk. rewrite E in Hk. cbn in Hk. congruence.
Qed.

(** The loop's end: rounds, and a last one with its reason. *)
Definition loop_ended (d d' : daemon) : Prop :=
  d_running d' = false ∧
  ∃ d1, rtc round d d1 ∧ round d1 d' ∧ (asked_to_stop d1 ∨ stream_ended d1).

Lemma main_loop_ends (fuel : nat) (d : daemon) :
  (length (d_in d) < fuel)%nat → d_out_open d = true → d_running d = true →
  (∃ d', main_loop fuel d = (Ok tt, d') ∧ loop_ended d d') ∨
  (∃ d' why, rtc round d d' ∧ d_running d' = true ∧ (serve d').1 = Undef why).
Proof.
  revert d. induction fuel as [|fuel IH]; intros d Hf Ho Hrun; [lia|].
  cbn [main_loop]. rewrite (bind_run_Ok get _ _ d d), Hrun by done.
  destruct (serve_out_open d Ho) as [Ho' Hnt].
  destruct (serve d) as [[[]|what|why] d1] eqn:E.
  - rewrite (bind_run_Ok _ _ _ _ _ E). destruct (d_running d1) eqn:Hrun1.
    + destruct (serve_consumes d) as [Hc|[why Hw]]; rewrite E in *; [|done].
      cbn in Hc, Ho'. specialize (Hc Hrun1).
      destruct (IH d1 ltac:(lia) Ho' Hrun1)
        as [(d' & ? & ? & d2 & ? & ? & ?)|(d' & why & ? & ?)].
      * left. exists d'. split; [done|]. split; [done|]. exists d2.
        split; [|done]. by eapply rtc_l.
      * right. exists d', why. split; [|done]. by eapply rtc_l.
    + left. exists d1. split.
      * destruct fuel; cbn [main_loop];
          rewrite (bind_run_Ok get _ _ d1 d1) by done; by rewrite Hrun1.
      * split; [done|]. exists d. split; [constructor|]. split; [by split|].
        apply serve_stops; [done|]. by rewrite E.
  - by destruct (Hnt what).
  - right. exists d, why. rewrite E. split; [constructor|done].
Qed.

End Frames.
