(* ===== verification/AppRegistry.v ===== *)
(** * The frontend daemon's registry of applications

    The invariant of the registry, and what registering, deregistering and leaving
    the daemon do, seen from the library's side of the sockets. *)

From S2P Require Import Prelude Split Argv Host Wire Launch Daemon Handlers FEIface DaemonProofs.

Section Registry.
Context `{Kernel} `{ReqSocket} `{Procs} `{MPIR} `{Host}.

(** ** The invariant *)

(** Identifiers count up from 1 and are never reused; every application is found
    under its process, and every process leads to its application, but for the
    numbers below 0: their entries stay when the application is removed.  Only
    registered applications own utilities, and threads are about identifiers that
    were given out. *)
Record registry_ok (d : daemon) : Prop := RegistryOk {
  r_id : 0 ≤ d_id d ≤ int_max;
  r_range : ∀ id pid, d_idPidMap d !! id = Some pid → 1 ≤ id ≤ d_id d;
  r_fwd : ∀ pid id, d_pidIdMap d !! pid = Some id → 1 ≤ id ≤ d_id d ∧
    (d_idPidMap d !! id = Some pid ∨ pid < 0 ∧ d_idPidMap d !! id = None);
  r_bwd : ∀ pid id, pid ≠ 0 → d_idPidMap d !! id = Some pid → d_pidIdMap d !! pid = Some id;
  r_zero : d_pidIdMap d !! 0 = None;
  r_util : ∀ id s, d_utilMap d !! id = Some s → is_Some (d_idPidMap d !! id);
  r_threads : ∀ id, id ∈ d_threads d → 1 ≤ id ≤ d_id d
}.

(** What can happen to a daemon: a round of its loop, a signal while it waits for the
    next request, a thread of an earlier signal at any time between rounds, the
    client writing more bytes or reading responses.  Signals and threads in the midst
    of a round are not part of this. *)
Inductive dstep : daemon → daemon → Prop :=
| dstep_serve d : d_running d = true → dstep d (serve d).2
| dstep_signal s d : dstep d (cti_fe_daemon_handler s d).2
| dstep_thread n d : dstep d (run_thread n d).2
| dstep_request l d : dstep d (set_in (d_in d ++ l) d)
| dstep_response l d : dstep d (set_out l d).

(** ** Preservation *)

Lemma registry_frame (d d' : daemon) :
  d_id d' = d_id d → d_pidIdMap d' = d_pidIdMap d → d_idPidMap d' = d_idPidMap d →
  d_utilMap d' = d_utilMap d → d_threads d' = d_threads d → registry_ok d → registry_ok d'.
Proof. intros E1 E2 E3 E4 E5 [? ? ? ? ? ? ?]. split; rewrite ?E1, ?E2, ?E3, ?E4, ?E5; done. Qed.

Lemma registry_event (d : daemon) (e : devent) : registry_ok d → registry_ok (push_ev e d).
Proof. by apply registry_frame. Qed.

(** Adding an application under the next identifier. *)
Lemma registry_add (d : daemon) (pid : Z) :
  registry_ok d → d_id d ≠ int_max → d_pidIdMap d !! pid = None →
  registry_ok (set_registry (d_id d + 1)
    (if decide (pid = 0) then d_pidIdMap d else <[pid := d_id d + 1]> (d_pidIdMap d))
    (<[d_id d + 1 := pid]> (d_idPidMap d)) d).
Proof.
  intros [Hid Hr Hf Hb Hz Hu Ht] Hmax Hnone.
  assert (d_idPidMap d !! (d_id d + 1) = None) as Hfresh.
  { destruct (d_idPidMap d !! (d_id d + 1)) as [p|] eqn:E; [|done]. apply Hr in E. lia. }
  split; cbn.
  - lia.
  - intros id p. destruct (decide (id = d_id d + 1)) as [->|Hne]; [lia|].
    rewrite lookup_insert_ne by done. intros ?%Hr. lia.
  - intros p id. assert (d_pidIdMap d !! p = Some id → 1 ≤ id ≤ d_id d + 1 ∧
      (<[d_id d + 1 := pid]> (d_idPidMap d) !! id = Some p ∨
       p < 0 ∧ <[d_id d + 1 := pid]> (d_idPidMap d) !! id = None)) as Hold.
    { intros [? E]%Hf. split; [lia|]. by rewrite lookup_insert_ne by lia. }
    destruct (decide (pid = 0)) as [->|Hp0]; [exact Hold|].
    destruct (decide (p = pid)) as [->|Hne]; [|by rewrite lookup_insert_ne].
    rewrite lookup_insert_eq. intros [= <-]. rewrite lookup_insert_eq. split; [lia|by left].
  - intros p id Hp. destruct (decide (id = d_id d + 1)) as [->|Hne].
    + rewrite lookup_insert_eq. intros [= ->]. rewrite decide_False by done.
      by rewrite lookup_insert_eq.
    + rewrite lookup_insert_ne by done. intros E%Hb; [|done]. destruct (decide (pid = 0)); [done|].
      rewrite lookup_insert_ne; [done|]. intros ->. congruence.
  - destruct (decide (pid = 0)); [done|]. by rewrite lookup_insert_ne.
  - intros id s E%Hu. destruct (decide (id = d_id d + 1)) as [->|Hne].
    + rewrite lookup_insert_eq. by eexists.
    + by rewrite lookup_insert_ne.
  - intros id Hid'%Ht. lia.
Qed.

Lemma newId_run (d : daemon) :
  d_id d ≠ int_max →
  newId d = (Ok (d_id d + 1), set_registry (d_id d + 1) (d_pidIdMap d) (d_idPidMap d) d).
Proof. intros Hm. unfold newId, mbind, M_bind, get. by rewrite decide_False. Qed.

Lemma registerAppPID_fresh (d : daemon) (pid : Z) :
  d_id d ≠ int_max → (pid = 0 ∨ d_pidIdMap d !! pid = None) →
  registerAppPID pid d = (Ok (d_id d + 1), set_registry (d_id d + 1)
    (if decide (pid = 0) then d_pidIdMap d else <[pid := d_id d + 1]> (d_pidIdMap d))
    (<[d_id d + 1 := pid]> (d_idPidMap d)) d).
Proof.
  intros Hm Hp. unfold registerAppPID. destruct (decide (pid = 0)) as [->|Hp0].
  - by rewrite (bind_run_Ok _ _ _ _ _ (newId_run d Hm)).
  - destruct Hp as [?|Hp]; [done|]. rewrite (bind_run_Ok get _ _ d d) by done. rewrite Hp.
    by rewrite (bind_run_Ok _ _ _ _ _ (newId_run d Hm)).
Qed.

Lemma registerAppPID_dup (d : daemon) (pid id : Z) :
  pid ≠ 0 → d_pidIdMap d !! pid = Some id →
  registerAppPID pid d = (Throw ("duplicate app pid: " +:+ to_string pid), d).
Proof.
  intros Hp Hd. unfold registerAppPID. rewrite decide_False by done.
  rewrite (bind_run_Ok get _ _ d d) by done. by rewrite Hd.
Qed.

Lemma registry_registerAppPID (pid : Z) : preserves registry_ok (registerAppPID pid).
Proof.
  intros d Hd. destruct (decide (d_id d = int_max)) as [Hm|Hm].
  - assert (newId d = (Undef "signed overflow", d)) as E.
    { unfold newId, mbind, M_bind, get. by rewrite decide_True. }
    unfold registerAppPID. case_decide; [by rewrite (bind_run_Undef _ _ _ _ _ E)|].
    rewrite (bind_run_Ok get _ _ d d) by done. destruct (d_pidIdMap d !! pid); [done|].
    by rewrite (bind_run_Undef _ _ _ _ _ E).
  - destruct (decide (pid = 0)) as [->|Hp0].
    + rewrite registerAppPID_fresh by auto. apply registry_add; [done..|]. apply Hd.
    + destruct (d_pidIdMap d !! pid) as [id|] eqn:E; [by rewrite (registerAppPID_dup d pid id)|].
      rewrite registerAppPID_fresh by auto. by apply registry_add.
Qed.

Lemma registry_registerUtilPID (id pid sig : Z) : preserves registry_ok (registerUtilPID id pid sig).
Proof.
  intros d Hd. unfold registerUtilPID. rewrite (bind_run_Ok get _ _ d d) by done.
  destruct (d_idPidMap d !! id) as [p|] eqn:E; [|done]. case_decide; [|done].
  destruct Hd as [? ? ? ? ? Hu Ht]. split; cbn; try done. intros id' s.
  destruct (decide (id' = id)) as [->|Hne]; [by rewrite E|].
  rewrite lookup_insert_ne by done. apply Hu.
Qed.

(** The registry without an application, its utilities included. *)
Lemma registry_remove (d : daemon) (id pid : Z) :
  registry_ok d → d_idPidMap d !! id = Some pid →
  registry_ok (set_utilMap (delete id (d_utilMap d)) (set_registry (d_id d)
    (if decide (0 < pid) then delete pid (d_pidIdMap d) else d_pidIdMap d)
    (delete id (d_idPidMap d)) d)).
Proof.
  intros [Hid Hr Hf Hb Hz Hu Ht] Hd. split; cbn.
  - done.
  - intros id' p. rewrite lookup_delete_Some. intros [_ ?]. by eapply Hr.
  - intros p id' E. assert (d_pidIdMap d !! p = Some id' ∧ (0 < pid → p ≠ pid)) as [E1 Hne].
    { destruct (decide (0 < pid)); [|by split].
      apply lookup_delete_Some in E as [? ?]. by split. }
    destruct (Hf p id' E1) as [Hr' E2]. split; [done|].
    destruct (decide (id = id')) as [<-|Hid']; [|by rewrite lookup_delete_ne].
    rewrite lookup_delete_eq. right. split; [|done].
    destruct E2 as [E2|[? ?]]; [|done]. rewrite Hd in E2. injection E2 as ->.
    destruct (decide (0 < p)) as [Hp|Hp]; [by destruct (Hne Hp)|].
    destruct (decide (p = 0)) as [->|]; [congruence|lia].
  - intros p id' Hp [Hne E]%lookup_delete_Some. pose proof (Hb p id' Hp E) as E1.
    destruct (decide (0 < pid)); [|done]. rewrite lookup_delete_ne; [done|]. intros <-.
    pose proof (Hb pid id ltac:(lia) Hd) as E2. congruence.
  - destruct (decide (0 < pid)); [|done]. rewrite lookup_delete_None. by right.
  - intros id' s [Hne E]%lookup_delete_Some. rewrite lookup_delete_ne by done. by eapply Hu.
  - done.
Qed.

Lemma registry_procset_clear (s : ProcSet) : preserves registry_ok (procset_clear s).
Proof. apply keep_procset_clear. intros. by apply registry_event. Qed.

Lemma registry_utilMap_erase (id : Z) : preserves registry_ok (utilMap_erase id).
Proof.
  intros d Hd. unfold utilMap_erase. rewrite (bind_run_Ok get _ _ d d) by done.
  rewrite (bind_run_Ok _ _ _ tt (set_utilMap (delete id (d_utilMap d)) d)) by done.
  apply registry_procset_clear. destruct Hd as [? ? ? ? ? Hu Ht]. split; cbn; try done.
  intros id' s [_ E]%lookup_delete_Some. by eapply Hu.
Qed.

Lemma registry_set_cleanup (d : daemon) (s : ProcSet) : registry_ok d → registry_ok (set_cleanup s d).
Proof. by apply registry_frame. Qed.

Lemma registry_deregister (id : Z) : preserves registry_ok (deregisterAppID id).
Proof.
  intros d Hd. unfold deregisterAppID. rewrite (bind_run_Ok get _ _ d d) by done.
  destruct (d_idPidMap d !! id) as [pid|] eqn:E; [|done].
  set (d1 := set_registry (d_id d)
    (if decide (0 < pid) then delete pid (d_pidIdMap d) else d_pidIdMap d)
    (delete id (d_idPidMap d)) d).
  rewrite (bind_run_Ok (forget_app id pid) _ _ tt d1) by done.
  assert (∀ k : () → M daemon (), (utilMap_erase id ≫= k) d1
    = (procset_clear (util_procs id d1) ≫= k) (set_utilMap (delete id (d_utilMap d)) d1))
    as -> by done.
  apply (preserves_bind registry_ok); [apply registry_procset_clear| |by apply registry_remove].
  intros _. case_decide; [|auto with cti]. apply preserves_bind.
  - apply preserves_modify. intros. by apply registry_set_cleanup.
  - intros _. apply keep_tryTerm. intros. by apply registry_event.
Qed.

Lemma registry_release (id : Z) : preserves registry_ok (releaseAppID id).
Proof.
  intros d Hd. unfold releaseAppID. rewrite (bind_run_Ok get _ _ d d) by done.
  destruct (d_idPidMap d !! id) as [pid|] eqn:E; [|done].
  set (d1 := set_registry (d_id d)
    (if decide (0 < pid) then delete pid (d_pidIdMap d) else d_pidIdMap d)
    (delete id (d_idPidMap d)) d).
  rewrite (bind_run_Ok (forget_app id pid) _ _ tt d1) by done.
  rewrite (bind_run_Ok _ _ _ tt (set_cleanup (delete pid (d_cleanup d)) d1)) by done.
  apply registry_procset_clear.
  exact (registry_set_cleanup _ (delete pid (d_cleanup d)) (registry_remove d id pid Hd E)).
Qed.

Lemma registry_admissible : admissible registry_ok.
Proof.
  split; [intros d *; intros; by apply (registry_frame d)..| | | |].
  - apply registry_registerAppPID.
  - apply registry_registerUtilPID.
  - apply registry_deregister.
  - apply registry_release.
Qed.

Lemma registry_closed : closed_all registry_ok.
Proof. split; intros d ? ?; by apply (registry_frame d). Qed.

Lemma registry_sigchld (pid : Z) : preserves registry_ok (sigchld_handler pid).
Proof.
  intros d Hd. unfold sigchld_handler. rewrite (bind_run_Ok get _ _ d d) by done.
  destruct (negb (d_running d)); [done|].
  set (d1 := if decide (is_Some (d_cleanup d !! pid))
             then set_cleanup (delete pid (d_cleanup d)) (push_ev (EvReap pid) d) else d).
  rewrite (bind_run_Ok _ _ _ tt d1) by (unfold d1; by case_decide).
  assert (registry_ok d1) as Hd1.
  { unfold d1. case_decide; [|done]. by apply (registry_frame d). }
  assert (d_id d1 = d_id d) as Hid by (unfold d1; by case_decide).
  destruct (d_pidIdMap d !! pid) as [id|] eqn:E; [|done].
  case_decide; [|done]. destruct (r_fwd d Hd _ _ E) as [Hr _].
  destruct Hd1 as [? ? ? ? ? ? Ht]. split; cbn; try done.
  intros id' [?|?%list_elem_of_singleton]%elem_of_app; [by apply Ht|]. subst id'. by rewrite Hid.
Qed.

Lemma registry_thread (n : nat) : preserves registry_ok (run_thread n).
Proof.
  intros d Hd. unfold run_thread. rewrite (bind_run_Ok get _ _ d d) by done.
  destruct (d_threads d !! n) as [id|]; [|done].
  rewrite (bind_run_Ok _ _ _ tt (set_threads (delete n (d_threads d)) d)) by done.
  apply registry_utilMap_erase. destruct Hd as [? ? ? ? ? ? Ht]. split; cbn; try done.
  intros id' Hin. eapply Ht, elem_of_sublist; [exact Hin|apply sublist_delete].
Qed.

Lemma registry_terminate : preserves registry_ok terminate_main_loop.
Proof.
  apply preserves_bind; [apply preserves_modify; intros d0 ?; by apply (registry_frame d0)|intros _].
  apply preserves_bind; [auto with cti|intros d].
  destruct (d_launching d); [|auto with cti].
  apply preserves_modify. intros. by apply registry_event.
Qed.

Lemma registry_signal (s : signal) : preserves registry_ok (cti_fe_daemon_handler s).
Proof.
  destruct s as [exited pid| | |]; cbn; [|apply registry_terminate..|auto with cti].
  destruct (exited && (1 <? pid)); [apply registry_sigchld|auto with cti].
Qed.

Lemma registry_new (input : list item) (env : gmap string string) :
  registry_ok (new_daemon input env).
Proof.
  split; cbn; [unfold int_max; lia|..]; intros; rewrite ?lookup_empty in *; try done. by apply elem_of_nil in H4.
Qed.

Lemma registry_step (d d' : daemon) : dstep d d' → registry_ok d → registry_ok d'.
Proof.
  intros [d0 _|s d0|n d0|l d0|l d0] Hd.
  - by apply keep_serve; [apply registry_admissible|apply registry_closed|].
  - by apply registry_signal.
  - by apply registry_thread.
  - by apply (registry_frame d0).
  - by apply (registry_frame d0).
Qed.

(** C3 Invariant of the registry.  Whatever bytes a client sends, whatever signals
    arrive while the daemon waits for its next request, in whatever order the threads
    that these start run between the requests, and whatever fails: every identifier
    lies between 1 and the counter, every application is found under its process, a
    process leads to its application, except that the entry of a negative number stays
    after its application was removed, only registered applications own utilities,
    and a thread never is about an identifier that was not given out. *)
Theorem registry_invariant (input : list item) (env : gmap string string) (d : daemon) :
  rtc dstep (new_daemon input env) d → registry_ok d.
Proof.
  intros Hr. assert (registry_ok (new_daemon input env)) as Hn by apply registry_new.
  induction Hr as [d|d d1 d' Hs _ IH]; [done|]. apply IH. by eapply registry_step.
Qed.
End Registry.
