(* ===== verification/Client.v ===== *)
(** * What the library gets from the daemon

    Requests of cti_fe_daemon_iface.cpp run against the daemon of cti_fe_daemon.cpp:
    registering and ending applications, and the requests that go wrong. *)

From S2P Require Import Prelude Split Argv Host Wire Launch Daemon Handlers FEIface DaemonProofs AppRegistry.

Section Client.
Context `{Kernel} `{ReqSocket} `{Procs} `{MPIR} `{Host}.

(** Both sockets open and empty. *)
Record idle (d : daemon) : Prop := Idle {
  idle_in : d_in d = [];
  idle_in_open : d_in_open d = true;
  idle_out : d_out d = [];
  idle_out_open : d_out_open d = true
}.

(** Every [kill] succeeds. *)
Definition kills_succeed : Prop := ∀ evs pid sig, p_kill evs pid sig = true.

Definition term_events (ps : Z * Z) : list devent :=
  [EvKill ps.1 ps.2; EvKill ps.1 SIGKILL; EvReap ps.1].

(** ** Lemmas *)

Lemma set_in_id (d : daemon) : d_in d = [] → set_in [] d = d.
Proof. destruct d. cbn. by intros ->. Qed.

Lemma set_out_id (d : daemon) : d_out d = [] → set_out [] d = d.
Proof. destruct d. cbn. by intros ->. Qed.

Lemma in_signed_req (r : ReqType) : w_valid long_wire (req_value r) = true.
Proof. by destruct r. Qed.

Lemma serve_request (r : ReqType) (args : list item) (d : daemon) :
  d_in_open d = true → d_in d = map Byte (w_enc long_wire (req_value r)) ++ args →
  serve d = dispatch r (set_in args d).
Proof.
  intros Ho Hi. unfold serve, read_req, zoom. rewrite Ho, Hi.
  rewrite (fdReadLoop_enc long_wire (req_value r) args (in_signed_req r)).
  by rewrite req_of_value_req.
Qed.

Lemma read_int_run (n : Z) (rest : list item) (d : daemon) :
  d_in_open d = true → in_signed 4 n = true →
  d_in d = map Byte (w_enc int_wire n) ++ rest → read_int d = (Ok n, set_in rest d).
Proof.
  intros Ho Hn Hi. unfold read_int, read_req, zoom. rewrite Ho, Hi.
  by rewrite (fdReadLoop_enc int_wire n rest Hn).
Qed.

(** A request that consists of its type and one number. *)
Lemma exchange_int {A : Type} (r : ReqType) (n : Z) (resp : M (list item) A) (d : daemon) :
  idle d → exchange (send_type r;; send_int n) resp d
  = (dispatch r ;; zoom d_out set_out resp) (set_in (map Byte (w_enc int_wire n)) d).
Proof.
  intros [Hi Hio _ _]. unfold exchange.
  rewrite (bind_run_Ok _ _ _ tt (set_in (map Byte (w_enc long_wire (req_value r)) ++
    map Byte (w_enc int_wire n)) d)).
  - unfold mbind at 1, M_bind. rewrite (serve_request r (map Byte (w_enc int_wire n))) by done.
    done.
  - unfold zoom, send_type, send_int, mbind, M_bind. rewrite fdWriteLoop_run, fdWriteLoop_run.
    by rewrite Hi.
Qed.

(** Responses are read back as they were written. *)
Lemma read_ok (b : bool) (rest : list item) :
  readOKResp (map Byte (w_enc okresp_wire (MkOKResp RESP_OK b)) ++ rest) = (Ok b, rest).
Proof.
  unfold readOKResp. by rewrite (bind_run_Ok _ _ _ _ _ (fdReadLoop_enc okresp_wire (MkOKResp RESP_OK b) rest eq_refl)).
Qed.

Lemma read_id (i : Z) (rest : list item) :
  in_signed 4 i = true → 0 ≤ i →
  readIDResp (map Byte (w_enc idresp_wire (MkIDResp RESP_ID i)) ++ rest) = (Ok i, rest).
Proof.
  intros Hi Hp. unfold readIDResp.
  rewrite (bind_run_Ok _ _ _ _ _ (fdReadLoop_enc idresp_wire (MkIDResp RESP_ID i) rest Hi)).
  cbn [id_type id_id]. rewrite bool_decide_false by tauto. cbn [orb].
  by destruct (Z.ltb_spec i 0); [lia|].
Qed.

(** The outcome of a computation, as an OK response reports it. *)
Definition ok_outcome (r : res bool) : res bool :=
  match r with Ok b => Ok b | Throw _ => Ok false | Undef why => Undef why end.

Lemma ok_exchange (r : ReqType) (f : Z → M daemon bool) (n : Z) (d d1 : daemon) (res : res bool) :
  dispatch r = tryWriteOKResp (x ← read_int; f x) → idle d → in_signed 4 n = true →
  f n d = (res, d1) → d_out d1 = [] → d_out_open d1 = true →
  exchange (send_type r;; send_int n) readOKResp d = (ok_outcome res, d1).
Proof.
  intros Hr Hd Hn Hf Ho Hop. rewrite exchange_int by done. rewrite Hr.
  assert ((x ← read_int; f x) (set_in (map Byte (w_enc int_wire n)) d) = (res, d1)) as E.
  { rewrite (bind_run_Ok _ _ _ n d); [done|].
    rewrite (read_int_run n []); [|by apply Hd|done|by rewrite app_nil_r].
    by rewrite <-(set_in_id d) at 2 by apply Hd. }
  unfold tryWriteOKResp. destruct res as [b|what|why]; cbn [ok_outcome].
  - rewrite (bind_run_Ok _ _ _ tt (set_out (map Byte (w_enc okresp_wire (MkOKResp RESP_OK b))) d1)).
    + unfold zoom. cbn [d_out set_out].
      rewrite <-(app_nil_r (map Byte _)), read_ok. cbn [set_out].
      by rewrite <-(set_out_id d1) at 2.
    + apply try_catch_run_Ok. rewrite (bind_run_Ok _ _ _ _ _ E).
      by rewrite write_obj_run, Ho.
  - rewrite (bind_run_Ok _ _ _ tt
      (set_out (map Byte (w_enc okresp_wire (MkOKResp RESP_OK false))) d1)).
    + unfold zoom. cbn [d_out set_out].
      rewrite <-(app_nil_r (map Byte _)), read_ok. by rewrite <-(set_out_id d1) at 2.
    + erewrite try_catch_run_Throw by (apply bind_run_Throw; exact E).
      by rewrite write_obj_run, Ho.
  - apply bind_run_Undef. unfold try_catch. by erewrite bind_run_Undef by exact E.
Qed.

(** The same for requests that only want to know of failure. *)
Lemma verify_exchange (req : M (list item) ()) (d : daemon) :
  exchange req verifyOKResp d =
  (match exchange req readOKResp d with
   | (Ok true, d') => (Ok tt, d')
   | (Ok false, d') => (Throw "daemon response indicated failure", d')
   | (Throw e, d') => (Throw e, d')
   | (Undef e, d') => (Undef e, d')
   end).
Proof.
  unfold exchange, verifyOKResp, zoom, mbind, M_bind.
  destruct (req (d_in d)) as [[u|e|e] l]; [|done..].
  destruct (serve (set_in l d)) as [[[]|e|e] d1]; [|done..].
  by destruct (readOKResp (d_out d1)) as [[[]|e|e] l'].
Qed.

Lemma tryTerm_run (d : daemon) (ps : Z * Z) :
  kills_succeed →
  tryTerm ps.1 ps.2 d = (Ok tt, push_ev (EvReap ps.1) (push_ev (EvKill ps.1 SIGKILL)
    (push_ev (EvKill ps.1 ps.2) d))).
Proof. intros Hk. unfold tryTerm, mbind, M_bind, get, emit, modify. by rewrite Hk. Qed.

(** The trace grows, and nothing else changes. *)
Definition grown (evs : list devent) (d : daemon) : daemon :=
  MkDaemon (d_in d) (d_in_open d) (d_out d) (d_out_open d) (d_id d) (d_pidIdMap d)
    (d_idPidMap d) (d_cleanup d) (d_utilMap d) (d_mpirMap d) (d_launching d) (d_env d)
    (d_running d) (d_threads d) (d_events d ++ evs).

Lemma grown_nil (d : daemon) : grown [] d = d.
Proof. unfold grown. rewrite app_nil_r. by destruct d. Qed.

Lemma grown_grown (e1 e2 : list devent) (d : daemon) : grown e2 (grown e1 d) = grown (e1 ++ e2) d.
Proof. unfold grown. cbn. by rewrite app_assoc. Qed.

Lemma tryTerm_grown (d : daemon) (ps : Z * Z) :
  kills_succeed → tryTerm ps.1 ps.2 d = (Ok tt, grown (term_events ps) d).
Proof.
  intros Hk. rewrite tryTerm_run by done. unfold push_ev, grown. cbn. by rewrite <-!app_assoc.
Qed.

Lemma for_each_term (l : list (Z * Z)) (d : daemon) :
  kills_succeed →
  for_each l (λ '(pid, sig), tryTerm pid sig) d = (Ok tt, grown (flat_map term_events l) d).
Proof.
  intros Hk. revert d. induction l as [|[pid sig] l IH]; intros d; cbn [for_each flat_map].
  { by rewrite grown_nil. }
  rewrite (bind_run_Ok _ _ _ _ _ (tryTerm_grown d (pid, sig) Hk)), IH. by rewrite grown_grown.
Qed.

Definition set_events (s : ProcSet) : list devent := flat_map term_events (map_to_list s).

Lemma procset_clear_run (s : ProcSet) (d : daemon) :
  kills_succeed → procset_clear s d = (Ok tt, grown (set_events s) d).
Proof. apply for_each_term. Qed.

Lemma set_events_elem (s : ProcSet) (pid sig : Z) :
  s !! pid = Some sig → EvKill pid sig ∈ set_events s ∧ EvKill pid SIGKILL ∈ set_events s.
Proof.
  intros Hs. assert ((pid, sig) ∈ map_to_list s) as Hin by by apply elem_of_map_to_list.
  apply list_elem_of_In in Hin. unfold set_events.
  split; apply list_elem_of_In, in_flat_map; exists (pid, sig); (split; [done|]); cbn; auto.
Qed.

(** A signal and SIGKILL after it, among other events. *)
Definition killed_with (pid sig : Z) (evs : list devent) : Prop :=
  [EvKill pid sig; EvKill pid SIGKILL; EvReap pid] `sublist_of` evs.

Lemma set_events_killed (s : ProcSet) (pid sig : Z) :
  s !! pid = Some sig → killed_with pid sig (set_events s).
Proof.
  intros Hs. assert ((pid, sig) ∈ map_to_list s) as Hin by by apply elem_of_map_to_list.
  apply list_elem_of_split in Hin as (l1 & l2 & E). unfold killed_with, set_events.
  rewrite E, flat_map_app. cbn [flat_map].
  by apply sublist_inserts_l, sublist_inserts_r.
Qed.

Lemma killed_with_app_l (pid sig : Z) (l k : list devent) :
  killed_with pid sig l → killed_with pid sig (l ++ k).
Proof. intros Hl. by apply sublist_inserts_r. Qed.

Lemma killed_with_app_r (pid sig : Z) (l k : list devent) :
  killed_with pid sig k → killed_with pid sig (l ++ k).
Proof. intros Hl. by apply sublist_inserts_l. Qed.

Lemma flat_map_killed (l : list (Z * ProcSet)) (id : Z) (s : ProcSet) (pid sig : Z) :
  (id, s) ∈ l → s !! pid = Some sig →
  killed_with pid sig (flat_map (λ us, set_events us.2) l).
Proof.
  intros (l1 & l2 & ->)%list_elem_of_split Hs. rewrite flat_map_app. cbn [flat_map snd].
  by apply killed_with_app_r, killed_with_app_l, set_events_killed.
Qed.

Lemma deregister_run (d : daemon) (id pid : Z) :
  kills_succeed → d_idPidMap d !! id = Some pid →
  ∃ d1, deregisterAppID id d = (Ok tt, d1) ∧
    d_in d1 = d_in d ∧ d_in_open d1 = d_in_open d ∧ d_out d1 = d_out d ∧
    d_out_open d1 = d_out_open d ∧
    d_idPidMap d1 = delete id (d_idPidMap d) ∧ d_utilMap d1 = delete id (d_utilMap d) ∧
    d_cleanup d1 = delete pid (d_cleanup d) ∧
    d_events d1 = d_events d ++ set_events (util_procs id d) ++
      (if decide (is_Some (d_cleanup d !! pid)) then term_events (pid, SIGTERM) else []).
Proof.
  intros Hk E. unfold deregisterAppID. rewrite (bind_run_Ok get _ _ d d) by done. rewrite E.
  set (d1 := set_registry (d_id d)
    (if decide (0 < pid) then delete pid (d_pidIdMap d) else d_pidIdMap d)
    (delete id (d_idPidMap d)) d).
  rewrite (bind_run_Ok (forget_app id pid) _ _ tt d1) by done.
  set (d2 := grown (set_events (util_procs id d)) (set_utilMap (delete id (d_utilMap d)) d1)).
  rewrite (bind_run_Ok (utilMap_erase id) _ _ tt d2).
  2: { unfold utilMap_erase. rewrite (bind_run_Ok get _ _ d1 d1) by done.
       rewrite (bind_run_Ok _ _ _ tt (set_utilMap (delete id (d_utilMap d)) d1)) by done.
       by apply procset_clear_run. }
  case_decide as Hc.
  - rewrite (bind_run_Ok _ _ _ tt (set_cleanup (delete pid (d_cleanup d2)) d2)) by done.
    rewrite (tryTerm_grown _ (pid, SIGTERM) Hk). eexists. split; [done|].
    cbn. by rewrite <-!app_assoc.
  - eexists. split; [done|]. cbn. rewrite app_nil_r.
    split_and!; try done. rewrite delete_id; [done|].
    destruct (d_cleanup d !! pid); [destruct Hc; by eexists|done].
Qed.

(** A register request. *)
Lemma id_exchange (n : Z) (d d1 : daemon) (r : res Z) (i : Z) :
  idle d → in_signed 4 n = true → registerAppPID n d = (r, d1) →
  (r = Ok i ∨ ∃ what, r = Throw what ∧ i = 0) →
  d_out d1 = [] → d_out_open d1 = true → in_signed 4 i = true → 0 ≤ i →
  request_RegisterApp n d = (Ok i, d1).
Proof.
  intros Hd Hn Hf Hr Ho Hop Hi Hp. unfold request_RegisterApp. rewrite exchange_int by done.
  cbn [dispatch]. unfold handle_RegisterApp, tryWriteIDResp.
  assert ((x ← read_int; registerAppPID x) (set_in (map Byte (w_enc int_wire n)) d) = (r, d1)) as E.
  { rewrite (bind_run_Ok _ _ _ n d); [done|].
    rewrite (read_int_run n []); [|by apply Hd|done|by rewrite app_nil_r].
    by rewrite <-(set_in_id d) at 2 by apply Hd. }
  rewrite (bind_run_Ok _ _ _ tt (set_out (map Byte (w_enc idresp_wire (MkIDResp RESP_ID i))) d1)).
  - unfold zoom. cbn [d_out set_out].
    rewrite <-(app_nil_r (map Byte _)), read_id by done. by rewrite <-(set_out_id d1) at 2.
  - destruct Hr as [->|(what & -> & ->)].
    + apply try_catch_run_Ok. rewrite (bind_run_Ok _ _ _ _ _ E). by rewrite write_obj_run, Ho.
    + erewrite try_catch_run_Throw by (apply bind_run_Throw; exact E).
      by rewrite write_obj_run, Ho.
Qed.

Lemma in_signed_4 (z : Z) : in_signed 4 z = true ↔ int_min ≤ z ≤ int_max.
Proof.
  unfold in_signed, int_min, int_max. change (2 ^ (8 * Z.of_nat 4 - 1)) with 2147483648.
  rewrite andb_true_iff, Z.leb_le, Z.ltb_lt. lia.
Qed.

Lemma for_each_util (l : list (Z * ProcSet)) (d : daemon) :
  kills_succeed →
  for_each l (λ '(_, s), procset_clear s) d
  = (Ok tt, grown (flat_map (λ us, set_events us.2) l) d).
Proof.
  intros Hk. revert d. induction l as [|[id s] l IH]; intros d; cbn [for_each flat_map].
  { by rewrite grown_nil. }
  rewrite (bind_run_Ok _ _ _ _ _ (procset_clear_run s d Hk)), IH. by rewrite grown_grown.
Qed.

(** ** Properties *)

(** Registering an application.  Over idle sockets, for a process that is not
    registered (or the process 0 of a remote application), the library gets a new
    identifier: one more than any before, under which the daemon then knows the
    process. *)
Theorem register_app_fresh (d : daemon) (pid : Z) :
  registry_ok d → idle d → in_signed 4 pid = true → d_id d < int_max →
  (pid = 0 ∨ d_pidIdMap d !! pid = None) →
  ∃ d', request_RegisterApp pid d = (Ok (d_id d + 1), d') ∧ idle d' ∧
    d_idPidMap d !! (d_id d + 1) = None ∧ d_idPidMap d' !! (d_id d + 1) = Some pid ∧
    (∀ id p, d_idPidMap d !! id = Some p → d_idPidMap d' !! id = Some p).
Proof.
  intros Hreg Hd Hn Hmax Hp.
  pose proof (registerAppPID_fresh d pid ltac:(lia) Hp) as E.
  pose proof (r_id d Hreg) as Hid. unfold int_max in *.
  assert (d_idPidMap d !! (d_id d + 1) = None) as Hnone.
  { destruct (d_idPidMap d !! (d_id d + 1)) as [p|] eqn:Ep; [|done].
    apply (r_range d Hreg) in Ep. lia. }
  eexists. split_and!.
  - eapply id_exchange; [done|done|exact E|by left|apply Hd|apply Hd| |lia].
    apply in_signed_4. unfold int_min, int_max. lia.
  - by destruct Hd.
  - done.
  - cbn. by rewrite lookup_insert_eq.
  - intros id p Hi. cbn. rewrite lookup_insert_ne; [done|]. intros <-. congruence.
Qed.

(** A refused registration is not noticed.  The daemon reports failure with the
    identifier 0, while the library takes only negative identifiers for failure:
    registering a process twice returns the identifier 0 as if it were an
    application's, and the daemon does not know that identifier. *)
Theorem register_app_duplicate (d : daemon) (pid id : Z) :
  registry_ok d → idle d → in_signed 4 pid = true →
  pid ≠ 0 → d_pidIdMap d !! pid = Some id →
  request_RegisterApp pid d = (Ok 0, d) ∧ d_idPidMap d !! 0 = None.
Proof.
  intros Hreg Hd Hn Hp E. split.
  - eapply id_exchange; [done|done|by eapply registerAppPID_dup| |apply Hd|apply Hd|done|lia].
    right. by eexists.
  - destruct (d_idPidMap d !! 0) as [p|] eqn:E0; [|done]. apply (r_range d Hreg) in E0. lia.
Qed.

(** C11 Deregistering an application ends it.  Over idle sockets, when signals can be
    delivered, the library's request for a registered application succeeds; every
    utility of the application got its signal and then SIGKILL, and so did the
    application itself when the daemon is in charge of it; the identifier is gone,
    and a second request for it throws. *)
Theorem deregister_ends_app (d : daemon) (id pid : Z) :
  kills_succeed → idle d → in_signed 4 id = true → d_idPidMap d !! id = Some pid →
  ∃ d', request_DeregisterApp id d = (Ok tt, d') ∧ idle d' ∧
    d_idPidMap d' !! id = None ∧ d_utilMap d' !! id = None ∧ d_cleanup d' !! pid = None ∧
    (∀ u sig, util_procs id d !! u = Some sig →
       EvKill u sig ∈ d_events d' ∧ EvKill u SIGKILL ∈ d_events d') ∧
    (is_Some (d_cleanup d !! pid) →
       EvKill pid SIGTERM ∈ d_events d' ∧ EvKill pid SIGKILL ∈ d_events d') ∧
    request_DeregisterApp id d' = (Throw "daemon response indicated failure", d').
Proof.
  intros Hk Hd Hn E.
  destruct (deregister_run d id pid Hk E) as (d1 & Hrun & E1 & E2 & E3 & E4 & E5 & E6 & E7 & E8).
  assert (idle d1) as Hd1 by (destruct Hd; split; congruence).
  exists d1. split_and!.
  - unfold request_DeregisterApp. rewrite verify_exchange.
    rewrite (ok_exchange DeregisterApp (λ x, deregisterAppID x;; mret true) id d d1 (Ok true));
      [done|done|done|done|by rewrite (bind_run_Ok _ _ _ _ _ Hrun)|apply Hd1|apply Hd1].
  - done.
  - rewrite E5. apply lookup_delete_eq.
  - rewrite E6. apply lookup_delete_eq.
  - rewrite E7. apply lookup_delete_eq.
  - intros u sig Hu. destruct (set_events_elem _ _ _ Hu). rewrite E8.
    split; apply elem_of_app; right; apply elem_of_app; by left.
  - intros Hc. rewrite E8, decide_True by done.
    split; apply elem_of_app; right; apply elem_of_app; right; cbn; set_solver.
  - unfold request_DeregisterApp. rewrite verify_exchange.
    rewrite (ok_exchange DeregisterApp (λ x, deregisterAppID x;; mret true) id d1 d1
      (Throw ("invalid app id: " +:+ to_string id)));
      [done|done|done|done| |apply Hd1|apply Hd1].
    apply bind_run_Throw. unfold deregisterAppID. rewrite (bind_run_Ok get _ _ d1 d1) by done.
    by rewrite E5, lookup_delete_eq.
Qed.

Lemma elem_of_set_events (s : ProcSet) (e : devent) :
  e ∈ set_events s → ∃ pid sig, e ∈ term_events (pid, sig) ∧ s !! pid = Some sig.
Proof.
  intros ([pid sig] & Hin & He)%list_elem_of_In%in_flat_map. exists pid, sig.
  split; [by apply list_elem_of_In|]. by apply elem_of_map_to_list, list_elem_of_In.
Qed.

Lemma elem_of_util_events (u : gmap Z ProcSet) (e : devent) :
  e ∈ flat_map (λ us : Z * ProcSet, set_events us.2) (map_to_list u) →
  ∃ id s, u !! id = Some s ∧ e ∈ set_events s.
Proof.
  intros ([id s] & Hin & He)%list_elem_of_In%in_flat_map. exists id, s.
  split; [by apply elem_of_map_to_list, list_elem_of_In|by apply list_elem_of_In].
Qed.

(** Threads that find nothing under their identifier change nothing but the list. *)
Lemma erase_nothing (l : list Z) (d : daemon) :
  d_utilMap d = ∅ → for_each l utilMap_erase d = (Ok tt, d).
Proof.
  intros Hu. induction l as [|id l IH]; [done|]. cbn [for_each].
  rewrite (bind_run_Ok (utilMap_erase id) _ _ tt d); [done|].
  unfold utilMap_erase. rewrite (bind_run_Ok get _ _ d d) by done.
  rewrite (bind_run_Ok _ _ _ tt d).
  - unfold util_procs. rewrite Hu, lookup_empty. cbn. unfold procset_clear.
    by rewrite map_to_list_empty.
  - unfold modify. rewrite Hu, delete_empty. destruct d. cbn in Hu. by subst.
Qed.


(** Waiting for an MPIR launch is undefined behaviour.  For every live MPIR
    identifier the daemon erases the instance from its map and then calls the
    instance through the erased iterator; the launcher has been let go by then. *)
Theorem wait_mpir_undefined (d : daemon) (id : Z) (inst : mpir_inst) :
  idle d → in_signed 4 id = true → d_mpirMap d !! id = Some inst →
  ∃ d', request_WaitMPIR id d = (Undef "iterator used after its element was erased", d') ∧
    d_mpirMap d' !! id = None ∧ EvMPIRRelease (mi_getLauncherPid inst) ∈ d_events d'.
Proof.
  intros Hd Hn E.
  set (d1 := push_ev (EvMPIRRelease (mi_getLauncherPid inst))
    (set_mpirMap (delete id (d_mpirMap d)) d)).
  assert (waitMPIR id d = (Undef "iterator used after its element was erased", d1)) as Hw.
  { unfold waitMPIR. rewrite (bind_run_Ok get _ _ d d) by done. by rewrite E. }
  exists d1. split_and!.
  - unfold request_WaitMPIR. rewrite verify_exchange.
    by rewrite (ok_exchange WaitMPIR waitMPIR id d d1 _ eq_refl Hd Hn Hw)
      by (destruct Hd; done).
  - cbn. apply lookup_delete_eq.
  - cbn. apply elem_of_app. right. by left.
Qed.

(** The cleanup list is untouched by a computation. *)
Definition cleanup_is (s : ProcSet) (d : daemon) : Prop := d_cleanup d = s.

Lemma cleanup_forkExec (s : ProcSet) (ld : LaunchData) : preserves (cleanup_is s) (forkExec ld).
Proof. unfold forkExec. preserve. Qed.

Lemma cleanup_register (s : ProcSet) (pid : Z) : preserves (cleanup_is s) (registerAppPID pid).
Proof.
  assert (preserves (cleanup_is s) newId) as Hn by by apply keep_newId.
  unfold registerAppPID. preserve.
Qed.

(** Applications started with [ForkExecvpApp] are not ended with the daemon: the
    handler never adds the new process to the cleanup list, on any path, so neither
    [DeregisterApp] nor the end of the daemon signals it. *)
Theorem forked_app_not_listed (d : daemon) :
  d_cleanup (dispatch ForkExecvpApp d).2 = d_cleanup d.
Proof.
  assert (preserves (cleanup_is (d_cleanup d)) (dispatch ForkExecvpApp)) as Hp; [|by apply Hp].
  assert (∀ m, preserves (cleanup_is (d_cleanup d)) (write_resp m)) as Hw.
  { intros m d0 Hd0. unfold write_resp, zoom. destruct (d_out_open d0); [|done].
    by destruct (m (d_out d0)). }
  cbn [dispatch]. unfold handle_ForkExecvpApp, tryWriteIDResp.
  apply preserves_try_catch; [|intros; apply Hw].
  apply preserves_bind; [|intros; apply Hw].
  apply preserves_bind.
  - intros d0 Hd0. unfold read_req, zoom. destruct (d_in_open d0); [|done].
    by destruct (readLaunchData (d_in d0)).
  - intros ld. apply preserves_bind; [apply cleanup_forkExec|intros pid; apply cleanup_register].
Qed.
End Client.
