(* ===== verification/LaunchProofs.v ===== *)
(** * MPIR launches of the frontend daemon

    The environment around a launch, and the response with the process table. *)

From S2P Require Import Prelude Split Argv Host Wire Launch Daemon Handlers FEIface DaemonProofs AppRegistry Client.

(** ** The environment is restored *)

(** The variables a launch sets or removes, in order. *)
Definition set_names (vars : list string) : list string := map (λ v, (split2 v "=").1) vars.

Definition launch_names (ld : LaunchData) : list string :=
  set_names (envList ld) ++ envBlacklist ld.

Definition good_name (n : string) : Prop := valid_name n = true ∧ nul_free n = true.

(** Values of environment variables are C strings. *)
Definition env_ok (e : gmap string string) : Prop := ∀ k v, e !! k = Some v → nul_free v = true.

Lemma good_c_str (n : string) : good_name n → c_str n = n.
Proof. intros [_ Hn]. by apply c_str_id. Qed.

Lemma getenv_good (n : string) (e : gmap string string) : good_name n → getenv n e = e !! n.
Proof. intros Hn. unfold getenv. by rewrite good_c_str. Qed.

Lemma setenv_good (n v : string) (e : gmap string string) :
  good_name n → setenv n v e = <[n := c_str v]> e.
Proof. intros Hn. unfold setenv. rewrite good_c_str by done. destruct Hn as [-> _]. done. Qed.

Lemma unsetenv_good (n : string) (e : gmap string string) : good_name n → unsetenv n e = delete n e.
Proof. intros Hn. unfold unsetenv. rewrite good_c_str by done. destruct Hn as [-> _]. done. Qed.

Lemma overwrite_env_saved (vars : list string) (e : gmap string string) :
  NoDup (set_names vars) → (∀ n, n ∈ set_names vars → good_name n) →
  (overwrite_env vars e).1 = map (λ n, (n, e !! n)) (set_names vars) ∧
  ∀ k, k ∉ set_names vars → (overwrite_env vars e).2 !! k = e !! k.
Proof.
  revert e. induction vars as [|v vars IH]; intros e Hnd Hg; [done|].
  cbn [set_names map overwrite_env] in *. apply NoDup_cons in Hnd as [Hn Hnd].
  destruct (split2 v "=") as [n val] eqn:E. cbn [fst] in *.
  assert (good_name n) as Hgn by (apply Hg; by left).
  destruct (IH (setenv n val e) Hnd ltac:(intros m Hm; apply Hg; by right)) as [H1 H2].
  destruct (overwrite_env vars (setenv n val e)) as [saved e']. cbn [fst snd] in *.
  rewrite setenv_good in H1, H2 by done. split.
  - rewrite getenv_good, H1 by done. f_equal. apply map_ext_in. intros m Hm.
    rewrite lookup_insert_ne; [done|]. intros <-. apply Hn. by apply list_elem_of_In.
  - intros k Hk. rewrite H2 by (intros ?; apply Hk; by right).
    rewrite lookup_insert_ne; [done|]. intros <-. apply Hk. by left.
Qed.

Lemma unset_env_saved (black : list string) (e : gmap string string) :
  NoDup black → (∀ n, n ∈ black → good_name n) →
  (∀ n o, (n, o) ∈ (unset_env black e).1 ↔ n ∈ black ∧ o = e !! n ∧ is_Some o) ∧
  NoDup (map fst (unset_env black e).1) ∧
  ∀ k, (unset_env black e).2 !! k = if decide (k ∈ black) then None else e !! k.
Proof.
  revert e. induction black as [|b black IH]; intros e Hnd Hg.
  { cbn. split_and!; [|constructor|done]. intros n o. split; [by intros ?%elem_of_nil|].
    by intros [?%elem_of_nil _]. }
  apply NoDup_cons in Hnd as [Hn Hnd]. assert (good_name b) as Hgb by (apply Hg; by left).
  destruct (IH (delete b e) Hnd ltac:(intros m Hm; apply Hg; by right)) as (H1 & H2 & H3).
  cbn [unset_env]. rewrite unsetenv_good, getenv_good by done.
  destruct (unset_env black (delete b e)) as [saved e']. cbn [fst snd] in *.
  assert (∀ n o, (n, o) ∈ saved ↔ n ∈ black ∧ o = e !! n ∧ is_Some o) as H1'.
  { intros n o. rewrite H1. destruct (decide (n = b)) as [->|Hne]; [tauto|].
    by rewrite lookup_delete_ne. }
  split_and!.
  - intros n o. destruct (e !! b) as [v|] eqn:E.
    + rewrite !elem_of_cons, H1'. split.
      * intros [[= -> ->]|(? & ? & ?)]; [|by eauto]. split; [by left|]. by rewrite E.
      * intros [[->|?] [-> ?]]; [left; by rewrite E|by right].
    + rewrite elem_of_cons, H1'. split; [tauto|].
      intros [[->|?] [-> Hs]]; [rewrite E in Hs; by destruct Hs|done].
  - destruct (e !! b); [|done]. cbn. apply NoDup_cons. split; [|done].
    intros Hin. apply list_elem_of_In, in_map_iff in Hin as ([n o] & <- & Hin).
    by apply list_elem_of_In, H1' in Hin as [? _].
  - intros k. rewrite H3. destruct (decide (k = b)) as [->|Hne].
    + rewrite lookup_delete_eq. rewrite (decide_True _ _ (list_elem_of_here b black)).
      by destruct (decide (b ∈ black)).
    + rewrite lookup_delete_ne by done.
      destruct (decide (k ∈ black)), (decide (k ∈ b :: black)) as [Hin|Hin]; try done.
      * destruct Hin. by right.
      * by apply elem_of_cons in Hin as [?|?].
Qed.

(** Restoring distinct variables. *)
Lemma restore_env_lookup (saved : list (string * option string)) (e : gmap string string) k :
  NoDup (map fst saved) → (∀ n, n ∈ map fst saved → good_name n) →
  (∀ n v, (n, Some v) ∈ saved → nul_free v = true) →
  (∀ o, (k, o) ∈ saved → restore_env saved e !! k = o) ∧
  (k ∉ map fst saved → restore_env saved e !! k = e !! k).
Proof.
  revert e. induction saved as [|[n o] saved IH]; intros e Hnd Hg Hv.
  { split; [by intros o ?%elem_of_nil|done]. }
  cbn [map fst] in Hnd, Hg. apply NoDup_cons in Hnd as [Hn Hnd].
  assert (good_name n) as Hgn by (apply Hg; by left).
  destruct (IH (restore_var (n, o) e) Hnd ltac:(intros m Hm; apply Hg; by right)
    ltac:(intros m v Hm; eapply Hv; by right)) as [H1 H2].
  change (restore_env ((n, o) :: saved) e) with (restore_env saved (restore_var (n, o) e)).
  assert (is_empty n = false) as He.
  { destruct Hgn as [[Hne _]%andb_true_iff _]. by apply negb_true_iff in Hne. }
  assert (restore_var (n, o) e !! n = o ∧ ∀ j, j ≠ n → restore_var (n, o) e !! j = e !! j)
    as [Hr1 Hr2].
  { unfold restore_var. cbn [fst snd]. rewrite He. destruct o as [v|].
    - rewrite setenv_good, c_str_id by (done || (eapply Hv; by left)).
      split; [by rewrite lookup_insert_eq|]. intros j Hj. by rewrite lookup_insert_ne.
    - rewrite unsetenv_good by done.
      split; [by rewrite lookup_delete_eq|]. intros j Hj. by rewrite lookup_delete_ne. }
  split.
  - intros o' [[= -> ->]|Hin]%elem_of_cons; [by rewrite H2|by apply H1].
  - cbn [map fst]. intros Hk. rewrite H2 by (intros ?; apply Hk; by right).
    apply Hr2. intros ->. apply Hk. by left.
Qed.

Lemma map_fst_pairs {A B : Type} (f : A → B) (l : list A) : map fst (map (λ n, (n, f n)) l) = l.
Proof. induction l as [|a l IH]; [done|]. cbn. by rewrite IH. Qed.

Lemma restore_launch_env (ld : LaunchData) (e : gmap string string) :
  env_ok e → NoDup (launch_names ld) → (∀ n, n ∈ launch_names ld → good_name n) →
  restore_env (launch_env ld e).1 (launch_env ld e).2 = e.
Proof.
  intros He Hnd Hg. unfold launch_names in *. apply NoDup_app in Hnd as (Hnd1 & Hdis & Hnd2).
  destruct (overwrite_env_saved (envList ld) e Hnd1) as [Hs1 Ho1].
  { intros n Hn. apply Hg, elem_of_app. by left. }
  unfold launch_env. destruct (overwrite_env (envList ld) e) as [saved1 e1]. cbn [fst snd] in *.
  destruct (unset_env_saved (envBlacklist ld) e1 Hnd2) as (Hs2 & Hd2 & Ho2).
  { intros n Hn. apply Hg, elem_of_app. by right. }
  destruct (unset_env (envBlacklist ld) e1) as [saved2 e2]. cbn [fst snd] in *.
  set (names := set_names (envList ld)) in *.
  assert (map fst saved1 = names) as Hn1 by by rewrite Hs1, map_fst_pairs.
  assert (∀ n, n ∈ map fst saved2 → n ∈ envBlacklist ld) as Hn2.
  { intros n Hn. apply list_elem_of_In, in_map_iff in Hn as ([m o] & <- & Hm).
    by apply list_elem_of_In, Hs2 in Hm as [? _]. }
  assert (∀ n o, (n, o) ∈ saved1 ++ saved2 → o = e !! n) as Hval.
  { intros n o [Hin|Hin]%elem_of_app.
    - rewrite Hs1 in Hin. apply list_elem_of_In, in_map_iff in Hin as (m & [= -> <-] & _). done.
    - apply Hs2 in Hin as (Hb & -> & _). apply Ho1. intros Hin. by apply (Hdis n). }
  apply map_eq. intros k.
  destruct (restore_env_lookup (saved1 ++ saved2) e2 k) as [Hin Hout].
  - rewrite map_app, Hn1. apply NoDup_app. split_and!; [done| |done].
    intros n Hn Hm. apply (Hdis n); [done|]. by apply Hn2.
  - intros n. rewrite map_app, Hn1. intros [?|?]%elem_of_app; apply Hg, elem_of_app;
      [by left|right; by apply Hn2].
  - intros n v Hn. apply Hval in Hn. by eapply He.
  - destruct (decide (k ∈ map fst (saved1 ++ saved2))) as [Hk|Hk].
    + apply list_elem_of_In, in_map_iff in Hk as ([m o] & Hm & Hk). cbn in Hm. subst m.
      apply list_elem_of_In in Hk. rewrite (Hin o Hk). by apply Hval.
    + rewrite (Hout Hk), Ho2. rewrite map_app, Hn1 in Hk.
      assert (k ∉ names) as Hk1 by (intros ?; apply Hk, elem_of_app; by left).
      destruct (decide (k ∈ envBlacklist ld)) as [Hb|Hb]; [|by apply Ho1].
      rewrite <-(Ho1 k Hk1). destruct (e1 !! k) as [v|] eqn:E; [|done]. exfalso.
      apply Hk, elem_of_app. right. apply list_elem_of_In, in_map_iff. exists (k, Some v).
      split; [done|]. apply list_elem_of_In, Hs2. by rewrite E.
Qed.

Section MPIRLaunch.
Context `{Kernel} `{ReqSocket} `{Procs} `{MPIR} `{Host}.

Definition env_is (e : gmap string string) (d : daemon) : Prop := d_env d = e.

Lemma env_register (e : gmap string string) (pid : Z) : preserves (env_is e) (registerAppPID pid).
Proof.
  assert (preserves (env_is e) newId) as Hn by by apply keep_newId.
  unfold registerAppPID. preserve.
Qed.

Lemma env_extract (e : gmap string string) (inst : mpir_inst) :
  preserves (env_is e) (extractMPIRResult inst).
Proof. pose proof (env_register e). unfold extractMPIRResult. preserve. Qed.

(** An MPIR launch leaves the daemon's environment as it was.  When the variables
    of the request are distinct and well named, then however the launch ends, short
    of undefined behaviour, every variable that was set for the launcher or removed
    for it has its former value, or is absent as before. *)
Theorem launch_restores_env (ld : LaunchData) (d : daemon) :
  env_ok (d_env d) → NoDup (launch_names ld) → (∀ n, n ∈ launch_names ld → good_name n) →
  (∃ why, (launchMPIR ld d).1 = Undef why) ∨ d_env (launchMPIR ld d).2 = d_env d.
Proof.
  intros He Hnd Hg. pose proof (restore_launch_env ld (d_env d) He Hnd Hg) as Hr.
  unfold launchMPIR. rewrite (bind_run_Ok get _ _ d d) by done.
  destruct (launch_env ld (d_env d)) as [saved e]. cbn [fst snd] in Hr.
  rewrite (bind_run_Ok _ _ _ tt (set_env e d)) by done.
  match goal with |- context [finally ?m ?f] => set (body := m); set (restore := f) end.
  assert (preserves (env_is e) body) as Hb.
  { pose proof (env_extract e). unfold body, set_launchingInstance. preserve. }
  specialize (Hb (set_env e d) eq_refl). unfold env_is in Hb. unfold finally.
  destruct (body (set_env e d)) as [[a|what|why] d1]; cbn in Hb |- *;
    [right; by rewrite Hb|right; by rewrite Hb|left; by exists why].
Qed.
End MPIRLaunch.

(** A variable named twice leaks.  For a launch that sets the same variable twice,
    the saved values are put back from the first to the last, so the daemon keeps
    the first of the two values, although the variable was not set before. *)
Theorem duplicate_variable_leaks :
  let ld := MkLaunchData (MkFd 0 DevNullR) (MkFd 1 DevNullW) (MkFd 2 DevNullW) "srun" ["srun"]
              ["LAUNCH_MODE=a"; "LAUNCH_MODE=b"] [] in
  let '(saved, e) := launch_env ld ∅ in
  e !! "LAUNCH_MODE" = Some "b" ∧
  restore_env saved e !! "LAUNCH_MODE" = Some "a" ∧
  (∅ : gmap string string) !! "LAUNCH_MODE" = None.
Proof. by vm_compute. Qed.

(** ** The MPIR response *)

Section Response.
Context `{Kernel}.

Definition elem_ok (el : MPIRProctableElem) : bool :=
  in_signed 4 (el_pid el) && nul_free (el_hostname el) && nul_free (el_executable el).

Definition result_ok (r : MPIRResult) : bool :=
  in_signed 4 (res_mpir_id r) && in_signed 4 (res_launcher_pid r) &&
  in_unsigned 4 (res_job_id r) && in_unsigned 4 (res_step_id r) &&
  (Z.of_nat (length (res_proctable r)) <=? int_max) && forallb elem_ok (res_proctable r).

Lemma read_char_run (c : ascii) (rest : list item) :
  fdReadLoop char_wire (Byte c :: rest) = (Ok c, rest).
Proof. exact (fdReadLoop_enc char_wire c rest eq_refl). Qed.

Lemma read_chars_run (s : string) (rest : list item) (fuel : nat) :
  nul_free s = true → (String.length s < fuel)%nat →
  read_chars fuel (map Byte (list_ascii_of_string s ++ ["000"%char]) ++ rest) = (Ok s, rest).
Proof.
  revert fuel. induction s as [|c s IH]; intros fuel Hs Hf; (destruct fuel as [|fuel]; [cbn in Hf; lia|]);
    cbn [read_chars list_ascii_of_string app map].
  - rewrite (bind_run_Ok _ _ _ _ _ (read_char_run "000"%char rest)).
    by rewrite decide_True.
  - apply andb_true_iff in Hs as [Hc%bool_decide_eq_true Hs].
    rewrite (bind_run_Ok _ _ _ _ _ (read_char_run c _)).
    rewrite decide_False by done. cbn in Hf.
    by rewrite (bind_run_Ok _ _ _ _ _ (IH fuel Hs ltac:(lia))).
Qed.

Lemma read_nul_string_run (s : string) (rest : list item) :
  nul_free s = true →
  read_nul_string (map Byte (list_ascii_of_string s ++ ["000"%char]) ++ rest) = (Ok s, rest).
Proof.
  intros Hs. unfold read_nul_string.
  rewrite (bind_run_Ok get _ _ _ _ eq_refl). apply read_chars_run; [done|].
  rewrite length_app, length_map, length_app, length_list_ascii. lia.
Qed.

Lemma read_elems_run (l : list MPIRProctableElem) (rest : list item) :
  forallb elem_ok l = true →
  read_elems (length l) (concat (map elem_items l) ++ rest) = (Ok l, rest).
Proof.
  induction l as [|el l IH]; [done|]. cbn [forallb map concat length read_elems].
  intros [[[Hp Hh]%andb_true_iff He]%andb_true_iff Hl]%andb_true_iff.
  unfold elem_items at 1. rewrite (map_app Byte (w_enc int_wire (el_pid el))).
  rewrite (map_app Byte (list_ascii_of_string (el_hostname el) ++ ["000"%char])), <-!app_assoc.
  rewrite (bind_run_Ok _ _ _ _ _ (fdReadLoop_enc int_wire (el_pid el) _ Hp)).
  rewrite (bind_run_Ok _ _ _ _ _ (read_nul_string_run _ _ Hh)).
  rewrite (bind_run_Ok _ _ _ _ _ (read_nul_string_run _ _ He)).
  rewrite (bind_run_Ok _ _ _ _ _ (IH Hl)). by destruct el.
Qed.

Lemma to_int_small (n : Z) : 0 ≤ n ≤ int_max → to_int n = n.
Proof.
  unfold int_max. intros Hn. unfold to_int, to_signed. rewrite Z.mod_small by lia.
  change (2 ^ (8 * Z.of_nat 4 - 1)) with 2147483648. destruct (Z.ltb_spec n 2147483648); lia.
Qed.

Lemma readLoop_exact (l : bytes) (rest : list item) :
  readLoop (length l) fd_reader (length l) (map Byte l ++ rest) = (Ok l, rest).
Proof.
  rewrite readLoop_full by (rewrite ?length_app, ?length_map; lia).
  rewrite take_app_length', drop_app_length' by by rewrite length_map.
  by rewrite item_byte_Byte.
Qed.

(** Reading a complete response *)
Lemma readMPIRResp_ok (r : MPIRResult) (rest : list item) :
  result_ok r = true → res_mpir_id r ≠ 0 →
  readMPIRResp ((map Byte (w_enc mpirresp_wire (MkMPIRResp RESP_MPIR (res_mpir_id r)
      (res_launcher_pid r) (res_job_id r) (res_step_id r)
      (to_int (Z.of_nat (length (res_proctable r)))) 0)) ++
     concat (map elem_items (res_proctable r))) ++ rest)
  = (Ok (MkFEMPIRResult r (generateBinaryRankMap (res_proctable r))), rest).
Proof.
  intros Hr Hid. rewrite <-app_assoc.
  apply andb_true_iff in Hr as [Hr Hel]. apply andb_true_iff in Hr as [Hr Hn%Z.leb_le].
  rewrite !andb_true_iff in Hr. destruct Hr as [[[Hi Hp] Hj] Hs].
  set (n := Z.of_nat (length (res_proctable r))) in *.
  assert (to_int n = n) as En by (apply to_int_small; lia). rewrite En.
  unfold readMPIRResp. rewrite (bind_run_Ok _ _ _ _ _ (fdReadLoop_enc mpirresp_wire
    (MkMPIRResp RESP_MPIR (res_mpir_id r) (res_launcher_pid r) (res_job_id r) (res_step_id r) n 0)
    _ ltac:(cbn [mpirresp_wire w_valid mr_type mr_mpir_id mr_launcher_pid mr_job_id mr_step_id
              mr_num_pids mr_error_msg_len]; rewrite !andb_true_iff;
            split_and!; try done; apply in_signed_4; unfold int_min, int_max in *; lia))).
  cbn [mr_type mr_mpir_id mr_launcher_pid mr_job_id mr_step_id mr_num_pids mr_error_msg_len].
  rewrite bool_decide_false by tauto.
  destruct (Z.eqb_spec (res_mpir_id r) 0); [done|]. destruct (Z.ltb_spec n 0); [lia|].
  unfold n. rewrite Nat2Z.id, (bind_run_Ok _ _ _ _ _ (read_elems_run _ _ Hel)).
  by destruct r.
Qed.

Lemma readMPIRResp_failed (what : string) (rest : list item) :
  Z.of_nat (String.length (c_str what)) + 1 < 2 ^ 64 →
  readMPIRResp ((map Byte (w_enc mpirresp_wire (MkMPIRResp RESP_MPIR 0 0 0 0 0
      (Z.of_nat (String.length (c_str what)) + 1))) ++ map Byte (cstr_bytes what)) ++ rest)
  = (Throw (c_str what), rest).
Proof.
  intros Hlen. rewrite <-app_assoc.
  set (n := Z.of_nat (String.length (c_str what)) + 1) in *.
  unfold readMPIRResp. rewrite (bind_run_Ok _ _ _ _ _ (fdReadLoop_enc mpirresp_wire
    (MkMPIRResp RESP_MPIR 0 0 0 0 0 n) _ ltac:(cbn [mpirresp_wire w_valid mr_type mr_mpir_id
              mr_launcher_pid mr_job_id mr_step_id mr_num_pids mr_error_msg_len];
            rewrite !andb_true_iff; split_and!; try done;
            unfold in_unsigned; rewrite andb_true_iff, Z.leb_le, Z.ltb_lt; unfold n; cbn; lia))).
  cbn [mr_type mr_mpir_id mr_error_msg_len]. rewrite bool_decide_false by tauto.
  cbn [Z.eqb]. destruct (Z.ltb_spec 0 n); [|unfold n in *; lia]. unfold read_error.
  assert (Z.to_nat n = length (cstr_bytes what)) as ->.
  { unfold cstr_bytes. rewrite length_app, length_list_ascii. unfold n. cbn. lia. }
  cbv zeta. erewrite bind_run_Ok.
  2: { apply try_catch_run_Ok. rewrite (bind_run_Ok _ _ _ _ _ (readLoop_exact _ rest)). done. }
  unfold cstr_bytes. rewrite length_app, take_app_length' by (cbn; lia).
  rewrite string_of_list_ascii_of_string. by rewrite (c_str_id (c_str what)) by apply c_str_nul_free.
Qed.

End Response.

Section ResponseTheorem.
Context `{Kernel} `{ReqSocket} `{Procs} `{MPIR} `{Host}.

Lemma mpir_response_ok (func : M daemon MPIRResult) (d d1 : daemon) (r : MPIRResult) :
  d_out_open d1 = true → func d = (Ok r, d1) → result_ok r = true → res_mpir_id r ≠ 0 →
  ∃ sent, tryWriteMPIRResp func d = (Ok tt, set_out (d_out d1 ++ sent) d1) ∧
    ∀ rest, readMPIRResp (sent ++ rest)
      = (Ok (MkFEMPIRResult r (generateBinaryRankMap (res_proctable r))), rest).
Proof.
  intros Ho Hf Hr Hid. eexists. split; [|intros rest; by apply readMPIRResp_ok].
  apply try_catch_run_Ok. rewrite (bind_run_Ok _ _ _ _ _ Hf).
  rewrite (bind_run_Ok _ _ _ _ _ (write_obj_run mpirresp_wire _ d1 Ho)).
  rewrite write_elems_run by done. cbn [set_out d_out]. by rewrite <-app_assoc.
Qed.

Lemma mpir_response_failed (func : M daemon MPIRResult) (d d1 : daemon) (what : string) :
  d_out_open d1 = true → func d = (Throw what, d1) →
  Z.of_nat (String.length (c_str what)) + 1 < 2 ^ 64 →
  ∃ sent, tryWriteMPIRResp func d = (Ok tt, set_out (d_out d1 ++ sent) d1) ∧
    ∀ rest, readMPIRResp (sent ++ rest) = (Throw (c_str what), rest).
Proof.
  intros Ho Hf Hlen. eexists. split; [|intros rest; by apply readMPIRResp_failed].
  unfold tryWriteMPIRResp. erewrite try_catch_run_Throw by (apply bind_run_Throw, Hf).
  rewrite (bind_run_Ok _ _ _ _ _ (write_obj_run mpirresp_wire _ d1 Ho)).
  unfold fdWriteString. rewrite write_bytes_run by done.
  cbn [set_out d_out]. by rewrite <-app_assoc.
Qed.

(** C22 The MPIR response carries the whole result.  When a launch or an attach ends
    with a result under a real identifier, what [tryWriteMPIRResp] sends is read by
    the library as the same identifiers, job numbers and process table, with the
    ranks of each executable, and nothing else is consumed; when it throws, the
    library throws with the daemon's message. *)
Theorem mpir_response_roundtrip (func : M daemon MPIRResult) (d d1 : daemon) :
  d_out_open d1 = true →
  (∀ r, func d = (Ok r, d1) → result_ok r = true → res_mpir_id r ≠ 0 →
    ∃ sent, tryWriteMPIRResp func d = (Ok tt, set_out (d_out d1 ++ sent) d1) ∧
      ∀ rest, readMPIRResp (sent ++ rest)
        = (Ok (MkFEMPIRResult r (generateBinaryRankMap (res_proctable r))), rest)) ∧
  (∀ what, func d = (Throw what, d1) → Z.of_nat (String.length (c_str what)) + 1 < 2 ^ 64 →
    ∃ sent, tryWriteMPIRResp func d = (Ok tt, set_out (d_out d1 ++ sent) d1) ∧
      ∀ rest, readMPIRResp (sent ++ rest) = (Throw (c_str what), rest)).
Proof.
  intros Ho. split.
  - intros r. by apply mpir_response_ok.
  - intros what. by apply mpir_response_failed.
Qed.
End ResponseTheorem.
