(* ===== verification/DaemonExamples.v ===== *)
(** * Concrete runs of the frontend daemon

    A small operating system, on which the properties of the daemon are evaluated,
    and a run in which the two sides lose synchronisation. *)

From S2P Require Import Prelude Split Argv Host Wire Launch Daemon Handlers FEIface DaemonProofs AppRegistry Client LaunchProofs.

#[export] Instance demo_procs : Procs := {|
  p_fork evs := 300 + Z.of_nat (length evs);
  p_kill _ _ _ := true;
  p_zombie _ _ := false;
  p_wait _ _ := Some (Some 0);
  p_mkdir _ := true;
  p_symlink _ := true;
  p_pipe _ := (8, 9);
  p_shim_pid _ := Some 77;
  p_uuid _ := "uuid" |}.

(** An MPIR process is its process id; its process table has one entry. *)
#[export] Instance demo_mpir : MPIR := {|
  mpir_inst := Z;
  mi_launch _ _ _ _ := Ok 500;
  mi_attach _ pid := Ok pid;
  mi_runToMPIRBreakpoint i := Ok i;
  mi_getLauncherPid i := i;
  mi_readStringAt _ v := if decide (v = "totalview_jobid") then Ok "42" else Throw "no symbol";
  mi_getProctable i := Ok [MkElem 1000 "node1" "/bin/a.out"] |}.

Definition demo_empty : daemon := new_daemon [] ∅.

(** Process 100 registered as application 1, with utility 200. *)
Definition demo_app_daemon : daemon := (request_RegisterApp 100 demo_empty).2.
Definition demo_util_daemon : daemon := (request_RegisterUtil 1 200 demo_app_daemon).2.

(** A launcher attached as MPIR instance 1. *)
Definition demo_mpir_daemon : daemon := (request_AttachMPIR "/usr/bin/tool" 77 demo_empty).2.

Lemma registry_exchange {A : Type} (req : M (list item) ()) (resp : M (list item) A) :
  preserves registry_ok (exchange req resp).
Proof.
  unfold exchange. apply preserves_bind.
  - intros d Hd. unfold zoom. destruct (req (d_in d)) as [r l]. by apply (registry_frame d).
  - intros _. apply preserves_bind; [apply keep_serve; [apply registry_admissible|
      apply registry_closed]|intros _].
    intros d Hd. unfold zoom. destruct (resp (d_out d)) as [r l]. by apply (registry_frame d).
Qed.

Lemma demo_app_ok : registry_ok demo_app_daemon.
Proof. apply registry_exchange, registry_new. Qed.

Lemma demo_kills : kills_succeed.
Proof. by intros evs pid sig. Qed.

Lemma idle_check (d : daemon) :
  d_in d = [] → d_in_open d = true → d_out d = [] → d_out_open d = true → idle d.
Proof. by split. Qed.

Lemma demo_empty_idle : idle demo_empty.
Proof. apply idle_check; reflexivity. Qed.

Lemma demo_app_idle : idle demo_app_daemon.
Proof. apply idle_check; vm_compute; reflexivity. Qed.

Lemma demo_util_idle : idle demo_util_daemon.
Proof. apply idle_check; vm_compute; reflexivity. Qed.

Lemma demo_mpir_idle : idle demo_mpir_daemon.
Proof. apply idle_check; vm_compute; reflexivity. Qed.

(** ** Losing synchronisation *)

Definition bad_path : string := "a" +:+ String byte_FF "b".

Definition desynced : daemon := (request_AttachMPIR bad_path 5 demo_empty).2.

(** The two sides can lose synchronisation.  A request to attach to a launcher
    whose path has a byte 255 leaves the end of the request in the stream, and the
    path and process id the daemon acts on are not the ones sent: it attaches to the
    path "a", under a process id made of the rest of the path and half of the
    real one.  The next request is read from the middle: it is no request
    to the daemon, which does nothing and sends no response. *)
Theorem byte_255_desynchronises :
  d_in desynced = [Byte "000"; Byte "000"] ∧
  d_mpirMap desynced !! 1 = Some (98 + 5 * 65536) ∧
  (serve (set_in (d_in desynced ++ map Byte (w_enc long_wire (req_value RegisterApp) ++
            w_enc int_wire 7)) desynced)).1 = Ok tt ∧
  d_out (serve (set_in (d_in desynced ++ map Byte (w_enc long_wire (req_value RegisterApp) ++
            w_enc int_wire 7)) desynced)).2 = [].
Proof. split_and!; vm_compute; reflexivity. Qed.

(** The entry of a number below 0 stays when its application is removed: the number
    can then not be registered again, although no application has it. *)
Theorem negative_pid_stays :
  let d := (request_DeregisterApp 1 (request_RegisterApp (-5) demo_empty).2).2 in
  d_idPidMap d = ∅ ∧ d_pidIdMap d !! (-5) = Some 1 ∧
  (registerAppPID (-5) d).1 = Throw "duplicate app pid: -5".
Proof. split_and!; vm_compute; reflexivity. Qed.

(** ** Witnesses *)


(** The rounds of a daemon, one after the other. *)
Lemma round_inv (d d' : daemon) : rtc round d d' →
  d' = d ∨ (d_running d = true ∧ (serve d).1 = Ok tt ∧ rtc round (serve d).2 d').
Proof.
  intros [d0|d0 d1 d2 [Hr Hs] Hd]; [by left|right]. rewrite Hs. by split.
Qed.

(** A request to register process 7, one of unknown type, and a shutdown. *)
Definition demo_requests : daemon :=
  new_daemon (map Byte (w_enc long_wire (req_value RegisterApp) ++ w_enc int_wire 7 ++
    w_enc long_wire 99 ++ w_enc long_wire (req_value Shutdown))) ∅.

Lemma rounds_demo (d' : daemon) (why : string) :
  rtc round demo_requests d' → d_running d' = true → (serve d').1 = Undef why → False.
Proof.
  intros Hr Hrun Hu.
  do 3 (apply round_inv in Hr as [->|(_ & _ & Hr)]; [vm_compute in Hu; discriminate Hu|]).
  apply round_inv in Hr as [->|(Hd & _)]; [vm_compute in Hrun; discriminate Hrun|].
  vm_compute in Hd. discriminate Hd.
Qed.


(** The process 100 of the application ends: the signal leaves a thread that ends
    utility 200. *)
Definition demo_exited : daemon := (cti_fe_daemon_handler (SigChld true 100) demo_util_daemon).2.
Definition demo_thread_ran : daemon := (run_thread 0 demo_exited).2.

Lemma registry_invariant_witness :
  d_threads demo_exited = [1] ∧ d_utilMap demo_thread_ran = ∅ ∧ registry_ok demo_thread_ran.
Proof.
  split; [vm_compute; reflexivity|]. split; [vm_compute; reflexivity|].
  apply (registry_invariant [] ∅).
  eapply rtc_l; [apply (dstep_request (map Byte (w_enc long_wire (req_value RegisterApp) ++
    w_enc int_wire 100)))|].
  eapply rtc_l; [apply dstep_serve; vm_compute; reflexivity|].
  eapply rtc_l; [apply (dstep_response [])|].
  eapply rtc_l; [apply (dstep_request (map Byte (w_enc long_wire (req_value RegisterUtil) ++
    w_enc int_wire 1 ++ w_enc int_wire 200)))|].
  eapply rtc_l; [apply dstep_serve; vm_compute; reflexivity|].
  eapply rtc_l; [apply (dstep_response [])|].
  eapply rtc_l; [apply (dstep_signal (SigChld true 100))|].
  eapply rtc_l; [apply (dstep_thread 0)|].
  match goal with |- rtc _ ?d _ => assert (d = demo_thread_ran) as -> by (vm_compute; reflexivity) end.
  constructor.
Defined.

Lemma register_app_fresh_witness :
  ∃ d', request_RegisterApp 101 demo_app_daemon = (Ok 2, d') ∧
    d_idPidMap d' !! 2 = Some 101.
Proof.
  destruct (register_app_fresh demo_app_daemon 101 demo_app_ok demo_app_idle eq_refl)
    as (d' & H1 & _ & _ & H2 & _); [vm_compute; reflexivity|right; vm_compute; reflexivity|].
  exists d'. split; [exact H1|exact H2].
Defined.

Lemma register_app_duplicate_witness :
  request_RegisterApp 100 demo_app_daemon = (Ok 0, demo_app_daemon).
Proof.
  exact (proj1 (register_app_duplicate demo_app_daemon 100 1 demo_app_ok demo_app_idle eq_refl
    ltac:(discriminate) ltac:(vm_compute; reflexivity))).
Defined.

Lemma deregister_ends_app_witness :
  ∃ d', request_DeregisterApp 1 demo_util_daemon = (Ok tt, d') ∧
    EvKill 200 SIGTERM ∈ d_events d' ∧
    request_DeregisterApp 1 d' = (Throw "daemon response indicated failure", d').
Proof.
  destruct (deregister_ends_app demo_util_daemon 1 100 demo_kills demo_util_idle eq_refl)
    as (d' & H1 & _ & _ & _ & _ & H2 & _ & H3); [vm_compute; reflexivity|].
  exists d'. split; [exact H1|]. split; [|exact H3].
  apply (H2 200 SIGTERM). vm_compute. reflexivity.
Defined.


Lemma wait_mpir_undefined_witness :
  ∃ d', request_WaitMPIR 1 demo_mpir_daemon
        = (Undef "iterator used after its element was erased", d').
Proof.
  destruct (wait_mpir_undefined demo_mpir_daemon 1 77 demo_mpir_idle eq_refl)
    as (d' & H1 & _); [vm_compute; reflexivity|].
  exists d'. exact H1.
Defined.

Definition demo_launch : LaunchData :=
  MkLaunchData (MkFd 5 (FdNum 0)) (MkFd 6 (FdNum 1)) (MkFd 7 (FdNum 2)) "/usr/bin/tool"
    ["tool"] ["A=1"] ["HOME"].

Definition demo_home : gmap string string := <["HOME" := "/root"]> ∅.

Lemma launch_restores_env_witness :
  (∃ why, (launchMPIR demo_launch (new_daemon [] demo_home)).1 = Undef why) ∨
  d_env (launchMPIR demo_launch (new_daemon [] demo_home)).2 = demo_home.
Proof.
  apply (launch_restores_env demo_launch (new_daemon [] demo_home)).
  - intros k v Hk. change (<["HOME" := "/root"]> (∅ : gmap string string) !! k = Some v) in Hk.
    apply lookup_insert_Some in Hk as [[_ <-]|[_ Hk]]; [reflexivity|].
    discriminate Hk.
  - apply (bool_decide_unpack _). vm_compute. exact I.
  - intros n Hn. change (launch_names demo_launch) with ["A"; "HOME"] in Hn.
    apply elem_of_cons in Hn as [->|Hn]; [split; reflexivity|].
    apply elem_of_cons in Hn as [->|Hn]; [split; reflexivity|]. by apply elem_of_nil in Hn.
Defined.

Definition demo_result : MPIRResult := MkMPIRResult 1 77 42 0 [MkElem 1000 "node1" "/bin/a.out"].

Lemma mpir_response_roundtrip_witness :
  ∃ sent, tryWriteMPIRResp (mret demo_result) demo_empty = (Ok tt, set_out ([] ++ sent) demo_empty) ∧
    ∀ rest, readMPIRResp (sent ++ rest)
      = (Ok (MkFEMPIRResult demo_result (generateBinaryRankMap (res_proctable demo_result))), rest).
Proof.
  refine (proj1 (mpir_response_roundtrip (mret demo_result) demo_empty demo_empty eq_refl)
            demo_result eq_refl eq_refl _).
  discriminate.
Defined.
