(* ===== verification/RemoteDaemon.v ===== *)
(** * The daemon on another host (src/src/SSHSession/SSHSession.cpp)

    The frontend daemon is started over SSH with the channel as its standard input and output,
    and is sent the same requests as the local one.  The code is not that of the daemon's
    library: launches are written without descriptors, and of the responses that only say
    whether something worked, only the kind is looked at.  The state is the daemon at the other
    end; reads and writes of a channel are as partial as those of a socket, calls that would
    block are repeated and leave no trace. *)

From S2P Require Import Prelude Split Argv Host Wire Launch Daemon Handlers FEIface.
From S2P Require Import DaemonProofs AppRegistry Client LaunchProofs DaemonExamples.

Section Remote.
Context `{Kernel} `{ReqSocket} `{Procs} `{MPIR} `{Host}.

(** ** Responses *)

(** Whether a response is of the kind OK. *)
Definition readOKType : M (list item) bool :=
  okResp ← fdReadLoop okresp_wire; mret (bool_decide (ok_type okResp = RESP_OK)).

Definition readStringRespRemote : M (list item) string :=
  stringResp ← fdReadLoop stringresp_wire;
  if bool_decide (str_type stringResp ≠ RESP_String)
  then throw "daemon did not send expected String response type"
  else if negb (str_success stringResp) then throw "daemon failed to read string from memory"
  else read_nul_string.

(** ** Requests *)

(** The process number that a daemon sends when it starts. *)
Definition startRemoteDaemon : M daemon Z := zoom d_out set_out (fdReadLoop int_wire).

Definition writeLaunchRemote (launcher_argv : list string) (env : option (list string)) : M (list item) () :=
  match launcher_argv with
  | [] => undef "strlen of a null pointer"
  | path :: _ =>
      let vars := default [] env in
      fdWriteString path;;
      fdWriteString (to_string (Z.of_nat (length launcher_argv)));;
      write_strings launcher_argv;;
      fdWriteString (to_string (Z.of_nat (length vars)));;
      write_strings vars
  end.

Definition launchMPIR (launcher_argv : list string) (env : option (list string)) : M daemon FEMPIRResult :=
  exchange (send_type LaunchMPIR;; writeLaunchRemote launcher_argv env) readMPIRResp.

Definition readStringMPIR (mpir_id : Z) (var : string) : M daemon string :=
  exchange (send_type ReadStringMPIR;; send_int mpir_id;; fdWriteString var) readStringRespRemote.

Definition releaseMPIR (mpir_id : Z) : M daemon () :=
  ok ← exchange (send_type ReleaseMPIR;; send_int mpir_id) readOKType;
  if (ok : bool) then mret tt else throw "warning: remote daemon failed to release from barrier".

Definition waitMPIR (mpir_id : Z) : M daemon bool :=
  exchange (send_type WaitMPIR;; send_int mpir_id) readOKType.

Definition checkApp (mpir_id : Z) : M daemon bool :=
  exchange (send_type CheckApp;; send_int mpir_id) readOKType.

Definition deregisterApp (mpir_id : Z) : M daemon () :=
  ok ← exchange (send_type DeregisterApp;; send_int mpir_id) readOKType;
  if (ok : bool) then mret tt else throw "warning: remote daemon failed to deregister application".

Definition stopRemoteDaemon (daemon_pid : Z) : M daemon () :=
  ok ← exchange (send_type Shutdown) readOKType;
  if (ok : bool) then mret tt
  else throw ("remote daemon shutdown failed (has PID " +:+ to_string daemon_pid +:+ ")").

(** A daemon for one attach: started, asked and shut down.  A response to the shutdown that is
    of another kind is only warned of. *)
Definition attachMPIR (launcherName : string) (launcher_pid : Z) : M daemon FEMPIRResult :=
  startRemoteDaemon;;
  mpirResult ← exchange (send_type AttachMPIR;; fdWriteString launcherName;; send_int launcher_pid) readMPIRResp;
  exchange (send_type Shutdown) readOKType;;
  mret mpirResult.

(** ~RemoteDaemon: a daemon that was started is stopped, with a warning when that fails. *)
Definition RemoteDaemon_delete (m_daemonPid : Z) : M daemon () :=
  if 0 <? m_daemonPid then try_catch (stopRemoteDaemon m_daemonPid) (λ _, mret tt) else mret tt.

(** ** Lemmas *)

Lemma readOKType_run (l l' : list item) (b : bool) :
  readOKResp l = (Ok b, l') → readOKType l = (Ok true, l').
Proof.
  unfold readOKResp, readOKType, mbind, M_bind. destruct (fdReadLoop okresp_wire l) as [[r|e|e] l1]; [|done..].
  case_decide; [|done]. intros [= <- <-]. cbn. by rewrite bool_decide_true.
Qed.

(** What the local library is told with success, the remote one takes for success in any case. *)
Lemma exchange_OKType (req : M (list item) ()) (d d' : daemon) (b : bool) :
  exchange req readOKResp d = (Ok b, d') → exchange req readOKType d = (Ok true, d').
Proof.
  unfold exchange, zoom, mbind, M_bind. destruct (req (d_in d)) as [[u|e|e] l]; [|done..].
  destruct (serve (set_in l d)) as [[[]|e|e] d1]; [|done..].
  destruct (readOKResp (d_out d1)) as [[x|e|e] l'] eqn:E; [|done..]. intros [= -> <-].
  by rewrite (readOKType_run _ _ _ E).
Qed.

(** A request whose handler may only fail with an exception. *)
Lemma ok_type_exchange (r : ReqType) (f : Z → M daemon bool) (n : Z) (d d1 : daemon) (res : Prelude.res bool) :
  dispatch r = tryWriteOKResp (x ← read_int; f x) → idle d → in_signed 4 n = true →
  f n d = (res, d1) → d_out d1 = [] → d_out_open d1 = true → (∀ why, res ≠ Undef why) →
  exchange (send_type r;; send_int n) readOKType d = (Ok true, d1) ∧
  ∃ b, exchange (send_type r;; send_int n) readOKResp d = (Ok b, d1) ∧ ok_outcome res = Ok b.
Proof.
  intros Hr Hd Hn Hf Ho Hop Hdef. pose proof (ok_exchange r f n d d1 res Hr Hd Hn Hf Ho Hop) as E.
  destruct res as [b|what|why]; [..|by destruct (Hdef why)]; cbn [ok_outcome] in E |- *;
    (split; [by eapply exchange_OKType|by eexists]).
Qed.

Lemma idle_out_nil (d : daemon) : idle d → set_out [] d = d.
Proof. intros Hd. apply set_out_id, Hd. Qed.

(** A response that was written is read. *)
Lemma received {A : Type} (resp : M (list item) A) (r : Prelude.res A) (m : M daemon ()) (sent : list item)
    (d d1 : daemon) :
  m d = (Ok tt, set_out (d_out d1 ++ sent) d1) → (∀ rest, resp (sent ++ rest) = (r, rest)) → d_out d1 = [] →
  (m;; zoom d_out set_out resp) d = (r, d1).
Proof.
  intros E Hread Hout. rewrite (bind_run_Ok _ _ _ _ _ E). unfold zoom. rewrite Hout. cbn [app set_out d_out].
  specialize (Hread []). rewrite app_nil_r in Hread. rewrite Hread. f_equal. by rewrite <-(set_out_id d1) at 2.
Qed.

(** What the library makes of the outcome of a launch or an attach. *)
Definition mpir_outcome (r : Prelude.res MPIRResult) : Prelude.res FEMPIRResult :=
  match r with
  | Ok x => Ok (MkFEMPIRResult x (generateBinaryRankMap (res_proctable x)))
  | Throw what => Throw (c_str what)
  | Undef why => Undef why
  end.

(** Outcomes that fit into a response. *)
Definition outcome_fits (r : Prelude.res MPIRResult) : Prop :=
  match r with
  | Ok x => result_ok x = true ∧ res_mpir_id x ≠ 0
  | Throw what => Z.of_nat (String.length (c_str what)) + 1 < 2 ^ 64
  | Undef _ => True
  end.

(** A request with an MPIR response: what its handler computes is what the library gets. *)
Lemma mpir_exchange (r : ReqType) (func : M daemon MPIRResult) (write : M (list item) ()) (args : list item)
    (d d1 : daemon) (result : Prelude.res MPIRResult) :
  dispatch r = tryWriteMPIRResp func → idle d →
  (∀ out, write out = (Ok tt, out ++ args)) →
  func (set_in args d) = (result, d1) → d_out d1 = [] → d_out_open d1 = true →
  outcome_fits result → exchange (send_type r;; write) readMPIRResp d = (mpir_outcome result, d1).
Proof.
  intros Hr [Hi Hio Ho Hoo] Hw Hf Hout Hop Hfits. unfold exchange.
  rewrite (bind_run_Ok _ _ _ tt (set_in (map Byte (w_enc long_wire (req_value r)) ++ args) d)).
  2: { unfold zoom, send_type, mbind, M_bind. by rewrite fdWriteLoop_run, Hi, Hw. }
  enough ((tryWriteMPIRResp func;; zoom d_out set_out readMPIRResp) (set_in args d) = (mpir_outcome result, d1)) as E.
  { rewrite <-E. unfold mbind, M_bind. rewrite (serve_request r args) by done. by rewrite Hr. }
  destruct result as [x|what|why]; cbn [outcome_fits mpir_outcome] in Hfits |- *.
  - destruct Hfits as [Hr1 Hr2].
    destruct (mpir_response_ok func _ _ _ Hop Hf Hr1 Hr2) as (sent & E & Hread). by apply (received _ _ _ sent).
  - destruct (mpir_response_failed func _ _ _ Hop Hf Hfits) as (sent & E & Hread). by apply (received _ _ _ sent).
  - unfold tryWriteMPIRResp, mbind, M_bind, try_catch. by rewrite Hf.
Qed.

(** A handler that throws: the remote caller goes on, the local one throws. *)
Lemma unknown_unnoticed (r : ReqType) (f : Z → M daemon ()) (n : Z) (d : daemon) (what warning : string) :
  dispatch r = tryWriteOKResp (x ← read_int; f x;; mret true) → idle d → in_signed 4 n = true →
  f n d = (Throw what, d) →
  (ok ← exchange (send_type r;; send_int n) readOKType;
   if ok : bool then mret tt else throw warning) d = (Ok tt, d) ∧
  exchange (send_type r;; send_int n) verifyOKResp d = (Throw "daemon response indicated failure", d).
Proof.
  intros Hr Hd Hn Hf. pose proof Hd as [_ _ Ho Hoo].
  assert ((f n;; mret true) d = (Throw what, d)) as Hf' by by apply bind_run_Throw.
  destruct (ok_type_exchange r (λ x, f x;; mret true) n d d (Throw what) Hr Hd Hn Hf' Ho Hoo)
    as [E (b & E' & [= <-])]; [done|].
  split; [by rewrite (bind_run_Ok _ _ _ _ _ E)|]. by rewrite verify_exchange, E'.
Qed.

(** Handlers leave idle sockets idle. *)
Lemma idle_admissible : admissible idle.
Proof.
  apply frame_admissible. split.
  2-8: intros; match goal with Hd : idle _ |- _ => by destruct Hd; split end.
  intros d l [Hi Hio Ho Hoo] Hl. rewrite Hi in Hl. destruct l; [by split|cbn in Hl; lia].
Qed.

Lemma idle_set_in (d : daemon) : idle d → set_in [] d = d.
Proof. intros Hd. apply set_in_id, Hd. Qed.

Lemma preserved_state {A : Type} (m : M daemon A) (d d1 : daemon) (r : Prelude.res A) :
  preserves idle m → idle d → m d = (r, d1) → idle d1.
Proof. intros Hm Hd E. specialize (Hm d Hd). by rewrite E in Hm. Qed.

Lemma preserves_launch (ld : LaunchData) : preserves idle (Handlers.launchMPIR ld).
Proof. apply (keep_launchMPIR _ idle_admissible). Qed.

Lemma preserves_attach (path : string) (pid : Z) : preserves idle (Handlers.attachMPIR path pid).
Proof. apply (keep_attachMPIR _ idle_admissible). Qed.

(** ** Properties *)

(** Failures of a remote daemon are not noticed.  Asked for an application, it is said to be
    running whether or not the daemon knows it or its process exists; releasing and forgetting
    something the daemon does not know succeeds.  The local library reports each of these as
    failed. *)
Theorem remote_failures_unnoticed (d : daemon) (id : Z) :
  idle d → in_signed 4 id = true →
  checkApp id d = (Ok true, d) ∧
  (d_idPidMap d !! id = None →
     request_CheckApp id d = (Ok false, d) ∧
     deregisterApp id d = (Ok tt, d) ∧
     request_DeregisterApp id d = (Throw "daemon response indicated failure", d)) ∧
  (d_mpirMap d !! id = None →
     releaseMPIR id d = (Ok tt, d) ∧
     request_ReleaseMPIR id d = (Throw "daemon response indicated failure", d)).
Proof.
  intros Hd Hid. pose proof Hd as [_ _ Ho Hoo]. split; [|split].
  - assert (∃ res, checkAppID id d = (res, d) ∧ ∀ why, res ≠ Undef why) as (res & E & Hres).
    { unfold checkAppID, mbind, M_bind, get. destruct (d_idPidMap d !! id); [|by eexists].
      case_decide; [by eexists|]. destruct (p_kill _ _ _); by eexists. }
    by destruct (ok_type_exchange CheckApp checkAppID id d d res eq_refl Hd Hid E Ho Hoo Hres).
  - intros Hnone. split.
    + unfold request_CheckApp.
      rewrite (ok_exchange CheckApp checkAppID id d d (Throw ("invalid app id: " +:+ to_string id))); [done..| |done|done].
      unfold checkAppID, mbind, M_bind, get. by rewrite Hnone.
    + apply (unknown_unnoticed DeregisterApp deregisterAppID id d ("invalid app id: " +:+ to_string id)); [done..|].
      unfold deregisterAppID, mbind, M_bind, get. by rewrite Hnone.
  - intros Hnone. apply (unknown_unnoticed ReleaseMPIR Handlers.releaseMPIR id d ("release mpir id not found: " +:+ to_string id));
      [done..|].
    unfold Handlers.releaseMPIR, mbind, M_bind, get. by rewrite Hnone.
Qed.

(** The parameters a remote daemon makes of a launch: its standard streams lead to /dev/null. *)
Definition remote_launch_data (launcher_argv vars : list string) : LaunchData :=
  let path := default "" (head launcher_argv) in
  let '(ni, no, ne) := rs_numbers (launch_text path launcher_argv vars) in
  MkLaunchData (MkFd ni DevNullR) (MkFd no DevNullW) (MkFd ne DevNullW) path launcher_argv
    (sort_env vars).1 (sort_env vars).2.

(** C24 A launch over SSH is a launch.  For an idle daemon whose requests come from a pipe, and
    strings without the bytes 0 and 255, launchMPIR gives what the daemon's own launch gives for
    the program named first with all arguments and variables: its result with the rank map, or
    its message as an exception; the streams of the program lead to /dev/null. *)
Theorem remote_launch_is_launch (d d1 : daemon) (launcher_argv : list string) (env : option (list string))
    (result : Prelude.res MPIRResult) :
  idle d → rs_is_socket = false → launcher_argv ≠ [] →
  launch_strings_ok (default "" (head launcher_argv)) launcher_argv (default [] env) →
  Handlers.launchMPIR (remote_launch_data launcher_argv (default [] env)) d = (result, d1) →
  outcome_fits result →
  launchMPIR launcher_argv env d = (mpir_outcome result, d1) ∧ idle d1.
Proof.
  intros Hd Hpipe Hne Hok Hrun Hfits.
  pose proof (preserved_state _ _ _ _ (preserves_launch _) Hd Hrun) as Hd1. split; [|done].
  destruct launcher_argv as [|path args]; [done|]. cbn [head default from_option id] in Hok.
  set (vars := default [] env) in *. unfold launchMPIR.
  apply (mpir_exchange LaunchMPIR (launchData ← read_req readLaunchData; Handlers.launchMPIR launchData)
    _ (launch_text path (path :: args) vars)); [done|done| | |apply Hd1|apply Hd1|done].
  { intros out. apply write_launch_text. }
  rewrite <-Hrun. unfold mbind at 1, M_bind. unfold read_req. rewrite (idle_in_open d Hd : d_in_open (set_in _ d) = true).
  unfold zoom. cbn [set_in d_in]. unfold remote_launch_data. cbn [head default from_option id].
  destruct (rs_numbers (launch_text path (path :: args) vars)) as [[ni no] ne] eqn:En.
  rewrite (readLaunchData_text _ [] (MkFd ni DevNullR) (MkFd no DevNullW) (MkFd ne DevNullW) path (path :: args) vars);
    [|by unfold receive_fds; rewrite En, Hpipe, app_nil_r|done].
  by rewrite <-(idle_set_in d Hd) at 2.
Qed.

(** A daemon that has sent its process number and waits for requests. *)
Definition started (pid : Z) (d : daemon) : Prop :=
  in_signed 4 pid = true ∧ d_out d = map Byte (w_enc int_wire pid) ∧ idle (set_out [] d).

Lemma startRemoteDaemon_run (pid : Z) (d : daemon) :
  started pid d → startRemoteDaemon d = (Ok pid, set_out [] d).
Proof.
  intros (Hp & Ho & _). unfold startRemoteDaemon, zoom. rewrite Ho.
  rewrite <-(app_nil_r (map Byte _)). by rewrite (fdReadLoop_enc int_wire pid [] Hp).
Qed.

Lemma shutdown_run (d : daemon) :
  idle d → exchange (send_type Shutdown) readOKType d = (Ok true, set_running false d).
Proof.
  intros [Hi Hio Ho Hoo]. unfold exchange.
  rewrite (bind_run_Ok _ _ _ tt (set_in (map Byte (w_enc long_wire (req_value Shutdown)) ++ []) d)).
  2: { unfold zoom, send_type. by rewrite fdWriteLoop_run, Hi, app_nil_r. }
  unfold mbind at 1, M_bind. rewrite (serve_request Shutdown []) by done. cbn [dispatch].
  assert (set_in [] d = d) as E by by apply set_in_id.
  change (set_in [] (set_in _ d)) with (set_in [] d). rewrite E.
  rewrite (bind_run_Ok handle_Shutdown _ _ tt (set_out (map Byte (w_enc okresp_wire (MkOKResp RESP_OK true))) d)).
  2: { unfold handle_Shutdown. by rewrite write_obj_run, Ho. }
  unfold modify, zoom. cbn [set_running set_out d_out].
  rewrite <-(app_nil_r (map Byte _)), (readOKType_run _ [] true) by apply read_ok.
  f_equal. by destruct d; cbn in *; subst.
Qed.

(** Attaching over SSH is attaching.  A daemon that has started on the other host, asked to
    attach to a launcher it finds, gives what attaching there gives, and is shut down; when
    attaching throws, so does the library, with the daemon's message, and the daemon is left
    running on an open channel. *)
Theorem remote_attach_is_attach (d d1 : daemon) (pid launcher_pid : Z) (launcherName launcherPath : string)
    (result : Prelude.res MPIRResult) :
  started pid d → line_safe launcherName = true → in_signed 4 launcher_pid = true →
  os_pathFind launcherName = Some launcherPath →
  Handlers.attachMPIR launcherPath launcher_pid (set_out [] d) = (result, d1) → outcome_fits result →
  attachMPIR launcherName launcher_pid d =
  (mpir_outcome result, match result with Ok _ => set_running false d1 | _ => d1 end).
Proof.
  intros Hstart Hname Hpid Hfind Hrun Hfits. pose proof Hstart as (_ & _ & Hd). set (d0 := set_out [] d) in *.
  pose proof (preserved_state _ _ _ _ (preserves_attach _ _) Hd Hrun) as Hd1.
  unfold attachMPIR. rewrite (bind_run_Ok _ _ _ _ _ (startRemoteDaemon_run pid d Hstart)). fold d0.
  set (args := map Byte (cstr_bytes launcherName) ++ map Byte (w_enc int_wire launcher_pid)).
  assert (exchange (send_type AttachMPIR;; fdWriteString launcherName;; send_int launcher_pid) readMPIRResp d0
    = (mpir_outcome result, d1)) as E.
  { apply (mpir_exchange AttachMPIR _ _ args _ _ _ eq_refl); [done| | |apply Hd1|apply Hd1|done].
    - intros out. rewrite (bind_run_Ok _ _ _ _ _ (fdWriteString_run _ _)). unfold send_int.
      rewrite fdWriteLoop_run. unfold args. by rewrite app_assoc.
    - rewrite (bind_run_Ok _ _ _ launcherName (set_in (map Byte (w_enc int_wire launcher_pid)) d0)).
      2: { unfold read_req, zoom. cbn [set_in d_in d_in_open]. rewrite (idle_in_open d0 Hd).
           unfold with_istream, args. by rewrite (receive_cstr _ launcherName _ Hname). }
      rewrite (bind_run_Ok read_int _ _ launcher_pid d0).
      2: { rewrite (read_int_run launcher_pid []); [|apply Hd|done|by rewrite app_nil_r].
           by rewrite <-(idle_set_in d0 Hd) at 2. }
      unfold findPath. by rewrite Hfind. }
  destruct result as [x|what|why]; cbn [mpir_outcome] in *.
  - rewrite (bind_run_Ok _ _ _ _ _ E), (bind_run_Ok _ _ _ _ _ (shutdown_run d1 Hd1)). done.
  - by apply bind_run_Throw.
  - by apply bind_run_Undef.
Qed.
End Remote.

(** ** Examples *)

(** A daemon whose requests come from a pipe. *)
#[local] Instance pipe_socket : ReqSocket := {|
  rs_is_socket := false; rs_numbers _ := (5, 6, 7); rs_domain := Some false |}.

Definition demo_started : daemon := set_out (map Byte (w_enc int_wire 900)) demo_empty.

Lemma remote_failures_unnoticed_witness :
  checkApp 5 demo_empty = (Ok true, demo_empty) ∧ request_CheckApp 5 demo_empty = (Ok false, demo_empty) ∧
  releaseMPIR 5 demo_empty = (Ok tt, demo_empty).
Proof.
  destruct (remote_failures_unnoticed demo_empty 5 demo_empty_idle eq_refl) as (H1 & H2 & H3).
  split; [exact H1|]. split; [exact (proj1 (H2 eq_refl))|exact (proj1 (H3 eq_refl))].
Defined.

Definition demo_remote_launch : Prelude.res MPIRResult * daemon :=
  Handlers.launchMPIR (remote_launch_data ["tool"; "-n"] ["A=b"]) demo_empty.

Lemma remote_launch_is_launch_witness :
  launchMPIR ["tool"; "-n"] (Some ["A=b"]) demo_empty = (mpir_outcome demo_remote_launch.1, demo_remote_launch.2) ∧
  demo_remote_launch.1 = Ok (MkMPIRResult 1 500 42 0 [MkElem 1000 "node1" "/bin/a.out"]).
Proof.
  split; [|vm_compute; reflexivity].
  refine (proj1 (remote_launch_is_launch demo_empty demo_remote_launch.2 ["tool"; "-n"] (Some ["A=b"])
    demo_remote_launch.1 demo_empty_idle eq_refl _ _ _ _)).
  - discriminate.
  - split_and!; vm_compute; first [reflexivity|discriminate].
  - vm_compute. reflexivity.
  - vm_compute. split; [reflexivity|discriminate].
Defined.

Definition demo_remote_attach : Prelude.res MPIRResult * daemon :=
  Handlers.attachMPIR "/usr/bin/tool" 77 (set_out [] demo_started).

Lemma remote_attach_is_attach_witness :
  attachMPIR "tool" 77 demo_started = (mpir_outcome demo_remote_attach.1, set_running false demo_remote_attach.2) ∧
  demo_remote_attach.1 = Ok (MkMPIRResult 1 77 42 0 [MkElem 1000 "node1" "/bin/a.out"]).
Proof.
  split; [|vm_compute; reflexivity].
  refine (remote_attach_is_attach demo_started demo_remote_attach.2 900 77 "tool" "/usr/bin/tool"
    demo_remote_attach.1 _ eq_refl eq_refl eq_refl _ _).
  - split; [reflexivity|]. split; [reflexivity|exact demo_empty_idle].
  - vm_compute. reflexivity.
  - vm_compute. split; [reflexivity|discriminate].
Defined.
