(* ===== verification/Registry.v ===== *)
(** * Handle registries of the C interface (Registry of src/src/frontend/cti_fe_iface.hpp)

    C clients name C++ objects by integers.  A registry maps the identifiers it has
    given out to weak pointers; whether a pointer has expired depends on the owners
    of the objects, and is an argument of the operations that look at it. *)

From S2P Require Import Prelude.

(** ** State and operations *)

Section Registry.
Context {T : Type}.

Record registry : Type := MkRegistry { r_list : gmap Z T; r_id : Z }.

Definition new_registry : registry := MkRegistry ∅ 0.

(** The largest identifier, an [int64_t] *)
Definition id_max : Z := 2 ^ 63 - 1.

Definition reg_erase (id : Z) : M registry () :=
  modify (λ r, MkRegistry (delete id (r_list r)) (r_id r)).

Definition reg_isValid (expired : T → bool) (id : Z) : M registry bool :=
  r ← get;
  match r_list r !! id with
  | Some wp => if expired wp then reg_erase id;; mret false else mret true
  | None => mret false
  end.

Definition reg_get_handle (expired : T → bool) (id : Z) : M registry T :=
  r ← get;
  match r_list r !! id with
  | Some wp =>
      if expired wp
      then reg_erase id;; throw ("ID " +:+ to_string id +:+ " is no longer valid")
      else mret wp
  | None => throw ("ID " +:+ to_string id +:+ " invalid")
  end.

(** [++m_id], then [emplace], which keeps an element that is there. *)
Definition reg_add (wp : T) : M registry Z :=
  r ← get;
  if r_id r <? id_max
  then
    let newId := r_id r + 1 in
    modify (λ r, MkRegistry
      (match r_list r !! newId with Some _ => r_list r | None => <[newId := wp]> (r_list r) end)
      newId);;
    mret newId
  else undef "signed overflow".

(** ** Specification *)

(** Every identifier in the list has been given out. *)
Definition reg_ok (r : registry) : Prop :=
  0 ≤ r_id r ∧ ∀ id, is_Some (r_list r !! id) → 1 ≤ id ≤ r_id r.

(** The identifier stands for a live object. *)
Definition reg_live (expired : T → bool) (id : Z) (r : registry) : Prop :=
  ∃ wp, r_list r !! id = Some wp ∧ expired wp = false.

(** What may happen to a registry between two calls: identifiers are forgotten or
    given out anew, but never given another object. *)
Record reg_le (r r' : registry) : Prop := RegLe {
  le_id : r_id r ≤ r_id r';
  le_list : ∀ id wp, r_list r' !! id = Some wp →
    r_list r !! id = Some wp ∨ r_id r < id
}.

#[export] Instance reg_le_preorder : PreOrder reg_le.
Proof.
  split.
  - intros r. split; [lia|by left].
  - intros r1 r2 r3 [Hi Hl] [Hi' Hl']. split; [lia|].
    intros id wp [H|H]%Hl'; [by apply Hl|right; lia].
Qed.

Lemma reg_ok_new : reg_ok new_registry.
Proof. split; [done|]. intros id [wp H]. cbn in H. by rewrite lookup_empty in H. Qed.

Lemma reg_erase_lookup (id id' : Z) (wp : T) (r : registry) :
  r_list (reg_erase id r).2 !! id' = Some wp → r_list r !! id' = Some wp.
Proof. cbn. by intros [_ H]%lookup_delete_Some. Qed.

Lemma reg_erase_le (id : Z) (r : registry) : reg_le r (reg_erase id r).2.
Proof.
  split; cbn; [lia|]. intros id' wp [_ H]%lookup_delete_Some. by left.
Qed.

Lemma reg_erase_ok (id : Z) (r : registry) : reg_ok r → reg_ok (reg_erase id r).2.
Proof.
  intros [H0 H]. split; cbn; [done|]. intros id' [wp [_ Hl]%lookup_delete_Some]. eauto.
Qed.

Lemma reg_isValid_run (expired : T → bool) (id : Z) (r : registry) :
  ∃ b r', reg_isValid expired id r = (Ok b, r') ∧ (b = true ↔ reg_live expired id r) ∧
    (r' = r ∨ r' = (reg_erase id r).2).
Proof.
  unfold reg_isValid, reg_live, mbind, M_bind, get. destruct (r_list r !! id) as [wp|] eqn:E.
  - destruct (expired wp) eqn:Ex; do 2 eexists; (split; [reflexivity|]); split; try tauto.
    + split; [done|]. intros (wp' & [= <-] & ?). congruence.
    + split; [|done]. intros _. by exists wp.
  - do 2 eexists; split; [reflexivity|]. split; [|by left].
    split; [done|]. by intros (? & ? & _).
Qed.

Lemma reg_get_handle_run (expired : T → bool) (id : Z) (r : registry) :
  (∃ wp, r_list r !! id = Some wp ∧ expired wp = false ∧
     reg_get_handle expired id r = (Ok wp, r)) ∨
  (¬ reg_live expired id r ∧ ∃ what r', reg_get_handle expired id r = (Throw what, r') ∧
     (r' = r ∨ r' = (reg_erase id r).2)).
Proof.
  unfold reg_get_handle, reg_live, mbind, M_bind, get. destruct (r_list r !! id) as [wp|] eqn:E.
  - destruct (expired wp) eqn:Ex.
    + right. split; [intros (wp' & [= <-] & ?); congruence|]. do 2 eexists. by split; [|right].
    + left. by exists wp.
  - right. split; [by intros (? & ? & _)|]. do 2 eexists. by split; [|left].
Qed.

Lemma reg_add_run (wp : T) (r : registry) :
  reg_ok r →
  reg_add wp r = (Undef "signed overflow", r) ∨
  reg_add wp r = (Ok (r_id r + 1), MkRegistry (<[r_id r + 1 := wp]> (r_list r)) (r_id r + 1)).
Proof.
  intros [_ Hok]. unfold reg_add, mbind, M_bind, get. destruct (r_id r <? id_max); [right|by left].
  cbn. destruct (r_list r !! (r_id r + 1)) eqn:E; [|done].
  specialize (Hok (r_id r + 1) (mk_is_Some _ _ E)). lia.
Qed.

Lemma reg_add_le (wp : T) (r : registry) : reg_ok r → reg_le r (reg_add wp r).2.
Proof.
  intros Hok. destruct (reg_add_run wp r Hok) as [-> | ->]; [done|]. split; cbn; [lia|].
  intros id wp' [[<- _]|[_ ?]]%lookup_insert_Some; [right; lia|by left].
Qed.

Lemma reg_add_ok (wp : T) (r : registry) : reg_ok r → reg_ok (reg_add wp r).2.
Proof.
  intros Hok. destruct (reg_add_run wp r Hok) as [-> | ->]; [done|].
  destruct Hok as [H0 H]. split; cbn; [lia|].
  intros id [wp' [[<- _]|[_ Hl]]%lookup_insert_Some]; [lia|].
  specialize (H id (mk_is_Some _ _ Hl)). lia.
Qed.

Lemma reg_add_lookup (wp wp' : T) (id : Z) (r : registry) :
  reg_ok r → r_list (reg_add wp r).2 !! id = Some wp' → wp' = wp ∨ r_list r !! id = Some wp'.
Proof.
  intros Hok. destruct (reg_add_run wp r Hok) as [-> | ->]; cbn; [by right|].
  intros [[_ <-]|[_ Hl]]%lookup_insert_Some; [by left|by right].
Qed.

(** An identifier that was given out and is not live stays so. *)
Lemma reg_dead_stays (expired expired' : T → bool) (id : Z) (r r' : registry) :
  reg_le r r' → (∀ wp, r_list r !! id = Some wp → expired wp = true → expired' wp = true) →
  id ≤ r_id r → ¬ reg_live expired id r → ¬ reg_live expired' id r'.
Proof.
  intros [_ Hl] Hmono Hid Hdead (wp & [H|H]%Hl & Ex); [|lia].
  destruct (expired wp) eqn:E; [|apply Hdead; by exists wp].
  rewrite (Hmono wp H E) in Ex. discriminate.
Qed.
End Registry.

Arguments registry T : clear implicits.
