(* ===== verification/Iface.v ===== *)
(** * The C interface (src/src/frontend/cti_fe_iface.cpp, cti_fe_iface.hpp, and the
    owners of applications and sessions in src/src/frontend/Frontend.cpp)

    Every entry point runs a piece of C++ that may throw; an exception becomes an
    error value and a message.  Objects are owned in a tree, the frontend owning the
    applications, an application its sessions and a session its manifests, while
    clients hold identifiers of the registries.  What the workload managers do is
    the class [Wlm]. *)

From S2P Require Import Prelude Split Argv Host Archive Manifest Session Wire Launch Daemon Handlers FEIface Registry.

(** ** State *)

(** Addresses of applications and sessions. *)
Abbreviation aptr := nat.
Abbreviation sptr := nat.

(** What the C interface asked of applications and of the system, in order. *)
Inductive api_event : Type :=
| EvReleaseBarrier (a : aptr)
| EvKillApp (a : aptr) (signum : Z)
| EvSleep (seconds : Z).

(** The arguments of a launch, as passed to the workload manager. *)
Record launch_args : Type := MkLaunch {
  la_argv : list string;
  la_stdout : Z;
  la_stderr : Z;
  la_input : option string;
  la_chdir : option string;
  la_env : list string
}.

(** Attributes of the frontend. *)
Record attributes : Type := MkAttributes {
  m_stage_deps : bool;
  m_log_dir : string;
  m_debug : bool;
  m_pmi_fopen_timeout : Z;
  m_extra_sleep : Z
}.

(** A workload manager: the virtual functions of [Frontend] and [App].  Launching
    and registering may use the frontend daemon and give the daemon's identifier of
    the application. *)
Class Wlm `{Kernel} `{Procs} `{MPIR} : Type := {
  (** [Frontend::inst()] fails for a reason *)
  wl_inst : option string;
  wl_getWLMType : Z;
  wl_getHostname : res string;
  wl_getGlobalLdPreload : string;
  wl_launch : bool → launch_args → M daemon Z;
  (** the ways of registering a running job *)
  wl_job : Type;
  wl_registerJob : wl_job → M daemon Z;
  (** the application objects, by address *)
  wl_app : aptr → App;
  wl_random : sptr → nat → Z;
  wl_isRunning : list api_event → aptr → res bool;
  wl_getNumPEs : aptr → res Z;
  wl_getNumHosts : aptr → res Z;
  wl_getHostnameList : aptr → res (list string);
  wl_getHostsPlacement : aptr → res (list (string * Z));
  wl_getBinaryRankMap : aptr → res (gmap string (list Z));
  wl_getLauncherHostname : aptr → res string;
  wl_releaseBarrier : list api_event → aptr → res ();
  wl_kill : list api_event → aptr → Z → res ();
  (** the access mode of a descriptor, none when [fcntl] fails *)
  wl_fd_flags : Z → option Z;
  (** the owner's execute bit of a file *)
  wl_user_exec : string → bool;
  (** the lines [nm] prints *)
  wl_nm : string → res (list string)
}.

Section State.
Context `{Kernel} `{Procs} `{MPIR}.

Record fe : Type := MkFe {
  (** [m_apps]: each application with its daemon identifier *)
  f_apps : gmap aptr Z;
  (** the sessions of all applications, each with its owner *)
  f_sessions : gmap sptr (aptr * world);
  f_next : nat;
  f_app_registry : registry aptr;
  f_session_registry : registry sptr;
  f_manifest_registry : registry (sptr * mptr);
  f_daemon : daemon;
  f_attrs : attributes;
  f_err_str : string;
  f_events : list api_event
}.

Definition set_apps (x : gmap aptr Z) (s : fe) : fe :=
  MkFe x (f_sessions s) (f_next s) (f_app_registry s) (f_session_registry s)
    (f_manifest_registry s) (f_daemon s) (f_attrs s) (f_err_str s) (f_events s).

Definition set_sessions (x : gmap sptr (aptr * world)) (s : fe) : fe :=
  MkFe (f_apps s) x (f_next s) (f_app_registry s) (f_session_registry s)
    (f_manifest_registry s) (f_daemon s) (f_attrs s) (f_err_str s) (f_events s).

Definition set_fresh (x : nat) (s : fe) : fe :=
  MkFe (f_apps s) (f_sessions s) x (f_app_registry s) (f_session_registry s)
    (f_manifest_registry s) (f_daemon s) (f_attrs s) (f_err_str s) (f_events s).

Definition set_app_registry (x : registry aptr) (s : fe) : fe :=
  MkFe (f_apps s) (f_sessions s) (f_next s) x (f_session_registry s)
    (f_manifest_registry s) (f_daemon s) (f_attrs s) (f_err_str s) (f_events s).

Definition set_session_registry (x : registry sptr) (s : fe) : fe :=
  MkFe (f_apps s) (f_sessions s) (f_next s) (f_app_registry s) x
    (f_manifest_registry s) (f_daemon s) (f_attrs s) (f_err_str s) (f_events s).

Definition set_manifest_registry (x : registry (sptr * mptr)) (s : fe) : fe :=
  MkFe (f_apps s) (f_sessions s) (f_next s) (f_app_registry s) (f_session_registry s)
    x (f_daemon s) (f_attrs s) (f_err_str s) (f_events s).

Definition set_daemon (x : daemon) (s : fe) : fe :=
  MkFe (f_apps s) (f_sessions s) (f_next s) (f_app_registry s) (f_session_registry s)
    (f_manifest_registry s) x (f_attrs s) (f_err_str s) (f_events s).

Definition set_attrs (x : attributes) (s : fe) : fe :=
  MkFe (f_apps s) (f_sessions s) (f_next s) (f_app_registry s) (f_session_registry s)
    (f_manifest_registry s) (f_daemon s) x (f_err_str s) (f_events s).

Definition set_err_str (x : string) (s : fe) : fe :=
  MkFe (f_apps s) (f_sessions s) (f_next s) (f_app_registry s) (f_session_registry s)
    (f_manifest_registry s) (f_daemon s) (f_attrs s) x (f_events s).

Definition push_api (e : api_event) (s : fe) : fe :=
  MkFe (f_apps s) (f_sessions s) (f_next s) (f_app_registry s) (f_session_registry s)
    (f_manifest_registry s) (f_daemon s) (f_attrs s) (f_err_str s) (f_events s ++ [e]).

(** [DEFAULT_ERR_STR] and the defaults of the constructor of [Frontend]. *)
Definition DEFAULT_ERR_STR : string := "Unknown CTI error".
Definition default_attributes : attributes := MkAttributes true "" false 60 0.

Definition new_fe (d : daemon) : fe :=
  MkFe ∅ ∅ 0 new_registry new_registry new_registry d default_attributes DEFAULT_ERR_STR [].
End State.

(** ** Owners *)

(** [getDefaultEnvVars()] *)
Definition getDefaultEnvVars (a : attributes) : list string :=
  (if is_empty (m_log_dir a) then [] else ["CTI_LOG_DIR=" +:+ m_log_dir a]) ++
  (if m_pmi_fopen_timeout a =? 60 then []
   else ["CTI_PMI_FOPEN_TIMEOUT=" +:+ to_string (m_pmi_fopen_timeout a)]) ++
  (if m_extra_sleep a =? 0 then []
   else ["CTI_PMI_EXTRA_SLEEP=" +:+ to_string (m_extra_sleep a)]).

(** An application as its sessions see it: the frontend's attributes are those of
    the moment. *)
Definition app_with (at' : attributes) (A : App) : App := {|
  app_getJobId := @app_getJobId A; app_getToolPath := @app_getToolPath A;
  app_getAttribsPath := @app_getAttribsPath A; app_getExtraBinaries := @app_getExtraBinaries A;
  app_getExtraLibraries := @app_getExtraLibraries A; app_getExtraLibDirs := @app_getExtraLibDirs A;
  app_getExtraFiles := @app_getExtraFiles A; app_checkFilesExist := @app_checkFilesExist A;
  app_shipPackage := @app_shipPackage A; app_startDaemon := @app_startDaemon A;
  fe_getCfgDir := @fe_getCfgDir A; fe_getLdAuditPath := @fe_getLdAuditPath A;
  fe_debug := m_debug at'; fe_getDefaultEnvVars := getDefaultEnvVars at';
  fe_getWLMType := @fe_getWLMType A; cfg_be_daemon_binary := @cfg_be_daemon_binary A |}.

Section Owners.
Context `{Kernel} `{ReqSocket} `{Procs} `{MPIR} `{Host} `{Tar} `{!Wlm}.

(** Code of a session, run with its owning application. *)
Definition with_session {A : Type} (p : sptr) (m : App → M world A) : M fe A := λ s,
  match f_sessions s !! p with
  | Some (a, w) =>
      let '(r, w') := m (app_with (f_attrs s) (wl_app a)) w in
      (r, set_sessions (<[p := (a, w')]> (f_sessions s)) s)
  | None => (Undef "use of a destroyed session", s)
  end.

(** The sessions of an application. *)
Definition sessions_of (a : aptr) (s : fe) : list sptr :=
  (filter (λ q, q.2.1 = a) (map_to_list (f_sessions s))).*1.

(** [App::finalize()]: the first exception leaves the sessions in place. *)
Definition app_finalize (a : aptr) : M fe () :=
  s ← get;
  for_each (sessions_of a s) (λ p, with_session p (λ A, session_finalize));;
  modify (λ s, set_sessions (filter (λ q, q.2.1 ≠ a) (f_sessions s)) s).

(** [Frontend::removeApp]: dropping the last pointer destroys the application, and
    the sessions it still owns with it. *)
Definition fe_removeApp (a : aptr) : M fe () :=
  try_catch (app_finalize a) (λ _, mret tt);;
  modify (λ s, set_sessions (filter (λ q, q.2.1 ≠ a) (f_sessions s))
                 (set_apps (delete a (f_apps s)) s)).

(** [App::createSession] *)
Definition app_createSession (a : aptr) : M fe sptr :=
  s ← get;
  let p := f_next s in
  modify (set_fresh (S p));;
  modify (λ s, set_sessions
    (<[p := (a, @new_world (app_with (f_attrs s) (wl_app a)) (wl_random p))]> (f_sessions s)) s);;
  mret p.

(** [App::removeSession] *)
Definition app_removeSession (p : sptr) : M fe () :=
  with_session p (λ A, session_finalize);;
  modify (λ s, set_sessions (delete p (f_sessions s)) s).

(** Launching or registering: the workload manager makes the application and the
    frontend keeps it. *)
Definition fe_addApp (m : M daemon Z) : M fe aptr :=
  daemonAppId ← zoom f_daemon set_daemon m;
  s ← get;
  let a := f_next s in
  modify (set_fresh (S a));;
  modify (λ s, set_apps (<[a := daemonAppId]> (f_apps s)) s);;
  mret a.

(** ** Handles *)

Definition app_expired (s : fe) (a : aptr) : bool := negb (bool_decide (is_Some (f_apps s !! a))).

Definition session_expired (s : fe) (p : sptr) : bool :=
  negb (bool_decide (is_Some (f_sessions s !! p))).

Definition manifest_expired (s : fe) (pm : sptr * mptr) : bool :=
  match f_sessions s !! pm.1 with
  | Some (_, w) => negb (bool_decide (pm.2 ∈ s_manifests (w_session w)))
  | None => true
  end.

(** An operation of one of the registries. *)
Definition on_apps {A : Type} (m : (aptr → bool) → M (registry aptr) A) : M fe A := λ s,
  zoom f_app_registry set_app_registry (m (app_expired s)) s.

Definition on_sessions {A : Type} (m : (sptr → bool) → M (registry sptr) A) : M fe A := λ s,
  zoom f_session_registry set_session_registry (m (session_expired s)) s.

Definition on_manifests {A : Type} (m : (sptr * mptr → bool) → M (registry (sptr * mptr)) A)
    : M fe A := λ s,
  zoom f_manifest_registry set_manifest_registry (m (manifest_expired s)) s.

Definition trackApp (a : aptr) : M fe Z := on_apps (λ _, reg_add a).
Definition getApp (id : Z) : M fe aptr := on_apps (λ e, reg_get_handle e id).
Definition validApp (id : Z) : M fe bool := on_apps (λ e, reg_isValid e id).
Definition removeApp (id : Z) : M fe () := on_apps (λ _, reg_erase id).
Definition trackSession (p : sptr) : M fe Z := on_sessions (λ _, reg_add p).
Definition getSession (id : Z) : M fe sptr := on_sessions (λ e, reg_get_handle e id).
Definition validSession (id : Z) : M fe bool := on_sessions (λ e, reg_isValid e id).
Definition removeSession (id : Z) : M fe () := on_sessions (λ _, reg_erase id).
Definition trackManifest (pm : sptr * mptr) : M fe Z := on_manifests (λ _, reg_add pm).
Definition getManifest (id : Z) : M fe (sptr * mptr) := on_manifests (λ e, reg_get_handle e id).
Definition validManifest (id : Z) : M fe bool := on_manifests (λ e, reg_isValid e id).
Definition iface_removeManifest (id : Z) : M fe () := on_manifests (λ _, reg_erase id).

(** ** Errors *)

(** [Frontend::inst()] *)
Definition inst : M fe () :=
  match wl_inst with Some what => throw what | None => mret tt end.

(** [runSafely] *)
Definition runSafely {A : Type} (caller : string) (func : M fe A) (onError : A) : M fe A :=
  try_catch func (λ what, modify (set_err_str (caller +:+ ": " +:+ c_str what));; mret onError).

End Owners.

(** [strncpy(dst, src, n)] into a buffer of at least [n] bytes: the text up to its
    NUL, then NULs. *)
Definition strncpy (src : string) (n : nat) (buf : list ascii) : list ascii :=
  take n (list_ascii_of_string (c_str src) ++ replicate n "000"%char) ++ drop n buf.

(** [buf[i] = c] *)
Definition store {A : Type} (i : nat) (c : A) (buf : list A) : res (list A) :=
  if (i <? length buf)%nat then Ok (<[i := c]> buf) else Undef "write past the end of the buffer".

(** The C string at the start of a buffer, which must hold a NUL. *)
Fixpoint read_cstr (buf : list ascii) : res string :=
  match buf with
  | [] => Undef "read past the end of the buffer"
  | c :: buf' => if decide (c = "000"%char) then Ok "" else s ← read_cstr buf'; mret (String c s)
  end.

Definition CTI_ERR_STR_SIZE : nat := 1024.
Definition CTI_BUF_SIZE : nat := 4096.

(** [get_error_str] and [get_attr_str]; the buffer is allocated once and keeps its
    size. *)
Definition get_error_str (m_err_str : string) (buf : list ascii) : res (list ascii) :=
  store (CTI_ERR_STR_SIZE - 1) "000"%char (strncpy m_err_str CTI_ERR_STR_SIZE buf).

Definition get_attr_str (value : string) : res string :=
  buf ← store CTI_BUF_SIZE "000"%char
          (strncpy value CTI_BUF_SIZE (replicate CTI_BUF_SIZE "000"%char));
  read_cstr buf.

Definition ERANGE : Z := 34.

(** [cti_error_str] and [cti_error_str_r]; the result of the latter is the return
    code and the caller's buffer. *)
Definition cti_error_str (m_err_str : string) : res string :=
  buf ← get_error_str m_err_str (replicate CTI_ERR_STR_SIZE "000"%char);
  read_cstr buf.

Definition cti_error_str_r (m_err_str : string) (buf : list ascii) (buf_len : nat)
    : res (Z * list ascii) :=
  if (buf_len <? 1)%nat then Ok (ERANGE, buf)
  else
    error_str ← cti_error_str m_err_str;
    buf' ← store (buf_len - 1) "000"%char (strncpy error_str (buf_len - 1) buf);
    Ok (0, buf').

(** ** The environment and arguments of launches *)

(** [strrchr(s, c) + 1] *)
Fixpoint after_last (c : ascii) (s : string) : option string :=
  match s with
  | "" => None
  | String c' s' =>
      match after_last c s' with
      | Some rest => Some rest
      | None => if decide (c' = c) then Some s' else None
      end
  end.

(** One entry of the job environment. *)
Definition fix_entry (globalLdPreload entry : string) (v : argv) : res argv :=
  if starts_with "LD_PRELOAD" entry
  then match after_last "=" entry with
       | None => Throw ("Invalid environment variable set: '" +:+ entry +:+ "'")
       | Some sub => argv_add ("LD_PRELOAD=" +:+ globalLdPreload +:+ ":" +:+ sub) v
       end
  else argv_add_cstr (Some entry) v.

Fixpoint fix_entries (globalLdPreload : string) (env : list string) (added : bool) (v : argv)
    : res (argv * bool) :=
  match env with
  | [] => Ok (v, added)
  | entry :: env' =>
      v' ← fix_entry globalLdPreload entry v;
      fix_entries globalLdPreload env' (added || starts_with "LD_PRELOAD" entry) v'
  end.

Definition fixLaunchEnvironment (globalLdPreload : string) (env_list : option (list string))
    : res argv :=
  if negb (is_empty globalLdPreload)
  then
    match env_list with
    | Some env =>
        '(v, added) ← fix_entries globalLdPreload env false argv_new;
        if (added : bool) then Ok v else argv_add ("LD_PRELOAD=" +:+ globalLdPreload) v
    | None => argv_add ("LD_PRELOAD=" +:+ globalLdPreload) argv_new
    end
  else
    match env_list with
    | Some env => argv_add_array (Some (map Some env ++ [None])) argv_new
    | None => Ok argv_new
    end.

Section Launch.
Context `{Kernel} `{ReqSocket} `{Procs} `{MPIR} `{Host} `{Tar} `{!Wlm}.

(** [cti::canWriteFd]: O_WRONLY is 1 and O_RDWR is 2. *)
Definition canWriteFd (fd : Z) : bool :=
  match wl_fd_flags fd with
  | None => false
  | Some flags =>
      let accessFlags := Z.land flags 3 in
      negb (Z.land accessFlags 2 =? 0) || negb (Z.land accessFlags 1 =? 0)
  end.

Definition checkLaunchArguments (stdout_fd stderr_fd : Z) (input_file chdir_path : option string)
    (env_list : list string) : res () :=
  if (0 <? stdout_fd) && negb (canWriteFd stdout_fd)
  then Throw "Invalid stdoutFd argument. No write access."
  else if (0 <? stderr_fd) && negb (canWriteFd stderr_fd)
  then Throw "Invalid stderr_fd argument. No write access."
  else if bool_decide (input_file ≠ None) && negb (fileHasPerms input_file R_OK)
  then Throw "Invalid inputFile argument. No read access."
  else if bool_decide (chdir_path ≠ None) &&
          negb (dirHasPerms chdir_path (Z.lor (Z.lor R_OK W_OK) X_OK))
  then Throw "Invalid chdirPath argument. No RWX access."
  else enforceValidEnvStrings env_list.

(** The common body of the four launch functions. *)
Definition launch_body (barrier : bool) (launcher_argv : list string) (stdout_fd stderr_fd : Z)
    (input_file chdir_path : option string) (env_list : option (list string)) : M fe Z :=
  fixedEnvList ← lift (fixLaunchEnvironment wl_getGlobalLdPreload env_list);
  lift (checkLaunchArguments stdout_fd stderr_fd input_file chdir_path (until_null fixedEnvList));;
  a ← fe_addApp (wl_launch barrier (MkLaunch launcher_argv stdout_fd stderr_fd input_file
                                      chdir_path (until_null fixedEnvList)));
  trackApp a.

Definition APP_ERROR : Z := 0.
Definition SESSION_ERROR : Z := 0.
Definition MANIFEST_ERROR : Z := 0.
Definition SUCCESS : Z := 0.
Definition FAILURE : Z := 1.

Definition cti_launchApp (launcher_argv : list string) (stdout_fd stderr_fd : Z)
    (input_file chdir_path : option string) (env_list : option (list string)) : M fe Z :=
  runSafely "cti_launchApp"
    (inst;; launch_body false launcher_argv stdout_fd stderr_fd input_file chdir_path env_list)
    APP_ERROR.

Definition cti_launchAppBarrier (launcher_argv : list string) (stdout_fd stderr_fd : Z)
    (input_file chdir_path : option string) (env_list : option (list string)) : M fe Z :=
  runSafely "cti_launchAppBarrier"
    (inst;; launch_body true launcher_argv stdout_fd stderr_fd input_file chdir_path env_list)
    APP_ERROR.

(** The path of a descriptor that is to be the standard input. *)
Definition fd_path (stdin_fd : Z) : option string :=
  if 0 <=? stdin_fd then Some ("/proc/self/fd/" +:+ to_string stdin_fd) else None.

Definition cti_launchApp_fd (launcher_argv : list string) (stdout_fd stderr_fd stdin_fd : Z)
    (chdir_path : option string) (env_list : option (list string)) : M fe Z :=
  runSafely "cti_launchApp_fd"
    (inst;; launch_body false launcher_argv stdout_fd stderr_fd (fd_path stdin_fd) chdir_path env_list)
    APP_ERROR.

Definition cti_launchAppBarrier_fd (launcher_argv : list string) (stdout_fd stderr_fd stdin_fd : Z)
    (chdir_path : option string) (env_list : option (list string)) : M fe Z :=
  runSafely "cti_launchAppBarrier_fd"
    (inst;; launch_body true launcher_argv stdout_fd stderr_fd (fd_path stdin_fd) chdir_path env_list)
    APP_ERROR.

(** ** Registering running jobs *)

(** The names of the workload managers, all of them built, and [downcastFE]. *)
Definition wlm_names : list (Z * string) :=
  [(0, "No WLM detected"); (1, "Test WLM frontend"); (2, "slurm"); (3, "generic"); (4, "alps");
   (5, "pals"); (6, "flux"); (7, "localhost")].

Definition cti_wlm_type_toString (wlm_type : Z) : string :=
  default "Invalid WLM." (snd <$> List.find (λ p, p.1 =? wlm_type) wlm_names).

Definition downcastFE (wanted : Z) : M fe () :=
  inst;;
  if wl_getWLMType =? wanted then mret tt
  else throw ("Invalid call. " +:+ cti_wlm_type_toString wl_getWLMType +:+ " not in use.").

(** The registering operations of the tables: [_cti_slurm_registerJobStep] and the
    like, each for one workload manager and one way of naming a job. *)
Definition register_op (caller : string) (wanted : Z) (job : wl_job) : M fe Z :=
  runSafely caller
    (downcastFE wanted;; a ← fe_addApp (wl_registerJob job); trackApp a) APP_ERROR.

Definition ATTACH_TIMEOUT_STEP_SEC : Z := 5.

(** The waiting variants; [elapsed] is a [uint32_t].  The first attempt is outside of
    the fuel. *)
Fixpoint wait_loop (fuel : nat) (timeout_sec elapsed : Z) (attempt : M fe Z) : M fe Z :=
  app_id ← attempt;
  if negb (app_id =? APP_ERROR) then mret app_id
  else
    modify (push_api (EvSleep ATTACH_TIMEOUT_STEP_SEC));;
    let elapsed' := (elapsed + ATTACH_TIMEOUT_STEP_SEC) mod 2 ^ 32 in
    if (timeout_sec =? 0) || (elapsed' <? timeout_sec)
    then match fuel with
         | O => undef "more attempts than fuel"
         | S fuel' => wait_loop fuel' timeout_sec elapsed' attempt
         end
    else mret APP_ERROR.

Definition register_op_wait (fuel : nat) (caller : string) (wanted : Z) (job : wl_job)
    (timeout_sec : Z) : M fe Z :=
  wait_loop fuel timeout_sec 0 (register_op caller wanted job).
End Launch.

(** ** The entry points *)

Section Api.
Context `{Kernel} `{ReqSocket} `{Procs} `{MPIR} `{Host} `{Tar} `{!Wlm}.

Definition cti_current_wlm : M fe Z :=
  runSafely "cti_current_wlm" (inst;; mret wl_getWLMType) 0.

(** Reading something of an application. *)
Definition app_query {A B : Type} (caller : string) (appId : Z) (f : aptr → res A) (g : A → res B)
    (onError : B) : M fe B :=
  runSafely caller (inst;; a ← getApp appId; x ← lift (f a); lift (g x)) onError.

Definition cti_getNumAppPEs (appId : Z) : M fe Z :=
  app_query "cti_getNumAppPEs" appId wl_getNumPEs (λ n, Ok (to_int n)) (-1).

Definition cti_getNumAppNodes (appId : Z) : M fe Z :=
  app_query "cti_getNumAppNodes" appId wl_getNumHosts (λ n, Ok (to_int n)) (-1).

Definition cti_getAppHostsList (appId : Z) : M fe (option (list string)) :=
  app_query "cti_getAppHostsList" appId wl_getHostnameList (λ l, Ok (Some (map c_str l))) None.

(** The number of hosts and of processes are of type [int]. *)
Definition cti_getAppHostsPlacement (appId : Z) : M fe (option (Z * list (string * Z))) :=
  app_query "cti_getAppHostsPlacement" appId wl_getHostsPlacement
    (λ l, Ok (Some (to_int (Z.of_nat (length l)), map (λ hp, (c_str hp.1, to_int hp.2)) l))) None.

(** [rankMap[rank] = i] for the ranks of one binary. *)
Fixpoint store_ranks (ranks : list Z) (i : Z) (rankMap : list (option Z)) : res (list (option Z)) :=
  match ranks with
  | [] => Ok rankMap
  | rank :: ranks' =>
      if rank <? 0 then Undef "write before the start of the buffer"
      else rankMap' ← store (Z.to_nat rank) (Some i) rankMap; store_ranks ranks' i rankMap'
  end.

Fixpoint store_binaries (m : gmap string (list Z)) (binaries : list string) (i : Z)
    (rankMap : list (option Z)) : res (list (option Z)) :=
  match binaries with
  | [] => Ok rankMap
  | b :: binaries' =>
      rankMap' ← store_ranks (default [] (m !! b)) i rankMap;
      store_binaries m binaries' (i + 1) rankMap'
  end.

(** The list of binaries and the array from ranks to indices into it, as allocated:
    an entry never written is [None], the last one is -1. *)
Definition binary_list (m : gmap string (list Z)) (numPEs : nat)
    : res (list string * list (option Z)) :=
  let binaries := sorted_keys m in
  rankMap ← store_binaries m binaries 0 (replicate numPEs None ++ [Some (-1)]);
  Ok (map c_str binaries, rankMap).

Definition cti_getAppBinaryList (appId : Z) : M fe (option (list string * list (option Z))) :=
  runSafely "cti_getAppBinaryList"
    (inst;; a ← getApp appId;
     m ← lift (wl_getBinaryRankMap a);
     n ← lift (wl_getNumPEs a);
     r ← lift (binary_list m (Z.to_nat n)); mret (Some r)) None.

Definition cti_getHostname : M fe (option string) :=
  runSafely "cti_getHostname"
    (match os_getenv "CTI_HOST_ADDRESS" with
     | Some host_address => mret (Some host_address)
     | None => inst;; h ← lift wl_getHostname; mret (Some (c_str h))
     end) None.

Definition cti_getLauncherHostName (appId : Z) : M fe (option string) :=
  app_query "cti_getLauncherHostName" appId wl_getLauncherHostname (λ h, Ok (Some (c_str h))) None.

(** The result is the type and the table, by type, stored through [ops]; [given] says
    whether [ops] is a pointer. *)
Definition cti_open_ops (given : bool) : M fe (Z * option Z) :=
  runSafely "cti_open_ops"
    (if negb given then throw "NULL pointer for 'ops' argument."
     else
       inst;;
       mret (wl_getWLMType,
         if bool_decide (wl_getWLMType ∈ [2; 3; 4; 5; 6; 7]) then Some wl_getWLMType else None))
    (0, None).

Definition cti_appIsValid (appId : Z) : M fe bool :=
  runSafely "cti_appIsValid"
    (inst;; valid ← validApp appId;
     if negb valid then mret false
     else
       a ← getApp appId;
       s ← get;
       running ← lift (wl_isRunning (f_events s) a);
       if negb running
       then fe_removeApp a;; removeApp appId;; mret false
       else mret true) false.

Definition cti_deregisterApp (appId : Z) : M fe () :=
  ok ← runSafely "cti_deregisterApp"
    (inst;; a ← getApp appId; fe_removeApp a;; removeApp appId;; mret true) false;
  mret tt.

(** The interface's identifier is passed to the daemon. *)
Definition cti_releaseApp (appId : Z) : M fe Z :=
  runSafely "cti_releaseApp"
    (inst;; zoom f_daemon set_daemon (request_ReleaseApp (to_int appId));; removeApp appId;; mret 0)
    1.

Definition cti_releaseAppBarrier (appId : Z) : M fe Z :=
  runSafely "cti_releaseAppBarrier"
    (inst;; a ← getApp appId; s ← get;
     lift (wl_releaseBarrier (f_events s) a);; modify (push_api (EvReleaseBarrier a));;
     mret SUCCESS) FAILURE.

Definition cti_killApp (appId signum : Z) : M fe Z :=
  runSafely "cti_killApp"
    (inst;; a ← getApp appId; s ← get;
     lift (wl_kill (f_events s) a signum);; modify (push_api (EvKillApp a signum));;
     mret SUCCESS) FAILURE.

(** *** Sessions *)

Definition cti_createSession (appId : Z) : M fe Z :=
  runSafely "cti_createSession"
    (inst;; a ← getApp appId; p ← app_createSession a; trackSession p) SESSION_ERROR.

Definition cti_destroySession (sid : Z) : M fe Z :=
  runSafely "cti_destroySession"
    (inst;; p ← getSession sid; app_removeSession p;; removeSession sid;; mret SUCCESS) FAILURE.

Definition cti_sessionIsValid (sid : Z) : M fe bool :=
  runSafely "cti_sessionIsValid" (inst;; validSession sid) false.

Definition cti_getSessionLockFiles (sid : Z) : M fe (option (list string)) :=
  runSafely "cti_getSessionLockFiles"
    (inst;; p ← getSession sid;
     lock_files ← with_session p (λ A, getSessionLockFiles);
     if (length lock_files =? 0)%nat
     then throw ("backend not initialized for session id " +:+ to_string sid)
     else mret (Some lock_files)) None.

Definition sessionPathAppend (caller : string) (sid : Z) (str : string) : M fe (option string) :=
  runSafely caller
    (inst;; p ← getSession sid;
     path ← with_session p (λ A, gets (λ w, s_stagePath (w_session w)));
     mret (Some (path +:+ str))) None.

Definition cti_getSessionRootDir (sid : Z) := sessionPathAppend "cti_getSessionRootDir" sid "".
Definition cti_getSessionBinDir (sid : Z) := sessionPathAppend "cti_getSessionBinDir" sid "/bin".
Definition cti_getSessionLibDir (sid : Z) := sessionPathAppend "cti_getSessionLibDir" sid "/lib".
Definition cti_getSessionFileDir (sid : Z) := sessionPathAppend "cti_getSessionFileDir" sid "".
Definition cti_getSessionTmpDir (sid : Z) := sessionPathAppend "cti_getSessionTmpDir" sid "/tmp".

(** *** Manifests *)

Definition cti_createManifest (sid : Z) : M fe Z :=
  runSafely "cti_createManifest"
    (inst;; p ← getSession sid; m ← with_session p (λ A, createManifest); trackManifest (p, m))
    MANIFEST_ERROR.

Definition cti_manifestIsValid (mid : Z) : M fe bool :=
  runSafely "cti_manifestIsValid" (inst;; validManifest mid) false.

(** The policy of the attribute. *)
Definition deps_policy (a : attributes) : DepsPolicy := if m_stage_deps a then Stage else Ignore.

(** Code on a manifest, by identifier. *)
Definition on_manifest (caller : string) (mid : Z) (m : attributes → mptr → App → M world ())
    (finish : M fe ()) : M fe Z :=
  runSafely caller
    (inst;; s ← get; pm ← getManifest mid;
     with_session pm.1 (m (f_attrs s) pm.2);; finish;; mret SUCCESS) FAILURE.

Definition cti_addManifestBinary (mid : Z) (rawName : string) : M fe Z :=
  on_manifest "cti_addManifestBinary" mid (λ at' p A, addBinary p rawName (deps_policy at')) (mret tt).

Definition cti_addManifestLibrary (mid : Z) (rawName : string) : M fe Z :=
  on_manifest "cti_addManifestLibrary" mid (λ at' p A, addLibrary p rawName (deps_policy at')) (mret tt).

Definition cti_addManifestLibDir (mid : Z) (rawName : string) : M fe Z :=
  on_manifest "cti_addManifestLibDir" mid (λ at' p A, addLibDir p rawName) (mret tt).

Definition cti_addManifestFile (mid : Z) (rawName : string) : M fe Z :=
  on_manifest "cti_addManifestFile" mid (λ at' p A, addFile p rawName) (mret tt).

Definition cti_sendManifest (mid : Z) : M fe Z :=
  on_manifest "cti_sendManifest" mid (λ at' p A, sendManifest p) (iface_removeManifest mid).

Definition cti_execToolDaemon (mid : Z) (daemonPath : string)
    (daemonArgs envVars : option (list string)) : M fe Z :=
  on_manifest "cti_execToolDaemon" mid (λ at' p A, execManifest p daemonPath daemonArgs envVars)
    (iface_removeManifest mid).
End Api.

(** ** Attributes *)

Inductive attr_type : Type :=
| CTI_ATTR_STAGE_DEPENDENCIES
| CTI_LOG_DIR
| CTI_DEBUG
| CTI_PMI_FOPEN_TIMEOUT
| CTI_EXTRA_SLEEP
| OtherAttr (n : Z).

(** [value[0]] of a C string *)
Definition first_char (value : string) : ascii :=
  match value with String c _ => c | "" => "000"%char end.

(** [std::to_string] of a [char] *)
Definition char_to_string (c : ascii) : string := to_string (to_signed 1 (byte_of_ascii c)).

(** A switch: "0" or "1" at the start of the value. *)
Definition parse_switch (name value : string) : res bool :=
  if decide (first_char value = "0"%char) then Ok false
  else if decide (first_char value = "1"%char) then Ok true
  else Throw (name +:+ ": Unsupported value " +:+ char_to_string (first_char value)).

Section Attributes.
Context `{Kernel} `{ReqSocket} `{Procs} `{MPIR} `{Host} `{Tar} `{!Wlm}.

Definition set_attribute (attrib : attr_type) (value : string) (a : attributes) : res attributes :=
  match attrib with
  | CTI_ATTR_STAGE_DEPENDENCIES =>
      b ← parse_switch "CTI_ATTR_STAGE_DEPENDENCIES" value;
      Ok (MkAttributes b (m_log_dir a) (m_debug a) (m_pmi_fopen_timeout a) (m_extra_sleep a))
  | CTI_LOG_DIR =>
      if negb (dirHasPerms (Some value) (Z.lor (Z.lor R_OK W_OK) X_OK))
      then Throw ("CTI_LOG_DIR: Bad directory specified by value " +:+ value)
      else Ok (MkAttributes (m_stage_deps a) value (m_debug a) (m_pmi_fopen_timeout a)
                 (m_extra_sleep a))
  | CTI_DEBUG =>
      b ← parse_switch "CTI_DEBUG" value;
      Ok (MkAttributes (m_stage_deps a) (m_log_dir a) b (m_pmi_fopen_timeout a) (m_extra_sleep a))
  | CTI_PMI_FOPEN_TIMEOUT =>
      n ← stoul value;
      Ok (MkAttributes (m_stage_deps a) (m_log_dir a) (m_debug a) n (m_extra_sleep a))
  | CTI_EXTRA_SLEEP =>
      n ← stoul value;
      Ok (MkAttributes (m_stage_deps a) (m_log_dir a) (m_debug a) (m_pmi_fopen_timeout a) n)
  | OtherAttr n => Throw ("Invalid cti_attr_type_t " +:+ to_string n)
  end.

(** [cti_setAttribute]; [None] is a null value. *)
Definition cti_setAttribute (attrib : attr_type) (value : option string) : M fe Z :=
  runSafely "cti_setAttribute"
    (match value with
     | None => throw "NULL pointer pass as value argument."
     | Some v =>
         inst;; s ← get; a ← lift (set_attribute attrib v (f_attrs s));
         modify (set_attrs a);; mret SUCCESS
     end) FAILURE.

(** The text of an attribute. *)
Definition attribute_text (attrib : attr_type) (a : attributes) : res string :=
  match attrib with
  | CTI_ATTR_STAGE_DEPENDENCIES => Ok (if m_stage_deps a then "1" else "0")
  | CTI_LOG_DIR => Ok (m_log_dir a)
  | CTI_DEBUG => Ok (if m_debug a then "1" else "0")
  | CTI_PMI_FOPEN_TIMEOUT => Ok (to_string (m_pmi_fopen_timeout a))
  | CTI_EXTRA_SLEEP => Ok (to_string (m_extra_sleep a))
  | OtherAttr n => Throw ("Invalid cti_attr_type_t " +:+ to_string n)
  end.

Definition cti_getAttribute (attrib : attr_type) : M fe (option string) :=
  runSafely "cti_getAttribute"
    (inst;; s ← get; text ← lift (attribute_text attrib (f_attrs s));
     r ← lift (get_attr_str text); mret (Some r)) None.

(** ** Symbols *)

(** The name in a line of [nm] for [CTI_SYMBOLS_ANY]: undefined symbols have no
    address. *)
Definition any_symbol (nmLine : string) : string :=
  let '(addr, label, symbol) := split3 (removeLeadingWhitespace nmLine) " " in
  if is_empty symbol then label else symbol.

(** The loop for [CTI_SYMBOLS_ALL] takes the lines as they are. *)
Definition all_symbol (nmLine : string) : string :=
  let '(addr, label, symbol) := split3 nmLine " " in symbol.

Fixpoint find_all (lines : list string) (remaining : gset string) : bool :=
  match lines with
  | [] => false
  | line :: lines' =>
      let remaining' := remaining ∖ {[all_symbol line]} in
      if decide (remaining' = ∅) then true else find_all lines' remaining'
  end.

Inductive symbol_query : Type := CTI_SYMBOLS_ALL | CTI_SYMBOLS_ANY.

Definition CTI_SYMBOLS_YES : Z := 0.
Definition CTI_SYMBOLS_NO : Z := 1.
Definition CTI_SYMBOLS_ERROR : Z := 2.

Definition search_symbols (lines : list string) (symbols : gset string) (query : symbol_query) : Z :=
  if match query with
     | CTI_SYMBOLS_ANY => existsb (λ l, bool_decide (any_symbol l ∈ symbols)) lines
     | CTI_SYMBOLS_ALL => find_all lines symbols
     end
  then CTI_SYMBOLS_YES else CTI_SYMBOLS_NO.

(** [Frontend::containsSymbols] *)
Definition containsSymbols (binaryPath : string) (symbols : gset string) (query : symbol_query)
    : res Z :=
  match os_stat binaryPath with
  | None => Throw ("no file found at " +:+ binaryPath)
  | Some _ =>
      if negb (wl_user_exec binaryPath) then Throw (binaryPath +:+ " is not executable")
      else lines ← wl_nm binaryPath; Ok (search_symbols lines symbols query)
  end.

Definition cti_containsSymbols (binary_path : string) (symbols : list string)
    (query : symbol_query) : M fe Z :=
  runSafely "cti_containsSymbols"
    (inst;; lift (containsSymbols binary_path (list_to_set symbols) query)) CTI_SYMBOLS_ERROR.
End Attributes.
