(* ===== verification/IfaceProofs.v ===== *)
(** * The C interface: handles and errors

    No exception leaves an entry point.  A handle that was given out and has lost its
    object never stands for an object again, and destroying an owner invalidates the
    handles of everything it owns. *)

From S2P Require Import Prelude Split Argv Host Archive Manifest Session Transfer Wire Launch Daemon Handlers FEIface Registry Iface.

(** ** The invariant *)

Section Handles.
Context `{Kernel} `{ReqSocket} `{Procs} `{MPIR} `{Host} `{Tar} `{!Wlm}.

(** Addresses come from a counter, the objects form a tree, sessions are in the
    states of the transfer layer, and handles are of objects made before. *)
Record iface_ok (s : fe) : Prop := IfaceOk {
  ok_app_reg : reg_ok (f_app_registry s);
  ok_session_reg : reg_ok (f_session_registry s);
  ok_manifest_reg : reg_ok (f_manifest_registry s);
  ok_apps : ∀ a, is_Some (f_apps s !! a) → (a < f_next s)%nat;
  ok_sessions : ∀ p a w, f_sessions s !! p = Some (a, w) →
    (p < f_next s)%nat ∧ is_Some (f_apps s !! a) ∧ winv_of ∅ 0 w;
  ok_app_ids : ∀ id a, r_list (f_app_registry s) !! id = Some a → (a < f_next s)%nat;
  ok_session_ids : ∀ id p, r_list (f_session_registry s) !! id = Some p → (p < f_next s)%nat;
  ok_manifest_ids : ∀ id p m, r_list (f_manifest_registry s) !! id = Some (p, m) →
    (p < f_next s)%nat ∧ ∀ a w, f_sessions s !! p = Some (a, w) → (m < w_next w)%nat
}.

(** What the state keeps from one call to the next. *)
Record iface_le (s s' : fe) : Prop := IfaceLe {
  fle_next : (f_next s ≤ f_next s')%nat;
  fle_app_reg : reg_le (f_app_registry s) (f_app_registry s');
  fle_session_reg : reg_le (f_session_registry s) (f_session_registry s');
  fle_manifest_reg : reg_le (f_manifest_registry s) (f_manifest_registry s');
  fle_apps : ∀ a, (a < f_next s)%nat → f_apps s !! a = None → f_apps s' !! a = None;
  fle_sessions : ∀ p, (p < f_next s)%nat → f_sessions s !! p = None → f_sessions s' !! p = None;
  fle_worlds : ∀ p a w a' w', f_sessions s !! p = Some (a, w) → f_sessions s' !! p = Some (a', w') →
    a' = a ∧ world_le w w'
}.

Lemma iface_le_refl (s : fe) : iface_le s s.
Proof. split; intros; simplify_eq; done. Qed.

Lemma iface_le_trans (s1 s2 s3 : fe) :
  iface_ok s1 → iface_le s1 s2 → iface_le s2 s3 → iface_le s1 s3.
Proof.
  intros Hok [Hn Ha Hs Hm Happ Hses Hw] [Hn' Ha' Hs' Hm' Happ' Hses' Hw'].
  split; [lia|by etrans..| | |].
  - intros a ??. apply Happ'; [lia|]. by apply Happ.
  - intros p ??. apply Hses'; [lia|]. by apply Hses.
  - intros p a w a' w' E1 E3. destruct (ok_sessions s1 Hok p a w E1) as (Hp & _).
    destruct (f_sessions s2 !! p) as [[a2 w2]|] eqn:E2.
    + destruct (Hw _ _ _ _ _ E1 E2) as [-> ?], (Hw' _ _ _ _ _ E2 E3) as [-> ?].
      split; [done|by etrans].
    + rewrite (Hses' p) in E3; [done|lia|done].
Qed.

(** Reached from a given state. *)
Definition from (s0 s : fe) : Prop := iface_ok s ∧ iface_le s0 s.

(** A change of one part of the state, from a good state. *)
Lemma from_step (s0 s s' : fe) :
  iface_ok s0 → from s0 s → iface_ok s' → iface_le s s' → from s0 s'.
Proof. intros Hbase [Hs Hle] Hs' Hle'. split; [done|by eapply iface_le_trans]. Qed.

Context (s0 : fe) (Hs0 : iface_ok s0).
#[local] Abbreviation I := (from s0).

(** ** Operations that keep it *)

(** Parts the invariant does not look at. *)
Lemma from_frame (s s' : fe) :
  f_apps s' = f_apps s → f_sessions s' = f_sessions s → f_next s' = f_next s →
  f_app_registry s' = f_app_registry s → f_session_registry s' = f_session_registry s →
  f_manifest_registry s' = f_manifest_registry s → I s → I s'.
Proof.
  intros E1 E2 E3 E4 E5 E6 Hs. apply (from_step s0 s s'); [done..| |].
  - destruct (proj1 Hs). split; rewrite ?E1, ?E2, ?E3, ?E4, ?E5, ?E6; assumption.
  - split; rewrite ?E1, ?E2, ?E3, ?E4, ?E5, ?E6; intros; simplify_eq; done.
Qed.

Lemma keep_frame (f : fe → fe) :
  (∀ s, f_apps (f s) = f_apps s ∧ f_sessions (f s) = f_sessions s ∧ f_next (f s) = f_next s ∧
    f_app_registry (f s) = f_app_registry s ∧ f_session_registry (f s) = f_session_registry s ∧
    f_manifest_registry (f s) = f_manifest_registry s) → preserves I (modify f).
Proof. intros Hf s. destruct (Hf s) as (?&?&?&?&?&?). by apply from_frame. Qed.

Lemma keep_daemon {A : Type} (m : M daemon A) : preserves I (zoom f_daemon set_daemon m).
Proof.
  intros s Hs. unfold zoom. destruct (m (f_daemon s)) as [r d]. by apply (from_frame s).
Qed.

Lemma keep_inst : preserves I inst.
Proof. unfold inst. case_match; auto with cti. Qed.

Lemma keep_runSafely {A : Type} (caller : string) (func : M fe A) (onError : A) :
  preserves I func → preserves I (runSafely caller func onError).
Proof.
  intros Hf. unfold runSafely. apply preserves_try_catch; [done|]. intros e.
  apply preserves_bind; [by apply keep_frame|auto with cti].
Qed.

(** The application registry, and the others alike. *)
Lemma from_app_registry (s : fe) (r : registry aptr) :
  I s → reg_ok r → reg_le (f_app_registry s) r →
  (∀ id a, r_list r !! id = Some a → (a < f_next s)%nat) → I (set_app_registry r s).
Proof.
  intros Hs Hr Hle Hids. apply (from_step s0 s); [done..| |].
  - destruct (proj1 Hs). by split.
  - split; cbn; intros; simplify_eq; done.
Qed.

Lemma from_session_registry (s : fe) (r : registry sptr) :
  I s → reg_ok r → reg_le (f_session_registry s) r →
  (∀ id p, r_list r !! id = Some p → (p < f_next s)%nat) → I (set_session_registry r s).
Proof.
  intros Hs Hr Hle Hids. apply (from_step s0 s); [done..| |].
  - destruct (proj1 Hs). by split.
  - split; cbn; intros; simplify_eq; done.
Qed.

Lemma from_manifest_registry (s : fe) (r : registry (sptr * mptr)) :
  I s → reg_ok r → reg_le (f_manifest_registry s) r →
  (∀ id p m, r_list r !! id = Some (p, m) →
    (p < f_next s)%nat ∧ ∀ a w, f_sessions s !! p = Some (a, w) → (m < w_next w)%nat) →
  I (set_manifest_registry r s).
Proof.
  intros Hs Hr Hle Hids. apply (from_step s0 s); [done..| |].
  - destruct (proj1 Hs). by split.
  - split; cbn; intros; simplify_eq; done.
Qed.

(** Looking at a registry at most forgets an identifier. *)
Lemma keep_on_apps {A : Type} (m : (aptr → bool) → M (registry aptr) A) :
  (∀ e r, (m e r).2 = r ∨ ∃ id, (m e r).2 = (reg_erase id r).2) → preserves I (on_apps m).
Proof.
  intros Hm s Hs. unfold on_apps, zoom. specialize (Hm (app_expired s) (f_app_registry s)).
  destruct (m _ _) as [x r]. cbn in Hm |- *. pose proof (proj1 Hs) as Hok.
  destruct Hm as [-> | [id ->]]; apply from_app_registry; try done; try apply Hok.
  - apply reg_erase_ok, Hok.
  - apply reg_erase_le.
  - intros id' a Hl%reg_erase_lookup. by eapply ok_app_ids.
Qed.

Lemma keep_on_sessions {A : Type} (m : (sptr → bool) → M (registry sptr) A) :
  (∀ e r, (m e r).2 = r ∨ ∃ id, (m e r).2 = (reg_erase id r).2) → preserves I (on_sessions m).
Proof.
  intros Hm s Hs. unfold on_sessions, zoom.
  specialize (Hm (session_expired s) (f_session_registry s)).
  destruct (m _ _) as [x r]. cbn in Hm |- *. pose proof (proj1 Hs) as Hok.
  destruct Hm as [-> | [id ->]]; apply from_session_registry; try done; try apply Hok.
  - apply reg_erase_ok, Hok.
  - apply reg_erase_le.
  - intros id' p Hl%reg_erase_lookup. by eapply ok_session_ids.
Qed.

Lemma keep_on_manifests {A : Type} (m : (sptr * mptr → bool) → M (registry (sptr * mptr)) A) :
  (∀ e r, (m e r).2 = r ∨ ∃ id, (m e r).2 = (reg_erase id r).2) → preserves I (on_manifests m).
Proof.
  intros Hm s Hs. unfold on_manifests, zoom.
  specialize (Hm (manifest_expired s) (f_manifest_registry s)).
  destruct (m _ _) as [x r]. cbn in Hm |- *. pose proof (proj1 Hs) as Hok.
  destruct Hm as [-> | [id ->]]; apply from_manifest_registry; try done; try apply Hok.
  - apply reg_erase_ok, Hok.
  - apply reg_erase_le.
  - intros id' p m' Hl%reg_erase_lookup. by eapply ok_manifest_ids.
Qed.

Lemma isValid_looks {T : Type} (id : Z) (e : T → bool) (r : registry T) :
  (reg_isValid e id r).2 = r ∨ ∃ id', (reg_isValid e id r).2 = (reg_erase id' r).2.
Proof. destruct (reg_isValid_run e id r) as (b & r' & -> & _ & [-> | ->]); eauto. Qed.

Lemma get_handle_looks {T : Type} (id : Z) (e : T → bool) (r : registry T) :
  (reg_get_handle e id r).2 = r ∨ ∃ id', (reg_get_handle e id r).2 = (reg_erase id' r).2.
Proof.
  destruct (reg_get_handle_run e id r) as [(wp & _ & _ & ->)|(_ & what & r' & -> & [-> | ->])]; eauto.
Qed.

Lemma keep_getApp (id : Z) : preserves I (getApp id).
Proof. apply keep_on_apps. intros. apply get_handle_looks. Qed.
Lemma keep_validApp (id : Z) : preserves I (validApp id).
Proof. apply keep_on_apps. intros. apply isValid_looks. Qed.
Lemma keep_removeApp (id : Z) : preserves I (removeApp id).
Proof. apply keep_on_apps. eauto. Qed.
Lemma keep_getSession (id : Z) : preserves I (getSession id).
Proof. apply keep_on_sessions. intros. apply get_handle_looks. Qed.
Lemma keep_validSession (id : Z) : preserves I (validSession id).
Proof. apply keep_on_sessions. intros. apply isValid_looks. Qed.
Lemma keep_removeSession (id : Z) : preserves I (removeSession id).
Proof. apply keep_on_sessions. eauto. Qed.
Lemma keep_getManifest (id : Z) : preserves I (getManifest id).
Proof. apply keep_on_manifests. intros. apply get_handle_looks. Qed.
Lemma keep_validManifest (id : Z) : preserves I (validManifest id).
Proof. apply keep_on_manifests. intros. apply isValid_looks. Qed.
Lemma keep_removeManifest (id : Z) : preserves I (iface_removeManifest id).
Proof. apply keep_on_manifests. eauto. Qed.

(** Code of a session. *)
Lemma from_world (s : fe) (p : sptr) (a : aptr) (w w' : world) :
  I s → f_sessions s !! p = Some (a, w) → winv_of ∅ 0 w' → world_le w w' →
  I (set_sessions (<[p := (a, w')]> (f_sessions s)) s).
Proof.
  intros Hs E Hw' Hle. apply (from_step s0 s); [done..| |]; pose proof (proj1 Hs) as Hok.
  - destruct (ok_sessions s Hok p a w E) as (Hp & Ha & _).
    destruct Hok as [? ? ? ? Hses ? ? Hman]. split; cbn; try done.
    + intros q b v [[<- [= <- <-]]|[Hne Hq]]%lookup_insert_Some; [done|by eapply Hses].
    + intros id q m Hid. destruct (Hman id q m Hid) as [Hq Hm]. split; [done|].
      intros b v [[<- [= <- <-]]|[Hne Hq']]%lookup_insert_Some; [|by eapply Hm].
      specialize (Hm a w E). pose proof (wle_next w w' Hle). lia.
  - split; cbn; try done; try (intros; by simplify_eq).
    + intros q _ Hq. rewrite lookup_insert_ne; [done|]. intros <-. congruence.
    + intros q b v b' v' Hq [[<- [= <- <-]]|[Hne Hq']]%lookup_insert_Some; simplify_eq; done.
Qed.

Lemma keep_with_session {A : Type} (p : sptr) (m : App → M world A) :
  (∀ Ap F N, preserves (winv_of F N) (m Ap)) → preserves I (with_session p m).
Proof.
  intros Hm s Hs. unfold with_session. destruct (f_sessions s !! p) as [[a w]|] eqn:E; [|done].
  destruct (ok_sessions s (proj1 Hs) p a w E) as (_ & _ & Hw).
  destruct (world_le_preserves (m (app_with (f_attrs s) (wl_app a))) w
    ltac:(intros; apply Hm) Hw) as [Hw' Hle].
  destruct (m _ w) as [r w'] eqn:Em. by eapply from_world.
Qed.

(** Destroying sessions, and an application with all of its sessions. *)
Lemma from_drop (s : fe) (P : sptr * (aptr * world) → Prop) `{∀ x, Decision (P x)} :
  I s → I (set_sessions (filter P (f_sessions s)) s).
Proof.
  intros Hs. apply (from_step s0 s); [done..| |]; pose proof (proj1 Hs) as Hok.
  - destruct Hok as [? ? ? ? Hses ? ? Hman]. split; cbn; try done.
    + intros p a w [Hp _]%map_lookup_filter_Some. by eapply Hses.
    + intros id p m Hid. destruct (Hman id p m Hid) as [Hp Hm]. split; [done|].
      intros a w [Hq _]%map_lookup_filter_Some. by eapply Hm.
  - split; cbn; try done; try (intros; by simplify_eq).
    + intros p _ Hp. apply map_lookup_filter_None. by left.
    + intros p a w a' w' Hp [Hp' _]%map_lookup_filter_Some. by simplify_eq.
Qed.

Lemma from_drop_app (s : fe) (a : aptr) :
  I s → I (set_sessions (filter (λ q, q.2.1 ≠ a) (f_sessions s)) (set_apps (delete a (f_apps s)) s)).
Proof.
  intros Hs. apply (from_step s0 s); [done..| |]; pose proof (proj1 Hs) as Hok.
  - destruct Hok as [? ? ? Happs Hses ? ? Hman]. split; cbn; try done.
    + intros b [x [_ Hb]%lookup_delete_Some]. apply Happs. by exists x.
    + intros p b w [Hp Hne]%map_lookup_filter_Some. cbn in Hne.
      destruct (Hses p b w Hp) as (? & ? & ?). by rewrite lookup_delete_ne.
    + intros id p m Hid. destruct (Hman id p m Hid) as [Hp Hm]. split; [done|].
      intros b w [Hq _]%map_lookup_filter_Some. by eapply Hm.
  - split; cbn; try done; try (intros; by simplify_eq).
    + intros b _ Hb. apply lookup_delete_None. by right.
    + intros p _ Hp. apply map_lookup_filter_None. by left.
    + intros p b w b' w' Hp [Hp' _]%map_lookup_filter_Some. by simplify_eq.
Qed.

Lemma keep_app_finalize (a : aptr) : preserves I (app_finalize a).
Proof.
  apply preserves_bind; [auto with cti|]. intros s. apply preserves_bind.
  - apply preserves_for_each. intros p _. apply keep_with_session. intros. apply preserves_session_finalize.
  - intros _. apply preserves_modify. intros. by apply from_drop.
Qed.

Lemma keep_fe_removeApp (a : aptr) : preserves I (fe_removeApp a).
Proof.
  apply preserves_bind.
  - apply preserves_try_catch; [apply keep_app_finalize|auto with cti].
  - intros _. apply preserves_modify. intros. by apply from_drop_app.
Qed.

(** Giving out a handle for an object that was made. *)
Lemma from_trackApp (s : fe) (a : aptr) : I s → (a < f_next s)%nat → I (trackApp a s).2.
Proof.
  intros Hs Ha. unfold trackApp, on_apps, zoom. pose proof (proj1 Hs) as Hok.
  pose proof (reg_add_ok a _ (ok_app_reg s Hok)) as Ra.
  pose proof (reg_add_le a _ (ok_app_reg s Hok)) as Rb.
  pose proof (λ wp id, reg_add_lookup a wp id _ (ok_app_reg s Hok)) as Rc.
  destruct (reg_add a _) as [x r]. cbn in *. apply from_app_registry; try done.
  intros id b [->|Hb]%Rc; [done|]. by eapply ok_app_ids.
Qed.

Lemma from_trackSession (s : fe) (p : sptr) : I s → (p < f_next s)%nat → I (trackSession p s).2.
Proof.
  intros Hs Hp. unfold trackSession, on_sessions, zoom. pose proof (proj1 Hs) as Hok.
  pose proof (reg_add_ok p _ (ok_session_reg s Hok)) as Ra.
  pose proof (reg_add_le p _ (ok_session_reg s Hok)) as Rb.
  pose proof (λ wp id, reg_add_lookup p wp id _ (ok_session_reg s Hok)) as Rc.
  destruct (reg_add p _) as [x r]. cbn in *. apply from_session_registry; try done.
  intros id q [->|Hq]%Rc; [done|]. by eapply ok_session_ids.
Qed.

Lemma from_trackManifest (s : fe) (p : sptr) (m : mptr) :
  I s → (p < f_next s)%nat →
  (∀ a w, f_sessions s !! p = Some (a, w) → (m < w_next w)%nat) → I (trackManifest (p, m) s).2.
Proof.
  intros Hs Hp Hm. unfold trackManifest, on_manifests, zoom. pose proof (proj1 Hs) as Hok.
  pose proof (reg_add_ok (p, m) _ (ok_manifest_reg s Hok)) as Ra.
  pose proof (reg_add_le (p, m) _ (ok_manifest_reg s Hok)) as Rb.
  pose proof (λ wp id, reg_add_lookup (p, m) wp id _ (ok_manifest_reg s Hok)) as Rc.
  destruct (reg_add (p, m) _) as [x r]. cbn in *. apply from_manifest_registry; try done.
  intros id q m' [[= -> ->]|Hq]%Rc; [done|]. by eapply ok_manifest_ids.
Qed.

(** Making objects. *)
Lemma from_new_app (s : fe) (d : Z) :
  I s → I (set_apps (<[f_next s := d]> (f_apps s)) (set_fresh (S (f_next s)) s)).
Proof.
  intros Hs. apply (from_step s0 s); [done..| |]; pose proof (proj1 Hs) as Hok.
  - destruct Hok as [? ? ? Happs Hses Hai Hsi Hmi]. split; cbn; try done.
    + intros a [x [[<- _]|[_ Ha]]%lookup_insert_Some]; [lia|].
      specialize (Happs a (mk_is_Some _ _ Ha)). lia.
    + intros p a w Hp. destruct (Hses p a w Hp) as (? & ? & ?). split_and!; [lia| |done].
      destruct (decide (f_next s = a)) as [<-|Hne]; [by rewrite lookup_insert_eq; eexists|].
      by rewrite lookup_insert_ne.
    + intros id a Ha%Hai. lia.
    + intros id p Hp%Hsi. lia.
    + intros id p m' Hp%Hmi. destruct Hp as [? ?]. split; [lia|done].
  - split; cbn; try done; try (intros; by simplify_eq); [lia|].
    intros a Ha Hn. rewrite lookup_insert_ne; [done|lia].
Qed.

Lemma from_new_session (s : fe) (a : aptr) (w : world) :
  I s → is_Some (f_apps s !! a) → winv_of ∅ 0 w →
  I (set_sessions (<[f_next s := (a, w)]> (f_sessions s)) (set_fresh (S (f_next s)) s)).
Proof.
  intros Hs Ha Hw. apply (from_step s0 s); [done..| |]; pose proof (proj1 Hs) as Hok.
  - destruct Hok as [? ? ? Happs Hses Hai Hsi Hmi]. split; cbn; try done.
    + intros b Hb%Happs. lia.
    + intros p b v [[<- [= <- <-]]|[_ Hp]]%lookup_insert_Some; [split_and!; try done; lia|].
      destruct (Hses p b v Hp) as (? & ? & ?). split_and!; try done. lia.
    + intros id b Hb%Hai. lia.
    + intros id p Hp%Hsi. lia.
    + intros id p m' Hp%Hmi. destruct Hp as [? Hm]. split; [lia|].
      intros b v [[<- _]|[_ Hp]]%lookup_insert_Some; [lia|]. by eapply Hm.
  - split; cbn; try done; try (intros; by simplify_eq); [lia| |].
    + intros p Hp Hn. rewrite lookup_insert_ne; [done|lia].
    + intros p b v b' v' Hp [[<- _]|[_ Hp']]%lookup_insert_Some; simplify_eq; [|done].
      destruct (ok_sessions s Hok _ _ _ Hp). lia.
Qed.

Lemma keep_new_app (m : M daemon Z) : preserves I (a ← fe_addApp m; trackApp a).
Proof.
  intros s Hs. unfold fe_addApp. pose proof (keep_daemon m s Hs) as Hd.
  unfold mbind, M_bind, get, modify. destruct (zoom f_daemon set_daemon m s) as [[d|e|e] s1]; try done.
  apply from_trackApp; [exact (from_new_app s1 d Hd)|]. cbn. lia.
Qed.

(** Handles that are found are of objects that are there. *)
Lemma getApp_run (id : Z) (s : fe) :
  (∃ a, getApp id s = (Ok a, s) ∧ is_Some (f_apps s !! a)) ∨
  (∃ what s', getApp id s = (Throw what, s')).
Proof.
  unfold getApp, on_apps, zoom.
  destruct (reg_get_handle_run (app_expired s) id (f_app_registry s))
    as [(a & _ & He & ->)|(_ & what & r & -> & _)]; [left|right; by eauto].
  exists a. split; [by destruct s|]. unfold app_expired in He.
  by apply negb_false_iff, bool_decide_eq_true in He.
Qed.

Lemma keep_new_session (id : Z) :
  preserves I (a ← getApp id; p ← app_createSession a; trackSession p).
Proof.
  intros s Hs. destruct (getApp_run id s) as [(a & E & Ha)|(what & s' & E)].
  - rewrite (bind_run_Ok _ _ _ _ _ E). unfold app_createSession, mbind, M_bind, get, modify.
    apply from_trackSession; [|cbn; lia].
    refine (from_new_session s a _ Hs Ha _). apply winv_new_world.
  - rewrite (bind_run_Throw _ _ _ _ _ E). pose proof (keep_getApp id s Hs) as Hk. by rewrite E in Hk.
Qed.

Lemma getSession_run (id : Z) (s : fe) :
  (∃ p a w, getSession id s = (Ok p, s) ∧ f_sessions s !! p = Some (a, w)) ∨
  (∃ what s', getSession id s = (Throw what, s')).
Proof.
  unfold getSession, on_sessions, zoom.
  destruct (reg_get_handle_run (session_expired s) id (f_session_registry s))
    as [(p & _ & He & ->)|(_ & what & r & -> & _)]; [left|right; by eauto].
  unfold session_expired in He. apply negb_false_iff, bool_decide_eq_true in He as [[a w] Hp].
  exists p, a, w. split; [by destruct s|done].
Qed.

Lemma keep_new_manifest (id : Z) :
  preserves I (p ← getSession id; m ← with_session p (λ A, createManifest); trackManifest (p, m)).
Proof.
  intros s Hs. destruct (getSession_run id s) as [(p & a & w & E & Hp)|(what & s' & E)].
  - rewrite (bind_run_Ok _ _ _ _ _ E). destruct (ok_sessions s (proj1 Hs) p a w Hp) as (Hlt & _ & Hw).
    pose proof (keep_with_session p (λ A, createManifest)
      ltac:(intros; apply preserves_createManifest) s Hs) as Hk.
    destruct (decide (s_manifestCnt (w_session w) = int_max)) as [Hm|Hm].
    { assert (∃ s', with_session p (λ A, createManifest) s = (Undef "signed overflow", s'))
        as [s' Ec] by (unfold with_session; rewrite Hp, createManifest_overflow by done; by eexists).
      rewrite Ec in Hk. by rewrite (bind_run_Undef _ _ _ _ _ Ec). }
    assert (with_session p (λ A, createManifest) s = (Ok (w_next w),
      set_sessions (<[p := (a, (createManifest w).2)]> (f_sessions s)) s)) as Ec.
    { unfold with_session. rewrite Hp. rewrite createManifest_run; [done..|].
      by eapply winv_next_fresh. }
    rewrite Ec in Hk. rewrite (bind_run_Ok _ _ _ _ _ Ec).
    apply from_trackManifest; [exact Hk|done|]. cbn. rewrite lookup_insert_eq.
    intros a' w' [= <- <-]. rewrite createManifest_run; [cbn; lia|done|by eapply winv_next_fresh].
  - rewrite (bind_run_Throw _ _ _ _ _ E). pose proof (keep_getSession id s Hs) as Hk. by rewrite E in Hk.
Qed.

Lemma preserves_getSessionLockFiles `{App} (F : gset mptr) (N : nat) :
  preserves (winv_of F N) getSessionLockFiles.
Proof.
  unfold getSessionLockFiles. apply preserves_bind; [apply preserves_getOwningApp|intros _].
  apply preserves_bind; [apply preserves_get_session|auto with cti].
Qed.
End Handles.

(** ** Calls of a client *)

Section Calls.
Context `{Kernel} `{ReqSocket} `{Procs} `{MPIR} `{Host} `{Tar} `{!Wlm}.

(** Every entry point, with its arguments. *)
Inductive api : Type :=
| CurrentWlm | GetHostname | OpenOps (given : bool)
| GetNumAppPEs (id : Z) | GetNumAppNodes (id : Z) | GetAppHostsList (id : Z)
| GetAppHostsPlacement (id : Z) | GetAppBinaryList (id : Z) | GetLauncherHostName (id : Z)
| AppIsValid (id : Z) | DeregisterApp_ (id : Z) | ReleaseApp_ (id : Z)
| LaunchApp (args : list string) (out err : Z) (input dir : option string)
    (env : option (list string))
| LaunchAppBarrier (args : list string) (out err : Z) (input dir : option string)
    (env : option (list string))
| LaunchApp_fd (args : list string) (out err input : Z) (dir : option string)
    (env : option (list string))
| LaunchAppBarrier_fd (args : list string) (out err input : Z) (dir : option string)
    (env : option (list string))
| RegisterJob (caller : string) (wanted : Z) (job : wl_job)
| RegisterJobWait (fuel : nat) (caller : string) (wanted : Z) (job : wl_job) (timeout : Z)
| ReleaseAppBarrier (id : Z) | KillApp (id signum : Z)
| CreateSession (id : Z) | DestroySession (id : Z) | SessionIsValid (id : Z)
| GetSessionLockFiles (id : Z) | SessionPath (caller : string) (id : Z) (str : string)
| CreateManifest_ (id : Z) | ManifestIsValid (id : Z)
| AddManifestBinary (id : Z) (name : string) | AddManifestLibrary (id : Z) (name : string)
| AddManifestLibDir (id : Z) (name : string) | AddManifestFile (id : Z) (name : string)
| SendManifest_ (id : Z)
| ExecToolDaemon (id : Z) (path : string) (args env : option (list string))
| SetAttribute (attrib : attr_type) (value : option string) | GetAttribute (attrib : attr_type)
| ContainsSymbols (path : string) (symbols : list string) (query : symbol_query).

Definition ignore_result {A : Type} (m : M fe A) : M fe () := m;; mret tt.

Definition run_api (c : api) : M fe () :=
  match c with
  | CurrentWlm => ignore_result cti_current_wlm
  | GetHostname => ignore_result cti_getHostname
  | OpenOps g => ignore_result (cti_open_ops g)
  | GetNumAppPEs id => ignore_result (cti_getNumAppPEs id)
  | GetNumAppNodes id => ignore_result (cti_getNumAppNodes id)
  | GetAppHostsList id => ignore_result (cti_getAppHostsList id)
  | GetAppHostsPlacement id => ignore_result (cti_getAppHostsPlacement id)
  | GetAppBinaryList id => ignore_result (cti_getAppBinaryList id)
  | GetLauncherHostName id => ignore_result (cti_getLauncherHostName id)
  | AppIsValid id => ignore_result (cti_appIsValid id)
  | DeregisterApp_ id => cti_deregisterApp id
  | ReleaseApp_ id => ignore_result (cti_releaseApp id)
  | LaunchApp a o e i d v => ignore_result (cti_launchApp a o e i d v)
  | LaunchAppBarrier a o e i d v => ignore_result (cti_launchAppBarrier a o e i d v)
  | LaunchApp_fd a o e i d v => ignore_result (cti_launchApp_fd a o e i d v)
  | LaunchAppBarrier_fd a o e i d v => ignore_result (cti_launchAppBarrier_fd a o e i d v)
  | RegisterJob c w j => ignore_result (register_op c w j)
  | RegisterJobWait f c w j t => ignore_result (register_op_wait f c w j t)
  | ReleaseAppBarrier id => ignore_result (cti_releaseAppBarrier id)
  | KillApp id n => ignore_result (cti_killApp id n)
  | CreateSession id => ignore_result (cti_createSession id)
  | DestroySession id => ignore_result (cti_destroySession id)
  | SessionIsValid id => ignore_result (cti_sessionIsValid id)
  | GetSessionLockFiles id => ignore_result (cti_getSessionLockFiles id)
  | SessionPath c id str => ignore_result (sessionPathAppend c id str)
  | CreateManifest_ id => ignore_result (cti_createManifest id)
  | ManifestIsValid id => ignore_result (cti_manifestIsValid id)
  | AddManifestBinary id n => ignore_result (cti_addManifestBinary id n)
  | AddManifestLibrary id n => ignore_result (cti_addManifestLibrary id n)
  | AddManifestLibDir id n => ignore_result (cti_addManifestLibDir id n)
  | AddManifestFile id n => ignore_result (cti_addManifestFile id n)
  | SendManifest_ id => ignore_result (cti_sendManifest id)
  | ExecToolDaemon id p a e => ignore_result (cti_execToolDaemon id p a e)
  | SetAttribute a v => ignore_result (cti_setAttribute a v)
  | GetAttribute a => ignore_result (cti_getAttribute a)
  | ContainsSymbols p l q => ignore_result (cti_containsSymbols p l q)
  end.

(** One call, or a change of the daemon. *)
Inductive api_step : fe → fe → Prop :=
| step_api c s : api_step s (run_api c s).2
| step_daemon d s : api_step s (set_daemon d s).
End Calls.

Section Reachable.
Context `{Kernel} `{ReqSocket} `{Procs} `{MPIR} `{Host} `{Tar} `{!Wlm}.

#[local] Hint Resolve keep_inst keep_daemon keep_getApp keep_validApp keep_removeApp keep_getSession
  keep_validSession keep_removeSession keep_getManifest keep_validManifest keep_removeManifest
  keep_fe_removeApp : cti.

Lemma keep_event (s0 : fe) (Hs0 : iface_ok s0) (e : api_event) :
  preserves (from s0) (modify (push_api e)).
Proof. by apply keep_frame. Qed.

Lemma keep_downcastFE (s0 : fe) (Hs0 : iface_ok s0) (w : Z) : preserves (from s0) (downcastFE w).
Proof. unfold downcastFE. preserve. Qed.

Lemma keep_register_op (s0 : fe) (Hs0 : iface_ok s0) (c : string) (w : Z) (j : wl_job) :
  preserves (from s0) (register_op c w j).
Proof.
  apply keep_runSafely; [done|]. apply preserves_bind; [by apply keep_downcastFE|].
  intros _. by apply keep_new_app.
Qed.

Lemma keep_wait_loop (s0 : fe) (Hs0 : iface_ok s0) (m : M fe Z) (fuel : nat) (t e : Z) :
  preserves (from s0) m → preserves (from s0) (wait_loop fuel t e m).
Proof.
  intros Hm. revert e. induction fuel as [|fuel IH]; intros e; cbn [wait_loop];
    (apply preserves_bind; [done|intros id]; case_match; [auto with cti|]);
    (apply preserves_bind; [by apply keep_event|intros _]; case_match; auto with cti).
Qed.

Lemma keep_launch (s0 : fe) (Hs0 : iface_ok s0) b a o e i d v :
  preserves (from s0) (launch_body b a o e i d v).
Proof.
  unfold launch_body. apply preserves_bind; [auto with cti|intros l].
  apply preserves_bind; [auto with cti|intros _]. by apply keep_new_app.
Qed.

Lemma keep_on_manifest (s0 : fe) (Hs0 : iface_ok s0) caller mid m finish :
  (∀ at' p Ap F N, preserves (winv_of F N) (m at' p Ap)) → preserves (from s0) finish →
  preserves (from s0) (on_manifest caller mid m finish).
Proof.
  intros Hm Hf. apply keep_runSafely; [done|]. preserve. by apply keep_with_session.
Qed.

Lemma keep_app_query (s0 : fe) (Hs0 : iface_ok s0) {A B : Type} caller id (f : aptr → res A)
    (g : A → res B) onError : preserves (from s0) (app_query caller id f g onError).
Proof. apply keep_runSafely; [done|]. preserve. Qed.

Lemma keep_set_attrs (s0 : fe) (Hs0 : iface_ok s0) (a : attributes) :
  preserves (from s0) (modify (set_attrs a)).
Proof. by apply keep_frame. Qed.

Lemma keep_app_removeSession (s0 : fe) (Hs0 : iface_ok s0) (p : sptr) :
  preserves (from s0) (app_removeSession p).
Proof.
  apply preserves_bind.
  - apply keep_with_session; [done|]. intros. apply preserves_session_finalize.
  - intros _. apply preserves_modify. intros s Hs.
    assert (delete p (f_sessions s) = filter (λ q, q.1 ≠ p) (f_sessions s)) as ->; [|by apply from_drop].
    apply map_eq. intros q. apply option_eq. intros x.
    rewrite map_lookup_filter_Some, lookup_delete_Some. cbn. naive_solver.
Qed.

#[local] Hint Resolve keep_event keep_set_attrs keep_app_removeSession : cti.

Lemma keep_api (s0 : fe) (Hs0 : iface_ok s0) (c : api) : preserves (from s0) (run_api c).
Proof.
  destruct c; cbn [run_api]; unfold ignore_result, cti_deregisterApp;
    try (apply preserves_bind; [|auto with cti]);
    try (by apply keep_app_query); try (by apply keep_register_op);
    try (by apply keep_wait_loop, keep_register_op);
    try (apply keep_on_manifest; [done| |preserve]; intros;
         first [ apply preserves_addBinary | apply preserves_addLibrary | apply preserves_addLibDir
               | apply preserves_addFile | apply preserves_sendManifest
               | apply preserves_execManifest ]);
    try (apply keep_runSafely; [done|]).
  all: try (by preserve).
  all: try (apply preserves_bind; [by apply keep_inst|intros _];
            first [by apply keep_launch|by apply keep_new_session|by apply keep_new_manifest]).
  all: preserve; apply keep_with_session; try done; intros.
  - apply preserves_getSessionLockFiles.
  - auto with cti.
Qed.

Lemma new_fe_ok (d : daemon) : iface_ok (new_fe d).
Proof.
  split; cbn; try (apply reg_ok_new); intros; rewrite ?lookup_empty in *; try done.
Qed.

Lemma api_from_step (s0 s s' : fe) :
  iface_ok s0 → from s0 s → rtc api_step s s' → from s0 s'.
Proof.
  intros Hok Hs Hr. revert Hs. induction Hr as [|s s1 s' Hstep _ IH]; [done|].
  intros Hs. apply IH. destruct Hstep as [c s|d s].
  - by apply keep_api.
  - by apply (from_frame s0 Hok s).
Qed.

Lemma api_from (s s' : fe) : iface_ok s → rtc api_step s s' → from s s'.
Proof. intros Hs. apply api_from_step; [done|]. split; [done|apply iface_le_refl]. Qed.

(** ** Handles *)

Definition app_live (id : Z) (s : fe) : Prop := reg_live (app_expired s) id (f_app_registry s).
Definition session_live (id : Z) (s : fe) : Prop :=
  reg_live (session_expired s) id (f_session_registry s).
Definition manifest_live (id : Z) (s : fe) : Prop :=
  reg_live (manifest_expired s) id (f_manifest_registry s).

Lemma app_stays_dead (s s' : fe) (id : Z) :
  iface_ok s → from s s' → id ≤ r_id (f_app_registry s) → ¬ app_live id s → ¬ app_live id s'.
Proof.
  intros Hok [_ Hle] Hid Hd. eapply reg_dead_stays; [apply Hle| |exact Hid|exact Hd].
  intros a Ha. unfold app_expired. rewrite !negb_true_iff, !bool_decide_eq_false.
  rewrite <-!eq_None_not_Some. apply (fle_apps s s' Hle). by eapply ok_app_ids.
Qed.

Lemma session_stays_dead (s s' : fe) (id : Z) :
  iface_ok s → from s s' → id ≤ r_id (f_session_registry s) → ¬ session_live id s →
  ¬ session_live id s'.
Proof.
  intros Hok [_ Hle] Hid Hd. eapply reg_dead_stays; [apply Hle| |exact Hid|exact Hd].
  intros p Hp. unfold session_expired. rewrite !negb_true_iff, !bool_decide_eq_false.
  rewrite <-!eq_None_not_Some. apply (fle_sessions s s' Hle). by eapply ok_session_ids.
Qed.

Lemma manifest_stays_dead (s s' : fe) (id : Z) :
  iface_ok s → from s s' → id ≤ r_id (f_manifest_registry s) → ¬ manifest_live id s →
  ¬ manifest_live id s'.
Proof.
  intros Hok [_ Hle] Hid Hd. eapply reg_dead_stays; [apply Hle| |exact Hid|exact Hd].
  intros [p m] Hpm. destruct (ok_manifest_ids s Hok id p m Hpm) as [Hp Hm].
  unfold manifest_expired. cbn. destruct (f_sessions s !! p) as [[a w]|] eqn:E.
  - rewrite negb_true_iff, bool_decide_eq_false. intros Hx.
    destruct (f_sessions s' !! p) as [[a' w']|] eqn:E'; [|done].
    rewrite negb_true_iff, bool_decide_eq_false.
    destruct (fle_worlds s s' Hle _ _ _ _ _ E E') as [_ Hw]. apply (wle_dead w w' Hw); [by eapply Hm|done].
  - intros _. by rewrite (fle_sessions s s' Hle p Hp E).
Qed.

Lemma manifest_dead_invalid (s : fe) (id : Z) :
  ¬ manifest_live id s → (cti_manifestIsValid id s).1 = Ok false.
Proof.
  intros Hd. unfold cti_manifestIsValid, runSafely, try_catch, inst, mbind, M_bind.
  destruct wl_inst; [done|]. cbn. unfold validManifest, on_manifests, zoom.
  destruct (reg_isValid_run (manifest_expired s) id (f_manifest_registry s)) as (b & r & -> & Hb & _).
  cbn. destruct b; [|done]. by destruct Hd; apply Hb.
Qed.

Lemma session_dead_invalid (s : fe) (id : Z) :
  ¬ session_live id s → (cti_sessionIsValid id s).1 = Ok false.
Proof.
  intros Hd. unfold cti_sessionIsValid, runSafely, try_catch, inst, mbind, M_bind.
  destruct wl_inst; [done|]. cbn. unfold validSession, on_sessions, zoom.
  destruct (reg_isValid_run (session_expired s) id (f_session_registry s)) as (b & r & -> & Hb & _).
  cbn. destruct b; [|done]. by destruct Hd; apply Hb.
Qed.

Lemma app_dead_invalid (s : fe) (id : Z) :
  ¬ app_live id s → (cti_appIsValid id s).1 = Ok false.
Proof.
  intros Hd. unfold cti_appIsValid, runSafely, try_catch, inst, mbind, M_bind.
  destruct wl_inst; [done|]. cbn. unfold validApp, on_apps, zoom.
  destruct (reg_isValid_run (app_expired s) id (f_app_registry s)) as (b & r & -> & Hb & _).
  cbn. destruct b; [|done]. by destruct Hd; apply Hb.
Qed.

Lemma manifest_invalid_dead (s : fe) (id : Z) :
  wl_inst = None → (cti_manifestIsValid id s).1 = Ok false → ¬ manifest_live id s.
Proof.
  intros Hi. unfold cti_manifestIsValid, runSafely, try_catch, inst, mbind, M_bind.
  rewrite Hi. cbn. unfold validManifest, on_manifests, zoom.
  destruct (reg_isValid_run (manifest_expired s) id (f_manifest_registry s)) as (b & r & -> & Hb & _).
  cbn. intros [= ->] Hl%Hb. discriminate.
Qed.

Lemma session_invalid_dead (s : fe) (id : Z) :
  wl_inst = None → (cti_sessionIsValid id s).1 = Ok false → ¬ session_live id s.
Proof.
  intros Hi. unfold cti_sessionIsValid, runSafely, try_catch, inst, mbind, M_bind.
  rewrite Hi. cbn. unfold validSession, on_sessions, zoom.
  destruct (reg_isValid_run (session_expired s) id (f_session_registry s)) as (b & r & -> & Hb & _).
  cbn. intros [= ->] Hl%Hb. discriminate.
Qed.

Lemma iface_reachable (d : daemon) (s : fe) : rtc api_step (new_fe d) s → iface_ok s.
Proof. intros Hr. by apply (api_from (new_fe d)); [apply new_fe_ok|]. Qed.

(** The objects behind the C interface.  Whatever entry points a client calls, with
    whatever arguments, and whatever the daemon does, applications, sessions and
    manifests form a tree, every session is in a state of the transfer layer, and
    every handle is of an object that was made. *)
Theorem iface_invariant (d : daemon) (s : fe) : rtc api_step (new_fe d) s → iface_ok s.
Proof. apply iface_reachable. Qed.

(** A handle that was given out and has become invalid never becomes valid again,
    whatever calls follow: no handle is ever reused for another session or
    manifest. *)
Theorem invalid_handle_stays (d : daemon) (s s' : fe) (id : Z) :
  wl_inst = None → rtc api_step (new_fe d) s → rtc api_step s s' →
  (id ≤ r_id (f_manifest_registry s) → (cti_manifestIsValid id s).1 = Ok false →
    (cti_manifestIsValid id s').1 = Ok false) ∧
  (id ≤ r_id (f_session_registry s) → (cti_sessionIsValid id s).1 = Ok false →
    (cti_sessionIsValid id s').1 = Ok false).
Proof.
  intros Hi Hr Hr'. pose proof (iface_reachable d s Hr) as Hok.
  pose proof (api_from s s' Hok Hr') as Hf. split; intros Hid Hv.
  - apply manifest_dead_invalid. eapply manifest_stays_dead; [done..|]. by apply manifest_invalid_dead.
  - apply session_dead_invalid. eapply session_stays_dead; [done..|]. by apply session_invalid_dead.
Qed.

(** Removing an application removes its sessions, whatever their cleanup does. *)
Lemma fe_removeApp_drops (s s1 : fe) (a : aptr) :
  iface_ok s → fe_removeApp a s = (Ok tt, s1) →
  f_apps s1 !! a = None ∧ ∀ p w, f_sessions s !! p = Some (a, w) → f_sessions s1 !! p = None.
Proof.
  intros Hok E. unfold fe_removeApp in E. apply bind_Ok in E as ([] & s2 & E2 & E).
  assert (from s s2) as [_ Hle].
  { eapply (preserves_Ok (from s)); [|exact E2|split; [done|apply iface_le_refl]].
    apply preserves_try_catch; [by apply keep_app_finalize|auto with cti]. }
  injection E as <-. cbn. split; [by rewrite lookup_delete_eq|].
  intros p w Hp. apply map_lookup_filter_None. destruct (f_sessions s2 !! p) as [[a' w']|] eqn:E';
    [right|by left].
  intros x [= <-]. cbn. destruct (fle_worlds s s2 Hle _ _ _ _ _ Hp E') as [-> _]. by intros ?.
Qed.

Lemma runSafely_Ok {A : Type} (caller : string) (func : M fe A) (onError x : A) (s s' : fe) :
  runSafely caller func onError s = (Ok x, s') →
  func s = (Ok x, s') ∨
  (∃ what s1, func s = (Throw what, s1) ∧ x = onError ∧ s' = set_err_str (caller +:+ ": " +:+ c_str what) s1).
Proof.
  unfold runSafely, try_catch. destruct (func s) as [[y|what|why] s1]; cbn; [by left| |done].
  intros [= <- <-]. right. by exists what, s1.
Qed.

(** An erased identifier is dead for good. *)
Lemma erased_dead {T : Type} (e : T → bool) (id : Z) (r r' : registry T) :
  id ≤ r_id r → reg_le (reg_erase id r).2 r' → ¬ reg_live e id r'.
Proof.
  intros Hid [_ Hl] (wp & [Hw|Hw]%Hl & _).
  - cbn in Hw. by rewrite lookup_delete_eq in Hw.
  - cbn in Hw. lia.
Qed.

Lemma fe_removeApp_no_throw (a : aptr) (s s1 : fe) (what : string) :
  fe_removeApp a s ≠ (Throw what, s1).
Proof.
  unfold fe_removeApp, try_catch, mbind, M_bind. by destruct (app_finalize a s) as [[[]|e|e] s2].
Qed.

Lemma cti_deregister_run (s s1 : fe) (id : Z) (a : aptr) :
  wl_inst = None → r_list (f_app_registry s) !! id = Some a → is_Some (f_apps s !! a) →
  cti_deregisterApp id s = (Ok tt, s1) →
  ∃ s2, fe_removeApp a s = (Ok tt, s2) ∧ s1 = (removeApp id s2).2.
Proof.
  intros Hi Hid Ha E. apply bind_Ok in E as (b & s3 & E & [= <-]).
  assert (getApp id s = (Ok a, s)) as Eg.
  { unfold getApp, on_apps, zoom, reg_get_handle, mbind, M_bind, get. rewrite Hid.
    unfold app_expired. rewrite bool_decide_true by done. by destruct s. }
  apply runSafely_Ok in E. unfold inst in E. rewrite Hi in E.
  rewrite (bind_run_Ok _ _ _ _ _ (eq_refl : (mret tt : M fe ()) s = (Ok tt, s))) in E.
  rewrite (bind_run_Ok _ _ _ _ _ Eg) in E.
  destruct (fe_removeApp a s) as [[[]|e|e] s2] eqn:E2.
  - rewrite (bind_run_Ok _ _ _ _ _ E2) in E.
    exists s2. split; [done|].
    destruct E as [E|(what & s4 & E & _)]; [|discriminate E].
    by injection E as _ <-.
  - by apply fe_removeApp_no_throw in E2.
  - rewrite (bind_run_Undef _ _ _ _ _ E2) in E. by destruct E as [|(? & ? & ? & _)].
Qed.

(** C23 Deregistering an application invalidates everything below it.  When
    [cti_deregisterApp] has returned for a valid application, then from then on its
    handle, the handles of its sessions and those of their manifests are invalid,
    whether or not cleaning up on the compute nodes failed. *)
Theorem deregister_invalidates (d : daemon) (s s1 s' : fe) (id : Z) (a : aptr) :
  wl_inst = None → rtc api_step (new_fe d) s →
  r_list (f_app_registry s) !! id = Some a → is_Some (f_apps s !! a) →
  cti_deregisterApp id s = (Ok tt, s1) → rtc api_step s1 s' →
  (cti_appIsValid id s').1 = Ok false ∧
  (∀ sid p w, r_list (f_session_registry s) !! sid = Some p → f_sessions s !! p = Some (a, w) →
    (cti_sessionIsValid sid s').1 = Ok false ∧
    ∀ mid m, r_list (f_manifest_registry s) !! mid = Some (p, m) →
      (cti_manifestIsValid mid s').1 = Ok false).
Proof.
  intros Hi Hr Hid Ha E Hr'. pose proof (iface_reachable d s Hr) as Hok.
  destruct (cti_deregister_run s s1 id a Hi Hid Ha E) as (s2 & E2 & ->).
  destruct (fe_removeApp_drops s s2 a Hok E2) as [_ Hdrop].
  assert (from s s2) as Hf2 by (eapply preserves_Ok;
    [apply keep_fe_removeApp|exact E2|split; [done|apply iface_le_refl]]; done).
  assert (from s2 (removeApp id s2).2) as Hf3 by (apply keep_removeApp; [apply Hf2|];
    split; [apply Hf2|apply iface_le_refl]).
  pose proof (api_from _ s' (proj1 Hf3) Hr') as Hf'.
  pose proof (iface_le_trans _ _ _ (proj1 Hf2) (proj2 Hf3) (proj2 Hf')) as Hle2.
  pose proof (iface_le_trans _ _ _ Hok (proj2 Hf2) Hle2) as Hle.
  split.
  - apply app_dead_invalid. eapply erased_dead; [|exact (fle_app_reg _ _ (proj2 Hf'))].
    transitivity (r_id (f_app_registry s)); [by eapply (ok_app_reg s Hok); eexists|].
    apply (fle_app_reg _ _ (proj2 Hf2)).
  - intros sid p w Hsid Hp. pose proof (ok_session_ids s Hok _ _ Hsid) as Hpn.
    assert (f_sessions s' !! p = None) as Hnone.
    { apply (fle_sessions _ _ Hle2); [|by eapply Hdrop]. pose proof (fle_next _ _ (proj2 Hf2)). lia. }
    split; [|intros mid m Hmid].
    + apply session_dead_invalid. intros (q & [Hq|Hq]%(fle_session_reg _ _ Hle) & He).
      * simplify_eq. unfold session_expired in He. rewrite Hnone in He. discriminate He.
      * pose proof (proj2 (ok_session_reg s Hok) sid (mk_is_Some _ _ Hsid)). lia.
    + apply manifest_dead_invalid. intros (q & [Hq|Hq]%(fle_manifest_reg _ _ Hle) & He).
      * simplify_eq. unfold manifest_expired in He. cbn in He. by rewrite Hnone in He.
      * pose proof (proj2 (ok_manifest_reg s Hok) mid (mk_is_Some _ _ Hmid)). lia.
Qed.

(** A send that succeeded found the handle and erased it. *)
Lemma send_run (s s1 : fe) (mid : Z) :
  iface_ok s → cti_sendManifest mid s = (Ok SUCCESS, s1) →
  ∃ s2, from s s2 ∧ mid ≤ r_id (f_manifest_registry s) ∧ s1 = (iface_removeManifest mid s2).2.
Proof.
  intros Hok E. apply runSafely_Ok in E as [E|(? & ? & _ & ? & _)]; [|done].
  apply bind_Ok in E as ([] & sa & Ea & E). apply bind_Ok in E as (sb & sc & [= <- <-] & E).
  apply bind_Ok in E as (pm & sd & Ed & E). apply bind_Ok in E as ([] & se & Ee & E).
  apply bind_Ok in E as ([] & sf & Ef & [= <-]).
  assert (from s s) as Hss by (split; [done|apply iface_le_refl]).
  assert (from s sa) as Ha by (eapply preserves_Ok; [by apply keep_inst|exact Ea|done]).
  assert (from s sd) as Hd by (eapply preserves_Ok; [by apply keep_getManifest|exact Ed|done]).
  assert (from s se) as He.
  { eapply preserves_Ok; [|exact Ee|exact Hd]. apply keep_with_session; [done|].
    intros. apply preserves_sendManifest. }
  exists se. split_and!; [done| |by rewrite Ef].
  assert (sa = s) as -> by (unfold inst in Ea; destruct wl_inst; [discriminate Ea|by injection Ea]).
  unfold getManifest, on_manifests, zoom in Ed.
  destruct (reg_get_handle_run (manifest_expired s) mid (f_manifest_registry s))
    as [(wp & Hl & _ & _)|(_ & what & r & Er & _)]; [|by rewrite Er in Ed].
  apply (proj2 (ok_manifest_reg s Hok)). by eexists.
Qed.

(** Code on a manifest with a dead handle. *)
Lemma on_manifest_dead caller mid m finish (s : fe) :
  ¬ manifest_live mid s → (on_manifest caller mid m finish s).1 = Ok FAILURE.
Proof.
  intros Hd. unfold on_manifest, runSafely, try_catch, inst, mbind, M_bind.
  destruct wl_inst; [done|]. cbn. unfold getManifest, on_manifests, zoom.
  destruct (reg_get_handle_run (manifest_expired s) mid (f_manifest_registry s))
    as [(wp & Hl & He & _)|(_ & what & r & -> & _)]; [|done].
  destruct Hd. by exists wp.
Qed.

(** A manifest handle is used up by sending it: when [cti_sendManifest] has
    reported success, the handle is invalid from then on, and sending it again or
    starting a daemon from it reports failure. *)
Theorem send_uses_up_handle (d : daemon) (s s1 s' : fe) (mid : Z) :
  rtc api_step (new_fe d) s → cti_sendManifest mid s = (Ok SUCCESS, s1) → rtc api_step s1 s' →
  (cti_manifestIsValid mid s').1 = Ok false ∧ (cti_sendManifest mid s').1 = Ok FAILURE ∧
  ∀ path args env, (cti_execToolDaemon mid path args env s').1 = Ok FAILURE.
Proof.
  intros Hr E Hr'. pose proof (iface_reachable d s Hr) as Hok.
  destruct (send_run s s1 mid Hok E) as (s2 & Hf2 & Hid & ->).
  assert (from s2 (iface_removeManifest mid s2).2) as Hf3 by (apply keep_removeManifest;
    [apply Hf2|]; split; [apply Hf2|apply iface_le_refl]).
  pose proof (api_from _ s' (proj1 Hf3) Hr') as Hf'.
  assert (¬ manifest_live mid s') as Hd.
  { eapply erased_dead; [|exact (fle_manifest_reg _ _ (proj2 Hf'))].
    pose proof (le_id _ _ (fle_manifest_reg _ _ (proj2 Hf2))). lia. }
  split_and!; [by apply manifest_dead_invalid|by apply on_manifest_dead|].
  intros. by apply on_manifest_dead.
Qed.

(** What does not throw. *)
Definition quiet_api {A : Type} (m : M fe A) : Prop := ∀ s what s', m s ≠ (Throw what, s').

Lemma quiet_runSafely {A : Type} (caller : string) (func : M fe A) (onError : A) :
  quiet_api (runSafely caller func onError).
Proof. intros s what s'. unfold runSafely, try_catch. by destruct (func s) as [[?|?|?] ?]. Qed.

Lemma quiet_ignore {A : Type} (m : M fe A) : quiet_api m → quiet_api (ignore_result m).
Proof.
  intros Hm s what s'. specialize (Hm s). unfold ignore_result, mbind, M_bind.
  destruct (m s) as [[?|?|?] ?]; [done| |done]. by edestruct Hm.
Qed.

Lemma quiet_wait_loop (m : M fe Z) (fuel : nat) (t e : Z) :
  quiet_api m → quiet_api (wait_loop fuel t e m).
Proof.
  intros Hm. revert e. induction fuel as [|fuel IH]; intros e s what s'; cbn [wait_loop];
    unfold mbind, M_bind; pose proof (Hm s) as Hs; destruct (m s) as [[id|w|w] s1];
    try (by destruct (Hs w s1)); try done; destruct (negb _); try done; cbn; destruct (_ || _); try done.
  apply IH.
Qed.

(** No exception leaves the C interface: every entry point returns, unless it runs
    into undefined behaviour. *)
Theorem api_never_throws (c : api) (s : fe) :
  (run_api c s).1 = Ok tt ∨ ∃ why, (run_api c s).1 = Undef why.
Proof.
  assert (quiet_api (run_api c)) as Hq.
  { destruct c; cbn [run_api]; refine (quiet_ignore _ _);
      first [exact (quiet_runSafely _ _ _)|exact (quiet_wait_loop _ _ _ _ (quiet_runSafely _ _ _))]. }
  specialize (Hq s). destruct (run_api c s) as [[[]|what|why] s']; [by left| |right; by exists why].
  by destruct (Hq what s').
Qed.
End Reachable.
