(* ===== verification/IfaceFuncs.v ===== *)
(** * The C interface: what entry points compute

    Error messages in C buffers, attributes, the environment of launches, the binaries
    of an application, waiting for a job, and the search for symbols. *)

From S2P Require Import Prelude Split Argv Host Archive Manifest Session Wire Launch Daemon Handlers FEIface Registry Iface IfaceProofs.

(** ** Messages in buffers *)

(** The first [n] characters of a C string *)
Definition cut (n : nat) (s : string) : string :=
  string_of_list_ascii (take n (list_ascii_of_string (c_str s))).

Lemma read_cstr_nul (l rest : list ascii) :
  Forall (λ c, c ≠ "000"%char) l →
  read_cstr (l ++ "000"%char :: rest) = Ok (string_of_list_ascii l).
Proof.
  induction 1 as [|c l Hc _ IH]; [done|]. cbn [app read_cstr]. rewrite decide_False by done.
  unfold mbind, res_bind. by rewrite IH.
Qed.

Lemma c_str_chars (s : string) : Forall (λ c, c ≠ "000"%char) (list_ascii_of_string (c_str s)).
Proof.
  pose proof (c_str_nul_free s) as Hs. induction (c_str s) as [|c t IH]; [constructor|].
  apply andb_true_iff in Hs as [Hc%bool_decide_eq_true Ht]. constructor; [done|by apply IH].
Qed.

Lemma take_strncpy (s : string) (k n : nat) (buf : list ascii) :
  (k ≤ n)%nat →
  take k (strncpy s n buf) = take k (list_ascii_of_string (c_str s) ++ replicate n "000"%char).
Proof.
  intros Hk. unfold strncpy. rewrite take_app_le.
  - by rewrite take_take, Nat.min_l.
  - rewrite length_take, length_app, length_replicate. lia.
Qed.

Lemma length_strncpy (s : string) (n : nat) (buf : list ascii) :
  (n ≤ length buf)%nat → length (strncpy s n buf) = length buf.
Proof.
  intros Hn. unfold strncpy.
  rewrite length_app, length_take, length_app, length_replicate, length_drop. lia.
Qed.

(** Copying at least [k] bytes and ending the text at [k]. *)
Lemma strncpy_store (s : string) (k n : nat) (buf : list ascii) :
  (k ≤ n ≤ length buf)%nat → (k < length buf)%nat →
  ∃ buf', store k "000"%char (strncpy s n buf) = Ok buf' ∧ length buf' = length buf ∧
    read_cstr buf' = Ok (cut k s) ∧ drop (S (Nat.max k (n - 1))) buf' = drop (S (Nat.max k (n - 1))) buf.
Proof.
  intros Hk Hl. unfold store. rewrite length_strncpy by lia.
  destruct (Nat.ltb_spec k (length buf)); [|lia].
  eexists. split; [done|]. rewrite length_insert, length_strncpy by lia. split; [done|].
  split.
  - rewrite insert_take_drop by (rewrite length_strncpy; lia).
    rewrite take_strncpy by lia. set (l := list_ascii_of_string (c_str s)).
    pose proof (c_str_chars s) as Hnul. fold l in Hnul. unfold cut. fold l.
    destruct (decide (k ≤ length l)%nat) as [Hkl|Hkl].
    + rewrite take_app_le by done. rewrite read_cstr_nul; [done|]. by apply Forall_take.
    + rewrite take_app_ge by lia. rewrite (take_ge l) by lia. rewrite <-app_assoc.
      rewrite take_replicate, Nat.min_l by lia.
      replace (k - length l)%nat with (S (k - length l - 1)) by lia. cbn [replicate app].
      by apply read_cstr_nul.
  - rewrite drop_insert_lt by lia. unfold strncpy.
    rewrite drop_app_ge by (rewrite length_take, length_app, length_replicate; lia).
    rewrite drop_drop. f_equal. rewrite length_take, length_app, length_replicate. lia.
Qed.

Lemma cti_error_str_run (m : string) : cti_error_str m = Ok (cut 1023 m).
Proof.
  unfold cti_error_str, get_error_str.
  destruct (strncpy_store m 1023 1024 (replicate CTI_ERR_STR_SIZE "000"%char)) as (buf & E & _ & Hr & _).
  { rewrite length_replicate. unfold CTI_ERR_STR_SIZE. lia. }
  { rewrite length_replicate. unfold CTI_ERR_STR_SIZE. lia. }
  unfold CTI_ERR_STR_SIZE in *. cbn [Nat.sub] in *. unfold mbind, res_bind. by rewrite E.
Qed.

Lemma c_str_chars_id (l : list ascii) :
  Forall (λ c, c ≠ "000"%char) l → c_str (string_of_list_ascii l) = string_of_list_ascii l.
Proof.
  intros Hl. apply c_str_id. unfold nul_free, no_char. induction Hl as [|c l Hc _ IH]; [done|].
  cbn. by rewrite bool_decide_true.
Qed.

Lemma cut_cut (n k : nat) (s : string) : cut n (cut k s) = cut (Nat.min n k) s.
Proof.
  unfold cut at 1 2. rewrite c_str_chars_id by (apply Forall_take, c_str_chars).
  by rewrite list_ascii_of_string_of_list_ascii, take_take.
Qed.

(** [cti_error_str_r] never leaves the caller's buffer: for every message and every
    buffer of at least the given length the result is a C string, the message cut
    to the buffer and to [CTI_ERR_STR_SIZE], and what follows in the buffer is
    untouched; a length of zero is refused. *)
Theorem error_str_r_bounds (m_err_str : string) (buf : list ascii) (buf_len : nat) :
  (buf_len ≤ length buf)%nat →
  if (buf_len =? 0)%nat then cti_error_str_r m_err_str buf buf_len = Ok (ERANGE, buf)
  else ∃ buf', cti_error_str_r m_err_str buf buf_len = Ok (0, buf') ∧
    length buf' = length buf ∧ read_cstr buf' = Ok (cut (Nat.min (buf_len - 1) 1023) m_err_str) ∧
    drop buf_len buf' = drop buf_len buf.
Proof.
  intros Hl. unfold cti_error_str_r. destruct (Nat.eqb_spec buf_len 0) as [->|Hne]; [done|].
  destruct (Nat.ltb_spec buf_len 1); [lia|]. rewrite cti_error_str_run. unfold mbind, res_bind.
  destruct (strncpy_store (cut 1023 m_err_str) (buf_len - 1) (buf_len - 1) buf) as (buf' & E & Hb & Hr & Hd);
    [lia..|].
  rewrite E. exists buf'. split; [done|]. split; [done|]. split.
  - by rewrite Hr, cut_cut.
  - replace buf_len with (S (Nat.max (buf_len - 1) (buf_len - 1 - 1))) by lia. done.
Qed.

(** ** The environment of a launch *)

Lemma no_char_after_last (c : ascii) (s : string) : no_char c s = true → after_last c s = None.
Proof.
  induction s as [|x s IH]; [done|]. cbn. intros [Hx%bool_decide_eq_true Hs]%andb_true_iff.
  by rewrite IH, decide_False by done.
Qed.

Lemma after_last_app (c : ascii) (a b : string) :
  no_char c b = true → after_last c (a +:+ String c b) = Some b.
Proof.
  intros Hb. induction a as [|x a IH]; cbn.
  - by rewrite no_char_after_last, decide_True by done.
  - by rewrite IH.
Qed.

(** What the launch environment is meant to be: the global value in front of the
    job's, or alone when the job has none. *)
Definition preload_var : string := "LD_PRELOAD=".

Definition sets_preload (entry : string) : bool := starts_with preload_var entry.

Definition preload_entry (g entry : string) : string :=
  if sets_preload entry then preload_var +:+ g +:+ ":" +:+ drop_str (String.length preload_var) entry
  else entry.

Definition preload_env (g : string) (env : list string) : list string :=
  map (preload_entry g) env ++ (if existsb sets_preload env then [] else [preload_var +:+ g]).

(** Environments the code handles as meant: of the variables whose names begin with
    [LD_PRELOAD] there is only that one, and its value has no equals sign. *)
Definition plain_preload (entry : string) : Prop :=
  nul_free entry = true ∧
  (starts_with "LD_PRELOAD" entry = true →
   ∃ value, entry = preload_var +:+ value ∧ no_char "=" value = true).

Lemma plain_preload_cases (entry : string) :
  plain_preload entry →
  starts_with "LD_PRELOAD" entry = sets_preload entry ∧
  (sets_preload entry = true → ∃ value, entry = preload_var +:+ value ∧ no_char "=" value = true).
Proof.
  intros [_ Hp]. unfold sets_preload. destruct (starts_with "LD_PRELOAD" entry) eqn:E.
  - destruct (Hp eq_refl) as (value & -> & Hv). split; [by rewrite starts_with_app|]. by eexists.
  - destruct (starts_with preload_var entry) eqn:E'; [|done].
    apply starts_with_spec in E' as [r ->]. discriminate (eq_trans (eq_sym E) (starts_with_app "LD_PRELOAD" ("=" +:+ r))).
Qed.

Lemma fix_entry_spec (g entry : string) (v : argv) (l : list string) :
  nul_free g = true → plain_preload entry → represents v l →
  ∃ v', fix_entry g entry v = Ok v' ∧ represents v' (l ++ [preload_entry g entry]).
Proof.
  intros Hg Hp Hv. destruct (plain_preload_cases entry Hp) as [E Hval]. unfold fix_entry, preload_entry.
  rewrite E. destruct (sets_preload entry); [|by apply insert_before_end_spec].
  destruct (Hval eq_refl) as (value & -> & Hne).
  rewrite (after_last_app "=" "LD_PRELOAD" value Hne : after_last "=" (preload_var +:+ value) = _).
  rewrite drop_str_app.
  destruct (argv_add_spec v l (preload_var +:+ g +:+ ":" +:+ value) Hv) as (v' & E' & Hv').
  exists v'. split; [exact E'|]. rewrite c_str_id in Hv'; [done|].
  destruct Hp as [Hn _]. rewrite nul_free_app in Hn. apply andb_true_iff in Hn as [? Hn].
  by rewrite !nul_free_app, Hg, Hn.
Qed.

Lemma fix_entries_spec (g : string) (env : list string) (added : bool) (v : argv) (l : list string) :
  nul_free g = true → Forall plain_preload env → represents v l →
  ∃ v', fix_entries g env added v = Ok (v', added || existsb sets_preload env) ∧
    represents v' (l ++ map (preload_entry g) env).
Proof.
  intros Hg Henv. revert added v l. induction Henv as [|e env He _ IH]; intros added v l Hv;
    cbn [fix_entries map existsb].
  - exists v. by rewrite orb_false_r, app_nil_r.
  - destruct (fix_entry_spec g e v l Hg He Hv) as (v1 & -> & H1).
    unfold mbind, res_bind. rewrite (proj1 (plain_preload_cases e He)).
    destruct (IH (added || sets_preload e) v1 _ H1) as (v2 & -> & H2). exists v2.
    by rewrite orb_assoc, cons_middle, app_assoc.
Qed.

(** The environment of a launch.  When the tool itself runs with a value of
    [LD_PRELOAD], [fixLaunchEnvironment] puts that value in front of the job's own,
    adds the variable when the job has none, and leaves every other entry as it is and
    in its place, for environments whose only variable with such a name is
    [LD_PRELOAD] itself with a value free of equals signs.  Without a global value the
    environment is passed on as it is. *)
Theorem launch_environment (g : string) (env : list string) :
  nul_free g = true → Forall plain_preload env →
  ∃ v, fixLaunchEnvironment g (Some env) = Ok v ∧
    represents v (if is_empty g then env else preload_env g env).
Proof.
  intros Hg Henv. unfold fixLaunchEnvironment. destruct (is_empty g) eqn:Eg; cbn [negb].
  - destruct (argv_add_until_null_spec [] env [] argv_new represents_new) as (v & E & Hv). by exists v.
  - destruct (fix_entries_spec g env false argv_new [] Hg Henv represents_new) as (v & -> & Hv).
    cbn. unfold preload_env. destruct (existsb sets_preload env).
    + exists v. by rewrite app_nil_r.
    + destruct (argv_add_spec v _ (preload_var +:+ g) Hv) as (v' & E & Hv'). exists v'.
      split; [exact E|]. rewrite c_str_id in Hv'; [done|]. by rewrite nul_free_app, Hg.
Qed.

Lemma launch_environment_witness :
  ∃ v, fixLaunchEnvironment "/g.so" (Some ["A=1=2"; "LD_PRELOAD=/j.so"]) = Ok v ∧
    represents v ["A=1=2"; "LD_PRELOAD=/g.so:/j.so"].
Proof.
  refine (launch_environment "/g.so" ["A=1=2"; "LD_PRELOAD=/j.so"] eq_refl _).
  constructor; [split; [reflexivity|discriminate]|].
  constructor; [split; [reflexivity|]|constructor]. intros _. exists "/j.so". by split.
Defined.

(** Other environments are changed in ways not meant: a variable whose name merely
    begins with [LD_PRELOAD] is lost and its value preloaded, and a value is cut
    up to its last equals sign. *)
Theorem launch_environment_clobbers :
  (∃ v, fixLaunchEnvironment "/g.so" (Some ["LD_PRELOAD_LOG=/tmp/log"]) = Ok v ∧
    represents v ["LD_PRELOAD=/g.so:/tmp/log"]) ∧
  (∃ v, fixLaunchEnvironment "/g.so" (Some ["LD_PRELOAD=/opt/v=2/j.so"]) = Ok v ∧
    represents v ["LD_PRELOAD=/g.so:2/j.so"]).
Proof. split; eexists; (split; [vm_compute; reflexivity|reflexivity]). Qed.

(** ** Binaries of an application *)

(** Writing the ranks of one binary. *)
Lemma store_ranks_spec (ranks : list Z) (i : Z) (n : nat) (rm : list (option Z)) :
  Forall (λ r, 0 ≤ r < Z.of_nat n) ranks → length rm = S n →
  ∃ rm', store_ranks ranks i rm = Ok rm' ∧ length rm' = S n ∧
    ∀ r, rm' !! r = if bool_decide (Z.of_nat r ∈ ranks) then Some (Some i) else rm !! r.
Proof.
  intros Hr. revert rm. induction Hr as [|x ranks Hx _ IH]; intros rm Hl; cbn [store_ranks].
  - exists rm. split_and!; [done..|]. intros r. by rewrite bool_decide_false by set_solver.
  - destruct (Z.ltb_spec x 0); [lia|]. unfold store. destruct (Nat.ltb_spec (Z.to_nat x) (length rm)); [|lia].
    unfold mbind, res_bind. destruct (IH (<[Z.to_nat x := Some i]> rm)) as (rm' & -> & Hl' & Hrm).
    { by rewrite length_insert. }
    exists rm'. split_and!; [done..|]. intros r. rewrite Hrm. destruct (decide (Z.of_nat r = x)) as [<-|Hne].
    + rewrite (bool_decide_true (Z.of_nat r ∈ Z.of_nat r :: ranks)) by set_solver. case_bool_decide; [done|].
      rewrite Nat2Z.id, list_lookup_insert_eq; [done|lia].
    + rewrite list_lookup_insert_ne by lia. do 2 case_bool_decide; set_solver.
Qed.

Lemma store_binaries_spec (m : gmap string (list Z)) (bs : list string) (i : Z) (n : nat)
    (rm : list (option Z)) :
  (∀ b, b ∈ bs → Forall (λ r, 0 ≤ r < Z.of_nat n) (default [] (m !! b))) → length rm = S n →
  ∃ rm', store_binaries m bs i rm = Ok rm' ∧ length rm' = S n ∧
    ∀ r : nat,
      (∃ j b, bs !! j = Some b ∧ Z.of_nat r ∈ default [] (m !! b) ∧
        rm' !! r = Some (Some (i + Z.of_nat j))) ∨
      ((∀ b, b ∈ bs → Z.of_nat r ∉ default [] (m !! b)) ∧ rm' !! r = rm !! r).
Proof.
  revert i rm. induction bs as [|b bs IH]; intros i rm Hm Hl; cbn [store_binaries].
  - exists rm. split_and!; [done..|]. intros r. right. by split; [set_solver|].
  - destruct (store_ranks_spec (default [] (m !! b)) i n rm) as (rm1 & -> & Hl1 & H1);
      [apply Hm; set_solver|done|]. unfold mbind, res_bind.
    destruct (IH (i + 1) rm1) as (rm2 & -> & Hl2 & H2); [intros; apply Hm; set_solver|done|].
    exists rm2. split_and!; [done..|]. intros r.
    destruct (H2 r) as [(j & b' & Hj & Hr & E)|[Hnot E]].
    + left. exists (S j), b'. split_and!; [done..|]. rewrite E. do 2 f_equal. lia.
    + rewrite H1 in E. case_bool_decide as Hin.
      * left. exists 0%nat, b. split_and!; [done..|]. by rewrite Z.add_0_r.
      * right. split; [|done]. intros b' [->|?]%elem_of_cons; [done|by apply Hnot].
Qed.

(** [cti_getAppBinaryList] tells which binary each rank runs: for the rank map
    made from a process table, every entry of the array is written, entry [r] is
    the position in the list of the binary that rank [r] runs, and the array ends
    with -1; nothing is written outside of it. *)
Theorem binary_list_spec (tbl : list MPIRProctableElem) :
  ∃ rm binaries, binary_list (generateBinaryRankMap tbl) (length tbl) = Ok (map c_str binaries, rm) ∧
    NoDup binaries ∧ length rm = S (length tbl) ∧ rm !! length tbl = Some (Some (-1)) ∧
    ∀ r e, tbl !! r = Some e →
      ∃ i, rm !! r = Some (Some (Z.of_nat i)) ∧ binaries !! i = Some (el_executable e).
Proof.
  set (m := generateBinaryRankMap tbl). unfold binary_list.
  assert (∀ b z, z ∈ default [] (m !! b) ↔
    ∃ r e, tbl !! r = Some e ∧ el_executable e = b ∧ z = Z.of_nat r) as Hz.
  { intros b z. unfold m, generateBinaryRankMap. rewrite (proj1 (rank_map_from_spec tbl 0 ∅ b)).
    rewrite lookup_empty. cbn. set_solver. }
  destruct (store_binaries_spec m (sorted_keys m) 0 (length tbl) (replicate (length tbl) None ++ [Some (-1)]))
    as (rm & -> & Hl & Hrm).
  { intros b _. apply Forall_forall. intros z (r & e & Hr%lookup_lt_Some & _ & ->)%Hz. lia. }
  { rewrite length_app, length_replicate. cbn. lia. }
  exists rm, (sorted_keys m). split_and!; [done|apply NoDup_sorted_elements|done| |].
  - destruct (Hrm (length tbl)) as [(j & b & _ & (r & e & Hr%lookup_lt_Some & _ & ?)%Hz & _)|[_ ->]]; [lia|].
    rewrite lookup_app_r by (rewrite length_replicate; lia). by rewrite length_replicate, Nat.sub_diag.
  - intros r e Hr. destruct (Hrm r) as [(j & b & Hj & (r' & e' & Hr' & <- & ?)%Hz & E)|[Hnot _]].
    + assert (r' = r) as -> by lia. simplify_eq. by exists j.
    + exfalso. apply (Hnot (el_executable e)); [|apply Hz; eauto].
      apply elem_of_sorted_keys, elem_of_dom, (rank_map_from_spec tbl 0 ∅). right. by exists r, e.
Qed.

Lemma binary_list_spec_witness :
  ∃ rm binaries, binary_list (generateBinaryRankMap [MkElem 7 "n1" "/b"; MkElem 8 "n1" "/a"]) 2
      = Ok (map c_str binaries, rm) ∧
    ∃ i, rm !! 1%nat = Some (Some (Z.of_nat i)) ∧ binaries !! i = Some "/a".
Proof.
  destruct (binary_list_spec [MkElem 7 "n1" "/b"; MkElem 8 "n1" "/a"]) as (rm & bs & E & _ & _ & _ & Hr).
  exists rm, bs. split; [exact E|]. exact (Hr 1%nat (MkElem 8 "n1" "/a") eq_refl).
Defined.

(** ** Symbols *)

(** A line of [nm]: the address of a defined symbol, or blanks of the same width. *)
Inductive nm_symbol : Type :=
| Defined (addr label name : string)
| Undefined (label name : string).

Definition nm_line (x : nm_symbol) : string :=
  match x with
  | Defined addr label name => join " " [addr; label; name]
  | Undefined label name => "                 " +:+ join " " [label; name]
  end.

Definition nm_name (x : nm_symbol) : string :=
  match x with Defined _ _ name | Undefined _ name => name end.

Definition is_defined (x : nm_symbol) : Prop :=
  match x with Defined _ _ _ => True | Undefined _ _ => False end.

(** A text without white space *)
Definition word (s : string) : Prop :=
  s ≠ "" ∧ string_forall (λ c, negb (is_space c)) s = true.

Definition nm_wf (x : nm_symbol) : Prop :=
  match x with
  | Defined addr label name => word addr ∧ word label ∧ word name
  | Undefined label name => word label ∧ word name
  end.

Lemma not_space_blank (c : ascii) : is_space c = false → c ≠ " "%char ∧ blank c = false.
Proof.
  intros Hc. assert (c ≠ " "%char) by (by intros ->). split; [done|].
  unfold blank. rewrite !bool_decide_false; [done| |done]. by intros ->.
Qed.

Lemma word_no_space (s : string) : word s → no_char " " s = true.
Proof.
  intros [_ Hs]. unfold no_char. induction s as [|c s IH]; [done|].
  cbn in *. apply andb_true_iff in Hs as [Hc%negb_true_iff Hs].
  rewrite bool_decide_true by (by apply not_space_blank). by apply IH.
Qed.

Lemma word_first (s : string) : word s → ∃ c a, s = String c a ∧ blank c = false.
Proof.
  intros [Hne Hs]. destruct s as [|c a]; [done|]. exists c, a. split; [done|].
  cbn in Hs. apply andb_true_iff in Hs as [Hc%negb_true_iff _]. by apply not_space_blank.
Qed.

Lemma word_last (s : string) : word s → ∃ m x, s = m +:+ String x "" ∧ blank x = false.
Proof.
  intros [Hne Hs]. induction s as [|c [|c' s] IH]; [done| |].
  - exists "", c. split; [done|]. cbn in Hs. rewrite andb_true_r in Hs.
    by apply not_space_blank, negb_true_iff.
  - cbn in Hs. apply andb_true_iff in Hs as [_ Hs]. destruct (IH ltac:(done) Hs) as (m & x & -> & Hx).
    by exists (String c m), x.
Qed.

(** Blanks in front of a line are removed, and nothing else. *)
Lemma trim_line (pre a b m : string) :
  string_forall blank pre = true → word a → word b →
  removeLeadingWhitespace (pre +:+ (a +:+ String " " (m +:+ b))) = a +:+ String " " (m +:+ b).
Proof.
  intros Hpre (c & a' & -> & Hc)%word_first (m' & x & -> & Hx)%word_last.
  pose proof (removeLeadingWhitespace_run pre "" (a' +:+ String " " (m +:+ m')) c x Hpre eq_refl Hc Hx) as E.
  rewrite string_app_assoc in E. cbn in E |- *. by rewrite string_app_assoc in E.
Qed.

Lemma split3_defined (addr label name : string) :
  word addr → word label → word name →
  split3 (join " " [addr; label; name]) " " = (addr, label, name).
Proof.
  intros Ha Hl Hn. unfold split3. pose proof (split_string_join " " [addr; label; name]) as E.
  cbn [length] in E. rewrite E; [done..|]. repeat constructor; by apply word_no_space.
Qed.

Lemma skip_space_word (w r : string) : word w → skip_space (w +:+ r) = w +:+ r.
Proof.
  intros [Hne Hs]. destruct w as [|c w]; [done|]. cbn [string_forall] in Hs.
  apply andb_true_iff in Hs as [Hc%negb_true_iff _]. cbn [append skip_space]. by rewrite Hc.
Qed.

Lemma take_word_app (w r : string) : word w → take_word (w +:+ String " " r) = w.
Proof.
  intros [_ Hs]. induction w as [|c w IH]; [done|]. cbn [string_forall] in Hs.
  apply andb_true_iff in Hs as [Hc%negb_true_iff Hs]. cbn [append take_word]. by rewrite Hc, IH.
Qed.

Lemma getline_delim (d : ascii) (b : string) : getline d (Some (String d b)) = (Some "", Some b).
Proof. exact (getline_app d "" b eq_refl). Qed.

Lemma skip_space_blank (s : string) : skip_space (String " " s) = skip_space s.
Proof. done. Qed.

Lemma all_symbol_spec (x : nm_symbol) :
  nm_wf x → all_symbol (nm_line x) = match x with Defined _ _ name => name | Undefined label _ => String " " label end.
Proof.
  destruct x as [addr label name|label name]; intros Hx; unfold all_symbol, nm_line.
  - rewrite split3_defined by apply Hx. done.
  - destruct Hx as [Hl Hn]. cbn [join].
    pose proof (skip_space_word label (String " " name) Hl) as E1.
    pose proof (take_word_app label name Hl) as E2. generalize dependent (label +:+ String " " name).
    intros rest E1 E2. unfold split3, split_string, read_word.
    cbn [append]. rewrite !getlines_S. unfold getlines. do 3 (rewrite getline_delim).
    cbv beta iota zeta. rewrite !skip_space_blank, E1, E2.
    destruct Hl as [Hl _]. by destruct label.
Qed.

Lemma any_symbol_spec (x : nm_symbol) : nm_wf x → any_symbol (nm_line x) = nm_name x.
Proof.
  destruct x as [addr label name|label name]; intros Hx; unfold any_symbol, nm_line.
  - destruct Hx as (Ha & Hl & Hn).
    pose proof (trim_line "" addr name (label +:+ " ") eq_refl Ha Hn) as E.
    rewrite string_app_assoc in E. cbn in E |- *. rewrite E.
    pose proof (split3_defined addr label name Ha Hl Hn) as E3. cbn [join] in E3. rewrite E3.
    destruct Hn as [Hn _]. by destruct name.
  - destruct Hx as (Hl & Hn). cbn [join].
    pose proof (trim_line "                 " label name "" eq_refl Hl Hn) as E.
    cbn [append] in E |- *. rewrite E.
    assert (split3 (label +:+ String " " name) " " = (label, name, "")) as ->; [|done].
    unfold split3, split_string. rewrite getlines_S, getline_app by (by apply word_no_space).
    rewrite getlines_S, getline_last by (by apply word_no_space). cbn. by destruct name.
Qed.

Lemma find_all_spec (lines : list string) (remaining : gset string) :
  find_all lines remaining = true ↔
  lines ≠ [] ∧ ∀ w, w ∈ remaining → ∃ l, l ∈ lines ∧ all_symbol l = w.
Proof.
  revert remaining. induction lines as [|line lines IH]; intros remaining; cbn [find_all]; [by split; [|intros []]|].
  case_decide as Hd.
  - split; [|done]. intros _. split; [done|]. intros w Hw. exists line. split; [by left|].
    destruct (decide (all_symbol line = w)); [done|]. set_solver.
  - rewrite IH. split.
    + intros [_ Hall]. split; [done|]. intros w Hw. destruct (decide (all_symbol line = w)) as [E|Hne].
      * exists line. by split; [left|].
      * destruct (Hall w ltac:(set_solver)) as (l & Hl & E). exists l. by split; [right|].
    + intros [_ Hall]. split.
      * intros ->. apply Hd. apply set_eq. intros w. split; [|set_solver]. intros Hw.
        destruct (Hall w ltac:(set_solver)) as (l & Hl%list_elem_of_singleton & E). set_solver.
      * intros w Hw. destruct (Hall w ltac:(set_solver)) as (l & [->|Hl]%elem_of_cons & E); [set_solver|by exists l].
Qed.

(** What the two searches find.  For the output of [nm] on a file with at least one
    symbol, [CTI_SYMBOLS_ANY] succeeds exactly when a wanted name is among the
    symbols; [CTI_SYMBOLS_ALL] succeeds exactly when every wanted name is among the
    defined symbols: a symbol that the file only refers to counts for the first
    search and not for the second. *)
Theorem symbol_searches (syms : list nm_symbol) (wanted : gset string) :
  Forall nm_wf syms → set_Forall word wanted → syms ≠ [] →
  (search_symbols (map nm_line syms) wanted CTI_SYMBOLS_ANY = CTI_SYMBOLS_YES ↔
    ∃ x, x ∈ syms ∧ nm_name x ∈ wanted) ∧
  (search_symbols (map nm_line syms) wanted CTI_SYMBOLS_ALL = CTI_SYMBOLS_YES ↔
    ∀ w, w ∈ wanted → ∃ x, x ∈ syms ∧ is_defined x ∧ nm_name x = w).
Proof.
  intros Hwf Hw Hne. rewrite Forall_forall in Hwf.
  assert (∀ b : bool, (if b then CTI_SYMBOLS_YES else CTI_SYMBOLS_NO) = CTI_SYMBOLS_YES ↔ b = true) as Hyes
    by (by intros []).
  unfold search_symbols. split; rewrite Hyes; clear Hyes.
  - rewrite existsb_exists. setoid_rewrite in_map_iff. setoid_rewrite bool_decide_eq_true. split.
    + intros (l & (x & <- & Hx%list_elem_of_In) & Hin). exists x. by rewrite any_symbol_spec in Hin by auto.
    + intros (x & Hx & Hin). exists (nm_line x). rewrite any_symbol_spec by auto. split; [|done].
      exists x. split; [done|]. by apply list_elem_of_In.
  - rewrite find_all_spec. split.
    + intros [_ Hall] w Hin. destruct (Hall w Hin) as (l & Hl & E).
      apply list_elem_of_In, in_map_iff in Hl as (x & <- & Hx%list_elem_of_In). exists x. split; [done|].
      rewrite all_symbol_spec in E by auto. destruct x as [addr label name|label name]; [done|].
      specialize (Hw w Hin) as [_ Hs]. subst w. discriminate Hs.
    + intros Hall. split; [by destruct syms|]. intros w Hin. destruct (Hall w Hin) as (x & Hx & Hd & E).
      exists (nm_line x). split; [apply list_elem_of_In, in_map; by apply list_elem_of_In|].
      rewrite all_symbol_spec by auto. by destruct x.
Qed.

Lemma symbol_searches_witness :
  search_symbols [nm_line (Defined "0000000000001139" "T" "main"); nm_line (Undefined "U" "MPI_Init")]
    {["MPI_Init"]} CTI_SYMBOLS_ANY = CTI_SYMBOLS_YES ∧
  search_symbols [nm_line (Defined "0000000000001139" "T" "main"); nm_line (Undefined "U" "MPI_Init")]
    {["MPI_Init"]} CTI_SYMBOLS_ALL ≠ CTI_SYMBOLS_YES.
Proof.
  destruct (symbol_searches [Defined "0000000000001139" "T" "main"; Undefined "U" "MPI_Init"] {["MPI_Init"]})
    as [Hany Hall].
  - repeat (constructor; [repeat split; discriminate|]). constructor.
  - intros w ->%elem_of_singleton. split; [discriminate|reflexivity].
  - discriminate.
  - split.
    + apply Hany. exists (Undefined "U" "MPI_Init"). split; [right; left|apply elem_of_singleton; reflexivity].
    + intros E. destruct (proj1 Hall E "MPI_Init") as (x & Hx & Hd & Hn); [by apply elem_of_singleton|].
      apply elem_of_cons in Hx as [->|Hx]; [discriminate Hn|].
      apply list_elem_of_singleton in Hx as ->. exact Hd.
Defined.

(** ** Attributes and waiting *)

Section Calls.
Context `{Kernel} `{ReqSocket} `{Procs} `{MPIR} `{Host} `{Tar} `{!Wlm}.

Lemma get_attr_str_overflows (value : string) :
  get_attr_str value = Undef "write past the end of the buffer".
Proof.
  unfold get_attr_str, store. rewrite length_strncpy by (by rewrite length_replicate).
  rewrite length_replicate, Nat.ltb_irrefl. done.
Qed.

(** Reading any attribute writes past the end of the buffer it is returned in, whatever
    its value. *)
Theorem getAttribute_overflows (attrib : attr_type) (text : string) (s : fe) :
  wl_inst = None → attribute_text attrib (f_attrs s) = Ok text →
  cti_getAttribute attrib s = (Undef "write past the end of the buffer", s).
Proof.
  intros Hi E. unfold cti_getAttribute, runSafely, try_catch, inst. rewrite Hi.
  unfold mbind, M_bind, get, lift. cbn. rewrite E. by rewrite get_attr_str_overflows.
Qed.

(** An attempt to register a job makes no other calls. *)
Lemma register_op_events (caller : string) (wanted : Z) (job : wl_job) (evs : list api_event) :
  preserves (λ s, f_events s = evs) (register_op caller wanted job).
Proof.
  unfold register_op, runSafely, downcastFE, fe_addApp, trackApp, inst.
  apply preserves_try_catch; [|intros e; apply preserves_bind; [by apply preserves_modify|auto with cti]].
  apply preserves_bind; [repeat (apply preserves_bind || intros _ || case_match); auto with cti|intros _].
  apply preserves_bind.
  - apply preserves_bind; [|intros d; apply preserves_bind; [auto with cti|intros s]].
    + intros s <-. unfold zoom. by destruct (wl_registerJob job (f_daemon s)).
    + apply preserves_bind; [by apply preserves_modify|intros _].
      apply preserves_bind; [by apply preserves_modify|auto with cti].
  - intros a s <-. unfold on_apps, zoom. by destruct (reg_add a (f_app_registry s)).
Qed.

(** What waiting does: it ends with an identifier, or after all of its attempts. *)
Definition waited (attempt : M fe Z) (left : Z) (s : fe) (out : res Z * fe) : Prop :=
  (∃ why s1, out.1 = Undef why ∧ (attempt s1).1 = Undef why) ∨
  ∃ id k, out.1 = Ok id ∧ f_events out.2 = f_events s ++ replicate k (EvSleep ATTACH_TIMEOUT_STEP_SEC) ∧
    (if decide (id = APP_ERROR) then Z.of_nat k = left else Z.of_nat k < left).

Lemma wait_loop_waited (attempt : M fe Z) (t : Z) :
  quiet_api attempt → (∀ evs, preserves (λ s, f_events s = evs) attempt) → t < 2 ^ 32 →
  ∀ fuel j s, 0 ≤ j → 5 * j < t → (t + 4) / 5 - 1 - j ≤ Z.of_nat fuel →
  waited attempt ((t + 4) / 5 - j) s (wait_loop fuel t (5 * j) attempt s).
Proof.
  intros Hq He Ht. pose proof (Z.div_mod (t + 4) 5 ltac:(done)) as Hdiv.
  pose proof (Z.mod_pos_bound (t + 4) 5 eq_refl) as Hmod. change (2 ^ 32) with 4294967296 in *.
  induction fuel as [|fuel IH]; intros j s Hj Hlt Hf; cbn [wait_loop];
    unfold mbind, M_bind; pose proof (He (f_events s) s eq_refl) as Hev; pose proof (Hq s) as Hs;
    destruct (attempt s) as [[id|w|w] s1] eqn:E; cbn in Hev;
    try (by destruct (Hs w s1)); try (left; exists w, s; by rewrite E);
    (destruct (Z.eqb_spec id APP_ERROR) as [->|Hne]; cbn [negb];
     [|right; exists id, 0%nat; split_and!; [done|by rewrite app_nil_r|];
       rewrite decide_False by done; lia]).
  all: cbn -[ATTACH_TIMEOUT_STEP_SEC Z.pow Z.modulo].
  all: assert ((t =? 0) = false) as -> by lia.
  all: unfold ATTACH_TIMEOUT_STEP_SEC; change (2 ^ 32) with 4294967296; rewrite (Z.mod_small (5 * j + 5)) by lia; cbn [orb].
  all: destruct (Z.ltb_spec (5 * j + 5) t).
  - exfalso. lia.
  - right. exists APP_ERROR, 1%nat. split_and!; [done|cbn; by rewrite Hev|].
    rewrite decide_True by done. lia.
  - replace (5 * j + 5) with (5 * (j + 1)) by lia.
    destruct (IH (j + 1) (push_api (EvSleep 5) s1)) as [Hu|(id & k & E1 & E2 & Hk)]; [lia..|by left|].
    right. exists id, (S k). split_and!; [done|rewrite E2; cbn; by rewrite Hev, <-app_assoc|].
    case_decide; lia.
  - right. exists APP_ERROR, 1%nat. split_and!; [done|cbn; by rewrite Hev|].
    rewrite decide_True by done. lia.
Qed.

(** Waiting for a job to start ends.  With a timeout of [t] seconds the waiting
    registrations ([_cti_slurm_registerJobStepWait] and the like) make at most
    [ceil(t / 5)] attempts, five seconds apart, the counter of seconds never wrapping
    around; they return the identifier of the first attempt that succeeds, and the
    error value after all have failed. *)
Theorem register_wait_ends (caller : string) (wanted : Z) (job : wl_job) (t : Z) (fuel : nat) (s : fe) :
  0 < t < 2 ^ 32 → (t + 4) / 5 - 1 ≤ Z.of_nat fuel →
  waited (register_op caller wanted job) ((t + 4) / 5) s (register_op_wait fuel caller wanted job t s).
Proof.
  intros Ht Hf.
  pose proof (wait_loop_waited (register_op caller wanted job) t (quiet_runSafely _ _ _)
    (register_op_events caller wanted job) (proj2 Ht) fuel 0 s ltac:(done)) as Hw.
  rewrite !Z.sub_0_r in Hw. change (5 * 0) with 0 in Hw. apply Hw; lia.
Qed.
End Calls.
