(* ===== verification/IfaceExamples.v ===== *)
(** * Concrete runs of the C interface

    A small workload manager, on which the properties of the entry points are
    evaluated. *)

From S2P Require Import Prelude Split Argv Host Archive Manifest Session Transfer Wire Launch Daemon Handlers FEIface AppRegistry DaemonExamples Registry Iface IfaceProofs IfaceFuncs.

(** Jobs are process ids.  Launching attaches to the launcher, whose process the daemon
    registers; a launch without arguments fails after that. *)
#[export] Instance demo_wlm : Wlm := {|
  wl_inst := None;
  wl_getWLMType := 2;
  wl_getHostname := Ok "login1";
  wl_getGlobalLdPreload := "";
  wl_launch _ args :=
    result ← request_AttachMPIR "/usr/bin/srun" (100 + Z.of_nat (length (la_argv args)));
    if decide (la_argv args = []) then throw "no application"
    else mret (res_mpir_id (fe_result result));
  wl_job := Z;
  wl_registerJob pid := request_RegisterApp pid;
  wl_app _ := demo_app;
  wl_random _ _ := 0;
  wl_isRunning _ _ := Ok true;
  wl_getNumPEs _ := Ok 2;
  wl_getNumHosts _ := Ok 1;
  wl_getHostnameList _ := Ok ["node1"];
  wl_getHostsPlacement _ := Ok [("node1", 2)];
  wl_getBinaryRankMap _ := Ok ∅;
  wl_getLauncherHostname _ := Ok "login1";
  wl_releaseBarrier _ _ := Ok tt;
  wl_kill _ _ _ := Ok tt;
  wl_fd_flags _ := Some 2;
  wl_user_exec _ := true;
  wl_nm _ := Ok [] |}.

Definition fe0 : fe := new_fe demo_empty.

(** A launched application with a session and a manifest of it, all numbered 1. *)
Definition calls3 : list api :=
  [LaunchApp ["a.out"] (-1) (-1) None None None; CreateSession 1; CreateManifest_ 1].

Definition run_all (l : list api) (s : fe) : fe := fold_left (λ s c, (run_api c s).2) l s.

Definition fe3 : fe := run_all calls3 fe0.

Lemma run_all_reachable (l : list api) (s : fe) : rtc api_step s (run_all l s).
Proof.
  revert s. induction l as [|c l IH]; intros s; [apply rtc_refl|].
  exact (rtc_l _ _ _ _ (step_api c s) (IH _)).
Qed.

Example fe3_handles :
  (cti_appIsValid 1 fe3).1 = Ok true ∧ (cti_sessionIsValid 1 fe3).1 = Ok true ∧
  (cti_manifestIsValid 1 fe3).1 = Ok true.
Proof. split_and!; vm_compute; reflexivity. Qed.

(** The same with the manifest sent, and with the application deregistered. *)
Definition fe_sent : fe := run_all (calls3 ++ [SendManifest_ 1]) fe0.
Definition fe_gone : fe := (cti_deregisterApp 1 fe3).2.

Lemma fe3_reachable : rtc api_step (new_fe demo_empty) fe3.
Proof. apply run_all_reachable. Qed.

Lemma fe3_app : r_list (f_app_registry fe3) !! 1 = Some 0%nat ∧ is_Some (f_apps fe3 !! 0%nat).
Proof. split; [vm_compute; reflexivity|]. exists 1. vm_compute. reflexivity. Qed.

Definition fe3_world : world :=
  match f_sessions fe3 !! 1%nat with Some (_, w) => w | None => @new_world demo_app (λ _, 0) end.

Lemma fe3_session :
  r_list (f_session_registry fe3) !! 1 = Some 1%nat ∧ f_sessions fe3 !! 1%nat = Some (0%nat, fe3_world) ∧
  r_list (f_manifest_registry fe3) !! 1 = Some (1%nat, 0%nat).
Proof. split_and!; vm_compute; reflexivity. Qed.

Lemma demo_inst : wl_inst = None.
Proof. reflexivity. Qed.

Lemma send_pair (mid : Z) (s : fe) :
  (cti_sendManifest mid s).1 = Ok SUCCESS →
  cti_sendManifest mid s = (Ok SUCCESS, (cti_sendManifest mid s).2).
Proof. destruct (cti_sendManifest mid s) as [r t]. cbn. by intros ->. Qed.

Lemma fe3_sends : cti_sendManifest 1 fe3 = (Ok SUCCESS, (cti_sendManifest 1 fe3).2).
Proof. apply send_pair. vm_compute. reflexivity. Qed.

Lemma deregister_pair (id : Z) (s : fe) :
  (cti_deregisterApp id s).1 = Ok tt → cti_deregisterApp id s = (Ok tt, (cti_deregisterApp id s).2).
Proof. destruct (cti_deregisterApp id s) as [r t]. cbn. by intros ->. Qed.

Lemma fe3_deregisters : cti_deregisterApp 1 fe3 = (Ok tt, fe_gone).
Proof. unfold fe_gone. apply deregister_pair. vm_compute. reflexivity. Qed.

(** ** Releasing an application *)

(** A failed launch, then two applications, 1 and 2 for the client. *)
Definition fe_two : fe :=
  run_all [LaunchApp [] (-1) (-1) None None None; LaunchApp ["a.out"] (-1) (-1) None None None;
           LaunchApp ["b.out"; "-v"] (-1) (-1) None None None] fe0.

(** [cti_releaseApp] passes its caller's identifier to the daemon, which has identifiers
    of its own.  Of two applications that the daemon knows as 2 and 3, releasing the
    one the client knows as 2 succeeds and releases the other: the daemon forgets
    the first application, keeps the second to be killed at its end, and the
    client's handle of the second is gone. *)
Theorem release_wrong_app :
  f_apps fe_two !! 0%nat = Some 2 ∧ f_apps fe_two !! 1%nat = Some 3 ∧
  r_list (f_app_registry fe_two) !! 2 = Some 1%nat ∧
  (cti_releaseApp 2 fe_two).1 = Ok 0 ∧
  d_idPidMap (f_daemon (cti_releaseApp 2 fe_two).2) !! 2 = None ∧
  d_idPidMap (f_daemon (cti_releaseApp 2 fe_two).2) !! 3 = Some 102 ∧
  (cti_appIsValid 2 (cti_releaseApp 2 fe_two).2).1 = Ok false ∧
  (cti_appIsValid 1 (cti_releaseApp 2 fe_two).2).1 = Ok true.
Proof. split_and!; vm_compute; reflexivity. Qed.

(** ** Witnesses *)

Lemma iface_invariant_witness : iface_ok fe3.
Proof. exact (iface_invariant demo_empty fe3 (run_all_reachable calls3 fe0)). Defined.

Lemma invalid_handle_stays_witness :
  (cti_manifestIsValid 1 (run_all [CreateManifest_ 1] fe_sent)).1 = Ok false.
Proof.
  refine (proj1 (invalid_handle_stays demo_empty fe_sent _ 1 eq_refl
    (run_all_reachable (calls3 ++ [SendManifest_ 1]) fe0) (run_all_reachable [CreateManifest_ 1] fe_sent)) _ _);
    vm_compute; [discriminate|reflexivity].
Defined.

Lemma deregister_invalidates_witness :
  (cti_appIsValid 1 fe_gone).1 = Ok false ∧ (cti_sessionIsValid 1 fe_gone).1 = Ok false ∧
  (cti_manifestIsValid 1 fe_gone).1 = Ok false.
Proof.
  destruct fe3_app as [Ha Hb], fe3_session as (Hs & Hw & Hm).
  destruct (deregister_invalidates demo_empty fe3 fe_gone fe_gone 1 0%nat demo_inst fe3_reachable Ha Hb
    fe3_deregisters (rtc_refl _ _)) as [Hv Hall].
  destruct (Hall 1 1%nat fe3_world Hs Hw) as [Hv' Hall']. split; [exact Hv|]. split; [exact Hv'|].
  exact (Hall' 1 0%nat Hm).
Defined.

Lemma send_uses_up_handle_witness :
  (cti_sendManifest 1 (cti_sendManifest 1 fe3).2).1 = Ok FAILURE.
Proof.
  exact (proj1 (proj2 (send_uses_up_handle demo_empty fe3 _ _ 1 fe3_reachable
    fe3_sends (rtc_refl _ _)))).
Defined.

Lemma getAttribute_overflows_witness :
  cti_getAttribute CTI_DEBUG fe0 = (Undef "write past the end of the buffer", fe0).
Proof. exact (getAttribute_overflows CTI_DEBUG "0" fe0 eq_refl eq_refl). Defined.

Definition demo_job : wl_job := (100 : Z).

Lemma register_wait_ends_witness :
  waited (register_op "_cti_slurm_registerJobStep" 2 demo_job) 3 fe3
    (register_op_wait 2 "_cti_slurm_registerJobStep" 2 demo_job 12 fe3).
Proof. apply (register_wait_ends "_cti_slurm_registerJobStep" 2 demo_job 12 2 fe3); [split; reflexivity|discriminate]. Defined.

Lemma error_str_r_bounds_witness :
  ∃ buf', cti_error_str_r "cti_launchApp: failed" (replicate 8 "x"%char) 6 = Ok (0, buf') ∧
    length buf' = 8%nat ∧ read_cstr buf' = Ok "cti_l" ∧ drop 6 buf' = ["x"%char; "x"%char].
Proof. exact (error_str_r_bounds "cti_launchApp: failed" (replicate 8 "x"%char) 6 ltac:(cbn; lia)). Defined.
