(* ===== verification/FluxAPI.v ===== *)
(** * The Flux process table (src/src/frontend/frontend_impl/Flux/FluxAPI.hpp and the
    job id and file helpers of Flux/Frontend.cpp)

    Flux describes the hosts, ranks and process ids of a job in a compressed JSON
    form: range lists of numbers relative to the number before, and prefix lists of
    names.  They are expanded and grouped by host. *)

From S2P Require Import Prelude Wire BackendFiles.

(** A Boost property tree: the data of a node and its children in order. *)
#[local] Set Warnings "-register-all".
Inductive ptree : Type :=
| PTree (data : string) (children : list (string * ptree)).

Definition pt_data (t : ptree) : string := let '(PTree d _) := t in d.
Definition pt_children (t : ptree) : list (string * ptree) := let '(PTree _ c) := t in c.

Definition int64_min : Z := - 2 ^ 63.
Definition int64_max : Z := 2 ^ 63 - 1.
Definition in_int64 (z : Z) : bool := (int64_min <=? z) && (z <=? int64_max).

(** Boost's conversions of node data, and that they read what a decimal number says. *)
Class PTreeNum : Type := {
  get_value_int64 : string → option Z;
  get_value_int : string → option Z;
  get_value_int64_num : ∀ z, in_int64 z = true → get_value_int64 (to_string z) = Some z;
  get_value_int_num : ∀ z, in_int z = true → get_value_int (to_string z) = Some z
}.

(** libflux and the local host name. *)
Class FluxEnv : Type := {
  flux_job_id_parse : string → option Z;
  flux_force_ascii : bool;
  flux_gethostname : option string
}.

Definition or_throw {A : Type} (o : option A) (what : string) : res A :=
  match o with Some a => Ok a | None => Throw what end.

(** Signed 64-bit arithmetic: overflow is undefined. *)
Definition add64 (a b : Z) : res Z :=
  if in_int64 (a + b) then Ok (a + b) else Undef "signed overflow".

Inductive RangeList : Type :=
| Empty
| Range (start last : Z)
| RLE (value count : Z).

Record HostPlacement : Type := MkPlacement {
  hp_hostname : string;
  hp_node_id : Z;
  hp_numPEs : nat;
  hp_rankPidPairs : list (Z * Z)
}.

Section Flux.
Context `{PTreeNum}.

(** ** Range lists *)

(** The repetitions of one range list object: [first] and [second] are fixed, the
    base moves on. *)
Fixpoint range_repeat (count : nat) (first second base : Z) : res (list RangeList * Z) :=
  match count with
  | O => Ok ([], base)
  | S count' =>
      value ← add64 first base;
      '(elem, base') ←
        (if value <? 0 then Ok (Empty, 0)
         else if second <? 0
         then if in_int (- second + 1) then Ok (RLE value (- second + 1), value)
              else Undef "signed overflow"
         else e ← add64 value second; Ok (Range value e, e));
      '(rest, base'') ← range_repeat count' first second base';
      mret (elem :: rest, base'')
  end.

(** [parse_rangeList]; the new base is part of the result. *)
Definition parse_rangeList (root : ptree) (base : Z) : res (list RangeList * Z) :=
  if negb (is_empty (pt_data root))
  then
    n ← or_throw (get_value_int64 (pt_data root)) "conversion of data failed";
    value ← add64 base n;
    Ok ([RLE value 1], value)
  else
    let get n := or_throw (get_value_int (pt_data n)) "conversion of data failed" in
    match pt_children root with
    | [(_, a); (_, b)] =>
        first ← get a; second ← get b; range_repeat 1 first second base
    | [(_, a); (_, b); (_, c)] =>
        first ← get a; second ← get b; n ← get c;
        if in_int (n + 1) then range_repeat (Z.to_nat (n + 1)) first second base
        else Undef "signed overflow"
    | _ => Throw "Flux API rangelist must have size 2 or 3"
    end.

(** The numbers an element stands for. *)
Definition expand (r : RangeList) : list Z :=
  match r with
  | Empty => []
  | Range start last => seqZ start (last - start + 1)
  | RLE value count => replicate (Z.to_nat count) value
  end.

(** The loop over a range counts one past its end. *)
Definition countable (r : RangeList) : bool :=
  match r with Range _ last => last <? int64_max | _ => true end.

Fixpoint flatten_from (l : list (string * ptree)) (base : Z) : res (list Z) :=
  match l with
  | [] => Ok []
  | (_, t) :: l' =>
      '(elems, base') ← parse_rangeList t base;
      if forallb countable elems
      then rest ← flatten_from l' base'; mret (flat_map expand elems ++ rest)
      else Undef "signed overflow"
  end.

(** [flatten_rangeList] *)
Definition flatten_rangeList (root : ptree) : res (list Z) := flatten_from (pt_children root) 0.

(** ** Prefix lists *)

(** The prefix and suffix pairs [for_each_prefixList] calls its function with.  An
    element with fewer than two children is read past its end. *)
Fixpoint prefix_pairs (l : list (string * ptree)) : res (list (string * string)) :=
  match l with
  | [] => Ok []
  | (_, t) :: l' =>
      here ←
        (if negb (is_empty (pt_data t)) then Ok [(pt_data t, "")]
         else
           match pt_children t with
           | (_, p) :: (_, r) :: _ =>
               suffixes ← flatten_rangeList r;
               Ok (match suffixes with
                   | [] => [(pt_data p, "")]
                   | _ => map (λ n, (pt_data p, to_string n)) suffixes
                   end)
           | _ => Undef "prefix list without two elements"
           end);
      rest ← prefix_pairs l';
      mret (here ++ rest)
  end.

Definition flatten_prefixList (root : ptree) : res (list string) :=
  l ← prefix_pairs (pt_children root); mret (map (λ ps, ps.1 +:+ ps.2) l).

(** ** Host names *)

Section Names.
Context `{FluxEnv}.

(** Splitting a host name before the digits at its end. *)
Definition split_at_nid (hostname : string) : string * string :=
  match find_last_not_of is_digit hostname with
  | None => (hostname, "")
  | Some i => (substr 0 (S i) hostname, drop_str (S i) hostname)
  end.

Definition re_zero_pad_nid (prefix suffix : string) : res string :=
  self ← or_throw flux_gethostname "gethostname failed";
  let '(self_prefix, self_nid) := split_at_nid self in
  let '(host_prefix, host_nid) := split_at_nid (prefix +:+ suffix) in
  if (String.length host_prefix =? String.length self_prefix)%nat &&
     (String.length host_nid <? String.length self_nid)%nat
  then mret (host_prefix +:+
             zeros (String.length self_nid - String.length host_nid) +:+ host_nid)
  else mret (prefix +:+ suffix).

Fixpoint host_names (l : list (string * string)) : res (list string) :=
  match l with
  | [] => Ok []
  | (p, s) :: l' => h ← re_zero_pad_nid p s; rest ← host_names l'; mret (h :: rest)
  end.

(** ** Placement *)

(** The number of occurrences of each name. *)
Definition count_hosts (names : list string) : gmap string nat :=
  foldl (λ m h, <[h := S (default 0%nat (m !! h))]> m) ∅ names.

(** A rank and a process id, stored in a pair of [int]. *)
Definition narrow_pair (rp : Z * Z) : Z * Z :=
  (to_signed 4 (rp.1 mod 2 ^ 32), to_signed 4 (rp.2 mod 2 ^ 32)).

(** Hosts in order, each taking as many pairs as it has processes. *)
Fixpoint assign (hosts : list string) (counts : gmap string nat) (pairs : list (Z * Z))
    : list HostPlacement :=
  match hosts with
  | [] => []
  | h :: hosts' =>
      let n := default 0%nat (counts !! h) in
      MkPlacement h 0 n (take n pairs) :: assign hosts' counts (drop n pairs)
  end.

Definition get_child (name : string) (t : ptree) : res ptree :=
  or_throw (snd <$> List.find (λ c, bool_decide (c.1 = name)) (pt_children t)) "No such node".

Definition make_hostsPlacement (root : ptree) : res (list HostPlacement) :=
  hosts ← get_child "hosts" root;
  entries ← prefix_pairs (pt_children hosts);
  names ← host_names entries;
  ids ← get_child "ids" root;
  ranks ← flatten_rangeList ids;
  pidTree ← get_child "pids" root;
  pids ← flatten_rangeList pidTree;
  if negb (length ranks =? length names)%nat
  then Throw "mismatch between rank and hostname count from Flux API"
  else if negb (length pids =? length names)%nat
  then Throw "mismatch between PID and hostname count from Flux API"
  else
    let counts := count_hosts names in
    Ok (assign (sorted_keys counts) counts (map narrow_pair (zip ranks pids))).

(** ** Backend files *)

Fixpoint layout_entries (l : list HostPlacement) (first_pe : Z) : res bytes :=
  match l with
  | [] => Ok []
  | p :: l' =>
      e ← layout_entry (hp_hostname p) first_pe (Z.of_nat (hp_numPEs p));
      rest ← layout_entries l' (first_pe + Z.of_nat (hp_numPEs p));
      mret (e ++ rest)
  end.

(** The contents of the layout file and of the file of process ids. *)
Definition createNodeLayoutFile (l : list HostPlacement) : res bytes :=
  es ← layout_entries l 0; mret (enc_le 4 (Z.of_nat (length l)) ++ es).

Definition createPIDListFile (l : list HostPlacement) : bytes :=
  let num := foldl (λ n p, (n + length (hp_rankPidPairs p))%nat) 0%nat l in
  enc_le 4 (Z.of_nat num) ++
  flat_map (λ p, flat_map (λ rp : Z * Z, enc_le 4 rp.2) (hp_rankPidPairs p)) l.

(** ** Job identifiers *)

(** U+0192 in UTF-8 *)
Definition utf8_prefix : string := String "198" (String "146" "").

Fixpoint skip_unprintable (s : string) : string :=
  match s with
  | String c s' => if is_alnum c then s else skip_unprintable s'
  | "" => ""
  end.

(** The first attempt that succeeds. *)
Fixpoint first_parse (attempts : list (bool * string)) : option Z :=
  match attempts with
  | [] => None
  | (applies, s) :: rest =>
      if (applies : bool)
      then match flux_job_id_parse s with Some id => Some id | None => first_parse rest end
      else first_parse rest
  end.

Definition parse_job_id (raw : string) : res Z :=
  match raw with
  | "" => Throw "provided empty job ID"
  | String c rest =>
      or_throw (first_parse
        [(string_forall is_digit raw, raw);
         ((negb flux_force_ascii && starts_with utf8_prefix raw) ||
            bool_decide (c = "f"%char), raw);
         (bool_decide (c = "F"%char), String "f" rest);
         (negb (is_empty (skip_unprintable raw)), String "f" raw)])
        ("failed to parse Flux job ID: " +:+ raw)
  end.
End Names.
End Flux.

(** ** Specification of the compressed lists *)

(** Runs of numbers: one number, consecutive numbers, copies of a number. *)
Inductive run : Type :=
| ROne (v : Z)
| RSpan (v more : Z)
| RCopies (v more : Z).

Definition run_values (r : run) : list Z :=
  match r with
  | ROne v => [v]
  | RSpan v k => seqZ v (k + 1)
  | RCopies v k => replicate (Z.to_nat (k + 1)) v
  end.

(** The number the next run is relative to. *)
Definition run_end (r : run) : Z :=
  match r with ROne v => v | RSpan v k => v + k | RCopies v _ => v end.

Definition leaf (z : Z) : ptree := PTree (to_string z) [].

(** The encoding Flux uses, relative to a base. *)
Definition encode_run (base : Z) (r : run) : ptree :=
  match r with
  | ROne v => leaf (v - base)
  | RSpan v k => PTree "" [("", leaf (v - base)); ("", leaf k)]
  | RCopies v k => PTree "" [("", leaf (v - base)); ("", leaf (- k))]
  end.

Fixpoint encode_runs (base : Z) (l : list run) : list (string * ptree) :=
  match l with
  | [] => []
  | r :: l' => ("", encode_run base r) :: encode_runs (run_end r) l'
  end.

(** Numbers that fit the encoding. *)
Definition run_ok (r : run) : Prop :=
  match r with
  | ROne v => 0 ≤ v ≤ int_max
  | RSpan v k => 0 ≤ v ∧ 0 ≤ k ∧ v + k ≤ int_max
  | RCopies v k => 0 ≤ v ≤ int_max ∧ 1 ≤ k < int_max
  end.

(** ** Lemmas *)

Section FluxLemmas.
Context `{PTreeNum}.

Lemma in_int_iff (z : Z) : in_int z = true ↔ int_min ≤ z ≤ int_max.
Proof. unfold in_int. rewrite andb_true_iff, !Z.leb_le. done. Qed.

Lemma in_int64_iff (z : Z) : in_int64 z = true ↔ int64_min ≤ z ≤ int64_max.
Proof. unfold in_int64. rewrite andb_true_iff, !Z.leb_le. done. Qed.

Lemma add64_small (a b : Z) : 0 ≤ a + b ≤ int_max → add64 a b = Ok (a + b).
Proof.
  intros Hab. unfold add64. assert (in_int64 (a + b) = true) as ->; [|done].
  apply in_int64_iff. unfold int64_min, int64_max, int_max in *. lia.
Qed.

Lemma leaf_data (z : Z) : is_empty (pt_data (leaf z)) = false.
Proof.
  destruct (is_empty (pt_data (leaf z))) eqn:E; [|done].
  apply is_empty_spec in E. by apply to_string_nonempty in E.
Qed.

Lemma get_leaf (z : Z) (what : string) :
  in_int z = true → or_throw (get_value_int (pt_data (leaf z))) what = Ok z.
Proof. intros Hz. cbn. by rewrite get_value_int_num. Qed.

Lemma parse_run (r : run) (base : Z) :
  run_ok r → 0 ≤ base ≤ int_max →
  ∃ elem, parse_rangeList (encode_run base r) base = Ok ([elem], run_end r) ∧
    expand elem = run_values r ∧ countable elem = true ∧ 0 ≤ run_end r ≤ int_max.
Proof.
  intros Hr Hb. unfold int_max in *. destruct r as [v|v k|v k]; cbn in Hr; unfold int_max in Hr.
  - exists (RLE v 1). cbn [encode_run]. unfold parse_rangeList. rewrite leaf_data. cbn [negb].
    cbn [pt_data leaf]. rewrite get_value_int64_num
      by (apply in_int64_iff; unfold int64_min, int64_max; lia).
    cbn [or_throw]. unfold mbind, res_bind.
    rewrite add64_small by (unfold int_max; lia).
    replace (base + (v - base)) with v by lia. done.
  - exists (Range v (v + k)). cbn [encode_run]. unfold parse_rangeList. cbn [pt_data is_empty negb
      pt_children].
    rewrite !get_leaf by (apply in_int_iff; unfold int_min, int_max; lia).
    unfold mbind, res_bind. cbn [range_repeat]. unfold mbind, res_bind.
    rewrite add64_small by (unfold int_max; lia).
    replace (v - base + base) with v by lia.
    destruct (Z.ltb_spec v 0); [lia|]. destruct (Z.ltb_spec k 0); [lia|].
    rewrite add64_small by (unfold int_max; lia). cbn [mret res_ret run_end expand run_values countable].
    split_and!; [done|f_equal; lia|apply Z.ltb_lt; unfold int64_max; lia|lia..].
  - exists (RLE v (k + 1)). cbn [encode_run]. unfold parse_rangeList. cbn [pt_data is_empty negb
      pt_children].
    rewrite !get_leaf by (apply in_int_iff; unfold int_min, int_max; lia).
    unfold mbind, res_bind. cbn [range_repeat]. unfold mbind, res_bind.
    rewrite add64_small by (unfold int_max; lia).
    replace (v - base + base) with v by lia.
    destruct (Z.ltb_spec v 0); [lia|]. destruct (Z.ltb_spec (- k) 0); [|lia].
    assert (in_int (- - k + 1) = true) as -> by (apply in_int_iff; unfold int_min, int_max; lia).
    rewrite Z.opp_involutive. cbn [mret res_ret run_end expand run_values countable].
    split_and!; [done..|lia|lia].
Qed.

Lemma flatten_runs (l : list run) (base : Z) :
  Forall run_ok l → 0 ≤ base ≤ int_max →
  flatten_from (encode_runs base l) base = Ok (flat_map run_values l).
Proof.
  revert base. induction l as [|r l IH]; intros base Hl Hb; [done|].
  apply Forall_cons in Hl as [Hr Hl]. cbn [encode_runs flatten_from flat_map].
  destruct (parse_run r base Hr Hb) as (elem & -> & He & Hc & Hend).
  unfold mbind, res_bind. cbn [forallb]. rewrite Hc, IH by done. cbn [andb mret res_ret flat_map].
  by rewrite He, app_nil_r.
Qed.
End FluxLemmas.

(** *** Grouping by host *)

Lemma count_hosts_lookup (names : list string) (h : string) :
  default 0%nat (count_hosts names !! h) = count_occ string_dec names h.
Proof.
  unfold count_hosts.
  assert (∀ m : gmap string nat, default 0%nat (foldl (λ m h, <[h := S (default 0%nat (m !! h))]> m) m names !! h)
    = (default 0%nat (m !! h) + count_occ string_dec names h)%nat) as Hg.
  { induction names as [|x names IH]; intros m; cbn [foldl count_occ]; [lia|].
    rewrite IH. destruct (string_dec x h) as [->|Hne].
    - rewrite lookup_insert_eq. cbn. lia.
    - by rewrite lookup_insert_ne. }
  by rewrite Hg, lookup_empty.
Qed.

Lemma count_hosts_dom (names : list string) (h : string) :
  is_Some (count_hosts names !! h) ↔ h ∈ names.
Proof.
  unfold count_hosts.
  assert (∀ m : gmap string nat,
    is_Some (foldl (λ m h, <[h := S (default 0%nat (m !! h))]> m) m names !! h)
    ↔ is_Some (m !! h) ∨ h ∈ names) as Hg.
  { induction names as [|x names IH]; intros m; cbn [foldl].
    - split; [by left|]. by intros [?|?%elem_of_nil].
    - rewrite IH, elem_of_cons. destruct (decide (x = h)) as [->|Hne].
      + rewrite lookup_insert_eq. split; intros _; [right; by left|left; by eexists].
      + rewrite lookup_insert_ne by done. split; [intros [?|?]; auto|].
        intros [?|[?|?]]; [by left|congruence|by right]. }
  rewrite Hg, lookup_empty. split; [by intros [[? [=]]|?]|by right].
Qed.

(** The hosts, each as often as it occurs. *)
Definition grouped (counts : gmap string nat) (hosts : list string) : list string :=
  flat_map (λ h, replicate (default 0%nat (counts !! h)) h) hosts.

Lemma count_occ_replicate (n : nat) (x h : string) :
  count_occ string_dec (replicate n x) h = if decide (x = h) then n else 0%nat.
Proof.
  induction n as [|n IH]; cbn; [by case_decide|].
  destruct (string_dec x h); rewrite IH; by case_decide.
Qed.

Lemma count_occ_grouped (counts : gmap string nat) (hosts : list string) (h : string) :
  NoDup hosts →
  count_occ string_dec (grouped counts hosts) h
  = if decide (h ∈ hosts) then default 0%nat (counts !! h) else 0%nat.
Proof.
  unfold grouped. induction hosts as [|x hosts IH]; intros Hnd; cbn [flat_map].
  { cbn. rewrite decide_False; [done|]. by intros ?%elem_of_nil. }
  apply NoDup_cons in Hnd as [Hx Hnd].
  rewrite count_occ_app, count_occ_replicate, IH by done.
  destruct (decide (x = h)) as [->|Hne].
  - rewrite (decide_True _ _ (list_elem_of_here h hosts)). destruct (decide (h ∈ hosts)); [done|lia].
  - destruct (decide (h ∈ hosts)), (decide (h ∈ x :: hosts)) as [Hin|Hin]; try lia.
    + destruct Hin. by right.
    + apply elem_of_cons in Hin as [?|?]; [congruence|done].
Qed.

Lemma grouped_Permutation (names : list string) :
  grouped (count_hosts names) (sorted_keys (count_hosts names)) ≡ₚ names.
Proof.
  apply (Permutation_count_occ string_dec). intros h.
  rewrite count_occ_grouped by apply NoDup_sorted_elements.
  rewrite count_hosts_lookup. destruct (decide _) as [Hin|Hin]; [done|].
  rewrite elem_of_sorted_keys, count_hosts_dom in Hin. symmetry.
  apply count_occ_not_In. by rewrite <-list_elem_of_In.
Qed.

Lemma grouped_sorted (counts : gmap string nat) (hosts : list string) :
  StronglySorted string_le hosts → StronglySorted string_le (grouped counts hosts).
Proof.
  unfold grouped. induction 1 as [|h hosts Hs IH Hall]; cbn [flat_map]; [constructor|].
  induction (default 0%nat (counts !! h)) as [|n IHn]; cbn [replicate app]; [done|].
  constructor; [done|]. apply Forall_app. split.
  - apply Forall_replicate. reflexivity.
  - apply Forall_forall. intros x Hx. apply list_elem_of_In, in_flat_map in Hx as (y & Hy & Hx).
    apply list_elem_of_In, elem_of_replicate in Hx as [-> _].
    rewrite Forall_forall in Hall. apply Hall. by apply list_elem_of_In.
Qed.

(** Names in order are what grouping them gives back. *)
Lemma grouped_sorted_names (names : list string) :
  Sorted string_le names → grouped (count_hosts names) (sorted_keys (count_hosts names)) = names.
Proof.
  intros Hs. apply (Sorted_unique string_le); [|done|apply grouped_Permutation].
  apply StronglySorted_Sorted, grouped_sorted, StronglySorted_sorted_elements.
Qed.

(** Which host each rank and process id is attributed to. *)
Definition attributed (l : list HostPlacement) : list (string * (Z * Z)) :=
  flat_map (λ p, map (λ rp, (hp_hostname p, rp)) (hp_rankPidPairs p)) l.

Lemma zip_replicate {A : Type} (h : string) (n : nat) (rest : list string) (pairs : list A) :
  (n ≤ length pairs)%nat →
  zip (replicate n h ++ rest) pairs = map (λ rp, (h, rp)) (take n pairs) ++ zip rest (drop n pairs).
Proof.
  revert pairs. induction n as [|n IH]; intros pairs Hn; [done|].
  destruct pairs as [|x pairs]; [cbn in Hn; lia|]. cbn in *. by rewrite IH by lia.
Qed.

Lemma attributed_assign (hosts : list string) (counts : gmap string nat) (pairs : list (Z * Z)) :
  length (grouped counts hosts) = length pairs →
  attributed (assign hosts counts pairs) = zip (grouped counts hosts) pairs ∧
  concat (map hp_rankPidPairs (assign hosts counts pairs)) = pairs ∧
  Forall (λ p, hp_numPEs p = default 0%nat (counts !! hp_hostname p) ∧
               length (hp_rankPidPairs p) = hp_numPEs p) (assign hosts counts pairs) ∧
  map hp_hostname (assign hosts counts pairs) = hosts.
Proof.
  unfold grouped, attributed. revert pairs. induction hosts as [|h hosts IH]; intros pairs Hl.
  { destruct pairs; [by split_and!|done]. }
  cbn [assign flat_map] in *. set (n := default 0%nat (counts !! h)) in *.
  rewrite length_app, length_replicate in Hl.
  destruct (IH (drop n pairs)) as (H1 & H2 & H3 & H4); [rewrite length_drop; lia|].
  split_and!.
  - cbn [hp_hostname hp_rankPidPairs]. rewrite H1. symmetry. apply zip_replicate. lia.
  - cbn [map concat hp_rankPidPairs]. rewrite H2. apply take_drop.
  - constructor; [|done]. cbn. split; [done|]. rewrite length_take. lia.
  - cbn [map hp_hostname]. by rewrite H4.
Qed.

(** ** Properties *)

Section Theorems.
Context `{PTreeNum} `{FluxEnv}.

(** The host of each process, the ranks and the process ids of a process table, each
    in the order of the table. *)
Definition proctable (root : ptree) (names : list string) (ranks pids : list Z) : Prop :=
  ∃ hosts entries ids pidTree,
    get_child "hosts" root = Ok hosts ∧ prefix_pairs (pt_children hosts) = Ok entries ∧
    host_names entries = Ok names ∧
    get_child "ids" root = Ok ids ∧ flatten_rangeList ids = Ok ranks ∧
    get_child "pids" root = Ok pidTree ∧ flatten_rangeList pidTree = Ok pids.

Lemma res_bind_Ok {A B : Type} (m : res A) (k : A → res B) (b : B) :
  (m ≫= k) = Ok b → ∃ a, m = Ok a ∧ k a = Ok b.
Proof. unfold mbind, res_bind. destruct m as [a| |]; [|done..]. by exists a. Qed.

Lemma placement_run (root : ptree) (names : list string) (ranks pids : list Z) :
  proctable root names ranks pids → length ranks = length names → length pids = length names →
  make_hostsPlacement root = Ok (assign (sorted_keys (count_hosts names)) (count_hosts names)
    (map narrow_pair (zip ranks pids))).
Proof.
  intros (hosts & entries & ids & pidTree & E1 & E2 & E3 & E4 & E5 & E6 & E7) Hr Hp.
  unfold make_hostsPlacement, mbind, res_bind. rewrite E1, E2, E3, E4, E5, E6, E7.
  by rewrite Hr, Hp, Nat.eqb_refl.
Qed.

Lemma placement_inv (root : ptree) (l : list HostPlacement) :
  make_hostsPlacement root = Ok l →
  ∃ names ranks pids, proctable root names ranks pids ∧
    length ranks = length names ∧ length pids = length names ∧
    l = assign (sorted_keys (count_hosts names)) (count_hosts names) (map narrow_pair (zip ranks pids)).
Proof.
  intros E. unfold make_hostsPlacement in E.
  apply res_bind_Ok in E as (hosts & E1 & E). apply res_bind_Ok in E as (entries & E2 & E).
  apply res_bind_Ok in E as (names & E3 & E). apply res_bind_Ok in E as (ids & E4 & E).
  apply res_bind_Ok in E as (ranks & E5 & E). apply res_bind_Ok in E as (pidTree & E6 & E).
  apply res_bind_Ok in E as (pids & E7 & E).
  destruct (Nat.eqb_spec (length ranks) (length names)) as [Hr|]; [|done].
  destruct (Nat.eqb_spec (length pids) (length names)) as [Hp|]; [|done].
  injection E as <-. exists names, ranks, pids. split_and!; try done. by exists hosts, entries, ids, pidTree.
Qed.

Lemma length_zip_pairs {A B : Type} (l : list A) (k : list B) :
  length l = length k → length (zip l k) = length l.
Proof. revert k. induction l as [|a l IH]; intros [|b k]; cbn; try done. intros [= ?]. by rewrite IH. Qed.

Lemma length_grouped (names : list string) :
  length (grouped (count_hosts names) (sorted_keys (count_hosts names))) = length names.
Proof. by rewrite grouped_Permutation. Qed.

(** Range lists round trip.  The compressed form of any list of runs of numbers,
    each relative to the end of the one before, is expanded to exactly the numbers
    of the runs. *)
Theorem flatten_encoded_runs (l : list run) :
  Forall run_ok l →
  flatten_rangeList (PTree "" (encode_runs 0 l)) = Ok (flat_map run_values l).
Proof. intros Hl. apply flatten_runs; [done|]. unfold int_max. lia. Qed.

(** No process is lost or invented.  When the placement of a process table is
    built, the hosts are distinct and in order, each host has as many processes as
    it occurs in the table, and the ranks and process ids, read host by host, are
    exactly those of the table in the table's order, cut to 32 bits. *)
Theorem placement_conserves (root : ptree) (l : list HostPlacement) :
  make_hostsPlacement root = Ok l →
  ∃ names ranks pids, proctable root names ranks pids ∧
    length ranks = length names ∧ length pids = length names ∧
    NoDup (map hp_hostname l) ∧ StronglySorted string_le (map hp_hostname l) ∧
    (∀ h, h ∈ map hp_hostname l ↔ h ∈ names) ∧
    Forall (λ p, hp_numPEs p = count_occ string_dec names (hp_hostname p) ∧
                 length (hp_rankPidPairs p) = hp_numPEs p) l ∧
    concat (map hp_rankPidPairs l) = map narrow_pair (zip ranks pids).
Proof.
  intros (names & ranks & pids & Ht & Hr & Hp & ->)%placement_inv.
  destruct (attributed_assign (sorted_keys (count_hosts names)) (count_hosts names)
    (map narrow_pair (zip ranks pids))) as (_ & H2 & H3 & H4).
  { rewrite length_grouped, length_map, length_zip_pairs; congruence. }
  exists names, ranks, pids. rewrite H4. split_and!; try done.
  - apply NoDup_sorted_elements.
  - apply StronglySorted_sorted_elements.
  - intros h. by rewrite elem_of_sorted_keys, count_hosts_dom.
  - eapply Forall_impl; [exact H3|]. intros p [E1' E2'].
    split; [by rewrite E1', count_hosts_lookup|done].
Qed.

(** With the hosts of the table in order, every rank and process id is attributed
    to the host the table gives it. *)
Theorem placement_attributes (root : ptree) (names : list string) (ranks pids : list Z) :
  proctable root names ranks pids → length ranks = length names → length pids = length names →
  Sorted string_le names →
  ∃ l, make_hostsPlacement root = Ok l ∧ attributed l = zip names (map narrow_pair (zip ranks pids)).
Proof.
  intros Ht Hr Hp Hs. eexists. split; [by apply (placement_run root names ranks pids)|].
  destruct (attributed_assign (sorted_keys (count_hosts names)) (count_hosts names)
    (map narrow_pair (zip ranks pids))) as (-> & _).
  { rewrite length_grouped, length_map, length_zip_pairs; congruence. }
  by rewrite grouped_sorted_names.
Qed.
End Theorems.

(** ** Concrete tables *)

Lemma demo_num (ok : Z → bool) (z : Z) :
  ok z = true →
  match read_int (to_string z) with
  | Some (n, rest) => if is_empty (skip_space rest) && ok n then Some n else None
  | None => None
  end = Some z.
Proof. intros Hz. rewrite read_int_to_string. cbn. by rewrite Hz. Qed.

(** Decimal numbers between optional white space. *)
#[export] Instance demo_ptree_num : PTreeNum := {|
  get_value_int64 s := match read_int s with
    | Some (n, rest) => if is_empty (skip_space rest) && in_int64 n then Some n else None
    | None => None end;
  get_value_int s := match read_int s with
    | Some (n, rest) => if is_empty (skip_space rest) && in_int n then Some n else None
    | None => None end;
  get_value_int64_num := demo_num in_int64;
  get_value_int_num := demo_num in_int |}.

(** A login node outside of the job, and job ids of the form f58. *)
#[export] Instance demo_flux : FluxEnv := {|
  flux_job_id_parse s := if decide (s = "fABC") then Some 42 else None;
  flux_force_ascii := false;
  flux_gethostname := Some "login" |}.

(** The table of the comments: node[first..first+more], with ranks and process ids. *)
Definition demo_hosts (first more : Z) : ptree :=
  PTree "" [("", PTree "" [("", PTree "node" []); ("", PTree "" (encode_runs 0 [RSpan first more]))])].

Definition demo_numbers (first more : Z) : ptree := PTree "" (encode_runs 0 [RSpan first more]).

Definition demo_table (first more : Z) : ptree :=
  PTree "" [("hosts", demo_hosts first more);
            ("executables", PTree "" [("", PTree "/bin/a.out" [])]);
            ("ids", demo_numbers 0 more); ("pids", demo_numbers 7000 more)].

(** Ranks follow the order of the names, not of the table.  In a job on the
    unpadded hosts node9 and node10 the table lists node9 first, with rank 0 and
    process id 7000; the placement gives both to node10. *)
Theorem placement_misattributes :
  proctable (demo_table 9 1) ["node9"; "node10"] [0; 1] [7000; 7001] ∧
  make_hostsPlacement (demo_table 9 1)
  = Ok [MkPlacement "node10" 0 1 [(0, 7000)]; MkPlacement "node9" 0 1 [(1, 7001)]].
Proof.
  split; [|vm_compute; reflexivity].
  exists (demo_hosts 9 1), [("node", "9"); ("node", "10")], (demo_numbers 0 1), (demo_numbers 7000 1).
  split_and!; vm_compute; reflexivity.
Qed.

(** The last resort for job identifiers tries the wrong text.  When a terminal has
    put another character in place of the prefix, the characters before the first
    letter or digit are skipped only to see whether anything is left: the text given
    to libflux is "f" and the whole identifier, the wrong character included. *)
Theorem job_id_prefix_not_skipped `{FluxEnv} (c : ascii) (rest : string) :
  is_alnum c = false → starts_with utf8_prefix (String c rest) = false →
  parse_job_id (String c rest)
  = or_throw (if is_empty (skip_unprintable rest) then None
              else flux_job_id_parse (String "f" (String c rest)))
      ("failed to parse Flux job ID: " +:+ String c rest).
Proof.
  intros Hc Hp. assert (is_digit c = false) as Hd.
  { unfold is_alnum in Hc. by apply orb_false_iff in Hc as [[? ?]%orb_false_iff _]. }
  assert (c ≠ "f"%char ∧ c ≠ "F"%char) as [Hf HF] by (split; intros ->; discriminate Hc).
  unfold parse_job_id. rewrite Hp. cbn [first_parse string_forall skip_unprintable].
  rewrite Hd, Hc, andb_false_r, !bool_decide_false by done. cbn [orb andb].
  destruct (is_empty (skip_unprintable rest)); [done|]. cbn [negb].
  by destruct (flux_job_id_parse _).
Qed.

Lemma job_id_prefix_not_skipped_witness :
  skip_unprintable "?ABC" = "ABC" ∧ flux_job_id_parse "fABC" = Some 42 ∧
  parse_job_id "?ABC" = Throw "failed to parse Flux job ID: ?ABC".
Proof.
  split; [reflexivity|split; [reflexivity|]].
  rewrite (job_id_prefix_not_skipped "?"%char "ABC" eq_refl eq_refl). vm_compute. reflexivity.
Defined.

Lemma flatten_encoded_runs_witness :
  flatten_rangeList (PTree "" (encode_runs 0 [RSpan 1 2; RCopies 8 1])) = Ok [1; 2; 3; 8; 8].
Proof.
  refine (flatten_encoded_runs [RSpan 1 2; RCopies 8 1] _).
  repeat constructor; vm_compute; discriminate.
Defined.

Lemma placement_conserves_witness :
  ∃ names ranks pids, proctable (demo_table 10 1) names ranks pids ∧
    concat (map hp_rankPidPairs
      [MkPlacement "node10" 0 1 [(0, 7000)]; MkPlacement "node11" 0 1 [(1, 7001)]])
    = map narrow_pair (zip ranks pids).
Proof.
  destruct (placement_conserves (demo_table 10 1)
    [MkPlacement "node10" 0 1 [(0, 7000)]; MkPlacement "node11" 0 1 [(1, 7001)]])
    as (names & ranks & pids & H1 & _ & _ & _ & _ & _ & _ & H2); [vm_compute; reflexivity|].
  exists names, ranks, pids. split; [exact H1|exact H2].
Defined.

Lemma demo_table_10 : proctable (demo_table 10 1) ["node10"; "node11"] [0; 1] [7000; 7001].
Proof.
  exists (demo_hosts 10 1), [("node", "10"); ("node", "11")], (demo_numbers 0 1), (demo_numbers 7000 1).
  split_and!; vm_compute; reflexivity.
Qed.

Lemma placement_attributes_witness :
  ∃ l, make_hostsPlacement (demo_table 10 1) = Ok l ∧
    attributed l = [("node10", (0, 7000)); ("node11", (1, 7001))].
Proof.
  apply (placement_attributes (demo_table 10 1) ["node10"; "node11"] [0; 1] [7000; 7001] demo_table_10
    eq_refl eq_refl).
  repeat constructor.
Defined.
