(* ===== verification/FluxApp.v ===== *)
(** * Flux: applications (src/src/frontend/frontend_impl/Flux/Frontend.cpp)

    Submitting jobs, waiting for them to start, the constructor of an application with the files
    it makes for the backend, packages through flux archive, daemons as jobs, the check for files
    and the clean-up.  libflux, the parser of JSON and the versions of the build are the class
    [LibFlux].  Two functions keep their first result in a variable of the process, which is part
    of the state.  Descriptors and input files of launches are not modelled, nor is the child
    between its start and the start of flux. *)

From S2P Require Import Prelude Split Host Wire BackendFiles Daemon Handlers FEIface System SlurmJobs ConfigDir Requests.
From S2P Require Import Detect Paths BeState BeLayout FluxAPI.

Inductive rpc_result : Type :=
| NoFuture (why : string)
| RpcFailed (error : option string)
| RpcAnswer (text : option string).

(** Opening the connection: interrupted, or failed for a reason. *)
Inductive open_result : Type :=
| Opened
| Interrupted
| OpenFailed (why : string).

Class LibFlux : Type := {
  parse_json : string → res ptree;
  load_libflux : string → res ();
  flux_opened : list sys_event → open_result;
  (** the identifier of a job, or the message of a failure *)
  submitted : list sys_event → Z + option string;
  (** watching events: whether that is possible, and the next event *)
  event_watch : list sys_event → bool;
  event_text : list sys_event → option string;
  rpc : list sys_event → rpc_result;
  (** the end of a job: a message of a failure to wait, or success and a message *)
  job_waited : list sys_event → option string + bool * option string;
  flux_job_id_encode : Z → string + string;
  flux_attr_get : string → option string;
  (** the process that was started, or the reason why there is none *)
  flux_fork : list sys_event → Z + string;
  exe_of : list sys_event → Z → option string;
  FLUX_JOB_STATE_RUN : Z;
  FLUX_NODEID_ANY : Z;
  FLUX_CORE_VERSION_STRING : string;
  minimum_version : Z * Z
}.

(** ** Text *)

(** [basename] and [dirname] of paths *)
Fixpoint from_slash (s : list ascii) : list ascii :=
  match s with
  | c :: s' => if decide (c = "/"%char) then s else from_slash s'
  | [] => []
  end.

Definition posix_dirname (path : string) : string :=
  let p := from_slash (drop_slashes (rev (list_ascii_of_string path))) in
  let d := drop_slashes p in
  if bool_decide (drop_slashes (rev (list_ascii_of_string path)) = []) && negb (is_empty path) then "/"
  else if bool_decide (p = []) then "."
  else if bool_decide (d = []) then "/" else string_of_list_ascii (rev d).

Definition cstr_dirname (path : string) : string := if is_empty path then "" else posix_dirname path.

Definition no_error (error : option string) : string := default "(no error provided)" error.

(** ** Data *)

Record LaunchInfo : Type := MkLaunchInfo { jobId : Z; atBarrier : bool }.

Record FluxApp : Type := MkFluxApp {
  m_frontend : frontend_data;
  m_launcherName : string;
  m_daemonAppId : Z;
  m_jobId : Z;
  m_leaderRank : Z;
  m_rpcService : string;
  m_resourceSpec : string;
  m_numPEs : Z;
  m_hostsPlacement : list HostPlacement;
  m_binaryName : string;
  m_toolPath : string;
  m_stagePath : string;
  m_extraFiles : list string;
  getBEDaemonName : string
}.

(** The process: the system, and what the functions of all applications have kept. *)
Record process : Type := MkProcess {
  pr_sys : sys;
  pr_jobIdF58 : option string;
  pr_binaryRankMap : option (gmap string (list Z))
}.

Definition on_sys {A : Type} (m : M sys A) : M process A :=
  zoom pr_sys (λ s p, MkProcess s (pr_jobIdF58 p) (pr_binaryRankMap p)) m.

(** What operations of an application change: m_beDaemonSent, m_allocBypassLoaded, m_atBarrier and
    m_daemonJobIds. *)
Record app_state : Type := MkAppState {
  as_sys : sys; as_sent : bool; as_bypass : bool; as_atBarrier : bool; as_jobs : list Z
}.

Definition in_app {A : Type} (m : M sys A) : M app_state A :=
  zoom as_sys (λ s st, MkAppState s (as_sent st) (as_bypass st) (as_atBarrier st) (as_jobs st)) m.

Definition set_sent (st : app_state) : app_state :=
  MkAppState (as_sys st) true (as_bypass st) (as_atBarrier st) (as_jobs st).

Definition set_bypass (st : app_state) : app_state :=
  MkAppState (as_sys st) (as_sent st) true (as_atBarrier st) (as_jobs st).

Definition set_released (st : app_state) : app_state :=
  MkAppState (as_sys st) (as_sent st) (as_bypass st) false (as_jobs st).

Definition add_job (id : Z) (st : app_state) : app_state :=
  MkAppState (as_sys st) (as_sent st) (as_bypass st) (as_atBarrier st) (as_jobs st ++ [id]).

Section Flux.
Context `{Host} `{Commands} `{FrontendDaemon} `{PTreeNum} `{FluxEnv} `{LibFlux}.

(** A call and what it answers. *)
Definition call {A : Type} (name : string) (args : list string) (answer : list sys_event → A) : M sys A :=
  sys_emit (SCall name args);; s ← get; mret (answer (sys_trace s)).

(** [get<std::string>(name)] and [get<int>(name)] *)
Definition json_string (name : string) (t : ptree) : res string :=
  c ← get_child name t; mret (pt_data c).

Definition json_int (name : string) (t : ptree) : res Z :=
  c ← get_child name t; or_throw (get_value_int (pt_data c)) "conversion of data failed".

(** ** Job specifications *)

Definition jobspec_argv (launcher_name chdirPath : string) (launcher_args env_list : list string)
    (jobAttributes : list (string * string)) : list string :=
  [launcher_name; "submit"; "--dry-run"] ++
  (if is_empty chdirPath then [] else ["--setattr=system.cwd=" +:+ chdirPath]) ++
  map (λ v, "--env=" +:+ v) env_list ++
  map (λ '(attr, setting), "--setattr=" +:+ attr +:+ "=" +:+ setting) jobAttributes ++
  launcher_args.

Definition make_jobspec (launcher_name chdirPath : string) (launcher_args env_list : list string)
    (jobAttributes : list (string * string)) : M sys string :=
  let argv := jobspec_argv launcher_name chdirPath launcher_args env_list jobAttributes in
  result ← Execvp_text argv;
  status ← getExitStatus argv;
  if negb (status =? 0)
  then throw ("The Flux launcher failed to validate the provided launcher arguments: " +:+ nl +:+ result)
  else mret result.

(** ** Events of a job *)

(** The note of the first exception that has one, each line on its own. *)
Fixpoint exception_note (lines : list string) : res (option string) :=
  match lines with
  | [] => Ok None
  | line :: lines' =>
      root ← parse_json line;
      eventName ← json_string "name" root;
      if bool_decide (eventName = "exception")
      then
        context ← get_child "context" root;
        note ← json_string "note" context;
        if is_empty note then exception_note lines' else mret (Some note)
      else exception_note lines'
  end.

(** What fails afterwards does not matter, what fails before leaves no reason. *)
Definition get_eventlog_exception (job : string) : M sys string :=
  let argv := ["flux"; "job"; "eventlog"; "-f"; "json"; job] in
  catch_all
    (lines ← Execvp argv;
     note ← lift (exception_note lines);
     catch_all (getExitStatus argv;; mret tt) tt;;
     mret (no_error note))
    (no_error None).

(** The rank of the leader and the key of its service, from the event that says that the shell
    has started. *)
Fixpoint await_shell (fuel : nat) (job_id : Z) : M sys (Z * string) :=
  match fuel with
  | O => undef "events go on"
  | S fuel' =>
      eventlog_result ← call "flux_job_event_watch_get" [to_string job_id] event_text;
      match eventlog_result with
      | None =>
          reason ← get_eventlog_exception (to_string job_id);
          throw ("Flux launch failed: " +:+ reason)
      | Some text =>
          root ← lift (parse_json text);
          eventName ← lift (json_string "name" root);
          if bool_decide (eventName = "shell.init")
          then
            context ← lift (get_child "context" root);
            leaderRank ← lift (json_int "leader-rank" context);
            rpcService ← lift (json_string "service" context);
            if is_empty rpcService then throw "Flux API returned empty RPC service key"
            else mret (leaderRank, rpcService)
          else if bool_decide (eventName = "shell.exit")
          then throw "Flux reported job completion before job start"
          else await_shell fuel' job_id
      end
  end.

Definition get_rpc_service (fuel : nat) (job_id : Z) : M sys (Z * string) :=
  watching ← call "flux_job_event_watch" [to_string job_id; "guest.exec.eventlog"] event_watch;
  if watching : bool then await_shell fuel job_id else throw "Flux job event query failed".

Definition make_rpc_request (leader_rank : Z) (topic content : string) : M sys string :=
  answer ← call "flux_rpc_raw" [topic; content; to_string leader_rank] rpc;
  match answer with
  | NoFuture _ => throw "Flux query failed"
  | RpcFailed error => throw ("Flux query with topic " +:+ topic +:+ " failed: " +:+ no_error error)
  | RpcAnswer text => mret (default "" text)
  end.

(** The first byte of the prefix replaces nothing, the last one the letter that libflux writes. *)
Definition encode_job_id (job_id : Z) : res string :=
  match flux_job_id_encode job_id with
  | inr why => Throw ("failed to encode Flux job id: " +:+ why)
  | inl f58 => Ok (if flux_force_ascii then f58 else utf8_prefix +:+ drop_str 1 f58)
  end.

Definition cancel_job (id : Z) (reason : string) : M sys () := sys_emit (SCall "flux_job_cancel" [to_string id; reason]).

(** ** Launching *)

Definition launchApp (launcherName chdir_path : string) (launcher_args env_list : list string) (barrier : bool)
    : M sys LaunchInfo :=
  jobspec ← make_jobspec launcherName chdir_path launcher_args env_list
              (if barrier then [("system.shell.options.stop-tasks-in-exec", "1")] else []);
  job ← call "flux_job_submit" [jobspec; "0"] submitted;
  match job with
  | inl job_id => mret (MkLaunchInfo job_id barrier)
  | inr error => throw ("Flux job launch failed: " +:+ no_error error)
  end.

(** [getJobid]: the job of a helper that runs. *)
Definition getJobid (pid : Z) : M sys string :=
  exe ← call "readlink" [to_string pid] (λ t, exe_of t pid);
  match exe with
  | None => throw ("failed to find executable for PID " +:+ to_string pid)
  | Some realExePath =>
      mpirData ← request (SAttach realExePath pid) req_launch;
      let id := res_mpir_id (fe_result mpirData) in
      result ← request (SReadString id "totalview_jobid") req_string;
      request (SReleaseMPIR id) req_done;;
      mret result
  end.

(** ** The frontend *)

Definition findFluxInstallDir (launcherName : string) : M sys string :=
  flux_install_dir ← System.getenv "FLUX_INSTALL_DIR";
  match flux_install_dir with
  | Some dir => mret dir
  | None =>
      match os_pathFind launcherName with
      | None => throw ("Could not find Flux launcher '" +:+ launcherName +:+ "' in PATH. " +:+
                       "Ensure the Flux launcher is accessible and executable")
      | Some launcher_path => lift (cstr_realpath (cstr_dirname launcher_path +:+ "/../"))
      end
  end.

Definition parse_flux_version (version : string) : res (Z * Z) :=
  let failed := Throw ("Failed to parse Flux version (" +:+ version +:+ ")") in
  match split_string 3 version "." with
  | major :: minor :: _ =>
      match stoi major, stoi minor with Ok (a, _), Ok (b, _) => Ok (a, b) | _, _ => failed end
  | _ => failed
  end.

Definition libflux_version (line : string) : option string :=
  match split_string 2 line ":" with
  | [key; value] => if bool_decide (key = "libflux-core") then Some (removeLeadingWhitespace value) else None
  | _ => None
  end.

Definition get_system_flux_version (launcher : string) : M sys (Z * Z) :=
  lines ← Execvp [launcher; "--version"];
  match omap libflux_version lines with
  | version :: _ => lift (parse_flux_version version)
  | [] => throw "Could not parse Flux version (tried `flux --version`)"
  end.

Fixpoint open_flux (fuel : nat) : M sys () :=
  match fuel with
  | O => undef "interrupted again and again"
  | S fuel' =>
      r ← call "flux_open" [] flux_opened;
      match r with
      | Opened => mret tt
      | Interrupted => open_flux fuel'
      | OpenFailed why => throw ("Flux initialization failed: " +:+ why)
      end
  end.

Definition older (v w : Z * Z) : bool := (v.1 <? w.1) || ((w.1 =? v.1) && (v.2 <? w.2)).

Definition version_text (v : Z * Z) : string := to_string v.1 +:+ "." +:+ to_string v.2.

(** What is thrown when the version is refused; a version other than that of the build is warned
    of. *)
Definition check_version (launcherName : string) : M sys () :=
  debug ← System.getenv "CTI_FLUX_DEBUG";
  if bool_decide (is_Some debug) then mret tt
  else
    lift (parse_flux_version (default "" (head (split_string 2 FLUX_CORE_VERSION_STRING "-"))));;
    version ← get_system_flux_version launcherName;
    if older version minimum_version
    then throw ("Mismatch between system's libflux-core version (" +:+ version_text version +:+
                ") and CTI's minimum supported version (" +:+ version_text minimum_version +:+ "). " +:+
                "To attempt to continue, set the environment variable CTI_FLUX_DEBUG" +:+
                " and relaunch this application.")
    else mret tt.

Definition FluxFrontend_new (fuel : nat) (launcherName : string) : M sys () :=
  path ← findLibFluxPath launcherName;
  lift (load_libflux path);;
  open_flux fuel;;
  check_version launcherName.

(** ** The constructor of an application *)

Definition lookup_request (job_id : Z) : string :=
  "{ " +:+ in_quotes "id" +:+ ": " +:+ to_string job_id +:+ ", " +:+ in_quotes "keys" +:+ ": [" +:+ in_quotes "R" +:+
  "], " +:+ in_quotes "flags" +:+ ": 0}".

(** The one program of a job. *)
Definition single_binary (binaryList : list string) : res string :=
  match binaryList with
  | [] => Throw "Could not extract binary name from proctable response (executables was empty)"
  | firstBinary :: rest =>
      match List.find (λ b, bool_decide (b ≠ firstBinary)) rest with
      | Some b => Throw ("expected a single binary launched with Flux. Got " +:+ firstBinary +:+ " and " +:+ b)
      | None => Ok firstBinary
      end
  end.

Definition num_PEs (placement : list HostPlacement) : Z :=
  foldl (λ total p, uint64 (total + Z.of_nat (hp_numPEs p))) 0 placement.

(** Where the backend keeps its files, below that of the job. *)
Definition backend_tmpdir : M sys string :=
  setting ← System.getenv "CTI_BACKEND_TMPDIR";
  mret (match setting with
        | Some dir => dir
        | None =>
            let rundir := flux_attr_get "rundir" in
            if dirHasPerms rundir W_OK then default "" rundir else "/tmp"
        end).

(** The first ranks of hosts are read and not used, but each line has to begin with a number. *)
Definition read_ranks (lines : list string) : M sys () :=
  for_each lines (λ line, lift (stoi (default "" (head (split_string 2 line ":"))));; mret tt).

(** The files for the backend. *)
Definition write_layout (stagePath : string) (placement : list HostPlacement) : M sys string :=
  write_file (stagePath +:+ "/" +:+ SLURM_LAYOUT_FILE) "failed to open path " (createNodeLayoutFile placement).

Definition write_pids (stagePath : string) (placement : list HostPlacement) : M sys string :=
  write_file (stagePath +:+ "/" +:+ SLURM_PID_FILE) "failed to open path " (Ok (createPIDListFile placement)).

Definition getJobId (a : FluxApp) : M process string :=
  p ← get;
  match pr_jobIdF58 p with
  | Some f58 => mret f58
  | None =>
      f58 ← lift (encode_job_id (m_jobId a));
      modify (λ p, MkProcess (pr_sys p) (Some f58) (pr_binaryRankMap p));;
      mret f58
  end.

(** What the constructor does before the output of the job is followed. *)
Definition FluxApp_make (fuel : nat) (fd : frontend_data) (launcherName beDaemonName : string) (info : LaunchInfo)
    : M sys FluxApp :=
  daemonAppId ← request SRegister req_id;
  s ← get;
  stagePath ← lift (req_mkdtemp (sys_trace s) (m_cfg_dir fd +:+ "/fluxXXXXXX"));
  '(leaderRank, rpcService) ← get_rpc_service fuel (jobId info);
  lookup ← make_rpc_request leaderRank "job-info.lookup" (lookup_request (jobId info));
  root ← lift (parse_json lookup);
  resourceSpec ← lift (json_string "R" root);
  proctableResult ← make_rpc_request leaderRank (rpcService +:+ ".proctable") "{}";
  proctable ← lift (parse_json proctableResult);
  placement ← lift (make_hostsPlacement proctable);
  layoutFile ← write_layout stagePath placement;
  pidFile ← write_pids stagePath placement;
  executables ← lift (get_child "executables" proctable);
  binaryList ← lift (flatten_prefixList executables);
  binaryName ← lift (single_binary binaryList);
  backendTmpdir ← backend_tmpdir;
  jobIdF58 ← lift (encode_job_id (jobId info));
  lines ← Execvp ["flux"; "exec"; "-l"; "hostname"];
  read_ranks lines;;
  mret (MkFluxApp fd launcherName daemonAppId (jobId info) leaderRank rpcService resourceSpec (num_PEs placement)
          placement binaryName
          (backendTmpdir +:+ "/jobtmp-" +:+ to_string leaderRank +:+ "-" +:+ jobIdF58)
          stagePath [layoutFile; pidFile] beDaemonName).

(** The output of the job is followed by a process of its own. *)
Definition attach_output (a : FluxApp) : M process () :=
  job ← getJobId a;
  on_sys
    (sys_emit (SFork ["flux"; "job"; "attach"; "-q"; "-u"; job] []);;
     s ← get;
     match flux_fork (sys_trace s) with
     | inr why => throw ("fork failed: " +:+ why)
     | inl pid => request (SCall "request_RegisterUtilWithSigkill" [to_string (m_daemonAppId a); to_string pid]) req_done
     end).

Definition FluxApp_new (fuel : nat) (fd : frontend_data) (launcherName beDaemonName : string) (info : LaunchInfo)
    : M process FluxApp :=
  a ← on_sys (FluxApp_make fuel fd launcherName beDaemonName info); attach_output a;; mret a.

(** [launch] and [launchBarrier] *)
Definition launch (fuel : nat) (fd : frontend_data) (launcherName beDaemonName chdir_path : string)
    (launcher_args env_list : list string) (barrier : bool) : M process FluxApp :=
  info ← on_sys (launchApp launcherName chdir_path launcher_args env_list barrier);
  FluxApp_new fuel fd launcherName beDaemonName info.

(** [ids] are the variable arguments. *)
Definition registerJob (fuel : nat) (fd : frontend_data) (launcherName beDaemonName : string) (ids : list string)
    : M process FluxApp :=
  match ids with
  | [raw_job_id] =>
      id ← lift (parse_job_id raw_job_id);
      FluxApp_new fuel fd launcherName beDaemonName (MkLaunchInfo id false)
  | _ => throw "expecting single job ID argument to register app"
  end.

(** ** Operations *)

Definition initial_state (info : LaunchInfo) (s : sys) : app_state := MkAppState s false false (atBarrier info) [].

Definition getLauncherHostname (a : FluxApp) : res string := Throw "not supported for WLM: getLauncherHostname".

Definition getNumPEs (a : FluxApp) : Z := m_numPEs a.

Definition getNumHosts (a : FluxApp) : Z := Z.of_nat (length (m_hostsPlacement a)).

Definition getHostnameList (a : FluxApp) : list string := map hp_hostname (m_hostsPlacement a).

Definition getHostsPlacement (a : FluxApp) : list (string * Z) :=
  map (λ p, (hp_hostname p, Z.of_nat (hp_numPEs p))) (m_hostsPlacement a).

(** Kept from the first application of the process that is asked. *)
Definition getBinaryRankMap (a : FluxApp) : M process (gmap string (list Z)) :=
  p ← get;
  match pr_binaryRankMap p with
  | Some m => mret m
  | None =>
      let m := {[ m_binaryName a := map (λ i, int32 (Z.of_nat i)) (seq 0 (Z.to_nat (m_numPEs a))) ]} in
      modify (λ p, MkProcess (pr_sys p) (pr_jobIdF58 p) (Some m));;
      mret m
  end.

Definition isRunning (a : FluxApp) : M sys bool :=
  answer ← call "flux_job_list_id" [to_string (m_jobId a); "[" +:+ in_quotes "state" +:+ "]"] rpc;
  match answer with
  | NoFuture why => throw ("Flux query failed: " +:+ why)
  | RpcFailed error => throw ("Flux query failed: " +:+ no_error error)
  | RpcAnswer None => throw ("Flux query failed: " +:+ no_error None)
  | RpcAnswer (Some text) =>
      root ← lift (parse_json text);
      job ← lift (get_child "job" root);
      state ← lift (json_int "state" job);
      mret (bool_decide (state = FLUX_JOB_STATE_RUN))
  end.

(** Whether the signal was sent is not looked at. *)
Definition kill (a : FluxApp) (signal : Z) : M sys () :=
  if signal =? 0 then throw "invalid signal number: 0"
  else sys_emit (SCall "flux_job_kill" [to_string (m_jobId a); to_string signal]).

Definition releaseBarrier (a : FluxApp) : M app_state () :=
  st ← get;
  if as_atBarrier st then in_app (kill a SIGCONT);; modify set_released
  else throw "application is not at startup barrier".

(** ** Packages *)

(** How a program ended, and its output after the text of the error when it failed. *)
Definition execvp_return_stderr (argv : list string) (ex : string) : M sys (Z * string) :=
  lines ← Execvp argv;
  rc ← getExitStatus argv;
  mret (if rc =? 0 then (0, "") else (rc, ex +:+ ": " +:+ unlines lines)).

Definition execvp_throw_stderr (argv : list string) (ex : string) : M sys () :=
  '(rc, err) ← execvp_return_stderr argv ex;
  if rc =? 0 then mret tt else throw err.

Definition mkdir_extract_cmd (toolPath packageName : string) : string :=
  "mkdir -p " +:+ toolPath +:+ "; " +:+ "flux archive extract --overwrite -n " +:+ toolPath +:+ " -C " +:+ toolPath +:+
  " " +:+ packageName.

Definition FluxArchive_new (toolPath dirName packageName : string) : M sys () :=
  '(rc, err) ← execvp_return_stderr ["flux"; "archive"; "create"; "-n"; toolPath; "-C"; dirName; packageName]
                 "failed to add file to archive";
  if rc =? 0 then mret tt
  else if contains "Request requires owner credentials" err
  then throw (err +:+ nl +:+ "This system is not configured to allow `flux archive` file management " +:+
              "from the global Flux instance. You must run this tool in the same batch " +:+
              "or allocation as the target Flux job")
  else throw err.

Definition FluxArchive_delete (toolPath : string) : M sys () :=
  catch_all (runExitStatus ["flux"; "archive"; "remove"; "-n"; toolPath];; mret tt) tt.

Definition pullAllRanks (toolPath packageName : string) : M sys () :=
  execvp_throw_stderr ["flux"; "exec"; "-r"; "all"; "bash"; "-c"; mkdir_extract_cmd toolPath packageName]
    "failed to get archive file (all ranks)".

(** A program that must end with 0. *)
Definition must_succeed (argv : list string) (what : string) : M sys () :=
  rc ← runExitStatus argv; if rc =? 0 then mret tt else throw what.

Definition shipPackage (a : FluxApp) (tarPath : string) : M sys () :=
  let dirName := cstr_dirname tarPath in
  packageName ← lift (cstr_basename tarPath);
  let destination := m_toolPath a +:+ "/" +:+ packageName in
  must_succeed ["mkdir"; "-p"; m_toolPath a] ("failed to mkdir " +:+ m_toolPath a);;
  must_succeed ["cp"; tarPath; destination] ("failed to copy " +:+ tarPath +:+ " to " +:+ destination);;
  FluxArchive_new (m_toolPath a) dirName packageName;;
  finally (pullAllRanks (m_toolPath a) packageName) (FluxArchive_delete (m_toolPath a)).

Definition shipDaemon (a : FluxApp) : M app_state () :=
  let sourcePath := m_be_daemon_path (m_frontend a) in
  if is_empty sourcePath
  then throw ("Unable to locate backend daemon binary. Try setting " +:+ CTI_INSTALL_DIR +:+
              " environment variable to the install location of CTI.")
  else
    let destinationPath := m_cfg_dir (m_frontend a) +:+ "/" +:+ getBEDaemonName a in
    in_app (request (SCopy sourcePath destinationPath) req_copy;; shipPackage a destinationPath);;
    modify set_sent.

Definition ship_once (a : FluxApp) : M app_state () :=
  st ← get; if as_sent st then mret tt else shipDaemon a.

(** ** Daemons *)

Definition load_request : string := "{" +:+ in_quotes "load" +:+ ": " +:+ in_quotes "alloc-bypass.so" +:+ "}".

(** Failing to load the plugin is taken to mean that it is loaded. *)
Definition load_bypass : M app_state () :=
  st ← get;
  if as_bypass st then mret tt
  else
    in_app (catch_all (make_rpc_request FLUX_NODEID_ANY "job-manager.jobtap" load_request;; mret tt) tt);;
    modify set_bypass.

Definition startDaemon (a : FluxApp) (args : option (list string)) (synchronous : bool) : M app_state () :=
  load_bypass;;
  ship_once a;;
  id ← in_app
    (jobspec ← make_jobspec (m_launcherName a) ""
                 (("-n" +:+ to_string (getNumHosts a)) :: (m_toolPath a +:+ "/" +:+ getBEDaemonName a) ::
                  default [] args) []
                 [("system.alloc-bypass.R", m_resourceSpec a)];
     job ← call "flux_job_submit" [jobspec; if synchronous then "waitable" else "0"] submitted;
     match job with
     | inr error => throw ("Flux daemon launch failed: " +:+ no_error error)
     | inl id =>
         if synchronous
         then
           r ← call "flux_job_wait" [to_string id] job_waited;
           match r with
           | inl error => throw ("Flux daemon wait failed: " +:+ no_error error)
           | inr (false, message) => throw ("Daemon failed: " +:+ default "(no message)" message)
           | inr (true, _) => mret id
           end
         else mret id
     end);
  modify (add_job id).

(** ** The check for files *)

(** The nodes that are asked: a placement on node 0 is not counted, unless there is one host. *)
Definition checked_nodes (placement : list HostPlacement) : Z :=
  let num_nodes := Z.of_nat (length placement) in
  if 1 <? num_nodes
  then uint64 (num_nodes - Z.of_nat (length (filter (λ p, hp_node_id p = 0) placement)))
  else num_nodes.

Definition checkFilesExist (a : FluxApp) (paths : gset string) : M app_state (gset string) :=
  ship_once a;;
  in_app
    (lines ← Execvp (["flux"; "exec"; "-x"; "0"; m_toolPath a +:+ "/" +:+ getBEDaemonName a] ++
                     map (λ path, "--file=" +:+ path) (sorted_elements paths));
     let num_nodes := checked_nodes (m_hostsPlacement a) in
     mret (count_paths num_nodes
             (filter (λ line, contains "no version information" line = false) lines) num_nodes ∅ ∅)).

(** ** The end of an application *)

Definition FluxApp_delete (isOriginalInstance : bool) (a : FluxApp) : M app_state () :=
  st ← get;
  if negb isOriginalInstance then mret tt
  else in_app
    (catch_all
       (for_each (as_jobs st) (λ id, cancel_job id "controlling application is terminating");;
        (if is_empty (m_stagePath a) then mret tt else sys_emit (SRemove (m_stagePath a)));;
        request (SDeregister (m_daemonAppId a)) req_done) tt).
End Flux.
