(* ===== verification/FluxProofs.v ===== *)
(** * Flux: properties

    What a tool daemon finds of an application, applications that share what the first has left
    in the process, the check for files, packages, the start of a job, and the end of the daemons; concrete runs. *)

From S2P Require Import Prelude Split Host Wire BackendFiles Daemon Handlers FEIface System SlurmJobs ConfigDir Requests.
From S2P Require Import Detect Paths BeState BeLayout BeProofs FluxAPI FluxApp.

(** ** The files for the backend *)

(** The entries of the layout file: hosts with their processes and the first of them. *)
Fixpoint flux_entries (first : Z) (l : list HostPlacement) : list (string * Z * Z) :=
  match l with
  | [] => []
  | p :: l' => (hp_hostname p, Z.of_nat (hp_numPEs p), first) :: flux_entries (first + Z.of_nat (hp_numPEs p)) l'
  end.

Lemma flux_layout_entries (l : list HostPlacement) (first : Z) :
  layout_entries l first = layout_file_entries (flux_entries first l).
Proof.
  revert first. induction l as [|p l IH]; intros first; [done|]. cbn [layout_entries flux_entries layout_file_entries].
  by rewrite IH.
Qed.

Lemma length_flux_entries (first : Z) (l : list HostPlacement) : length (flux_entries first l) = length l.
Proof. revert first. induction l as [|p l IH]; intros first; [done|]. cbn. by rewrite IH. Qed.

Lemma flux_layout_file (l : list HostPlacement) : createNodeLayoutFile l = layout_file (flux_entries 0 l).
Proof. unfold createNodeLayoutFile, layout_file. by rewrite flux_layout_entries, length_flux_entries. Qed.

(** The numbers of processes agree with the pairs, as they do in a placement that was made. *)
Definition counted (l : list HostPlacement) : Prop := Forall (λ p, length (hp_rankPidPairs p) = hp_numPEs p) l.

Lemma placement_counted (root : ptree) (l : list HostPlacement) `{PTreeNum} `{FluxEnv} :
  make_hostsPlacement root = Ok l → counted l.
Proof.
  intros (names & ranks & pids & _ & Hr & Hp & ->)%placement_inv.
  destruct (attributed_assign (sorted_keys (count_hosts names)) (count_hosts names)
    (map narrow_pair (zip ranks pids))) as (_ & _ & Hc & _).
  { rewrite length_grouped, length_map, length_zip_pairs; congruence. }
  eapply Forall_impl; [exact Hc|]. by intros p [_ ?].
Qed.

Definition all_pairs (l : list HostPlacement) : list (Z * Z) := concat (map hp_rankPidPairs l).

Lemma flux_pid_file (l : list HostPlacement) : createPIDListFile l = pid_file (map snd (all_pairs l)).
Proof.
  unfold createPIDListFile, pid_file, all_pairs. f_equal.
  - f_equal. f_equal. rewrite length_map, length_concat.
    assert (∀ n, foldl (λ n p, (n + length (hp_rankPidPairs p))%nat) n l =
                 (n + sum_list (map length (map hp_rankPidPairs l)))%nat) as Hf.
    { induction l as [|p l IH]; intros n; cbn; [lia|]. rewrite IH. lia. }
    by rewrite Hf.
  - induction l as [|p l IH]; [done|]. cbn [flat_map map concat]. rewrite map_app, flat_map_app, <-IH. f_equal.
    by rewrite !flat_map_concat_map, map_map.
Qed.

(** The entry of a host and where its processes are. *)
Lemma flux_entry_of (l : list HostPlacement) (p : HostPlacement) (first : nat) :
  counted l → p ∈ l →
  ∃ f, (hp_hostname p, Z.of_nat (hp_numPEs p), Z.of_nat (first + f)) ∈ flux_entries (Z.of_nat first) l ∧
    (f + hp_numPEs p ≤ length (all_pairs l))%nat ∧ take (hp_numPEs p) (drop f (all_pairs l)) = hp_rankPidPairs p.
Proof.
  intros Hc. revert first. induction Hc as [|q l Hq Hc IH]; intros first; [set_solver|].
  cbn [flux_entries]. unfold all_pairs. cbn [map concat]. fold (all_pairs l).
  intros [->|Hin]%elem_of_cons.
  - exists 0%nat. rewrite Nat.add_0_r, length_app, Hq. split_and!; [by left|lia|].
    rewrite drop_0, <-Hq. apply take_app_length.
  - destruct (IH (first + hp_numPEs q)%nat Hin) as (f & He & Hf & Ht). exists (hp_numPEs q + f)%nat.
    rewrite length_app, Hq. split_and!.
    + right. by rewrite <-Nat2Z.inj_add, Nat.add_assoc.
    + lia.
    + rewrite <-Hq, <-drop_drop, drop_app_length. exact Ht.
Qed.

(** When ranks are counted from 0 in the order of the pairs, those of a host are counted from the
    first of them. *)
Lemma ranked_pairs (pairs : list (Z * Z)) (f : nat) :
  map fst pairs = seqZ (Z.of_nat f) (Z.of_nat (length pairs)) →
  ranked (map snd pairs) (Z.of_nat f) = map (λ rp, (rp.2, rp.1)) pairs.
Proof.
  revert f. induction pairs as [|[r q] pairs IH]; intros f Hr; [done|]. cbn [map length fst snd] in *.
  rewrite seqZ_cons in Hr by lia. injection Hr as -> Hr. rewrite ranked_cons. f_equal.
  replace (Z.of_nat f + 1) with (Z.of_nat (S f)) by lia. apply IH. rewrite Hr. f_equal; lia.
Qed.

Lemma seqZ_slice (n f k : nat) :
  (f + k ≤ n)%nat → take k (drop f (seqZ 0 (Z.of_nat n))) = seqZ (Z.of_nat f) (Z.of_nat k).
Proof.
  intros Hn. unfold seqZ. rewrite !Nat2Z.id, <-!fmap_drop, <-!fmap_take, drop_seq, take_seq, Nat.min_l by lia.
  replace (seq (0 + f) k) with (Nat.add f <$> seq 0 k) by (rewrite fmap_add_seq; f_equal; lia).
  rewrite <-list_fmap_compose. apply list_fmap_ext. intros i x _. cbn. lia.
Qed.

Lemma narrow_in_int (rp : Z * Z) : in_int (narrow_pair rp).2 = true.
Proof.
  unfold narrow_pair, to_signed, in_int, int_min, int_max. cbn [snd].
  change (8 * Z.of_nat 4 - 1) with 31. change (8 * Z.of_nat 4) with 32.
  pose proof (Z.mod_pos_bound rp.2 (2 ^ 32) ltac:(lia)).
  destruct (Z.ltb_spec (rp.2 mod 2 ^ 32) (2 ^ 31)); lia.
Qed.

(** Hosts are listed once, so an entry is known by its name. *)
Lemma flux_entries_names (first : Z) (l : list HostPlacement) :
  map (λ e : string * Z * Z, e.1.1) (flux_entries first l) = map hp_hostname l.
Proof. revert first. induction l as [|p l IH]; intros first; [done|]. cbn. by rewrite IH. Qed.

Lemma flux_entries_unique (first : Z) (l : list HostPlacement) (e e' : string * Z * Z) :
  NoDup (map hp_hostname l) → e ∈ flux_entries first l → e' ∈ flux_entries first l → e.1.1 = e'.1.1 → e = e'.
Proof.
  intros Hn He He' Hname. rewrite <-(flux_entries_names first) in Hn. revert Hn He He'.
  generalize (flux_entries first l). intros k Hn. induction k as [|x k IH]; [set_solver|].
  cbn [map] in Hn. apply NoDup_cons in Hn as [Hx Hn].
  assert (∀ y, y ∈ k → x.1.1 = y.1.1 → False) as Hno.
  { intros y Hy Hxy. apply Hx. rewrite Hxy. apply list_elem_of_fmap. by exists y. }
  intros [->|He]%elem_of_cons [->|He']%elem_of_cons; [done| | |by apply IH].
  - by destruct (Hno _ He').
  - by destruct (Hno _ He).
Qed.

Section Backend.
Context `{PTreeNum} `{FluxEnv} `{Node}.

Lemma placement_pids (root : ptree) (l : list HostPlacement) :
  make_hostsPlacement root = Ok l → Forall (λ pid, in_int pid = true) (map snd (all_pairs l)).
Proof.
  intros (names & ranks & pids & _ & Hr & Hp & ->)%placement_inv.
  destruct (attributed_assign (sorted_keys (count_hosts names)) (count_hosts names)
    (map narrow_pair (zip ranks pids))) as (_ & Hall & _).
  { rewrite length_grouped, length_map, length_zip_pairs; congruence. }
  unfold all_pairs. rewrite Hall, map_map. apply Forall_map, Forall_true. intros rp. apply narrow_in_int.
Qed.

Lemma placement_hosts (root : ptree) (l : list HostPlacement) :
  make_hostsPlacement root = Ok l → NoDup (map hp_hostname l).
Proof.
  intros (names & ranks & pids & _ & Hr & Hp & ->)%placement_inv.
  destruct (attributed_assign (sorted_keys (count_hosts names)) (count_hosts names)
    (map narrow_pair (zip ranks pids))) as (_ & _ & _ & ->).
  { rewrite length_grouped, length_map, length_zip_pairs; congruence. }
  apply NoDup_sorted_elements.
Qed.

Lemma flux_entries_fit (l : list HostPlacement) (first : nat) :
  counted l → Forall (λ p, name_fits (hp_hostname p)) l →
  Z.of_nat first + Z.of_nat (length (all_pairs l)) < 2 ^ 31 → Forall entry_fits (flux_entries (Z.of_nat first) l).
Proof.
  intros Hc Hf. revert first. induction Hc as [|p l Hp Hc IH]; intros first Hl; [constructor|].
  apply Forall_cons in Hf as [Hn Hf]. unfold all_pairs in Hl. cbn [map concat] in Hl. fold (all_pairs l) in Hl.
  rewrite length_app, Hp in Hl. cbn [flux_entries]. constructor.
  - destruct Hn as [? ?]. unfold entry_fits, in_int, int_min, int_max. split_and!; try done; lia.
  - rewrite <-Nat2Z.inj_add. apply IH; [done|lia].
Qed.

Lemma flux_layout_run (h : string) (layout : bytes) (entries : list (string * Z * Z)) (l : be_layout) (b : be) :
  (∀ t, n_hostname t = Some h) → b_init b = false → shipped SLURM_LAYOUT_FILE layout b →
  layout_contents layout SLURM_LAYOUT_FILE = Ok entries → find_node_entry h entries = Ok (Some l) →
  ∃ t, be_flux_init b = (Ok tt, set_init true (set_layout (Some l) (set_trace t b))).
Proof.
  intros Hh Hi Hs Hc Hf.
  destruct (open_shipped_run SLURM_LAYOUT_FILE "cti_be_getFileDir failed." _ _ Hs) as (path & Ho).
  eexists. unfold be_flux_init. rewrite (bind_run_Ok get _ b b b eq_refl), Hi.
  apply try_catch_run_Ok. unfold flux_getLayoutFromFile, flux_getNodeHostname.
  unfold mbind, M_bind, get. rewrite Hh. cbn [non_null mret M_ret]. rewrite Ho. unfold lift. rewrite Hc, Hf.
  reflexivity.
Qed.

Lemma flux_pids_run (contents : bytes) (layout : be_layout) (b : be) :
  shipped SLURM_PID_FILE contents b →
  ∃ b', flux_getPidsFromFile layout b = (pids_at contents layout SLURM_PID_FILE, b').
Proof.
  intros (dir & Hdir & Hopen). eexists. unfold flux_getPidsFromFile.
  rewrite (bind_run_Ok _ _ b dir b) by (unfold be_require, be_getenv, gets, mbind, M_bind; by rewrite Hdir).
  rewrite (bind_run_Ok (be_emit _) _ _ tt _ eq_refl), (bind_run_Ok get _ _ _ _ eq_refl), Hopen. reflexivity.
Qed.

(** C29 A tool daemon finds the processes of its node, under Flux.  When Flux numbers the ranks of
    a job from 0 in the order in which it lists the processes, then on a node whose name is that
    of one host of the placement, or the first part of its full name, and of no other, the files
    that the frontend makes of the placement give exactly the processes that the placement has on
    that host, with their ranks. *)
Theorem flux_backend_processes (root : ptree) (l : list HostPlacement) (layout : bytes) (p : HostPlacement) (h : string)
    (b : be) :
  make_hostsPlacement root = Ok l → createNodeLayoutFile l = Ok layout →
  map fst (all_pairs l) = seqZ 0 (Z.of_nat (length (all_pairs l))) →
  Forall (λ p, name_fits (hp_hostname p)) l → Z.of_nat (length (all_pairs l)) < 2 ^ 31 →
  Z.of_nat (length l) < 2 ^ 31 →
  p ∈ l → (String.length h < HOST_NAME_MAX)%nat → name_matches h (hp_hostname p) = Ok true →
  (∀ q, q ∈ l → name_matches h (hp_hostname q) = Ok true → q = p) → (∀ t, n_hostname t = Some h) →
  b_init b = false → shipped SLURM_LAYOUT_FILE layout b → shipped SLURM_PID_FILE (createPIDListFile l) b →
  ∃ b', (be_flux_init;; flux_findAppPids) b = (Ok (map (λ rp, (rp.2, rp.1)) (hp_rankPidPairs p)), b').
Proof.
  intros Hm Hlay Hranks Hfit Hlen Hnum Hp Hh Hpm Huniq Hname Hi Hsl Hsp.
  pose proof (placement_counted _ _ Hm) as Hc. pose proof (placement_pids _ _ Hm) as Hint.
  pose proof (flux_entries_fit l 0 Hc Hfit ltac:(lia)) as Hef. change (Z.of_nat 0) with 0 in Hef.
  destruct (layout_contents_file _ SLURM_LAYOUT_FILE Hef) as (layout' & E & Hcont).
  { rewrite length_flux_entries. unfold in_int, int_min, int_max. lia. }
  rewrite flux_layout_file, E in Hlay. injection Hlay as ->.
  destruct (flux_entry_of l p 0 Hc Hp) as (f & He & Hf & Ht). change (Z.of_nat 0) with 0 in He. cbn [Nat.add] in He.
  assert (find_node_entry h (flux_entries 0 l) = Ok (Some (Z.of_nat (hp_numPEs p), Z.of_nat f))) as Hfind.
  { apply (find_node_entry_unique h _ _ Hh He Hpm). intros e' He' Hm'.
    apply (flux_entries_unique 0 l); [by apply (placement_hosts root)|done|done|].
    assert (e'.1.1 ∈ map hp_hostname l) as Hin.
    { rewrite <-(flux_entries_names 0). apply list_elem_of_fmap. by exists e'. }
    apply list_elem_of_fmap in Hin as (q & Hq & Hql). rewrite Hq in Hm' |- *. by rewrite (Huniq q Hql Hm'). }
  destruct (flux_layout_run h layout _ _ b Hname Hi Hsl Hcont Hfind) as (t & Hinit).
  rewrite (bind_run_Ok _ _ _ _ _ Hinit). unfold flux_findAppPids.
  rewrite (bind_run_Ok get _ _ _ _ eq_refl). cbn [b_layout set_layout set_init non_null].
  rewrite (bind_run_Ok (mret _) _ _ _ _ eq_refl). rewrite flux_pid_file in Hsp.
  destruct (flux_pids_run (pid_file (map snd (all_pairs l))) (Z.of_nat (hp_numPEs p), Z.of_nat f)
              (set_init true (set_layout (Some (Z.of_nat (hp_numPEs p), Z.of_nat f)) (set_trace t b))) Hsp) as (b' & Hrun).
  rewrite pids_at_file in Hrun; [|done|by rewrite length_map|by rewrite length_map; lia].
  rewrite (bind_run_Ok _ _ _ _ _ Hrun).
  exists b'. unfold mret, M_ret. cbn [snd]. f_equal. f_equal.
  rewrite <-!fmap_drop, <-!fmap_take, Ht. apply ranked_pairs.
  rewrite <-Ht at 1. match goal with |- map fst ?k = _ => change (map fst k) with (fst <$> k) end.
  rewrite fmap_take, fmap_drop.
  change (fst <$> all_pairs l) with (map fst (all_pairs l)). rewrite Hranks, seqZ_slice by lia.
  f_equal. rewrite <-Ht, length_take, length_drop. lia.
Qed.
End Backend.

(** ** What the process keeps *)

Section Applications.
Context `{Host} `{Commands} `{FrontendDaemon} `{PTreeNum} `{FluxEnv} `{LibFlux}.

Lemma getJobId_kept (a : FluxApp) (p p' : process) (f58 : string) :
  getJobId a p = (Ok f58, p') →
  pr_jobIdF58 p' = Some f58 ∧ pr_sys p' = pr_sys p ∧ (pr_jobIdF58 p = None → encode_job_id (m_jobId a) = Ok f58) ∧
  ∀ f, pr_jobIdF58 p = Some f → f = f58.
Proof.
  unfold getJobId. rewrite (bind_run_Ok get _ p p p eq_refl). destruct (pr_jobIdF58 p) as [f|] eqn:E.
  - intros [= <- <-]. split_and!; [done..|congruence].
  - unfold mbind, M_bind, lift. destruct (encode_job_id (m_jobId a)) as [f|w|w]; [|done..].
    intros [= <- <-]. split_and!; done.
Qed.

Lemma attach_output_run (a : FluxApp) (p p' : process) :
  attach_output a p = (Ok tt, p') →
  ∃ f58 pid, getJobId a p = (Ok f58, MkProcess (pr_sys p) (Some f58) (pr_binaryRankMap p)) ∧
    pr_jobIdF58 p' = Some f58 ∧ pr_binaryRankMap p' = pr_binaryRankMap p ∧
    sys_trace (pr_sys p') = sys_trace (pr_sys p) ++
      [SFork ["flux"; "job"; "attach"; "-q"; "-u"; f58] [];
       SCall "request_RegisterUtilWithSigkill" [to_string (m_daemonAppId a); to_string pid]].
Proof.
  unfold attach_output. intros Hr. apply bind_Ok in Hr as (f58 & p1 & Hj & Hr).
  assert (p1 = MkProcess (pr_sys p) (Some f58) (pr_binaryRankMap p)) as ->.
  { unfold getJobId in Hj. rewrite (bind_run_Ok get _ p p p eq_refl) in Hj. destruct p as [s [f|] m]; cbn in Hj.
    - by injection Hj as <- <-.
    - unfold mbind, M_bind, lift in Hj. destruct (encode_job_id _); [|done..]. by injection Hj as <- <-. }
  unfold on_sys, zoom in Hr. cbn [pr_sys] in Hr.
  rewrite (bind_run_Ok (sys_emit _) _ _ tt _ eq_refl), (bind_run_Ok get _ _ _ _ eq_refl) in Hr.
  cbn [sys_trace] in Hr. destruct (flux_fork _) as [pid|why]; [|done].
  rewrite request_run in Hr. cbn [sys_trace sys_env] in Hr. destruct (req_done _) as [[]|w|w]; [|done..].
  injection Hr as <-. exists f58, pid. split_and!; [done..|]. cbn. by rewrite <-app_assoc.
Qed.

(** Applications of a process share what is kept of the first.  The second application that
    is made has the job identifier of the first as its own, the process that follows its output
    attaches to the job of the first, and the map of programs to ranks is that of the application
    that was asked for it first. *)
Theorem flux_applications_share (fuel fuel' : nat) (fd fd' : frontend_data) (launcher launcher' daemon daemon' : string)
    (info info' : LaunchInfo) (p p1 p2 : process) (a a' : FluxApp) :
  pr_jobIdF58 p = None →
  FluxApp_new fuel fd launcher daemon info p = (Ok a, p1) →
  FluxApp_new fuel' fd' launcher' daemon' info' p1 = (Ok a', p2) →
  (∃ f58 pid t, encode_job_id (m_jobId a) = Ok f58 ∧ getJobId a' p2 = (Ok f58, p2) ∧
    sys_trace (pr_sys p2) = t ++
      [SFork ["flux"; "job"; "attach"; "-q"; "-u"; f58] [];
       SCall "request_RegisterUtilWithSigkill" [to_string (m_daemonAppId a'); to_string pid]]) ∧
  ∀ q q' m, getBinaryRankMap a q = (Ok m, q') → getBinaryRankMap a' q' = (Ok m, q').
Proof.
  intros Hp H1' H2'. split.
  - unfold FluxApp_new in H1', H2'. apply bind_Ok in H1' as (a1 & q1 & Hm1 & H1'). apply bind_Ok in H1' as ([] & q2 & Ha1 & H1').
    injection H1' as -> ->. apply bind_Ok in H2' as (a2 & q3 & Hm2 & H2'). apply bind_Ok in H2' as ([] & q4 & Ha2 & H2').
    injection H2' as -> ->.
    assert (pr_jobIdF58 q1 = None) as Hq1.
    { unfold on_sys, zoom in Hm1. destruct (FluxApp_make _ _ _ _ _ _) as [r s']. by injection Hm1 as _ <-. }
    apply attach_output_run in Ha1 as (f & pid & Hj1 & Hk1 & _ & _).
    assert (pr_jobIdF58 q3 = Some f) as Hq3.
    { unfold on_sys, zoom in Hm2. destruct (FluxApp_make _ _ _ _ _ _) as [r s']. injection Hm2 as _ <-. exact Hk1. }
    apply attach_output_run in Ha2 as (f' & pid' & Hj2 & Hk2 & _ & Ht).
    apply getJobId_kept in Hj1 as (_ & _ & Henc & _). apply getJobId_kept in Hj2 as (_ & _ & _ & Hsame).
    rewrite <-(Hsame f Hq3) in *. exists f, pid', (sys_trace (pr_sys q3)). split_and!; [by apply Henc| |done].
    unfold getJobId. rewrite (bind_run_Ok get _ _ _ _ eq_refl). by rewrite Hk2.
  - intros q q' m. unfold getBinaryRankMap. rewrite (bind_run_Ok get _ q q q eq_refl).
    destruct (pr_binaryRankMap q) as [m0|] eqn:Em.
    + intros [= <- <-]. rewrite (bind_run_Ok get _ q q q eq_refl). by rewrite Em.
    + intros [= <- <-]. done.
Qed.

(** ** The check for files *)

Lemma placement_node_ids (root : ptree) (l : list HostPlacement) :
  make_hostsPlacement root = Ok l → Forall (λ p, hp_node_id p = 0) l.
Proof.
  intros (names & ranks & pids & _ & _ & _ & ->)%placement_inv. generalize (map narrow_pair (zip ranks pids)).
  generalize (count_hosts names) at 2. induction (sorted_keys (count_hosts names)) as [|h hosts IH]; intros counts pairs;
    cbn [assign]; constructor; [done|apply IH].
Qed.

Lemma all_on_node_0 (l : list HostPlacement) :
  Forall (λ p, hp_node_id p = 0) l → filter (λ p, hp_node_id p = 0) l = l.
Proof. induction 1 as [|p l Hp _ IH]; [done|]. by rewrite filter_cons_True, IH. Qed.

(** The check for files finds none on several hosts.  The number of the node is never set in
    a placement, so every host counts as the node of the broker and is left out: of an
    application on more than one host the check returns without a single file, whatever the
    daemons report. *)
Theorem flux_check_finds_none (root : ptree) (a : FluxApp) (paths found : gset string) (st st' : app_state) :
  make_hostsPlacement root = Ok (m_hostsPlacement a) → (1 < length (m_hostsPlacement a))%nat →
  checkFilesExist a paths st = (Ok found, st') → found = ∅.
Proof.
  intros Hm Hl Hr. unfold checkFilesExist in Hr. apply bind_Ok in Hr as ([] & st1 & _ & Hr).
  unfold in_app, zoom in Hr. match type of Hr with (let (_, _) := ?m in _) = _ => destruct m as [r s1] eqn:E end.
  injection Hr as -> <-.
  apply bind_Ok in E as (lines & s2 & _ & E). injection E as <- _.
  assert (checked_nodes (m_hostsPlacement a) = 0) as ->.
  { unfold checked_nodes. destruct (Z.ltb_spec 1 (Z.of_nat (length (m_hostsPlacement a)))); [|lia].
    rewrite all_on_node_0; [by rewrite Z.sub_diag|apply (placement_node_ids root _ Hm)]. }
  by destruct (filter _ lines).
Qed.
(** ** Packages *)

Definition after (l : list sys_event) (s : sys) : sys := MkSys (sys_env s) (sys_trace s ++ l).

Lemma after_then (l l' : list sys_event) (s : sys) : after l' (after l s) = after (l ++ l') s.
Proof. unfold after. cbn. by rewrite app_assoc. Qed.

(** Code that runs one program, whatever it returns. *)
Definition runs_once {A : Type} (argv : list string) (m : M sys A) : Prop :=
  ∀ s, ∃ r, m s = (r, after [SRun argv] s).

(** Every program can be started. *)
Definition programs_start : Prop := ∀ t argv, is_Some (c_output t argv).

Lemma runs_must_succeed (argv : list string) (what : string) :
  programs_start → runs_once argv (must_succeed argv what).
Proof.
  intros Hs s. unfold must_succeed, runExitStatus, mbind, M_bind. cbn. destruct (Hs (sys_trace s) argv) as [out ->].
  cbn. destruct (c_wait _ _) as [code|sig| |what']; cbn; try (by eexists); by case_match; eexists.
Qed.

Lemma runs_return_stderr (argv : list string) (ex : string) :
  programs_start → runs_once argv (execvp_return_stderr argv ex).
Proof.
  intros Hs s. unfold execvp_return_stderr, Execvp, getExitStatus, mbind, M_bind. cbn.
  destruct (Hs (sys_trace s) argv) as [out ->]. cbn. destruct (c_wait _ _); cbn; by eexists.
Qed.

Lemma runs_then {A B : Type} (argv : list string) (m : M sys A) (k : A → M sys B) :
  runs_once argv m → (∀ a s, ∃ r, k a s = (r, s)) → runs_once argv (m ≫= k).
Proof.
  intros Hm Hk s. destruct (Hm s) as [r E]. unfold mbind, M_bind. rewrite E. destruct r as [a|w|w]; [apply Hk|by eexists..].
Qed.

Lemma runs_archive (toolPath dirName packageName : string) :
  programs_start →
  runs_once ["flux"; "archive"; "create"; "-n"; toolPath; "-C"; dirName; packageName]
    (FluxArchive_new toolPath dirName packageName).
Proof.
  intros Hs. apply runs_then; [by apply runs_return_stderr|]. intros [rc err] s.
  destruct (rc =? 0); [by eexists|]. destruct (contains _ _); by eexists.
Qed.

Lemma runs_pull (toolPath packageName : string) :
  programs_start →
  runs_once ["flux"; "exec"; "-r"; "all"; "bash"; "-c"; mkdir_extract_cmd toolPath packageName]
    (pullAllRanks toolPath packageName).
Proof.
  intros Hs. apply runs_then; [by apply runs_return_stderr|]. intros [rc err] s. destruct (rc =? 0); by eexists.
Qed.

Lemma runs_archive_end (toolPath : string) :
  programs_start → runs_once ["flux"; "archive"; "remove"; "-n"; toolPath] (FluxArchive_delete toolPath).
Proof.
  intros Hs s. unfold FluxArchive_delete, catch_all, try_catch, runExitStatus, mbind, M_bind. cbn.
  destruct (Hs (sys_trace s) ["flux"; "archive"; "remove"; "-n"; toolPath]) as [out ->]. cbn.
  destruct (c_wait _ _); cbn; by eexists.
Qed.

(** The programs that ship a package. *)
Definition ship_programs (a : FluxApp) (tarPath packageName : string) : list sys_event :=
  [SRun ["mkdir"; "-p"; m_toolPath a];
   SRun ["cp"; tarPath; m_toolPath a +:+ "/" +:+ packageName];
   SRun ["flux"; "archive"; "create"; "-n"; m_toolPath a; "-C"; cstr_dirname tarPath; packageName];
   SRun ["flux"; "exec"; "-r"; "all"; "bash"; "-c"; mkdir_extract_cmd (m_toolPath a) packageName];
   SRun ["flux"; "archive"; "remove"; "-n"; m_toolPath a]].

Ltac stopped H n := injection H as <- <-; exists n; split_and!; [done|tauto|done].

(** The archive of a package is removed.  When programs can be started, shipping a package
    under Flux runs mkdir, cp, the making of the archive, its extraction on all nodes and its
    removal, in this order: it stops after the first of them that fails, but for the extraction,
    after which the archive is removed in any case; and it returns only when all of them were
    run.  A wait for a child that is not there is not considered. *)
Theorem flux_archive_removed (a : FluxApp) (tarPath packageName : string) (s s' : sys) (r : res ()) :
  programs_start → cstr_basename tarPath = Ok packageName → shipPackage a tarPath s = (r, s') →
  (∀ why, r ≠ Undef why) →
  ∃ n, s' = after (take n (ship_programs a tarPath packageName)) s ∧
    (n = 1 ∨ n = 2 ∨ n = 3 ∨ n = 5)%nat ∧ (r = Ok tt → n = 5%nat).
Proof.
  intros Hs Hb Hr Hu. unfold shipPackage in Hr.
  rewrite (bind_run_Ok (lift _) _ s packageName s) in Hr by (unfold lift; by rewrite Hb).
  destruct (runs_must_succeed ["mkdir"; "-p"; m_toolPath a] ("failed to mkdir " +:+ m_toolPath a) Hs s) as [r1 E1].
  unfold mbind at 1, M_bind at 1 in Hr. rewrite E1 in Hr.
  destruct r1 as [[]|w|w]; [|stopped Hr 1%nat..].
  unfold mbind at 1, M_bind at 1 in Hr.
  destruct (runs_must_succeed ["cp"; tarPath; m_toolPath a +:+ "/" +:+ packageName]
    ("failed to copy " +:+ tarPath +:+ " to " +:+ (m_toolPath a +:+ "/" +:+ packageName)) Hs (after [SRun ["mkdir"; "-p"; m_toolPath a]] s)) as [r2 E2].
  rewrite E2, after_then in Hr.
  destruct r2 as [[]|w|w]; [|stopped Hr 2%nat..].
  unfold mbind at 1, M_bind at 1 in Hr.
  match type of Hr with context [FluxArchive_new ?t ?d ?p ?s0] => destruct (runs_archive t d p Hs s0) as [r3 E3] end.
  rewrite E3, after_then in Hr.
  destruct r3 as [[]|w|w]; [|stopped Hr 3%nat..].
  unfold finally in Hr.
  match type of Hr with context [pullAllRanks ?t ?p ?s0] => destruct (runs_pull t p Hs s0) as [r4 E4] end.
  rewrite E4, after_then in Hr.
  match type of Hr with context [FluxArchive_delete ?t ?s0] => destruct (runs_archive_end t Hs s0) as [r5 E5] end.
  rewrite E5, after_then in Hr. cbn [snd] in Hr.
  destruct r4 as [[]|w|w]; [stopped Hr 5%nat|stopped Hr 5%nat|].
  injection Hr as <- _. by destruct (Hu w).
Qed.
(** ** The start of a job *)

Definition event_call (job : Z) : sys_event := SCall "flux_job_event_watch_get" [to_string job].

(** The next event is of this name. *)
Definition next_event (job : Z) (t : list sys_event) (name : string) (root : ptree) : Prop :=
  ∃ text, event_text (t ++ [event_call job]) = Some text ∧ parse_json text = Ok root ∧ json_string "name" root = Ok name.

Lemma await_shell_next (fuel : nat) (job : Z) (s : sys) (name : string) (root : ptree) :
  next_event job (sys_trace s) name root → name ≠ "shell.init" → name ≠ "shell.exit" →
  await_shell (S fuel) job s = await_shell fuel job (after [event_call job] s).
Proof.
  intros (text & He & Hp & Hn) H1' H2'. cbn [await_shell].
  rewrite (bind_run_Ok (call _ _ _) _ s (Some text) (after [event_call job] s)).
  2: { unfold call, mbind, M_bind. cbn. fold (event_call job). by rewrite He. }
  rewrite (bind_run_Ok (lift _) _ _ root _) by (unfold lift; by rewrite Hp).
  rewrite (bind_run_Ok (lift _) _ _ name _) by (unfold lift; by rewrite Hn).
  by rewrite !bool_decide_eq_false_2 by done.
Qed.

(** Waiting for a job ends when its shell starts.  When some number of events come before
    the event of the shell that has started, and none of them says that it has ended, the wait
    returns the rank of the leader and the key of the service that the event names, after exactly
    one call for every event. *)
Theorem flux_start_awaited (n fuel : nat) (job leader : Z) (service : string) (root context : ptree) (s : sys) :
  let tr i := sys_trace s ++ replicate i (event_call job) in
  (n < fuel)%nat →
  (∀ i, (i < n)%nat → ∃ name t, next_event job (tr i) name t ∧ name ≠ "shell.init" ∧ name ≠ "shell.exit") →
  next_event job (tr n) "shell.init" root → get_child "context" root = Ok context →
  json_int "leader-rank" context = Ok leader → json_string "service" context = Ok service → service ≠ "" →
  await_shell fuel job s = (Ok (leader, service), MkSys (sys_env s) (tr (S n))).
Proof.
  cbv zeta. revert fuel s. induction n as [|n IH]; intros fuel s Hf Hb Hi Hc Hl Hs He.
  - destruct fuel as [|fuel]; [lia|]. cbn [replicate] in *. rewrite app_nil_r in Hi.
    destruct Hi as (text & Ht & Hp & Hn). cbn [await_shell].
    rewrite (bind_run_Ok (call _ _ _) _ s (Some text) (after [event_call job] s)).
    2: { unfold call, mbind, M_bind. cbn. fold (event_call job). by rewrite Ht. }
    rewrite (bind_run_Ok (lift _) _ _ root _) by (unfold lift; by rewrite Hp).
    rewrite (bind_run_Ok (lift _) _ _ "shell.init" _) by (unfold lift; by rewrite Hn).
    rewrite bool_decide_eq_true_2 by done. unfold mbind, M_bind, lift. rewrite Hc, Hl, Hs.
    destruct service; [done|]. done.
  - destruct fuel as [|fuel]; [lia|].
    assert (∀ i, sys_trace (after [event_call job] s) ++ replicate i (event_call job) =
                 sys_trace s ++ replicate (S i) (event_call job)) as Htr.
    { intros i. cbn. by rewrite <-app_assoc. }
    destruct (Hb 0%nat ltac:(lia)) as (name & t & Hne & H1' & H2'). cbn [replicate] in Hne. rewrite app_nil_r in Hne.
    rewrite (await_shell_next _ _ _ _ _ Hne H1' H2'). rewrite (IH fuel (after [event_call job] s)); rewrite ?Htr; try done.
    + lia.
    + intros i Hi'. rewrite Htr. apply Hb. lia.
Qed.
(** ** Daemons *)

(** The jobs that a run of events has submitted, in order, as libflux has named them. *)
Definition job_of (t : list sys_event) (e : sys_event) : list Z :=
  match e with
  | SCall f _ =>
      if bool_decide (f = "flux_job_submit")
      then match submitted (t ++ [e]) with inl id => [id] | inr _ => [] end else []
  | _ => []
  end.

Fixpoint submitted_jobs (t evs : list sys_event) : list Z :=
  match evs with [] => [] | e :: evs' => job_of t e ++ submitted_jobs (t ++ [e]) evs' end.

Lemma submitted_jobs_snoc (t evs : list sys_event) (e : sys_event) :
  submitted_jobs t (evs ++ [e]) = submitted_jobs t evs ++ job_of (t ++ evs) e.
Proof.
  revert t. induction evs as [|x evs IH]; intros t; cbn [submitted_jobs app].
  - by rewrite !app_nil_r.
  - rewrite IH. by rewrite <-!app_assoc.
Qed.

(** Since [t0], the jobs [ids] have been submitted. *)
Definition submits (t0 : list sys_event) (ids : list Z) (s : sys) : Prop :=
  ∃ evs, sys_trace s = t0 ++ evs ∧ submitted_jobs t0 evs = ids.

Lemma submits_emit (t0 : list sys_event) (ids : list Z) (e : sys_event) (s : sys) :
  submits t0 ids s → submits t0 (ids ++ job_of (sys_trace s) e) (sys_emit e s).2.
Proof.
  intros (evs & Ht & <-). exists (evs ++ [e]). cbn [sys_emit snd]. unfold sys_emit, modify. cbn.
  by rewrite Ht, app_assoc, submitted_jobs_snoc.
Qed.

Definition no_submit (e : sys_event) : Prop := ∀ t, job_of t e = [].

Lemma quiet_emit (t0 : list sys_event) (ids : list Z) (e : sys_event) : no_submit e → preserves (submits t0 ids) (sys_emit e).
Proof. intros He s Hs. apply (submits_emit _ _ e) in Hs. by rewrite He, app_nil_r in Hs. Qed.

Lemma quiet_request {A : Type} (t0 : list sys_event) (ids : list Z) (e : sys_event) (answer : list sys_event → res A) :
  no_submit e → preserves (submits t0 ids) (request e answer).
Proof.
  intros He. apply preserves_bind; [by apply quiet_emit|]. intros _. apply preserves_bind; [auto with cti|].
  intros s. apply preserves_lift.
Qed.

Lemma quiet_run (t0 : list sys_event) (ids : list Z) (argv : list string) :
  preserves (submits t0 ids) (sys_emit (SRun argv)).
Proof. by apply quiet_emit. Qed.
#[local] Hint Resolve quiet_run : cti.

Lemma quiet_Execvp (t0 : list sys_event) (ids : list Z) (argv : list string) : preserves (submits t0 ids) (Execvp argv).
Proof. unfold Execvp. preserve. Qed.

Lemma quiet_Execvp_text (t0 : list sys_event) (ids : list Z) (argv : list string) :
  preserves (submits t0 ids) (Execvp_text argv).
Proof. unfold Execvp_text. preserve. Qed.

Lemma quiet_getExitStatus (t0 : list sys_event) (ids : list Z) (argv : list string) :
  preserves (submits t0 ids) (getExitStatus argv).
Proof. unfold getExitStatus. preserve. Qed.

Lemma quiet_runExitStatus (t0 : list sys_event) (ids : list Z) (argv : list string) :
  preserves (submits t0 ids) (runExitStatus argv).
Proof. unfold runExitStatus. preserve. Qed.

Lemma quiet_jobspec (t0 : list sys_event) (ids : list Z) (launcher dir : string) (args env : list string)
    (attributes : list (string * string)) : preserves (submits t0 ids) (make_jobspec launcher dir args env attributes).
Proof.
  apply preserves_bind; [apply quiet_Execvp_text|]. intros text.
  apply preserves_bind; [apply quiet_getExitStatus|]. intros status. preserve.
Qed.

Lemma quiet_execvp_return (t0 : list sys_event) (ids : list Z) (argv : list string) (what : string) :
  preserves (submits t0 ids) (execvp_return_stderr argv what).
Proof.
  apply preserves_bind; [apply quiet_Execvp|]. intros lines.
  apply preserves_bind; [apply quiet_getExitStatus|]. intros rc. preserve.
Qed.

Lemma quiet_ship (t0 : list sys_event) (ids : list Z) (a : FluxApp) (tarPath : string) :
  preserves (submits t0 ids) (shipPackage a tarPath).
Proof.
  assert (∀ argv what, preserves (submits t0 ids) (must_succeed argv what)) as Hm.
  { intros argv what. apply preserves_bind; [apply quiet_runExitStatus|]. intros rc. preserve. }
  apply preserves_bind; [apply preserves_lift|]. intros packageName. cbn zeta.
  apply preserves_bind; [apply Hm|]. intros _. apply preserves_bind; [apply Hm|]. intros _.
  apply preserves_bind.
  { apply preserves_bind; [apply quiet_execvp_return|]. intros [rc err]. preserve. }
  intros _ s Hs. unfold finally.
  assert (preserves (submits t0 ids) (pullAllRanks (m_toolPath a) packageName)) as Hp.
  { apply preserves_bind; [apply quiet_execvp_return|]. intros [rc err]. preserve. }
  assert (preserves (submits t0 ids) (FluxArchive_delete (m_toolPath a))) as Hd.
  { apply preserves_try_catch; [|intros e; apply preserves_ret].
    apply preserves_bind; [apply quiet_runExitStatus|]. intros rc. apply preserves_ret. }
  specialize (Hp s Hs). destruct (pullAllRanks _ _ s) as [[[]|w|w] s1]; [by apply Hd..|done].
Qed.

(** What the application has recorded, and what was submitted. *)
Definition jobs_are (t0 : list sys_event) (ids l : list Z) (st : app_state) : Prop :=
  submits t0 ids (as_sys st) ∧ as_jobs st = l.

Lemma jobs_in_app {A : Type} (t0 : list sys_event) (ids l : list Z) (m : M sys A) :
  preserves (submits t0 ids) m → preserves (jobs_are t0 ids l) (in_app m).
Proof.
  intros Hm st [Hs Hl]. specialize (Hm (as_sys st) Hs). unfold in_app, zoom. by destruct (m (as_sys st)).
Qed.

Lemma jobs_modify (t0 : list sys_event) (ids l : list Z) (f : app_state → app_state) :
  (∀ st, as_jobs (f st) = as_jobs st ∧ as_sys (f st) = as_sys st) → preserves (jobs_are t0 ids l) (modify f).
Proof. intros Hf st [Hs Hl]. unfold jobs_are, modify. cbn. by destruct (Hf st) as [-> ->]. Qed.

Lemma jobs_load_bypass (t0 : list sys_event) (ids l : list Z) : preserves (jobs_are t0 ids l) load_bypass.
Proof.
  apply preserves_bind; [auto with cti|]. intros st. destruct (as_bypass st); [apply preserves_ret|].
  apply preserves_bind; [|intros _; by apply jobs_modify].
  apply jobs_in_app, preserves_try_catch; [|intros e; apply preserves_ret].
  apply preserves_bind; [|intros _; apply preserves_ret].
  apply preserves_bind; [|intros answer; preserve].
  apply preserves_bind; [by apply quiet_emit|]. intros _. preserve.
Qed.

Lemma jobs_ship_once (t0 : list sys_event) (ids l : list Z) (a : FluxApp) : preserves (jobs_are t0 ids l) (ship_once a).
Proof.
  apply preserves_bind; [auto with cti|]. intros st. destruct (as_sent st); [apply preserves_ret|]. unfold shipDaemon.
  cbn zeta. destruct (is_empty _); [apply preserves_throw|].
  apply preserves_bind; [|intros _; by apply jobs_modify].
  apply jobs_in_app, preserves_bind; [by apply quiet_request|]. intros _. apply quiet_ship.
Qed.

(** A start that returns submits one job, and records it last. *)
Lemma startDaemon_job (t0 : list sys_event) (ids l : list Z) (a : FluxApp) (args : option (list string))
    (synchronous : bool) (st st' : app_state) :
  jobs_are t0 ids l st → startDaemon a args synchronous st = (Ok tt, st') →
  ∃ id, jobs_are t0 (ids ++ [id]) (l ++ [id]) st'.
Proof.
  intros Hst Hr. unfold startDaemon in Hr. apply bind_Ok in Hr as ([] & st1 & H1' & Hr).
  apply bind_Ok in Hr as ([] & st2 & H2' & Hr).
  assert (jobs_are t0 ids l st2) as [Hs2 Hj2].
  { eapply preserves_Ok; [apply jobs_ship_once|done|]. by eapply preserves_Ok; [apply jobs_load_bypass|done|]. }
  apply bind_Ok in Hr as (id & st3 & H3' & Hr). injection Hr as <-.
  unfold in_app, zoom in H3'.
  match type of H3' with (let (_, _) := ?m in _) = _ => destruct m as [r s3] eqn:E end. injection H3' as -> <-.
  exists id. unfold jobs_are, add_job. cbn [as_sys as_jobs]. split; [|by rewrite Hj2].
  apply bind_Ok in E as (jobspec & s4 & Hj4 & E).
  pose proof (preserves_Ok _ _ _ _ _ (quiet_jobspec t0 ids _ _ _ _ _) Hj4 Hs2) as Hs4.
  apply bind_Ok in E as (job & s5 & Hc & E). unfold call in Hc.
  match type of Hc with (sys_emit ?e ≫= _) _ = _ => pose proof (submits_emit _ _ e _ Hs4) as Hs5 end.
  injection Hc as <- <-. cbn [job_of] in Hs5. rewrite bool_decide_eq_true_2 in Hs5 by done.
  match type of E with context [submitted ?t] => destruct (submitted t) as [id'|error] eqn:Es end; [|done].
  destruct synchronous; [|by injection E as -> <-].
  apply bind_Ok in E as (w & s6 & Hw & E). unfold call in Hw. injection Hw as <- <-.
  match type of E with context [job_waited ?t] => destruct (job_waited t) as [error|[[] message]] end; [done| |done].
  injection E as -> <-. by apply (quiet_emit _ _ (SCall "flux_job_wait" [to_string id])) in Hs5.
Qed.

Lemma for_each_emit {A : Type} (f : A → sys_event) (l : list A) (s : sys) :
  for_each l (λ x, sys_emit (f x)) s = (Ok tt, after (map f l) s).
Proof.
  revert s. induction l as [|x l IH]; intros s; cbn [for_each map].
  - unfold after. rewrite app_nil_r. by destruct s.
  - rewrite (bind_run_Ok (sys_emit _) _ _ tt (after [f x] s) eq_refl), IH. by rewrite after_then.
Qed.

(** C32 Daemons end with their application.  After any number of daemons were started, each by a
    call that has returned, the end of the application cancels exactly the jobs that these calls
    have submitted, one for each of them, under the ids that libflux gave them and in the order of
    the starts, before it removes the staging directory and has the application forgotten. *)
Theorem flux_daemons_cancelled (a : FluxApp) (starts : list (option (list string) * bool)) (st st' : app_state) :
  as_jobs st = [] → for_each starts (λ x, startDaemon a x.1 x.2) st = (Ok tt, st') →
  ∃ evs, sys_trace (as_sys st') = sys_trace (as_sys st) ++ evs ∧
    let ids := submitted_jobs (sys_trace (as_sys st)) evs in
    length ids = length starts ∧
    sys_trace (as_sys (FluxApp_delete true a st').2) = sys_trace (as_sys st') ++
      map (λ id, SCall "flux_job_cancel" [to_string id; "controlling application is terminating"]) ids ++
      (if is_empty (m_stagePath a) then [] else [SRemove (m_stagePath a)]) ++ [SDeregister (m_daemonAppId a)].
Proof.
  intros Hj Hr.
  assert (∃ new, length new = length starts ∧ jobs_are (sys_trace (as_sys st)) new new st')
    as (ids & Hl & (evs & Ht & <-) & Hi).
  { assert (jobs_are (sys_trace (as_sys st)) [] [] st) as Hst by (split; [exists []; by rewrite app_nil_r|done]).
    change (length starts) with (length (@nil Z) + length starts)%nat.
    revert Hst Hr. generalize (@nil Z). generalize (sys_trace (as_sys st)). intros t0. clear Hj. revert st.
    induction starts as [|x starts IH]; intros st ids Hst Hr; cbn [for_each] in Hr.
    - injection Hr as <-. exists ids. cbn. by rewrite Nat.add_0_r.
    - apply bind_Ok in Hr as ([] & st1 & H1' & Hr). apply (startDaemon_job _ _ _ _ _ _ _ _ Hst) in H1' as (id & Hst1).
      destruct (IH st1 _ Hst1 Hr) as (new & Hl & Hnew). exists new. split; [|done].
      rewrite Hl, length_app. cbn. lia. }
  exists evs. split; [done|]. cbn zeta. split; [done|]. set (ids := submitted_jobs _ evs) in *.
  unfold FluxApp_delete. rewrite (bind_run_Ok get _ st' st' st' eq_refl). cbn [negb].
  unfold in_app, zoom, catch_all, try_catch. rewrite Hi. unfold cancel_job.
  rewrite (bind_run_Ok _ _ _ _ _ (for_each_emit _ ids (as_sys st'))).
  destruct (is_empty (m_stagePath a)).
  - rewrite (bind_run_Ok (mret tt) _ _ tt _ eq_refl). rewrite request_run. destruct (req_done _) as [[]|w|w]; cbn;
      by rewrite <-?app_assoc.
  - rewrite (bind_run_Ok (sys_emit _) _ _ tt _ eq_refl). rewrite request_run. destruct (req_done _) as [[]|w|w]; cbn;
      by rewrite <-?app_assoc.
Qed.
End Applications.

(** ** Concrete runs *)

Definition demo_start : ptree :=
  PTree "" [("name", PTree "shell.init" []);
            ("context", PTree "" [("leader-rank", PTree "0" []); ("service", PTree "shell-7" [])])].

(** A library whose jobs have started and whose table is that of two nodes. *)
Definition demo_libflux : LibFlux := {|
  parse_json text :=
    Ok (if decide (text = "started") then demo_start
        else if decide (text = "lookup") then PTree "" [("R", PTree "R1" [])] else demo_table 10 1);
  load_libflux _ := Ok tt;
  flux_opened _ := Opened;
  submitted t := inl (100 + Z.of_nat (length (List.filter (λ e, match e with SCall "flux_job_submit" _ => true | _ => false end) t)));
  event_watch _ := true;
  event_text _ := Some "started";
  rpc t := match last t with
           | Some (SCall _ (topic :: _)) =>
               RpcAnswer (Some (if decide (topic = "job-info.lookup") then "lookup" else "table"))
           | _ => NoFuture ""
           end;
  job_waited _ := inr (true, None);
  flux_job_id_encode id := inl ("f" +:+ to_string id);
  flux_attr_get _ := None;
  flux_fork _ := inl 500;
  exe_of _ _ := None;
  FLUX_JOB_STATE_RUN := 16;
  FLUX_NODEID_ANY := -1;
  FLUX_CORE_VERSION_STRING := "0.40.0-1";
  minimum_version := (0, 29)
|}.

Definition demo_flux_programs : Commands := {| c_output _ _ := Some ""; c_wait _ _ := WExited 0 |}.

Definition demo_flux_daemon : FrontendDaemon := demo_frontend_daemon (λ _, "") (λ _, true) "no" "".

Definition demo_flux_fd : frontend_data :=
  MkFrontend "" "" false "/cfg" "/opt/cti" "" "/opt/cti/libexec/cti_fe_daemon" "/opt/cti/libexec/cti_be_daemon".

Definition demo_process : process := MkProcess (MkSys ∅ []) None None.

Abbreviation demo_make job p :=
  (@FluxApp_new slash_host demo_flux_programs demo_flux_daemon demo_ptree_num demo_flux demo_libflux 1 demo_flux_fd
     "flux" "cti_be_daemon1" (MkLaunchInfo job false) p).

Abbreviation demo_flux_app job :=
  (MkFluxApp demo_flux_fd "flux" 1 job 0 "shell-7" "R1" 2
     [MkPlacement "node10" 0 1 [(0, 7000)]; MkPlacement "node11" 0 1 [(1, 7001)]] "/bin/a.out"
     ("/tmp/jobtmp-0-" +:+ utf8_prefix +:+ to_string job) "/cfg/fluxXXXXXX"
     ["/cfg/fluxXXXXXX/slurm_layout"; "/cfg/fluxXXXXXX/slurm_pid"] "cti_be_daemon1").

Lemma flux_applications_share_witness :
  ∃ p1 p2, demo_make 12 demo_process = (Ok (demo_flux_app 12), p1) ∧
    demo_make 34 p1 = (Ok (demo_flux_app 34), p2) ∧
    @getJobId demo_flux demo_libflux (demo_flux_app 34) p2 = (Ok (utf8_prefix +:+ "12"), p2).
Proof.
  eexists _, _. split; [by vm_compute|]. split; [by vm_compute|].
  destruct (@flux_applications_share slash_host demo_flux_programs demo_flux_daemon demo_ptree_num demo_flux
    demo_libflux 1 1 demo_flux_fd demo_flux_fd "flux" "flux" "cti_be_daemon1" "cti_be_daemon1" (MkLaunchInfo 12 false)
    (MkLaunchInfo 34 false) demo_process (demo_make 12 demo_process).2 (demo_make 34 (demo_make 12 demo_process).2).2
    (demo_flux_app 12) (demo_flux_app 34) eq_refl) as [(f58 & pid & t & He & Hj & _) _]; [by vm_compute..|].
  vm_compute in He. injection He as <-. exact Hj.
Defined.

Lemma flux_check_finds_none_witness :
  ∃ found st', @checkFilesExist slash_host demo_flux_programs demo_flux_daemon (demo_flux_app 12) {["/lib/a.so"]}
      (MkAppState (MkSys ∅ []) true false false []) = (Ok found, st') ∧ found = ∅.
Proof.
  eexists _, _. split; [by vm_compute|].
  eapply (@flux_check_finds_none slash_host demo_flux_programs demo_flux_daemon demo_ptree_num demo_flux
    (demo_table 10 1) (demo_flux_app 12) {["/lib/a.so"]} _ (MkAppState (MkSys ∅ []) true false false [])); by vm_compute.
Defined.

Lemma flux_archive_removed_witness :
  ∃ r s', @shipPackage slash_host demo_flux_programs (demo_flux_app 12) "/cfg/p.tar" (MkSys ∅ []) = (r, s') ∧
    ∃ n, s' = after (take n (ship_programs (demo_flux_app 12) "/cfg/p.tar" "p.tar")) (MkSys ∅ []) ∧ n = 5%nat.
Proof.
  eexists _, _. split; [by vm_compute|].
  destruct (@flux_archive_removed slash_host demo_flux_programs (demo_flux_app 12) "/cfg/p.tar" "p.tar" (MkSys ∅ [])
    (@shipPackage slash_host demo_flux_programs (demo_flux_app 12) "/cfg/p.tar" (MkSys ∅ [])).2 (Ok tt))
    as (n & Hs & _ & Hn); [by intros t argv; eexists|done|by vm_compute|done|].
  exists n. split; [exact Hs|by apply Hn].
Defined.

Lemma flux_start_awaited_witness :
  ∃ s', @await_shell demo_flux_programs demo_ptree_num demo_libflux 1 12 (MkSys ∅ []) = (Ok (0, "shell-7"), s').
Proof.
  eexists.
  refine (@flux_start_awaited demo_flux_programs demo_ptree_num demo_libflux 0 1 12 0 "shell-7" demo_start
    (PTree "" [("leader-rank", PTree "0" []); ("service", PTree "shell-7" [])]) (MkSys ∅ []) _ _ _ _ _ _ _);
    [lia|intros i Hi; lia|by eexists|done..].
Defined.

Lemma flux_daemons_cancelled_witness :
  let start x := @startDaemon slash_host demo_flux_programs demo_flux_daemon demo_libflux (demo_flux_app 12) x.1 x.2 in
  let st := MkAppState (MkSys ∅ []) true true false [] in
  ∃ st', for_each [(Some ["-v"], false); (None, true)] start st = (Ok tt, st') ∧
    sys_trace (as_sys (@FluxApp_delete demo_flux_daemon true (demo_flux_app 12) st').2) = sys_trace (as_sys st') ++
      [SCall "flux_job_cancel" ["101"; "controlling application is terminating"];
       SCall "flux_job_cancel" ["102"; "controlling application is terminating"];
       SRemove "/cfg/fluxXXXXXX"; SDeregister 1].
Proof.
  cbv zeta. eexists. split; [by vm_compute|].
  destruct (@flux_daemons_cancelled slash_host demo_flux_programs demo_flux_daemon demo_libflux (demo_flux_app 12)
    [(Some ["-v"], false); (None, true)] (MkAppState (MkSys ∅ []) true true false [])
    (for_each [(Some ["-v"], false); (None, true)]
       (λ x, @startDaemon slash_host demo_flux_programs demo_flux_daemon demo_libflux (demo_flux_app 12) x.1 x.2)
       (MkAppState (MkSys ∅ []) true true false [])).2) as (evs & He & _ & Ht); [done|by vm_compute|].
  refine (eq_trans Ht _). cbn [sys_trace as_sys app] in He. rewrite <-He. by vm_compute.
Defined.

(** The nodes of the demonstration with the files that are shipped to them. *)
Definition demo_flux_hosts : list HostPlacement :=
  [MkPlacement "node10" 0 1 [(0, 7000)]; MkPlacement "node11" 0 1 [(1, 7001)]].

Definition demo_flux_layout : bytes := match createNodeLayoutFile demo_flux_hosts with Ok b => b | _ => [] end.

Definition demo_flux_node : Node :=
  demo_files [("/t/slurm_layout", demo_flux_layout); ("/t/slurm_pid", createPIDListFile demo_flux_hosts)] "node11".

Lemma flux_backend_processes_witness :
  ∃ b', (@be_flux_init demo_flux_node;; @flux_findAppPids demo_flux_node) (demo_be "node11") = (Ok [(7001, 1)], b').
Proof.
  refine (@flux_backend_processes demo_ptree_num demo_flux demo_flux_node (demo_table 10 1) demo_flux_hosts
    demo_flux_layout (MkPlacement "node11" 0 1 [(1, 7001)]) "node11" (demo_be "node11") _ _ _ _ _ _ _ _ _ _ _ _ _ _).
  - by vm_compute.
  - by vm_compute.
  - by vm_compute.
  - repeat constructor; vm_compute; lia.
  - by vm_compute.
  - by vm_compute.
  - right. by left.
  - vm_compute. lia.
  - by vm_compute.
  - intros q [->|[->|[]%elem_of_nil]%elem_of_cons]%elem_of_cons; [by vm_compute|done].
  - done.
  - done.
  - by exists "/t".
  - by exists "/t".
Defined.
