(* ===== verification/Mpir.v ===== *)
(** * Launchers under control (src/src/frontend/mpir_iface/Inferior.cpp, MPIRInstance.cpp)

    A launcher that is started or attached to with Dyninst, stopped at the breakpoint that the
    MPIR interface defines, and read: the table of the processes of the job and strings.  Dyninst
    is the class [Dyninst], whose answers may depend on everything done to the launcher.  The
    class [MPIR] of the frontend daemon is implemented with it. *)

From S2P Require Import Prelude Wire Launch Daemon.

Inductive inf_event : Type :=
| IStart (launcher : string) (argv : list string) (env : gmap string string) (remapFds : list (Z * Z))
| IAttach (pid : Z)
| IHandler | INoHandler
| IContinue
| IWrite (address : Z) (data : bytes)
| IBreak (address : Z)
| INap (seconds : Z)
| IDetach
| ISignal (pid sig : Z)
| IReap (pid : Z).

#[export] Instance inf_event_eq_dec : EqDecision inf_event.
Proof. solve_decision. Defined.

Class Dyninst : Type := {
  (** the offset of the first symbol of a name in a file, when the file can be opened *)
  dy_symtab : string → option (string → option Z);
  (** whether following forks could be disabled *)
  dy_followfork : bool;
  (** whether starting or attaching gave a process *)
  dy_process : list inf_event → bool;
  (** libraries: none for a null pointer, else whether it is shared and where it is loaded *)
  dy_libraries : list inf_event → list (option (bool * Z));
  dy_pid : list inf_event → Z;
  dy_stopped : list inf_event → bool;
  dy_terminated : list inf_event → bool;
  dy_crashed : list inf_event → bool;
  dy_exited : list inf_event → bool;
  dy_exit_code : list inf_event → Z;
  (** the byte at an address that can be read *)
  dy_memory : list inf_event → Z → option ascii;
  (** the error of a write that fails *)
  dy_write_error : list inf_event → Z → bytes → option Z
}.

(** ** Inferior *)

(** [m_symtab] with [m_symbols] as offsets, [m_proc] as whether there is a process, and what was
    done. *)
Record Inferior : Type := MkInferior {
  m_symtab : string → option Z;
  m_symbols : gmap string Z;
  m_proc : bool;
  m_module_base : Z;
  inf_trace : list inf_event
}.

Definition unstarted : Inferior := MkInferior (λ _, None) ∅ false 0 [].

Definition inf_emit (e : inf_event) : M Inferior () :=
  modify (λ i, MkInferior (m_symtab i) (m_symbols i) (m_proc i) (m_module_base i) (inf_trace i ++ [e])).

Definition Address_plus (address n : Z) : Z := (address + n) mod 2 ^ 64.

(** [MPIR_ProcDescElem] in memory: two pointers, a number and four bytes of padding. *)
Record MPIR_ProcDescElem : Type := MkProcDesc { host_name : Z; executable_name : Z; desc_pid : Z }.

Definition sizeof_ProcDescElem : nat := 24.

Definition dec_ProcDescElem (l : bytes) : MPIR_ProcDescElem :=
  MkProcDesc (dec_le (take 8 l)) (dec_le (take 8 (drop 8 l))) (to_signed 4 (dec_le (take 4 (drop 16 l)))).

Section Inferior.
Context `{Dyninst}.

(** The first library that is not shared. *)
Definition find_module_base (libraries : list (option (bool * Z))) : Z :=
  default 0 (snd <$> List.find (λ lib : bool * Z, negb lib.1) (omap id libraries)).

Definition start_process (launcher : string) (start : inf_event) (failed : string) : M Inferior () :=
  match dy_symtab launcher with
  | None => throw ("Symtab failed to open file: '" +:+ launcher +:+ "'")
  | Some symbols =>
      modify (λ i, MkInferior symbols ∅ false 0 (inf_trace i));;
      inf_emit start;;
      i ← get;
      if dy_process (inf_trace i)
      then
        modify (λ i, MkInferior (m_symtab i) (m_symbols i) true
                       (find_module_base (dy_libraries (inf_trace i))) (inf_trace i));;
        (if dy_followfork then mret tt else throw "failed to disable ProcessControl follow-fork mode");;
        inf_emit IHandler
      else throw failed
  end.

Definition Inferior_launch (env : gmap string string) (launcher : string) (launcherArgv : list string)
    (remapFds : list (Z * Z)) : M Inferior () :=
  start_process launcher (IStart launcher launcherArgv env remapFds) "failed to start launcher".

Definition Inferior_attach (launcher : string) (pid : Z) : M Inferior () :=
  start_process launcher (IAttach pid) ("Failed to attach to PID " +:+ to_string pid).

Definition isTerminated (i : Inferior) : bool := negb (m_proc i) || dy_terminated (inf_trace i).
Definition isCrashed (i : Inferior) : bool := m_proc i && dy_crashed (inf_trace i).
Definition isExited (i : Inferior) : bool := m_proc i && dy_exited (inf_trace i).
Definition getExitCode (i : Inferior) : Z := dy_exit_code (inf_trace i).
Definition getPid (i : Inferior) : Z := dy_pid (inf_trace i).

Definition Inferior_delete : M Inferior () :=
  inf_emit INoHandler;;
  i ← get;
  if isTerminated i then mret tt else inf_emit IDetach.

(** Events are handled until the launcher has ended or a thread of it is stopped. *)
Fixpoint continueRun (fuel : nat) : M Inferior () :=
  match fuel with
  | O => undef "the launcher runs on"
  | S fuel' =>
      inf_emit IContinue;;
      i ← get;
      if isTerminated i || dy_stopped (inf_trace i) then mret tt else continueRun fuel'
  end.

(** Failing to wait is not looked at. *)
Definition terminate : M Inferior () :=
  i ← get;
  if isTerminated i then mret tt
  else
    let pid := getPid i in
    inf_emit IDetach;;
    inf_emit (ISignal pid SIGTERM);;
    inf_emit (IReap pid).

(** *** Symbols and memory *)

Definition addSymbol (symName : string) : M Inferior () :=
  i ← get;
  match m_symtab i symName with
  | Some offset =>
      modify (λ i, MkInferior (m_symtab i) (<[symName := offset]> (m_symbols i)) (m_proc i) (m_module_base i)
                     (inf_trace i))
  | None => throw ("error: " +:+ symName +:+ " not found")
  end.

Definition getAddress (symName : string) : M Inferior Z :=
  i ← get;
  (if bool_decide (m_symbols i !! symName = None) then addSymbol symName else mret tt);;
  i ← get;
  match m_symbols i !! symName with
  | Some offset => mret (Address_plus (m_module_base i) offset)
  | None => undef "map::at"
  end.

Definition writeFromBuf (destAddr : Z) (buf : bytes) : M Inferior () :=
  i ← get;
  match dy_write_error (inf_trace i) destAddr buf with
  | Some error =>
      throw ("write of " +:+ to_string (Z.of_nat (length buf)) +:+ " bytes failed: " +:+ to_string error)
  | None => inf_emit (IWrite destAddr buf)
  end.

Definition writeVariable (destName : string) (buf : bytes) : M Inferior () :=
  address ← getAddress destName; writeFromBuf address buf.

(** That memory cannot be read is not looked at: the variable it was read for is then used without
    a value. *)
Definition memory_at (i : Inferior) (sourceAddr : Z) (len : nat) : option bytes :=
  mapM (λ k, dy_memory (inf_trace i) (Address_plus sourceAddr (Z.of_nat k))) (seq 0 len).

Definition readMemory (sourceAddr : Z) (len : nat) : M Inferior bytes :=
  i ← get;
  match memory_at i sourceAddr len with
  | Some l => mret l
  | None => undef "a variable without a value is read"
  end.

Definition readVariable (sourceName : string) (len : nat) : M Inferior bytes :=
  address ← getAddress sourceName; readMemory address len.

Definition read_int_variable (sourceName : string) : M Inferior Z :=
  l ← readVariable sourceName 4; mret (to_signed 4 (dec_le l)).

Definition read_address_variable (sourceName : string) : M Inferior Z :=
  l ← readVariable sourceName 8; mret (dec_le l).

Definition setBreakpoint (fnName : string) : M Inferior () :=
  address ← getAddress fnName; inf_emit (IBreak address).

(** ** MPIRInstance *)

Definition setupMPIRStandard : M Inferior () :=
  for_each ["MPIR_being_debugged"; "MPIR_Breakpoint"; "MPIR_debug_state"; "MPIR_i_am_starter"; "MPIR_proctable";
            "MPIR_proctable_size"] addSymbol;;
  setBreakpoint "MPIR_Breakpoint";;
  writeVariable "MPIR_being_debugged" (enc_le 4 1).

(** A constructor that throws after the launcher was started lets go of it. *)
Definition or_delete (m : M Inferior ()) : M Inferior () := try_catch m (λ e, Inferior_delete;; throw e).

Definition MPIRInstance_launch (env : gmap string string) (launcher : string) (launcherArgv : list string)
    (remapFds : list (Z * Z)) : M Inferior () :=
  Inferior_launch env launcher launcherArgv remapFds;;
  or_delete setupMPIRStandard.

Fixpoint await_proctable (rounds fuel : nat) : M Inferior () :=
  match rounds with
  | O => undef "the table is never filled"
  | S rounds' =>
      size ← read_int_variable "MPIR_proctable_size";
      if size =? 0
      then
        continueRun fuel;;
        i ← get;
        if isTerminated i then throw "MPIR attach target terminated before proctable filled"
        else await_proctable rounds' fuel
      else mret tt
  end.

Definition MPIRInstance_attach (rounds fuel : nat) (launcher : string) (pid : Z) : M Inferior () :=
  Inferior_attach launcher pid;;
  or_delete (setupMPIRStandard;; await_proctable rounds fuel).

Definition DebugSpawned : Z := 1.

Fixpoint runToMPIRBreakpoint (rounds fuel : nat) : M Inferior () :=
  match rounds with
  | O => undef "the launcher never gets to the breakpoint"
  | S rounds' =>
      continueRun fuel;;
      i ← get;
      if isTerminated i then throw "MPIR launch target terminated before MPIR_Breakpoint"
      else
        debugState ← read_int_variable "MPIR_debug_state";
        proctable_size ← read_int_variable "MPIR_proctable_size";
        if (debugState =? DebugSpawned) && (0 <? proctable_size) then mret tt
        else inf_emit (INap 1);; runToMPIRBreakpoint rounds' fuel
  end.

(** A launcher that is neither said to have exited nor to have crashed was let go of. *)
Fixpoint waitExit (rounds fuel : nat) : M Inferior Z :=
  match rounds with
  | O => undef "the launcher does not end"
  | S rounds' =>
      continueRun fuel;;
      i ← get;
      if isExited i then mret (getExitCode i)
      else if isCrashed i then mret (-1)
      else if isTerminated i then mret 0
      else waitExit rounds' fuel
  end.

Definition readArrayElem (symName : string) (idx : nat) : M Inferior MPIR_ProcDescElem :=
  array_start ← read_address_variable symName;
  l ← readMemory (Address_plus array_start (Z.of_nat idx * Z.of_nat sizeof_ProcDescElem)) sizeof_ProcDescElem;
  mret (dec_ProcDescElem l).

(** The characters up to one that is 0. *)
Fixpoint read_chars_at (fuel : nat) (address : Z) : M Inferior string :=
  match fuel with
  | O => undef "the text has no end"
  | S fuel' =>
      l ← readMemory address 1;
      match l with
      | [c] =>
          if bool_decide (c = "000"%char) then mret ""
          else rest ← read_chars_at fuel' (Address_plus address 1); mret (String c rest)
      | _ => undef "one character is read"
      end
  end.

Definition readStringAt (fuel : nat) (symName : string) : M Inferior string :=
  strAddress ← read_address_variable symName; read_chars_at fuel strAddress.

Definition readCharArrayAt (fuel : nat) (symName : string) : M Inferior string :=
  arrayAddress ← getAddress symName; read_chars_at fuel arrayAddress.

Fixpoint read_elements (fuel : nat) (n i : nat) : M Inferior (list MPIRProctableElem) :=
  match n with
  | O => mret []
  | S n' =>
      procDesc ← readArrayElem "MPIR_proctable" i;
      hostname ← read_chars_at fuel (host_name procDesc);
      executable ← read_chars_at fuel (executable_name procDesc);
      rest ← read_elements fuel n' (S i);
      mret (MkElem (desc_pid procDesc) hostname executable :: rest)
  end.

Definition getProctable (fuel : nat) : M Inferior (list MPIRProctableElem) :=
  num_pids ← read_int_variable "MPIR_proctable_size";
  if num_pids =? 0 then throw "launcher MPIR_proctable_size is 0"
  else read_elements fuel (Z.to_nat num_pids) 0.

(** ** The class the frontend daemon uses *)

(** Reading leaves the launcher as it is, so what it does to the symbols that were found is
    dropped. *)
Definition dyninst_mpir (rounds fuel : nat) : MPIR := {|
  mpir_inst := Inferior;
  mi_launch env launcher argv remapFds :=
    match MPIRInstance_launch env launcher argv remapFds unstarted with
    | (Ok _, i) => Ok i | (Throw e, _) => Throw e | (Undef e, _) => Undef e end;
  mi_attach launcher pid :=
    match MPIRInstance_attach rounds fuel launcher pid unstarted with
    | (Ok _, i) => Ok i | (Throw e, _) => Throw e | (Undef e, _) => Undef e end;
  mi_runToMPIRBreakpoint i :=
    match runToMPIRBreakpoint rounds fuel i with
    | (Ok _, i') => Ok i' | (Throw e, _) => Throw e | (Undef e, _) => Undef e end;
  mi_getLauncherPid := getPid;
  mi_readStringAt i symName := (readStringAt fuel symName i).1;
  mi_getProctable i := (getProctable fuel i).1
|}.
End Inferior.
