(* ===== verification/MpirProofs.v ===== *)
(** * Launchers under control: what is shown

    What the launcher is told before it runs, when it is taken to have started its job, and that
    the table the daemon reports is the one in the memory of the launcher. *)

From S2P Require Import Prelude Split Argv Host Wire Launch Daemon Handlers DaemonExamples Mpir.

Section Proofs.
Context `{Dyninst}.
Implicit Types (i : Inferior) (n : string).

(** ** Reading *)

(** Symbols that were found are those of the file. *)
Definition symbols_ok (i : Inferior) : Prop := ∀ n o, m_symbols i !! n = Some o → m_symtab i n = Some o.

(** The same launcher, with other symbols found. *)
Definition same (i i' : Inferior) : Prop :=
  m_symtab i' = m_symtab i ∧ m_proc i' = m_proc i ∧ m_module_base i' = m_module_base i ∧
  inf_trace i' = inf_trace i ∧ symbols_ok i'.

Lemma same_refl i : symbols_ok i → same i i.
Proof. by repeat split. Qed.

Lemma same_trans i i' i'' : same i i' → same i' i'' → same i i''.
Proof. unfold same. intuition congruence. Qed.

Lemma same_symbols_ok i i' : same i i' → symbols_ok i'.
Proof. by intros (_ & _ & _ & _ & ?). Qed.

(** Code that returns a value and changes nothing but the symbols found. *)
Definition reads {A : Type} (m : M Inferior A) (i : Inferior) (a : A) : Prop := ∃ i', m i = (Ok a, i') ∧ same i i'.

Lemma reads_ret {A : Type} i (a : A) : symbols_ok i → reads (mret a) i a.
Proof. exists i. by split; [|apply same_refl]. Qed.

Lemma reads_bind {A B : Type} (m : M Inferior A) (k : A → M Inferior B) i (a : A) (b : B) :
  reads m i a → (∀ i', same i i' → reads (k a) i' b) → reads (m ≫= k) i b.
Proof.
  intros (i1 & E1 & S1) Hk. destruct (Hk i1 S1) as (i2 & E2 & S2). exists i2.
  rewrite (bind_run_Ok _ _ _ _ _ E1). split; [done|by apply (same_trans _ i1)].
Qed.

(** The address of a symbol. *)
Definition address_of (i : Inferior) (n : string) : option Z := Address_plus (m_module_base i) <$> m_symtab i n.

Lemma same_address i i' n : same i i' → address_of i' n = address_of i n.
Proof. unfold address_of. by intros (-> & _ & -> & _). Qed.

Lemma same_memory i i' (a : Z) (len : nat) : same i i' → memory_at i' a len = memory_at i a len.
Proof. unfold memory_at. by intros (_ & _ & _ & -> & _). Qed.

Lemma same_terminated i i' : same i i' → isTerminated i' = isTerminated i.
Proof. unfold isTerminated. by intros (_ & -> & _ & -> & _). Qed.

Definition found (n : string) (o : Z) (i : Inferior) : Inferior :=
  MkInferior (m_symtab i) (<[n := o]> (m_symbols i)) (m_proc i) (m_module_base i) (inf_trace i).

Lemma same_found i n (o : Z) : symbols_ok i → m_symtab i n = Some o → same i (found n o i).
Proof.
  intros Hi E. repeat split. intros n' o'. cbn. destruct (decide (n = n')) as [->|Hn].
  - rewrite lookup_insert_eq. congruence.
  - rewrite lookup_insert_ne by done. apply Hi.
Qed.

Lemma getAddress_reads i n (a : Z) : symbols_ok i → address_of i n = Some a → reads (getAddress n) i a.
Proof.
  intros Hi Ha. unfold address_of in Ha. destruct (m_symtab i n) as [o|] eqn:Eo; [|done]. injection Ha as <-.
  unfold reads, getAddress, addSymbol, get, modify, mbind, M_bind.
  destruct (m_symbols i !! n) as [o'|] eqn:En; cbn.
  - rewrite En. specialize (Hi _ _ En) as Eo'. simplify_eq. exists i. by split; [|apply same_refl].
  - rewrite Eo. cbn. rewrite lookup_insert_eq. eexists. split; [done|]. by apply same_found.
Qed.

(** A symbol that is not in the file is an error, whatever was found before. *)
Lemma getAddress_Throw i n :
  symbols_ok i → m_symtab i n = None → getAddress n i = (Throw ("error: " +:+ n +:+ " not found"), i).
Proof.
  intros Hi En. unfold getAddress, addSymbol, get, mbind, M_bind.
  destruct (m_symbols i !! n) as [o'|] eqn:E; [by rewrite (Hi _ _ E) in En|]. cbn. by rewrite En.
Qed.

Lemma readMemory_reads i (a : Z) (len : nat) (l : bytes) :
  symbols_ok i → memory_at i a len = Some l → reads (readMemory a len) i l.
Proof.
  intros Hi E. exists i. split; [|by apply same_refl].
  unfold readMemory, get, mbind, M_bind. by rewrite E.
Qed.

(** The bytes that a symbol stands for. *)
Definition variable_at (i : Inferior) (n : string) (l : bytes) : Prop :=
  ∃ a, address_of i n = Some a ∧ memory_at i a (length l) = Some l.

Lemma variable_same i i' n l : same i i' → variable_at i n l → variable_at i' n l.
Proof. intros S (a & Ea & El). exists a. by rewrite (same_address _ _ _ S), (same_memory _ _ _ _ S). Qed.

Lemma readVariable_reads i n (l : bytes) :
  symbols_ok i → variable_at i n l → reads (readVariable n (length l)) i l.
Proof.
  intros Hi (a & Ea & El). eapply reads_bind; [by apply getAddress_reads|].
  intros i' S. apply readMemory_reads; [by eapply same_symbols_ok|]. by rewrite (same_memory _ _ _ _ S).
Qed.

Lemma read_int_reads i n (z : Z) :
  symbols_ok i → in_signed 4 z = true → variable_at i n (enc_le 4 z) → reads (read_int_variable n) i z.
Proof.
  intros Hi Hz Hv. pose proof (readVariable_reads _ _ _ Hi Hv) as Hr. rewrite length_enc_le in Hr.
  eapply reads_bind; [exact Hr|]. intros i' S. rewrite to_signed_roundtrip by (done || lia).
  apply reads_ret. by eapply same_symbols_ok.
Qed.

Lemma read_address_reads i n (z : Z) :
  symbols_ok i → 0 ≤ z < 2 ^ 64 → variable_at i n (enc_le 8 z) → reads (read_address_variable n) i z.
Proof.
  intros Hi Hz Hv. pose proof (readVariable_reads _ _ _ Hi Hv) as Hr. rewrite length_enc_le in Hr.
  eapply reads_bind; [exact Hr|]. intros i' S. rewrite dec_le_enc_le, Z.mod_small by (cbn; lia).
  apply reads_ret. by eapply same_symbols_ok.
Qed.

(** ** Texts *)

(** A text in memory, with its end. *)
Definition text_at (i : Inferior) (address : Z) (s : string) : Prop :=
  nul_free s = true ∧
  memory_at i address (S (String.length s)) = Some (list_ascii_of_string s ++ ["000"%char]).

Lemma text_same i i' a s : same i i' → text_at i a s → text_at i' a s.
Proof. intros S [Hs E]. split; [done|]. by rewrite (same_memory _ _ _ _ S). Qed.

Lemma Address_plus_plus (a m n : Z) : Address_plus (Address_plus a m) n = Address_plus a (m + n).
Proof. unfold Address_plus. rewrite Zplus_mod_idemp_l. f_equal. lia. Qed.

Lemma memory_spec i (a : Z) (len : nat) (l : bytes) :
  memory_at i a len = Some l ↔
  length l = len ∧ ∀ k c, l !! k = Some c → dy_memory (inf_trace i) (Address_plus a (Z.of_nat k)) = Some c.
Proof.
  unfold memory_at. rewrite mapM_Some, Forall2_lookup. split.
  - intros Hf. assert (length l = len) as Hl.
    { rewrite <-(length_seq len 0). symmetry. by eapply Forall2_length, Forall2_lookup. }
    split; [done|]. intros k c Hk. specialize (Hf k). rewrite Hk, lookup_seq_lt in Hf
      by (apply lookup_lt_Some in Hk; lia). by inversion Hf.
  - intros [Hl Hc] k. destruct (l !! k) as [c|] eqn:Ek.
    + rewrite lookup_seq_lt by (apply lookup_lt_Some in Ek; lia). constructor. by apply Hc.
    + rewrite lookup_seq_ge by (apply lookup_ge_None in Ek; lia). constructor.
Qed.

Lemma memory_app i (a : Z) (l1 l2 : bytes) :
  memory_at i a (length (l1 ++ l2)) = Some (l1 ++ l2) ↔
  memory_at i a (length l1) = Some l1 ∧ memory_at i (Address_plus a (Z.of_nat (length l1))) (length l2) = Some l2.
Proof.
  rewrite !memory_spec. split.
  - intros [_ Hc]. split; split; try done.
    + intros k c Hk. apply Hc. by apply lookup_app_l_Some.
    + intros k c Hk. rewrite Address_plus_plus, <-Nat2Z.inj_add. apply Hc. rewrite lookup_app_r by lia.
      by replace (length l1 + k - length l1)%nat with k by lia.
  - intros [[_ H1] [_ H2]]. split; [done|]. intros k c [Hk|[Hk1 Hk2]]%lookup_app_Some; [by apply H1|].
    specialize (H2 _ _ Hk2). rewrite Address_plus_plus in H2.
    by replace (Z.of_nat (length l1) + Z.of_nat (k - length l1)) with (Z.of_nat k) in H2 by lia.
Qed.

Lemma text_nil i (a : Z) : text_at i a "" → memory_at i a 1 = Some ["000"%char].
Proof. by intros [_ E]. Qed.

Lemma text_cons i (a : Z) (c : ascii) (s : string) :
  text_at i a (String c s) →
  c ≠ "000"%char ∧ memory_at i a 1 = Some [c] ∧ text_at i (Address_plus a 1) s.
Proof.
  intros [Hs E]. unfold nul_free, no_char in Hs. cbn [string_forall] in Hs. apply andb_true_iff in Hs as [Hc Hs].
  cbn [list_ascii_of_string String.length] in E.
  assert (S (S (String.length s)) = length ([c] ++ (list_ascii_of_string s ++ ["000"%char]))) as El.
  { cbn. rewrite length_app, length_list_ascii. cbn. lia. }
  rewrite El in E. change ((c :: list_ascii_of_string s) ++ ["000"%char]) with ([c] ++ (list_ascii_of_string s ++ ["000"%char])) in E.
  apply memory_app in E as [E1 E2].
  repeat split; [|done..|].
  - intros ->. done.
  - cbn [length] in E2. rewrite length_app, length_list_ascii in E2. cbn in E2.
    by rewrite Nat.add_1_r in E2.
Qed.

Lemma read_chars_reads i (a : Z) (s : string) (fuel : nat) :
  symbols_ok i → text_at i a s → (String.length s < fuel)%nat → reads (read_chars_at fuel a) i s.
Proof.
  revert i a fuel. induction s as [|c s IH]; intros i a [|fuel] Hi Ht Hf; cbn in Hf; try lia.
  - eapply reads_bind; [by apply readMemory_reads, text_nil|]. intros i' S. cbn.
    apply reads_ret. by eapply same_symbols_ok.
  - apply text_cons in Ht as (Hc & E & Ht).
    eapply reads_bind; [by apply readMemory_reads|]. intros i' S. cbn. rewrite bool_decide_false by done.
    eapply reads_bind; [apply IH; [by eapply same_symbols_ok|by eapply text_same|lia]|].
    intros i'' S'. apply reads_ret. by eapply same_symbols_ok.
Qed.

(** ** The table *)

(** An element of the table in memory, with whatever is in its padding. *)
Definition element_at (i : Inferior) (a : Z) (e : MPIRProctableElem) : Prop :=
  ∃ h x pad, 0 ≤ h < 2 ^ 64 ∧ 0 ≤ x < 2 ^ 64 ∧ in_signed 4 (el_pid e) = true ∧ length pad = 4%nat ∧
    memory_at i a sizeof_ProcDescElem = Some (enc_le 8 h ++ enc_le 8 x ++ enc_le 4 (el_pid e) ++ pad) ∧
    text_at i h (el_hostname e) ∧ text_at i x (el_executable e).

Definition table_at (i : Inferior) (base : Z) (l : list MPIRProctableElem) : Prop :=
  ∀ k e, l !! k = Some e → element_at i (Address_plus base (Z.of_nat k * Z.of_nat sizeof_ProcDescElem)) e.

(** The memory of a launcher that has filled its table. *)
Definition proctable_in (i : Inferior) (l : list MPIRProctableElem) : Prop :=
  ∃ base, 0 ≤ base < 2 ^ 64 ∧ variable_at i "MPIR_proctable" (enc_le 8 base) ∧ table_at i base l ∧
    variable_at i "MPIR_proctable_size" (enc_le 4 (Z.of_nat (length l))) ∧ (0 < length l)%nat ∧
    Z.of_nat (length l) < 2 ^ 31.

Definition texts_below (fuel : nat) (l : list MPIRProctableElem) : Prop :=
  Forall (λ e, String.length (el_hostname e) < fuel ∧ String.length (el_executable e) < fuel)%nat l.

Lemma element_same i i' a e : same i i' → element_at i a e → element_at i' a e.
Proof.
  intros S (h & x & pad & Hh & Hx & Hp & Hl & E & T1 & T2). exists h, x, pad.
  rewrite (same_memory _ _ _ _ S). repeat split; try done || lia; by eapply text_same.
Qed.

Lemma dec_element (h x pid : Z) (pad : bytes) :
  0 ≤ h < 2 ^ 64 → 0 ≤ x < 2 ^ 64 → in_signed 4 pid = true →
  dec_ProcDescElem (enc_le 8 h ++ enc_le 8 x ++ enc_le 4 pid ++ pad) = MkProcDesc h x pid.
Proof.
  intros Hh Hx Hp. unfold dec_ProcDescElem.
  rewrite take_enc, (drop_enc 8 16), (drop_enc 8 8), (drop_enc 8 8) by lia. cbn [Nat.sub].
  repeat match goal with |- context [drop 0 ?l] => change (drop 0 l) with l end. rewrite !take_enc.
  rewrite to_signed_roundtrip by (done || lia). by rewrite !dec_le_enc_le, !Z.mod_small by (cbn; lia).
Qed.

Lemma readArrayElem_reads i (base : Z) (k : nat) (e : MPIRProctableElem) :
  symbols_ok i → 0 ≤ base < 2 ^ 64 → variable_at i "MPIR_proctable" (enc_le 8 base) →
  element_at i (Address_plus base (Z.of_nat k * Z.of_nat sizeof_ProcDescElem)) e →
  ∃ d, reads (readArrayElem "MPIR_proctable" k) i d ∧ desc_pid d = el_pid e ∧
    text_at i (host_name d) (el_hostname e) ∧ text_at i (executable_name d) (el_executable e).
Proof.
  intros Hi Hb Hv (h & x & pad & Hh & Hx & Hp & Hl & E & T1 & T2).
  exists (MkProcDesc h x (el_pid e)). split; [|by split].
  eapply reads_bind; [by apply (read_address_reads _ _ base)|]. intros i' S.
  eapply reads_bind.
  - apply readMemory_reads; [by eapply same_symbols_ok|]. by rewrite (same_memory _ _ _ _ S), E.
  - intros i'' S'. rewrite dec_element by done. apply reads_ret. by eapply same_symbols_ok.
Qed.

Lemma read_elements_reads i (base : Z) (l : list MPIRProctableElem) (fuel k : nat) :
  symbols_ok i → 0 ≤ base < 2 ^ 64 → variable_at i "MPIR_proctable" (enc_le 8 base) → texts_below fuel l →
  (∀ j e, l !! j = Some e → element_at i (Address_plus base (Z.of_nat (k + j) * Z.of_nat sizeof_ProcDescElem)) e) →
  reads (read_elements fuel (length l) k) i l.
Proof.
  revert i k. induction l as [|e l IH]; intros i k Hi Hb Hv Hf Hl; cbn [length read_elements].
  { by apply reads_ret. }
  apply Forall_cons in Hf as [[F1 F2] Hf]. pose proof (Hl 0%nat e eq_refl) as He. rewrite Nat.add_0_r in He.
  destruct (readArrayElem_reads _ _ _ _ Hi Hb Hv He) as (d & Hd & Ep & T1 & T2).
  eapply reads_bind; [exact Hd|]. intros i1 S1.
  eapply reads_bind; [apply read_chars_reads; [by eapply same_symbols_ok|by eapply text_same|done]|]. intros i2 S2.
  eapply same_trans in S2 as S12; [|exact S1].
  eapply reads_bind; [apply read_chars_reads; [by eapply same_symbols_ok|by eapply text_same|done]|]. intros i3 S3.
  eapply same_trans in S3 as S13; [|exact S12].
  eapply reads_bind.
  - apply (IH i3 (S k)); [by eapply same_symbols_ok|done|by eapply variable_same|done|].
    intros j e' Hj. eapply element_same; [exact S13|]. replace (S k + j)%nat with (k + S j)%nat by lia. by apply Hl.
  - intros i4 S4. rewrite Ep. destruct e. apply reads_ret. by eapply same_symbols_ok.
Qed.

Lemma getProctable_reads i (l : list MPIRProctableElem) (fuel : nat) :
  symbols_ok i → proctable_in i l → texts_below fuel l → reads (getProctable fuel) i l.
Proof.
  intros Hi (base & Hb & Hv & Ht & Hs & H0 & Hn) Hf.
  eapply reads_bind.
  { apply read_int_reads; [done| |exact Hs]. apply andb_true_iff. rewrite Z.leb_le, Z.ltb_lt. cbn. lia. }
  intros i' S. rewrite (proj2 (Z.eqb_neq _ _)) by lia. rewrite Nat2Z.id.
  apply (read_elements_reads _ base); [by eapply same_symbols_ok|done|by eapply variable_same|done|].
  intros j e Hj. eapply element_same; [exact S|]. by apply Ht.
Qed.
(** ** Starting a launcher *)

(** The launcher after some more was done to it, whatever symbols were found on the way. *)
Definition grown (t : list inf_event) (i i' : Inferior) : Prop :=
  m_symtab i' = m_symtab i ∧ m_proc i' = m_proc i ∧ m_module_base i' = m_module_base i ∧
  inf_trace i' = inf_trace i ++ t ∧ symbols_ok i'.

Lemma grown_same i i' : grown [] i i' ↔ same i i'.
Proof. unfold grown, same. by rewrite app_nil_r. Qed.

Lemma grown_trans (t t' : list inf_event) i i' i'' : grown t i i' → grown t' i' i'' → grown (t ++ t') i i''.
Proof.
  intros (A1 & A2 & A3 & A4 & A5) (B1 & B2 & B3 & B4 & B5).
  repeat split; [congruence..|by rewrite B4, A4, (assoc_L (++))|done].
Qed.

Lemma grown_emit (e : inf_event) i : symbols_ok i → ∃ i', inf_emit e i = (Ok tt, i') ∧ grown [e] i i'.
Proof. intros Hi. eexists. split; [done|]. by repeat split. Qed.

Lemma grown_address (t : list inf_event) i i' n : grown t i i' → address_of i' n = address_of i n.
Proof. unfold address_of. by intros (-> & _ & -> & _). Qed.

Lemma grown_symbols_ok (t : list inf_event) i i' : grown t i i' → symbols_ok i'.
Proof. by intros (_ & _ & _ & _ & ?). Qed.

Lemma addSymbols_run (l : list string) i :
  symbols_ok i → ∃ r i', for_each l addSymbol i = (r, i') ∧ same i i' ∧
    match r with Ok _ => Forall (λ n, is_Some (m_symtab i n)) l | Throw _ => True | Undef _ => False end.
Proof.
  revert i. induction l as [|n l IH]; intros i Hi.
  { exists (Ok tt), i. split; [done|]. split; [by apply same_refl|constructor]. }
  cbn [for_each]. destruct (m_symtab i n) as [o|] eqn:En.
  - assert (addSymbol n i = (Ok tt, found n o i)) as E1.
    { unfold addSymbol, get, mbind, M_bind. by rewrite En. }
    pose proof (same_found _ _ _ Hi En) as S1.
    destruct (IH (found n o i)) as (r & i' & E & S & Hr); [by eapply same_symbols_ok|].
    exists r, i'. rewrite (bind_run_Ok _ _ _ _ _ E1), E. split; [done|].
    split; [by apply (same_trans _ (found n o i))|]. destruct r; [|done..]. constructor; [by eexists|done].
  - exists (Throw ("error: " +:+ n +:+ " not found")), i. split; [|by split; [apply same_refl|]].
    unfold addSymbol, get, mbind, M_bind. by rewrite En.
Qed.

(** Preparing a launcher: the breakpoint is set and it is told that it is debugged, or it is left
    as it was, perhaps with the breakpoint. *)
Lemma setupMPIRStandard_run i :
  symbols_ok i → ∃ r i' t, setupMPIRStandard i = (r, i') ∧ grown t i i' ∧
    match r with
    | Ok _ => ∃ b d, address_of i "MPIR_Breakpoint" = Some b ∧ address_of i "MPIR_being_debugged" = Some d ∧
                t = [IBreak b; IWrite d (enc_le 4 1)]
    | Throw _ => t = [] ∨ ∃ b, t = [IBreak b]
    | Undef _ => False
    end.
Proof.
  intros Hi. unfold setupMPIRStandard.
  destruct (addSymbols_run ["MPIR_being_debugged"; "MPIR_Breakpoint"; "MPIR_debug_state"; "MPIR_i_am_starter";
    "MPIR_proctable"; "MPIR_proctable_size"] i Hi) as ([[]|e|e] & i1 & E1 & S1 & H1); [|clear H1|done].
  2:{ exists (Throw e), i1, []. rewrite (bind_run_Throw _ _ _ _ _ E1). rewrite grown_same. auto. }
  rewrite (bind_run_Ok _ _ _ _ _ E1).
  apply Forall_cons in H1 as [[od Hd] H1]. apply Forall_cons in H1 as [[ob Hb] _].
  assert (address_of i "MPIR_Breakpoint" = Some (Address_plus (m_module_base i) ob)) as Ab
    by (unfold address_of; by rewrite Hb).
  assert (address_of i "MPIR_being_debugged" = Some (Address_plus (m_module_base i) od)) as Ad
    by (unfold address_of; by rewrite Hd).
  destruct (getAddress_reads i1 "MPIR_Breakpoint" (Address_plus (m_module_base i) ob)) as (i2 & E2 & S2);
    [by eapply same_symbols_ok|by rewrite (same_address _ _ _ S1)|].
  eapply same_trans in S2 as S12; [|exact S1].
  destruct (grown_emit (IBreak (Address_plus (m_module_base i) ob)) i2) as (i3 & E3 & G3); [by eapply same_symbols_ok|].
  assert (setBreakpoint "MPIR_Breakpoint" i1 = (Ok tt, i3)) as Eb.
  { unfold setBreakpoint. by rewrite (bind_run_Ok _ _ _ _ _ E2), E3. }
  rewrite (bind_run_Ok _ _ _ _ _ Eb). apply grown_same in S12. pose proof (grown_trans _ _ _ _ _ S12 G3) as G.
  destruct (getAddress_reads i3 "MPIR_being_debugged" (Address_plus (m_module_base i) od)) as (i4 & E4 & S4);
    [by eapply grown_symbols_ok|by rewrite (grown_address _ _ _ _ G)|].
  apply grown_same in S4. pose proof (grown_trans _ _ _ _ _ G S4) as G4. rewrite app_nil_r in G4.
  unfold writeVariable. rewrite (bind_run_Ok _ _ _ _ _ E4).
  unfold writeFromBuf. rewrite (bind_run_Ok get _ i4 i4 i4 eq_refl).
  destruct (dy_write_error _ _ _) as [error|].
  - eexists _, i4, _. split; [done|]. split; [exact G4|]. right. by eexists.
  - destruct (grown_emit (IWrite (Address_plus (m_module_base i) od) (enc_le 4 1)) i4) as (i5 & E5 & G5);
      [by eapply grown_symbols_ok|].
    rewrite E5. exists (Ok tt), i5. eexists. split; [done|].
    split; [exact (grown_trans _ _ _ _ _ G4 G5)|]. by eexists _, _.
Qed.

(** The launcher that was just started, or attached to. *)
Definition started (symbols : string → option Z) (start : inf_event) (t : list inf_event) : Inferior :=
  MkInferior symbols ∅ true (find_module_base (dy_libraries [start])) (start :: t).

Lemma start_process_run (launcher failed : string) (start : inf_event) :
  start_process launcher start failed unstarted =
  match dy_symtab launcher with
  | None => (Throw ("Symtab failed to open file: '" +:+ launcher +:+ "'"), unstarted)
  | Some symbols =>
      if dy_process [start]
      then if dy_followfork then (Ok tt, started symbols start [IHandler])
           else (Throw "failed to disable ProcessControl follow-fork mode", started symbols start [])
      else (Throw failed, MkInferior symbols ∅ false 0 [start])
  end.
Proof.
  unfold start_process. destruct (dy_symtab launcher) as [symbols|]; [|done].
  unfold inf_emit, modify, get, mbind, M_bind. cbn. destruct (dy_process _); [|done]. by destruct dy_followfork.
Qed.

Lemma started_symbols_ok symbols start t : symbols_ok (started symbols start t).
Proof. intros n o. cbn. by rewrite lookup_empty. Qed.

(** Letting go of a launcher. *)
Definition letting_go (t : list inf_event) : list inf_event :=
  INoHandler :: if dy_terminated (t ++ [INoHandler]) then [] else [IDetach].

Lemma Inferior_delete_run i :
  m_proc i = true →
  Inferior_delete i = (Ok tt, MkInferior (m_symtab i) (m_symbols i) true (m_module_base i)
                                (inf_trace i ++ letting_go (inf_trace i))).
Proof.
  intros Hp. unfold Inferior_delete, inf_emit, modify, get, mbind, M_bind, isTerminated, letting_go. cbn.
  rewrite Hp. cbn. destruct (dy_terminated _); cbn; [done|]. by rewrite <-(assoc_L (++)).
Qed.

Lemma or_delete_Throw (m : M Inferior ()) i i' (e : string) :
  m i = (Throw e, i') → m_proc i' = true →
  ∃ i'', or_delete m i = (Throw e, i'') ∧ inf_trace i'' = inf_trace i' ++ letting_go (inf_trace i').
Proof.
  intros E Hp. unfold or_delete. rewrite (try_catch_run_Throw _ _ _ _ _ E).
  rewrite (bind_run_Ok _ _ _ _ _ (Inferior_delete_run _ Hp)). by eexists.
Qed.
Lemma MPIRInstance_launch_run (env : gmap string string) (launcher : string) (argv : list string)
    (remapFds : list (Z * Z)) :
  let start := IStart launcher argv env remapFds in
  ∃ r i, MPIRInstance_launch env launcher argv remapFds unstarted = (r, i) ∧
    match r with
    | Ok _ => symbols_ok i ∧ m_proc i = true ∧ ∃ b d,
        address_of i "MPIR_Breakpoint" = Some b ∧ address_of i "MPIR_being_debugged" = Some d ∧
        inf_trace i = [start; IHandler; IBreak b; IWrite d (enc_le 4 1)]
    | Throw _ => inf_trace i = [] ∨ inf_trace i = [start] ∧ (dy_process [start] && dy_followfork = false) ∨
        ∃ t, (t = [] ∨ ∃ b, t = [IBreak b]) ∧
          inf_trace i = [start; IHandler] ++ t ++ letting_go ([start; IHandler] ++ t)
    | Undef _ => False
    end.
Proof.
  intros start. unfold MPIRInstance_launch, Inferior_launch.
  pose proof (start_process_run launcher "failed to start launcher" start) as E0.
  destruct (dy_symtab launcher) as [symbols|].
  2:{ eexists (Throw _), _. rewrite (bind_run_Throw _ _ _ _ _ E0). split; [done|]. by left. }
  destruct (dy_process [start]) eqn:Ep.
  2:{ eexists (Throw _), _. rewrite (bind_run_Throw _ _ _ _ _ E0). split; [done|]. right. by left. }
  destruct dy_followfork eqn:Ef.
  2:{ eexists (Throw _), _. rewrite (bind_run_Throw _ _ _ _ _ E0). split; [done|]. right. by left. }
  rewrite (bind_run_Ok _ _ _ _ _ E0).
  destruct (setupMPIRStandard_run _ (started_symbols_ok symbols start [IHandler])) as (r & i & t & E & G & Hr).
  pose proof G as (_ & Gp & Gb & Gt & Gs). destruct r as [[]|e|e]; [| |done].
  - destruct Hr as (b & d & Hb & Hd & ->). exists (Ok tt), i. unfold or_delete.
    rewrite (try_catch_run_Ok _ _ _ _ _ E). split; [done|]. split; [done|]. split; [done|].
    exists b, d. by rewrite (grown_address _ _ _ _ G), (grown_address _ _ _ _ G).
  - destruct (or_delete_Throw _ _ _ _ E) as (i' & -> & Et); [by rewrite Gp|].
    eexists (Throw e), i'. split; [done|]. right. right. exists t. split; [exact Hr|].
    rewrite Et, Gt. cbn. by rewrite <-?(assoc_L (++)).
Qed.

(** C20 Nothing is missed and nothing is kept of a launcher.  A launcher that is started under
    control has not run when this returns: its breakpoint is set and it has been told that it is
    debugged.  When this throws the launcher has not run either, and there are three cases: nothing
    was done; starting it gave no process, or the following of forks could not be turned off, and
    starting it is all that was done; or its events were asked for, and the last that was done
    was to give these up and to detach from it, unless it has ended. *)
Theorem mpir_launch_prepared (env : gmap string string) (launcher : string) (argv : list string)
    (remapFds : list (Z * Z)) :
  let start := IStart launcher argv env remapFds in
  let '(r, i) := MPIRInstance_launch env launcher argv remapFds unstarted in
  (IContinue ∉ inf_trace i) ∧ (∀ why, r ≠ Undef why) ∧
  (r = Ok tt → ∃ b d, address_of i "MPIR_Breakpoint" = Some b ∧ address_of i "MPIR_being_debugged" = Some d ∧
    inf_trace i = [start; IHandler; IBreak b; IWrite d (enc_le 4 1)]) ∧
  (∀ what, r = Throw what →
    inf_trace i = [] ∨
    inf_trace i = [start] ∧ (dy_process [start] = false ∨ dy_followfork = false) ∨
    ∃ t rest, inf_trace i = [start; IHandler] ++ t ++ INoHandler :: rest ∧ (t = [] ∨ ∃ b, t = [IBreak b]) ∧
      rest = if dy_terminated ([start; IHandler] ++ t ++ [INoHandler]) then [] else [IDetach]).
Proof.
  intros start.
  destruct (MPIRInstance_launch_run env launcher argv remapFds) as (r & i & -> & Hr). fold start in Hr.
  destruct r as [[]|e|e]; [| |done].
  - destruct Hr as (_ & _ & b & d & Hb & Hd & Et). rewrite Et.
    repeat split; [set_solver|done| |done]. intros _. by exists b, d.
  - assert (IContinue ∉ inf_trace i) as Hc.
    { destruct Hr as [->|[[-> _]|(t & Ht & ->)]]; [set_solver..|].
      unfold letting_go. destruct Ht as [->|[b ->]]; case_match; set_solver. }
    repeat split; [done..|]. intros what _. destruct Hr as [Et|[[Et Hp]|(t & Ht & Et)]].
    + by left.
    + right. left. split; [done|]. by apply andb_false_iff.
    + right. right. exists t. eexists. split; [exact Et|]. split; [exact Ht|]. by rewrite (assoc_L (++)).
Qed.

(** ** Running to the breakpoint *)

(** The launcher after it was let run, and after the pauses in between. *)
Definition ran (t : list inf_event) (i : Inferior) : Inferior :=
  MkInferior (m_symtab i) (m_symbols i) (m_proc i) (m_module_base i) (inf_trace i ++ t).

(** Letting it run until it is stopped: some events are handled before. *)
Lemma continueRun_stops (w fuel : nat) i :
  (w < fuel)%nat → m_proc i = true →
  (∀ m, (m ≤ w)%nat → dy_terminated (inf_trace i ++ replicate (S m) IContinue) = false ∧
                      dy_stopped (inf_trace i ++ replicate (S m) IContinue) = bool_decide (m = w)) →
  continueRun fuel i = (Ok tt, ran (replicate (S w) IContinue) i).
Proof.
  revert i fuel. induction w as [|w IH]; intros i [|fuel] Hf Hp Hs; try lia; cbn [continueRun];
    unfold inf_emit, modify, get, mbind, M_bind; cbn;
    (destruct (Hs 0%nat) as [Ht H0']; [lia|]); cbn [replicate] in Ht, H0'; unfold isTerminated; cbn;
    rewrite Hp, Ht, H0'; cbn [negb orb].
  - rewrite bool_decide_true by done. unfold ran. by rewrite Hp.
  - rewrite bool_decide_false by done.
    match goal with |- continueRun fuel ?i1 = _ => rewrite (IH i1 fuel) end.
    + unfold ran. cbn. by rewrite Hp, <-(assoc_L (++)).
    + lia.
    + done.
    + intros m Hm. cbn [inf_trace]. rewrite <-(assoc_L (++)). destruct (Hs (S m)) as [Ht' Hs']; [lia|].
      split; [exact Ht'|]. etrans; [exact Hs'|]. apply bool_decide_ext. lia.
Qed.

(** What a stopped launcher says of itself. *)
Definition says (i : Inferior) (state size : Z) : Prop :=
  in_signed 4 state = true ∧ in_signed 4 size = true ∧
  variable_at i "MPIR_debug_state" (enc_le 4 state) ∧ variable_at i "MPIR_proctable_size" (enc_le 4 size).

Lemma says_same i i' (state size : Z) : same i i' → says i state size → says i' state size.
Proof. intros S (H1 & H2 & H3 & H4). repeat split; [done..| |]; by eapply variable_same. Qed.

(** One round: the launcher is let run and, when it is not there yet, left alone for a second. *)
Lemma breakpoint_round (w rounds fuel : nat) i (state size : Z) :
  let stopped := ran (replicate (S w) IContinue) i in
  symbols_ok i → (w < fuel)%nat → m_proc i = true →
  (∀ m, (m ≤ w)%nat → dy_terminated (inf_trace i ++ replicate (S m) IContinue) = false ∧
                      dy_stopped (inf_trace i ++ replicate (S m) IContinue) = bool_decide (m = w)) →
  says stopped state size →
  ∃ i1, same stopped i1 ∧
    runToMPIRBreakpoint (S rounds) fuel i =
    if (state =? DebugSpawned) && (0 <? size) then (Ok tt, i1)
    else runToMPIRBreakpoint rounds fuel (ran [INap 1] i1).
Proof.
  intros stopped Hi Hf Hp Hs (S1 & S2 & V1 & V2). cbn [runToMPIRBreakpoint].
  assert (symbols_ok stopped) as Hi1 by done.
  rewrite (bind_run_Ok _ _ _ _ _ (continueRun_stops _ _ _ Hf Hp Hs)), (bind_run_Ok get _ _ _ _ eq_refl).
  assert (isTerminated stopped = false) as Ht.
  { unfold isTerminated, stopped. cbn [ran m_proc inf_trace]. rewrite Hp. by destruct (Hs w (le_n w)) as [-> _]. }
  fold stopped. rewrite Ht.
  destruct (read_int_reads _ _ _ Hi1 S1 V1) as (i1 & E1 & G1). rewrite (bind_run_Ok _ _ _ _ _ E1).
  destruct (read_int_reads i1 "MPIR_proctable_size" size) as (i2 & E2 & G2);
    [by eapply same_symbols_ok|done|by eapply variable_same|].
  rewrite (bind_run_Ok _ _ _ _ _ E2). exists i2. split; [by apply (same_trans _ i1)|].
  by destruct (_ && _).
Qed.

(** What was done when the launcher was stopped [k] times without being there, the time of number [j]
    after [waits j] events that did not stop it. *)
Fixpoint stops_done (waits : nat → nat) (k : nat) : list inf_event :=
  match k with
  | O => []
  | S k' => replicate (S (waits 0%nat)) IContinue ++ [INap 1] ++ stops_done (λ j, waits (S j)) k'
  end.

(** The launcher when, after that, [m + 1] more events were handled. *)
Definition stop (waits : nat → nat) (i : Inferior) (k m : nat) : Inferior :=
  ran (stops_done waits k ++ replicate (S m) IContinue) i.

(** The launcher goes on through the events of each time, is stopped by the last of them, and has not
    ended. *)
Definition stops (waits : nat → nat) (i : Inferior) (n : nat) : Prop :=
  ∀ k m, (k ≤ n)%nat → (m ≤ waits k)%nat →
    dy_terminated (inf_trace (stop waits i k m)) = false ∧
    dy_stopped (inf_trace (stop waits i k m)) = bool_decide (m = waits k).

(** C19 A launcher gets to the breakpoint.  When it is stopped some number of times without having
    ended, each time after any number of events that do not stop it, and says for the first time at
    the last of them that its job was spawned and how many processes there are, the run to the
    breakpoint returns then: it has handled all these events, and has left the launcher alone for a
    second after each time but the last. *)
Theorem mpir_breakpoint_reached (n rounds fuel : nat) i (waits : nat → nat) (states sizes : nat → Z) :
  symbols_ok i → m_proc i = true → (n < rounds)%nat → (∀ k, (k ≤ n)%nat → (waits k < fuel)%nat) →
  stops waits i n →
  (∀ k, (k ≤ n)%nat → says (stop waits i k (waits k)) (states k) (sizes k)) →
  (∀ k, (k < n)%nat → states k ≠ DebugSpawned ∨ sizes k ≤ 0) → states n = DebugSpawned → 0 < sizes n →
  ∃ i', runToMPIRBreakpoint rounds fuel i = (Ok tt, i') ∧ same (stop waits i n (waits n)) i'.
Proof.
  revert i rounds waits states sizes.
  induction n as [|n IH]; intros i rounds waits states sizes Hi Hp Hn Hf Hs Hsay Hbefore Hst Hsz;
    (destruct rounds as [|rounds]; [lia|]).
  all: destruct (breakpoint_round (waits 0%nat) rounds fuel i (states 0%nat) (sizes 0%nat)) as (i1 & S1 & ->);
    [done|apply Hf; lia|done|intros m Hm; apply (Hs 0%nat m); lia|apply (Hsay 0%nat); lia|].
  - rewrite Hst, Z.eqb_refl, (proj2 (Z.ltb_lt _ _)) by done. by exists i1.
  - assert ((states 0%nat =? DebugSpawned) && (0 <? sizes 0%nat) = false) as ->.
    { apply andb_false_iff. rewrite Z.eqb_neq, Z.ltb_ge. destruct (Hbefore 0%nat); [lia|by left|by right]. }
    set (waits' := λ j, waits (S j)). pose proof S1 as (Y1 & Y2 & Y3 & Y4 & Y5).
    assert (∀ k m, inf_trace (stop waits' (ran [INap 1] i1) k m) = inf_trace (stop waits i (S k) m)) as Etr.
    { intros k m. unfold stop, ran. cbn [inf_trace stops_done]. rewrite Y4. unfold ran. cbn [inf_trace].
      by rewrite <-!(assoc_L (++)). }
    assert (∀ k m, same (stop waits i (S k) m) (stop waits' (ran [INap 1] i1) k m)) as Est.
    { intros k m. repeat split; [exact Y1|exact Y2|exact Y3|by rewrite Etr|exact Y5]. }
    destruct (IH (ran [INap 1] i1) rounds waits' (λ k, states (S k)) (λ k, sizes (S k))) as (i' & E & S').
    + exact Y5.
    + cbn. by rewrite Y2.
    + lia.
    + intros k Hk. apply Hf. lia.
    + intros k m Hk Hm. rewrite Etr. apply Hs; [lia|done].
    + intros k Hk. eapply says_same; [apply Est|]. apply (Hsay (S k)). lia.
    + intros k Hk. apply Hbefore. lia.
    + done.
    + done.
    + exists i'. split; [exact E|]. eapply same_trans; [apply Est|exact S'].
Qed.

(** ** The table that the daemon reports *)

(** The number a symbol stands for. *)
Definition int_at (i : Inferior) (n : string) (z : Z) : Prop :=
  ∃ a l, address_of i n = Some a ∧ memory_at i a 4 = Some l ∧ z = to_signed 4 (dec_le l).

Lemma int_at_same i i' n (z : Z) : same i i' → int_at i n z → int_at i' n z.
Proof. intros S (a & l & Ea & El & ->). exists a, l. by rewrite (same_address _ _ _ S), (same_memory _ _ _ _ S). Qed.

Lemma read_int_Ok i i' n (z : Z) :
  symbols_ok i → read_int_variable n i = (Ok z, i') → same i i' ∧ int_at i n z.
Proof.
  intros Hi E. unfold read_int_variable, readVariable in E.
  destruct (m_symtab i n) as [o|] eqn:En.
  - assert (address_of i n = Some (Address_plus (m_module_base i) o)) as Ea by (unfold address_of; by rewrite En).
    destruct (getAddress_reads _ _ _ Hi Ea) as (i1 & E1 & S1).
    apply bind_Ok in E as (l & i2 & E & Er). rewrite (bind_run_Ok _ _ _ _ _ E1) in E.
    unfold readMemory in E. rewrite (bind_run_Ok get _ i1 i1 i1 eq_refl), (same_memory _ _ _ _ S1) in E.
    destruct (memory_at i _ 4) as [l'|] eqn:El; [|done]. apply Ok_inj in E as [-> ->].
    apply Ok_inj in Er as [<- <-]. split; [done|]. by eexists _, _.
  - by rewrite (bind_run_Throw _ _ _ _ _ (bind_run_Throw _ _ _ _ _ (getAddress_Throw _ _ Hi En))) in E.
Qed.

(** Letting the launcher run and leaving it alone. *)
Definition only_runs (t : list inf_event) : Prop := Forall (λ e, e = IContinue ∨ e = INap 1) t.

Lemma continueRun_grown (fuel : nat) i i' :
  symbols_ok i → continueRun fuel i = (Ok tt, i') →
  ∃ t, grown t i i' ∧ only_runs t ∧ (isTerminated i' = true ∨ dy_stopped (inf_trace i') = true).
Proof.
  revert i. induction fuel as [|fuel IH]; intros i Hi E; [done|]. cbn [continueRun] in E.
  destruct (grown_emit IContinue i Hi) as (i1 & E1 & G1).
  rewrite (bind_run_Ok _ _ _ _ _ E1), (bind_run_Ok get _ i1 i1 i1 eq_refl) in E.
  destruct (_ || _) eqn:Es.
  - apply Ok_inj in E as [_ <-]. exists [IContinue]. split; [done|]. split; [by repeat constructor|].
    by apply orb_true_iff.
  - apply IH in E as (t & G & Ht & Hs); [|by eapply grown_symbols_ok]. exists ([IContinue] ++ t).
    split; [by eapply grown_trans|]. split; [|done]. constructor; [by left|done].
Qed.

(** A launcher that is stopped at its breakpoint, its table filled. *)
Definition at_breakpoint (i : Inferior) : Prop :=
  isTerminated i = false ∧ dy_stopped (inf_trace i) = true ∧ int_at i "MPIR_debug_state" DebugSpawned ∧
  ∃ size, 0 < size ∧ int_at i "MPIR_proctable_size" size.

Lemma breakpoint_Ok (rounds fuel : nat) i i' :
  symbols_ok i → runToMPIRBreakpoint rounds fuel i = (Ok tt, i') →
  ∃ t, grown t i i' ∧ only_runs t ∧ at_breakpoint i'.
Proof.
  revert i. induction rounds as [|rounds IH]; intros i Hi E; [done|]. cbn [runToMPIRBreakpoint] in E.
  apply bind_Ok in E as ([] & i1 & E1 & E). destruct (continueRun_grown _ _ _ Hi E1) as (t1 & G1 & H1 & Hstop).
  rewrite (bind_run_Ok get _ i1 i1 i1 eq_refl) in E. destruct (isTerminated i1) eqn:Et; [done|].
  apply bind_Ok in E as (state & i2 & E2 & E). apply read_int_Ok in E2 as [S2 V2]; [|by eapply grown_symbols_ok].
  apply bind_Ok in E as (size & i3 & E3 & E). apply read_int_Ok in E3 as [S3 V3]; [|by eapply same_symbols_ok].
  assert (same i1 i3) as S by (by apply (same_trans _ i2)).
  assert (grown t1 i i3) as G.
  { apply grown_same in S. pose proof (grown_trans _ _ _ _ _ G1 S) as G. by rewrite app_nil_r in G. }
  destruct (_ && _) eqn:Ec.
  - apply Ok_inj in E as [_ <-]. exists t1. split; [done|]. split; [done|].
    apply andb_true_iff in Ec as [->%Z.eqb_eq Hz%Z.ltb_lt].
    split; [by rewrite (same_terminated _ _ S)|].
    split; [destruct S as (_ & _ & _ & -> & _); destruct Hstop; [congruence|done]|].
    split; [by apply (int_at_same i1)|].
    exists size. split; [done|]. by apply (int_at_same i2).
  - destruct (grown_emit (INap 1) i3) as (i4 & E4 & G4); [by eapply same_symbols_ok|].
    rewrite (bind_run_Ok _ _ _ _ _ E4) in E. pose proof (grown_trans _ _ _ _ _ G G4) as G'.
    apply IH in E as (t & Gt & Ht & Hb); [|by eapply grown_symbols_ok].
    exists ((t1 ++ [INap 1]) ++ t). split; [by eapply grown_trans|]. split; [|done].
    apply Forall_app. split; [|done]. apply Forall_app. split; [done|]. constructor; [by right|constructor].
Qed.
End Proofs.

(** ** The frontend daemon *)

Section Launches.
Context `{Kernel} `{Procs} `{MPIR} `{Host}.

Lemma extractMPIRResult_Ok (inst : mpir_inst) (result : MPIRResult) (d d' : daemon) :
  extractMPIRResult inst d = (Ok result, d') →
  res_launcher_pid result = mi_getLauncherPid inst ∧ mi_getProctable inst = Ok (res_proctable result) ∧
  d_mpirMap d' !! res_mpir_id result = Some inst.
Proof.
  unfold extractMPIRResult. destruct (job_and_step inst) as [job step]. intros E. minv. simplify_eq/=.
  by rewrite lookup_insert_eq.
Qed.

(** What is in the map of launchers is not changed by the end of a launch. *)
Lemma launchMPIR_Ok (ld : LaunchData) (result : MPIRResult) (d d' : daemon) :
  Handlers.launchMPIR ld d = (Ok result, d') →
  ∃ path env inst inst', findPath (filepath ld) = Ok path ∧ env = (launch_env ld (d_env d)).2 ∧
    mi_launch env path (argvList ld)
      [(fd_num (stdin_fd ld), 0); (fd_num (stdout_fd ld), 1); (fd_num (stderr_fd ld), 2)] = Ok inst ∧
    mi_runToMPIRBreakpoint inst = Ok inst' ∧
    res_launcher_pid result = mi_getLauncherPid inst' ∧ mi_getProctable inst' = Ok (res_proctable result) ∧
    d_mpirMap d' !! res_mpir_id result = Some inst'.
Proof.
  unfold launchMPIR. rewrite (bind_run_Ok get _ d d d eq_refl).
  destruct (launch_env ld (d_env d)) as [saved e] eqn:Ee. intros E.
  apply bind_Ok in E as ([] & d1 & E1 & E). unfold finally in E.
  match type of E with context [match ?m d1 with _ => _ end] => destruct (m d1) as [[r|w|w] d2] eqn:Em end;
    [|by (cbn in E)..].
  cbn in E. injection E as -> <-. minv. simplify_eq/=.
  match goal with Hl : try_catch (lift ?r) _ _ = _ |- _ =>
    unfold try_catch, lift in Hl; destruct r as [inst|w|w] eqn:El; [|done..] end. simplify_eq/=.
  match goal with Hx : extractMPIRResult _ _ = _ |- _ => apply extractMPIRResult_Ok in Hx as (Hp & Ht & Hm) end.
  unfold cleanup_insert in *. minv. simplify_eq/=. by eexists a, e, a0, a3.
Qed.
End Launches.

Section Launched.
Context `{Dyninst} `{Kernel} `{Procs} `{Host}.
Context (rounds fuel : nat).

#[local] Instance launcher_mpir : MPIR := dyninst_mpir rounds fuel.

(** C18 The table of a launch is that of the launcher.  With launchers under the control of Dyninst,
    a launch that the frontend daemon reports has left a launcher under its number, with the
    process number that is reported, which was started with the arguments and the environment of
    the request, was told that it is debugged before it ran, and is stopped at the breakpoint with
    the job spawned; and when its memory holds a table of processes, with texts shorter than the
    bound, the table that is reported is this one. *)
Theorem mpir_launch_reports_table (ld : LaunchData) (d d' : daemon) (result : MPIRResult) :
  Handlers.launchMPIR ld d = (Ok result, d') →
  ∃ path inst t b f, findPath (filepath ld) = Ok path ∧ d_mpirMap d' !! res_mpir_id result = Some inst ∧
    res_launcher_pid result = getPid inst ∧
    inf_trace inst = [IStart path (argvList ld) (launch_env ld (d_env d)).2
                        [(fd_num (stdin_fd ld), 0); (fd_num (stdout_fd ld), 1); (fd_num (stderr_fd ld), 2)];
                      IHandler; IBreak b; IWrite f (enc_le 4 1)] ++ t ∧
    only_runs t ∧ at_breakpoint inst ∧
    address_of inst "MPIR_Breakpoint" = Some b ∧ address_of inst "MPIR_being_debugged" = Some f ∧
    ∀ l, proctable_in inst l → texts_below fuel l → res_proctable result = l.
Proof.
  intros E. apply launchMPIR_Ok in E as (path & env & i & i' & Ep & -> & El & Er & Hpid & Ht & Hm).
  set (e := (launch_env ld (d_env d)).2) in *.
  set (fds := [(fd_num (stdin_fd ld), 0); (fd_num (stdout_fd ld), 1); (fd_num (stderr_fd ld), 2)]) in *.
  destruct (MPIRInstance_launch_run e path (argvList ld) fds) as (r & i0 & E0 & H0').
  cbn in El, Er. rewrite E0 in El. destruct r as [[]|w|w]; [|done..]. injection El as ->.
  destruct H0' as (Hs & _ & b & f & Hb & Hf & Etr).
  destruct (runToMPIRBreakpoint rounds fuel i) as [[[]|w|w] i1] eqn:E1; [|done..]. injection Er as ->.
  destruct (breakpoint_Ok _ _ _ _ Hs E1) as (t & G & Hruns & Hat).
  exists path, i', t, b, f. repeat split; try done.
  - destruct G as (_ & _ & _ & -> & _). by rewrite Etr.
  - apply Hat.
  - apply Hat.
  - apply Hat.
  - apply Hat.
  - by rewrite (grown_address _ _ _ _ G).
  - by rewrite (grown_address _ _ _ _ G).
  - intros l Hl Hf'. destruct (getProctable_reads i' l fuel) as (i2 & E2 & _); [by eapply grown_symbols_ok|done..|].
    cbn in Ht. rewrite E2 in Ht. by injection Ht as <-.
Qed.
End Launched.

(** ** A launcher *)

(** It is stopped by every second event, and at the second stop it has spawned two processes. *)
Definition demo_runs (t : list inf_event) : nat := length (filter (λ e, e = IContinue) t).
Definition demo_spawned (t : list inf_event) : bool := (3 <=? demo_runs t)%nat.

Definition demo_offsets : list (string * Z) :=
  [("MPIR_being_debugged", 16); ("MPIR_Breakpoint", 32); ("MPIR_debug_state", 48); ("MPIR_i_am_starter", 64);
   ("MPIR_proctable", 80); ("MPIR_proctable_size", 96)].

Definition demo_base : Z := 4194304.

Definition demo_text (s : string) : bytes := list_ascii_of_string s ++ ["000"%char].

Definition demo_segments (t : list inf_event) : list (Z * bytes) :=
  [(demo_base + 48, enc_le 4 (if demo_spawned t then 1 else 0));
   (demo_base + 80, enc_le 8 8192);
   (demo_base + 96, enc_le 4 (if demo_spawned t then 2 else 0));
   (8192, (enc_le 8 9000 ++ enc_le 8 9100 ++ enc_le 4 501 ++ replicate 4 "x"%char) ++
          (enc_le 8 9200 ++ enc_le 8 9100 ++ enc_le 4 502 ++ replicate 4 "y"%char));
   (9000, demo_text "nid1"); (9100, demo_text "/a.out"); (9200, demo_text "nid2")].

#[local] Instance demo_dyninst : Dyninst := {|
  dy_symtab file := if decide (file = "/usr/bin/tool") then Some (λ n, demo_lookup demo_offsets n) else None;
  dy_followfork := true;
  dy_process _ := true;
  dy_libraries _ := [None; Some (true, 77); Some (false, demo_base)];
  dy_pid _ := 400;
  dy_stopped t := Nat.even (demo_runs t);
  dy_terminated _ := false;
  dy_crashed _ := false;
  dy_exited _ := false;
  dy_exit_code _ := 0;
  dy_memory t a :=
    match List.find (λ seg : Z * bytes, (seg.1 <=? a) && (a <? seg.1 + Z.of_nat (length seg.2))) (demo_segments t) with
    | Some (start, l) => l !! Z.to_nat (a - start)
    | None => None
    end;
  dy_write_error _ _ _ := None
|}.

Definition demo_table : list MPIRProctableElem := [MkElem 501 "nid1" "/a.out"; MkElem 502 "nid2" "/a.out"].

Definition demo_start : inf_event := IStart "/usr/bin/tool" ["tool"] ∅ [(0, 0); (1, 1); (2, 2)].

(** The launcher that was told that it is debugged, and the one that has spawned its job. *)
Definition demo_prepared : Inferior := (MPIRInstance_launch ∅ "/usr/bin/tool" ["tool"] [(0, 0); (1, 1); (2, 2)] unstarted).2.

Lemma demo_prepared_ok : symbols_ok demo_prepared.
Proof.
  destruct (MPIRInstance_launch_run ∅ "/usr/bin/tool" ["tool"] [(0, 0); (1, 1); (2, 2)]) as (r & i & E & Hr).
  unfold demo_prepared. rewrite E. cbn.
  assert (r = Ok tt) as ->; [|apply Hr].
  transitivity ((MPIRInstance_launch ∅ "/usr/bin/tool" ["tool"] [(0, 0); (1, 1); (2, 2)] unstarted).1); [by rewrite E|].
  by vm_compute.
Qed.

(** It is stopped by every second event. *)
Lemma mpir_breakpoint_reached_witness :
  let i0 := demo_prepared in
  ∃ i', runToMPIRBreakpoint 5 3 i0 = (Ok tt, i') ∧ same (stop (λ _, 1%nat) i0 1 1) i'.
Proof.
  intros i0.
  assert (∀ k, (k ≤ 1)%nat → says (stop (λ _, 1%nat) i0 k 1) (Z.of_nat k) (2 * Z.of_nat k)) as Hsay.
  { intros [|[|k]] Hk; [| |lia]; (split; [reflexivity|]; split; [reflexivity|]; split;
      [exists (demo_base + 48)|exists (demo_base + 96)]; split; vm_compute; reflexivity). }
  apply (mpir_breakpoint_reached 1 5 3 i0 (λ _, 1%nat) Z.of_nat (λ k, 2 * Z.of_nat k) demo_prepared_ok).
  - reflexivity.
  - lia.
  - intros k Hk. lia.
  - intros [|[|k]] [|[|m]] Hk Hm; [..|lia|lia|lia]; try lia; split; vm_compute; reflexivity.
  - exact Hsay.
  - intros k Hk. right. lia.
  - reflexivity.
  - lia.
Defined.

(** The daemon that launches it. *)
#[local] Instance demo_control : MPIR := dyninst_mpir 5 20.

Definition demo_launch_data : LaunchData :=
  MkLaunchData (MkFd 0 DevNullR) (MkFd 1 DevNullW) (MkFd 2 DevNullW) "tool" ["tool"] [] [].

Definition demo_daemon : daemon := new_daemon [] ∅.

Definition demo_result : MPIRResult := MkMPIRResult 1 400 0 0 demo_table.

Definition demo_at_breakpoint : Inferior := (runToMPIRBreakpoint 5 20 demo_prepared).2.

Lemma demo_element (h x pid : Z) (host exe : string) (pad : bytes) (a : Z) :
  0 ≤ h < 2 ^ 64 → 0 ≤ x < 2 ^ 64 → in_signed 4 pid = true → length pad = 4%nat →
  memory_at demo_at_breakpoint a 24 = Some (enc_le 8 h ++ enc_le 8 x ++ enc_le 4 pid ++ pad) →
  text_at demo_at_breakpoint h host → text_at demo_at_breakpoint x exe →
  element_at demo_at_breakpoint a (MkElem pid host exe).
Proof. intros. exists h, x, pad. cbn [el_pid el_hostname el_executable]. tauto. Qed.

Lemma demo_table_there : proctable_in demo_at_breakpoint demo_table.
Proof.
  exists 8192. split; [lia|]. split; [exists (demo_base + 80); split; vm_compute; reflexivity|].
  split; [|split; [exists (demo_base + 96); split; vm_compute; reflexivity|cbn; lia]].
  intros [|[|k]] e; [intros [= <-]..|done].
  - apply (demo_element 9000 9100 501 _ _ (replicate 4 "x"%char)); [lia|lia|done|done|..];
      try (split; [reflexivity|]); vm_compute; reflexivity.
  - apply (demo_element 9200 9100 502 _ _ (replicate 4 "y"%char)); [lia|lia|done|done|..];
      try (split; [reflexivity|]); vm_compute; reflexivity.
Qed.

Lemma mpir_launch_reports_table_witness :
  ∃ d', Handlers.launchMPIR demo_launch_data demo_daemon = (Ok demo_result, d') ∧
    d_mpirMap d' !! 1 = Some demo_at_breakpoint ∧ at_breakpoint demo_at_breakpoint ∧
    proctable_in demo_at_breakpoint demo_table ∧ res_proctable demo_result = demo_table.
Proof.
  assert (Handlers.launchMPIR demo_launch_data demo_daemon =
          (Ok demo_result, (Handlers.launchMPIR demo_launch_data demo_daemon).2)) as E.
  { assert ((Handlers.launchMPIR demo_launch_data demo_daemon).1 = Ok demo_result) as <- by (vm_compute; reflexivity).
    by destruct (Handlers.launchMPIR demo_launch_data demo_daemon). }
  eexists. split; [exact E|].
  destruct (mpir_launch_reports_table 5 20 _ _ _ _ E) as (path & inst & t & b & f & _ & Hm & _ & _ & _ & Hat & _ & _ & Hl).
  assert (inst = demo_at_breakpoint) as ->.
  { apply (inj Some). rewrite <-Hm. vm_compute. reflexivity. }
  split; [exact Hm|]. split; [exact Hat|]. split; [exact demo_table_there|].
  apply Hl; [exact demo_table_there|]. repeat constructor; cbn; lia.
Defined.
