(* ===== verification/MpirShim.v ===== *)
(** * The MPIR shim (src/src/frontend/daemon/mpir_shim.cpp)

    The program that takes the place of the launcher in the path of a launch script.  When its
    last argument is the token of the frontend daemon, it starts the launcher under control, stops
    it, lets go of it, sends its process number to the daemon and waits for it; else it becomes the
    launcher.  Then what it does with the environment that the daemon has made. *)

From S2P Require Import Prelude Split Argv Host Wire Launch Daemon System Handlers Mpir.

Inductive shim_event : Type :=
| ShDup (from to : Z)
| ShClose (fd : Z)
| ShLauncher (e : inf_event)
| ShWrite (fd : Z) (data : bytes)
| ShWait (pid : Z).

(** How the shim ends: with a code, or as another program. *)
Inductive shim_end : Type :=
| Exits (code : Z)
| Becomes (path : string) (argv : list string) (env : gmap string string).

Class ShimSystem : Type := {
  (** the error of a write *)
  sh_write : list shim_event → Z → option string;
  (** whether a program can be executed *)
  sh_exec : string → bool
}.

Record shim : Type := MkShimState { sh_env : gmap string string; sh_trace : list shim_event }.

Definition sh_emit (e : shim_event) : M shim () := modify (λ s, MkShimState (sh_env s) (sh_trace s ++ [e])).

Definition on_env (f : gmap string string → gmap string string) : M shim () :=
  modify (λ s, MkShimState (f (sh_env s)) (sh_trace s)).

Record shim_args : Type := MkShimArgs {
  sa_inputFd : Z; sa_outputFd : Z; sa_launcherPath : string; sa_originalPath : string; sa_launcherArgv : list string;
  sa_hasShimToken : bool
}.

Definition SIGSTOP : Z := 19.

Section Shim.
Context `{Dyninst} `{ShimSystem}.

Definition variable (name : string) : M shim (option string) := gets (λ s, Handlers.getenv name (sh_env s)).

Definition fd_variable (name : string) : M shim Z :=
  raw ← variable name;
  match raw with Some v => lift (cti_stoi v name) | None => mret (-1) end.

Definition dup_variable (name : string) (to : Z) : M shim () :=
  raw ← variable name;
  match raw with
  | Some v => from ← lift (cti_stoi v name); sh_emit (ShDup from to)
  | None => mret tt
  end.

(** The arguments for the launcher are those of the shim without the token. *)
Definition parse_from_env (argv : list string) : M shim shim_args :=
  inputFd ← fd_variable "CTI_MPIR_SHIM_INPUT_FD";
  outputFd ← fd_variable "CTI_MPIR_SHIM_OUTPUT_FD";
  launcherPath ← variable "CTI_MPIR_LAUNCHER_PATH";
  originalPath ← variable "CTI_MPIR_ORIGINAL_PATH";
  shimToken ← variable "CTI_MPIR_SHIM_TOKEN";
  dup_variable "CTI_MPIR_STDIN_FD" 0;;
  dup_variable "CTI_MPIR_STDOUT_FD" 1;;
  dup_variable "CTI_MPIR_STDERR_FD" 2;;
  match last argv with
  | None => undef "argv[-1]"
  | Some arg =>
      let hasShimToken := bool_decide (arg = default "" shimToken) in
      let argv' := if hasShimToken then removelast argv else argv in
      mret (MkShimArgs inputFd outputFd (default "" launcherPath) (default "" originalPath)
              (default "" launcherPath :: tail argv') hasShimToken)
  end.

(** The process that was started is stopped and let go of. *)
Definition start_stopped (launcherPath : string) (launcherArgv : list string) (env : gmap string string)
    : M Inferior Z :=
  Inferior_launch env launcherPath launcherArgv [];;
  i ← get;
  let pid := getPid i in
  inf_emit (ISignal pid SIGSTOP);;
  Inferior_delete;;
  mret pid.

Definition start_launcher (launcherPath : string) (launcherArgv : list string) : M shim Z :=
  s ← get;
  let '(r, i) := start_stopped launcherPath launcherArgv (sh_env s) unstarted in
  modify (λ s, MkShimState (sh_env s) (sh_trace s ++ map ShLauncher (inf_trace i)));;
  lift r.

Definition restored_env (originalPath : string) (e : gmap string string) : gmap string string :=
  Handlers.setenv "PATH" originalPath
    (foldl (λ e name, Handlers.unsetenv name e) e
       ["CTI_MPIR_SHIM_INPUT_FD"; "CTI_MPIR_SHIM_OUTPUT_FD"; "CTI_MPIR_LAUNCHER_PATH"; "CTI_MPIR_ORIGINAL_PATH"]).

(** [env] is the environment the shim was started with.  An exception ends the shim. *)
Definition main (argv : list string) : M shim shim_end :=
  env ← gets sh_env;
  args ← parse_from_env argv;
  if is_empty (sa_launcherPath args) then mret (Exits 1)
  else if sa_hasShimToken args
  then
    sh_emit (ShClose (sa_inputFd args));;
    on_env (restored_env (sa_originalPath args));;
    pid ← start_launcher (sa_launcherPath args) (sa_launcherArgv args);
    s ← get;
    match sh_write (sh_trace s) (sa_outputFd args) with
    | Some what => throw what
    | None =>
        sh_emit (ShWrite (sa_outputFd args) (enc_le 4 pid));;
        sh_emit (ShClose (sa_outputFd args));;
        sh_emit (ShWait pid);;
        mret (Exits 0)
    end
  else
    if sh_exec (sa_launcherPath args)
    then mret (Becomes (sa_launcherPath args) (sa_launcherPath args :: tail argv) env)
    else mret (Exits 255).
End Shim.
