(* ===== verification/ShimProofs.v ===== *)
(** * The MPIR shim: what is shown

    The environment that the frontend daemon makes for a launch script gives the shim what it
    needs: it starts the real launcher with the arguments and the path of before, stopped, and
    the daemon is sent its process number. *)

From S2P Require Import Prelude Split Argv Host Wire Launch Daemon System Handlers DaemonExamples Mpir MpirProofs MpirShim.

(** ** The environment of the child *)

(** The value of a variable in a list of settings: the first counts. *)
Fixpoint first_value (name : string) (vars : list string) : option string :=
  match vars with
  | [] => None
  | var :: vars' =>
      match split_at "=" var with
      | Some (n, v) => if decide (n = name) then Some v else first_value name vars'
      | None => first_value name vars'
      end
  end.

Lemma first_value_app (name : string) (l l' : list string) :
  first_value name l = None → first_value name (l ++ l') = first_value name l'.
Proof.
  induction l as [|var l IH]; [done|]. cbn. destruct (split_at "=" var) as [[n v]|]; [|done].
  by case_decide.
Qed.

Lemma first_value_head (name v : string) (l : list string) :
  no_char "=" name = true → first_value name ((name +:+ "=" +:+ v) :: l) = Some v.
Proof.
  intros Hn. cbn [first_value]. change ("=" +:+ v) with (String "=" v). rewrite split_at_app by done. by rewrite decide_True.
Qed.

Lemma first_value_skip (name n v : string) (l : list string) :
  no_char "=" n = true → n ≠ name → first_value name ((n +:+ "=" +:+ v) :: l) = first_value name l.
Proof.
  intros Hn Hd. cbn [first_value]. change ("=" +:+ v) with (String "=" v). rewrite split_at_app by done. by rewrite decide_False.
Qed.

(** The pairs that settings are parsed into, by name. *)
Definition pair_value (name : string) (m : list (string * string)) : option string :=
  snd <$> List.find (λ nv, bool_decide (nv.1 = name)) m.

Lemma pair_value_cons (name n v : string) (m : list (string * string)) :
  pair_value name ((n, v) :: m) = if decide (n = name) then Some v else pair_value name m.
Proof.
  unfold pair_value. cbn. case_decide; [by rewrite bool_decide_true|by rewrite bool_decide_false].
Qed.

Lemma pair_value_filter (name n : string) (m : list (string * string)) :
  n ≠ name → pair_value name (List.filter (λ nv, negb (bool_decide (nv.1 = n))) m) = pair_value name m.
Proof.
  intros Hn. unfold pair_value. induction m as [|[n' v'] m IH]; [done|]. cbn.
  destruct (bool_decide (n' = n)) eqn:E; cbn.
  - apply bool_decide_eq_true in E as ->. by rewrite (bool_decide_false (n = name)).
  - destruct (bool_decide (n' = name)); [done|exact IH].
Qed.

Lemma NoDup_map_filter {A B : Type} (f : A → B) (p : A → bool) (l : list A) :
  NoDup (map f l) → NoDup (map f (List.filter p l)).
Proof.
  induction l as [|a l IH]; [done|]. change (map f (a :: l)) with (f a :: map f l). rewrite NoDup_cons.
  intros [Hn Hd]. cbn [List.filter]. destruct (p a); [|by apply IH].
  change (NoDup (f a :: map f (List.filter p l))). apply NoDup_cons. split; [|by apply IH].
  contradict Hn. rewrite list_elem_of_In, in_map_iff in Hn. rewrite list_elem_of_In, in_map_iff.
  destruct Hn as (x & E & [Hin _]%filter_In). by exists x.
Qed.

Lemma parse_env_value (vars : list string) (m : list (string * string)) (name : string) :
  parse_env vars = Ok m → pair_value name m = first_value name vars ∧ NoDup (map fst m).
Proof.
  revert m. induction vars as [|var vars IH]; intros m E; cbn in E.
  { injection E as <-. split; [done|constructor]. }
  destruct (split_at "=" var) as [[n v]|] eqn:Es; [|done].
  destruct (parse_env vars) as [rest|w|w]; [|done..]. injection E as <-.
  destruct (IH rest eq_refl) as [Hv Hd]. cbn [first_value]. rewrite Es. split.
  - rewrite pair_value_cons. case_decide as Hn; [done|]. by rewrite pair_value_filter.
  - change (NoDup (n :: map fst (List.filter (λ nv, negb (bool_decide (nv.1 = n))) rest))). apply NoDup_cons. split.
    + rewrite list_elem_of_In, in_map_iff. intros (nv & En & [_ Hf]%filter_In).
      by rewrite bool_decide_true in Hf.
    + by apply NoDup_map_filter.
Qed.

(** What the child finds, for a name that can be set and is not taken away. *)
Definition set_pair (e : gmap string string) (nv : string * string) : gmap string string :=
  if is_empty nv.2 then Handlers.unsetenv nv.1 e else Handlers.setenv nv.1 nv.2 e.

Lemma set_pair_lookup (e : gmap string string) (n v name : string) :
  nul_free n = true → valid_name name = true →
  set_pair e (n, v) !! name =
  if decide (n = name) then (if is_empty v then None else Some (c_str v)) else e !! name.
Proof.
  intros Hn Hv. unfold set_pair, Handlers.setenv, Handlers.unsetenv. cbn. rewrite (c_str_id n) by done.
  case_decide as Hd; [subst n; rewrite Hv; destruct (is_empty v); by simplify_map_eq|].
  destruct (is_empty v), (valid_name n); by simplify_map_eq.
Qed.

Lemma set_pairs_lookup (m : list (string * string)) (e : gmap string string) (name : string) :
  NoDup (map fst m) → Forall (λ nv, nul_free nv.1 = true) m → valid_name name = true →
  foldl set_pair e m !! name =
  match pair_value name m with
  | Some v => if is_empty v then None else Some (c_str v)
  | None => e !! name
  end.
Proof.
  revert e. induction m as [|[n v] m IH]; intros e Hd Hf Hv; [done|].
  cbn [foldl]. cbn in Hd. apply NoDup_cons in Hd as [Hn Hd]. apply Forall_cons in Hf as [Hf1 Hf].
  rewrite IH by done. rewrite pair_value_cons, set_pair_lookup by done.
  case_decide as Ed; [|done]. subst n.
  assert (pair_value name m = None) as ->; [|done].
  unfold pair_value. destruct (List.find _ m) as [[n v']|] eqn:E; [|done].
  apply find_some in E as [Hin Hb]. cbn in Hb. apply bool_decide_eq_true in Hb as ->.
  destruct Hn. apply list_elem_of_In, in_map_iff. by exists (name, v').
Qed.

Lemma unset_lookup (black : list string) (e : gmap string string) (name : string) :
  name ∉ map c_str black → foldl (λ e n, Handlers.unsetenv n e) e black !! name = e !! name.
Proof.
  revert e. induction black as [|n black IH]; intros e Hn; [done|]. cbn in Hn.
  apply not_elem_of_cons in Hn as [Hd Hn]. cbn. rewrite IH by done.
  unfold Handlers.unsetenv. case_match; [by rewrite lookup_delete_ne|done].
Qed.

Lemma parsed_names (vars : list string) (m : list (string * string)) :
  parse_env vars = Ok m → Forall (λ v, nul_free v = true) vars → Forall (λ nv, nul_free nv.1 = true) m.
Proof.
  revert m. induction vars as [|var vars IH]; intros m E Hf; cbn in E.
  { injection E as <-. constructor. }
  apply Forall_cons in Hf as [Hf1 Hf].
  destruct (split_at "=" var) as [[n v]|] eqn:Es; [|done].
  destruct (parse_env vars) as [rest|w|w]; [|done..]. injection E as <-. specialize (IH rest eq_refl Hf).
  apply split_at_Some in Es as [-> _]. rewrite nul_free_app in Hf1. apply andb_true_iff in Hf1 as [Hn _].
  constructor; [done|]. rewrite Forall_forall in *. intros nv Hin. apply IH.
  apply list_elem_of_In, filter_In in Hin as [Hin _]. by apply list_elem_of_In.
Qed.

Lemma child_env_lookup (vars black : list string) (m : list (string * string)) (e : gmap string string)
    (name v : string) :
  parse_env vars = Ok m → Forall (λ v, nul_free v = true) vars → valid_name name = true →
  name ∉ map c_str black → first_value name vars = Some v →
  child_env m black e !! name = if is_empty v then None else Some (c_str v).
Proof.
  intros Ep Hf Hv Hb Ev. destruct (parse_env_value _ _ name Ep) as [Epv Hd].
  unfold child_env. rewrite unset_lookup by done.
  change (foldl (λ e nv, if is_empty nv.2 then Handlers.unsetenv nv.1 e else Handlers.setenv nv.1 nv.2 e) e m)
    with (foldl set_pair e m).
  rewrite set_pairs_lookup by (done || by eapply parsed_names). by rewrite Epv, Ev.
Qed.

(** ** The shim *)

Definition shim_variables : list string :=
  ["CTI_MPIR_SHIM_INPUT_FD"; "CTI_MPIR_SHIM_OUTPUT_FD"; "CTI_MPIR_LAUNCHER_PATH"; "CTI_MPIR_ORIGINAL_PATH";
   "CTI_MPIR_STDIN_FD"; "CTI_MPIR_STDOUT_FD"; "CTI_MPIR_STDERR_FD"; "CTI_MPIR_SHIM_TOKEN"].

(** What a launch sets them to. *)
Definition shim_values (sd : ShimData) (ld : LaunchData) (originalPath token : string) (pipe : Z * Z) : list string :=
  [to_string pipe.1; to_string pipe.2; shimmedLauncherPath sd; originalPath; to_string (fd_num (stdin_fd ld));
   to_string (fd_num (stdout_fd ld)); to_string (fd_num (stderr_fd ld)); token].

(** A request that leaves these variables to the daemon. *)
Definition leaves_variables (ld : LaunchData) : Prop :=
  Forall (λ v, nul_free v = true) (envList ld) ∧
  Forall (λ n, first_value n (envList ld) = None ∧ n ∉ map c_str (envBlacklist ld)) shim_variables.

(** An environment with these values, where an empty value is no value. *)
Definition finds (e : gmap string string) (names values : list string) : Prop :=
  Forall2 (λ n v, e !! n = if is_empty v then None else Some v) names values.

Lemma shimmed_PATH_setting (launcherDir shimDir originalPath : string) :
  ∃ v, shimmed_PATH launcherDir shimDir originalPath = "PATH" +:+ "=" +:+ v.
Proof. unfold shimmed_PATH. case_match; by eexists. Qed.

Lemma shim_setting (sd : ShimData) (ld : LaunchData) (launcherPath shimDir originalPath token : string)
    (pipe : Z * Z) :
  Forall (λ n, first_value n (envList ld) = None ∧ n ∉ map c_str (envBlacklist ld)) shim_variables →
  Forall2 (λ n v, first_value n (envList (shim_launch sd ld launcherPath shimDir originalPath token pipe)) = Some v)
    shim_variables (shim_values sd ld originalPath token pipe).
Proof.
  intros Hn. cbn [envList shim_launch].
  destruct (shimmed_PATH_setting (parent_path launcherPath) shimDir originalPath) as [p ->].
  repeat (apply Forall_cons in Hn as [[? _] Hn]). unfold shim_variables, shim_values.
  repeat (constructor; [rewrite first_value_app by done; reflexivity|]). constructor.
Qed.

(** The child of the daemon finds them. *)
Lemma shim_environment (sd : ShimData) (ld : LaunchData) (launcherPath shimDir originalPath token : string)
    (pipe : Z * Z) (m : list (string * string)) (e : gmap string string) :
  let sl := shim_launch sd ld launcherPath shimDir originalPath token pipe in
  leaves_variables ld → nul_free originalPath = true → nul_free token = true →
  nul_free (shimmedLauncherPath sd) = true → Forall (λ v, nul_free v = true) (envList sl) →
  parse_env (envList sl) = Ok m →
  finds (child_env m (envBlacklist sl) e) shim_variables (shim_values sd ld originalPath token pipe).
Proof.
  intros sl [_ Hl] Ho Ht Hp Hs Em. pose proof (shim_setting sd ld launcherPath shimDir originalPath token pipe Hl) as Hv.
  fold sl in Hv. assert (Forall (λ v, nul_free v = true) (shim_values sd ld originalPath token pipe)) as Hc.
  { assert (∀ z, nul_free (to_string z) = true) as Hz by (intros z; by apply to_string_no_char).
    unfold shim_values. by repeat constructor. }
  unfold finds. rewrite Forall2_lookup in *. intros k. specialize (Hv k).
  destruct (shim_variables !! k) as [n|] eqn:En, (shim_values sd ld originalPath token pipe !! k) as [v|] eqn:Ev;
    inversion Hv as [? ? Hf|]; subst; constructor.
  rewrite Forall_lookup in Hc. rewrite Forall_lookup in Hl. destruct (Hl _ _ En) as [_ Hb].
  rewrite (child_env_lookup _ _ _ _ _ v Em Hs); [by rewrite c_str_id by eauto| |done|done].
  repeat (destruct k as [|k]; [by injection En as <-|]). done.
Qed.

Section Runs.
Context `{Dyninst} `{ShimSystem}.

(** The three descriptors that the launcher is to have. *)
Definition shim_dups (ld : LaunchData) : list shim_event :=
  [ShDup (fd_num (stdin_fd ld)) 0; ShDup (fd_num (stdout_fd ld)) 1; ShDup (fd_num (stderr_fd ld)) 2].

Definition fds_fit (ld : LaunchData) (pipe : Z * Z) : Prop :=
  Forall (λ z, in_int z = true)
    [pipe.1; pipe.2; fd_num (stdin_fd ld); fd_num (stdout_fd ld); fd_num (stderr_fd ld)].

Lemma variable_run (name : string) (s : shim) (v : option string) :
  nul_free name = true → sh_env s !! name = v → variable name s = (Ok v, s).
Proof. intros Hn <-. unfold variable, gets, Handlers.getenv. by rewrite c_str_id. Qed.

Lemma is_empty_to_string (z : Z) : is_empty (to_string z) = false.
Proof. apply not_true_iff_false. rewrite is_empty_spec. apply to_string_nonempty. Qed.

Lemma default_value (v : string) : default "" (if is_empty v then None else Some v) = v.
Proof. by destruct v. Qed.

Lemma fd_variable_run (name : string) (s : shim) (z : Z) :
  nul_free name = true → in_int z = true → sh_env s !! name = Some (to_string z) → fd_variable name s = (Ok z, s).
Proof.
  intros Hn Hz E. unfold fd_variable. rewrite (bind_run_Ok _ _ _ _ _ (variable_run _ _ _ Hn E)).
  by rewrite cti_stoi_to_string.
Qed.

Lemma dup_variable_run (name : string) (to : Z) (s : shim) (z : Z) :
  nul_free name = true → in_int z = true → sh_env s !! name = Some (to_string z) →
  dup_variable name to s = (Ok tt, MkShimState (sh_env s) (sh_trace s ++ [ShDup z to])).
Proof.
  intros Hn Hz E. unfold dup_variable. rewrite (bind_run_Ok _ _ _ _ _ (variable_run _ _ _ Hn E)).
  by rewrite cti_stoi_to_string.
Qed.

(** What is read of the environment and of the arguments. *)
Lemma parse_from_env_run (sd : ShimData) (ld : LaunchData) (originalPath token arg : string) (argv : list string)
    (pipe : Z * Z) (s : shim) :
  finds (sh_env s) shim_variables (shim_values sd ld originalPath token pipe) → fds_fit ld pipe →
  last argv = Some arg →
  parse_from_env argv s =
  (Ok (MkShimArgs pipe.1 pipe.2 (shimmedLauncherPath sd) originalPath
         (shimmedLauncherPath sd :: tail (if bool_decide (arg = token) then removelast argv else argv))
         (bool_decide (arg = token))),
   MkShimState (sh_env s) (sh_trace s ++ shim_dups ld)).
Proof.
  intros Hf Hz Hl. unfold finds, shim_variables, shim_values in Hf. unfold fds_fit in Hz.
  repeat match goal with Hx : Forall2 _ (_ :: _) (_ :: _) |- _ =>
    let E := fresh "E" in apply Forall2_cons in Hx as [E Hx]; rewrite ?is_empty_to_string in E end.
  repeat match goal with Hx : Forall _ (_ :: _) |- _ => apply Forall_cons in Hx as [? Hx] end.
  unfold parse_from_env.
  rewrite (bind_run_Ok _ _ _ _ _ (fd_variable_run "CTI_MPIR_SHIM_INPUT_FD" s pipe.1 eq_refl ltac:(done) ltac:(done))).
  rewrite (bind_run_Ok _ _ _ _ _ (fd_variable_run "CTI_MPIR_SHIM_OUTPUT_FD" s pipe.2 eq_refl ltac:(done) ltac:(done))).
  do 3 (match goal with |- (variable ?n ≫= _) _ = _ =>
    rewrite (bind_run_Ok _ _ _ _ _ (variable_run n s _ eq_refl eq_refl)) end).
  rewrite (bind_run_Ok _ _ _ _ _ (dup_variable_run "CTI_MPIR_STDIN_FD" 0 s (fd_num (stdin_fd ld)) eq_refl ltac:(done) ltac:(done))).
  set (s1 := MkShimState _ _).
  rewrite (bind_run_Ok _ _ _ _ _ (dup_variable_run "CTI_MPIR_STDOUT_FD" 1 s1 (fd_num (stdout_fd ld)) eq_refl ltac:(done) ltac:(done))).
  set (s2 := MkShimState _ _).
  rewrite (bind_run_Ok _ _ _ _ _ (dup_variable_run "CTI_MPIR_STDERR_FD" 2 s2 (fd_num (stderr_fd ld)) eq_refl ltac:(done) ltac:(done))).
  rewrite Hl. repeat match goal with Hx : sh_env s !! _ = _ |- _ => rewrite Hx; clear Hx end.
  rewrite !default_value. unfold mret, M_ret, s2, s1. cbn. by rewrite <-!(assoc_L (++)).
Qed.

(** ** Starting the launcher *)

Lemma start_stopped_run (launcherPath : string) (launcherArgv : list string) (env : gmap string string) (i : Inferior) :
  Inferior_launch env launcherPath launcherArgv [] unstarted = (Ok tt, i) →
  let t := [IStart launcherPath launcherArgv env []; IHandler] in
  let pid := dy_pid t in
  ∃ i', start_stopped launcherPath launcherArgv env unstarted = (Ok pid, i') ∧
    inf_trace i' = t ++ [ISignal pid SIGSTOP] ++ letting_go (t ++ [ISignal pid SIGSTOP]).
Proof.
  intros E t pid. unfold start_stopped. rewrite (bind_run_Ok _ _ _ _ _ E).
  unfold Inferior_launch in E. rewrite start_process_run in E.
  destruct (dy_symtab launcherPath) as [symbols|]; [|done]. destruct (dy_process _); [|done].
  destruct dy_followfork; [|done]. injection E as <-.
  rewrite (bind_run_Ok get _ _ _ _ eq_refl).
  match goal with |- context [(inf_emit ?e ≫= _) ?i] => set (k := i) end.
  assert (inf_emit (ISignal (getPid k) SIGSTOP) k =
          (Ok tt, MkInferior symbols ∅ true (m_module_base k) (t ++ [ISignal pid SIGSTOP]))) as E1 by done.
  rewrite (bind_run_Ok _ _ _ _ _ E1).
  match goal with |- context [(Inferior_delete ≫= _) ?i] =>
    rewrite (bind_run_Ok _ _ _ _ _ (Inferior_delete_run i eq_refl)) end.
  eexists. split; [done|]. cbn [inf_trace]. by rewrite <-(assoc_L (++)).
Qed.

(** The path of before, and none of the variables for the shim. *)
Lemma restored_PATH (originalPath : string) (e : gmap string string) :
  nul_free originalPath = true → restored_env originalPath e !! "PATH" = Some originalPath.
Proof.
  intros Hp. unfold restored_env, Handlers.setenv.
  change (c_str "PATH") with "PATH". change (valid_name "PATH") with true. rewrite c_str_id by done.
  by rewrite lookup_insert_eq.
Qed.

Lemma restored_unset (originalPath : string) (e : gmap string string) (name : string) :
  name ∈ take 4 shim_variables → restored_env originalPath e !! name = None.
Proof.
  intros Hn. unfold restored_env, Handlers.setenv. change (c_str "PATH") with "PATH".
  change (valid_name "PATH") with true. cbn [take shim_variables] in Hn. cbv iota.
  rewrite lookup_insert_ne by set_solver. cbn [foldl]. unfold Handlers.unsetenv.
  repeat match goal with |- context [valid_name ?x] => change (valid_name x) with true end. cbn iota.
  repeat match goal with |- context [c_str ?x] => change (c_str x) with x end.
  set_unfold. destruct_or! Hn; subst; by rewrite ?lookup_delete_ne, ?lookup_delete_eq by done.
Qed.
(** What the shim does when it was given the token. *)
Definition shim_trace (ld : LaunchData) (pipe : Z * Z) (path : string) (args : list string) (env : gmap string string)
    : list shim_event :=
  let t := [IStart path (path :: args) env []; IHandler] in
  let pid := dy_pid t in
  let stopped := t ++ [ISignal pid SIGSTOP] in
  shim_dups ld ++ [ShClose pipe.1] ++ map ShLauncher (stopped ++ letting_go stopped) ++
  [ShWrite pipe.2 (enc_le 4 pid); ShClose pipe.2; ShWait pid].

Section Main.
Context (sd : ShimData) (ld : LaunchData) (originalPath token : string) (pipe : Z * Z) (e : gmap string string).
Context (Hfind : finds e shim_variables (shim_values sd ld originalPath token pipe)) (Hz : fds_fit ld pipe).
Context (Hp : is_empty (shimmedLauncherPath sd) = false).

Lemma main_with_token (name : string) (args : list string) :
  let path := shimmedLauncherPath sd in
  let env := restored_env originalPath e in
  (Inferior_launch env path (path :: args) [] unstarted).1 = Ok tt → (∀ t fd, sh_write t fd = None) →
  main (name :: args ++ [token]) (MkShimState e []) =
    (Ok (Exits 0), MkShimState env (shim_trace ld pipe path args env)).
Proof.
  intros path env Hi Hw. unfold main.
  rewrite (bind_run_Ok (gets sh_env) _ (MkShimState e []) e (MkShimState e []) eq_refl).
  rewrite (bind_run_Ok _ _ _ _ _ (parse_from_env_run _ _ _ _ _ _ _ (MkShimState e []) Hfind Hz
    (last_snoc token (name :: args)))).
  cbn [sa_launcherPath sa_hasShimToken sa_inputFd sa_outputFd sa_originalPath sa_launcherArgv].
  fold path. rewrite (Hp : is_empty path = false), bool_decide_true by done.
  change (name :: args ++ [token]) with ((name :: args) ++ [token]). rewrite removelast_last. cbn [tail].
  destruct (Inferior_launch env path (path :: args) [] unstarted) as [r i] eqn:Ei. cbn in Hi. subst r.
  destruct (start_stopped_run _ _ _ _ Ei) as (i' & E1 & Etr).
  assert (∀ t, start_launcher path (path :: args) (MkShimState env t) =
    (Ok (dy_pid [IStart path (path :: args) env []; IHandler]), MkShimState env (t ++ map ShLauncher (inf_trace i')))) as Es.
  { intros t. unfold start_launcher. rewrite (bind_run_Ok get _ _ _ _ eq_refl). cbn [sh_env]. by rewrite E1. }
  match goal with |- (sh_emit ?ev ≫= _) ?s = _ => rewrite (bind_run_Ok (sh_emit ev) _ s tt _ eq_refl) end.
  match goal with |- (on_env ?f ≫= _) ?s = _ => rewrite (bind_run_Ok (on_env f) _ s tt _ eq_refl) end.
  cbn [sh_env sh_trace]. fold env. rewrite (bind_run_Ok _ _ _ _ _ (Es _)), (bind_run_Ok get _ _ _ _ eq_refl), Hw.
  unfold sh_emit, modify, mret, M_ret, mbind, M_bind. cbn [sh_env sh_trace]. rewrite Etr.
  unfold shim_trace. f_equal. f_equal. rewrite !app_nil_l. by rewrite <-!(assoc_L (++)).
Qed.

Lemma main_without_token (name : string) (args : list string) :
  let path := shimmedLauncherPath sd in
  sh_exec path = true → last (name :: args) ≠ Some token →
  main (name :: args) (MkShimState e []) = (Ok (Becomes path (path :: args) e), MkShimState e (shim_dups ld)).
Proof.
  intros path Hx Hlast. destruct (last (name :: args)) as [arg|] eqn:Ela; [|by apply last_None in Ela].
  unfold main. rewrite (bind_run_Ok (gets sh_env) _ (MkShimState e []) e (MkShimState e []) eq_refl).
  rewrite (bind_run_Ok _ _ _ _ _ (parse_from_env_run _ _ _ _ _ _ _ (MkShimState e []) Hfind Hz Ela)).
  cbn [sa_launcherPath sa_hasShimToken]. fold path. rewrite (Hp : is_empty path = false), bool_decide_false by congruence.
  by rewrite Hx.
Qed.
End Main.

(** C21 The shim gives the daemon a stopped launcher.  When a launch under the shim leaves the
    variables of the shim to the daemon, then wherever the script runs the shim with these
    variables as the daemon has set them: with the token as last argument, the real launcher is
    started with the other arguments, with the path from before the launch and without the
    variables that led to the shim, is stopped before it is let go of, and only then the daemon is
    sent its process number; with another last argument the shim becomes the launcher, with all
    arguments.  A launcher that cannot be started, and a write that fails, are not considered. *)
Theorem shim_starts_launcher (sd : ShimData) (ld : LaunchData) (launcherPath shimDir originalPath token : string)
    (pipe : Z * Z) (m : list (string * string)) (e e' : gmap string string) (name : string) (args : list string) :
  let sl := shim_launch sd ld launcherPath shimDir originalPath token pipe in
  let path := shimmedLauncherPath sd in
  let env := restored_env originalPath e' in
  leaves_variables ld → Forall (λ v, nul_free v = true) (originalPath :: token :: path :: envList sl) →
  path ≠ "" → fds_fit ld pipe → parse_env (envList sl) = Ok m →
  (∀ n, n ∈ shim_variables → e' !! n = child_env m (envBlacklist sl) e !! n) →
  (Inferior_launch env path (path :: args) [] unstarted).1 = Ok tt → (∀ t fd, sh_write t fd = None) →
  sh_exec path = true →
  main (name :: args ++ [token]) (MkShimState e' []) =
    (Ok (Exits 0), MkShimState env (shim_trace ld pipe path args env)) ∧
  env !! "PATH" = Some originalPath ∧ (∀ n, n ∈ take 4 shim_variables → env !! n = None) ∧
  (last (name :: args) ≠ Some token →
    main (name :: args) (MkShimState e' []) = (Ok (Becomes path (path :: args) e'), MkShimState e' (shim_dups ld))).
Proof.
  intros sl path env Hl Hf Hp Hz Em He' Hi Hw Hx.
  apply Forall_cons in Hf as [Ho Hf]. apply Forall_cons in Hf as [Ht Hf]. apply Forall_cons in Hf as [Hpath Hf].
  pose proof (shim_environment sd ld launcherPath shimDir originalPath token pipe m e Hl Ho Ht Hpath Hf Em) as Hfind.
  assert (finds e' shim_variables (shim_values sd ld originalPath token pipe)) as Hfind'.
  { unfold finds in *. rewrite Forall2_lookup in *. intros k. specialize (Hfind k).
    inversion Hfind as [n v Hn E1 E2|]; constructor. rewrite He'; [done|]. by eapply list_elem_of_lookup_2. }
  assert (is_empty path = false) as Hne by (apply not_true_iff_false; by rewrite is_empty_spec).
  split; [by apply (main_with_token sd ld originalPath token pipe)|].
  split; [by apply restored_PATH|]. split; [by apply restored_unset|].
  intros Hlast. by apply (main_without_token sd ld originalPath token pipe).
Qed.
End Runs.

(** ** A launch under the shim *)

#[local] Existing Instance demo_dyninst.

#[local] Instance demo_shim_system : ShimSystem := {| sh_write _ _ := None; sh_exec _ := true |}.

Definition demo_shim : ShimData := MkShim "/opt/cti/libexec/shim" "/tmp/shim-" "/usr/bin/tool".

Definition demo_script : LaunchData :=
  MkLaunchData (MkFd 0 DevNullR) (MkFd 1 DevNullW) (MkFd 2 DevNullW) "/scripts/tool" ["tool"; "-n"; "2"] ["A=b"] ["C"].

Definition demo_shimmed : LaunchData :=
  shim_launch demo_shim demo_script "/scripts/tool" "/tmp/shim-uuid" "/scripts:/usr/bin" "uuid" (8, 9).

Definition demo_pairs : list (string * string) :=
  match parse_env (envList demo_shimmed) with Ok m => m | _ => [] end.

(** The environment of the script, in which the shim comes after the directory of the script. *)
Definition demo_child : gmap string string := child_env demo_pairs (envBlacklist demo_shimmed) {["C" := "d"]}.

Example shim_after_script : demo_child !! "PATH" = Some "/scripts:/tmp/shim-uuid:/usr/bin".
Proof. vm_compute. reflexivity. Qed.

Lemma shim_starts_launcher_witness :
  let env := restored_env "/scripts:/usr/bin" demo_child in
  main ["tool"; "-n"; "2"; "uuid"] (MkShimState demo_child []) =
    (Ok (Exits 0), MkShimState env (shim_trace demo_script (8, 9) "/usr/bin/tool" ["-n"; "2"] env)) ∧
  env !! "PATH" = Some "/scripts:/usr/bin" ∧ (∀ n, n ∈ take 4 shim_variables → env !! n = None) ∧
  (last ["tool"; "-n"; "2"] ≠ Some "uuid" →
    main ["tool"; "-n"; "2"] (MkShimState demo_child []) =
      (Ok (Becomes "/usr/bin/tool" ["/usr/bin/tool"; "-n"; "2"] demo_child),
       MkShimState demo_child (shim_dups demo_script))).
Proof.
  apply (shim_starts_launcher demo_shim demo_script "/scripts/tool" "/tmp/shim-uuid" "/scripts:/usr/bin" "uuid" (8, 9)
           demo_pairs {["C" := "d"]} demo_child "tool" ["-n"; "2"]).
  - split; [by repeat constructor|]. repeat (constructor; [split; [by vm_compute|set_solver]|]). constructor.
  - by repeat constructor.
  - done.
  - by repeat constructor.
  - by vm_compute.
  - done.
  - by vm_compute.
  - done.
  - done.
Defined.
