(* ===== verification/LdVal.v ===== *)
(** * The libraries of a program (src/src/useful/ld_val/ld_val.c)

    [_cti_ld_val] has the dynamic linker load a program with an audit library, which writes the
    path of every object and a byte 0 to a pipe, and reads the paths from there through a buffer
    of fixed size.  The linker itself and what lies in directories of the blacklist are left out.
    The wrapper in cti_path.c and the manifest know it as [os_ld_val]. *)

From S2P Require Import Prelude Wire System.

Inductive ld_event : Type :=
| LFork (argv : list string) (audit : option string)
| LWait (pid : Z)
| LRead (size : nat)
| LKill (pid : Z)
| LClose.

Class Linkers : Type := {
  ld_fork : list ld_event → Z;
  (** how a child ends; waiting that is interrupted goes on *)
  ld_wait : list ld_event → Z → wait_result;
  ld_pipe : list ld_event → bool;
  (** the bytes that are there, none at the end, or a failure *)
  ld_read : list ld_event → nat → option bytes;
  (** CTI_BLACKLIST_DIRS *)
  ld_blacklist : option string
}.

Definition READ_BUF_LEN : nat := 1024.

Definition MANIFEST_BLACKLIST : string := "/lib:/lib64:/usr/lib:/usr/lib64".

Definition _cti_linkers : list string :=
  ["/lib64/ld-linux-x86-64.so.2"; "/lib/ld-linux.so.2"; "/lib64/ld-lsb-x86-64.so.2"; "/lib64/ld-lsb-x86-64.so.3";
   "/lib/ld-linux-aarch64.so.1"; "/lib64/ld-2.11.3.so"; "/lib/ld-lsb.so.2"; "/lib/ld-lsb.so.3"].

(** [strtok]: the texts between delimiters that are not empty. *)
Fixpoint strtok (d : ascii) (word s : string) : list string :=
  match s with
  | "" => if is_empty word then [] else [word]
  | String c s' =>
      if decide (c = d) then (if is_empty word then strtok d "" s' else word :: strtok d "" s')
      else strtok d (word +:+ String c "") s'
  end.

Definition NUL : ascii := "000"%char.

(** [memchr(start, 0, rem)] in the buffer. *)
Fixpoint first_nul (l : bytes) : option nat :=
  match l with
  | [] => None
  | c :: l' => if decide (c = NUL) then Some O else S <$> first_nul l'
  end.

Definition memchr (buf : bytes) (start rem : nat) : option nat :=
  (λ k, (start + k)%nat) <$> first_nul (take rem (drop start buf)).

Section LdVal.
Context `{Linkers}.

Definition ld_emit (e : ld_event) : M (list ld_event) () := modify (λ t, t ++ [e]).

(** A directory of the list counts as soon as the path begins with its text. *)
Definition is_blacklisted (dynamic_library : string) : bool :=
  existsb (λ dir, starts_with dir dynamic_library) (strtok ":" "" (default MANIFEST_BLACKLIST ld_blacklist)).

(** The status of the last child is kept when waiting fails. *)
Fixpoint verify_with (linkers : list string) (status : wait_result) (executable : string)
    : M (list ld_event) (option string) :=
  match linkers with
  | [] => mret None
  | linker :: linkers' =>
      t ← get;
      let pid := ld_fork t in
      if pid <? 0 then mret None
      else
        ld_emit (LFork [linker; "--verify"; executable] None);;
        ld_emit (LWait pid);;
        t ← get;
        let status' := match ld_wait t pid with WNoChild | WFailed _ => status | w => w end in
        match status' with
        | WExited code =>
            if (code =? 0) || (code =? 2) then mret (Some linker) else verify_with linkers' status' executable
        | _ => verify_with linkers' status' executable
        end
  end.

Definition ld_verify (executable : string) : M (list ld_event) (option string) :=
  verify_with _cti_linkers (WExited 0) executable.

Definition ld_load (linker executable lib : string) : M (list ld_event) Z :=
  t ← get;
  if ld_pipe t
  then
    let pid := ld_fork t in
    if pid <? 0 then mret pid
    else
      ld_emit (LFork [linker; "--list"; executable] (Some lib));;
      mret pid
  else mret (-1).

(** ** The buffer *)

(** A path is kept unless it is that of the linker, which is looked for until it was found. *)
Definition save_str (linker libstr : string) (found : bool) (saved : list string) : bool * list string :=
  if negb found && starts_with linker libstr then (true, saved)
  else (found, if is_blacklisted libstr then saved else saved ++ [libstr]).

(** The walk over what was read: the position and the number of bytes that are left. *)
Fixpoint walk (fuel : nat) (linker : string) (buf : bytes) (num_read start end_ rem : nat) (found : bool)
    (saved : list string) : option (nat * nat * bool * list string) :=
  match fuel with
  | O => None
  | S fuel' =>
      if (S end_ <? num_read)%nat
      then
        match memchr buf start rem with
        | None => Some (start, rem, found, saved)
        | Some e =>
            let libstr := string_of_list_ascii (take (e - start) (drop start buf)) in
            let '(found', saved') := save_str linker libstr found saved in
            walk fuel' linker buf num_read (S e) (S e) (rem - (S e - start)) found' saved'
        end
      else Some (start, rem, found, saved)
  end.

(** [memmove] and [memset] of what is left. *)
Definition keep_rest (buf : bytes) (num_read start rem : nat) : bytes :=
  let moved := take rem (drop start buf) ++ drop rem buf in
  if (rem <? num_read)%nat then take rem moved ++ replicate (num_read - rem) NUL ++ drop num_read moved else moved.

(** A number of bytes read at a position. *)
Definition put (buf chunk : bytes) (pos : nat) : bytes := take pos buf ++ chunk ++ drop (pos + length chunk) buf.

Definition end_child (pid : Z) : M (list ld_event) () := ld_emit (LKill pid);; ld_emit (LWait pid).

Fixpoint read_libs (fuel : nat) (linker : string) (pid : Z) (buf : bytes) (pos : nat) (found : bool)
    (saved : list string) : M (list ld_event) (option (list string)) :=
  match fuel with
  | O => undef "the pipe is never at its end"
  | S fuel' =>
      ld_emit (LRead (READ_BUF_LEN - pos));;
      t ← get;
      match ld_read t (READ_BUF_LEN - pos) with
      | None => end_child pid;; mret None
      | Some answer =>
          let chunk := take (READ_BUF_LEN - pos) answer in
          let num_read := length chunk in
          if (num_read =? 0)%nat
          then ld_emit LClose;; end_child pid;; mret (Some saved)
          else
            let buf := put buf chunk pos in
            match walk (S num_read) linker buf num_read 0 1 num_read found saved with
            | None => undef "the walk takes more rounds than there are bytes"
            | Some (start, rem, found', saved') =>
                if (rem =? 0)%nat then read_libs fuel' linker pid buf 0 found' saved'
                else read_libs fuel' linker pid (keep_rest buf num_read start rem) rem found' saved'
            end
      end
  end.

(** [buf] is the buffer as the last call has left it.  Without a linker that takes the program
    nothing is listed. *)
Definition ld_val (fuel : nat) (buf : bytes) (executable ld_audit_path : string)
    : M (list ld_event) (option (list string)) :=
  linker ← ld_verify executable;
  match linker with
  | None => mret None
  | Some linker =>
      pid ← ld_load linker executable ld_audit_path;
      if pid <=? 0 then mret None else read_libs fuel linker pid buf 0 false []
  end.
End LdVal.

(** ** What is listed *)

Definition flat (names : list string) : bytes := concat (map (λ s, list_ascii_of_string s ++ [NUL]) names).

Definition path_text (s : string) : Prop := s ≠ "" ∧ nul_free s = true.

(** The entries of a list with colons between them. *)
Inductive listed (dir : string) : string → Prop :=
| listed_only : no_char ":" dir = true → listed dir dir
| listed_first rest : no_char ":" dir = true → listed dir (dir +:+ String ":" rest)
| listed_later first rest : no_char ":" first = true → listed dir rest → listed dir (first +:+ String ":" rest).

Lemma listed_no_colon (dir w : string) : no_char ":" w = true → listed dir w ↔ dir = w.
Proof.
  intros Hw. split; [|intros ->; by constructor]. inversion 1 as [| rest Hd E|first rest Hd He E]; [done|..]; subst;
    apply split_at_None in Hw; by rewrite split_at_app in Hw.
Qed.

Lemma listed_colon (dir w s : string) : no_char ":" w = true → listed dir (w +:+ String ":" s) ↔ dir = w ∨ listed dir s.
Proof.
  intros Hw. pose proof (split_at_app ":" w s Hw) as Hs. split.
  - remember (w +:+ String ":" s) as t eqn:Et. intros Ht. revert Hs Et. destruct Ht as [Hd|rest Hd|first rest Hd He]; intros Hs Et.
    + exfalso. apply split_at_None in Hd. by rewrite Hd in Hs.
    + rewrite split_at_app in Hs by done. injection Hs as -> _. by left.
    + rewrite split_at_app in Hs by done. injection Hs as _ ->. by right.
  - intros [->|He]; by constructor.
Qed.

Lemma no_char_snoc (c x : ascii) (w : string) : x ≠ c → no_char c w = true → no_char c (w +:+ String x "") = true.
Proof.
  unfold no_char. intros Hx. induction w as [|y w IH]; cbn; [by rewrite bool_decide_true|].
  intros [Hy Hw]%andb_true_iff. by rewrite Hy, IH.
Qed.

Lemma strtok_listed (w s dir : string) :
  no_char ":" w = true → dir ∈ strtok ":" w s ↔ dir ≠ "" ∧ listed dir (w +:+ s).
Proof.
  revert w. induction s as [|c s IH]; intros w Hw; cbn [strtok].
  - rewrite string_app_nil_r, listed_no_colon by done. destruct w; cbn [is_empty].
    + rewrite elem_of_nil. naive_solver.
    + rewrite list_elem_of_singleton. naive_solver.
  - destruct (decide (c = ":"%char)) as [->|Hc].
    + rewrite listed_colon by done. destruct w; cbn [is_empty].
      * rewrite (IH "" eq_refl). cbn. naive_solver.
      * rewrite elem_of_cons, (IH "" eq_refl). cbn. naive_solver.
    + rewrite IH by by apply no_char_snoc. by rewrite string_app_assoc.
Qed.

(** The first path that begins with that of the linker is not one of the libraries. *)
Fixpoint without_linker (linker : string) (names : list string) : list string :=
  match names with
  | [] => []
  | s :: names' => if starts_with linker s then names' else s :: without_linker linker names'
  end.

Lemma first_nul_None (l : bytes) : Forall (λ c, c ≠ NUL) l → first_nul l = None.
Proof. induction 1 as [|c l Hc _ IH]; [done|]. cbn. by rewrite decide_False, IH by done. Qed.

Lemma first_nul_app (l l' : bytes) : Forall (λ c, c ≠ NUL) l → first_nul (l ++ NUL :: l') = Some (length l).
Proof. induction 1 as [|c l Hc _ IH]; [done|]. cbn. by rewrite decide_False, IH by done. Qed.

Lemma nul_free_chars (s : string) : nul_free s = true → Forall (λ c, c ≠ NUL) (list_ascii_of_string s).
Proof.
  unfold nul_free, no_char. induction s as [|c s IH]; cbn; [by constructor|].
  intros [Hc Hs]%andb_true_iff. constructor; [|by apply IH]. intros ->. done.
Qed.

Lemma string_of_chars (s : string) : string_of_list_ascii (list_ascii_of_string s) = s.
Proof. apply string_of_list_ascii_of_string. Qed.

Lemma length_flat_cons (s : string) (names : list string) :
  length (flat (s :: names)) = (S (String.length s) + length (flat names))%nat.
Proof. unfold flat. cbn. rewrite !length_app, length_list_ascii. cbn. lia. Qed.

Section Listed.
Context `{Linkers}.

Definition save_all (linker : string) (names : list string) (fs : bool * list string) : bool * list string :=
  foldl (λ fs s, save_str linker s fs.1 fs.2) fs names.

Lemma save_all_cons (linker s : string) (names : list string) (fs : bool * list string) :
  save_all linker (s :: names) fs = save_all linker names (save_str linker s fs.1 fs.2).
Proof. done. Qed.

(** What is kept of all paths together. *)
Definition shippable (names : list string) : list string := List.filter (λ s, negb (is_blacklisted s)) names.

Lemma kept_app (s : string) (names saved : list string) :
  (if is_blacklisted s then saved else saved ++ [s]) ++ shippable names = saved ++ shippable (s :: names).
Proof. unfold shippable. cbn [List.filter]. destruct (is_blacklisted s); [done|]. by rewrite <-(assoc_L (++)). Qed.

Lemma save_all_found (linker : string) (names saved : list string) :
  save_all linker names (true, saved) = (true, saved ++ shippable names).
Proof.
  revert saved. induction names as [|s names IH]; intros saved; [by rewrite app_nil_r|].
  rewrite save_all_cons. cbn [fst snd save_str negb andb]. by rewrite IH, kept_app.
Qed.

Lemma save_all_listed (linker : string) (names saved : list string) :
  (save_all linker names (false, saved)).2 = saved ++ shippable (without_linker linker names).
Proof.
  revert saved. induction names as [|s names IH]; intros saved; [by rewrite app_nil_r|].
  rewrite save_all_cons. cbn [without_linker fst snd]. unfold save_str. cbn [negb andb].
  destruct (starts_with linker s); [by rewrite save_all_found|]. by rewrite IH, kept_app.
Qed.

(** ** The walk *)

Lemma walk_names (linker : string) (names : list string) (pre partial tail : bytes) (fuel end_ : nat)
    (fs : bool * list string) :
  Forall path_text names → Forall (λ c, c ≠ NUL) partial → (length names < fuel)%nat →
  (names ≠ [] → S end_ < length pre + length (flat names) + length partial)%nat → (length pre ≤ end_)%nat →
  walk fuel linker (pre ++ flat names ++ partial ++ tail) (length pre + length (flat names) + length partial)
    (length pre) end_ (length (flat names) + length partial) fs.1 fs.2 =
  Some ((length pre + length (flat names))%nat, length partial, (save_all linker names fs).1, (save_all linker names fs).2).
Proof.
  revert pre fuel end_ fs. induction names as [|s names IH]; intros pre fuel end_ fs Hn Hp Hf He Hs;
    (destruct fuel as [|fuel]; [cbn in Hf; lia|]); cbn [walk].
  - cbn [flat map concat app length save_all foldl]. rewrite Nat.add_0_r, Nat.add_0_l.
    assert (memchr (pre ++ partial ++ tail) (length pre) (length partial) = None) as ->.
    { unfold memchr. rewrite drop_app_length, take_app_length. by rewrite first_nul_None. }
    by case_match.
  - apply Forall_cons in Hn as [[Hs1 Hs2] Hn]. rewrite (proj2 (Nat.ltb_lt _ _)) by (by apply He).
    assert (flat (s :: names) = list_ascii_of_string s ++ NUL :: flat names) as Ef.
    { unfold flat. cbn. by rewrite <-(assoc_L (++)). }
    assert (memchr (pre ++ flat (s :: names) ++ partial ++ tail) (length pre) (length (flat (s :: names)) + length partial)
            = Some (length pre + String.length s)%nat) as ->.
    { unfold memchr. rewrite drop_app_length, Ef, <-(assoc_L (++)). cbn [app].
      rewrite take_app_ge by (rewrite length_app, length_list_ascii; cbn; lia).
      rewrite length_app, length_list_ascii. cbn [length].
      match goal with |- context [take ?k (NUL :: _)] => destruct k as [|k0] eqn:Ek; [lia|] end. cbn [take].
      rewrite first_nul_app by (by apply nul_free_chars). cbn. by rewrite length_list_ascii. }
    replace (length pre + String.length s - length pre)%nat with (String.length s) by lia.
    rewrite drop_app_length. rewrite Ef at 1. rewrite <-(assoc_L (++)).
    rewrite take_app_length' by (by rewrite length_list_ascii). rewrite string_of_chars.
    destruct (save_str linker s fs.1 fs.2) as [f1 s1] eqn:Es.
    specialize (IH (pre ++ list_ascii_of_string s ++ [NUL]) fuel (S (length pre + String.length s)) (f1, s1) Hn Hp
                  ltac:(cbn in Hf; lia)).
    assert (length (pre ++ list_ascii_of_string s ++ [NUL]) = S (length pre + String.length s)) as El.
    { rewrite !length_app, length_list_ascii. cbn. lia. }
    rewrite El in IH. cbn [fst snd] in IH.
    rewrite <-!(assoc_L (++)) in IH. cbn [app] in IH. rewrite Ef, <-!(assoc_L (++)). cbn [app].
    replace (length pre + length (list_ascii_of_string s ++ NUL :: flat names) + length partial)%nat
      with (S (length pre + String.length s) + length (flat names) + length partial)%nat
      by (rewrite length_app, length_list_ascii; cbn; lia).
    replace (length (list_ascii_of_string s ++ NUL :: flat names) + length partial - (S (length pre + String.length s) - length pre))%nat
      with (length (flat names) + length partial)%nat by (rewrite length_app, length_list_ascii; cbn; lia).
    rewrite IH; [|intros Hne; destruct names as [|s2 names]; [done|]; apply Forall_cons in Hn as [[Hs3 _] _];
      rewrite length_flat_cons; destruct s2; [done|]; cbn; lia|lia].
    rewrite length_app, length_list_ascii. cbn [length].
    assert (save_all linker (s :: names) fs = save_all linker names (f1, s1)) as ->.
    { unfold save_all. cbn [foldl]. by rewrite Es. }
    do 4 f_equal. lia.
Qed.
(** ** Reading *)

(** Everything that is read until the pipe is at its end, a number of times: [p] is what is left in
    the buffer.  Of a chunk that is read behind it only as many bytes are looked at, from the start
    of the buffer, as were read. *)
Inductive reads_as : nat → list ld_event → bytes → list string → list ld_event → Prop :=
| reads_end t p :
    ld_read (t ++ [LRead (READ_BUF_LEN - length p)]) (READ_BUF_LEN - length p) = Some [] →
    reads_as 1 t p [] (t ++ [LRead (READ_BUF_LEN - length p)])
| reads_more k t p chunk names p' rest t' :
    ld_read (t ++ [LRead (READ_BUF_LEN - length p)]) (READ_BUF_LEN - length p) = Some chunk →
    (3 ≤ length chunk ≤ READ_BUF_LEN - length p)%nat → Forall path_text names → Forall (λ c, c ≠ NUL) p' →
    take (length chunk) (p ++ chunk) = flat names ++ p' →
    reads_as k (t ++ [LRead (READ_BUF_LEN - length p)]) p' rest t' →
    reads_as (S k) t p (names ++ rest) t'.

Lemma put_prefix (p chunk rest : bytes) :
  (length chunk ≤ length rest)%nat →
  put (p ++ rest) chunk (length p) = (p ++ chunk) ++ drop (length chunk) rest.
Proof.
  intros Hl. unfold put. rewrite take_app_length, <-(assoc_L (++)). do 2 f_equal.
  rewrite drop_app_ge by lia. f_equal. lia.
Qed.

Lemma keep_rest_prefix (a p' tail : bytes) (num_read : nat) :
  num_read = (length a + length p')%nat → p' ≠ [] →
  ∃ rest, keep_rest (a ++ p' ++ tail) num_read (length a) (length p') = p' ++ rest ∧
    length (p' ++ rest) = length (a ++ p' ++ tail).
Proof.
  intros Hn Hp. unfold keep_rest.
  rewrite drop_app_length, take_app_length.
  set (b := drop (length p') (a ++ p' ++ tail)).
  assert (length (p' ++ b) = length (a ++ p' ++ tail)) as El.
  { unfold b. rewrite length_app, length_drop, !length_app. lia. }
  case_match eqn:E; [|by exists b].
  rewrite take_app_length. eexists. split; [done|].
  rewrite !length_app, length_replicate, length_drop, El. rewrite !length_app. apply Nat.ltb_lt in E. lia.
Qed.

Lemma save_all_app (linker : string) (l l' : list string) (fs : bool * list string) :
  save_all linker (l ++ l') fs = save_all linker l' (save_all linker l fs).
Proof. unfold save_all. by rewrite foldl_app. Qed.

Lemma length_flat (names : list string) : Forall path_text names → (2 * length names ≤ length (flat names))%nat.
Proof.
  induction 1 as [|s names [Hs _] _ IH]; [done|]. rewrite length_flat_cons. cbn. destruct s; [done|]. cbn. lia.
Qed.

(** The loop keeps what is seen, and ends when the pipe does. *)
Lemma read_libs_run (k fuel : nat) (linker : string) (pid : Z) (t t' : list ld_event) (p rest : bytes)
    (names : list string) (fs : bool * list string) :
  reads_as k t p names t' → (k ≤ fuel)%nat → length (p ++ rest) = READ_BUF_LEN →
  read_libs fuel linker pid (p ++ rest) (length p) fs.1 fs.2 t =
  (Ok (Some (save_all linker names fs).2), t' ++ [LClose; LKill pid; LWait pid]).
Proof.
  intros Hr. revert fuel rest fs. induction Hr as [t p Hend|k t p chunk names p' more t' Hread Hlen Hn Hp Hseen Hr IH];
    intros fuel rest fs Hf Hb; (destruct fuel as [|fuel]; [lia|]); cbn [read_libs].
  - unfold ld_emit, end_child, ld_emit, modify, get, mbind, M_bind. rewrite Hend, take_nil. cbn [length Nat.eqb save_all foldl]. by rewrite <-!(assoc_L (++)).
  - match goal with |- (ld_emit ?e ≫= _) _ = _ => rewrite (bind_run_Ok (ld_emit e) _ t tt _ eq_refl) end.
    rewrite (bind_run_Ok get _ _ _ _ eq_refl), Hread, take_ge by lia.
    rewrite (proj2 (Nat.eqb_neq _ _)) by lia. rewrite length_app in Hb.
    rewrite put_prefix by lia. rewrite <-(take_drop (length chunk) (p ++ chunk)), Hseen.
    set (tail := drop (length chunk) (p ++ chunk) ++ drop (length chunk) rest).
    assert (length chunk = length (flat names) + length p')%nat as Ec.
    { rewrite <-length_app, <-Hseen, length_take, length_app. lia. }
    assert (((flat names ++ p') ++ drop (length chunk) (p ++ chunk)) ++ drop (length chunk) rest =
            [] ++ flat names ++ p' ++ tail) as ->.
    { unfold tail. by rewrite <-!(assoc_L (++)). }
    pose proof (length_flat _ Hn) as Hfl.
    pose proof (walk_names linker names [] p' tail (S (length chunk)) 1 fs Hn Hp ltac:(lia)
                  ltac:(cbn [length]; lia) ltac:(cbn [length]; lia)) as Ew.
    cbn [length Nat.add] in Ew. rewrite <-Ec in Ew. rewrite Ew, save_all_app. clear Ew.
    assert (length (flat names ++ p' ++ tail) = READ_BUF_LEN) as El.
    { unfold tail. rewrite !length_app, !length_drop, !length_app. lia. }
    case_match eqn:E0.
    + apply Nat.eqb_eq, nil_length_inv in E0 as ->. cbn [app] in El |- *.
      apply (IH fuel (flat names ++ tail) (save_all linker names fs)); [lia|done].
    + destruct (keep_rest_prefix (flat names) p' tail (length chunk)) as (rest' & Ek & Elk);
        [lia|by intros ->|].
      cbn [app]. rewrite Ek. apply IH; [lia|]. by rewrite Elk.
Qed.
(** A program that a linker takes and is loading. *)
Definition loading (executable audit linker : string) (pid : Z) (t t2 : list ld_event) : Prop :=
  ∃ t1, ld_verify executable t = (Ok (Some linker), t1) ∧ ld_load linker executable audit t1 = (Ok pid, t2) ∧ 0 < pid.

Lemma ld_val_run (k fuel : nat) (buf : bytes) (executable audit linker : string) (pid : Z)
    (t t2 t3 : list ld_event) (names : list string) :
  loading executable audit linker pid t t2 → length buf = READ_BUF_LEN → reads_as k t2 [] names t3 → (k ≤ fuel)%nat →
  ld_val fuel buf executable audit t =
  (Ok (Some (shippable (without_linker linker names))), t3 ++ [LClose; LKill pid; LWait pid]).
Proof.
  intros (t1 & E1 & E2 & Hpid) Hb Hr Hf. unfold ld_val. rewrite (bind_run_Ok _ _ _ _ _ E1), (bind_run_Ok _ _ _ _ _ E2).
  rewrite (proj2 (Z.leb_gt _ _)) by lia.
  rewrite (read_libs_run _ _ _ _ _ _ [] buf names (false, []) Hr Hf Hb). by rewrite save_all_listed.
Qed.

(** The path begins with the text of an entry of the list that is configured, or else of the usual
    one. *)
Definition on_blacklist (path : string) : Prop :=
  ∃ dir rest, dir ≠ "" ∧ listed dir (default "/lib:/lib64:/usr/lib:/usr/lib64" ld_blacklist) ∧ path = dir +:+ rest.

Lemma is_blacklisted_spec (path : string) : is_blacklisted path = true ↔ on_blacklist path.
Proof.
  unfold is_blacklisted, on_blacklist. rewrite existsb_exists. split.
  - intros (dir & Hin & Hp). apply list_elem_of_In, (strtok_listed "" _ dir eq_refl) in Hin as [Hne He].
    apply starts_with_spec in Hp as [rest ->]. by exists dir, rest.
  - intros (dir & rest & Hne & He & ->). exists dir. rewrite starts_with_app. split; [|done].
    by apply list_elem_of_In, (strtok_listed "" _ dir eq_refl).
Qed.

(** The reads of a program that gives whole paths, after some of them. *)
Definition whole_chunks (t : list ld_event) (chunks : list (list string)) : Prop :=
  Forall (λ names, Forall path_text names ∧ (3 ≤ length (flat names) ≤ READ_BUF_LEN)%nat) chunks ∧
  ∀ j, ld_read (t ++ replicate (S j) (LRead READ_BUF_LEN)) READ_BUF_LEN = Some (flat (default [] (chunks !! j))).

Lemma whole_chunks_read (t : list ld_event) (chunks : list (list string)) :
  whole_chunks t chunks →
  reads_as (S (length chunks)) t [] (concat chunks) (t ++ replicate (S (length chunks)) (LRead READ_BUF_LEN)).
Proof.
  revert t. induction chunks as [|names chunks IH]; intros t [Hc Hr].
  - apply reads_end. exact (Hr 0%nat).
  - apply Forall_cons in Hc as [[Hn Hl] Hc].
    replace (t ++ replicate (S (length (names :: chunks))) (LRead READ_BUF_LEN))
      with ((t ++ [LRead READ_BUF_LEN]) ++ replicate (S (length chunks)) (LRead READ_BUF_LEN))
      by (by rewrite <-(assoc_L (++))).
    apply (reads_more _ _ _ (flat names) names []).
    + exact (Hr 0%nat).
    + cbn [length]. lia.
    + done.
    + constructor.
    + rewrite app_nil_r. by apply take_ge.
    + apply IH. split; [done|]. intros j. specialize (Hr (S j)). rewrite <-(assoc_L (++)). exact Hr.
Qed.

(** C36 The libraries of a program.  When a linker takes the program and the paths that it gives are
    read in pieces of at least three bytes that end with a path, the answer is the list of all paths
    but the first that begins with that of the linker, in order, without exactly those that begin
    with the text of an entry of the blacklist (whether or not the text ends where a name does),
    and the child is ended. *)
Theorem ld_val_lists (fuel : nat) (buf : bytes) (executable audit linker : string) (pid : Z)
    (t t2 : list ld_event) (chunks : list (list string)) :
  loading executable audit linker pid t t2 → length buf = READ_BUF_LEN → whole_chunks t2 chunks →
  (length chunks < fuel)%nat →
  ∃ kept : string → bool, (∀ path, kept path = true ↔ ¬ on_blacklist path) ∧
  ld_val fuel buf executable audit t =
  (Ok (Some (List.filter kept (without_linker linker (concat chunks)))),
   t2 ++ replicate (S (length chunks)) (LRead READ_BUF_LEN) ++ [LClose; LKill pid; LWait pid]).
Proof.
  intros Hl Hb Hc Hf. exists (λ s, negb (is_blacklisted s)). split.
  { intros path. rewrite <-is_blacklisted_spec. by destruct (is_blacklisted path). }
  rewrite (ld_val_run _ _ _ _ _ _ _ _ _ _ _ Hl Hb (whole_chunks_read _ _ Hc)) by lia.
  by rewrite <-(assoc_L (++)).
Qed.

(** A path that is cut costs the end of the list.  When a piece ends within a path and the next one
    has the rest of it, more paths, and then as many bytes as were left of the first piece, these
    last bytes are never looked at: the answer is the same whatever they are. *)
Theorem ld_val_loses_bytes (fuel : nat) (buf : bytes) (executable audit linker : string) (pid : Z)
    (t t2 : list ld_event) (names names' : list string) (path : string) (a b lost : bytes) :
  loading executable audit linker pid t t2 → length buf = READ_BUF_LEN → (3 ≤ fuel)%nat →
  Forall path_text (path :: names ++ names') → list_ascii_of_string path = a ++ b → length lost = length a →
  let chunk := flat names ++ a in
  let chunk' := b ++ [NUL] ++ flat names' ++ lost in
  let t3 := t2 ++ [LRead READ_BUF_LEN] in
  let t4 := t3 ++ [LRead (READ_BUF_LEN - length a)] in
  (3 ≤ length chunk ≤ READ_BUF_LEN)%nat → (3 ≤ length chunk' ≤ READ_BUF_LEN - length a)%nat →
  ld_read t3 READ_BUF_LEN = Some chunk → ld_read t4 (READ_BUF_LEN - length a) = Some chunk' →
  ld_read (t4 ++ [LRead READ_BUF_LEN]) READ_BUF_LEN = Some [] →
  ld_val fuel buf executable audit t =
  (Ok (Some (shippable (without_linker linker (names ++ path :: names')))),
   t4 ++ [LRead READ_BUF_LEN; LClose; LKill pid; LWait pid]).
Proof.
  intros Hl Hb Hf Hn Hp Hlost chunk chunk' t3 t4 Hc Hc' R3 R4 R5.
  apply Forall_cons in Hn as [Hpath Hn]. apply Forall_app in Hn as [Hn Hn'].
  assert (Forall (λ c, c ≠ NUL) a) as Ha.
  { pose proof (nul_free_chars path (proj2 Hpath)) as Hx. rewrite Hp in Hx. by apply Forall_app in Hx as [Hx _]. }
  assert (take (length chunk') (a ++ chunk') = flat (path :: names') ++ []) as Eseen.
  { unfold chunk'. rewrite app_nil_r. unfold flat. cbn [map concat]. rewrite Hp.
    rewrite !(assoc_L (++)), <-(assoc_L (++) _ _ lost). apply take_app_length'.
    rewrite !length_app. lia. }
  rewrite (ld_val_run 3 fuel buf executable audit linker pid t t2 (t4 ++ [LRead READ_BUF_LEN])
             (names ++ (path :: names') ++ [])); [by rewrite app_nil_r, <-(assoc_L (++))|done|done| |done].
  apply (reads_more _ _ _ chunk names a); [exact R3|cbn [length]; lia|done|done| |].
  { by apply take_ge. }
  cbn [length]. rewrite Nat.sub_0_r. fold t3.
  apply (reads_more _ _ _ chunk' (path :: names') []); [exact R4|lia|by constructor|constructor|exact Eseen|].
  fold t4. exact (reads_end t4 [] R5).
Qed.
End Listed.

(** ** Programs whose paths are whole, and cut *)

Definition is_read (e : ld_event) : bool := match e with LRead _ => true | _ => false end.

Definition scripted_linkers (script : list bytes) : Linkers := {|
  ld_fork _ := 700;
  ld_wait _ _ := WExited 0;
  ld_pipe _ := true;
  ld_read t _ := Some (default [] (script !! pred (length (List.filter is_read t))));
  ld_blacklist := None
|}.

Definition demo_linker : string := "/lib64/ld-linux-x86-64.so.2".

Definition demo_loading : list ld_event :=
  [LFork [demo_linker; "--verify"; "/bin/tool"] None; LWait 700; LFork [demo_linker; "--list"; "/bin/tool"] (Some "/audit.so")].

Definition demo_chunks : list (list string) := [[demo_linker; "/opt/a.so"]; ["/usr/lib/b.so"; "/opt/c.so"]].

Definition demo_buffer : bytes := replicate READ_BUF_LEN "x"%char.

Lemma reads_counted (t : list ld_event) (j n : nat) :
  List.filter is_read t = [] → length (List.filter is_read (t ++ replicate j (LRead n))) = j.
Proof.
  intros Ht. rewrite List.filter_app, Ht. cbn. induction j as [|j IH]; [done|]. cbn. by rewrite IH.
Qed.

Lemma ld_val_lists_witness :
  ld_val (H := scripted_linkers (map flat demo_chunks)) 5 demo_buffer "/bin/tool" "/audit.so" [] =
  (Ok (Some ["/opt/a.so"; "/opt/c.so"]),
   demo_loading ++ replicate 3 (LRead READ_BUF_LEN) ++ [LClose; LKill 700; LWait 700]).
Proof.
  destruct (ld_val_lists (H := scripted_linkers (map flat demo_chunks)) 5 demo_buffer "/bin/tool" "/audit.so" demo_linker 700
              [] demo_loading demo_chunks) as (kept & Hk & E).
  - exists (take 2 demo_loading). split; [vm_compute; reflexivity|]. split; vm_compute; reflexivity.
  - reflexivity.
  - split.
    + repeat (constructor; [split; [by repeat constructor|vm_compute; lia]|]). constructor.
    + intros j. unfold scripted_linkers. cbn [ld_read]. rewrite reads_counted by done. cbn [pred].
      rewrite list_lookup_fmap. by destruct (demo_chunks !! j).
  - cbn. lia.
  - rewrite E. do 3 f_equal.
    change (without_linker demo_linker (concat demo_chunks)) with ["/opt/a.so"; "/usr/lib/b.so"; "/opt/c.so"]. cbn [List.filter].
    assert (kept "/opt/a.so" = true ∧ kept "/opt/c.so" = true ∧ kept "/usr/lib/b.so" = false) as (-> & -> & Hb).
    { split_and!; [apply Hk|apply Hk|destruct (kept "/usr/lib/b.so") eqn:Eb; [|reflexivity]; apply Hk in Eb; exfalso; apply Eb];
        rewrite <-is_blacklisted_spec; vm_compute; done. }
    by rewrite Hb.
Defined.

(** The last of three paths is lost: the first piece ends after three of its bytes. *)
Definition demo_cut : list bytes :=
  [flat ["/opt/a.so"] ++ list_ascii_of_string "/op"; list_ascii_of_string "t/b.so" ++ [NUL] ++ flat [] ++ flat ["/c"]].

Lemma ld_val_loses_bytes_witness :
  ld_val (H := scripted_linkers demo_cut) 5 demo_buffer "/bin/tool" "/audit.so" [] =
  (Ok (Some ["/opt/a.so"; "/opt/b.so"]),
   (demo_loading ++ [LRead READ_BUF_LEN]) ++ [LRead (READ_BUF_LEN - 3)] ++
   [LRead READ_BUF_LEN; LClose; LKill 700; LWait 700]).
Proof.
  rewrite (assoc_L (++)).
  apply (ld_val_loses_bytes (H := scripted_linkers demo_cut) 5 demo_buffer "/bin/tool" "/audit.so" demo_linker 700
           [] demo_loading ["/opt/a.so"] [] "/opt/b.so" (list_ascii_of_string "/op") (list_ascii_of_string "t/b.so")
           (flat ["/c"])); try reflexivity.
  - exists (take 2 demo_loading). split; [vm_compute; reflexivity|]. split; vm_compute; reflexivity.
  - lia.
  - by repeat constructor.
  - vm_compute. lia.
  - vm_compute. lia.
Defined.
