(* ===== verification/HostNames.v ===== *)
(** * The address of this node (src/src/useful/cti_hostname.hpp)

    The address under which compute nodes reach the frontend: that of the first high speed network
    that the cluster manager names and that answers, else that of another network, else that of the
    host name.  Whether an address answers is tried with two threads, a listener and a connector,
    whose steps, with those of others who connect, are a relation of their own. *)

From stdpp Require Import relations.
From S2P Require Import Prelude Split System.

Class Network : Type := {
  nw_gethostname : res string;
  (** getaddrinfo: the reason of a failure, or the address of the first result, if there is one *)
  nw_addrinfo : string → string + option string;
  (** why getnameinfo fails for an address, other than for want of room *)
  nw_nameinfo_error : string → option string;
  (** the answer of the probe *)
  nw_reachable : list sys_event → string → bool
}.

(** The process: the system, and the address that the function has kept. *)
Record names_state : Type := MkNames { ns_sys : sys; ns_address : option string }.

Definition on_names {A : Type} (m : M sys A) : M names_state A := zoom ns_sys (λ s n, MkNames s (ns_address n)) m.

(** The room for the text of an address, its end included. *)
Definition MAXADDRLEN : nat := 15.

Section Names.
Context `{Commands} `{Network}.

Definition make_addrinfo (hostname : string) : res string :=
  match nw_addrinfo hostname with
  | inl why => Throw ("getaddrinfo failed: " +:+ why)
  | inr None => Throw ("failed to resolve hostname " +:+ hostname)
  | inr (Some info) => Ok info
  end.

Definition resolve_hostname (address : string) : res string :=
  match nw_nameinfo_error address with
  | Some why => Throw ("getnameinfo failed: " +:+ why)
  | None => if (String.length address <? MAXADDRLEN)%nat then Ok address else Throw "getnameinfo failed: Argument buffer overflow"
  end.

(** The first result is kept. *)
Definition detectFrontendHostname : M names_state string :=
  n ← get;
  match ns_address n with
  | Some address => mret address
  | None =>
      hostname ← lift nw_gethostname;
      info ← lift (make_addrinfo hostname);
      let address := match resolve_hostname info with Ok a => a | _ => hostname end in
      modify (λ n, MkNames (ns_sys n) (Some address));;
      mret address
  end.

(** The first line of an answer. *)
Definition cminfo_query (option_name : string) : M sys string :=
  catch_all (lines ← Execvp ["cminfo"; option_name]; mret (default "" (head lines))) "".

(** High speed networks, and others. *)
Fixpoint network_names (fuel : nat) (networkNames : string) : option (list string * list string) :=
  if is_empty networkNames then Some ([], [])
  else
    match fuel with
    | O => None
    | S fuel' =>
        let '(networkName, rest) := split2 networkNames "," in
        '(hsn, others) ← network_names fuel' rest;
        Some (if starts_with "hsn" networkName then (networkName :: hsn, others) else (hsn, networkName :: others))
    end.

(** [is_network_reachable]: the address, or nothing. *)
Definition network_address (networkName : string) : M sys string :=
  address ← cminfo_query ("--" +:+ networkName +:+ "_ip");
  if is_empty address then mret ""
  else
    sys_emit (SCall "is_local_address_reachable" [address]);;
    s ← get;
    mret (if nw_reachable (sys_trace s) address then address else "").

Fixpoint first_address (networks : list string) : M sys string :=
  match networks with
  | [] => mret ""
  | networkName :: networks' =>
      address ← network_address networkName;
      if is_empty address then first_address networks' else mret address
  end.

Definition detectHpcmAddress : M names_state string :=
  names ← on_names (cminfo_query "--data_net_names");
  match network_names (String.length names) names with
  | None => undef "the names of networks have no end"
  | Some (hsn, others) =>
      address ← on_names (first_address hsn);
      if negb (is_empty address) then mret address
      else
        address ← on_names (first_address others);
        if negb (is_empty address) then mret address else detectFrontendHostname
  end.
End Names.

(** ** The probe

    [is_local_address_reachable] binds a socket to a port, starts a thread that connects to the
    address at that port and sends a byte ([try_connect]), and only then listens; it waits for half
    a second for a connection, accepts it, receives the byte and asks the thread for its result.
    Here is what comes after the port is known.  Any call of either thread may fail or run out of
    its time; whether listening has failed is not looked at.  The socket is bound to every address
    of the host, so others may connect to its port too, and an address that leads elsewhere may
    have a listener there. *)
Module Probe.

Inductive listener : Type :=
| LListen | LSelect | LAccept | LRecv | LGet
(** the result is false, but the end of the future waits for the thread *)
| LWaitThread
| LDone (reachable : bool).

Inductive connector : Type :=
| CConnect | CSend | CDone (connected : bool).

(** Whose connection was accepted. *)
Inductive origin : Type := Own | Stranger.

(** Where both threads are; whether the socket listens; whether the thread, and whether anybody
    else, has connected to it; the connection that was accepted; and whether the byte of the thread
    was sent to it. *)
Record probe : Type := MkProbe {
  pr_listener : listener; pr_connector : connector; pr_listening : bool; pr_connected : bool; pr_foreign : bool;
  pr_accepted : option origin; pr_sent : bool
}.

Definition start : probe := MkProbe LListen CConnect false false false None false.

(** The calls of the listener that may fail or run out of time, and end it. *)
Definition may_fail (m : listener) : bool :=
  match m with LSelect | LAccept | LRecv => true | _ => false end.

Section Steps.
(** whether the address leads to this host *)
Context (routes : bool).

Inductive step : probe → probe → Prop :=
| step_listen c k f a s : step (MkProbe LListen c false k f a s) (MkProbe LSelect c true k f a s)
| step_unlistened c k f a s : step (MkProbe LListen c false k f a s) (MkProbe LSelect c false k f a s)
(** a connection, or a socket that does not listen *)
| step_ready c l k f a s :
    l = false ∨ k = true ∨ f = true → step (MkProbe LSelect c l k f a s) (MkProbe LAccept c l k f a s)
| step_accept o c k f a s :
    match o with Own => k | Stranger => f end = true →
    step (MkProbe LAccept c true k f a s) (MkProbe LRecv c true k f (Some o) s)
(** the byte, or the end of the connection *)
| step_recv c l k f a s :
    a = Some Stranger ∨ s = true ∨ c = CDone false → step (MkProbe LRecv c l k f a s) (MkProbe LGet c l k f a s)
| step_failed m c l k f a s : may_fail m = true → step (MkProbe m c l k f a s) (MkProbe LWaitThread c l k f a s)
| step_get b l k f a s : step (MkProbe LGet (CDone b) l k f a s) (MkProbe (LDone b) (CDone b) l k f a s)
| step_thread b l k f a s : step (MkProbe LWaitThread (CDone b) l k f a s) (MkProbe (LDone false) (CDone b) l k f a s)
| step_connect m f a s : routes = true → step (MkProbe m CConnect true false f a s) (MkProbe m CSend true true f a s)
| step_elsewhere m l k f a s : routes = false → step (MkProbe m CConnect l k f a s) (MkProbe m CSend l k f a s)
| step_refused m l k f a s : step (MkProbe m CConnect l k f a s) (MkProbe m (CDone false) l k f a s)
| step_send m l k f a s : step (MkProbe m CSend l k f a s) (MkProbe m (CDone true) l k f a k)
| step_unsent m l k f a s : step (MkProbe m CSend l k f a s) (MkProbe m (CDone false) l k f a s)
(** the first connection of somebody else *)
| step_stranger m c k a s : step (MkProbe m c true k false a s) (MkProbe m c true k true a s).
End Steps.

Definition finished (p : probe) : Prop := ∃ b, pr_listener p = LDone b.
End Probe.
