(* ===== verification/NamesProofs.v ===== *)
(** * The address of this node: what is shown

    Which network is chosen, and that the probe of an address ends, is right when it says that the
    address answers unless somebody else has connected to its port, and may be wrong when it says
    that it does not. *)

From stdpp Require Import relations.
From S2P Require Import Prelude Split System HostNames.

(** ** The names of networks *)

(** The loop over the names ends. *)
Lemma network_names_ends (fuel : nat) (names : string) :
  (String.length names ≤ fuel)%nat → is_Some (network_names fuel names).
Proof.
  revert names. induction fuel as [|fuel IH]; intros names Hl; cbn.
  - destruct names; [by eexists|cbn in Hl; lia].
  - destruct (is_empty names) eqn:En; [by eexists|].
    assert (names ≠ "") as Hne by (intros ->; done). pose proof (split2_shorter _ "," Hne) as Hs.
    destruct (split2 names ",") as [name rest]. cbn in Hs.
    destruct (IH rest) as [[hsn others] ->]; [lia|]. by eexists.
Qed.

Definition network_name (s : string) : Prop :=
  s ≠ "" ∧ no_char "," s = true ∧ string_forall (λ c, negb (is_space c)) s = true.

Definition is_hsn (s : string) : bool := starts_with "hsn" s.

Lemma join_no_space (names : list string) :
  Forall network_name names → string_forall (λ c, negb (is_space c)) (join "," names) = true.
Proof.
  induction 1 as [|s names (_ & _ & Hs) Hn IH]; [done|]. destruct names as [|s' names]; [done|].
  rewrite join_cons, string_forall_app, Hs. exact IH.
Qed.

Lemma join_kept (names : list string) : Forall network_name names → names ≠ [] → second_field_kept "," (join "," names) = true.
Proof.
  intros Hn Hne. unfold second_field_kept. destruct names as [|s [|s' names]]; [done| |].
  - apply Forall_cons in Hn as [(_ & Hc & _) _]. cbn [join]. by rewrite (proj2 (split_at_None _ _) Hc).
  - apply Forall_cons in Hn as [(_ & Hc & _) Hn]. rewrite join_cons, split_at_app by done.
    rewrite (join_no_space _ Hn), andb_true_r. apply Forall_cons in Hn as [(Hs & _ & _) _].
    apply negb_true_iff, not_true_iff_false. rewrite is_empty_spec.
    destruct names as [|s'' names]; [done|]. rewrite join_cons. by destruct s'.
Qed.

Lemma network_names_join (fuel : nat) (names : list string) :
  Forall network_name names → (length names ≤ fuel)%nat →
  network_names fuel (join "," names) = Some (List.filter is_hsn names, List.filter (λ s, negb (is_hsn s)) names).
Proof.
  revert names. induction fuel as [|fuel IH]; intros names Hn Hl.
  { by destruct names; [|cbn in Hl; lia]. }
  destruct names as [|s names]; [done|]. apply Forall_cons in Hn as [(Hs & Hc & Hb) Hn].
  assert (split2 (join "," (s :: names)) "," = (s, join "," names)) as E.
  { destruct names as [|s' names].
    - cbn [join]. unfold split2, split_string. cbn. rewrite (proj2 (split_at_None _ _) Hc). by destruct s.
    - rewrite join_cons. apply split2_kept; [done|]. by apply join_kept. }
  assert (is_empty (join "," (s :: names)) = false) as Ee.
  { destruct names; [|rewrite join_cons]; by destruct s. }
  cbn [length] in Hl. cbn [network_names]. rewrite Ee, E, (IH names Hn ltac:(lia)).
  unfold mbind, option_bind. cbn [List.filter]. change (is_hsn s) with (starts_with "hsn" s). by destruct (starts_with "hsn" s).
Qed.

(** ** The network that is chosen *)

Section Chosen.
Context `{Commands} `{Network}.

(** Answers that do not change while the networks are asked for: what cminfo prints for an option,
    and which addresses answer. *)
Context (printed : string → option string) (answers : string → bool).
Context (Hprinted : ∀ t name, c_output t ["cminfo"; name] = printed name).
Context (Hanswers : ∀ t address, nw_reachable t address = answers address).

Definition first_line (name : string) : string :=
  match printed name with Some out => default "" (head (text_lines (fd_text out))) | None => "" end.

Lemma cminfo_query_run (name : string) (s : sys) : ∃ s', cminfo_query name s = (Ok (first_line name), s').
Proof.
  unfold cminfo_query, catch_all, try_catch, Execvp, first_line, get, mbind, M_bind. rewrite Hprinted.
  destruct (printed name); by eexists.
Qed.

Definition address_of (networkName : string) : string := first_line ("--" +:+ networkName +:+ "_ip").

Definition answering (address : string) : bool := negb (is_empty address) && answers address.

Lemma network_address_run (networkName : string) (s : sys) :
  ∃ s', network_address networkName s =
    (Ok (if answering (address_of networkName) then address_of networkName else ""), s').
Proof.
  unfold network_address. destruct (cminfo_query_run ("--" +:+ networkName +:+ "_ip") s) as [s1 E].
  rewrite (bind_run_Ok _ _ _ _ _ E). fold (address_of networkName). unfold answering.
  destruct (is_empty (address_of networkName)); [by eexists|].
  unfold sys_emit, modify, get, mbind, M_bind. cbn. rewrite Hanswers. by eexists.
Qed.

Lemma first_address_run (networks : list string) (s : sys) :
  ∃ s', first_address networks s = (Ok (default "" (List.find answering (map address_of networks))), s').
Proof.
  revert s. induction networks as [|name networks IH]; intros s; [by eexists|]. cbn [first_address map List.find].
  destruct (network_address_run name s) as [s1 E]. rewrite (bind_run_Ok _ _ _ _ _ E).
  destruct (answering (address_of name)) eqn:Ea; [|apply IH].
  apply andb_true_iff in Ea as [Ea _]. apply negb_true_iff in Ea. rewrite Ea. by eexists.
Qed.

Lemma found_not_empty (l : list string) : is_empty (default "x" (List.find answering l)) = false.
Proof.
  destruct (List.find answering l) as [a|] eqn:E; [|done]. apply find_some in E as [_ E].
  by apply andb_true_iff in E as [E%negb_true_iff _].
Qed.

Lemma find_app {A : Type} (p : A → bool) (l l' : list A) :
  List.find p (l ++ l') = match List.find p l with Some a => Some a | None => List.find p l' end.
Proof. induction l as [|a l IH]; [done|]. cbn. by destruct (p a). Qed.

(** The address by the host name depends on what was kept, not on the system. *)
Lemma frontend_hostname_fst (n n' : names_state) :
  ns_address n = ns_address n' → (detectFrontendHostname n).1 = (detectFrontendHostname n').1.
Proof.
  intros E. unfold detectFrontendHostname, get, lift, modify, mbind, M_bind. rewrite E.
  destruct (ns_address n'); [done|]. destruct nw_gethostname as [h|w|w]; [|done..]. by destruct (make_addrinfo h).
Qed.

(** The network of the frontend.  When cminfo names the networks, with commas between them, and
    its answers and those of the probe do not change, the address is the first one that answers of
    the high speed networks, in their order, then of the others; when none answers it is what is
    found by the host name. *)
Theorem hpcm_address_first (networks : list string) (n : names_state) :
  Forall network_name networks → first_line "--data_net_names" = join "," networks →
  let order := List.filter is_hsn networks ++ List.filter (λ s, negb (is_hsn s)) networks in
  (detectHpcmAddress n).1 =
  match List.find answering (map address_of order) with
  | Some address => Ok address
  | None => (detectFrontendHostname n).1
  end.
Proof.
  intros Hn Hj order. unfold detectHpcmAddress.
  assert (∀ (m : M sys string) a n, (∀ s, ∃ s', m s = (Ok a, s')) →
    ∃ s', on_names m n = (Ok a, MkNames s' (ns_address n))) as Hon.
  { intros m a n0 Hm. unfold on_names, zoom. destruct (Hm (ns_sys n0)) as [s' ->]. by exists s'. }
  destruct (Hon _ _ n (cminfo_query_run "--data_net_names")) as [s1 E1].
  rewrite (bind_run_Ok _ _ _ _ _ E1), Hj.
  assert (length networks ≤ String.length (join "," networks))%nat as Hl.
  { clear -Hn. induction Hn as [|s l (Hs & _) _ IH]; [done|]. destruct l as [|s' l].
    - cbn. destruct s; [done|]. cbn. lia.
    - rewrite join_cons, string_length_app. cbn [length String.length] in *. lia. }
  rewrite (network_names_join _ _ Hn Hl). unfold order. rewrite map_app, find_app.
  destruct (Hon _ _ (MkNames s1 (ns_address n)) (first_address_run (List.filter is_hsn networks))) as [s2 E2].
  rewrite (bind_run_Ok _ _ _ _ _ E2).
  pose proof (found_not_empty (map address_of (List.filter is_hsn networks))) as Hf.
  destruct (List.find answering (map address_of (List.filter is_hsn networks))) as [a|]; cbn [default] in *.
  { by rewrite Hf. }
  cbn [is_empty negb].
  destruct (Hon _ _ (MkNames s2 (ns_address n)) (first_address_run (List.filter (λ s, negb (is_hsn s)) networks))) as [s3 E3].
  cbn [ns_address] in *. rewrite (bind_run_Ok _ _ _ _ _ E3).
  pose proof (found_not_empty (map address_of (List.filter (λ s, negb (is_hsn s)) networks))) as Hf'.
  destruct (List.find answering (map address_of (List.filter (λ s, negb (is_hsn s)) networks))) as [a|]; cbn [default] in *.
  { by rewrite Hf'. }
  cbn [is_empty negb]. by apply frontend_hostname_fst.
Qed.
End Chosen.

(** Two networks, of which the second is a high speed one that answers. *)
Definition demo_printed (name : string) : option string :=
  if decide (name = "--data_net_names") then Some "ipogif0,hsn0"
  else if decide (name = "--hsn0_ip") then Some "10.253.0.1"
  else None.

Example hpcm_address_first_witness :
  let C := Build_Commands (λ _ argv, match argv with [_; name] => demo_printed name | _ => None end) (λ _ _, WNoChild) in
  let N := Build_Network (Ok "uan01") (λ _, inr None) (λ _, None) (λ _ _, true) in
  (@detectHpcmAddress C N (MkNames (MkSys ∅ []) None)).1 = Ok "10.253.0.1".
Proof.
  intros C N.
  refine (hpcm_address_first demo_printed (λ _, true) _ _ ["ipogif0"; "hsn0"] (MkNames (MkSys ∅ []) None) _ _); try done.
  repeat constructor; done.
Defined.

(** An address that takes all of its room is not used: the host name is. *)
Lemma long_address_not_used `{Network} (hostname address : string) (s : sys) :
  nw_gethostname = Ok hostname → nw_addrinfo hostname = inr (Some address) → String.length address = MAXADDRLEN →
  detectFrontendHostname (MkNames s None) = (Ok hostname, MkNames s (Some hostname)).
Proof.
  intros E1 E2 E3. unfold detectFrontendHostname, make_addrinfo, get, lift, modify, mbind, M_bind. cbn.
  rewrite E1, E2. cbn. unfold resolve_hostname. rewrite E3. by destruct (nw_nameinfo_error address).
Qed.

(** ** The probe *)

Section Probes.
Import Probe.
Context (routes : bool).

(** What holds of both threads together. *)
Definition probe_ok (p : probe) : Prop :=
  (pr_listener p = LListen → pr_listening p = false) ∧
  (pr_connected p = true → routes = true ∧ pr_listening p = true ∧ pr_connector p ≠ CConnect) ∧
  (pr_connected p = true → pr_connector p = CDone true → pr_sent p = true) ∧
  match pr_accepted p with
  | Some Own => pr_connected p = true
  | Some Stranger => pr_foreign p = true
  | None => pr_listener p ≠ LRecv ∧ pr_listener p ≠ LGet ∧ pr_listener p ≠ LDone true
  end ∧
  match pr_listener p with LDone b => b = true → pr_connector p = CDone true | _ => True end.

Lemma probe_ok_start : probe_ok start.
Proof. unfold probe_ok, start; cbn. naive_solver. Qed.

Lemma probe_ok_step (p p' : probe) : probe_ok p → step routes p p' → probe_ok p'.
Proof.
  unfold probe_ok. intros Hp Hs. inversion Hs; subst; cbn in *;
    try match goal with o : origin |- _ => destruct o end;
    try match goal with b : bool |- context [LDone ?c] => is_var c; destruct c end;
    try match goal with m : listener |- _ => destruct m as [| | | | | |[]] end;
    try match goal with a : option origin |- _ => destruct a as [[]|] end; naive_solver.
Qed.

Definition steps_left (p : probe) : nat :=
  match pr_listener p with LListen => 5 | LSelect => 4 | LAccept => 3 | LRecv => 2 | LGet => 1 | LWaitThread => 1 | LDone _ => 0 end +
  match pr_connector p with CConnect => 2 | CSend => 1 | CDone _ => 0 end + (if pr_foreign p then 0 else 1).

Lemma step_decreases (p p' : probe) : step routes p p' → (steps_left p' < steps_left p)%nat.
Proof.
  intros Hs. inversion Hs; subst; cbn; try lia.
  match goal with H : may_fail ?m = true |- _ => destruct m; try done; lia end.
Qed.

(** Some thread of the probe can go on, whatever others do. *)
Definition goes_on (p : probe) : Prop := ∃ p', step routes p p' ∧ pr_foreign p' = pr_foreign p.

Lemma goes_on_step (p p' : probe) : step routes p p' → pr_foreign p' = pr_foreign p → goes_on p.
Proof. by exists p'. Qed.

Lemma probe_progress (p : probe) : probe_ok p → finished p ∨ goes_on p.
Proof.
  destruct p as [m c l k f a s]. unfold probe_ok. cbn. intros (Hl & _).
  destruct c as [| |b]; [right; by eapply goes_on_step; [apply step_refused|]|right; by eapply goes_on_step; [apply step_send|]|].
  destruct m as [| | | | | |r]; try (right; by eapply goes_on_step; [by (constructor || by apply step_failed)|]).
  - right. rewrite (Hl eq_refl). by eapply goes_on_step; [apply step_listen|].
  - left. by exists r.
Qed.

(** C37 The probe of an address.  Whatever the order in which the two threads run, whichever of their
    calls fail, that to listen included, and whoever else connects, the probe makes at most seven
    steps, and its threads never wait for each other forever.  When the result is that the address
    answers, the thread has connected and sent its byte, and of the connection that was accepted one
    of two things holds: it is that of the thread, and then the address leads to this host and the
    byte has come through; or it is one that somebody else has made to the port of the socket. *)
Theorem probe_ends_soundly (n : nat) (p : probe) :
  nsteps (step routes) n start p →
  (n ≤ 7 + if pr_foreign p then 1 else 0)%nat ∧ (finished p ∨ goes_on p) ∧
  (pr_listener p = LDone true → pr_connector p = CDone true ∧
    ((pr_accepted p = Some Own ∧ routes = true ∧ pr_sent p = true) ∨
     (pr_accepted p = Some Stranger ∧ pr_foreign p = true))).
Proof.
  intros Hn.
  assert (∀ q, nsteps (step routes) n q p → probe_ok q → probe_ok p ∧ (n + steps_left p ≤ steps_left q)%nat) as Hinv.
  { clear Hn. revert p. induction n as [|n IH]; intros p q Hn Hq; inversion Hn as [|? ? q' ? Hs Hn']; subst.
    - split; [done|lia].
    - pose proof (step_decreases _ _ Hs). destruct (IH p q' Hn' (probe_ok_step _ _ Hq Hs)) as [Hp Hle]. split; [done|lia]. }
  destruct (Hinv _ Hn probe_ok_start) as [Hp Hle]. unfold steps_left in Hle. cbn in Hle.
  split; [destruct (pr_foreign p); lia|]. split; [by apply probe_progress|]. intros Hd.
  destruct Hp as (_ & Hk & Hc & Hm & Hb). rewrite Hd in Hm, Hb. specialize (Hb eq_refl). split; [done|].
  destruct (pr_accepted p) as [[]|]; [left|by right|naive_solver].
  destruct (Hk Hm) as (Hr & _). by split_and!; [| |apply Hc].
Qed.

(** The probe of an address that leads here can end with that result. *)
Lemma probe_finds :
  routes = true → nsteps (step routes) 7 start (MkProbe (LDone true) (CDone true) true true false (Some Own) true).
Proof.
  intros Hr. eapply nsteps_l; [apply step_listen|]. eapply nsteps_l; [by apply step_connect|].
  eapply nsteps_l; [apply step_send|]. eapply nsteps_l; [apply step_ready; by right; left|].
  eapply nsteps_l; [by apply (step_accept _ Own)|].
  eapply nsteps_l; [apply step_recv; by right; left|]. eapply nsteps_l; [apply step_get|]. apply nsteps_O.
Qed.

(** So can that of one that leads to a listener elsewhere, when a stranger connects. *)
Lemma probe_deceived :
  routes = false → nsteps (step routes) 8 start (MkProbe (LDone true) (CDone true) true false true (Some Stranger) false).
Proof.
  intros Hr. eapply nsteps_l; [apply step_listen|]. eapply nsteps_l; [by apply step_elsewhere|].
  eapply nsteps_l; [apply step_send|]. eapply nsteps_l; [apply step_stranger|].
  eapply nsteps_l; [apply step_ready; by right; right|]. eapply nsteps_l; [by apply (step_accept _ Stranger)|].
  eapply nsteps_l; [apply step_recv; by left|]. eapply nsteps_l; [apply step_get|]. apply nsteps_O.
Qed.
End Probes.

(** A run in which the connection comes through, and what follows for every run of an address that
    leads elsewhere: the result is true only of one to whose socket somebody else has connected, and
    there is one. *)
Example probe_ends_soundly_witness :
  (∃ p, nsteps (Probe.step true) 7 Probe.start p ∧ Probe.pr_listener p = Probe.LDone true ∧
    Probe.pr_foreign p = false ∧ Probe.pr_sent p = true) ∧
  ∃ p, nsteps (Probe.step false) 8 Probe.start p ∧ Probe.pr_listener p = Probe.LDone true ∧
    Probe.pr_accepted p = Some Probe.Stranger.
Proof.
  split.
  - pose proof (probe_finds true eq_refl) as Hr. eexists. split; [exact Hr|]. split; [reflexivity|]. split; [reflexivity|].
    destruct (proj2 (proj2 (probe_ends_soundly true 7 _ Hr)) eq_refl) as [_ [(_ & _ & Hs)|[Hs _]]]; [exact Hs|discriminate Hs].
  - pose proof (probe_deceived false eq_refl) as Hr. eexists. split; [exact Hr|]. split; [reflexivity|].
    destruct (proj2 (proj2 (probe_ends_soundly false 8 _ Hr)) eq_refl) as [_ [(_ & Hf & _)|[Hs _]]]; [discriminate Hf|exact Hs].
Defined.

(** The thread may connect before the socket listens: then the address is said not to answer,
    although it leads here. *)
Lemma probe_misses : ∃ p, rtc (Probe.step true) Probe.start p ∧ Probe.pr_listener p = Probe.LDone false.
Proof.
  exists (Probe.MkProbe (Probe.LDone false) (Probe.CDone false) true false false None false). split; [|done].
  eapply rtc_l; [apply Probe.step_refused|]. eapply rtc_l; [apply Probe.step_listen|].
  eapply rtc_l; [by apply Probe.step_failed|]. eapply rtc_l; [apply Probe.step_thread|]. apply rtc_refl.
Qed.
