(* ===== verification/Preload.v ===== *)
(** * The barrier library of PALS jobs (src/src/frontend/daemon/libctipreloadpals.c)

    The library is named in LD_PRELOAD of every process of a job that is launched with a barrier.
    Its constructor runs before the program: it takes itself out of the environment, finds and
    opens libpals and waits in the start barrier until the frontend releases the job; its destructor
    finalizes libpals.  The dynamic linker, pkg-config and libpals are the class [Preloading]. *)

From S2P Require Import Prelude System Paths PalsJobs.

(** What a read of the pipe from pkg-config gives; after the last one, the end. *)
Inductive read_answer : Type :=
| RData (bytes : string) | RInterrupted | RFailed.

(** What waitpid gives: the exit code of pkg-config, or an errno; after the last one, ECHILD. *)
Inductive wait_answer : Type :=
| WStatus (code : Z) | WErrno (errno : Z).

Definition EINTR : Z := 4.
Definition ECHILD : Z := 10.
Definition EAGAIN : Z := 11.

Class Preloading : Type := {
  (** dlopen, dlsym with a result that is not NULL, and dlerror *)
  ld_open : list sys_event → string → bool;
  ld_symbol : list sys_event → string → bool;
  ld_error : list sys_event → option string;
  pk_pipe : bool;
  pk_fork : bool;
  pk_reads : list read_answer;
  pk_waits : list wait_answer;
  pk_sigaction : bool;
  (** the result of pals_init2, and what it writes to [pals_state] *)
  pals_init2_result : list sys_event → Z * option Z
}.

(** The globals of the library, with its process. *)
Record preload : Type := MkPreload {
  pl_sys : sys;
  libpals_handle : option string;
  pals_init2 : bool; pals_fini : bool; pals_start_barrier : bool;
  pals_state : option Z
}.

Definition on_process {A : Type} (m : M sys A) : M preload A :=
  zoom pl_sys (λ s p, MkPreload s (libpals_handle p) (pals_init2 p) (pals_fini p) (pals_start_barrier p) (pals_state p)) m.

(** ** The directory of libpals *)

(** The text that is read up to its end, without its last character; nothing when a read fails or
    the buffer is full. *)
Fixpoint read_libdir (reads : list read_answer) (libpals_libdir : string) : option string :=
  match reads with
  | [] => if is_empty libpals_libdir then None else Some (c_str (pop_back libpals_libdir))
  | RInterrupted :: reads' => read_libdir reads' libpals_libdir
  | RFailed :: _ => None
  | RData bytes :: reads' =>
      if is_empty bytes then if is_empty libpals_libdir then None else Some (c_str (pop_back libpals_libdir))
      else
        let libpals_libdir := libpals_libdir +:+ bytes in
        if (PATH_MAX - 1 <=? String.length libpals_libdir)%nat then None else read_libdir reads' libpals_libdir
  end.

(** After a status of 0 the loop waits again, until there is no child. *)
Fixpoint wait_pkgconfig (waits : list wait_answer) (detected_path : option string) : option string :=
  match waits with
  | [] => detected_path
  | WErrno e :: waits' =>
      if bool_decide (e = EAGAIN) then wait_pkgconfig waits' detected_path
      else if bool_decide (e = ECHILD) then detected_path else None
  | WStatus code :: waits' => if bool_decide (code = 0) then wait_pkgconfig waits' detected_path else None
  end.

Section Library.
Context `{Preloading}.

Definition detect_libdir : M sys (option string) :=
  if negb pk_pipe then undef "closes a descriptor that was not made"
  else if negb pk_fork then mret None
  else
    sys_emit (SRun ["pkg-config"; "--variable=libdir"; "libpals"]);;
    let detected_path := read_libdir pk_reads "" in
    (if pk_sigaction then sys_emit (SCall "sigaction" ["SIGCHLD"; "SIG_DFL"]) else mret tt);;
    let detected_path := wait_pkgconfig pk_waits detected_path in
    (if pk_sigaction then sys_emit (SCall "sigaction" ["SIGCHLD"; "old_action"]) else mret tt);;
    mret detected_path.

Definition dlopen (path : string) : M sys bool :=
  s ← get; sys_emit (SCall "dlopen" [path]);; mret (ld_open (sys_trace s) path).

Definition libpals_in (dir : string) : string := dir +:+ "/" +:+ "libpals.so".

Definition pals_default_paths : list string :=
  ["/opt/cray/pe/pals/default/lib"; "/opt/cray/pals/default/lib"; "/usr/lib64"].

Fixpoint open_default (dirs : list string) : M sys (option string) :=
  match dirs with
  | [] => mret None
  | dir :: dirs' =>
      let path := libpals_in dir in
      if (PATH_MAX <=? String.length path)%nat then mret None
      else opened ← dlopen path; if opened : bool then mret (Some path) else open_default dirs'
  end.

Definition dlopen_libpals : M sys (option string) :=
  opened ← dlopen "libpals.so";
  if opened : bool then mret (Some "libpals.so")
  else
    detected_path ← detect_libdir;
    match detected_path with
    | None => open_default pals_default_paths
    | Some dir =>
        let path := libpals_in dir in
        if (PATH_MAX <=? String.length path)%nat then mret None
        else opened ← dlopen path; if opened : bool then mret (Some path) else open_default pals_default_paths
    end.

(** ** The constructor and the destructor *)

Definition close_libpals : M preload () :=
  p ← get;
  (if bool_decide (is_Some (libpals_handle p))
   then on_process (sys_emit (SCall "dlclose" [default "" (libpals_handle p)])) else mret tt);;
  modify (λ p, MkPreload (pl_sys p) None false false false None).

Definition restore_preload : M sys () :=
  sys_unsetenv "LD_PRELOAD";;
  saved ← System.getenv SAVE_LD_PRELOAD;
  match saved with
  | Some cti_save_ld_preload =>
      sys_setenv "LD_PRELOAD" cti_save_ld_preload true;; sys_unsetenv SAVE_LD_PRELOAD
  | None => mret tt
  end.

(** dlsym and the two checks that follow it: the address is stored in either case. *)
Definition load_symbol (name : string) (set : bool → preload → preload) : M preload () :=
  s ← on_process get;
  on_process (sys_emit (SCall "dlsym" [name]));;
  let found := ld_symbol (sys_trace s) name in
  modify (set found);;
  s ← on_process get;
  match ld_error (sys_trace s) with
  | Some error => throw ("Error loading " +:+ name +:+ ": " +:+ error)
  | None => if found then mret tt else throw ("Error loading " +:+ name +:+ ". Tool launch may fail.")
  end.

Definition set_init2 (b : bool) (p : preload) : preload :=
  MkPreload (pl_sys p) (libpals_handle p) b (pals_fini p) (pals_start_barrier p) (pals_state p).
Definition set_fini (b : bool) (p : preload) : preload :=
  MkPreload (pl_sys p) (libpals_handle p) (pals_init2 p) b (pals_start_barrier p) (pals_state p).
Definition set_start_barrier (b : bool) (p : preload) : preload :=
  MkPreload (pl_sys p) (libpals_handle p) (pals_init2 p) (pals_fini p) b (pals_state p).

Definition state_arg (state : option Z) : string := match state with Some z => to_string z | None => "NULL" end.

Definition enter_barrier : M preload () :=
  s ← on_process get;
  on_process (sys_emit (SCall "pals_init2" []));;
  let '(rc, state) := pals_init2_result (sys_trace s) in
  modify (λ p, MkPreload (pl_sys p) (libpals_handle p) (pals_init2 p) (pals_fini p) (pals_start_barrier p) state);;
  if bool_decide (rc = 0) then on_process (sys_emit (SCall "pals_start_barrier" [state_arg state])) else mret tt.

(** The rest of the constructor, once the library has been searched for. *)
Definition use_libpals : M preload () :=
  p ← get;
  (match libpals_handle p with None => throw "Error loading libpals.so. Tool launch may fail." | Some _ => mret tt end);;
  load_symbol "pals_init2" set_init2;;
  load_symbol "pals_fini" set_fini;;
  load_symbol "pals_start_barrier" set_start_barrier;;
  enter_barrier.

Definition set_handle (handle : option string) (p : preload) : preload :=
  MkPreload (pl_sys p) handle (pals_init2 p) (pals_fini p) (pals_start_barrier p) (pals_state p).

Definition pals_init_constructor : M preload () :=
  on_process restore_preload;;
  handle ← on_process dlopen_libpals;
  modify (set_handle handle);;
  try_catch use_libpals (λ _, close_libpals).

Definition pals_finalize_destructor : M preload () :=
  p ← get;
  (if pals_fini p then on_process (sys_emit (SCall "pals_fini" [state_arg (pals_state p)])) else mret tt);;
  close_libpals.
End Library.

(** Before the constructor. *)
Definition preload_start (s : sys) : preload := MkPreload s None false false false None.
