(* ===== verification/PreloadProofs.v ===== *)
(** * Theorems about the barrier library of PALS jobs

    What the frontend puts into the arguments of a launch is undone by the constructor of the
    library; libpals is searched for in a fixed order; the barrier is entered only when all of
    libpals is there, and otherwise nothing stays loaded. *)

From S2P Require Import Prelude System Host Paths PalsJobs PalsProofs Preload.

(** ** The environment *)

(** The value that an argument of the launcher gives to a variable, and the last one that counts. *)
Definition setting (name arg : string) : option string :=
  let p := "--env=" +:+ name +:+ "=" in
  if starts_with p arg then Some (drop_str (String.length p) arg) else None.

Fixpoint last_setting (name : string) (args : list string) : option string :=
  match args with
  | [] => None
  | arg :: args' => match last_setting name args' with Some v => Some v | None => setting name arg end
  end.

(** The last value for LD_PRELOAD among the arguments that the caller gave. *)
Fixpoint last_value (args : list launch_arg) : option string :=
  match args with
  | [] => None
  | a :: args' =>
      match last_value args', a with
      | Some v, _ => Some v
      | None, Plain _ => None
      | None, Joined v | None, Parted v => Some v
      end
  end.

Lemma last_setting_app (name : string) (l l' : list string) :
  last_setting name (l ++ l') = match last_setting name l' with Some v => Some v | None => last_setting name l end.
Proof. induction l as [|a l IH]; cbn; [by destruct (last_setting name l')|]. rewrite IH. by destruct (last_setting name l'). Qed.

Lemma setting_same (name value : string) : setting name ("--env=" +:+ name +:+ "=" +:+ value) = Some value.
Proof.
  unfold setting. rewrite <-(string_app_assoc name "="), <-(string_app_assoc "--env=" (name +:+ "=")).
  by rewrite starts_with_app, drop_str_app.
Qed.

Definition saves_nothing (a : launch_arg) : Prop :=
  match a with Plain arg => setting SAVE_LD_PRELOAD arg = None | _ => True end.

Lemma saved_last (path : string) (args : list launch_arg) :
  Forall saves_nothing args → last_setting SAVE_LD_PRELOAD (flat_map (fixed_arg path) args) = last_value args.
Proof.
  induction 1 as [|a args Ha _ IH]; [done|]. cbn [flat_map last_value]. rewrite last_setting_app, IH.
  destruct (last_value args); [done|]. destruct a as [arg|v|v]; cbn [fixed_arg]; [cbn; by rewrite Ha|..];
    unfold preload_args; cbn [last_setting]; by rewrite setting_same.
Qed.

Section Constructor.
Context `{Preloading}.

(** What none of the rest of the constructor changes. *)
Definition env_kept (e : gmap string string) (p : preload) : Prop := sys_env (pl_sys p) = e.

Lemma on_process_kept {A : Type} (e : gmap string string) (m : M sys A) :
  preserves (λ s, sys_env s = e) m → preserves (env_kept e) (on_process m).
Proof.
  intros Hm p Hp. unfold env_kept, on_process, zoom in *. specialize (Hm (pl_sys p) Hp).
  by destruct (m (pl_sys p)).
Qed.

Lemma emit_kept (e : gmap string string) (ev : sys_event) : preserves (λ s, sys_env s = e) (sys_emit ev).
Proof. by intros s. Qed.

Lemma dlopen_kept (e : gmap string string) (path : string) : preserves (λ s, sys_env s = e) (dlopen path).
Proof. by intros s. Qed.

Lemma open_default_kept (e : gmap string string) (dirs : list string) :
  preserves (λ s, sys_env s = e) (open_default dirs).
Proof.
  induction dirs as [|d dirs IH]; [by intros s|]. cbn [open_default].
  destruct (_ <=? _)%nat; [by intros s|]. apply preserves_bind; [apply dlopen_kept|]. intros []; [by intros s|done].
Qed.

Lemma detect_libdir_kept (e : gmap string string) : preserves (λ s, sys_env s = e) detect_libdir.
Proof.
  unfold detect_libdir. destruct pk_pipe, pk_fork; try (by intros s). cbn [negb].
  destruct pk_sigaction; by intros s.
Qed.

Lemma dlopen_libpals_kept (e : gmap string string) : preserves (λ s, sys_env s = e) dlopen_libpals.
Proof.
  apply preserves_bind; [apply dlopen_kept|]. intros []; [by intros s|].
  apply preserves_bind; [apply detect_libdir_kept|]. intros [dir|]; [|apply open_default_kept].
  cbn zeta. destruct (_ <=? _)%nat; [by intros s|]. apply preserves_bind; [apply dlopen_kept|].
  intros []; [by intros s|apply open_default_kept].
Qed.

Lemma load_symbol_kept (e : gmap string string) (name : string) (set : bool → preload → preload) :
  (∀ b p, pl_sys (set b p) = pl_sys p) → preserves (env_kept e) (load_symbol name set).
Proof.
  intros Hset [s h i f b st] Hp. unfold load_symbol, on_process, sys_emit, modify, zoom, get, mbind, M_bind, env_kept in *.
  cbn in *. rewrite !Hset. cbn. destruct (ld_error _); cbn; [by rewrite ?Hset|].
  destruct (ld_symbol _ _); cbn; by rewrite ?Hset.
Qed.

Lemma close_libpals_kept (e : gmap string string) : preserves (env_kept e) close_libpals.
Proof. intros [s [h|] i f b st]; done. Qed.

Lemma enter_barrier_kept (e : gmap string string) : preserves (env_kept e) enter_barrier.
Proof.
  intros [s h i f b st] Hp. unfold enter_barrier, on_process, sys_emit, modify, zoom, get, mbind, M_bind, env_kept in *.
  cbn in *. destruct (pals_init2_result _) as [rc state]. cbn. by destruct (bool_decide (rc = 0)).
Qed.

Lemma constructor_env (p : preload) :
  sys_env (pl_sys (pals_init_constructor p).2) = sys_env (restore_preload (pl_sys p)).2.
Proof.
  unfold pals_init_constructor.
  set (rest := λ _ : (), handle ← on_process dlopen_libpals; _).
  destruct (restore_preload (pl_sys p)) as [r s] eqn:E.
  assert (r = Ok tt) as ->.
  { revert E. unfold restore_preload, sys_unsetenv, System.getenv, sys_setenv, modify, gets, mbind, M_bind. cbn.
    destruct (delete _ _ !! SAVE_LD_PRELOAD); cbn; by intros [= <- _]. }
  rewrite (bind_run_Ok _ _ p tt (MkPreload s (libpals_handle p) (pals_init2 p) (pals_fini p) (pals_start_barrier p) (pals_state p)))
    by (unfold on_process, zoom; by rewrite E).
  apply (fun H => H : preserves (env_kept (sys_env s)) (rest tt)); [|done]. unfold rest.
  apply preserves_bind; [apply on_process_kept, dlopen_libpals_kept|]. intros handle.
  apply preserves_bind; [by intros q|]. intros _. apply preserves_try_catch; [|intros _; apply close_libpals_kept].
  apply preserves_bind; [by intros q|]. intros q. apply preserves_bind; [destruct (libpals_handle q); by intros q'|]. intros _.
  repeat (apply preserves_bind; [|intros _]); by (apply load_symbol_kept || apply enter_barrier_kept).
Qed.
End Constructor.

(** The library is the first in the value that counts. *)
Lemma library_first (path : string) (args : list launch_arg) (base : option string) :
  Forall arg_ok args →
  ∃ rest, match last_setting "LD_PRELOAD" ((if existsb preloads args then [] else ["--env=LD_PRELOAD=" +:+ path]) ++
                                           flat_map (fixed_arg path) args) with
          | Some v => Some v | None => base end = Some (path +:+ rest).
Proof.
  intros Hargs.
  assert (if existsb preloads args then ∃ rest, last_setting "LD_PRELOAD" (flat_map (fixed_arg path) args) = Some (path +:+ rest)
          else last_setting "LD_PRELOAD" (flat_map (fixed_arg path) args) = None) as Hl.
  { induction Hargs as [|a args Ha _ IH]; [done|]. cbn [existsb flat_map].
    destruct (existsb preloads args).
    - rewrite orb_true_r. destruct IH as [rest IH]. exists rest. by rewrite last_setting_app, IH.
    - rewrite last_setting_app, IH, orb_false_r. destruct a as [arg|v|v]; cbn [preloads fixed_arg].
      + destruct Ha as [Ha _]. cbn. unfold setting. change ("--env=" +:+ "LD_PRELOAD" +:+ "=") with "--env=LD_PRELOAD=". by rewrite Ha.
      + exists (":" +:+ v). apply (setting_same "LD_PRELOAD" (path +:+ ":" +:+ v)).
      + exists (":" +:+ v). apply (setting_same "LD_PRELOAD" (path +:+ ":" +:+ v)). }
  rewrite last_setting_app. destruct (existsb preloads args).
  - destruct Hl as [rest ->]. by exists rest.
  - rewrite Hl. exists "". cbn [last_setting]. rewrite string_app_nil_r. by rewrite (setting_same "LD_PRELOAD" path : setting "LD_PRELOAD" ("--env=LD_PRELOAD=" +:+ path) = _).
Qed.

Lemma restored (env : gmap string string) (t : list sys_event) (saved : option string) :
  env !! SAVE_LD_PRELOAD = saved →
  let e := sys_env (restore_preload (MkSys env t)).2 in
  e !! "LD_PRELOAD" = saved ∧ e !! SAVE_LD_PRELOAD = None ∧
  ∀ name, name ≠ "LD_PRELOAD" → name ≠ SAVE_LD_PRELOAD → e !! name = env !! name.
Proof.
  intros Hs. unfold restore_preload, sys_unsetenv, System.getenv, sys_setenv, modify, gets, mbind, M_bind.
  cbn [sys_env sys_trace fst snd orb]. rewrite lookup_delete_ne, Hs by done.
  destruct saved as [v|]; cbn [sys_env snd mret M_ret].
  - rewrite lookup_delete_ne, lookup_insert_eq, lookup_delete_eq by done. split_and!; [done..|].
    intros name H1 H2. by rewrite lookup_delete_ne, lookup_insert_ne, lookup_delete_ne by done.
  - rewrite lookup_delete_eq, lookup_delete_ne by done. split_and!; [done..|].
    intros name H1 H2. by rewrite lookup_delete_ne by done.
Qed.

(** C27 What the frontend adds to a launch is undone in every process of the job.  When the launcher
    gives both variables the last setting of its arguments, or else the value it had, the library is
    the first in LD_PRELOAD of a process, and once its constructor has run, whatever comes of
    libpals, LD_PRELOAD has the last value that the caller's arguments gave (none when they gave
    none, even if the launcher's own environment had one), the variable for saving it is gone and
    no other variable has changed. *)
Theorem preload_restored `{Host} `{Preloading} (baseDir preloadPath : string) (args : list launch_arg)
    (base : gmap string string) (p : preload) :
  accessiblePath (baseDir +:+ "/lib/libctipreloadpals.so") = Ok preloadPath → preloadPath ≠ "" →
  Forall arg_ok args → Forall saves_nothing args → base !! SAVE_LD_PRELOAD = None →
  let launched := fixLaunchArguments baseDir (Some (flat_map given args)) true in
  (∀ name, name = "LD_PRELOAD" ∨ name = SAVE_LD_PRELOAD →
    sys_env (pl_sys p) !! name = match last_setting name launched with Some v => Some v | None => base !! name end) →
  let e := sys_env (pl_sys (pals_init_constructor p).2) in
  (∃ rest, sys_env (pl_sys p) !! "LD_PRELOAD" = Some (preloadPath +:+ rest)) ∧
  e !! "LD_PRELOAD" = last_value args ∧ e !! SAVE_LD_PRELOAD = None ∧
  ∀ name, name ≠ "LD_PRELOAD" → name ≠ SAVE_LD_PRELOAD → e !! name = sys_env (pl_sys p) !! name.
Proof.
  intros Hpath Hne Hargs Hsaves Hbase launched Henv e.
  assert (sys_env (pl_sys p) !! SAVE_LD_PRELOAD = last_value args) as Hsave.
  { rewrite Henv by (by right). unfold launched. rewrite (launch_arguments _ _ _ Hpath Hne Hargs), last_setting_app, saved_last by done.
    destruct (last_value args); [done|]. destruct (existsb preloads args); [done|]. by rewrite Hbase. }
  split.
  - rewrite Henv by (by left). unfold launched. rewrite (launch_arguments _ _ _ Hpath Hne Hargs). by apply library_first.
  - unfold e. rewrite constructor_env. unfold restore_preload.
    destruct (pl_sys p) as [env t]. cbn [sys_env] in *. by apply restored.
Qed.

(** ** The directory of libpals *)

Definition data_of (r : read_answer) : string := match r with RData bytes => bytes | _ => "" end.

Definition read_text (reads : list read_answer) : string := foldr (λ r s, data_of r +:+ s) "" reads.

Definition read_goes_on (r : read_answer) : Prop :=
  match r with RData bytes => bytes ≠ "" | RInterrupted => True | RFailed => False end.

(** How the text comes in pieces, and how often a read is interrupted, makes no difference. *)
Lemma read_libdir_text (reads : list read_answer) (text : string) :
  Forall read_goes_on reads → (String.length text < PATH_MAX - 1)%nat →
  read_libdir reads text =
  let all := text +:+ read_text reads in
  if (PATH_MAX - 1 <=? String.length all)%nat then None
  else if is_empty all then None else Some (c_str (pop_back all)).
Proof.
  intros Hr. revert text. induction Hr as [|r reads Hr Hrs IH]; intros text Ht; cbn zeta.
  - cbn [read_libdir read_text foldr]. rewrite string_app_nil_r. apply Nat.leb_gt in Ht. by rewrite Ht.
  - destruct r as [bytes| |]; [|by apply IH|done]. cbn [read_goes_on] in Hr.
    cbn [read_libdir]. assert (is_empty bytes = false) as -> by (by destruct bytes).
    change (read_text (RData bytes :: reads)) with (bytes +:+ read_text reads). rewrite <-string_app_assoc.
    destruct (PATH_MAX - 1 <=? String.length (text +:+ bytes))%nat eqn:E.
    + apply Nat.leb_le in E.
      assert ((PATH_MAX - 1 <=? String.length ((text +:+ bytes) +:+ read_text reads))%nat = true) as ->; [|done].
      apply Nat.leb_le. rewrite (string_length_app (text +:+ bytes)). lia.
    + apply Nat.leb_gt in E. by apply IH.
Qed.

(** ** The search *)

Section Search.
Context `{Preloading}.
Context (opens : string → bool) (Hopens : ∀ t path, ld_open t path = opens path).

Definition opening (path : string) : sys_event := SCall "dlopen" [path].

(** The candidates up to the first that can be opened. *)
Fixpoint tried (paths : list string) : list string :=
  match paths with [] => [] | p :: ps => p :: (if opens p then [] else tried ps) end.

Lemma dlopen_run (path : string) (env : gmap string string) (t : list sys_event) :
  dlopen path (MkSys env t) = (Ok (opens path), MkSys env (t ++ [opening path])).
Proof. unfold dlopen, get, sys_emit, modify, mbind, M_bind. cbn. by rewrite Hopens. Qed.

Definition short (path : string) : Prop := (String.length path < PATH_MAX)%nat.

#[global] Instance short_decision (path : string) : Decision (short path).
Proof. unfold short. apply _. Defined.

Lemma open_default_first (dirs : list string) (env : gmap string string) (t : list sys_event) :
  Forall short (map libpals_in dirs) →
  open_default dirs (MkSys env t) =
  (Ok (List.find opens (map libpals_in dirs)), MkSys env (t ++ map opening (tried (map libpals_in dirs)))).
Proof.
  revert t. induction dirs as [|d dirs IH]; intros t Hs; [cbn; by rewrite app_nil_r|]. cbn [map] in Hs.
  apply Forall_cons in Hs as [Hd Hs]. cbn [open_default map List.find tried].
  apply Nat.leb_gt in Hd. rewrite Hd. cbn zeta. rewrite (bind_run_Ok _ _ _ _ _ (dlopen_run _ _ _)).
  destruct (opens (libpals_in d)); [done|]. rewrite IH by done. by rewrite <-app_assoc.
Qed.

(** What pkg-config says, and what asking it does. *)
Definition detected : option string := if pk_fork then wait_pkgconfig pk_waits (read_libdir pk_reads "") else None.

Definition detecting : list sys_event :=
  if pk_fork then
    SRun ["pkg-config"; "--variable=libdir"; "libpals"] ::
    (if pk_sigaction then [SCall "sigaction" ["SIGCHLD"; "SIG_DFL"]; SCall "sigaction" ["SIGCHLD"; "old_action"]] else [])
  else [].

Lemma detect_libdir_run (env : gmap string string) (t : list sys_event) :
  pk_pipe = true → detect_libdir (MkSys env t) = (Ok detected, MkSys env (t ++ detecting)).
Proof.
  intros Hp. unfold detect_libdir, detected, detecting. rewrite Hp. destruct pk_fork; [|cbn; by rewrite app_nil_r].
  destruct pk_sigaction; cbn; unfold sys_emit, modify, mbind, M_bind; cbn; by rewrite <-?app_assoc.
Qed.

(** Where libpals is looked for when the linker does not find it by its name: in the directory that
    pkg-config names, which must not be too long, and in the usual directories. *)
Definition places : list string :=
  match detected with
  | Some dir =>
      if decide (short (libpals_in dir)) then libpals_in dir :: map libpals_in pals_default_paths else []
  | None => map libpals_in pals_default_paths
  end.

(** What the search does. *)
Definition searching : list sys_event :=
  opening "libpals.so" :: (if opens "libpals.so" then [] else detecting ++ map opening (tried places)).

(** The first that can be opened is. *)
Lemma libpals_first (env : gmap string string) (t : list sys_event) :
  pk_pipe = true →
  dlopen_libpals (MkSys env t) = (Ok (List.find opens ("libpals.so" :: places)), MkSys env (t ++ searching)).
Proof.
  intros Hp. unfold dlopen_libpals, searching. cbn [List.find].
  rewrite (bind_run_Ok _ _ _ _ _ (dlopen_run _ _ _)).
  destruct (opens "libpals.so"); [done|]. rewrite (bind_run_Ok _ _ _ _ _ (detect_libdir_run _ _ Hp)).
  assert (Forall short (map libpals_in pals_default_paths)) as Hs.
  { unfold pals_default_paths. cbn [map]. rewrite !Forall_cons, Forall_nil. repeat split; try done; unfold short; apply Nat.ltb_lt; by vm_compute. }
  unfold places. destruct detected as [dir|].
  2: { rewrite open_default_first by done. by rewrite <-!app_assoc. }
  cbn zeta. destruct (decide (short (libpals_in dir))) as [Hd|Hd].
  - pose proof Hd as Hd'. apply Nat.leb_gt in Hd'. rewrite Hd'.
    rewrite (bind_run_Ok _ _ _ _ _ (dlopen_run _ _ _)). cbn [List.find tried map].
    destruct (opens (libpals_in dir)); [by rewrite <-!app_assoc|].
    rewrite open_default_first by done. by rewrite <-!app_assoc.
  - apply Nat.nlt_ge, Nat.leb_le in Hd. rewrite Hd. cbn. by rewrite app_nil_r, <-app_assoc.
Qed.
End Search.

(** ** The barrier *)

(** The calls of libpals, in order. *)
Definition is_pals_call (e : sys_event) : bool :=
  match e with SCall f _ => starts_with "pals_" f | _ => false end.

Definition pals_calls (t : list sys_event) : list sys_event := List.filter is_pals_call t.

Lemma pals_calls_snoc (t : list sys_event) (e : sys_event) :
  pals_calls (t ++ [e]) = pals_calls t ++ (if is_pals_call e then [e] else []).
Proof. unfold pals_calls. rewrite List.filter_app. cbn. by destruct (is_pals_call e). Qed.

(** Which of the calls at hand are calls of libpals. *)
Ltac eval_calls :=
  repeat match goal with
  | |- context [is_pals_call (SCall ?f ?args)] =>
      let b := eval vm_compute in (starts_with "pals_" f) in change (is_pals_call (SCall f args)) with b
  end; cbn iota.

Definition unloaded (p : preload) : Prop := p = preload_start (pl_sys p).

Section Barrier.
Context `{Preloading}.

(** Which libraries can be opened does not change during the search; the other answers of the
    linker and of libpals may depend on all that was done before. *)
Context (opens : string → bool) (Hopens : ∀ t path, ld_open t path = opens path).

Lemma pals_calls_app (t t' : list sys_event) : pals_calls (t ++ t') = pals_calls t ++ pals_calls t'.
Proof. apply List.filter_app. Qed.

(** The search does not call libpals. *)
Lemma searching_quiet : pals_calls (searching opens) = [].
Proof.
  assert (∀ paths, pals_calls (map opening paths) = []) as Hm by (intros paths; by induction paths).
  unfold searching. rewrite (pals_calls_app [opening "libpals.so"] _ : pals_calls (opening "libpals.so" :: _) = _).
  destruct (opens "libpals.so"); [done|]. rewrite pals_calls_app, Hm. unfold detecting. by destruct pk_fork, pk_sigaction.
Qed.

Definition looking_up (name : string) : sys_event := SCall "dlsym" [name].

(** After the process has done [t]: each of the functions is there, and dlerror, asked after each
    search for one, reports nothing, be it of this search or of an earlier call. *)
Fixpoint all_there (t : list sys_event) (names : list string) : bool :=
  match names with
  | [] => true
  | name :: names' =>
      ld_symbol t name && bool_decide (ld_error (t ++ [looking_up name]) = None) &&
      all_there (t ++ [looking_up name]) names'
  end.

Definition functions : list string := ["pals_init2"; "pals_fini"; "pals_start_barrier"].

(** libpals is opened, and can be used. *)
Definition usable (t : list sys_event) : bool :=
  existsb opens ("libpals.so" :: places) && all_there (t ++ searching opens) functions.

(** The calls of libpals in a process that can use it, and has done [t] before the first. *)
Definition use (t : list sys_event) : list sys_event :=
  let '(rc, state) := pals_init2_result t in
  [SCall "pals_init2" []] ++ (if bool_decide (rc = 0) then [SCall "pals_start_barrier" [state_arg state]] else []) ++
  [SCall "pals_fini" [state_arg state]].

(** What is left of a process after the search. *)
Lemma loaded_run (found : option string) (env : gmap string string) (t : list sys_event) :
  ∃ p, (try_catch use_libpals (λ _, close_libpals);; pals_finalize_destructor) (set_handle found (preload_start (MkSys env t))) =
    (Ok tt, p) ∧ unloaded p ∧
  pals_calls (sys_trace (pl_sys p)) =
    pals_calls t ++ (if bool_decide (is_Some found) && all_there t functions then use (t ++ map looking_up functions) else []).
Proof.
  unfold use_libpals, load_symbol, enter_barrier, pals_finalize_destructor, close_libpals, on_process, zoom, try_catch,
    sys_emit, modify, get, mbind, M_bind, set_handle, preload_start.
  destruct found as [h|].
  2: { cbn. eexists. split; [reflexivity|]. split; [done|]. cbn. by rewrite app_nil_r. }
  unfold use. cbn. unfold looking_up. rewrite <-!app_assoc. cbn [app].
  repeat (match goal with
    | Hs : ld_symbol ?t ?f = _ |- context [ld_symbol ?t ?f] => rewrite Hs
    | He : ld_error ?t = _ |- context [ld_error ?t] => rewrite He
    | |- context [ld_symbol ?t ?f] => destruct (ld_symbol t f) eqn:?
    | |- context [ld_error ?t] => destruct (ld_error t) eqn:?
    | |- context [pals_init2_result ?t] => destruct (pals_init2_result t) as [rc state]
    | |- context [bool_decide (?rc = 0)] => destruct (bool_decide (rc = 0))
    end; cbn; rewrite <-?app_assoc; cbn [app]).
  all: eexists; split; [reflexivity|]; split; [done|]; cbn [pl_sys sys_trace];
    rewrite <-?app_assoc; cbn [app]; rewrite pals_calls_app; f_equal; unfold pals_calls; cbn [List.filter]; eval_calls; done.
Qed.

(** C28 A process of a job, from its start to its end.  libpals is looked for by its name, then in the
    directory that pkg-config names and in the usual ones, up to the first that can be opened.  If
    one can be, the three functions are in it and dlerror reports nothing after the search for any
    of them (by its documentation it may report an earlier place that could not be opened), libpals
    is initialised, the barrier is entered, once, with what that call gave if it succeeded, and
    libpals is finalized at the end with the same; in every other case none of it is called.  No
    error leaves the constructor or the destructor, and nothing stays loaded. *)
Theorem barrier_entered (env : gmap string string) (t : list sys_event) :
  pk_pipe = true →
  ∃ p, (pals_init_constructor;; pals_finalize_destructor) (preload_start (MkSys env t)) = (Ok tt, p) ∧ unloaded p ∧
  pals_calls (sys_trace (pl_sys p)) =
    pals_calls t ++ (if usable t then use (t ++ searching opens ++ map looking_up functions) else []).
Proof.
  intros Hp.
  assert (∃ e, restore_preload (MkSys env t) = (Ok tt, MkSys e t)) as (e & E1).
  { unfold restore_preload, sys_unsetenv, System.getenv, sys_setenv, modify, gets, mbind, M_bind. cbn.
    destruct (delete _ _ !! SAVE_LD_PRELOAD); cbn; by eexists. }
  pose proof (libpals_first opens Hopens e t Hp) as El.
  destruct (loaded_run (List.find opens ("libpals.so" :: places)) e (t ++ searching opens)) as (p & Er & Hu & Hc).
  exists p. split_and!; [|done|].
  - rewrite <-Er. unfold pals_init_constructor, on_process, zoom, preload_start, mbind, M_bind, modify.
    cbn [pl_sys]. rewrite E1. cbn [pl_sys]. rewrite El. done.
  - rewrite Hc, pals_calls_app, searching_quiet, app_nil_r. unfold usable. rewrite <-app_assoc.
    replace (existsb opens ("libpals.so" :: places)) with (bool_decide (is_Some (List.find opens ("libpals.so" :: places)))); [done|].
    apply eq_true_iff_eq. rewrite bool_decide_eq_true, existsb_exists. split.
    + intros [x Hx]. exists x. by apply List.find_some.
    + intros (x & Hin & Hx). destruct (List.find opens _) eqn:Ef; [by eexists|].
      by rewrite (List.find_none _ _ Ef x Hin) in Hx.
Qed.
End Barrier.

(** ** Examples *)

Definition demo_opens (path : string) : bool := bool_decide (path = "/opt/pals/lib/libpals.so").

(** dlerror as it is documented: what could not be opened before the first search is reported. *)
Definition demo_error (t : list sys_event) : option string :=
  match List.filter (λ e, match e with SCall "dlsym" _ => true | _ => false end) t with
  | [_] => if existsb (λ e, match e with SCall "dlopen" [path] => negb (demo_opens path) | _ => false end) t
           then Some "libpals.so: cannot open shared object file" else None
  | _ => None
  end.

Definition demo_linker (error : list sys_event → option string) : Preloading := {|
  ld_open _ path := demo_opens path;
  ld_symbol _ _ := true;
  ld_error := error;
  pk_pipe := true;
  pk_fork := true;
  pk_reads := [RData "/opt/pals"; RInterrupted; RData ("/lib" +:+ nl)];
  pk_waits := [WStatus 0];
  pk_sigaction := true;
  pals_init2_result _ := (0, Some 7)
|}.

#[local] Instance demo_preloading : Preloading := demo_linker (λ _, None).

(** The same library with a linker that forgets an error at the next call, and with one that
    reports it, as documented. *)
Example barrier_entered_witness :
  (∃ p, (@pals_init_constructor demo_preloading;; pals_finalize_destructor) (preload_start (MkSys ∅ [])) = (Ok tt, p) ∧ unloaded p ∧
   pals_calls (sys_trace (pl_sys p)) = [SCall "pals_init2" []; SCall "pals_start_barrier" ["7"]; SCall "pals_fini" ["7"]]) ∧
  ∃ p, (@pals_init_constructor (demo_linker demo_error);; pals_finalize_destructor) (preload_start (MkSys ∅ [])) = (Ok tt, p) ∧ unloaded p ∧
   pals_calls (sys_trace (pl_sys p)) = [].
Proof.
  split.
  - destruct (@barrier_entered demo_preloading demo_opens (λ _ _, eq_refl) ∅ [] eq_refl) as (p & Hr & Hu & Hc).
    exists p. split; [exact Hr|]. split; [exact Hu|].
    assert (@usable demo_preloading demo_opens [] = true) as E by (vm_compute; reflexivity). rewrite E in Hc. exact Hc.
  - destruct (@barrier_entered (demo_linker demo_error) demo_opens (λ _ _, eq_refl) ∅ [] eq_refl) as (p & Hr & Hu & Hc).
    exists p. split; [exact Hr|]. split; [exact Hu|].
    assert (@usable (demo_linker demo_error) demo_opens [] = false) as E by (vm_compute; reflexivity). rewrite E in Hc. exact Hc.
Defined.

Example preload_restored_witness :
  let args := [Plain "-n"; Plain "4"; Parted "/opt/x.so"; Plain "a.out"] in
  let env := {["LD_PRELOAD" := "/opt/cti/lib/libctipreloadpals.so:/opt/x.so"; SAVE_LD_PRELOAD := "/opt/x.so"; "HOME" := "/home"]} in
  let e := sys_env (pl_sys (pals_init_constructor (preload_start (MkSys env []))).2) in
  e !! "LD_PRELOAD" = Some "/opt/x.so" ∧ e !! SAVE_LD_PRELOAD = None ∧ e !! "HOME" = Some "/home".
Proof.
  intros args env e.
  destruct (preload_restored "/opt/cti" "/opt/cti/lib/libctipreloadpals.so" args ∅ (preload_start (MkSys env []))) as (_ & Hl & Hs & Ho).
  - reflexivity.
  - discriminate.
  - repeat (apply Forall_cons_2; [repeat split; reflexivity|]). apply Forall_nil_2.
  - repeat (apply Forall_cons_2; [repeat split; reflexivity|]). apply Forall_nil_2.
  - reflexivity.
  - intros name [-> | ->]; reflexivity.
  - split; [exact Hl|]. split; [exact Hs|]. exact (Ho "HOME" ltac:(discriminate) ltac:(discriminate)).
Defined.
