(* ===== verification/FEOps.v ===== *)
(** * The operations of one workload manager (tables in src/src/frontend/cti_fe_iface.cpp)

    [cti_open_ops] gives a client the table of the workload manager in use: registering jobs that
    run already, at once or by waiting for them, asking for identifiers, submitting scripts.  What
    the frontends do is the class [WlmOps]. *)

From S2P Require Import Prelude Split Argv Host Archive Manifest Session Wire Launch Daemon Handlers FEIface Registry Iface IfaceProofs.

(** Jobs by the identifiers of each workload manager, and what only its frontend can do. *)
Class WlmOps `{Kernel} `{Procs} `{MPIR} `{!Wlm} : Type := {
  (** the workload managers the library is built for *)
  ops_built : Z → bool;
  ops_malloc : bool;
  (** the type of an application object, by workload manager *)
  ops_app_type : aptr → Z;
  alps_job : Z → wl_job;
  slurm_job : Z → Z → wl_job;
  pals_job : string → wl_job;
  ssh_job : Z → wl_job;
  ssh_remote_job : string → Z → wl_job;
  flux_job : string → wl_job;
  localhost_job : string → wl_job;
  alps_getApid : Z → M daemon Z;
  (** the application and the process number of aprun *)
  alps_aprunProc : aptr → Z * Z;
  alps_getAlpsOverlapOrdinal : aptr → res Z;
  (** a job and a step *)
  slurm_getSrunInfo : Z → M daemon (Z * Z);
  slurm_srunInfo : aptr → Z * Z;
  slurm_submitBatchScript : string → option (list string) → option (list string) → M daemon (Z * Z);
  pals_getApid : Z → M daemon string;
  pals_submitJobScript : string → option (list string) → option (list string) → M daemon string;
  pals_launchBarrierNonMpi : launch_args → M daemon Z;
  flux_getJobid : Z → M daemon string
}.

Section Operations.
Context `{Kernel} `{ReqSocket} `{Procs} `{MPIR} `{Host} `{Tar} `{!Wlm} `{!WlmOps}.

(** [CHECK_ALPS_RUN_SAFELY] and the like: without support for the workload manager the exception
    is outside of [runSafely]. *)
Definition check_run_safely {A : Type} (wlm : Z) (name caller : string) (func : M fe A) (onError : A) : M fe A :=
  if ops_built wlm then runSafely caller func onError
  else throw (name +:+ " support was not compiled into this version of CTI").

Definition frontend_call {A : Type} (m : M daemon A) : M fe A := zoom f_daemon set_daemon m.

Definition downcastApp (wlm : Z) (a : aptr) : M fe () :=
  if ops_app_type a =? wlm then mret tt else throw "Provided appId does not belong to wlm specific funciton.".

Definition register_body (wlm : Z) (job : wl_job) : M fe Z :=
  downcastFE wlm;; wp ← fe_addApp (wl_registerJob job); trackApp wp.

(** [malloc] of the result. *)
Definition allocated {A : Type} (m : M fe A) : M fe (option A) :=
  if ops_malloc then a ← m; mret (Some a) else throw "malloc failed.".

(** ** ALPS *)

Definition _cti_alps_registerApid (apid : Z) : M fe Z :=
  check_run_safely 4 "ALPS" "_cti_alps_registerApid" (register_body 4 (alps_job apid)) APP_ERROR.

Definition _cti_alps_getApid (aprunPid : Z) : M fe Z :=
  check_run_safely 4 "ALPS" "_cti_alps_getApid" (downcastFE 4;; frontend_call (alps_getApid aprunPid)) 0.

Definition _cti_alps_getAprunInfo (appId : Z) : M fe (option (Z * Z)) :=
  check_run_safely 4 "ALPS" "_cti_alps_getAprunInfo"
    (inst;; ap ← getApp appId; downcastApp 4 ap;; allocated (mret (alps_aprunProc ap))) None.

Definition _cti_alps_getAlpsOverlapOrdinal (appId : Z) : M fe Z :=
  check_run_safely 4 "ALPS" "_cti_alps_getAlpsOverlapOrdinal"
    (inst;; ap ← getApp appId; downcastApp 4 ap;; lift (alps_getAlpsOverlapOrdinal ap)) (-1).

(** ** Slurm *)

Definition _cti_slurm_getJobInfo (srunPid : Z) : M fe (option (Z * Z)) :=
  runSafely "_cti_slurm_getJobInfo" (downcastFE 2;; allocated (frontend_call (slurm_getSrunInfo srunPid))) None.

Definition _cti_slurm_registerJobStep (job_id step_id : Z) : M fe Z :=
  runSafely "_cti_slurm_registerJobStep" (register_body 2 (slurm_job job_id step_id)) APP_ERROR.

Definition _cti_slurm_registerJobStepWait (fuel : nat) (job_id step_id timeout_sec : Z) : M fe Z :=
  wait_loop fuel timeout_sec 0 (_cti_slurm_registerJobStep job_id step_id).

Definition _cti_slurm_getSrunInfo (appId : Z) : M fe (option (Z * Z)) :=
  runSafely "_cti_slurm_getSrunInfo"
    (inst;; ap ← getApp appId; downcastApp 2 ap;; allocated (mret (slurm_srunInfo ap))) None.

Definition _cti_slurm_submitBatchScript (script_path : string) (launcher_args env_list : option (list string)) : M fe (option (Z * Z)) :=
  runSafely "_cti_slurm_submitBatchScript"
    (downcastFE 2;; allocated (frontend_call (slurm_submitBatchScript script_path launcher_args env_list))) None.

(** ** PALS *)

Definition strdup (s : string) : option string := Some (c_str s).

Definition _cti_pals_getApid (launcherPid : Z) : M fe (option string) :=
  check_run_safely 5 "PALS" "_cti_pals_getApid"
    (downcastFE 5;; s ← frontend_call (pals_getApid launcherPid); mret (strdup s)) None.

Definition _cti_pals_registerApid (job_or_apid : string) : M fe Z :=
  check_run_safely 5 "PALS" "_cti_pals_registerApid" (register_body 5 (pals_job job_or_apid)) APP_ERROR.

Definition _cti_pals_registerApidWait (fuel : nat) (job_or_apid : string) (timeout_sec : Z) : M fe Z :=
  wait_loop fuel timeout_sec 0 (_cti_pals_registerApid job_or_apid).

Definition _cti_pals_submitJobScript (script_path : string) (launcher_args env_list : option (list string)) : M fe (option string) :=
  check_run_safely 5 "PALS" "_cti_pals_submitJobScript"
    (downcastFE 5;; s ← frontend_call (pals_submitJobScript script_path launcher_args env_list); mret (strdup s)) None.

Definition _cti_pals_launchAppBarrierNonMpi (launcher_argv : list string) (stdout_fd stderr_fd : Z)
    (input_file chdir_path : option string) (env_list : option (list string)) : M fe Z :=
  check_run_safely 5 "PALS" "_cti_pals_launchAppBarrierNonMpi"
    (downcastFE 5;;
     fixedEnvList ← lift (fixLaunchEnvironment wl_getGlobalLdPreload env_list);
     lift (checkLaunchArguments stdout_fd stderr_fd input_file chdir_path (until_null fixedEnvList));;
     wp ← fe_addApp (pals_launchBarrierNonMpi
            (MkLaunch launcher_argv stdout_fd stderr_fd input_file chdir_path (until_null fixedEnvList)));
     trackApp wp) APP_ERROR.

(** ** SSH, Flux and one host *)

Definition _cti_ssh_registerJob (launcher_pid : Z) : M fe Z :=
  runSafely "_cti_ssh_registerJob" (register_body 3 (ssh_job launcher_pid)) APP_ERROR.

Definition _cti_ssh_registerRemoteJob (hostname : string) (launcher_pid : Z) : M fe Z :=
  runSafely "_cti_ssh_registerRemoteJob" (register_body 3 (ssh_remote_job hostname launcher_pid)) APP_ERROR.

Definition _cti_ssh_registerLauncherPid (launcher_pid : Z) : M fe Z :=
  runSafely "_cti_ssh_registerLauncherPid" (register_body 3 (ssh_job launcher_pid)) APP_ERROR.

Definition _cti_flux_registerJob (job_id : string) : M fe Z :=
  check_run_safely 6 "Flux" "_cti_flux_registerJob" (register_body 6 (flux_job job_id)) APP_ERROR.

Definition _cti_flux_registerJobWait (fuel : nat) (job_id : string) (timeout_sec : Z) : M fe Z :=
  wait_loop fuel timeout_sec 0 (_cti_flux_registerJob job_id).

Definition _cti_flux_getJobid (launcher_pid : Z) : M fe (option string) :=
  check_run_safely 6 "Flux" "_cti_flux_getJobid"
    (downcastFE 6;; s ← frontend_call (flux_getJobid launcher_pid); mret (strdup s)) None.

Definition _cti_localhost_registerJob (job_id : string) : M fe Z :=
  runSafely "_cti_localhost_registerJob" (register_body 7 (localhost_job job_id)) APP_ERROR.

(** ** The tables *)

Inductive wlm_op : Type :=
| AlpsRegisterApid (apid : Z) | AlpsGetApid (pid : Z) | AlpsGetAprunInfo (id : Z) | AlpsGetOverlapOrdinal (id : Z)
| SlurmGetJobInfo (pid : Z) | SlurmRegisterJobStep (job step : Z) | SlurmGetSrunInfo (id : Z)
| SlurmSubmitBatchScript (path : string) (args env : option (list string))
| SlurmRegisterJobStepWait (fuel : nat) (job step timeout : Z)
| PalsGetApid (pid : Z) | PalsRegisterApid (id : string)
| PalsSubmitJobScript (path : string) (args env : option (list string))
| PalsLaunchAppBarrierNonMpi (args : list string) (out err : Z) (input dir : option string) (env : option (list string))
| PalsRegisterApidWait (fuel : nat) (id : string) (timeout : Z)
| SshRegisterJob (pid : Z) | SshRegisterRemoteJob (hostname : string) (pid : Z) | SshRegisterLauncherPid (pid : Z)
| FluxRegisterJob (id : string) | FluxGetJobid (pid : Z) | FluxRegisterJobWait (fuel : nat) (id : string) (timeout : Z)
| LocalhostRegisterJob (id : string).

(** The table that an operation is in. *)
Definition op_table (o : wlm_op) : Z :=
  match o with
  | AlpsRegisterApid _ | AlpsGetApid _ | AlpsGetAprunInfo _ | AlpsGetOverlapOrdinal _ => 4
  | SlurmGetJobInfo _ | SlurmRegisterJobStep _ _ | SlurmGetSrunInfo _ | SlurmSubmitBatchScript _ _ _
  | SlurmRegisterJobStepWait _ _ _ _ => 2
  | PalsGetApid _ | PalsRegisterApid _ | PalsSubmitJobScript _ _ _ | PalsLaunchAppBarrierNonMpi _ _ _ _ _ _
  | PalsRegisterApidWait _ _ _ => 5
  | SshRegisterJob _ | SshRegisterRemoteJob _ _ | SshRegisterLauncherPid _ => 3
  | FluxRegisterJob _ | FluxGetJobid _ | FluxRegisterJobWait _ _ _ => 6
  | LocalhostRegisterJob _ => 7
  end.

Definition run_op (o : wlm_op) : M fe () :=
  match o with
  | AlpsRegisterApid apid => ignore_result (_cti_alps_registerApid apid)
  | AlpsGetApid pid => ignore_result (_cti_alps_getApid pid)
  | AlpsGetAprunInfo id => ignore_result (_cti_alps_getAprunInfo id)
  | AlpsGetOverlapOrdinal id => ignore_result (_cti_alps_getAlpsOverlapOrdinal id)
  | SlurmGetJobInfo pid => ignore_result (_cti_slurm_getJobInfo pid)
  | SlurmRegisterJobStep j s => ignore_result (_cti_slurm_registerJobStep j s)
  | SlurmGetSrunInfo id => ignore_result (_cti_slurm_getSrunInfo id)
  | SlurmSubmitBatchScript p a e => ignore_result (_cti_slurm_submitBatchScript p a e)
  | SlurmRegisterJobStepWait f j s t => ignore_result (_cti_slurm_registerJobStepWait f j s t)
  | PalsGetApid pid => ignore_result (_cti_pals_getApid pid)
  | PalsRegisterApid id => ignore_result (_cti_pals_registerApid id)
  | PalsSubmitJobScript p a e => ignore_result (_cti_pals_submitJobScript p a e)
  | PalsLaunchAppBarrierNonMpi a o e i d v => ignore_result (_cti_pals_launchAppBarrierNonMpi a o e i d v)
  | PalsRegisterApidWait f id t => ignore_result (_cti_pals_registerApidWait f id t)
  | SshRegisterJob pid => ignore_result (_cti_ssh_registerJob pid)
  | SshRegisterRemoteJob h pid => ignore_result (_cti_ssh_registerRemoteJob h pid)
  | SshRegisterLauncherPid pid => ignore_result (_cti_ssh_registerLauncherPid pid)
  | FluxRegisterJob id => ignore_result (_cti_flux_registerJob id)
  | FluxGetJobid pid => ignore_result (_cti_flux_getJobid pid)
  | FluxRegisterJobWait f id t => ignore_result (_cti_flux_registerJobWait f id t)
  | LocalhostRegisterJob id => ignore_result (_cti_localhost_registerJob id)
  end.

(** Whatever a client may do: entry points, operations of the tables, and changes of the daemon. *)
Inductive client_step : fe → fe → Prop :=
| client_api s s' : api_step s s' → client_step s s'
| client_op o s : client_step s (run_op o s).2.
End Operations.
