(* ===== verification/FEOpsProofs.v ===== *)
(** * Theorems about the operations of one workload manager

    They keep the invariant of the C interface and let no exception out, and an operation of a table
    that is not in use is refused. *)

From S2P Require Import Prelude Split Argv Host Archive Manifest Session Transfer Wire Launch Daemon Handlers FEIface AppRegistry DaemonExamples Registry Iface IfaceProofs IfaceFuncs IfaceExamples FEOps.

Section Operations.
Context `{Kernel} `{ReqSocket} `{Procs} `{MPIR} `{Host} `{Tar} `{!Wlm} `{!WlmOps}.

#[local] Hint Resolve keep_inst keep_daemon keep_getApp keep_downcastFE : cti.

Lemma keep_check (s0 : fe) (Hs0 : iface_ok s0) {A : Type} (wlm : Z) (name caller : string) (m : M fe A) (e : A) :
  preserves (from s0) m → preserves (from s0) (check_run_safely wlm name caller m e).
Proof. intros Hm. unfold check_run_safely. case_match; [by apply keep_runSafely|auto with cti]. Qed.

Lemma keep_register_body (s0 : fe) (Hs0 : iface_ok s0) (wlm : Z) (job : wl_job) : preserves (from s0) (register_body wlm job).
Proof. apply preserves_bind; [by apply keep_downcastFE|]. intros _. by apply keep_new_app. Qed.

Lemma keep_app_op (s0 : fe) (Hs0 : iface_ok s0) {A : Type} (wlm : Z) (id : Z) (f : aptr → M fe A) :
  (∀ a, preserves (from s0) (f a)) → preserves (from s0) (inst;; ap ← getApp id; downcastApp wlm ap;; f ap).
Proof.
  intros Hf. apply preserves_bind; [by apply keep_inst|]. intros _. apply preserves_bind; [by apply keep_getApp|].
  intros a. apply preserves_bind; [|done]. unfold downcastApp. case_match; auto with cti.
Qed.

Lemma keep_frontend_call (s0 : fe) (Hs0 : iface_ok s0) {A : Type} (m : M daemon A) : preserves (from s0) (frontend_call m).
Proof. by apply keep_daemon. Qed.

Lemma keep_allocated (s0 : fe) {A : Type} (m : M fe A) : preserves (from s0) m → preserves (from s0) (allocated m).
Proof. intros Hm. unfold allocated. case_match; [|auto with cti]. apply preserves_bind; auto with cti. Qed.

Lemma keep_wlm_call (s0 : fe) (Hs0 : iface_ok s0) {A B : Type} (wlm : Z) (m : M daemon A) (f : A → M fe B) :
  (∀ a, preserves (from s0) (f a)) → preserves (from s0) (downcastFE wlm;; a ← frontend_call m; f a).
Proof.
  intros Hf. apply preserves_bind; [by apply keep_downcastFE|]. intros _.
  apply preserves_bind; [by apply keep_frontend_call|done].
Qed.

Lemma keep_op (s0 : fe) (Hs0 : iface_ok s0) (o : wlm_op) : preserves (from s0) (run_op o).
Proof.
  destruct o; cbn [run_op]; unfold ignore_result;
    (apply preserves_bind; [|intros ?; auto with cti]);
    try (apply keep_wait_loop; [done|]);
    first [apply keep_check; [done|]|apply keep_runSafely; [done|]];
    try (by apply keep_register_body);
    try (apply keep_app_op; [done|]; intros a; try apply keep_allocated; by auto with cti);
    try (apply keep_wlm_call; [done|]; by auto with cti);
    (apply preserves_bind; [by apply keep_downcastFE|intros _]);
    try (by apply keep_allocated, keep_frontend_call); try (by apply keep_frontend_call).
  apply preserves_bind; [auto with cti|intros l]. apply preserves_bind; [auto with cti|intros _]. by apply keep_new_app.
Qed.

Lemma client_from (s0 s s' : fe) : iface_ok s0 → from s0 s → rtc client_step s s' → from s0 s'.
Proof.
  intros Hok Hs Hr. revert Hs. induction Hr as [|s s1 s' Hstep _ IH]; [done|].
  intros Hs. apply IH. destruct Hstep as [s s1 Ha|o s].
  - apply (api_from_step s0 s s1 Hok Hs). by apply rtc_once.
  - by apply keep_op.
Qed.

(** C8 The objects behind the C interface.  Whatever entry points and operations of tables a client
    calls, with whatever arguments, and whatever the daemon does, applications, sessions and
    manifests form a tree, every session is in a state of the transfer layer, and every handle is
    of an object that was made. *)
Theorem client_invariant (d : daemon) (s : fe) : rtc client_step (new_fe d) s → iface_ok s.
Proof.
  intros Hr. apply (client_from (new_fe d) (new_fe d) s (new_fe_ok d)); [|done].
  split; [apply new_fe_ok|apply iface_le_refl].
Qed.

Lemma quiet_check {A : Type} (wlm : Z) (name caller : string) (m : M fe A) (e : A) :
  ops_built wlm = true → quiet_api (check_run_safely wlm name caller m e).
Proof. intros Hb. unfold check_run_safely. rewrite Hb. apply quiet_runSafely. Qed.

(** No exception leaves an operation of a workload manager that the library is built for. *)
Theorem op_never_throws (o : wlm_op) (s : fe) :
  ops_built (op_table o) = true → (run_op o s).1 = Ok tt ∨ ∃ why, (run_op o s).1 = Undef why.
Proof.
  intros Hb. assert (quiet_api (run_op o)) as Hq.
  { destruct o; cbn [run_op]; refine (quiet_ignore _ _); try (refine (quiet_wait_loop _ _ _ _ _));
      first [exact (quiet_runSafely _ _ _)|by apply quiet_check]. }
  specialize (Hq s). destruct (run_op o s) as [[[]|what|why] s']; [by left| |right; by exists why].
  by destruct (Hq what s').
Qed.

(** The operations that ask the frontend in use, and do not wait, by their names. *)
Definition op_name (o : wlm_op) : option string :=
  match o with
  | AlpsRegisterApid _ => Some "_cti_alps_registerApid"
  | AlpsGetApid _ => Some "_cti_alps_getApid"
  | SlurmGetJobInfo _ => Some "_cti_slurm_getJobInfo"
  | SlurmRegisterJobStep _ _ => Some "_cti_slurm_registerJobStep"
  | SlurmSubmitBatchScript _ _ _ => Some "_cti_slurm_submitBatchScript"
  | PalsGetApid _ => Some "_cti_pals_getApid"
  | PalsRegisterApid _ => Some "_cti_pals_registerApid"
  | PalsSubmitJobScript _ _ _ => Some "_cti_pals_submitJobScript"
  | PalsLaunchAppBarrierNonMpi _ _ _ _ _ _ => Some "_cti_pals_launchAppBarrierNonMpi"
  | SshRegisterJob _ => Some "_cti_ssh_registerJob"
  | SshRegisterRemoteJob _ _ => Some "_cti_ssh_registerRemoteJob"
  | SshRegisterLauncherPid _ => Some "_cti_ssh_registerLauncherPid"
  | FluxRegisterJob _ => Some "_cti_flux_registerJob"
  | FluxGetJobid _ => Some "_cti_flux_getJobid"
  | LocalhostRegisterJob _ => Some "_cti_localhost_registerJob"
  | _ => None
  end.

Lemma runSafely_fails {A : Type} (caller what : string) (m : M fe A) (e : A) (s : fe) :
  m s = (Throw what, s) → runSafely caller m e s = (Ok e, set_err_str (caller +:+ ": " +:+ c_str what) s).
Proof. intros E. unfold runSafely, try_catch. by rewrite E. Qed.

Lemma downcast_fails {A : Type} (wlm : Z) (m : M fe A) (s : fe) :
  wl_inst = None → wl_getWLMType ≠ wlm →
  (downcastFE wlm;; m) s = (Throw ("Invalid call. " +:+ cti_wlm_type_toString wl_getWLMType +:+ " not in use."), s).
Proof.
  intros Hi Hw. unfold downcastFE, inst, mbind, M_bind. rewrite Hi. cbn.
  by destruct (Z.eqb_spec wl_getWLMType wlm).
Qed.

(** An operation of another workload manager than the one in use is refused: the error string names
    the operation and the workload manager in use, and nothing else has changed. *)
Theorem op_of_other_refused (o : wlm_op) (name : string) (s : fe) :
  wl_inst = None → ops_built (op_table o) = true → op_name o = Some name → wl_getWLMType ≠ op_table o →
  run_op o s =
  (Ok tt, set_err_str (name +:+ ": " +:+ c_str ("Invalid call. " +:+ cti_wlm_type_toString wl_getWLMType +:+ " not in use.")) s).
Proof.
  intros Hi Hb Hn Hw.
  assert (∀ (A : Type) (m : M fe A) (e : A), runSafely name (downcastFE (op_table o);; m) e s =
    (Ok e, set_err_str (name +:+ ": " +:+ c_str ("Invalid call. " +:+ cti_wlm_type_toString wl_getWLMType +:+ " not in use.")) s)) as Hr.
  { intros A m e. apply runSafely_fails. by apply downcast_fails. }
  assert (∀ (A : Type) (wlm : Z) (n : string) (m : M fe A) (e : A), ops_built wlm = true →
    check_run_safely wlm n name m e = runSafely name m e) as Hc.
  { intros A wlm n m e E. unfold check_run_safely. by rewrite E. }
  destruct o; cbn [op_name op_table] in *; try discriminate Hn; injection Hn as <-; cbn [run_op];
    unfold ignore_result; (erewrite bind_run_Ok; [reflexivity|]);
    first [apply Hr|etransitivity; [exact (f_equal (λ m, m s) (Hc _ _ _ _ _ Hb))|apply Hr]].
Qed.
End Operations.

(** ** Examples *)

#[local] Instance demo_ops : WlmOps := {|
  ops_built _ := true;
  ops_malloc := true;
  ops_app_type _ := 2;
  alps_job apid := apid;
  slurm_job job step := 1000 + job + step;
  pals_job _ := 1;
  ssh_job pid := pid;
  ssh_remote_job _ pid := pid;
  flux_job _ := 1;
  localhost_job _ := 1;
  alps_getApid _ := mret 0;
  alps_aprunProc _ := (0, 0);
  alps_getAlpsOverlapOrdinal _ := Ok 0;
  slurm_getSrunInfo _ := mret (77, 0);
  slurm_srunInfo _ := (77, 0);
  slurm_submitBatchScript _ _ _ := mret (78, 0);
  pals_getApid _ := mret "";
  pals_submitJobScript _ _ _ := mret "";
  pals_launchBarrierNonMpi _ := mret 0;
  flux_getJobid _ := mret "" |}.

(** A job step that is registered, and a manifest for it. *)
Definition fe_step : fe := (run_op (SlurmRegisterJobStep 77 0) fe0).2.

Lemma fe_step_reachable : rtc client_step (new_fe demo_empty) (run_all [CreateSession 1; CreateManifest_ 1] fe_step).
Proof.
  eapply rtc_l; [apply (client_op (SlurmRegisterJobStep 77 0))|].
  eapply rtc_l; [apply client_api, (step_api (CreateSession 1))|].
  eapply rtc_l; [apply client_api, (step_api (CreateManifest_ 1))|]. apply rtc_refl.
Qed.

Example client_invariant_witness :
  (cti_manifestIsValid 1 (run_all [CreateSession 1; CreateManifest_ 1] fe_step)).1 = Ok true ∧
  iface_ok (run_all [CreateSession 1; CreateManifest_ 1] fe_step).
Proof. split; [vm_compute; reflexivity|]. exact (client_invariant demo_empty _ fe_step_reachable). Defined.

Example op_of_other_refused_witness :
  run_op (FluxRegisterJob "f1") fe_step =
  (Ok tt, set_err_str "_cti_flux_registerJob: Invalid call. slurm not in use." fe_step).
Proof.
  exact (op_of_other_refused (FluxRegisterJob "f1") "_cti_flux_registerJob" fe_step eq_refl eq_refl eq_refl
    ltac:(discriminate)).
Defined.

Example op_never_throws_witness : (run_op (SlurmGetJobInfo 5) fe0).1 = Ok tt ∨ ∃ why, (run_op (SlurmGetJobInfo 5) fe0).1 = Undef why.
Proof. apply (op_never_throws (SlurmGetJobInfo 5) fe0). reflexivity. Defined.
