(* ===== verification/DaemonStart.v ===== *)
(** * How the frontend daemon is started (FE_daemon::initialize in
    src/src/frontend/daemon/cti_fe_daemon_iface.cpp, FdPair in src/src/useful/cti_execvp.hpp and the
    beginning of main in src/src/frontend/daemon/cti_fe_daemon.cpp)

    A client makes two pairs of sockets and forks; the child closes what it does not need and becomes
    the daemon, which finds the numbers of its descriptors among its arguments.  Descriptors of a
    process are a table from numbers to what they are open on. *)

From stdpp Require Import relations.
From S2P Require Import Prelude Split Argv BeOptions.

(** ** Descriptors *)

Abbreviation table := (gmap Z string).

(** The lowest number that is free. *)
Definition lowest (t : table) : Z :=
  default (Z.of_nat (size t)) (List.find (λ n, bool_decide (t !! n = None)) (seqZ 0 (Z.of_nat (size t)))).

Definition fd_open (what : string) : M table Z :=
  t ← get; let n := lowest t in modify (insert n what);; mret n.

Definition fd_close (n : Z) : M table () := modify (delete n).

(** A descriptor that is not open is not duplicated. *)
Definition fd_dup2 (source target : Z) : M table () :=
  modify (λ t, match t !! source with Some what => <[target := what]> t | None => t end).

(** ** Pairs of descriptors *)

Record FdPair : Type := MkPair { readOpened : bool; writeOpened : bool; read_fd : Z; write_fd : Z }.

Definition new_pair : FdPair := MkPair false false (-1) (-1).

Record pair_state : Type := MkPairState { ps_pair : FdPair; ps_table : table }.

Definition on_table {A : Type} (m : M table A) : M pair_state A := zoom ps_table (λ t s, MkPairState (ps_pair s) t) m.

Definition set_pair (p : FdPair) (s : pair_state) : pair_state := MkPairState p (ps_table s).

(** [pipe] and [socketpair]: whether the call works, and what the ends are. *)
Definition open_pair (works : bool) (what : string) : M pair_state () :=
  s ← get;
  if readOpened (ps_pair s) || writeOpened (ps_pair s) then throw "read or write pipe already opened"
  else if negb works then throw "Pipe error"
  else
    r ← on_table (fd_open (what +:+ ", reading"));
    w ← on_table (fd_open (what +:+ ", writing"));
    modify (set_pair (MkPair true true r w)).

(** A text that is thrown is no [std::exception]. *)
Definition closeRead : M pair_state () :=
  s ← get; let p := ps_pair s in
  if negb (readOpened p) then undef "throws a text that no handler takes"
  else on_table (fd_close (read_fd p));; modify (set_pair (MkPair false (writeOpened p) (read_fd p) (write_fd p))).

Definition closeWrite : M pair_state () :=
  s ← get; let p := ps_pair s in
  if negb (writeOpened p) then undef "throws a text that no handler takes"
  else on_table (fd_close (write_fd p));; modify (set_pair (MkPair (readOpened p) false (read_fd p) (write_fd p))).

(** The destructor *)
Definition FdPair_delete : M pair_state () :=
  s ← get; let p := ps_pair s in
  (if readOpened p then on_table (fd_close (read_fd p)) else mret tt);;
  (if writeOpened p then on_table (fd_close (write_fd p)) else mret tt).

Inductive pair_op : Type := OpOpen (works : bool) (what : string) | OpCloseRead | OpCloseWrite.

Definition run_pair_op (o : pair_op) : M pair_state () :=
  match o with
  | OpOpen works what => try_catch (open_pair works what) (λ _, mret tt)
  | OpCloseRead => closeRead
  | OpCloseWrite => closeWrite
  end.

(** The descriptors that a run of a program leaves: its output is read through a buffer that owns
    the end for reading, which the pair owns as well. *)
Definition Execvp_delete : M pair_state () :=
  s ← get; on_table (fd_close (read_fd (ps_pair s)));; FdPair_delete.

(** The sockets that the constructor of [FE_daemon] makes. *)
Definition FE_sockets (works : bool) : M table (FdPair * FdPair) := λ t,
  match open_pair works "requests" (MkPairState new_pair t) with
  | (Ok _, s1) =>
      match open_pair works "responses" (MkPairState new_pair (ps_table s1)) with
      | (Ok _, s2) => (Ok (ps_pair s1, ps_pair s2), ps_table s2)
      | (Throw e, s2) => (Throw e, ps_table s2)
      | (Undef e, s2) => (Undef e, ps_table s2)
      end
  | (Throw e, s1) => (Throw e, ps_table s1)
  | (Undef e, s1) => (Undef e, ps_table s1)
  end.

(** ** The child *)

(** Its descriptors, when [CTI_DEBUG] is set or not. *)
Definition child_descriptors (req resp : FdPair) (debug : bool) (max_fd : Z) : M table () :=
  fd_close (write_fd req);; fd_close (read_fd resp);;
  null ← fd_open "/dev/null"; fd_dup2 null 0;;
  (if debug then mret tt
   else null ← fd_open "/dev/null"; fd_dup2 null 1;; null ← fd_open "/dev/null"; fd_dup2 null 2);;
  let min_fd := Z.max (read_fd req) (write_fd resp) + 1 in
  for_each (seqZ min_fd (max_fd - min_fd)) fd_close.

(** What [getrlimit] gives, if anything; without a bound 1024. *)
Definition fd_limit (rlim_max : option (option Z)) : res Z :=
  match rlim_max with
  | None => Throw "getrlimit failed."
  | Some None => Ok 1024
  | Some (Some n) => Ok n
  end.

Definition child_argv (fe_daemon_bin : string) (req resp : FdPair) : res argv :=
  v0 ← outgoing_new fe_daemon_bin;
  v1 ← outgoing_add_param CTIFEDaemonArgv.ReadFD (to_string (read_fd req)) v0;
  outgoing_add_param CTIFEDaemonArgv.WriteFD (to_string (write_fd resp)) v1.

(** ** The daemon *)

Definition long_of (o : gnu_option) : list long_option :=
  match opt_name o with
  | Some name => [LongOption name (opt_has_arg o) (Some (char_of_val (opt_val o)))]
  | None => []
  end.

(** The options of the daemon, as [IncomingArgv] gives them to [getopt_long]; the plus sign in front
    of them asks for the order of POSIX. *)
Definition fe_options : OptionTable :=
  {| ot_long := flat_map long_of CTIFEDaemonArgv.long_options; ot_short := flag_spec CTIFEDaemonArgv.long_options |}.

(** How the start of the daemon ends. *)
Inductive started : Type :=
| Exited (code : Z)
| Terminated (what : string)
| Serving (reqFd respFd : Z) (blocked : gset Z) (handled : list Z).

Class SignalCalls : Type := {
  sig_fill : bool; sig_del : Z → bool; sig_mask : bool; sig_action : Z → bool;
  (** whether the output can be sent to the log *)
  log_hook : bool
}.

(** SIGTERM, SIGCHLD, SIGPIPE, SIGHUP, SIGTRAP, SIGTTIN and SIGSEGV *)
Definition handledSignals : list Z := [15; 17; 13; 1; 5; 21; 11].

Definition all_signals : gset Z := list_to_set (seqZ 1 64).

Fixpoint main_options (opts : list parsed) (reqFd respFd : Z) : started + Z * Z :=
  match opts with
  | [] => inr (reqFd, respFd)
  | POpt c optarg :: opts' =>
      if decide (c = "r"%char) then
        match stoi (default "" optarg) with Ok (n, _) => main_options opts' n respFd | _ => inl (Terminated "stoi") end
      else if decide (c = "w"%char) then
        match stoi (default "" optarg) with Ok (n, _) => main_options opts' reqFd n | _ => inl (Terminated "stoi") end
      else if decide (c = "h"%char) then inl (Exited 0)
      else inl (Exited 1)
  | _ => inl (Exited 1)
  end.

Definition main_start `{SignalCalls} (args : list string) : started :=
  match main_options (@getopt_long fe_options true args).1.1 (-1) (-1) with
  | inl ended => ended
  | inr (reqFd, respFd) =>
      if (reqFd <? 0) || (respFd <? 0) then Exited 1
      else if negb (respFd =? 1) && negb log_hook then Terminated "failed to hook standard out / err"
      else if negb sig_fill then Exited 1
      else if negb (forallb sig_del handledSignals) then Exited 1
      else if negb sig_mask then Exited 1
      else if negb (forallb sig_action handledSignals) then Exited 1
      else Serving reqFd respFd (all_signals ∖ list_to_set handledSignals) handledSignals
  end.

(** ** The two processes

    The parent puts the child into a group of its own, which the child does as well, and then waits
    for the process number that the daemon sends; the group of a child that has become another
    program cannot be set any more.  When the child ends without having sent anything, the parent
    reads the end of the socket. *)
Module Fork.

Inductive parent : Type := PGroup | PRead | PReady | PFailed | PExited.
Inductive child : Type := CGroup | CExec | CStart | CServing | CEnded.

Record forked : Type := MkForked { fk_parent : parent; fk_child : child; fk_group : bool; fk_sent : bool }.

Definition after_fork : forked := MkForked PGroup CGroup false false.

Definition not_executed (c : child) : bool := match c with CGroup | CExec | CEnded => true | _ => false end.

Inductive step : forked → forked → Prop :=
| parent_group c g s : not_executed c = true → step (MkForked PGroup c g s) (MkForked PRead c true s)
| parent_refused c g s : c ≠ CGroup → c ≠ CExec → step (MkForked PGroup c g s) (MkForked PExited c g s)
| parent_read c g : step (MkForked PRead c g true) (MkForked PReady c g true)
| parent_end g : step (MkForked PRead CEnded g false) (MkForked PFailed CEnded g false)
| child_group p g s : step (MkForked p CGroup g s) (MkForked p CExec true s)
| child_exec p g s : step (MkForked p CExec g s) (MkForked p CStart g s)
| child_sends p g s : step (MkForked p CStart g s) (MkForked p CServing g true)
| child_ends p c g s : c ≠ CEnded → step (MkForked p c g s) (MkForked p CEnded g s).
End Fork.
