(* ===== verification/StartProofs.v ===== *)
(** * Theorems about the start of the frontend daemon

    Pairs of descriptors give back exactly what they took; the daemon finds its ends of the sockets
    open under the numbers that it reads from its arguments; and what the two processes of the fork
    can come to. *)

From stdpp Require Import relations.
From S2P Require Import Prelude Split Argv BeOptions DaemonStart.

(** ** Descriptors *)

Lemma lowest_free (t : table) : t !! lowest t = None ∧ 0 ≤ lowest t ≤ Z.of_nat (size t).
Proof.
  unfold lowest. destruct (List.find _ _) as [n|] eqn:E; cbn [from_option id].
  - apply find_some in E as [Hn Hd]. apply list_elem_of_In, elem_of_seqZ in Hn.
    split; [by apply bool_decide_eq_true in Hd|lia].
  - split; [|lia]. apply eq_None_not_Some. intros Hs.
    assert (list_to_set (seqZ 0 (Z.of_nat (size t) + 1)) ⊆ (dom t : gset Z)) as Hsub.
    { intros n. rewrite elem_of_list_to_set, elem_of_seqZ, elem_of_dom. intros Hn.
      destruct (decide (n = Z.of_nat (size t))) as [->|Hne]; [done|].
      assert (n ∈ seqZ 0 (Z.of_nat (size t))) as Hin by (rewrite elem_of_seqZ; lia).
      pose proof (find_none _ _ E n (proj1 (list_elem_of_In _ _) Hin)) as Hd.
      apply bool_decide_eq_false in Hd. by apply not_eq_None_Some. }
    apply subseteq_size in Hsub. rewrite size_list_to_set, length_seqZ, size_dom in Hsub by apply NoDup_seqZ. lia.
Qed.

Lemma fd_open_run (what : string) (t : table) : fd_open what t = (Ok (lowest t), <[lowest t := what]> t).
Proof. done. Qed.

(** ** Pairs *)

(** The table without what the pair holds. *)
Definition without_pair (s : pair_state) : table :=
  let p := ps_pair s in let t := ps_table s in
  let t := if readOpened p then delete (read_fd p) t else t in
  if writeOpened p then delete (write_fd p) t else t.

Lemma delete_pair_run (s : pair_state) :
  FdPair_delete s = (Ok tt, MkPairState (ps_pair s) (without_pair s)).
Proof. destruct s as [[[] [] r w] t]; done. Qed.

Lemma pair_op_without (o : pair_op) (s : pair_state) : without_pair (run_pair_op o s).2 = without_pair s.
Proof.
  destruct s as [[ro wo r w] t], o as [works what| |]; cbn [run_pair_op].
  - unfold open_pair, try_catch, get, mbind, M_bind. cbn [ps_pair readOpened writeOpened].
    destruct ro, wo; try done. cbn [orb]. destruct works; [|done]. cbn [negb].
    unfold on_table, zoom. cbn [ps_table]. rewrite fd_open_run. cbn [ps_table]. rewrite fd_open_run.
    unfold without_pair, modify, set_pair. cbn [ps_pair ps_table readOpened writeOpened read_fd write_fd snd].
    set (t1 := <[lowest t := _]> t). pose proof (proj1 (lowest_free t)) as H1. pose proof (proj1 (lowest_free t1)) as H2.
    assert (lowest t1 ≠ lowest t) as Hne by (intros E; rewrite E in H2; unfold t1 in H2; by rewrite lookup_insert_eq in H2).
    rewrite delete_insert_ne by done. rewrite delete_insert_eq. unfold t1 at 2. rewrite delete_insert_eq, (delete_id t _ H1).
    apply delete_id. exact (eq_trans (eq_sym (lookup_insert_ne t _ _ _ (not_eq_sym Hne))) H2).
  - unfold closeRead, get, mbind, M_bind. cbn [ps_pair readOpened]. destruct ro; [|done].
    by destruct wo.
  - unfold closeWrite, get, mbind, M_bind. cbn [ps_pair writeOpened]. destruct wo; [|done].
    destruct ro; [|done]. unfold without_pair. cbn. by rewrite delete_delete.
Qed.

(** Opening and closing, in any order and with calls that fail, up to one that ends the program. *)
Fixpoint run_pair_ops (ops : list pair_op) : M pair_state () :=
  match ops with [] => mret tt | o :: ops' => run_pair_op o;; run_pair_ops ops' end.

(** A pair of descriptors.  Whatever is done with it, when it is destroyed the descriptors of the
    process are those from before it was made: what it opened is closed, and nothing else. *)
Theorem pair_leaves_nothing (ops : list pair_op) (t : table) :
  ps_table (FdPair_delete (run_pair_ops ops (MkPairState new_pair t)).2).2 = t.
Proof.
  rewrite delete_pair_run. cbn [ps_table snd].
  assert (∀ s, without_pair (run_pair_ops ops s).2 = without_pair s) as Hops.
  { induction ops as [|o ops IH]; intros s; [done|]. cbn [run_pair_ops].
    pose proof (pair_op_without o s) as Ho. unfold mbind, M_bind.
    destruct (run_pair_op o s) as [[[]|e|e] s1]; [|done..]. by rewrite IH. }
  by rewrite Hops.
Qed.

(** The end of a program's output is closed twice; a descriptor that is opened in between, by
    another thread, gets its number and is closed. *)
Example Execvp_closes_another :
  let t : table := {[0 := "in"; 1 := "out"; 2 := "err"]} in
  let s := (open_pair true "pipe";; closeWrite) (MkPairState new_pair t) in
  let buffer_closed := (on_table (fd_close (read_fd (ps_pair s.2))) s.2).2 in
  let '(n, opened) := on_table (fd_open "another file") buffer_closed in
  n = Ok 3 ∧ ps_table opened !! 3 = Some "another file" ∧ ps_table (FdPair_delete opened).2 !! 3 = None.
Proof. vm_compute. done. Qed.

(** ** The child *)

Lemma close_all (l : list Z) (t : table) :
  ∃ t', for_each l fd_close t = (Ok tt, t') ∧ ∀ n, t' !! n = if decide (n ∈ l) then None else t !! n.
Proof.
  revert t. induction l as [|a l IH]; intros t.
  - exists t. split; [done|]. intros n. by rewrite decide_False by apply not_elem_of_nil.
  - destruct (IH (delete a t)) as (t' & E & Ht'). exists t'. split; [exact E|]. intros n. rewrite Ht'.
    destruct (decide (n ∈ l)) as [Hl|Hl]; [by rewrite decide_True by (by right)|].
    destruct (decide (n = a)) as [->|Hne].
    + rewrite decide_True by left. apply lookup_delete_eq.
    + rewrite decide_False by (by intros [?|?]%elem_of_cons). by apply lookup_delete_ne.
Qed.

(** A standard descriptor is sent to nothing; all others stay as they are. *)
Lemma remap_run {A : Type} (target : Z) (k : M table A) (t : table) :
  is_Some (t !! target) →
  ∃ t', (null ← fd_open "/dev/null"; fd_dup2 null target;; k) t = k t' ∧ t' !! target = Some "/dev/null" ∧
  (∀ n x, t !! n = Some x → n ≠ target → t' !! n = Some x) ∧ (∀ n, is_Some (t !! n) → is_Some (t' !! n)).
Proof.
  intros Ht. pose proof (proj1 (lowest_free t)) as Hf. exists (<[target := "/dev/null"]> (<[lowest t := "/dev/null"]> t)). split_and!.
  - unfold mbind, M_bind. rewrite fd_open_run. unfold fd_dup2, modify. by rewrite lookup_insert_eq.
  - by rewrite lookup_insert_eq.
  - intros n x Hn Hne. rewrite lookup_insert_ne by done. rewrite lookup_insert_ne; [done|]. intros <-. congruence.
  - intros n Hn. destruct (decide (n = target)) as [->|Hne]; [by rewrite lookup_insert_eq|].
    rewrite lookup_insert_ne by done. rewrite lookup_insert_ne; [done|]. intros <-. rewrite Hf in Hn. by destruct Hn.
Qed.

Definition standard (n : Z) : Prop := n = 0 ∨ n = 1 ∨ n = 2.

(** The last descriptors are closed, the others are kept. *)
Lemma child_closes (last max_fd : Z) (t : table) :
  ∃ t', for_each (seqZ (last + 1) (max_fd - (last + 1))) fd_close t = (Ok tt, t') ∧
  (∀ n, n ≤ last → t' !! n = t !! n) ∧ ∀ n, last < n < max_fd → t' !! n = None.
Proof.
  destruct (close_all (seqZ (last + 1) (max_fd - (last + 1))) t) as (t' & E & Ht'). exists t'. split; [exact E|].
  split; intros n Hn; rewrite Ht'.
  - apply decide_False. rewrite elem_of_seqZ. lia.
  - apply decide_True, elem_of_seqZ. lia.
Qed.

(** The standard descriptors are sent to nothing. *)
Lemma child_remaps {A : Type} (debug : bool) (k : M table A) (t : table) :
  (∀ n, standard n → is_Some (t !! n)) →
  ∃ t', (null ← fd_open "/dev/null"; fd_dup2 null 0;;
    (if debug then mret tt
     else null ← fd_open "/dev/null"; fd_dup2 null 1;; null ← fd_open "/dev/null"; fd_dup2 null 2);; k) t = k t' ∧
  (∀ n x, t !! n = Some x → ¬ standard n → t' !! n = Some x) ∧ t' !! 0 = Some "/dev/null" ∧
  (debug = false → t' !! 1 = Some "/dev/null" ∧ t' !! 2 = Some "/dev/null").
Proof.
  intros Hstd. match goal with |- ∃ t', (_ ≫= λ null, _ ≫= λ _, ?l) t = _ ∧ _ => destruct (remap_run 0 l t) as (t1 & -> & E0 & K1 & S1) end.
  { apply Hstd. by left. }
  destruct debug.
  { exists t1. split_and!; try done. intros n x Hx Hn. apply K1; [done|]. intros ->. apply Hn. by left. }
  match goal with |- ∃ t', ((_ ≫= λ null, _ ≫= λ _, ?l) ≫= λ _, k) t1 = _ ∧ _ =>
    change (((fd_open "/dev/null" ≫= λ null, fd_dup2 null 1 ≫= λ _, l) ≫= λ _, k) t1)
      with ((fd_open "/dev/null" ≫= λ null, fd_dup2 null 1 ≫= λ _, l ≫= λ _, k) t1);
    destruct (remap_run 1 (l ≫= λ _, k) t1) as (t2 & -> & E1 & K2 & S2) end.
  { apply S1, Hstd. right. by left. }
  change (((fd_open "/dev/null" ≫= λ null, fd_dup2 null 2) ≫= λ _, k) t2)
    with ((fd_open "/dev/null" ≫= λ null, fd_dup2 null 2 ≫= λ _, k) t2).
  destruct (remap_run 2 k t2) as (t3 & -> & E2 & K3 & _).
  { apply S2, S1, Hstd. right. by right. }
  exists t3. split_and!; [done| |by apply K3; [apply K2|]|intros _; split; [by apply K3|done]].
  intros n x Hx Hn. unfold standard in Hn. apply K3; [apply K2; [apply K1|]|]; tauto.
Qed.

Lemma child_run (req resp : FdPair) (debug : bool) (max_fd : Z) (t : table) (a b : string) :
  (∀ n, standard n → is_Some (t !! n)) →
  t !! read_fd req = Some a → t !! write_fd resp = Some b →
  2 < read_fd req → 2 < write_fd resp →
  (∀ n, n = write_fd req ∨ n = read_fd resp → n ≠ read_fd req ∧ n ≠ write_fd resp ∧ ¬ standard n) →
  ∃ t', child_descriptors req resp debug max_fd t = (Ok tt, t') ∧
  t' !! read_fd req = Some a ∧ t' !! write_fd resp = Some b ∧ t' !! 0 = Some "/dev/null" ∧
  (debug = false → t' !! 1 = Some "/dev/null" ∧ t' !! 2 = Some "/dev/null") ∧
  ∀ n, Z.max (read_fd req) (write_fd resp) < n < max_fd → t' !! n = None.
Proof.
  intros Hstd Ha Hb Hr Hw Hothers. unfold child_descriptors.
  destruct (Hothers _ (or_introl eq_refl)) as (H1 & H2 & H3). destruct (Hothers _ (or_intror eq_refl)) as (H4 & H5 & H6).
  unfold mbind at 1, M_bind at 1. unfold fd_close at 1, modify at 1.
  unfold mbind at 1, M_bind at 1. unfold fd_close at 1, modify at 1.
  set (t0 := delete (read_fd resp) (delete (write_fd req) t)).
  assert (∀ n, n ≠ write_fd req → n ≠ read_fd resp → t0 !! n = t !! n) as Ht0.
  { intros n Hn1 Hn2. unfold t0. by rewrite !lookup_delete_ne by done. }
  cbn zeta. set (k := for_each _ _).
  destruct (child_remaps debug k t0) as (t1 & -> & K1 & E0 & E12).
  { intros n Hn. rewrite Ht0; [by apply Hstd|intros ->; tauto..]. }
  unfold k. destruct (child_closes (Z.max (read_fd req) (write_fd resp)) max_fd t1) as (t' & -> & Hlow & Hhigh).
  exists t'. rewrite !Hlow by lia. split_and!; try done.
  - apply K1; [rewrite Ht0; [exact Ha|congruence..]|unfold standard; lia].
  - apply K1; [rewrite Ht0; [exact Hb|congruence..]|unfold standard; lia].
Qed.

(** ** The arguments *)

Definition signals_work `{SignalCalls} : Prop :=
  sig_fill = true ∧ (∀ n, sig_del n = true) ∧ sig_mask = true ∧ (∀ n, sig_action n = true) ∧ log_hook = true.

Definition descriptor (n : Z) : Prop := 0 ≤ n ∧ in_int n = true.

Lemma child_argv_run (bin : string) (req resp : FdPair) :
  nul_free bin = true →
  ∃ v, child_argv bin req resp = Ok v ∧
  represents v [bin; "--read=" +:+ to_string (read_fd req); "--write=" +:+ to_string (write_fd resp)].
Proof.
  intros Hb. unfold child_argv, outgoing_new. destruct (argv_add_spec argv_new [] bin represents_new) as (v0 & -> & H0).
  cbn [mbind res_bind]. rewrite c_str_id in H0 by done.
  destruct (outgoing_add_param_spec CTIFEDaemonArgv.ReadFD (to_string (read_fd req)) v0 _ H0) as (v1 & -> & H1).
  cbn [mbind res_bind].
  destruct (outgoing_add_param_spec CTIFEDaemonArgv.WriteFD (to_string (write_fd resp)) v1 _ H1) as (v2 & -> & H2).
  exists v2. split; [done|]. unfold param_args in H2. cbn [opt_name CTIFEDaemonArgv.ReadFD CTIFEDaemonArgv.WriteFD map app] in H2.
  assert (∀ z, nul_free (to_string z) = true) as Hz by (intros z; by apply to_string_no_char).
  rewrite !c_str_id in H2; [exact H2|..]; by rewrite !nul_free_app, Hz.
Qed.

Lemma main_options_read (r w : Z) :
  in_int r = true → in_int w = true →
  main_options (@getopt_long fe_options true ["--read=" +:+ to_string r; "--write=" +:+ to_string w]).1.1 (-1) (-1) =
  inr (r, w).
Proof.
  intros Hr Hw.
  change (@getopt_long fe_options true ["--read=" +:+ to_string r; "--write=" +:+ to_string w]).1.1
    with [POpt "r" (Some (to_string r)); POpt "w" (Some (to_string w))].
  cbn [main_options default from_option id]. rewrite decide_True by done.
  change (default "" (Some (to_string r))) with (to_string r). rewrite (stoi_to_string _ Hr).
  rewrite decide_False, decide_True by done.
  change (default "" (Some (to_string w))) with (to_string w). by rewrite (stoi_to_string _ Hw).
Qed.

Lemma main_start_serves `{SignalCalls} (r w : Z) :
  descriptor r → descriptor w → signals_work →
  main_start ["--read=" +:+ to_string r; "--write=" +:+ to_string w] =
  Serving r w (all_signals ∖ list_to_set handledSignals) handledSignals.
Proof.
  intros [Hr Ir] [Hw Iw] (H1 & H2 & H3 & H4 & H5). unfold main_start. rewrite main_options_read by done.
  rewrite (proj2 (Z.ltb_ge r 0) Hr), (proj2 (Z.ltb_ge w 0) Hw), H1, H3, H5. cbn [orb negb andb].
  rewrite andb_false_r. by rewrite !(proj2 (forallb_forall _ _)) by done.
Qed.

Lemma FE_sockets_run (t : table) :
  ∃ r1 w1 r2 w2 t', FE_sockets true t = (Ok (MkPair true true r1 w1, MkPair true true r2 w2), t') ∧
  NoDup [r1; w1; r2; w2] ∧ (∀ n, n ∈ [r1; w1; r2; w2] → t !! n = None ∧ 0 ≤ n ≤ Z.of_nat (size t) + 3) ∧
  t' !! r1 = Some "requests, reading" ∧ t' !! w2 = Some "responses, writing" ∧
  (∀ n, is_Some (t !! n) → t' !! n = t !! n).
Proof.
  set (t1 := <[lowest t := "requests, reading"]> t). set (t2 := <[lowest t1 := "requests, writing"]> t1).
  set (t3 := <[lowest t2 := "responses, reading"]> t2). set (t4 := <[lowest t3 := "responses, writing"]> t3).
  exists (lowest t), (lowest t1), (lowest t2), (lowest t3), t4. split; [done|].
  pose proof (lowest_free t) as [F0 B0]. pose proof (lowest_free t1) as [F1 B1].
  pose proof (lowest_free t2) as [F2 B2]. pose proof (lowest_free t3) as [F3 B3].
  pose proof (proj1 (lookup_insert_None t (lowest t) (lowest t1) _) F1) as [G1 N1].
  pose proof (proj1 (lookup_insert_None t1 (lowest t1) (lowest t2) _) F2) as [G2 N2].
  pose proof (proj1 (lookup_insert_None t (lowest t) (lowest t2) _) G2) as [G2' N2'].
  pose proof (proj1 (lookup_insert_None t2 (lowest t2) (lowest t3) _) F3) as [G3 N3].
  pose proof (proj1 (lookup_insert_None t1 (lowest t1) (lowest t3) _) G3) as [G3' N3'].
  pose proof (proj1 (lookup_insert_None t (lowest t) (lowest t3) _) G3') as [Gt3 Nt3].
  assert (∀ (m : table) k x, size (<[k := x]> m) ≤ S (size m))%nat as Hsize.
  { intros m k x. rewrite map_size_insert. destruct (m !! k); unfold id; lia. }
  assert (size t1 ≤ S (size t))%nat as S1 by apply Hsize.
  assert (size t2 ≤ S (size t1))%nat as S2 by apply Hsize.
  assert (size t3 ≤ S (size t2))%nat as S3 by apply Hsize.
  split_and!.
  - clear -N1 N2 N2' N3 N3' Nt3. repeat apply NoDup_cons_2; try apply NoDup_nil_2;
      rewrite ?elem_of_cons, elem_of_nil; intuition auto.
  - intros n. rewrite !elem_of_cons, elem_of_nil. intros [->|[->|[->|[->|[]]]]]; (split; [assumption|lia]).
  - unfold t4. rewrite lookup_insert_ne by done. unfold t3. rewrite lookup_insert_ne by done. unfold t2.
    rewrite lookup_insert_ne by done. apply lookup_insert_eq.
  - apply lookup_insert_eq.
  - intros n Hn. assert (∀ k, t !! k = None → k ≠ n) as Hk by (intros k Hk <-; destruct Hn; congruence).
    unfold t4. rewrite lookup_insert_ne by (by apply Hk). unfold t3. rewrite lookup_insert_ne by (by apply Hk).
    unfold t2. rewrite lookup_insert_ne by (by apply Hk). apply lookup_insert_ne. by apply Hk.
Qed.

(** C17 From the client to the daemon.  When the standard descriptors of a client are open, the child
    of the fork keeps the ends of the sockets that it needs, its standard input and, without
    debugging, its outputs lead to nothing, and no descriptor above the two is left open up to the
    limit; the daemon that it becomes reads the numbers of just these ends from its arguments and
    goes on to serve, with all signals blocked but those that it handles. *)
Theorem daemon_finds_sockets `{SignalCalls} (bin : string) (t : table) (debug : bool) (max_fd : Z) :
  (∀ n, standard n → is_Some (t !! n)) → Z.of_nat (size t) < 2 ^ 31 - 4 → nul_free bin = true → signals_work →
  ∃ req resp t1 t2 v, FE_sockets true t = (Ok (req, resp), t1) ∧
  child_descriptors req resp debug max_fd t1 = (Ok tt, t2) ∧
  child_argv bin req resp = Ok v ∧
  ∃ reqFd respFd, main_start (until_null (drop 1 v)) =
    Serving reqFd respFd (all_signals ∖ list_to_set handledSignals) handledSignals ∧
  t2 !! reqFd = Some "requests, reading" ∧ t2 !! respFd = Some "responses, writing" ∧
  t2 !! 0 = Some "/dev/null" ∧
  (debug = false → t2 !! 1 = Some "/dev/null" ∧ t2 !! 2 = Some "/dev/null") ∧
  ∀ n, Z.max reqFd respFd < n < max_fd → t2 !! n = None.
Proof.
  intros Hstd Hsize Hbin Hsig.
  destruct (FE_sockets_run t) as (r1 & w1 & r2 & w2 & t1 & Es & Hnd & Hfree & Er & Ew & Hkeep).
  assert (∀ n, n ∈ [r1; w1; r2; w2] → 2 < n ∧ in_int n = true) as Hn.
  { intros n Hin. destruct (Hfree n Hin) as [Hnone Hb]. split.
    - assert (¬ standard n) as Hs by (intros Hs; destruct (Hstd n Hs); congruence). unfold standard in Hs. lia.
    - unfold in_int, int_min, int_max. change (2 ^ 31) with 2147483648 in *. apply andb_true_iff. split; apply Z.leb_le; lia. }
  set (req := MkPair true true r1 w1) in *. set (resp := MkPair true true r2 w2) in *.
  assert (r1 ∈ [r1; w1; r2; w2] ∧ w1 ∈ [r1; w1; r2; w2] ∧ r2 ∈ [r1; w1; r2; w2] ∧ w2 ∈ [r1; w1; r2; w2]) as (I1 & I2 & I3 & I4)
    by (rewrite !elem_of_cons; tauto).
  rewrite !NoDup_cons, !elem_of_cons in Hnd.
  destruct (child_run req resp debug max_fd t1 _ _ ltac:(intros n Hs; rewrite Hkeep by (by apply Hstd); by apply Hstd)
    Er Ew (proj1 (Hn r1 I1)) (proj1 (Hn w2 I4))) as (t2 & Ec & E1 & E2 & E0 & E12 & Eclosed).
  { intros n [->| ->]; cbn [write_fd read_fd req resp].
    - pose proof (proj1 (Hn w1 I2)). split_and!; [naive_solver..|unfold standard; lia].
    - pose proof (proj1 (Hn r2 I3)). split_and!; [naive_solver..|unfold standard; lia]. }
  destruct (child_argv_run bin req resp Hbin) as (v & Ev & Hv).
  exists req, resp, t1, t2, v. split; [exact Es|]. split; [exact Ec|]. split; [exact Ev|].
  exists r1, w2. split; [|by split_and!].
  assert (until_null (drop 1 v) = ["--read=" +:+ to_string r1; "--write=" +:+ to_string w2]) as ->.
  { rewrite Hv. cbn [map app drop]. by apply (until_null_represents _ [_; _]). }
  apply main_start_serves; [..|done]; (split; [|by apply Hn]).
  - pose proof (proj1 (Hn r1 I1)). lia.
  - pose proof (proj1 (Hn w2 I4)). lia.
Qed.

(** ** The two processes *)

Section Forks.
Import Fork.

Definition parent_done (f : forked) : Prop := match fk_parent f with PGroup | PRead => False | _ => True end.

Definition fork_ok (f : forked) : Prop :=
  (match fk_child f with CGroup => fk_sent f = false | CExec | CStart => fk_group f = true ∧ fk_sent f = false
   | CServing => fk_group f = true ∧ fk_sent f = true | CEnded => True end) ∧
  (fk_sent f = true → fk_group f = true) ∧
  match fk_parent f with PReady => fk_sent f = true | PFailed => fk_sent f = false ∧ fk_child f = CEnded | _ => True end.

Lemma fork_ok_step (f f' : forked) : fork_ok f → step f f' → fork_ok f'.
Proof. unfold fork_ok. intros Hf Hs. inversion Hs; subst; cbn in *; try (destruct c); try (destruct p); naive_solver. Qed.

Definition steps_of (f : forked) : nat :=
  match fk_parent f with PGroup => 2 | PRead => 1 | _ => 0 end +
  match fk_child f with CGroup => 4 | CExec => 3 | CStart => 2 | CServing => 1 | CEnded => 0 end.

Lemma fork_step_decreases (f f' : forked) : step f f' → (steps_of f' < steps_of f)%nat.
Proof. intros Hs. inversion Hs; subst; cbn; try lia. destruct c; cbn; try done; lia. Qed.

Lemma fork_progress (f : forked) : fork_ok f → parent_done f ∨ ∃ f', step f f'.
Proof.
  destruct f as [p c g s]. unfold fork_ok, parent_done. cbn. intros (Hc & Hs & Hp).
  destruct c; try (right; eexists; constructor; done).
  - destruct p; try (by left); right; [eexists; by apply parent_group|].
    destruct s; eexists; [apply parent_read|apply parent_end].
Qed.

(** The start of the daemon by two processes.  In whatever order they run, there are at most six
    steps of the two, and the parent never waits forever; it goes on with the daemon only when the
    child has become the daemon, in a process group of its own, and has sent its number. *)
Theorem fork_ends (n : nat) (f : forked) :
  nsteps step n after_fork f →
  (n ≤ 6)%nat ∧ (parent_done f ∨ ∃ f', step f f') ∧
  (fk_parent f = PReady → fk_sent f = true ∧ fk_group f = true).
Proof.
  intros Hn.
  assert (∀ g, nsteps step n g f → fork_ok g → fork_ok f ∧ (n + steps_of f ≤ steps_of g)%nat) as Hinv.
  { clear Hn. revert f. induction n as [|n IH]; intros f g Hn Hg; inversion Hn as [|? ? g' ? Hs Hn']; subst.
    - split; [done|lia].
    - pose proof (fork_step_decreases _ _ Hs). destruct (IH f g' Hn' (fork_ok_step _ _ Hg Hs)) as [Hf Hle]. split; [done|lia]. }
  destruct (Hinv after_fork Hn ltac:(done)) as [Hf Hle]. cbn in Hle.
  split; [lia|]. split; [by apply fork_progress|]. intros Hp. destruct Hf as (_ & Hs & Hm). rewrite Hp in Hm. auto.
Qed.

Lemma fork_serves : nsteps step 5 after_fork (MkForked PReady CServing true true).
Proof.
  eapply nsteps_l; [by apply parent_group|]. eapply nsteps_l; [apply child_group|]. eapply nsteps_l; [apply child_exec|].
  eapply nsteps_l; [apply child_sends|]. eapply nsteps_l; [apply parent_read|]. apply nsteps_O.
Qed.

Example fork_ends_witness : true = true ∧ true = true.
Proof. exact (proj2 (proj2 (fork_ends 5 _ fork_serves)) eq_refl). Defined.

(** The child may be faster: then its group cannot be set any more, and the client's process is
    ended although the daemon serves, in a group of its own. *)
Lemma fork_race : rtc step after_fork (MkForked PExited CServing true true).
Proof.
  eapply rtc_l; [apply child_group|]. eapply rtc_l; [apply child_exec|]. eapply rtc_l; [apply child_sends|].
  eapply rtc_l; [by apply parent_refused|]. apply rtc_refl.
Qed.
End Forks.

(** ** Examples *)

#[local] Instance demo_signals : SignalCalls :=
  {| sig_fill := true; sig_del _ := true; sig_mask := true; sig_action _ := true; log_hook := true |}.

Definition demo_table : table := {[0 := "terminal"; 1 := "terminal"; 2 := "terminal"; 5 := "file"]}.

Example daemon_finds_sockets_witness :
  ∃ req resp t1 t2 v, FE_sockets true demo_table = (Ok (req, resp), t1) ∧
  child_descriptors req resp false 1024 t1 = (Ok tt, t2) ∧
  child_argv "cti_fe_daemon" req resp = Ok v ∧
  ∃ reqFd respFd, main_start (until_null (drop 1 v)) =
    Serving reqFd respFd (all_signals ∖ list_to_set handledSignals) handledSignals ∧
  t2 !! reqFd = Some "requests, reading" ∧ t2 !! respFd = Some "responses, writing" ∧
  t2 !! 0 = Some "/dev/null" ∧
  (false = false → t2 !! 1 = Some "/dev/null" ∧ t2 !! 2 = Some "/dev/null") ∧
  ∀ n, Z.max reqFd respFd < n < 1024 → t2 !! n = None.
Proof.
  apply daemon_finds_sockets.
  - intros n [->|[->| ->]]; by eexists.
  - reflexivity.
  - reflexivity.
  - repeat split.
Defined.

(** Without the standard input, the socket for requests is lost to it. *)
Example standard_input_missing :
  let t : table := {[1 := "terminal"; 2 := "terminal"]} in
  match FE_sockets true t with
  | (Ok (req, resp), t1) => read_fd req = 0 ∧ (child_descriptors req resp false 16 t1).2 !! 0 = Some "/dev/null"
  | _ => False
  end.
Proof. vm_compute. done. Qed.
