(* ===== verification/FileLines.v ===== *)
(** * Reading lines of any length (file_read_line in src/src/backend/slurm_be.c)

    The backend library for Slurm reads what squeue and scontrol print with [fgets] into a buffer of
    4096 bytes and puts long lines together from their pieces.  The readers of [BeLayout] take such
    output as a list of lines; here is why they may.  A read that fails is the end of the output. *)

From S2P Require Import Prelude Split System.

Definition newline : ascii := "010"%char.

(** At most [n] bytes, up to the end of the line, which is kept. *)
Fixpoint fgets (n : nat) (text : string) : string * string :=
  match n, text with
  | O, _ => ("", text)
  | _, "" => ("", "")
  | S n', String c text' =>
      if decide (c = newline) then (String c "", text')
      else let '(line, rest) := fgets n' text' in (String c line, rest)
  end.

(** Room for the end of the text is kept. *)
Definition LINE_BUF : nat := 4095.

Definition realloc_append (lhs : option string) (rhs : string) : option string := Some (default "" lhs +:+ rhs).

(** The next line, none at the end of the file, and what is left. *)
Fixpoint file_read_line (fuel : nat) (text : string) (result : option string) : res (option string * string) :=
  match fuel with
  | O => Undef "the line has no end"
  | S fuel' =>
      if is_empty text then Ok (result, "")
      else
        let '(piece, rest) := fgets LINE_BUF text in
        let buf := c_str piece in
        match last_char buf with
        | None => Undef "reads before the buffer"
        | Some c =>
            if decide (c = newline) then Ok (realloc_append result (pop_back buf), rest)
            else file_read_line fuel' rest (realloc_append result buf)
        end
  end.

(** All lines, one after the other. *)
Fixpoint read_lines (fuel : nat) (text : string) : res (list string) :=
  match fuel with
  | O => Undef "the file has no end"
  | S fuel' =>
      '(line, rest) ← file_read_line (S (String.length text)) text None;
      match line with
      | None => Ok []
      | Some line => lines ← read_lines fuel' rest; Ok (line :: lines)
      end
  end.

(** ** Lemmas *)

(** The first line of a text and what comes after it. *)
Definition line_of (text : string) : string * string :=
  match split_at newline text with Some (line, rest) => (line, rest) | None => (text, "") end.

Lemma line_of_cons (c : ascii) (text : string) :
  line_of (String c text) = if decide (c = newline) then ("", text) else (String c (line_of text).1, (line_of text).2).
Proof.
  unfold line_of. cbn [split_at]. destruct (decide (c = newline)) as [->|Hne]; [done|].
  by destruct (split_at newline text) as [[]|].
Qed.

Lemma text_lines_line_of (text : string) :
  text ≠ "" → text_lines text = (line_of text).1 :: text_lines (line_of text).2.
Proof.
  induction text as [|c text IH]; [done|]. intros _. rewrite line_of_cons. cbn [text_lines].
  change "010"%char with newline. destruct (decide (c = newline)); [done|]. cbn [fst snd].
  destruct text as [|c' text]; [done|]. by rewrite IH.
Qed.

Lemma line_of_shorter (text : string) :
  text ≠ "" → (String.length (line_of text).2 < String.length text)%nat.
Proof.
  induction text as [|c text IH]; [done|]. intros _. rewrite line_of_cons. destruct (decide (c = newline)); cbn; [lia|].
  destruct text as [|c' text]; [cbn; lia|]. specialize (IH ltac:(done)). cbn in *. lia.
Qed.

Lemma nul_free_line_of (text : string) : nul_free text = true → nul_free (line_of text).2 = true.
Proof.
  unfold nul_free, no_char. induction text as [|c text IH]; [done|]. rewrite line_of_cons.
  cbn. intros [_ Ht]%andb_true_iff. destruct (decide (c = newline)); cbn; [done|]. by apply IH.
Qed.

(** A piece is a whole line with its end, or a part of a line that is not empty. *)
Lemma fgets_piece (n : nat) (text : string) :
  nul_free text = true → text ≠ "" → n ≠ 0%nat →
  ∃ a rest, nul_free a = true ∧ nul_free rest = true ∧ no_char newline a = true ∧
  ((fgets n text = (a +:+ String newline "", rest) ∧ line_of text = (a, rest)) ∨
   (fgets n text = (a, rest) ∧ a ≠ "" ∧ (String.length rest < String.length text)%nat ∧
    line_of text = (a +:+ (line_of rest).1, (line_of rest).2))).
Proof.
  revert n. induction text as [|c text IH]; intros n Hn Hne Hz; [done|]. destruct n as [|n]; [done|].
  unfold nul_free, no_char in Hn. cbn in Hn. apply andb_true_iff in Hn as [Hc Hn]. fold (no_char "000"%char text) in Hn.
  cbn [fgets]. rewrite line_of_cons. destruct (decide (c = newline)) as [->|Hc'].
  { exists "", text. split_and!; try done. by left. }
  assert (∀ s, nul_free s = true → nul_free (String c s) = true) as Hnul.
  { intros s Hs. unfold nul_free, no_char in *. cbn. by rewrite Hc. }
  assert (∀ s, no_char newline s = true → no_char newline (String c s) = true) as Hnl.
  { intros s Hs. unfold no_char in *. cbn. rewrite Hs, andb_true_r. by apply bool_decide_eq_true. }
  destruct n as [|n].
  { exists (String c ""), text. split_and!; try done; [by apply Hnul|by apply Hnl|]. right. split_and!; try done. cbn. lia. }
  destruct text as [|c' text'].
  { exists (String c ""), "". split_and!; try done; [by apply Hnul|by apply Hnl|]. right. split_and!; try done. cbn. lia. }
  destruct (IH (S n) Hn ltac:(done) ltac:(done)) as (a & rest & Ha & Hr & Hla & [[E1 E2]|(E1 & Hae & Hl & E2)]);
    exists (String c a), rest; rewrite E1, E2; (split_and!; [by apply Hnul|done|by apply Hnl|]).
  - by left.
  - right. split_and!; try done. cbn in *. lia.
Qed.

Lemma last_char_not (a : string) : a ≠ "" → no_char newline a = true → ∃ c, last_char a = Some c ∧ c ≠ newline.
Proof.
  unfold no_char. induction a as [|x a IH]; [done|]. intros _ Hn. cbn in Hn. apply andb_true_iff in Hn as [Hx Hn].
  apply bool_decide_eq_true in Hx. destruct a as [|y a]; [by exists x|]. by apply IH.
Qed.

Lemma file_read_line_run (fuel : nat) (text : string) (result : option string) :
  nul_free text = true → (String.length text < fuel)%nat →
  file_read_line fuel text result =
  Ok (if is_empty text then result else realloc_append result (line_of text).1, (line_of text).2).
Proof.
  revert text result. induction fuel as [|fuel IH]; intros text result Hn Hl; [lia|]. cbn [file_read_line].
  destruct (is_empty text) eqn:Et; [by apply is_empty_spec in Et as ->|].
  assert (text ≠ "") as Hne by (by intros ->).
  destruct (fgets_piece LINE_BUF text Hn Hne ltac:(done)) as (a & rest & Ha & Hr & Hnl & [[E1 E2]|(E1 & Hae & Hlt & E2)]);
    rewrite E1, E2; cbn [fst snd].
  - rewrite c_str_id by (by rewrite nul_free_app, Ha). rewrite last_char_snoc, decide_True by done. by rewrite pop_back_snoc.
  - rewrite c_str_id by done. destruct (last_char_not a Hae Hnl) as (c & -> & Hc). rewrite decide_False by done.
    rewrite IH by (done || lia). unfold realloc_append. cbn [default from_option id].
    destruct rest as [|x rest]; [change (line_of "") with ("", ""); cbn [is_empty fst snd]; by rewrite string_app_nil_r|]. cbn [is_empty].
    change (default "" (Some (default "" result +:+ a))) with (default "" result +:+ a). by rewrite string_app_assoc.
Qed.

(** Reading line by line.  However long the lines of a file without NUL bytes are, reading it with
    the buffer gives exactly its lines. *)
Theorem read_lines_are_lines (text : string) (fuel : nat) :
  nul_free text = true → (String.length text < fuel)%nat → read_lines fuel text = Ok (text_lines text).
Proof.
  revert text. induction fuel as [|fuel IH]; intros text Hn Hl; [lia|]. cbn [read_lines].
  rewrite file_read_line_run by (done || lia). cbn [mbind res_bind].
  destruct text as [|x text]; [done|]. set (t := String x text) in *. change (is_empty t) with false. cbn iota.
  pose proof (line_of_shorter t ltac:(done)). unfold realloc_append. cbn [default from_option id].
  rewrite IH by (by apply nul_free_line_of || lia). cbn [mbind res_bind]. by rewrite (text_lines_line_of t).
Qed.

Example read_lines_are_lines_witness :
  read_lines 20 ("nid[001-004]" +:+ nl +:+ "x") = Ok ["nid[001-004]"; "x"].
Proof. apply (read_lines_are_lines ("nid[001-004]" +:+ nl +:+ "x") 20); [reflexivity|]. apply Nat.ltb_lt. reflexivity. Defined.

(** A line that starts with a NUL byte makes the reader look before its buffer. *)
Lemma nul_line_read (text : string) (result : option string) (fuel : nat) :
  file_read_line (S fuel) (String "000" text) result = Undef "reads before the buffer".
Proof.
  cbn [file_read_line is_empty]. change (fgets LINE_BUF (String "000" text))
    with (let '(line, rest) := fgets 4094 text in (String "000" line, rest)).
  destruct (fgets 4094 text) as [line rest]. reflexivity.
Qed.
