(* ===== verification/Handles.v ===== *)
(** * Owners of descriptors and of temporary names (src/src/useful/cti_wrappers.hpp)

    [fd_handle] closes its descriptor when it is destroyed, and may be moved; [dup2_or_dev_null] sets
    the standard descriptors of a child.  The objects of a program are numbered; descriptors are the
    table of [DaemonStart]. *)

From stdpp Require Import relations.
From S2P Require Import Prelude DaemonStart StartProofs.

(** Objects of type [fd_handle] with their member [m_fd]. *)
Record handles : Type := MkHandles { h_objects : gmap nat Z; h_table : table }.

Definition on_descriptors {A : Type} (m : M table A) : M handles A := zoom h_table (λ t h, MkHandles (h_objects h) t) m.

Definition set_object (id : nat) (fd : Z) : M handles () := modify (λ h, MkHandles (<[id := fd]> (h_objects h)) (h_table h)).

Definition m_fd (id : nat) (h : handles) : Z := default (-1) (h_objects h !! id).

(** The constructors: none, of a descriptor, by moving. *)
Definition fd_handle_none (id : nat) : M handles () := set_object id (-1).

Definition fd_handle_new (id : nat) (fd : Z) : M handles () :=
  if fd <? 0 then throw "File descriptor creation failed." else set_object id fd.

Definition fd_handle_move (id old : nat) : M handles () :=
  h ← get; set_object id (m_fd old h);; set_object old (-1).

(** [operator=]: what the object held before is not closed. *)
Definition fd_handle_assign (id other : nat) : M handles () :=
  h ← get; set_object id (m_fd other h);; set_object other (-1).

Definition fd_handle_delete (id : nat) : M handles () :=
  h ← get;
  (if 0 <=? m_fd id h then on_descriptors (fd_close (m_fd id h)) else mret tt);;
  modify (λ h, MkHandles (delete id (h_objects h)) (h_table h)).

(** What a program does with handles: opens a file into a new one, fails to, moves, assigns and
    destroys.  Objects are used as the language lets one: made once, and used while they exist. *)
Inductive handle_op : Type :=
| HNone (id : nat)
| HOpen (id : nat) (what : string)
| HFail (id : nat)
| HMove (id old : nat)
| HAssign (id other : nat)
| HDelete (id : nat).

Definition run_handle_op (o : handle_op) : M handles () :=
  match o with
  | HNone id => fd_handle_none id
  | HOpen id what => fd ← on_descriptors (fd_open what); fd_handle_new id fd
  | HFail id => try_catch (fd_handle_new id (-1)) (λ _, mret tt)
  | HMove id old => fd_handle_move id old
  | HAssign id other => fd_handle_assign id other
  | HDelete id => fd_handle_delete id
  end.

Definition allowed (o : handle_op) (h : handles) : Prop :=
  match o with
  | HNone id | HOpen id _ | HFail id => h_objects h !! id = None
  | HMove id old => h_objects h !! id = None ∧ is_Some (h_objects h !! old)
  | HAssign id other => is_Some (h_objects h !! id) ∧ is_Some (h_objects h !! other)
  | HDelete id => is_Some (h_objects h !! id)
  end.

(** ** The standard descriptors of a child *)

(** Whether /dev/null can be opened. *)
Definition dup2_or_dev_null (null_opens : bool) (sourcefd targetfd : Z) : M table () :=
  sourcefd ← (if sourcefd <? 0 then if null_opens then fd_open "/dev/null" else mret (-1) else mret sourcefd);
  if 0 <=? sourcefd then fd_dup2 sourcefd targetfd else fd_close targetfd.

(** ** Waiting for a child *)

(** What [::waitpid] gives: a result, or an errno. *)
Inductive wait_outcome : Type := WaitRc (rc : Z) | WaitErrno (errno : Z).

(** The answers of the calls in order; after them there is no child. *)
Fixpoint cti_waitpid (pid : Z) (answers : list wait_outcome) : Z :=
  match answers with
  | [] => pid
  | WaitRc rc :: _ => rc
  | WaitErrno e :: answers' => if e =? 4 then cti_waitpid pid answers' else if e =? 10 then pid else -1
  end.

(** ** Lemmas *)

(** What the objects own. *)
Definition owns (h : handles) (fd : Z) : Prop := ∃ id, h_objects h !! id = Some fd ∧ 0 ≤ fd.

(** No two objects own the same descriptor, and those that are open are those from before and those
    that are owned. *)
Record handles_ok (t : table) (h : handles) : Prop := HandlesOk {
  hk_once : ∀ i j fd, h_objects h !! i = Some fd → h_objects h !! j = Some fd → 0 ≤ fd → i = j;
  hk_new : ∀ fd, owns h fd → t !! fd = None ∧ is_Some (h_table h !! fd);
  hk_rest : ∀ fd, ¬ owns h fd → h_table h !! fd = t !! fd
}.

(** Nothing is assigned to an object that owns a descriptor. *)
Definition overwrites (o : handle_op) (h : handles) : Prop :=
  match o with HAssign id other => 0 ≤ m_fd id h | _ => False end.

Definition handle_step (h h' : handles) : Prop :=
  ∃ o, allowed o h ∧ ¬ overwrites o h ∧ h' = (run_handle_op o h).2.

(** A change of objects alone that leaves what is owned. *)
Lemma ok_objects (t : table) (h : handles) (objects : gmap nat Z) :
  handles_ok t h →
  (∀ i j fd, objects !! i = Some fd → objects !! j = Some fd → 0 ≤ fd → i = j) →
  (∀ fd, owns (MkHandles objects (h_table h)) fd ↔ owns h fd) → handles_ok t (MkHandles objects (h_table h)).
Proof.
  intros Hok Honce Hown. split; [exact Honce|..]; intros fd.
  - rewrite Hown. apply (hk_new _ _ Hok).
  - rewrite Hown. apply (hk_rest _ _ Hok).
Qed.

Lemma ok_none (t : table) (h : handles) (id : nat) :
  handles_ok t h → m_fd id h < 0 → handles_ok t (set_object id (-1) h).2.
Proof.
  intros Hok Hid. apply ok_objects; [done|..].
  - intros i j fd. rewrite !lookup_insert_Some. intros [[_ <-]|[_ Hi]] [[_ E]|[_ Hj]]; [lia..|]. by apply (hk_once _ _ Hok).
  - intros fd. unfold owns. cbn [h_objects]. split; intros (i & Hi & Hfd); exists i; (split; [|done]).
    + apply lookup_insert_Some in Hi as [[_ <-]|[_ Hi]]; [lia|done].
    + rewrite lookup_insert_ne; [done|]. intros ->. unfold m_fd in Hid. rewrite Hi in Hid. cbn in Hid. lia.
Qed.

(** Moving or assigning to an object that owns nothing. *)
Lemma ok_moved (t : table) (h : handles) (id old : nat) :
  handles_ok t h → is_Some (h_objects h !! old) → m_fd id h < 0 →
  handles_ok t (fd_handle_move id old h).2.
Proof.
  intros Hok [fo Ho] Hid. unfold fd_handle_move, get, set_object, modify, mbind, M_bind. cbn.
  assert (m_fd old h = fo) as -> by (unfold m_fd; by rewrite Ho).
  assert (∀ i fd, <[old := -1]> (<[id := fo]> (h_objects h)) !! i = Some fd → 0 ≤ fd →
    (i = id ∧ fd = fo ∧ i ≠ old) ∨ (i ≠ id ∧ i ≠ old ∧ h_objects h !! i = Some fd)) as Hnew.
  { intros i fd Hi Hfd. apply lookup_insert_Some in Hi as [[-> <-]|[Hne Hi]]; [lia|].
    apply lookup_insert_Some in Hi as [[-> <-]|[Hne' Hi]]; [by left|by right]. }
  apply ok_objects; [done|..].
  - intros i j fd Hi Hj Hfd. pose proof (Hnew _ _ Hi Hfd) as [(-> & -> & Hn)|(H1 & H2 & H3)];
      pose proof (Hnew _ _ Hj Hfd) as [(-> & E & Hn')|(H1' & H2' & H3')]; [done|..].
    + exfalso. apply H2'. by apply (hk_once _ _ Hok j old fo).
    + subst fd. exfalso. apply H2. by apply (hk_once _ _ Hok i old fo).
    + by apply (hk_once _ _ Hok i j fd).
  - intros fd. unfold owns. cbn [h_objects]. split.
    + intros (i & Hi & Hfd). destruct (Hnew _ _ Hi Hfd) as [(-> & -> & _)|(_ & _ & H3)]; [by exists old|by exists i].
    + intros (i & Hi & Hfd). destruct (decide (i = old)) as [->|Hne].
      * exists id. assert (fo = fd) as -> by congruence. split; [|done].
        assert (old ≠ id). { intros <-. unfold m_fd in Hid. rewrite Ho in Hid. cbn in Hid. lia. }
        rewrite lookup_insert_ne by done. apply lookup_insert_eq.
      * exists i. split; [|done]. rewrite lookup_insert_ne by done. rewrite lookup_insert_ne; [done|].
        intros ->. unfold m_fd in Hid. rewrite Hi in Hid. cbn in Hid. lia.
Qed.

Lemma ok_opened (t : table) (h : handles) (id : nat) (fd : Z) (what : string) :
  handles_ok t h → h_objects h !! id = None → h_table h !! fd = None → 0 ≤ fd →
  handles_ok t (MkHandles (<[id := fd]> (h_objects h)) (<[fd := what]> (h_table h))).
Proof.
  intros Hok Hid Hfree Hfd.
  assert (¬ owns h fd) as Hno by (intros [_ Hs]%(hk_new _ _ Hok); rewrite Hfree in Hs; by destruct Hs).
  split.
  - intros i j x. cbn [h_objects]. rewrite !lookup_insert_Some. intros [[<- <-]|[Hi Hx]] [[<- E]|[Hj Hy]] H0; [done|..].
    + exfalso. apply Hno. by exists j.
    + subst x. exfalso. apply Hno. by exists i.
    + by apply (hk_once _ _ Hok i j x).
  - intros x (i & Hi & Hx). cbn in Hi |- *. apply lookup_insert_Some in Hi as [[_ <-]|[Hne Hi]].
    + rewrite lookup_insert_eq. split; [|by eexists]. by rewrite <-(hk_rest _ _ Hok fd Hno).
    + destruct (hk_new _ _ Hok x ltac:(by exists i)) as [H1 H2]. split; [done|].
      destruct (decide (fd = x)) as [->|Hne']; [rewrite lookup_insert_eq|rewrite lookup_insert_ne by done]; [by eexists|done].
  - intros x Hx. cbn. assert (fd ≠ x) as Hne.
    { intros ->. apply Hx. exists id. cbn. by rewrite lookup_insert_eq. }
    rewrite lookup_insert_ne by done. apply (hk_rest _ _ Hok). intros (i & Hi & H0). apply Hx. exists i. split; [|done].
    cbn. rewrite lookup_insert_ne; [done|]. intros ->. congruence.
Qed.

Lemma ok_deleted (t : table) (h : handles) (id : nat) : handles_ok t h → handles_ok t (fd_handle_delete id h).2.
Proof.
  intros Hok. unfold fd_handle_delete, get, modify, mbind, M_bind.
  destruct (h_objects h !! id) as [fd|] eqn:Hid.
  2: { unfold m_fd. rewrite Hid. cbn. rewrite delete_id by done. by destruct h. }
  unfold m_fd. rewrite Hid.
  assert (∀ x, owns (MkHandles (delete id (h_objects h)) (h_table h)) x ↔ owns h x ∧ x ≠ fd) as Hown.
  { intros x. unfold owns. cbn. split.
    - intros (i & [Hne Hi]%lookup_delete_Some & Hx). split; [by exists i|]. intros ->. apply Hne. by apply (hk_once _ _ Hok id i fd).
    - intros [(i & Hi & Hx) Hne]. exists i. split; [|done]. rewrite lookup_delete_ne; [done|]. intros ->. congruence. }
  change (default (-1) (Some fd)) with fd. destruct (Z.leb_spec 0 fd) as [Hfd|Hfd]; cbn.
  - split; cbn [h_objects h_table].
    + intros i j x [_ Hi]%lookup_delete_Some [_ Hj]%lookup_delete_Some. by apply (hk_once _ _ Hok).
    + intros x Hx. apply Hown in Hx as [Hx Hne]. destruct (hk_new _ _ Hok x Hx) as [H1 H2]. split; [done|].
      by rewrite lookup_delete_ne.
    + intros x Hx. destruct (decide (x = fd)) as [->|Hne].
      * rewrite lookup_delete_eq. symmetry. apply (hk_new _ _ Hok). by exists id.
      * rewrite lookup_delete_ne by done. apply (hk_rest _ _ Hok). intros Ho. by apply Hx, Hown.
  - apply ok_objects; [done|..].
    + intros i j x [_ Hi]%lookup_delete_Some [_ Hj]%lookup_delete_Some. by apply (hk_once _ _ Hok).
    + intros x. rewrite Hown. split; [by intros [? _]|]. intros Hx. split; [done|]. intros ->. destruct Hx as (i & _ & ?). lia.
Qed.

Lemma allowed_step_ok (t : table) (h : handles) (o : handle_op) :
  handles_ok t h → allowed o h → ¬ overwrites o h → handles_ok t (run_handle_op o h).2.
Proof.
  intros Hok Ha Ho. destruct o as [id|id what|id|id old|id other|id]; cbn [run_handle_op allowed overwrites] in *.
  - apply ok_none; [done|]. unfold m_fd. rewrite Ha. cbn. lia.
  - destruct (lowest_free (h_table h)) as [Hf H0].
    unfold on_descriptors, zoom, fd_open, get, modify, fd_handle_new, mbind, M_bind. cbn.
    destruct (Z.ltb_spec (lowest (h_table h)) 0); [lia|]. by apply (ok_opened t h id (lowest (h_table h)) what).
  - done.
  - apply ok_moved; [done|by destruct Ha|]. unfold m_fd. destruct Ha as [-> _]. cbn. lia.
  - apply (ok_moved t h id other Hok); [by destruct Ha|lia].
  - by apply ok_deleted.
Qed.

(** Owners of descriptors.  As long as nothing is assigned to an object that owns a descriptor, no
    two objects own the same one, the descriptors of the program are those from before and those
    that are owned, and once all objects are gone the table is what it was: nothing is leaked and
    nothing is closed that is not owned. *)
Theorem handles_close_own (t : table) (h : handles) :
  rtc handle_step (MkHandles ∅ t) h → handles_ok t h ∧ (h_objects h = ∅ → h_table h = t).
Proof.
  intros Hr. assert (handles_ok t h) as Hok.
  { assert (handles_ok t (MkHandles ∅ t)) as H0.
    { split; cbn; [intros i j fd; by rewrite lookup_empty|intros fd (i & Hi & _); cbn in Hi; by rewrite lookup_empty in Hi|done]. }
    revert H0. induction Hr as [|h1 h2 h3 (o & Ha & Ho & ->) _ IH]; [done|]. intros H1. by apply IH, allowed_step_ok. }
  split; [done|]. intros He. apply map_eq. intros fd. apply (hk_rest _ _ Hok).
  intros (i & Hi & _). by rewrite He, lookup_empty in Hi.
Qed.

(** An object that is assigned to loses the descriptor that it owned. *)
Example assign_leaks :
  let run l h := fold_left (λ h o, (run_handle_op o h).2) l h in
  let t : table := {[0 := "in"; 1 := "out"; 2 := "err"]} in
  let h := run [HOpen 1 "a"; HOpen 2 "b"; HAssign 1 2; HDelete 1; HDelete 2] (MkHandles ∅ t) in
  h_objects h = ∅ ∧ h_table h = <[3 := "a"]> t.
Proof. vm_compute. done. Qed.

Lemma null_run (t : table) (target : Z) (b : bool) (source : Z) :
  is_Some (t !! source) ∨ source < 0 →
  ∃ t', dup2_or_dev_null b source target t = (Ok tt, t') ∧
  t' !! target = if source <? 0 then if b then Some "/dev/null" else None else t !! source.
Proof.
  intros Hs. unfold dup2_or_dev_null, mbind, M_bind. destruct (Z.ltb_spec source 0) as [Hn|Hn].
  - destruct b.
    + unfold fd_open, get, modify, mbind, M_bind, mret, M_ret. destruct (lowest_free t) as [Hf H0].
      destruct (Z.leb_spec 0 (lowest t)); [|lia]. unfold fd_dup2, modify. rewrite lookup_insert_eq.
      eexists. split; [reflexivity|]. apply lookup_insert_eq.
    + unfold mret, M_ret. cbn. eexists. split; [reflexivity|]. apply lookup_delete_eq.
  - destruct Hs as [[x Hx]|Hs]; [|lia]. unfold mret, M_ret. destruct (Z.leb_spec 0 source); [|lia].
    unfold fd_dup2, modify. rewrite Hx. eexists. split; [reflexivity|]. apply lookup_insert_eq.
Qed.

(** Waiting ends with the first answer that is no interruption. *)
Lemma cti_waitpid_answer (pid : Z) (n : nat) (a : wait_outcome) (rest : list wait_outcome) :
  a ≠ WaitErrno 4 → cti_waitpid pid (replicate n (WaitErrno 4) ++ a :: rest) =
  match a with WaitRc rc => rc | WaitErrno e => if e =? 10 then pid else -1 end.
Proof.
  intros Ha. induction n as [|n IH]; [|done]. cbn. destruct a as [rc|e]; [done|].
  destruct (Z.eqb_spec e 4) as [->|]; done.
Qed.

Example handles_close_own_witness :
  let t : table := {[0 := "in"]} in
  let h := (run_handle_op (HDelete 2) (run_handle_op (HDelete 1) (run_handle_op (HMove 2 1) (run_handle_op (HOpen 1 "a") (MkHandles ∅ t)).2).2).2).2 in
  h_table h = t.
Proof.
  intros t h. apply (handles_close_own t h); [|reflexivity].
  apply (rtc_l _ _ (run_handle_op (HOpen 1 "a") (MkHandles ∅ t)).2); [exists (HOpen 1 "a"); split; [reflexivity|split; [intros []|reflexivity]]|].
  eapply rtc_l; [exists (HMove 2 1); split; [split; [reflexivity|by eexists]|split; [intros []|reflexivity]]|].
  eapply rtc_l; [exists (HDelete 1); split; [by eexists|split; [intros []|reflexivity]]|].
  eapply rtc_l; [exists (HDelete 2); split; [by eexists|split; [intros []|reflexivity]]|]. apply rtc_refl.
Defined.
